(* ===== verification/_CoqProject ===== *)
-Q . S2P
Prelude.v
Errno.v
Bits.v
Pmm.v
Vmm.v
VmmSpec.v
VmmSpace.v
Kmap.v
VmmDir.v
DirMap.v
Bitmap.v
LibGcc.v
Bytes.v
Format.v
Net.v
NetSpec.v
IpSpec.v
Mem.v
Strings.v
Block.v
Fat.v
FatSpec.v
FatFile.v
FatName.v
FatDir.v
FatDirSpec.v
Files.v
FilesSpec.v
FilesProps.v
Pipe.v
Kmalloc.v
HeapSpec.v
KernelHeap.v
ListHead.v
Mqueue.v
MqueueSpec.v
MqueueProps.v
ProcList.v
Signal.v
RtSched.v
RtSpec.v
Mlfq.v
Scheduler.v
Starvation.v
PrioSched.v
RbTree.v
RbSpec.v
RbCells.v
RbRotate.v
RbInsert.v
RbErase.v
RbIter.v
WaitQueue.v
Threads.v
Spinlock.v
Mutex.v
Semaphore.v
Cfs.v
CfsSpec.v
CfsFair.v
