(* ===== verification/Prelude.v ===== *)
(** * EduOS kernel: verification development

    EduOS is a teaching kernel for i386 in C, with a small user library.  This
    development translates its components to functions of Rocq and proves what they
    promise to each other.  Paths below are relative to src/.

    ** How C is modelled

    - Integers are [Z]; where a C type of [w] bits can overflow, the wrap-around is
      written out ([u8] ... [u64], [i8] ... [i64]).  Bit operations are those of [Z].
    - A C function is a function in the monad [M S] over the state [S] of its
      component: [Ret] is a normal return with the new state, [Panic] a call of
      [kernel_panic], [Undef] an access outside of an array, through a null pointer or
      to freed memory.  Error returns are ordinary results.  A theorem that says what
      an operation returns therefore says that it is safe and terminates.
    - Loops of a fixed number of iterations are [for_up] and [for_ret]; other loops
      take fuel.  Fuel is the number of list nodes, tree nodes, clusters or mapped
      bytes that the loop can visit, plus one; running out is [Undef] or leaves the
      result short, so the theorems on results show that it is enough.  [fold_sum] of Net.v takes three
      rounds, of which two suffice for 32 bits (NetSpec.fold_sum_spec).
    - Results of [kmalloc], ticks of the timer, and the code behind function pointers
      are arguments; a class states what is relied on, and instances show that the
      modelled components (or a simple device) satisfy it.  Printing has no effect.
    - Locks disable interrupts on a single processor; except in Threads.v and the files
      that use it, an operation runs without interleaving.

    ** Shared files

    - Prelude.v: integers, the monad, arrays, loop rules, list lemmas; the rewriting
      database [run] for steps that need no facts and the database [words] for bounds.
    - Errno.v: error numbers.  Bits.v: bits in arrays of words.  Bytes.v: byte buffers
      and little-endian fields.  Mem.v: byte-addressed memory.

    ** Memory

    - Pmm.v (kernel/mm/pmm.c): the bitmap of page frames refines a set of free frames;
      allocation and release are exact and frames are given out once ([pmm_exclusive]).
    - Vmm.v, VmmSpec.v, VmmSpace.v (kernel/mm/vmm.c): page tables changed through the
      recursive mapping, with the translation cache; mapping and unmapping of pages and
      regions change the address space as asked, and the cache never disagrees with the
      tables.  VmmDir.v, DirMap.v: directories of other address spaces, built and changed
      through temporary mappings.  Kmap.v (kernel/mm/kmap.c): the pool of such mappings.
    - Kmalloc.v, HeapSpec.v (kernel/mm/kmalloc.c): the heap, whose headers live in the
      memory they describe, refines a list of blocks; [kmalloc] and [kfree] keep the
      contents of live blocks.  KernelHeap.v puts heap, page tables and frames together:
      after any sequence of calls held memory is disjoint and mapped.

    ** Data structures and libraries

    - Bitmap.v (include/bitmap.h), ListHead.v (include/list.h): operations on bits, and
      linked lists as sequences of assignments that refine lists.
    - RbTree.v, RbSpec.v, RbCells.v, RbRotate.v, RbInsert.v, RbErase.v, RbIter.v
      (lib/rbtree.c): the pointer algorithms compute rebalancing functions on trees,
      which keep order and balance.
    - LibGcc.v (lib/libgcc_compat.c, lib/divdi3.c): 64-bit division.  Strings.v
      (lib/string.c): string functions.  Format.v (kernel/kernel.c): the three
      interpreters of format strings agree with one specification.

    ** Disk, files and network

    - Block.v (kernel/drivers/block.c, ramdisk.c): the class [BlockDevice] and the RAM
      disk as its instance.
    - Fat.v, FatSpec.v (kernel/fs/fat32.c): mounting, allocation table and clusters.
      FatFile.v (fat32_file.c): files are the bytes of their chains; what is written is
      read back.  FatName.v, FatDir.v, FatDirSpec.v (fat32_lfn.c, fat32_dir.c,
      fat32_create.c): names, lookup, listing, creation and removal.
    - Files.v, FilesSpec.v, FilesProps.v (kernel/fs/vfs_core.c, kernel/fs/devfs.c,
      kernel/process/fd_table.c, kernel/syscall/sys_fd.c, sys_io.c): descriptors, open
      files and inodes with reference counts; no sequence of calls on files of the disk
      uses freed memory or leaks a file, but opening a device twice does.
    - Net.v, NetSpec.v, IpSpec.v (kernel/net/netdev.c, ethernet.c, ip.c): packet buffers,
      ARP between two hosts, sending and receiving IP packets, the checksum.

    ** Processes

    - ProcList.v: process records and queues.  Mlfq.v, PrioSched.v, Cfs.v, CfsSpec.v,
      CfsFair.v (kernel/process/mlfq_sched.c, priority_sched.c, cfs_sched.c): the
      policies refine lists of processes; with the fair one, whose operations nothing in
      the kernel calls yet, processes that take turns stay close to each other and none
      starves.  Scheduler.v, Starvation.v (scheduler.c): decisions, ticks and
      preemption; round robin is fair, the first process of the feedback queues is not.
    - RtSched.v, RtSpec.v (rt_sched.c): the real-time queues refine one hundred lists;
      processes of the round-robin policy take turns by whole slices (nothing calls
      these operations yet either).
    - Signal.v (signal.c): delivery of signals; SIGKILL cannot be blocked or caught.
    - Pipe.v (kernel/ipc/pipe.c), Mqueue.v, MqueueSpec.v, MqueueProps.v
      (kernel/ipc/mqueue.c): pipes are queues of bytes; messages are delivered by
      priority and in order.
    - WaitQueue.v (kernel/sync/wait_queue.c).  Threads.v: interleavings of threads that
      can be preempted while interrupts are enabled.  Spinlock.v, Mutex.v, Semaphore.v
      (kernel/sync): executed statement by statement under these interleavings; the
      locks exclude as long as threads unlock only what they locked, the semaphores
      conserve their permits.

    ** Interfaces

    [FrameSource] (frames for page tables, instance Pmm), [PageSource] (pages for the
    heap, instance KernelHeap), [BlockDevice] (sectors for FAT32, instance the RAM disk)
    and [FileOps] (operations of drivers, instance the devices null and zero) state what
    a component relies on; its theorems are proved from the interface.

    ** Not modelled

    - Boot code, descriptor tables, interrupt entry, port input and output, drivers for
      screen, keyboard, mouse, disk and the receiving half of the network card: their
      effects are on hardware.  Of the context switch only the decision is modelled.
    - Path lookup through the dentry tree, links, permissions, process files, and the
      adapter between FAT32 and the virtual file system: path lookup is an argument of
      the model of open files, of which the branches for devices and for files of the
      disk are modelled.
    - fork, exec, program loading, memory mapping, page cache and reclaim: they
      work on several address spaces and on the frames of interrupted processes at once;
      reading them gave findings, which are listed without a theorem.
    - Sockets, UDP and TCP: no received packet reaches them.  System V IPC and input
      devices: their tables of segments and listeners are not covered.
    - The user library beyond two string functions, and the graphical programs.

    Several theorems show that the code does not do what it means to, such as
    [device_reopen_dangles] of FilesProps.v, [mlfq_first_process_never_leaves] of
    Starvation.v and [ping_underflows] of IpSpec.v. *)

From Stdlib Require Import ZArith Lia.
From stdpp Require Export base list numbers gmap.

#[local] Open Scope Z_scope.

(** ** Machine integers

    A [w]-bit unsigned integer of the C code is a [Z] in [0, 2^w); every
    operation of the code that can leave that range is followed by the
    wrap-around that the C type applies.  [int] values are [Z] in
    [-2^31, 2^31). *)

Definition u8  (z : Z) : Z := z mod 2 ^ 8.
Definition u16 (z : Z) : Z := z mod 2 ^ 16.
Definition u32 (z : Z) : Z := z mod 2 ^ 32.
Definition u64 (z : Z) : Z := z mod 2 ^ 64.

Definition sgn (w z : Z) : Z :=
  let m := z mod 2 ^ w in if m <? 2 ^ (w - 1) then m else m - 2 ^ w.
Definition i8  (z : Z) : Z := sgn 8 z.
Definition i32 (z : Z) : Z := sgn 32 z.
Definition i64 (z : Z) : Z := sgn 64 z.

(** ** Effects

    A C function is a function from the state of its component to an
    [outcome]: it returns a value and the new state, it stops in [panic()],
    or it does something the C program has no defined meaning for (a null or
    dangling dereference, an index outside an array, a loop that exceeds the
    fuel given to it). *)

Inductive outcome (A : Type) : Type :=
  | Ret (a : A)
  | Panic
  | Undef.
Arguments Ret {A} _.
Arguments Panic {A}.
Arguments Undef {A}.

(** The value a computation returns, without the state. *)
Definition result {A S} (o : outcome (A * S)) : option A :=
  match o with Ret (a, _) => Some a | _ => None end.

Definition M (S A : Type) : Type := S → outcome (A * S).

#[export] Instance M_ret S : MRet (M S) := λ A a s, Ret (a, s).
#[export] Instance M_bind S : MBind (M S) := λ A B k m s,
  match m s with
  | Ret (a, s') => k a s'
  | Panic => Panic
  | Undef => Undef
  end.

Section Effects.
Context {S : Type}.

Definition get : M S S := λ s, Ret (s, s).
Definition gets {A} (f : S → A) : M S A := λ s, Ret (f s, s).
Definition put (s : S) : M S unit := λ _, Ret (tt, s).
Definition modify (f : S → S) : M S unit := λ s, Ret (tt, f s).
Definition undef {A} : M S A := λ _, Undef.
Definition panic {A} : M S A := λ _, Panic.

(** A load through a pointer or an index: [None] is undefined behaviour. *)
Definition deref {A} (o : option A) : M S A :=
  match o with Some a => mret a | None => undef end.

(** [for (i = lo; i < lo + n; i++) body(i)] *)
Fixpoint for_up (n : nat) (i : Z) (body : Z → M S unit) : M S unit :=
  match n with
  | O => mret tt
  | Datatypes.S k => _ ← body i; for_up k (i + 1) body
  end.

(** The same loop with a body that may return from the function. *)
Fixpoint for_ret {R} (n : nat) (i : Z) (body : Z → M S (option R)) : M S (option R) :=
  match n with
  | O => mret None
  | Datatypes.S k =>
      r ← body i;
      match r with
      | Some v => mret (Some v)
      | None => for_ret k (i + 1) body
      end
  end.

(** Run a computation on a part of a larger state. *)
Definition zoom {T A} (view : T → S) (upd : S → T → T) (m : M S A) : M T A := λ t,
  match m (view t) with
  | Ret (a, s) => Ret (a, upd s t)
  | Panic => Panic
  | Undef => Undef
  end.

Lemma zoom_Ret {T A} (view : T → S) (upd : S → T → T) (m : M S A) t a s :
  m (view t) = Ret (a, s) → zoom view upd m t = Ret (a, upd s t).
Proof. intros H. unfold zoom. by rewrite H. Qed.

Lemma bind_Ret {A B} (m : M S A) (k : A → M S B) s a s' :
  m s = Ret (a, s') → (m ≫= k) s = k a s'.
Proof. intros H. unfold mbind, M_bind. by rewrite H. Qed.

Lemma bind_Panic {A B} (m : M S A) (k : A → M S B) s : m s = Panic → (m ≫= k) s = Panic.
Proof. intros H. unfold mbind, M_bind. by rewrite H. Qed.

Lemma bind_Undef {A B} (m : M S A) (k : A → M S B) s : m s = Undef → (m ≫= k) s = Undef.
Proof. intros H. unfold mbind, M_bind. by rewrite H. Qed.

Lemma bind_assoc {A B C} (m : M S A) (k : A → M S B) (h : B → M S C) s :
  ((m ≫= k) ≫= h) s = (m ≫= λ a, k a ≫= h) s.
Proof. unfold mbind, M_bind. by destruct (m s) as [[a s']| |]. Qed.

Lemma bind_Ret_inv {A B} (m : M S A) (k : A → M S B) s b s2 :
  (m ≫= k) s = Ret (b, s2) → ∃ a s1, m s = Ret (a, s1) ∧ k a s1 = Ret (b, s2).
Proof.
  unfold mbind, M_bind. intros H.
  destruct (m s) as [[a s1]| |] eqn:E; [eauto | done | done].
Qed.

Lemma bind_modify {B} (f : S → S) (k : unit → M S B) s : (modify f ≫= k) s = k tt (f s).
Proof. reflexivity. Qed.

Lemma bind_get {B} (k : S → M S B) s : (get ≫= k) s = k s s.
Proof. reflexivity. Qed.

Lemma mret_eq {A} (a : A) (s : S) : (mret a : M S A) s = Ret (a, s).
Proof. reflexivity. Qed.

Lemma deref_Some {A} (a : A) (s : S) : deref (Some a) s = Ret (a, s).
Proof. reflexivity. Qed.

Lemma bind_mret {A B} (a : A) (k : A → M S B) s : (mret a ≫= k) s = k a s.
Proof. done. Qed.

Lemma bind_deref {A B} (a : A) (k : A → M S B) s : (deref (Some a) ≫= k) s = k a s.
Proof. done. Qed.

(** Loop rule: an invariant indexed by the loop variable. *)
Lemma for_up_inv (I : Z → S → Prop) (body : Z → M S unit) n i s :
  I i s →
  (∀ j t, i ≤ j < i + Z.of_nat n → I j t → ∃ t', body j t = Ret (tt, t') ∧ I (j + 1) t') →
  ∃ s', for_up n i body s = Ret (tt, s') ∧ I (i + Z.of_nat n) s'.
Proof.
  revert i s. induction n as [|n IH]; intros i s HI Hb.
  - exists s. split; [done|]. by replace (i + Z.of_nat 0) with i by lia.
  - destruct (Hb i s) as (t & Ht & HIt); [lia | done |].
    destruct (IH (i + 1) t) as (s' & Hs' & HI'); [done | |].
    + intros j u Hj Hu. apply Hb; [lia | done].
    + exists s'. split.
      * simpl. erewrite bind_Ret by eassumption. done.
      * by replace (i + Z.of_nat (Datatypes.S n)) with (i + 1 + Z.of_nat n) by lia.
Qed.

(** Search loops: a body that only reads, described by [Q]. *)
Lemma for_ret_rel {R} (Q : Z → option R → Prop) (body : Z → M S (option R)) n i s :
  (∀ j, i ≤ j < i + Z.of_nat n → ∃ o, body j s = Ret (o, s) ∧ Q j o) →
  ∃ res, for_ret n i body s = Ret (res, s) ∧
    match res with
    | Some v => ∃ j, i ≤ j < i + Z.of_nat n ∧ Q j (Some v) ∧ ∀ k, i ≤ k < j → Q k None
    | None => ∀ j, i ≤ j < i + Z.of_nat n → Q j None
    end.
Proof.
  revert i. induction n as [|n IH]; intros i Hb.
  - exists None. split; [done|]. intros; lia.
  - destruct (Hb i) as (o & E & HQ); [lia|]. cbn [for_ret]. rewrite (bind_Ret _ _ _ _ _ E).
    destruct o as [v|].
    + exists (Some v). split; [done|]. exists i. split_and!; [lia | lia | done |]. intros; lia.
    + destruct (IH (i + 1)) as (res & E' & Hres); [intros; apply Hb; lia|].
      exists res. split; [done|]. destruct res as [v|].
      * destruct Hres as (j & Hj & HQj & Hk). exists j. split_and!; [lia | lia | done |].
        intros k Hk'. destruct (decide (k = i)) as [->|]; [done | apply Hk; lia].
      * intros j Hj. destruct (decide (j = i)) as [->|]; [done | apply Hres; lia].
Qed.

(** Search loops over the elements of a list: the first result that is not [None]. *)
Fixpoint first_some {A R} (f : A → option R) (l : list A) : option R :=
  match l with
  | [] => None
  | x :: l => match f x with Some r => Some r | None => first_some f l end
  end.

Lemma for_ret_list {A R} (f : A → option R) (body : Z → M S (option R)) (l : list A) i s :
  (∀ j x, l !! j = Some x → body (i + Z.of_nat j) s = Ret (f x, s)) → for_ret (length l) i body s = Ret (first_some f l, s).
Proof.
  revert i. induction l as [|x l IH]; intros i Hb; [done|]. cbn [length for_ret first_some].
  pose proof (Hb 0%nat x eq_refl) as E. rewrite Z.add_0_r in E. rewrite (bind_Ret _ _ _ _ _ E). destruct (f x); [done|].
  apply IH. intros j y Hy. replace (i + 1 + Z.of_nat j) with (i + Z.of_nat (Datatypes.S j)) by lia. by apply Hb.
Qed.

(** Search loops whose body acts at the first hit and returns from there. *)
Lemma for_ret_first {R} (hit : Z → bool) (body : Z → M S (option R)) n i s :
  (∀ j, i ≤ j < i + Z.of_nat n → hit j = false → body j s = Ret (None, s)) →
  (∀ j, i ≤ j < i + Z.of_nat n → hit j = true → ∀ s', body j s ≠ Ret (None, s')) →
  (∃ j, i ≤ j < i + Z.of_nat n ∧ hit j = true ∧ (∀ k, i ≤ k < j → hit k = false) ∧ for_ret n i body s = body j s) ∨
  ((∀ j, i ≤ j < i + Z.of_nat n → hit j = false) ∧ for_ret n i body s = Ret (None, s)).
Proof.
  revert i. induction n as [|n IH]; intros i Hmiss Hhit; [right; split; [intros; lia | done]|].
  cbn [for_ret]. destruct (hit i) eqn:Hi.
  - left. exists i. split_and!; [lia | lia | done | intros; lia |]. unfold mbind, M_bind.
    destruct (body i s) as [[[v|] s']| |] eqn:E; try done. exfalso. by apply (Hhit i ltac:(lia) Hi s').
  - rewrite (bind_Ret _ _ _ _ _ (Hmiss i ltac:(lia) Hi)).
    destruct (IH (i + 1)) as [(j & Hj & Hh & Hk & E)|[Hn E]].
    + intros j Hj. apply Hmiss. lia.
    + intros j Hj. apply Hhit. lia.
    + left. exists j. split_and!; [lia | lia | done | | done].
      intros k Hk'. destruct (decide (k = i)) as [->|]; [done | apply Hk; lia].
    + right. split; [|done]. intros j Hj. destruct (decide (j = i)) as [->|]; [done | apply Hn; lia].
Qed.
End Effects.

(** Steps that need no fact about the state. *)
Create Rewrite HintDb run.
#[export] Hint Rewrite @bind_get @bind_modify @bind_mret @bind_deref @bind_assoc : run.

Ltac run := autorewrite with run.

(** ** Arrays

    A C array is a list; indexing outside it has no value. *)

Definition aget {A} (l : list A) (i : Z) : option A :=
  if 0 <=? i then l !! Z.to_nat i else None.

Definition aset {A} (l : list A) (i : Z) (v : A) : option (list A) :=
  if (0 <=? i) && (i <? Z.of_nat (length l)) then Some (<[Z.to_nat i := v]> l) else None.

Lemma aget_Some {A} (l : list A) i :
  0 ≤ i < Z.of_nat (length l) → ∃ v, aget l i = Some v.
Proof.
  intros [H0 H1]. unfold aget. rewrite (proj2 (Z.leb_le 0 i)) by done.
  apply lookup_lt_is_Some. lia.
Qed.

Lemma aset_Some {A} (l : list A) i v :
  0 ≤ i < Z.of_nat (length l) → aset l i v = Some (<[Z.to_nat i := v]> l).
Proof.
  intros [H0 H1]. unfold aset.
  by rewrite (proj2 (Z.leb_le 0 i)), (proj2 (Z.ltb_lt i _)).
Qed.

Lemma aget_range {A} (l : list A) i x : aget l i = Some x → 0 ≤ i < Z.of_nat (length l).
Proof. unfold aget. destruct (Z.leb_spec 0 i); [|done]. intros Hl%lookup_lt_Some. lia. Qed.

Lemma aget_lookup {A} (l : list A) i x : aget l i = Some x → 0 ≤ i → l !! Z.to_nat i = Some x.
Proof. unfold aget. intros H Hi. by rewrite (proj2 (Z.leb_le 0 i)) in H. Qed.

Lemma aget_insert {A} (l : list A) i j x :
  0 ≤ i < Z.of_nat (length l) → aget (<[Z.to_nat i := x]> l) j = if j =? i then Some x else aget l j.
Proof.
  intros Hi. unfold aget. destruct (Z.leb_spec 0 j); [|by rewrite (proj2 (Z.eqb_neq j i)) by lia].
  destruct (Z.eqb_spec j i) as [->|Hne]; [apply list_lookup_insert_eq; lia | apply list_lookup_insert_ne; lia].
Qed.

Lemma filter_none {A} (P : A → Prop) `{!∀ x, Decision (P x)} (l : list A) :
  (∀ x, x ∈ l → ¬ P x) → filter P l = [].
Proof.
  induction l as [|x l IH]; intros Hn; [done|].
  rewrite filter_cons_False by (apply Hn; left). apply IH. intros y Hy. apply Hn. by right.
Qed.

Lemma filter_all {A} (P : A → Prop) `{!∀ x, Decision (P x)} (l : list A) :
  (∀ x, x ∈ l → P x) → filter P l = l.
Proof.
  induction l as [|x l IH]; intros Hp; [done|]. rewrite filter_cons_True by (apply Hp; left).
  f_equal. apply IH. intros y Hy. apply Hp. by right.
Qed.

Lemma filter_agree {A} (P Q : A → Prop) `{!∀ x, Decision (P x), !∀ x, Decision (Q x)} (l : list A) :
  (∀ x, x ∈ l → P x ↔ Q x) → filter P l = filter Q l.
Proof.
  induction l as [|x l IH]; intros Hpq; [done|]. rewrite !filter_cons, IH by (intros y Hy; apply Hpq; by right).
  specialize (Hpq x ltac:(left)). destruct (decide (P x)), (decide (Q x)); (done || tauto).
Qed.

Lemma length_filter_le {A} (P Q : A → Prop) `{!∀ x, Decision (P x), !∀ x, Decision (Q x)} (l : list A) :
  (∀ x, x ∈ l → P x → Q x) → (length (filter P l) ≤ length (filter Q l))%nat.
Proof.
  induction l as [|x l IH]; intros Himp; [done|]. assert (∀ y, y ∈ l → P y → Q y) as Hl by (intros y Hy; apply Himp; by right). specialize (IH Hl).
  destruct (decide (P x)) as [Hp|Hp].
  - rewrite !filter_cons_True by (done || by apply Himp; [left|]). cbn. lia.
  - rewrite filter_cons_False by done. destruct (decide (Q x)); [rewrite filter_cons_True by done; cbn; lia | by rewrite filter_cons_False].
Qed.

Lemma length_filter_lt {A} (P Q : A → Prop) `{!∀ x, Decision (P x), !∀ x, Decision (Q x)} (l : list A) y :
  (∀ x, x ∈ l → P x → Q x) → y ∈ l → Q y → ¬ P y → (length (filter P l) < length (filter Q l))%nat.
Proof.
  intros Himp [l1 [l2 ->]]%list_elem_of_split Hq Hp. rewrite !filter_app, !length_app, filter_cons_False, filter_cons_True by done. cbn.
  pose proof (length_filter_le P Q l1 ltac:(set_solver)). pose proof (length_filter_le P Q l2 ltac:(set_solver)). lia.
Qed.

Lemma find_app {A} (f : A → bool) l1 l2 :
  List.find f (l1 ++ l2) = match List.find f l1 with Some x => Some x | None => List.find f l2 end.
Proof. induction l1 as [|x l1 IH]; simpl; [done|]. by destruct (f x). Qed.

(** ** Lists of lists *)

Lemma length_concat_insert {A} (ls : list (list A)) i l l' :
  ls !! i = Some l →
  (length (concat (<[i := l']> ls)) + length l = length (concat ls) + length l')%nat.
Proof.
  revert i. induction ls as [|x ls IH]; intros [|i] H; simplify_eq/=; rewrite !length_app; [lia|].
  specialize (IH i H). lia.
Qed.

Lemma length_concat_lookup {A} (ls : list (list A)) i l :
  ls !! i = Some l → (length l ≤ length (concat ls))%nat.
Proof. intros H. pose proof (length_concat_insert ls i l [] H). simpl in *. lia. Qed.

Lemma alter_as_insert {A} (f : A → A) (ls : list A) i l :
  ls !! i = Some l → alter f i ls = <[i := f l]> ls.
Proof. revert i. induction ls as [|x ls IH]; intros [|i] H; simplify_eq/=; f_equal; auto. Qed.

Lemma elem_of_concat {A} (ls : list (list A)) i l a : ls !! i = Some l → a ∈ l → a ∈ concat ls.
Proof.
  revert i. induction ls as [|x ls IH]; intros [|i] H Ha; simplify_eq/=; apply elem_of_app; eauto.
Qed.

Lemma concat_elem_of {A} (ls : list (list A)) a : a ∈ concat ls → ∃ i l, ls !! i = Some l ∧ a ∈ l.
Proof.
  induction ls as [|x ls IH]; simpl; [set_solver|]. intros [H|H]%elem_of_app.
  - by exists 0%nat, x.
  - destruct (IH H) as (i & l & Hl & Ha). by exists (S i), l.
Qed.

(** ** Bits *)

Lemma u32_small z : 0 ≤ z < 2 ^ 32 → u32 z = z.
Proof. apply Z.mod_small. Qed.

Lemma u32_bounds z : 0 ≤ u32 z < 2 ^ 32.
Proof. apply Z.mod_pos_bound. lia. Qed.

Lemma u64_small z : 0 ≤ z < 2 ^ 64 → u64 z = z.
Proof. apply Z.mod_small. Qed.

Lemma u64_add_l x y : u64 (u64 x + y) = u64 (x + y).
Proof. unfold u64. by rewrite Zplus_mod_idemp_l. Qed.

Lemma u64_bounds z : 0 ≤ u64 z < 2 ^ 64.
Proof. apply Z.mod_pos_bound. lia. Qed.

Create HintDb words.

Lemma u32_nonneg z : 0 ≤ u32 z.
Proof. apply u32_bounds. Qed.

#[export] Hint Resolve u32_bounds u64_bounds u32_nonneg : words.

Lemma testbit_u32 z i : 0 ≤ i < 32 → Z.testbit (u32 z) i = Z.testbit z i.
Proof. intros. unfold u32. apply Z.mod_pow2_bits_low. lia. Qed.

(** A value all of whose bits are below [w] is a [w]-bit value. *)
Lemma bits_bounded w z :
  0 ≤ w → 0 ≤ z → (∀ i, w ≤ i → Z.testbit z i = false) → z < 2 ^ w.
Proof.
  intros Hw Hz Hb.
  assert (z mod 2 ^ w = z) as <-; [|apply Z.mod_pos_bound; lia].
  apply Z.bits_inj'. intros i Hi.
  destruct (decide (i < w)).
  - apply Z.mod_pow2_bits_low. lia.
  - rewrite Z.mod_pow2_bits_high by lia. symmetry. apply Hb. lia.
Qed.

Lemma testbit_high w z i : 0 ≤ z < 2 ^ w → w ≤ i → Z.testbit z i = false.
Proof.
  intros Hz Hi. destruct (decide (0 ≤ w)) as [|Hw].
  - rewrite <- (Z.mod_small z (2 ^ w)) by done. apply Z.mod_pow2_bits_high. lia.
  - rewrite Z.pow_neg_r in Hz by lia. lia.
Qed.

(** Masking with [0xFFFFF000] rounds down to a page boundary, masking with
    [0xFFF] keeps the offset in the page. *)
Lemma land_page_mask x : 0 ≤ x < 2 ^ 32 → Z.land x 0xFFFFF000 = x / 4096 * 4096.
Proof.
  intros Hx. change 0xFFFFF000 with (Z.shiftl (Z.ones 20) 12).
  replace (x / 4096 * 4096) with (Z.shiftl (Z.shiftr x 12) 12)
    by (rewrite Z.shiftl_mul_pow2, Z.shiftr_div_pow2 by lia; done).
  apply Z.bits_inj'. intros i Hi. rewrite Z.land_spec, !Z.shiftl_spec by lia.
  destruct (decide (i < 12)).
  - rewrite !(Z.testbit_neg_r _ (i - 12)) by lia. apply andb_false_r.
  - rewrite Z.shiftr_spec by lia. replace (i - 12 + 12) with i by lia.
    destruct (decide (i < 32)).
    + rewrite Z.ones_spec_low by lia. apply andb_true_r.
    + rewrite (testbit_high 32 x) by (done || lia). done.
Qed.

(** Masking with the complement of [2^k - 1] rounds down to a multiple of 2^k. *)
Lemma land_align k x :
  0 ≤ k ≤ 32 → 0 ≤ x < 2 ^ 32 → Z.land x (u32 (Z.lnot (2 ^ k - 1))) = x / 2 ^ k * 2 ^ k.
Proof.
  intros Hk Hx. replace (2 ^ k - 1) with (Z.ones k) by (rewrite Z.ones_equiv; lia).
  replace (x / 2 ^ k * 2 ^ k) with (Z.shiftl (Z.shiftr x k) k)
    by (rewrite Z.shiftl_mul_pow2, Z.shiftr_div_pow2 by lia; done).
  apply Z.bits_inj'. intros i Hi. rewrite Z.land_spec, Z.shiftl_spec by lia.
  destruct (decide (i < 32)).
  - rewrite testbit_u32, Z.lnot_spec by lia. destruct (decide (i < k)).
    + rewrite Z.ones_spec_low, (Z.testbit_neg_r _ (i - k)) by lia. apply andb_false_r.
    + rewrite Z.ones_spec_high, Z.shiftr_spec by lia. replace (i - k + k) with i by lia.
      apply andb_true_r.
  - rewrite (testbit_high 32 x) by (done || lia). rewrite Z.shiftr_spec by lia.
    replace (i - k + k) with i by lia. by rewrite (testbit_high 32 x) by (done || lia).
Qed.

Lemma land_page_offset x : Z.land x 0xFFF = x mod 4096.
Proof. change 0xFFF with (Z.ones 12). by rewrite Z.land_ones by lia. Qed.

(** ** Development tactics *)

(** Normal form of nested appends. *)
Ltac app_norm := cbn [app]; repeat (rewrite <- app_assoc || rewrite app_nil_r; cbn [app]).

(** [lia] with division and remainder by constants. *)
Ltac dlia := Z.to_euclidean_division_equations; lia.

(** Turn boolean comparisons of hypotheses and goal into propositions. *)
Ltac zbool :=
  repeat match goal with
  | H : context [(?a <=? ?b)%Z] |- _ => destruct (Z.leb_spec a b)
  | H : context [(?a <? ?b)%Z] |- _ => destruct (Z.ltb_spec a b)
  | H : context [(?a =? ?b)%Z] |- _ => destruct (Z.eqb_spec a b)
  | |- context [(?a <=? ?b)%Z] => destruct (Z.leb_spec a b)
  | |- context [(?a <? ?b)%Z] => destruct (Z.ltb_spec a b)
  | |- context [(?a =? ?b)%Z] => destruct (Z.eqb_spec a b)
  end; simpl in *; try lia.

Lemma i32_small z : - 2 ^ 31 ≤ z < 2 ^ 31 → i32 z = z.
Proof.
  intros Hz. unfold i32, sgn. cbv zeta. change (2 ^ (32 - 1)) with (2 ^ 31).
  destruct (Z.ltb_spec (z mod 2 ^ 32) (2 ^ 31)); dlia.
Qed.

(** The keys of a map bound the length of a list of some of them. *)
Lemma members_bound {A} (t : gmap Z A) (l : list Z) :
  NoDup l → (∀ a, a ∈ l → is_Some (t !! a)) → (length l ≤ size t)%nat.
Proof.
  intros Hnd Hin. rewrite <- (size_dom (D := gset Z)), <- (size_list_to_set (C := gset Z)) by done.
  apply subseteq_size. intros a Ha%elem_of_list_to_set. by apply elem_of_dom, Hin.
Qed.

(** Invert a successful run of a monadic computation. *)
Ltac minv H :=
  let a := fresh "r" in let s := fresh "st" in let E := fresh "E" in
  apply bind_Ret_inv in H as (a & s & E & H).
