(* ===== verification/Errno.v ===== *)
(** * Error numbers (include/errno.h)

    The functions of the kernel return the negated number. *)

From S2P Require Import Prelude.

#[local] Open Scope Z_scope.

Abbreviation EPERM := 1%Z (only parsing).
Abbreviation ENOENT := 2%Z (only parsing).
Abbreviation ESRCH := 3%Z (only parsing).
Abbreviation EIO := 5%Z (only parsing).
Abbreviation EBADF := 9%Z (only parsing).
Abbreviation EAGAIN := 11%Z (only parsing).
Abbreviation ENOMEM := 12%Z (only parsing).
Abbreviation EACCES := 13%Z (only parsing).
Abbreviation EBUSY := 16%Z (only parsing).
Abbreviation EEXIST := 17%Z (only parsing).
Abbreviation ENOTDIR := 20%Z (only parsing).
Abbreviation EISDIR := 21%Z (only parsing).
Abbreviation EINVAL := 22%Z (only parsing).
Abbreviation EMFILE := 24%Z (only parsing).
Abbreviation ENOSPC := 28%Z (only parsing).
Abbreviation EDEADLK := 35%Z (only parsing).
Abbreviation ENAMETOOLONG := 36%Z (only parsing).
Abbreviation ENOSYS := 38%Z (only parsing).
Abbreviation ENOTEMPTY := 39%Z (only parsing).
Abbreviation EOVERFLOW := 75%Z (only parsing).
Abbreviation EMSGSIZE := 90%Z (only parsing).
