(* ===== verification/Bits.v ===== *)
(** * Bit arrays

    A bit array stored in 32-bit words, the representation that the frame
    allocator (kernel/mm/pmm.c) and the generic bitmaps (include/bitmap.h)
    share: bit [i] of the array is bit [i mod 32] of word [i / 32].  The lemmas
    say what the word operations of the code do to the bits. *)

From S2P Require Import Prelude.

#[local] Open Scope Z_scope.

Definition bit (bm : list Z) (f : Z) : bool :=
  Z.testbit (bm !!! Z.to_nat (f / 32)) (f mod 32).

Lemma testbit_one n i : 0 ≤ n → Z.testbit (Z.shiftl 1 n) i = (i =? n).
Proof.
  intros Hn. rewrite Z.shiftl_1_l, Z.pow2_bits_eqb by done. apply Z.eqb_sym.
Qed.

Lemma frame_split f g : 0 ≤ f → 0 ≤ g → f / 32 = g / 32 → f mod 32 = g mod 32 → f = g.
Proof. intros. rewrite (Z.div_mod f 32), (Z.div_mod g 32) by lia. congruence. Qed.

Lemma bit_update bm f g w :
  0 ≤ f → 0 ≤ g → f / 32 < Z.of_nat (length bm) →
  bit (<[Z.to_nat (f / 32) := w]> bm) g =
  if g / 32 =? f / 32 then Z.testbit w (g mod 32) else bit bm g.
Proof.
  intros Hf Hg Hlen. unfold bit.
  assert (0 ≤ f / 32) by (apply Z.div_pos; lia).
  assert (0 ≤ g / 32) by (apply Z.div_pos; lia).
  destruct (Z.eqb_spec (g / 32) (f / 32)) as [->|Hne].
  - by rewrite list_lookup_total_insert_eq by lia.
  - rewrite list_lookup_total_insert_ne by lia. done.
Qed.

Lemma bit_set bm f g :
  0 ≤ f → 0 ≤ g → f / 32 < Z.of_nat (length bm) →
  bit (<[Z.to_nat (f / 32) := Z.lor (bm !!! Z.to_nat (f / 32)) (u32 (Z.shiftl 1 (f mod 32)))]> bm) g =
  (g =? f) || bit bm g.
Proof.
  intros Hf Hg Hlen. rewrite bit_update by done. pose proof (Z.mod_pos_bound g 32).
  pose proof (Z.mod_pos_bound f 32).
  destruct (Z.eqb_spec (g / 32) (f / 32)) as [Hq|Hq].
  - rewrite Z.lor_spec, testbit_u32, testbit_one by lia. unfold bit. rewrite Hq.
    destruct (Z.eqb_spec (g mod 32) (f mod 32)), (Z.eqb_spec g f); try congruence;
      rewrite ?orb_true_r, ?orb_false_r; auto.
    exfalso. eauto using frame_split.
  - destruct (Z.eqb_spec g f); [congruence | done].
Qed.

Lemma bit_clear bm f g :
  0 ≤ f → 0 ≤ g → f / 32 < Z.of_nat (length bm) →
  bit (<[Z.to_nat (f / 32) := Z.land (bm !!! Z.to_nat (f / 32)) (u32 (Z.lnot (Z.shiftl 1 (f mod 32))))]> bm) g =
  negb (g =? f) && bit bm g.
Proof.
  intros Hf Hg Hlen. rewrite bit_update by done. pose proof (Z.mod_pos_bound g 32).
  pose proof (Z.mod_pos_bound f 32).
  destruct (Z.eqb_spec (g / 32) (f / 32)) as [Hq|Hq].
  - rewrite Z.land_spec, testbit_u32, Z.lnot_spec, testbit_one by lia. unfold bit. rewrite Hq.
    destruct (Z.eqb_spec (g mod 32) (f mod 32)), (Z.eqb_spec g f); try congruence;
      simpl; rewrite ?andb_true_r, ?andb_false_r; auto.
    exfalso. eauto using frame_split.
  - destruct (Z.eqb_spec g f); [congruence | done].
Qed.

Lemma land_bounds w x : 0 ≤ w < 2 ^ 32 → 0 ≤ x → 0 ≤ Z.land w x < 2 ^ 32.
Proof.
  intros Hw Hx. assert (0 ≤ Z.land w x) by (apply Z.land_nonneg; lia).
  split; [done|]. apply bits_bounded; [lia | done |].
  intros i Hi. rewrite Z.land_spec, (testbit_high 32 w) by (done || lia). done.
Qed.

Lemma lor_bounds w x : 0 ≤ w < 2 ^ 32 → 0 ≤ x < 2 ^ 32 → 0 ≤ Z.lor w x < 2 ^ 32.
Proof.
  intros Hw Hx. assert (0 ≤ Z.lor w x) by (apply Z.lor_nonneg; lia).
  split; [done|]. apply bits_bounded; [lia | done |].
  intros i Hi. by rewrite Z.lor_spec, (testbit_high 32 w), (testbit_high 32 x) by (done || lia).
Qed.

#[export] Hint Resolve land_bounds lor_bounds : words.

(** Testing a bit with a one-bit mask. *)
Lemma mask_test w n :
  0 ≤ n < 32 → negb (Z.land w (u32 (Z.shiftl 1 n)) =? 0) = Z.testbit w n.
Proof.
  intros Hn. apply eq_true_iff_eq. rewrite negb_true_iff, Z.eqb_neq. split.
  - intros Hne. destruct (Z.testbit w n) eqn:E; [done|]. destruct Hne.
    apply Z.bits_inj'. intros i Hi. rewrite Z.land_spec, Z.bits_0.
    destruct (decide (i < 32)).
    + rewrite testbit_u32, testbit_one by lia.
      destruct (Z.eqb_spec i n) as [->|]; [by rewrite E | apply andb_false_r].
    + rewrite (testbit_high 32 (u32 _)) by (try apply u32_bounds; lia). apply andb_false_r.
  - intros Ht H0. apply (f_equal (λ z, Z.testbit z n)) in H0.
    rewrite Z.land_spec, testbit_u32, testbit_one, Z.bits_0, Ht, Z.eqb_refl in H0 by lia. done.
Qed.
