(* ===== verification/Pmm.v ===== *)
(** * Physical memory manager (kernel/mm/pmm.c, include/mm/pmm.h)

    The bitmap allocator of physical page frames.  The state is the record of
    the file's static variables; the bitmap is the array of 32-bit words that
    [pmm_bitmap] points to.  Every access to the bitmap goes through [aget]
    and [aset], so an index outside the bitmap makes the operation [Undef].
    Messages printed with [kprintf] are not modelled. *)

From S2P Require Import Prelude Bits.
From stdpp Require Import sets.

#[local] Open Scope Z_scope.

Definition PAGE_SIZE : Z := 4096.
Definition PAGE_MASK : Z := 0xFFFFF000.
Definition PAGE_ALIGN_UP (addr : Z) : Z := Z.land (u32 (addr + PAGE_SIZE - 1)) PAGE_MASK.

Record pmm_stats := {
  total_frames : Z;
  used_frames : Z;
  free_frames : Z;
  reserved_frames : Z;
  kernel_frames : Z;
}.

Record pmm := {
  pmm_bitmap : list Z;        (* the words behind the pointer *)
  pmm_bitmap_ptr : Z;         (* the pointer itself *)
  pmm_bitmap_size : Z;
  stats : pmm_stats;
  memory_size : Z;
  kernel_start_phys : Z;
  kernel_end_phys : Z;
}.

Definition with_bitmap (bm : list Z) (s : pmm) : pmm :=
  {| pmm_bitmap := bm; pmm_bitmap_ptr := pmm_bitmap_ptr s;
     pmm_bitmap_size := pmm_bitmap_size s; stats := stats s;
     memory_size := memory_size s; kernel_start_phys := kernel_start_phys s;
     kernel_end_phys := kernel_end_phys s |}.

Definition with_stats (st : pmm_stats) (s : pmm) : pmm :=
  {| pmm_bitmap := pmm_bitmap s; pmm_bitmap_ptr := pmm_bitmap_ptr s;
     pmm_bitmap_size := pmm_bitmap_size s; stats := st;
     memory_size := memory_size s; kernel_start_phys := kernel_start_phys s;
     kernel_end_phys := kernel_end_phys s |}.

(** [used_frames += d; free_frames -= d], on 32-bit counters. *)
Definition move_frames (d : Z) (s : pmm) : pmm :=
  with_stats {| total_frames := total_frames (stats s);
                used_frames := u32 (used_frames (stats s) + d);
                free_frames := u32 (free_frames (stats s) - d);
                reserved_frames := reserved_frames (stats s);
                kernel_frames := kernel_frames (stats s) |} s.

(** ** Bits of the bitmap *)

Definition pmm_set_bit (frame : Z) : M pmm unit :=
  s ← get;
  w ← deref (aget (pmm_bitmap s) (frame / 32));
  bm ← deref (aset (pmm_bitmap s) (frame / 32) (Z.lor w (u32 (Z.shiftl 1 (frame mod 32)))));
  put (with_bitmap bm s).

Definition pmm_clear_bit (frame : Z) : M pmm unit :=
  s ← get;
  w ← deref (aget (pmm_bitmap s) (frame / 32));
  bm ← deref (aset (pmm_bitmap s) (frame / 32)
                (Z.land w (u32 (Z.lnot (Z.shiftl 1 (frame mod 32))))));
  put (with_bitmap bm s).

Definition pmm_test_bit (frame : Z) : M pmm bool :=
  s ← get;
  w ← deref (aget (pmm_bitmap s) (frame / 32));
  mret (negb (Z.land w (u32 (Z.shiftl 1 (frame mod 32))) =? 0)).

(** ** Initialisation *)

(** The loop [for (addr = available_start; addr < available_end; addr += PAGE_SIZE)]. *)
Fixpoint pmm_init_loop (fuel : nat) (addr available_end : Z) : M pmm unit :=
  if addr <? available_end then
    match fuel with
    | O => undef
    | S fuel' =>
        s ← get;
        let frame := addr / PAGE_SIZE in
        _ ← (if frame <? total_frames (stats s) then
               _ ← pmm_clear_bit frame;
               modify (move_frames (-1))
             else mret tt);
        pmm_init_loop fuel' (u32 (addr + PAGE_SIZE)) available_end
    end
  else mret tt.

Definition pmm_init (mem_size kernel_start kernel_end : Z) : M pmm unit :=
  let total := mem_size / PAGE_SIZE in
  let bitmap_size := PAGE_ALIGN_UP (u32 (total + 7) / 8) in
  let kbytes := u32 (kernel_end - kernel_start) in
  let kframes := kbytes / PAGE_SIZE in
  let kframes := if kbytes mod PAGE_SIZE =? 0 then kframes else u32 (kframes + 1) in
  _ ← put {| pmm_bitmap := replicate (Z.to_nat (bitmap_size / 4)) 0xFFFFFFFF;
             pmm_bitmap_ptr := kernel_end;
             pmm_bitmap_size := bitmap_size;
             stats := {| total_frames := total; used_frames := total; free_frames := 0;
                         reserved_frames := 0x100000 / PAGE_SIZE;
                         kernel_frames := kframes |};
             memory_size := mem_size;
             kernel_start_phys := kernel_start;
             kernel_end_phys := kernel_end |};
  let available_start := PAGE_ALIGN_UP (u32 (kernel_end + bitmap_size)) in
  pmm_init_loop (Z.to_nat (total + 1)) available_start mem_size.

(** ** Allocation *)

(** The body of the scan: take frame [i] if it is free. *)
Definition pmm_alloc_try (i : Z) : M pmm (option Z) :=
  b ← pmm_test_bit i;
  if negb b then
    _ ← pmm_set_bit i;
    _ ← modify (move_frames 1);
    mret (Some (u32 (i * PAGE_SIZE)))
  else mret None.

Definition pmm_alloc_frame : M pmm Z :=
  s ← get;
  r ← for_ret (Z.to_nat (total_frames (stats s))) 0 pmm_alloc_try;
  mret (default 0 r).

(** The scan of [pmm_alloc_frames]: [n] frames are left from [i] on, [found]
    consecutive free frames end just before [i], starting at [start_frame]. *)
Fixpoint pmm_alloc_frames_loop (n : nat) (i found start_frame count : Z) : M pmm (option Z) :=
  match n with
  | O => mret None
  | S n' =>
      b ← pmm_test_bit i;
      if negb b then
        let start_frame := if found =? 0 then i else start_frame in
        let found := u32 (found + 1) in
        if found =? count then
          _ ← for_up (Z.to_nat count) 0 (λ j, pmm_set_bit (u32 (start_frame + j)));
          _ ← modify (move_frames count);
          mret (Some (u32 (start_frame * PAGE_SIZE)))
        else pmm_alloc_frames_loop n' (i + 1) found start_frame count
      else pmm_alloc_frames_loop n' (i + 1) 0 start_frame count
  end.

Definition pmm_alloc_frames (count : Z) : M pmm Z :=
  if count =? 0 then mret 0
  else if count =? 1 then pmm_alloc_frame
  else
    s ← get;
    r ← pmm_alloc_frames_loop (Z.to_nat (total_frames (stats s))) 0 0 0 count;
    mret (default 0 r).

(** ** Release and marking *)

Definition pmm_free_frame (frame_addr : Z) : M pmm unit :=
  if frame_addr =? 0 then mret tt
  else
    s ← get;
    let frame := frame_addr / PAGE_SIZE in
    if total_frames (stats s) <=? frame then mret tt
    else
      b ← pmm_test_bit frame;
      if negb b then mret tt
      else
        _ ← pmm_clear_bit frame;
        modify (move_frames (-1)).

Definition pmm_free_frames (frame_addr count : Z) : M pmm unit :=
  for_up (Z.to_nat count) 0 (λ i, pmm_free_frame (u32 (frame_addr + i * PAGE_SIZE))).

Definition pmm_mark_frame_used (frame_addr : Z) : M pmm unit :=
  s ← get;
  let frame := frame_addr / PAGE_SIZE in
  if total_frames (stats s) <=? frame then mret tt
  else
    b ← pmm_test_bit frame;
    if negb b then
      _ ← pmm_set_bit frame;
      modify (move_frames 1)
    else mret tt.

Definition pmm_mark_frame_free (frame_addr : Z) : M pmm unit :=
  pmm_free_frame frame_addr.

Definition pmm_is_frame_used (frame_addr : Z) : M pmm bool :=
  s ← get;
  let frame := frame_addr / PAGE_SIZE in
  if total_frames (stats s) <=? frame then mret true
  else pmm_test_bit frame.

Definition pmm_get_stats : M pmm pmm_stats := gets stats.
Definition pmm_get_total_memory : M pmm Z := gets memory_size.
Definition pmm_get_free_memory : M pmm Z := gets (λ s, u32 (free_frames (stats s) * PAGE_SIZE)).

(** ** Abstract view

    The set of free frames. *)

Definition used (s : pmm) (f : Z) : bool := bit (pmm_bitmap s) f.

Definition total (s : pmm) : Z := total_frames (stats s).

Definition free_set (s : pmm) : gset Z :=
  list_to_set (filter (λ f, used s f = false) (seqZ 0 (total s))).

(** The invariant of the allocator: the words are 32-bit values, the bitmap
    covers all frames, a frame number times the page size fits in 32 bits, and
    the two counters agree with the bitmap. *)
Record pmm_wf (s : pmm) : Prop := {
  wf_words : Forall (λ w, 0 ≤ w < 2 ^ 32) (pmm_bitmap s);
  wf_cap : total s ≤ 32 * Z.of_nat (length (pmm_bitmap s));
  wf_total : 0 ≤ total s < 2 ^ 20;
  wf_free : free_frames (stats s) = Z.of_nat (size (free_set s));
  wf_used : used_frames (stats s) = total s - Z.of_nat (size (free_set s));
}.

(** ** Lemmas on the bitmap *)

(** The pure state change that [pmm_set_bit] and [pmm_clear_bit] make. *)
Definition mark (f : Z) (b : bool) (s : pmm) : pmm :=
  let w := pmm_bitmap s !!! Z.to_nat (f / 32) in
  with_bitmap (<[Z.to_nat (f / 32) :=
                 if b then Z.lor w (u32 (Z.shiftl 1 (f mod 32)))
                 else Z.land w (u32 (Z.lnot (Z.shiftl 1 (f mod 32))))]> (pmm_bitmap s)) s.

Section Bits.
Context (s : pmm) (f : Z).
Hypothesis (Hf : 0 ≤ f) (Hcap : f < 32 * Z.of_nat (length (pmm_bitmap s))).

Lemma index_in_range : 0 ≤ f / 32 < Z.of_nat (length (pmm_bitmap s)).
Proof. split; [apply Z.div_pos; lia | apply Z.div_lt_upper_bound; lia]. Qed.

Lemma aget_bitmap : aget (pmm_bitmap s) (f / 32) = Some (pmm_bitmap s !!! Z.to_nat (f / 32)).
Proof.
  pose proof index_in_range as Hi. unfold aget. rewrite (proj2 (Z.leb_le _ _)) by lia.
  apply list_lookup_lookup_total_lt. lia.
Qed.

Lemma pmm_set_bit_eq : pmm_set_bit f s = Ret (tt, mark f true s).
Proof.
  unfold pmm_set_bit. rewrite (bind_Ret get _ s s s eq_refl).
  rewrite aget_bitmap, bind_deref.
  by rewrite aset_Some by apply index_in_range.
Qed.

Lemma pmm_clear_bit_eq : pmm_clear_bit f s = Ret (tt, mark f false s).
Proof.
  unfold pmm_clear_bit. rewrite (bind_Ret get _ s s s eq_refl).
  rewrite aget_bitmap, bind_deref.
  by rewrite aset_Some by apply index_in_range.
Qed.

Lemma pmm_test_bit_eq : pmm_test_bit f s = Ret (used s f, s).
Proof.
  unfold pmm_test_bit. rewrite (bind_Ret get _ s s s eq_refl).
  rewrite aget_bitmap, bind_deref. unfold mret, M_ret.
  do 2 f_equal. apply mask_test. apply Z.mod_pos_bound. lia.
Qed.

Lemma used_mark b g : 0 ≤ g → used (mark f b s) g = if g =? f then b else used s g.
Proof.
  intros Hg. unfold used, mark. simpl. pose proof index_in_range.
  destruct b; [rewrite bit_set | rewrite bit_clear]; try lia;
    destruct (Z.eqb_spec g f); simpl; done.
Qed.
End Bits.

Lemma length_mark f b s : length (pmm_bitmap (mark f b s)) = length (pmm_bitmap s).
Proof. apply length_insert. Qed.

Lemma total_mark f b s : total (mark f b s) = total s.
Proof. reflexivity. Qed.

Lemma words_mark f b s :
  Forall (λ w, 0 ≤ w < 2 ^ 32) (pmm_bitmap s) →
  Forall (λ w, 0 ≤ w < 2 ^ 32) (pmm_bitmap (mark f b s)).
Proof.
  intros H. unfold mark; simpl. apply Forall_insert; [done|].
  assert (0 ≤ pmm_bitmap s !!! Z.to_nat (f / 32) < 2 ^ 32) as Hw.
  { rewrite list_lookup_total_alt. destruct (pmm_bitmap s !! Z.to_nat (f / 32)) eqn:E.
    - by eapply Forall_lookup_1 in H.
    - done. }
  destruct b; [apply lor_bounds | apply land_bounds]; try done; apply u32_bounds.
Qed.

(** ** The set of free frames *)

Lemma elem_of_free_set s f : f ∈ free_set s ↔ 0 ≤ f < total s ∧ used s f = false.
Proof. unfold free_set. rewrite elem_of_list_to_set, list_elem_of_filter, elem_of_seqZ. naive_solver lia. Qed.

Lemma free_set_ext s s' :
  total s' = total s → (∀ f, 0 ≤ f < total s → used s' f = used s f) → free_set s' = free_set s.
Proof.
  intros Ht Hu. apply set_eq. intros f. rewrite !elem_of_free_set, Ht.
  split; intros [? ?]; (split; [done|]); [rewrite <- Hu | rewrite Hu]; done.
Qed.

Lemma free_set_mark_used s f :
  0 ≤ f < 32 * Z.of_nat (length (pmm_bitmap s)) →
  free_set (mark f true s) = free_set s ∖ {[f]}.
Proof.
  intros Hf. apply set_eq. intros g.
  rewrite elem_of_difference, elem_of_singleton, !elem_of_free_set, total_mark.
  split.
  - intros [Hg Hu]. rewrite used_mark in Hu by lia. destruct (Z.eqb_spec g f); naive_solver.
  - intros [[Hg Hu] Hne]. rewrite used_mark by lia. destruct (Z.eqb_spec g f); naive_solver.
Qed.

Lemma free_set_mark_free s f :
  0 ≤ f < 32 * Z.of_nat (length (pmm_bitmap s)) → f < total s →
  free_set (mark f false s) = free_set s ∪ {[f]}.
Proof.
  intros Hf Ht. apply set_eq. intros g.
  rewrite elem_of_union, elem_of_singleton, !elem_of_free_set, total_mark.
  split.
  - intros [Hg Hu]. rewrite used_mark in Hu by lia. destruct (Z.eqb_spec g f); naive_solver.
  - intros [[Hg Hu]| ->]; rewrite used_mark by lia.
    + destruct (Z.eqb_spec g f); naive_solver.
    + rewrite Z.eqb_refl. naive_solver lia.
Qed.

Lemma free_set_size_le s : 0 ≤ total s → Z.of_nat (size (free_set s)) ≤ total s.
Proof.
  intros Ht. assert (free_set s ⊆ list_to_set (seqZ 0 (total s))) as Hsub.
  { intros f. rewrite elem_of_free_set, elem_of_list_to_set, elem_of_seqZ. lia. }
  apply subseteq_size in Hsub. rewrite size_list_to_set in Hsub by apply NoDup_seqZ.
  rewrite length_seqZ in Hsub. lia.
Qed.

(** The counters do not take part in the bitmap. *)
Lemma free_set_move d s : free_set (move_frames d s) = free_set s.
Proof. done. Qed.

Lemma total_move d s : total (move_frames d s) = total s.
Proof. done. Qed.

(** ** Preservation of the invariant by marking a set of frames *)

(** [s'] is [s] with a different bitmap and counters moved by [d], where [d] is
    the number of frames that became used (negative: became free). *)
Lemma wf_moved s s' d :
  pmm_wf s →
  Forall (λ w, 0 ≤ w < 2 ^ 32) (pmm_bitmap s') →
  length (pmm_bitmap s') = length (pmm_bitmap s) →
  stats s' = stats s →
  Z.of_nat (size (free_set s')) = Z.of_nat (size (free_set s)) - d →
  pmm_wf (move_frames d s').
Proof.
  intros [Hw Hc Ht Hf Hu] Hw' Hl Hst Hsz.
  assert (total s' = total s) as Ht' by (unfold total; congruence).
  pose proof (free_set_size_le s' ltac:(lia)) as Hle.
  pose proof (free_set_size_le s ltac:(lia)) as Hle0.
  split; rewrite ?free_set_move, ?total_move; try lia.
  - done.
  - simpl. rewrite Hl. lia.
  - simpl. rewrite Hst, Hf, u32_small; lia.
  - simpl. rewrite Hst, Hu, u32_small; lia.
Qed.

Lemma wf_mark_used s f :
  pmm_wf s → f ∈ free_set s → pmm_wf (move_frames 1 (mark f true s)).
Proof.
  intros Hwf Hf. pose proof Hf as [Hr _]%elem_of_free_set. destruct (Hwf) as [? Hc ? _ _].
  apply (wf_moved s); [done | by apply words_mark | apply length_mark | done |].
  rewrite free_set_mark_used, size_difference by (lia || set_solver).
  assert (size ({[f]} : gset Z) ≤ size (free_set s))%nat by (apply subseteq_size; set_solver).
  rewrite size_singleton in *. lia.
Qed.

Lemma wf_mark_free s f :
  pmm_wf s → 0 ≤ f < total s → f ∉ free_set s → pmm_wf (move_frames (-1) (mark f false s)).
Proof.
  intros Hwf Hr Hf. destruct (Hwf) as [? Hc ? _ _].
  apply (wf_moved s); [done | by apply words_mark | apply length_mark | done |].
  rewrite free_set_mark_free, size_union, size_singleton by (lia || set_solver). lia.
Qed.

(** ** Allocation of one frame *)

(** The abstract allocator: [alloc_spec F o F'] when the free set [F] hands out the
    frame [o], the least free one, and leaves [F'], or [F] is empty and there is none. *)
Inductive alloc_spec (F : gset Z) : option Z → gset Z → Prop :=
  | alloc_least f : f ∈ F → (∀ g, g ∈ F → f ≤ g) → alloc_spec F (Some f) (F ∖ {[f]})
  | alloc_none : F = ∅ → alloc_spec F None F.

(** Its answer as an address; 0 stands for none, and is the address of frame 0 as well. *)
Definition frame_address (o : option Z) : Z := from_option (λ f, f * PAGE_SIZE) 0 o.

Lemma alloc_try_eq s i :
  pmm_wf s → 0 ≤ i < total s →
  pmm_alloc_try i s =
  if used s i then Ret (None, s)
  else Ret (Some (i * PAGE_SIZE), move_frames 1 (mark i true s)).
Proof.
  intros [_ Hc Ht _ _] Hi. unfold pmm_alloc_try.
  rewrite (bind_Ret _ _ _ _ _ (pmm_test_bit_eq s i ltac:(lia) ltac:(lia))).
  destruct (used s i); [done|]. simpl.
  rewrite (bind_Ret _ _ _ _ _ (pmm_set_bit_eq s i ltac:(lia) ltac:(lia))).
  unfold mbind, M_bind, modify, mret, M_ret.
  rewrite u32_small; [done|]. unfold PAGE_SIZE. lia.
Qed.

Lemma alloc_scan n i s :
  pmm_wf s → 0 ≤ i → i + Z.of_nat n = total s →
  (∀ g, g ∈ free_set s → i ≤ g) →
  (∃ f, f ∈ free_set s ∧ (∀ g, g ∈ free_set s → f ≤ g) ∧
        for_ret n i pmm_alloc_try s = Ret (Some (f * PAGE_SIZE), move_frames 1 (mark f true s)))
  ∨ (free_set s = ∅ ∧ for_ret n i pmm_alloc_try s = Ret (None, s)).
Proof.
  intros Hwf. revert i. induction n as [|n IH]; intros i Hi Hn Hmin.
  - right. split; [|done]. apply set_eq. intros g. split; [|set_solver].
    intros Hg. pose proof (Hmin g Hg). apply elem_of_free_set in Hg. lia.
  - cbn [for_ret]. pose proof (alloc_try_eq s i Hwf ltac:(lia)) as E.
    destruct (used s i) eqn:Eu; rewrite (bind_Ret _ _ _ _ _ E).
    + apply IH; [lia | lia |].
      intros g Hg. pose proof (Hmin g Hg). destruct (decide (g = i)) as [->|]; [|lia].
      apply elem_of_free_set in Hg as [_ Hg]. congruence.
    + left. exists i. split_and!; [apply elem_of_free_set; auto with lia | done | done].
Qed.

(** C3: frame allocation takes the least frame from the set of free frames, touches
    nothing outside of the bitmap and keeps the invariant.  Without a free frame nothing
    changes and the answer is 0.  As long as frame 0 is not free (start-up reserves it),
    the answer is 0 only then; if frame 0 is free, it is handed out as address 0, which
    callers take for a failure. *)
Theorem pmm_alloc_frame_refines s :
  pmm_wf s →
  ∃ o s', pmm_alloc_frame s = Ret (frame_address o, s') ∧ pmm_wf s' ∧ total s' = total s ∧
          alloc_spec (free_set s) o (free_set s') ∧ (o = None → s' = s) ∧
          (0 ∉ free_set s → frame_address o = 0 ↔ free_set s = ∅) ∧
          (0 ∈ free_set s → o = Some 0 ∧ frame_address o = 0).
Proof.
  intros Hwf. unfold pmm_alloc_frame. rewrite (bind_Ret get _ s s s eq_refl).
  assert (0 ≤ total s) by (destruct Hwf as [_ _ ? _ _]; lia).
  destruct (alloc_scan (Z.to_nat (total s)) 0 s) as [(f & Hf & Hl & E)|[He E]]; try done.
  - lia.
  - intros g Hg%elem_of_free_set. lia.
  - pose proof Hf as [Hr _]%elem_of_free_set. exists (Some f). eexists. split; [erewrite bind_Ret by exact E; reflexivity|].
    unfold frame_address, PAGE_SIZE. cbn [from_option]. split_and!; [by apply wf_mark_used | done | | done | | ].
    + rewrite free_set_move. destruct Hwf as [_ ? _ _ _]. rewrite free_set_mark_used by lia. by constructor.
    + intros H0. split; [|set_solver]. intros Ef. assert (f = 0) as -> by lia. done.
    + intros H0. specialize (Hl 0 H0). assert (f = 0) as -> by lia. done.
  - exists None. eexists. split; [erewrite bind_Ret by exact E; reflexivity|].
    split_and!; [done | done | by constructor | done | done | rewrite He; set_solver].
Qed.

(** ** Allocation of consecutive frames *)

Definition run (F : gset Z) (f count : Z) : Prop := ∀ g, f ≤ g < f + count → g ∈ F.

Inductive alloc_run_spec (F : gset Z) (count : Z) : Z → gset Z → Prop :=
  | run_first f :
      run F f count → (∀ g, run F g count → f ≤ g) →
      alloc_run_spec F count (f * PAGE_SIZE) (F ∖ list_to_set (seqZ f count))
  | run_none : (∀ g, ¬ run F g count) → alloc_run_spec F count 0 F.

(** States that differ from [s] only in their bitmap. *)
Definition same_but_bitmap (s s' : pmm) : Prop :=
  Forall (λ w, 0 ≤ w < 2 ^ 32) (pmm_bitmap s') ∧
  length (pmm_bitmap s') = length (pmm_bitmap s) ∧ stats s' = stats s.

Lemma set_run_spec s st count :
  pmm_wf s → 0 ≤ st → 0 ≤ count → st + count ≤ total s →
  ∃ s', for_up (Z.to_nat count) 0 (λ j, pmm_set_bit (u32 (st + j))) s = Ret (tt, s') ∧
        same_but_bitmap s s' ∧ free_set s' = free_set s ∖ list_to_set (seqZ st count).
Proof.
  intros Hwf Hst Hc Hle. destruct Hwf as [Hw Hcap Ht _ _].
  destruct (for_up_inv
    (λ j t, same_but_bitmap s t ∧ free_set t = free_set s ∖ list_to_set (seqZ st j))
    (λ j, pmm_set_bit (u32 (st + j))) (Z.to_nat count) 0 s) as (s' & E & H & Hf).
  - split; [by repeat split|]. rewrite seqZ_nil by lia. set_solver.
  - intros j t Hj [(Htw & Htl & Hts) Htf]. rewrite u32_small by lia.
    exists (mark (st + j) true t). split.
    { apply pmm_set_bit_eq; [lia|]. rewrite Htl. lia. }
    split.
    + split_and!; [by apply words_mark | by rewrite length_mark | done].
    + rewrite free_set_mark_used by lia. rewrite Htf.
      apply set_eq. intros g.
      rewrite !elem_of_difference, !elem_of_list_to_set, !elem_of_seqZ, elem_of_singleton. naive_solver lia.
  - exists s'. split_and!; [done | done |].
    by replace (0 + Z.of_nat (Z.to_nat count)) with count in Hf by lia.
Qed.

Lemma size_difference_run (F : gset Z) f count :
  0 ≤ count → run F f count →
  Z.of_nat (size (F ∖ list_to_set (seqZ f count))) = Z.of_nat (size F) - count.
Proof.
  intros Hc Hrun.
  assert (list_to_set (seqZ f count) ⊆ F) as Hsub.
  { intros g. rewrite elem_of_list_to_set, elem_of_seqZ. intros. apply Hrun. lia. }
  pose proof (subseteq_size _ _ Hsub) as Hle.
  rewrite size_difference by done.
  rewrite size_list_to_set, length_seqZ in * by apply NoDup_seqZ. lia.
Qed.

Lemma alloc_frames_scan s count n : ∀ i found start,
  pmm_wf s → 1 ≤ count → 0 ≤ found < count → found ≤ i → i + Z.of_nat n = total s →
  run (free_set s) (i - found) found →
  (found ≠ 0 → start = i - found) →
  (∀ g, run (free_set s) g count → i - found ≤ g) →
  (∃ f s', run (free_set s) f count ∧ (∀ g, run (free_set s) g count → f ≤ g) ∧
     same_but_bitmap s s' ∧ free_set s' = free_set s ∖ list_to_set (seqZ f count) ∧
     pmm_alloc_frames_loop n i found start count s = Ret (Some (f * PAGE_SIZE), move_frames count s'))
  ∨ ((∀ g, ¬ run (free_set s) g count) ∧
     pmm_alloc_frames_loop n i found start count s = Ret (None, s)).
Proof.
  induction n as [|n IH]; intros i found start Hwf Hc Hfd Hfi Hn Hrun Hst Hmin.
  - right. split; [|done]. intros g Hg. pose proof (Hmin g Hg).
    assert (g + count - 1 ∈ free_set s) as H' by (apply Hg; lia).
    apply elem_of_free_set in H'. lia.
  - destruct (Hwf) as [_ Hcap Ht _ _]. cbn [pmm_alloc_frames_loop].
    rewrite (bind_Ret _ _ _ _ _ (pmm_test_bit_eq s i ltac:(lia) ltac:(lia))).
    destruct (used s i) eqn:Eu; simpl.
    + apply IH; try done; try lia; try (intros; lia).
      * intros g Hg. lia.
      * intros g Hg. pose proof (Hmin g Hg).
        destruct (decide (g ≤ i)) as [Hgi|]; [|lia].
        assert (i ∈ free_set s) as H' by (apply Hg; lia).
        apply elem_of_free_set in H' as [_ H']. congruence.
    + set (start' := if found =? 0 then i else start).
      assert (start' = i - found) as Est.
      { unfold start'. destruct (Z.eqb_spec found 0); [lia | by apply Hst]. }
      rewrite (u32_small (found + 1)) by lia.
      assert (run (free_set s) start' (found + 1)) as Hrun'.
      { intros g Hg. destruct (decide (g = i)) as [->|].
        - apply elem_of_free_set. auto with lia.
        - apply Hrun. lia. }
      destruct (Z.eqb_spec (found + 1) count) as [<-|Hne].
      * left. destruct (set_run_spec s start' (found + 1)) as (s' & E & Hsb & Hfs); try done; try lia.
        exists start', s'. split_and!; try done.
        { intros g Hg. pose proof (Hmin g Hg). lia. }
        rewrite (bind_Ret _ _ _ _ _ E). unfold mbind, M_bind, modify, mret, M_ret.
        rewrite u32_small; [done|]. unfold PAGE_SIZE. lia.
      * apply IH; try done; try lia.
        -- by replace (i + 1 - (found + 1)) with start' by lia.
        -- intros g Hg. pose proof (Hmin g Hg). lia.
Qed.

(** allocation of [count] consecutive frames hands out the first run of
    [count] free frames, or fails exactly when there is none. *)
Theorem pmm_alloc_frames_refines s count :
  pmm_wf s → 1 ≤ count →
  ∃ a s', pmm_alloc_frames count s = Ret (a, s') ∧ pmm_wf s' ∧
          alloc_run_spec (free_set s) count a (free_set s').
Proof.
  intros Hwf Hc. unfold pmm_alloc_frames.
  destruct (Z.eqb_spec count 0); [lia|].
  assert (∀ F g, run F g 1 ↔ g ∈ F) as Hrun1.
  { intros F g. split; intros H; [apply H; lia|]. intros h ?. by replace h with g by lia. }
  destruct (Z.eqb_spec count 1) as [->|].
  - destruct (alloc_scan (Z.to_nat (total s)) 0 s) as [(f & Hf & Hl & E)|[He E]]; try done.
    + destruct Hwf as [_ _ ? _ _]. lia.
    + intros g Hg%elem_of_free_set. lia.
    + unfold pmm_alloc_frame. rewrite (bind_Ret get _ s s s eq_refl).
      eexists _, _. split; [erewrite bind_Ret by exact E; reflexivity|].
      split; [by apply wf_mark_used|]. simpl. rewrite free_set_move.
      pose proof Hf as [Hr _]%elem_of_free_set. destruct Hwf as [_ ? _ _ _].
      rewrite free_set_mark_used by lia.
      replace ({[f]} : gset Z) with (list_to_set (seqZ f 1) : gset Z) by (simpl; set_solver).
      constructor; [by apply Hrun1|]. intros g Hg%Hrun1. auto.
    + unfold pmm_alloc_frame. rewrite (bind_Ret get _ s s s eq_refl).
      eexists _, _. split; [erewrite bind_Ret by exact E; reflexivity|].
      split; [done|]. simpl. constructor. intros g Hg%Hrun1. set_solver.
  - rewrite (bind_Ret get _ s s s eq_refl).
    assert (0 ≤ total s) by (destruct Hwf as [_ _ ? _ _]; lia).
    destruct (alloc_frames_scan s count (Z.to_nat (total s)) 0 0 0)
      as [(f & s' & Hr & Hl & Hsb & Hfs & E)|[Hno E]]; try done; try lia.
    + intros g Hg. lia.
    + intros g Hg. assert (g ∈ free_set s) as H'%elem_of_free_set by (apply Hg; lia). lia.
    + eexists _, _. split; [erewrite bind_Ret by exact E; reflexivity|]. split.
      * destruct Hsb as (? & ? & ?). apply (wf_moved s); try done.
        rewrite Hfs. apply size_difference_run; [lia | done].
      * simpl. rewrite free_set_move, Hfs. by constructor.
    + eexists _, _. split; [erewrite bind_Ret by exact E; reflexivity|].
      split; [done|]. simpl. by constructor.
Qed.

(** ** Release *)

(** The abstract effect of freeing the frame at address [a]: address 0 and
    frames beyond the managed memory are ignored. *)
Definition free_spec (tot a : Z) (F : gset Z) : gset Z :=
  if (a =? 0) || (tot <=? a / PAGE_SIZE) then F else {[a / PAGE_SIZE]} ∪ F.

Lemma free_frame_spec s a :
  pmm_wf s → 0 ≤ a →
  ∃ s', pmm_free_frame a s = Ret (tt, s') ∧ pmm_wf s' ∧ total s' = total s ∧
        free_set s' = free_spec (total s) a (free_set s) ∧
        (a = 0 ∨ total s ≤ a / PAGE_SIZE ∨ a / PAGE_SIZE ∈ free_set s → s' = s).
Proof.
  intros Hwf Ha. unfold pmm_free_frame, free_spec.
  destruct (Z.eqb_spec a 0); [by exists s|]. cbn [orb].
  rewrite (bind_Ret get _ s s s eq_refl).
  change (total_frames (stats s)) with (total s).
  destruct (Z.leb_spec (total s) (a / PAGE_SIZE)); [by exists s|].
  assert (0 ≤ a / PAGE_SIZE) by (apply Z.div_pos; unfold PAGE_SIZE; lia).
  destruct (Hwf) as [_ Hcap _ _ _].
  rewrite (bind_Ret _ _ _ _ _ (pmm_test_bit_eq s (a / PAGE_SIZE) ltac:(lia) ltac:(lia))).
  destruct (used s (a / PAGE_SIZE)) eqn:Eu; simpl.
  - assert (a / PAGE_SIZE ∉ free_set s) as Hnf by (intros []%elem_of_free_set; congruence).
    rewrite (bind_Ret _ _ _ _ _ (pmm_clear_bit_eq s (a / PAGE_SIZE) ltac:(lia) ltac:(lia))).
    eexists. split; [reflexivity|]. split_and!; [by apply wf_mark_free | done | | naive_solver lia].
    rewrite free_set_move, free_set_mark_free by lia. set_solver.
  - assert (a / PAGE_SIZE ∈ free_set s) by (apply elem_of_free_set; auto with lia).
    exists s. split_and!; try done. set_solver.
Qed.

(** C4: releasing an address puts the frame that it lies in back into the set of free
    frames.  Address 0, addresses behind the managed memory and addresses in frames that
    are free already change nothing at all, the counters included.  Any other address is
    accepted, aligned or not: one from 1 to 4095 releases frame 0. *)
Theorem pmm_free_frame_refines s a :
  pmm_wf s → 0 ≤ a →
  ∃ s', pmm_free_frame a s = Ret (tt, s') ∧ pmm_wf s' ∧ total s' = total s ∧
        free_set s' = free_spec (total s) a (free_set s) ∧
        (a = 0 ∨ total s ≤ a / PAGE_SIZE ∨ a / PAGE_SIZE ∈ free_set s → s' = s) ∧
        (0 < a < PAGE_SIZE → 0 < total s → 0 ∈ free_set s').
Proof.
  intros Hwf Ha. destruct (free_frame_spec s a Hwf Ha) as (s' & E & Hwf' & Ht & Hf & Hid). exists s'.
  split_and!; try done. intros Hr Htot. rewrite Hf. unfold free_spec. rewrite Z.div_small by lia.
  rewrite (proj2 (Z.eqb_neq a 0)), (proj2 (Z.leb_gt _ 0)) by lia. set_solver.
Qed.

Lemma mark_frame_used_spec s a :
  pmm_wf s → 0 ≤ a →
  ∃ s', pmm_mark_frame_used a s = Ret (tt, s') ∧ pmm_wf s' ∧ total s' = total s ∧
        free_set s' = free_set s ∖ {[a / PAGE_SIZE]}.
Proof.
  intros Hwf Ha. unfold pmm_mark_frame_used.
  rewrite (bind_Ret get _ s s s eq_refl).
  change (total_frames (stats s)) with (total s).
  assert (0 ≤ a / PAGE_SIZE) by (apply Z.div_pos; unfold PAGE_SIZE; lia).
  assert (a / PAGE_SIZE ∉ free_set s → free_set s = free_set s ∖ {[a / PAGE_SIZE]}) as Hid
    by set_solver.
  destruct (Z.leb_spec (total s) (a / PAGE_SIZE)).
  { exists s. split_and!; try done. apply Hid. intros ?%elem_of_free_set. lia. }
  destruct (Hwf) as [_ Hcap _ _ _].
  rewrite (bind_Ret _ _ _ _ _ (pmm_test_bit_eq s (a / PAGE_SIZE) ltac:(lia) ltac:(lia))).
  destruct (used s (a / PAGE_SIZE)) eqn:Eu; simpl.
  - exists s. split_and!; try done.
    apply Hid.
    intros []%elem_of_free_set. congruence.
  - rewrite (bind_Ret _ _ _ _ _ (pmm_set_bit_eq s (a / PAGE_SIZE) ltac:(lia) ltac:(lia))).
    eexists. split; [reflexivity|].
    split_and!; [apply wf_mark_used; [done|]; apply elem_of_free_set; auto with lia | done |].
    rewrite free_set_move, free_set_mark_used by lia. done.
Qed.

Lemma is_frame_used_spec s a :
  pmm_wf s → 0 ≤ a →
  pmm_is_frame_used a s = Ret (bool_decide (a / PAGE_SIZE ∉ free_set s), s).
Proof.
  intros Hwf Ha. unfold pmm_is_frame_used.
  rewrite (bind_Ret get _ s s s eq_refl).
  change (total_frames (stats s)) with (total s).
  assert (0 ≤ a / PAGE_SIZE) by (apply Z.div_pos; unfold PAGE_SIZE; lia).
  destruct (Z.leb_spec (total s) (a / PAGE_SIZE)).
  { rewrite bool_decide_true; [done|]. rewrite elem_of_free_set. lia. }
  destruct (Hwf) as [_ Hcap _ _ _].
  rewrite pmm_test_bit_eq by lia. do 2 f_equal. symmetry.
  destruct (used s (a / PAGE_SIZE)) eqn:Eu.
  - apply bool_decide_true. intros []%elem_of_free_set. congruence.
  - apply bool_decide_false. intros H'. apply H', elem_of_free_set. auto with lia.
Qed.

(** releasing [count] consecutive frames releases exactly the frames of the
    range that the allocator manages. *)
Theorem pmm_free_frames_refines s f count :
  pmm_wf s → 1 ≤ f → 0 ≤ count → f + count ≤ 2 ^ 20 →
  ∃ s', pmm_free_frames (f * PAGE_SIZE) count s = Ret (tt, s') ∧ pmm_wf s' ∧
        ∀ g, g ∈ free_set s' ↔ g ∈ free_set s ∨ f ≤ g < f + count ∧ g < total s.
Proof.
  intros Hwf Hf Hc Hle. unfold pmm_free_frames.
  destruct (for_up_inv
    (λ i t, pmm_wf t ∧ total t = total s ∧
            ∀ g, g ∈ free_set t ↔ g ∈ free_set s ∨ f ≤ g < f + i ∧ g < total s)
    (λ i, pmm_free_frame (u32 (f * PAGE_SIZE + i * PAGE_SIZE))) (Z.to_nat count) 0 s)
    as (s' & E & Hwf' & Ht & Hs).
  - split_and!; [done | done |]. intros g. naive_solver lia.
  - intros j t Hj (Hwt & Htt & Hts).
    replace (u32 (f * PAGE_SIZE + j * PAGE_SIZE)) with ((f + j) * PAGE_SIZE)
      by (rewrite u32_small; unfold PAGE_SIZE; lia).
    destruct (free_frame_spec t ((f + j) * PAGE_SIZE)) as (t' & E & Hwt' & Htt' & Hfs & _);
      [done | unfold PAGE_SIZE; lia |].
    exists t'. split_and!; [done | done | congruence |]. intros g.
    rewrite Hfs. unfold free_spec. rewrite Z.div_mul by done.
    destruct (Z.eqb_spec ((f + j) * PAGE_SIZE) 0); [unfold PAGE_SIZE in *; lia|]. cbn [orb].
    destruct (Z.leb_spec (total t) (f + j)).
    + rewrite Hts. split; intros [?|[? ?]]; auto; right; lia.
    + rewrite elem_of_union, elem_of_singleton, Hts.
      split; [intros [->|[?|[? ?]]]; auto; right; lia|].
      intros [?|[? ?]]; auto. destruct (decide (g = f + j)); auto. right; right; lia.
  - exists s'. split_and!; [done | done |]. intros g. rewrite Hs.
    by replace (0 + Z.of_nat (Z.to_nat count)) with count by lia.
Qed.

(** ** Initialisation *)

Lemma page_align_up_eq x :
  0 ≤ x ≤ 2 ^ 32 - PAGE_SIZE → PAGE_ALIGN_UP x = (x + 4095) / 4096 * 4096.
Proof.
  unfold PAGE_ALIGN_UP, PAGE_SIZE, PAGE_MASK. intros Hx. rewrite u32_small by lia.
  rewrite land_page_mask by lia. do 2 f_equal. lia.
Qed.

Lemma init_loop_spec fuel k mem a0 s :
  pmm_wf s → total s = mem / PAGE_SIZE → 0 ≤ a0 ≤ k → 0 ≤ mem ≤ 0xFFFFF000 →
  mem ≤ (k + Z.of_nat fuel) * PAGE_SIZE → k ≤ 0xFFFFF →
  (∀ f, f ∈ free_set s ↔ a0 ≤ f < k ∧ f < total s) →
  ∃ s', pmm_init_loop fuel (k * PAGE_SIZE) mem s = Ret (tt, s') ∧ pmm_wf s' ∧
        total s' = total s ∧ pmm_bitmap_size s' = pmm_bitmap_size s ∧
        ∀ f, f ∈ free_set s' ↔ a0 ≤ f < total s.
Proof.
  unfold PAGE_SIZE. revert k s.
  induction fuel as [|fuel IH]; intros k s Hwf Ht Hk Hm Hfuel Hk20 Hfs; cbn [pmm_init_loop].
  - destruct (Z.ltb_spec (k * 4096) mem); [lia|]. exists s. split_and!; try done.
    intros f. rewrite Hfs. pose proof (Z.div_le_upper_bound mem 4096 k). lia.
  - destruct (Z.ltb_spec (k * 4096) mem) as [Hlt|Hge].
    2:{ exists s. split_and!; try done.
        intros f. rewrite Hfs. pose proof (Z.div_le_upper_bound mem 4096 k). lia. }
    assert (mem / 4096 ≤ 0xFFFFF) by (apply Z.div_le_upper_bound; lia).
    rewrite (bind_Ret get _ s s s eq_refl). change (total_frames (stats s)) with (total s).
    unfold PAGE_SIZE. rewrite Z.div_mul by done.
    rewrite (u32_small (k * 4096 + 4096)) by lia.
    replace (k * 4096 + 4096) with ((k + 1) * 4096) by lia.
    destruct (Z.ltb_spec k (total s)) as [Hkt|Hkt].
    + destruct (Hwf) as [_ Hcap _ _ _].
      assert (k ∉ free_set s) by (rewrite Hfs; lia).
      erewrite bind_Ret.
      2:{ rewrite (bind_Ret _ _ _ _ _ (pmm_clear_bit_eq s k ltac:(lia) ltac:(lia))). reflexivity. }
      destruct (IH (k + 1) (move_frames (-1) (mark k false s))) as (s' & E & ? & Ht' & Hbs & Hf'); try lia.
      * apply wf_mark_free; [done | lia | done].
      * done.
      * intros f. rewrite free_set_move, free_set_mark_free by lia.
        rewrite elem_of_union, elem_of_singleton, Hfs, total_move, total_mark.
        destruct (decide (f = k)); split; intros; try lia.
      * exists s'. rewrite total_move, total_mark in *. auto.
    + rewrite bind_mret.
      assert (k + 1 ≤ 0xFFFFF ∨ mem ≤ (k + 1) * 4096) as [Hok|Hend] by lia.
      * apply (IH (k + 1) s); try done; try lia. intros f. rewrite Hfs. lia.
      * exists s. split_and!; try done.
        -- destruct fuel; cbn [pmm_init_loop]; rewrite (proj2 (Z.ltb_ge _ _)) by lia; done.
        -- intros f. rewrite Hfs. lia.
Qed.

Lemma bit_full n f : 0 ≤ f < 32 * Z.of_nat n → bit (replicate n 0xFFFFFFFF) f = true.
Proof.
  intros Hf. unfold bit.
  assert (0 ≤ f / 32 < Z.of_nat n)
    by (split; [apply Z.div_pos; lia | apply Z.div_lt_upper_bound; lia]).
  rewrite lookup_total_replicate_2 by lia. change 0xFFFFFFFF with (Z.ones 32).
  apply Z.ones_spec_low. apply Z.mod_pos_bound. lia.
Qed.

(** The bitmap of [pmm_init] covers every frame. *)
Lemma init_bitmap_covers tot :
  0 ≤ tot ≤ 0xFFFFF →
  let bs := PAGE_ALIGN_UP (u32 (tot + 7) / 8) in
  tot ≤ 32 * Z.of_nat (Z.to_nat (bs / 4)) ∧ 0 ≤ bs ≤ 2 ^ 18.
Proof.
  intros Ht bs. unfold bs. rewrite u32_small by lia.
  rewrite page_align_up_eq by (unfold PAGE_SIZE; dlia). dlia.
Qed.

(** after [pmm_init] the invariant holds, exactly the frames from the end
    of the bitmap up to the end of memory are free, and no frame that holds
    low memory, the kernel image or the bitmap is free. *)
Theorem pmm_init_correct mem_size kernel_start kernel_end s0 :
  0 ≤ mem_size ≤ 0xFFFFF000 → 0 ≤ kernel_end ≤ 0xFF000000 →
  ∃ s, pmm_init mem_size kernel_start kernel_end s0 = Ret (tt, s) ∧
       pmm_wf s ∧ total s = mem_size / PAGE_SIZE ∧
       (∀ f, f ∈ free_set s ↔
             PAGE_ALIGN_UP (kernel_end + pmm_bitmap_size s) / PAGE_SIZE ≤ f < total s) ∧
       (∀ a, 0 ≤ a < kernel_end + pmm_bitmap_size s → a / PAGE_SIZE ∉ free_set s).
Proof.
  intros Hm Hke. unfold pmm_init. set (tot := mem_size / PAGE_SIZE).
  assert (0 ≤ tot ≤ 0xFFFFF) as Htot by (unfold tot, PAGE_SIZE; dlia).
  assert (mem_size < (tot + 1) * PAGE_SIZE) as Hmt by (unfold tot, PAGE_SIZE; dlia).
  destruct (init_bitmap_covers tot Htot) as [Hcov Hbs].
  set (bs := PAGE_ALIGN_UP (u32 (tot + 7) / 8)) in *.
  set (s1 := {| pmm_bitmap := _ |}).
  rewrite (bind_Ret (put s1) _ s0 tt s1 eq_refl).
  assert (free_set s1 = ∅) as Hempty.
  { apply set_eq. intros f. rewrite elem_of_free_set. split; [|set_solver].
    intros [Hf Hu]. exfalso. unfold used, s1 in Hu. simpl in Hu. change (total s1) with tot in Hf.
    rewrite bit_full in Hu; [done | lia]. }
  assert (pmm_wf s1) as Hwf1.
  { split; simpl; rewrite ?Hempty, ?size_empty; change (total s1) with tot; try done.
    - by apply Forall_replicate.
    - rewrite length_replicate. lia.
    - lia.
    - lia. }
  rewrite (u32_small (kernel_end + bs)) by lia.
  assert (PAGE_ALIGN_UP (kernel_end + bs) = (kernel_end + bs + 4095) / 4096 * PAGE_SIZE) as Hal
    by (apply page_align_up_eq; unfold PAGE_SIZE; lia).
  rewrite Hal.
  destruct (init_loop_spec (Z.to_nat (tot + 1)) ((kernel_end + bs + 4095) / 4096) mem_size
              ((kernel_end + bs + 4095) / 4096) s1) as (s & E & Hwf & Ht & Hsz & Hf); try done.
  - dlia.
  - assert (0 ≤ (kernel_end + bs + 4095) / 4096) by dlia. unfold PAGE_SIZE in *. nia.
  - dlia.
  - intros f. rewrite Hempty. split; [set_solver | lia].
  - exists s. rewrite Hsz. change (pmm_bitmap_size s1) with bs.
    split_and!; [exact E | done | by rewrite Ht | |].
    + intros f. rewrite Hf, Hal, Ht. by rewrite Z.div_mul by done.
    + intros a Ha. rewrite Hf. unfold PAGE_SIZE. dlia.
Qed.

(** ** Exclusive ownership

    A client that allocates frames and releases only frames it holds.  The
    pair is the allocator's state and the set of frames the clients hold. *)
Inductive client_step : pmm * gset Z → pmm * gset Z → Prop :=
  | client_alloc s a s' O :
      pmm_alloc_frame s = Ret (a, s') → a ≠ 0 →
      client_step (s, O) (s', ({[a / PAGE_SIZE]} ∪ O))
  | client_oom s s' O :
      pmm_alloc_frame s = Ret (0, s') → client_step (s, O) (s', O)
  | client_free s f s' O :
      f ∈ O → pmm_free_frame (f * PAGE_SIZE) s = Ret (tt, s') →
      client_step (s, O) (s', O ∖ {[f]}).

Definition owned_ok (c : pmm * gset Z) : Prop :=
  pmm_wf (c.1) ∧ (0 ∉ free_set (c.1)) ∧ (∀ f, f ∈ c.2 → 0 < f < total (c.1) ∧ f ∉ free_set (c.1)).

Lemma alloc_frame_cases s :
  pmm_wf s →
  (∃ f, f ∈ free_set s ∧
        pmm_alloc_frame s = Ret (f * PAGE_SIZE, move_frames 1 (mark f true s)))
  ∨ (free_set s = ∅ ∧ pmm_alloc_frame s = Ret (0, s)).
Proof.
  intros Hwf. unfold pmm_alloc_frame. rewrite (bind_Ret get _ s s s eq_refl).
  destruct (alloc_scan (Z.to_nat (total s)) 0 s) as [(f & Hf & Hl & E)|[He E]]; try done.
  - destruct Hwf as [_ _ ? _ _]. lia.
  - intros g Hg%elem_of_free_set. lia.
  - left. exists f. split; [done|]. erewrite bind_Ret by exact E. done.
  - right. split; [done|]. erewrite bind_Ret by exact E. done.
Qed.

Lemma owned_ok_step c c' : client_step c c' → owned_ok c → owned_ok c'.
Proof.
  intros Hstep (Hwf & H0 & Hown). unfold owned_ok.
  destruct Hstep as [s a s' O E Ha|s s' O E|s f s' O Hf E]; simpl in *.
  - destruct (alloc_frame_cases s Hwf) as [(f & Hf & E')|[_ E']]; [|congruence].
    rewrite E' in E. injection E as <- <-.
    pose proof Hf as [Hr _]%elem_of_free_set. destruct (Hwf) as [_ Hcap _ _ _].
    split; [by apply wf_mark_used|].
    rewrite free_set_move, free_set_mark_used, total_move, total_mark, Z.div_mul by (done || lia).
    split; [set_solver|]. intros g [->%elem_of_singleton|Hg]%elem_of_union.
    + split; [|set_solver]. destruct (decide (f = 0)) as [->|]; [done | lia].
    + destruct (Hown g Hg). set_solver.
  - destruct (alloc_frame_cases s Hwf) as [(f & Hf & E')|[_ E']]; rewrite E' in E.
    + injection E as Hz <-. assert (f = 0) as -> by (unfold PAGE_SIZE in Hz; lia). done.
    + by injection E as <-.
  - destruct (Hown f Hf) as [Hfr Hfn].
    destruct (free_frame_spec s (f * PAGE_SIZE) Hwf) as (s1 & E1 & Hwf1 & Ht1 & Hfs & _).
    { unfold PAGE_SIZE. lia. }
    rewrite E1 in E. injection E as <-. split; [done|].
    unfold free_spec in Hfs. rewrite Z.div_mul in Hfs by done.
    rewrite (proj2 (Z.eqb_neq _ _)), (proj2 (Z.leb_gt _ _)) in Hfs by (unfold PAGE_SIZE; lia).
    simpl in Hfs. rewrite Hfs, Ht1. split; [set_solver by lia|].
    intros g [Hg Hgf]%elem_of_difference. destruct (Hown g Hg). set_solver.
Qed.

(** C34: no interleaving of allocations and releases hands out a frame that
    some client already holds. *)
Theorem pmm_exclusive s0 c a s' :
  pmm_wf s0 → 0 ∉ free_set s0 →
  rtc client_step (s0, ∅) c →
  pmm_alloc_frame c.1 = Ret (a, s') → a ≠ 0 →
  a / PAGE_SIZE ∉ c.2.
Proof.
  intros Hwf H0 Hsteps E Ha.
  assert (owned_ok c) as (Hwfc & _ & Hown).
  { assert (owned_ok (s0, ∅)) as Hok by (split_and!; [done | done | set_solver]).
    clear E. induction Hsteps; eauto using owned_ok_step. }
  destruct (alloc_frame_cases c.1 Hwfc) as [(f & Hf & E')|[_ E']]; [|congruence].
  rewrite E' in E. injection E as <- <-. rewrite Z.div_mul by done.
  intros Hin. by destruct (Hown f Hin).
Qed.

(** ** A concrete machine

    Forty frames, of which frames 16 to 31 are free. *)
Definition demo : pmm :=
  {| pmm_bitmap := [0x0000FFFF; 0x000000FF]; pmm_bitmap_ptr := 0x200000; pmm_bitmap_size := 8;
     stats := {| total_frames := 40; used_frames := 24; free_frames := 16;
                 reserved_frames := 8; kernel_frames := 8 |};
     memory_size := 0x28000; kernel_start_phys := 0x8000; kernel_end_phys := 0x10000 |}.

Lemma demo_wf : pmm_wf demo.
Proof. by split; [repeat constructor | vm_compute ..]. Qed.

Lemma demo_zero : 0 ∉ free_set demo.
Proof. rewrite elem_of_free_set. vm_compute. by intros []. Qed.

Lemma pmm_alloc_frame_refines_witness :
  ∃ o s', pmm_alloc_frame demo = Ret (frame_address o, s') ∧ pmm_wf s' ∧ alloc_spec (free_set demo) o (free_set s').
Proof.
  destruct (pmm_alloc_frame_refines demo demo_wf) as (o & s' & E & Hwf & _ & Hspec & _). exists o, s'. split_and!; assumption.
Defined.

Lemma pmm_alloc_frames_refines_witness :
  ∃ a s', pmm_alloc_frames 3 demo = Ret (a, s') ∧ pmm_wf s' ∧
          alloc_run_spec (free_set demo) 3 a (free_set s').
Proof. apply (pmm_alloc_frames_refines demo 3); [exact demo_wf | lia]. Defined.

Lemma pmm_free_frame_refines_witness :
  ∃ s', pmm_free_frame 0xF000 demo = Ret (tt, s') ∧ pmm_wf s' ∧
        free_set s' = free_spec (total demo) 0xF000 (free_set demo).
Proof.
  destruct (pmm_free_frame_refines demo 0xF000 demo_wf ltac:(lia)) as (s' & E & Hwf & _ & Hf & _). exists s'. split_and!; assumption.
Defined.

Lemma pmm_free_frames_refines_witness :
  ∃ s', pmm_free_frames (14 * PAGE_SIZE) 4 demo = Ret (tt, s') ∧ pmm_wf s' ∧
        ∀ g, g ∈ free_set s' ↔ g ∈ free_set demo ∨ 14 ≤ g < 14 + 4 ∧ g < total demo.
Proof. apply (pmm_free_frames_refines demo 14 4); [exact demo_wf | lia ..]. Defined.

(** The call of [kernel_main]: 128 MB, a kernel image of 512 KB at 1 MB. *)
Lemma pmm_init_correct_witness :
  ∃ s, pmm_init 0x8000000 0x100000 0x180000 demo = Ret (tt, s) ∧
       pmm_wf s ∧ total s = 0x8000000 / PAGE_SIZE ∧
       (∀ f, f ∈ free_set s ↔
             PAGE_ALIGN_UP (0x180000 + pmm_bitmap_size s) / PAGE_SIZE ≤ f < total s) ∧
       (∀ a, 0 ≤ a < 0x180000 + pmm_bitmap_size s → a / PAGE_SIZE ∉ free_set s).
Proof. apply (pmm_init_correct 0x8000000 0x100000 0x180000 demo); lia. Defined.

(** One frame is allocated, then a second one. *)
Lemma pmm_exclusive_witness :
  ∃ s1 s2, pmm_alloc_frame demo = Ret (16 * PAGE_SIZE, s1) ∧
           pmm_alloc_frame s1 = Ret (17 * PAGE_SIZE, s2) ∧
           17 * PAGE_SIZE / PAGE_SIZE ∉ ({[16 * PAGE_SIZE / PAGE_SIZE]} ∪ ∅ : gset Z).
Proof.
  eexists _, _. split; [vm_compute; reflexivity|]. split; [vm_compute; reflexivity|].
  eapply (pmm_exclusive demo (_, _)).
  - exact demo_wf.
  - exact demo_zero.
  - apply rtc_once. apply (client_alloc demo (16 * PAGE_SIZE)); [vm_compute; reflexivity | done].
  - vm_compute; reflexivity.
  - done.
Defined.
