(* ===== verification/Vmm.v ===== *)
(** * Virtual memory (kernel/mm/vmm.c, include/mm/vmm.h)

    The two-level page tables of i386, seen the way the kernel sees them: every
    access to a table goes through the recursive mapping, that is through a
    virtual address that the processor translates with the very tables that are
    being changed.  The state has the physical memory (as 32-bit words, a total
    function of the physical address: reading outside RAM yields something on
    the real machine too), the register [cr3], the translation cache [tlb] and
    the frame allocator behind the class [FrameSource].

    A virtual access first consults the TLB and walks the tables only on a miss;
    a successful walk enters the TLB.  Nothing removes an entry but [invlpg] and a
    write to [cr3], so a missing invalidation is visible in the model. *)

From S2P Require Import Prelude Bits Pmm.

#[local] Open Scope Z_scope.

(** What the tables are made of: a source of page frames.  [fs_used] are the frames that
    are not free, [fs_managed] those that the source hands out and takes back. *)
Class FrameSource (P : Type) := {
  fs_ok : P → Prop;
  fs_used : P → Z → Prop;
  fs_alloc : M P Z;
  fs_free : Z → M P unit;
  fs_alloc_ok p :
    fs_ok p → ∃ a p', fs_alloc p = Ret (a, p') ∧ fs_ok p' ∧
      (∀ b, fs_used p b → fs_used p' b) ∧
      (a ≠ 0 → a mod 4096 = 0 ∧ 0 < a < 2 ^ 32 ∧ ¬ fs_used p a ∧ fs_used p' a);
  fs_free_ok p a :
    fs_ok p → a mod 4096 = 0 → 0 < a < 2 ^ 32 → fs_used p a →
    ∃ p', fs_free a p = Ret (tt, p') ∧ fs_ok p' ∧ (∀ b, fs_used p b → b ≠ a → fs_used p' b);
  fs_managed : P → Z → Prop;
  fs_alloc_exact p a p' :
    fs_ok p → fs_alloc p = Ret (a, p') →
    (∀ b, fs_used p' b → fs_used p b ∨ a ≠ 0 ∧ b = a) ∧ (a ≠ 0 → fs_managed p' a) ∧ (∀ b, fs_managed p b → fs_managed p' b);
  fs_free_exact p a p' :
    fs_ok p → a mod 4096 = 0 → 0 < a < 2 ^ 32 → fs_free a p = Ret (tt, p') →
    (∀ b, fs_used p' b → fs_used p b) ∧ (fs_managed p a → ¬ fs_used p' a);
}.

(** ** Addresses and entries *)

Abbreviation KERNEL_PHYSICAL_BASE := 0x00100000%Z (only parsing).
Abbreviation PAGE_TABLE_VIRT_BASE := 0xFFC00000%Z (only parsing).
Abbreviation PAGE_DIR_VIRT_ADDR := 0xFFFFF000%Z (only parsing).
Abbreviation PAGE_PRESENT := 1%Z (only parsing).
Abbreviation PAGE_WRITE := 2%Z (only parsing).
Abbreviation PAGE_USER := 4%Z (only parsing).

Definition PD_INDEX (virt : Z) : Z := Z.shiftr virt 22.
Definition PT_INDEX (virt : Z) : Z := Z.land (Z.shiftr virt 12) 0x3FF.
Definition PAGE_OFFSET (virt : Z) : Z := Z.land virt 0xFFF.
Definition GET_PAGE_TABLE (pd_idx : Z) : Z := u32 (PAGE_TABLE_VIRT_BASE + pd_idx * 0x1000).

Definition pde_create (pt_phys flags : Z) : Z := Z.lor (Z.land pt_phys 0xFFFFF000) (Z.land flags 0xFFF).
Definition pte_create (page_phys flags : Z) : Z := Z.lor (Z.land page_phys 0xFFFFF000) (Z.land flags 0xFFF).
Definition pde_get_addr (pde : Z) : Z := Z.land pde 0xFFFFF000.
Definition pte_get_addr (pte : Z) : Z := Z.land pte 0xFFFFF000.
Definition pte_is_present (pte : Z) : bool := negb (Z.land pte PAGE_PRESENT =? 0).

(** [struct page_directory]: where the directory is in physical memory, and the
    virtual address of its entries. *)
Record page_directory := { physical_addr : Z; entries : Z }.

Section Vmm.
Context {P : Type} `{!FrameSource P}.

Record vm := {
  pm : Z → Z;          (* 32-bit words of physical memory *)
  cr3 : Z;
  tlb : gmap Z Z;      (* virtual page number to frame address *)
  frames : P;
  dirs : gmap Z page_directory;     (* the structures, by address *)
  current_directory : Z;
}.

Definition with_pm (f : Z → Z) (s : vm) : vm :=
  {| pm := f; cr3 := cr3 s; tlb := tlb s; frames := frames s; dirs := dirs s; current_directory := current_directory s |}.
Definition with_cr3 (c : Z) (s : vm) : vm :=
  {| pm := pm s; cr3 := c; tlb := ∅; frames := frames s; dirs := dirs s; current_directory := current_directory s |}.
Definition with_tlb (t : gmap Z Z) (s : vm) : vm :=
  {| pm := pm s; cr3 := cr3 s; tlb := t; frames := frames s; dirs := dirs s; current_directory := current_directory s |}.
Definition with_frames (p : P) (s : vm) : vm :=
  {| pm := pm s; cr3 := cr3 s; tlb := tlb s; frames := p; dirs := dirs s; current_directory := current_directory s |}.

Definition with_dirs (d : gmap Z page_directory) (s : vm) : vm :=
  {| pm := pm s; cr3 := cr3 s; tlb := tlb s; frames := frames s; dirs := d; current_directory := current_directory s |}.
Definition with_current (c : Z) (s : vm) : vm :=
  {| pm := pm s; cr3 := cr3 s; tlb := tlb s; frames := frames s; dirs := dirs s; current_directory := c |}.

Definition on_frames {A} (c : M P A) : M vm A := zoom frames with_frames c.

Definition set_word (a v : Z) (f : Z → Z) : Z → Z := λ x, if x =? a then v else f x.

(** ** The processor *)

(** The page walk for the virtual page [vp]: the address of its frame. *)
Definition walk (m : Z → Z) (c vp : Z) : option Z :=
  let pde := m (c + 4 * (vp / 1024)) in
  if pte_is_present pde then
    let pte := m (pde_get_addr pde + 4 * (vp mod 1024)) in
    if pte_is_present pte then Some (pte_get_addr pte) else None
  else None.

Definition translate (virt : Z) : M vm Z :=
  s ← get;
  let vp := virt / 4096 in
  match tlb s !! vp with
  | Some f => mret (f + virt mod 4096)
  | None =>
      match walk (pm s) (cr3 s) vp with
      | Some f => _ ← modify (with_tlb (<[vp := f]> (tlb s))); mret (f + virt mod 4096)
      | None => undef                  (* page fault *)
      end
  end.

Definition load (virt : Z) : M vm Z := a ← translate virt; s ← get; mret (pm s a).
Definition store (virt v : Z) : M vm unit := a ← translate virt; modify (λ s, with_pm (set_word a v (pm s)) s).

Definition vmm_invlpg (virt : Z) : M vm unit := modify (λ s, with_tlb (delete (virt / 4096) (tlb s)) s).
Definition vmm_set_cr3 (phys : Z) : M vm unit := modify (with_cr3 phys).
Definition vmm_get_cr3 : M vm Z := gets cr3.

(** [memset(page, 0, PAGE_SIZE)], a word at a time. *)
Definition clear_page (virt : Z) : M vm unit := for_up 1024 0 (λ i, store (virt + 4 * i) 0).

(** ** The operations *)

(** [kernel_directory] is the address of the static structure of that name.  The
    directory that the boot loader left is reached through its identity mapping. *)
Definition vmm_init (kernel_directory kernel_end_phys : Z) : M vm unit :=
  pd_phys ← vmm_get_cr3;
  _ ← modify (λ s, with_dirs (<[kernel_directory := {| physical_addr := pd_phys; entries := 0 |}]> (dirs s)) s);
  _ ← load (pd_phys + 4 * 0);
  _ ← load (pd_phys + 4 * 768);
  _ ← store (pd_phys + 4 * 1023) (pde_create pd_phys (Z.lor PAGE_PRESENT PAGE_WRITE));
  _ ← vmm_set_cr3 pd_phys;
  _ ← modify (λ s, with_dirs (<[kernel_directory := {| physical_addr := pd_phys; entries := PAGE_DIR_VIRT_ADDR |}]> (dirs s)) s);
  _ ← modify (with_current kernel_directory);
  let kernel_size := u32 (kernel_end_phys - KERNEL_PHYSICAL_BASE) in
  let mapped_size := 4 * 1024 * 1024 in
  if mapped_size <? kernel_size then panic else mret tt.

Definition vmm_map_page (virt phys flags : Z) : M vm unit :=
  let pd_index := PD_INDEX virt in
  let pt_index := PT_INDEX virt in
  pde ← load (PAGE_DIR_VIRT_ADDR + 4 * pd_index);
  _ ← (if negb (pte_is_present pde) then
         pt_phys ← on_frames fs_alloc;
         if pt_phys =? 0 then panic
         else
           _ ← store (PAGE_DIR_VIRT_ADDR + 4 * pd_index)
                 (pde_create pt_phys (Z.lor (Z.lor PAGE_PRESENT PAGE_WRITE) flags));
           clear_page (GET_PAGE_TABLE pd_index)
       else mret tt);
  _ ← store (GET_PAGE_TABLE pd_index + 4 * pt_index) (pte_create phys (Z.lor PAGE_PRESENT flags));
  vmm_invlpg virt.

Definition vmm_unmap_page (virt : Z) : M vm unit :=
  let pd_index := PD_INDEX virt in
  let pt_index := PT_INDEX virt in
  pde ← load (PAGE_DIR_VIRT_ADDR + 4 * pd_index);
  if negb (pte_is_present pde) then mret tt
  else
    pte ← load (GET_PAGE_TABLE pd_index + 4 * pt_index);
    if pte_is_present pte then
      _ ← store (GET_PAGE_TABLE pd_index + 4 * pt_index) 0;
      vmm_invlpg virt
    else mret tt.

(** [for (virt = virt_start; virt < virt_end; virt += PAGE_SIZE)]: [fuel] bounds
    the number of pages, on which the unsigned loop variable may wrap. *)
Fixpoint map_region_loop (fuel : nat) (virt phys virt_end flags : Z) : M vm unit :=
  match fuel with
  | O => undef
  | S fuel =>
      if virt <? virt_end then
        _ ← vmm_map_page virt phys flags;
        map_region_loop fuel (u32 (virt + PAGE_SIZE)) (u32 (phys + PAGE_SIZE)) virt_end flags
      else mret tt
  end.

Definition vmm_map_region (virt_start phys_start size flags : Z) : M vm unit :=
  map_region_loop (S (Z.to_nat (size / PAGE_SIZE + 1))) virt_start phys_start (u32 (virt_start + size)) flags.

Fixpoint unmap_region_loop (fuel : nat) (virt virt_end : Z) : M vm unit :=
  match fuel with
  | O => undef
  | S fuel =>
      if virt <? virt_end then
        _ ← vmm_unmap_page virt; unmap_region_loop fuel (u32 (virt + PAGE_SIZE)) virt_end
      else mret tt
  end.

Definition vmm_unmap_region (virt_start size : Z) : M vm unit :=
  unmap_region_loop (S (Z.to_nat (size / PAGE_SIZE + 1))) virt_start (u32 (virt_start + size)).

Definition vmm_virt_to_phys (virt : Z) : M vm Z :=
  let pd_index := PD_INDEX virt in
  let pt_index := PT_INDEX virt in
  let offset := PAGE_OFFSET virt in
  pde ← load (PAGE_DIR_VIRT_ADDR + 4 * pd_index);
  if negb (pte_is_present pde) then mret 0
  else
    pte ← load (GET_PAGE_TABLE pd_index + 4 * pt_index);
    if negb (pte_is_present pte) then mret 0
    else mret (u32 (pte_get_addr pte + offset)).

Definition vmm_is_mapped (virt : Z) : M vm bool := a ← vmm_virt_to_phys virt; mret (negb (a =? 0)).

Definition vmm_get_page_flags (virt : Z) : M vm Z :=
  let pd_index := PD_INDEX virt in
  let pt_index := PT_INDEX virt in
  pde ← load (PAGE_DIR_VIRT_ADDR + 4 * pd_index);
  if negb (pte_is_present pde) then mret 0
  else pte ← load (GET_PAGE_TABLE pd_index + 4 * pt_index); mret (Z.land pte 0xFFF).

Definition vmm_set_page_flags (virt flags : Z) : M vm unit :=
  let pd_index := PD_INDEX virt in
  let pt_index := PT_INDEX virt in
  pde ← load (PAGE_DIR_VIRT_ADDR + 4 * pd_index);
  if negb (pte_is_present pde) then mret tt
  else
    pte ← load (GET_PAGE_TABLE pd_index + 4 * pt_index);
    if pte_is_present pte then
      let phys := pte_get_addr pte in
      _ ← store (GET_PAGE_TABLE pd_index + 4 * pt_index) (pte_create phys flags);
      vmm_invlpg virt
    else mret tt.

Definition vmm_switch_page_directory (pd : Z) : M vm unit :=
  if pd =? 0 then mret tt
  else
    _ ← modify (with_current pd);
    d ← gets (λ s, dirs s !! pd);
    match d with
    | Some d => vmm_set_cr3 (physical_addr d)
    | None => undef
    end.

Definition vmm_get_current_page_directory : M vm Z := gets current_directory.

(** ** The address space *)

Definition pde_at (s : vm) (i : Z) : Z := pm s (cr3 s + 4 * i).
Definition table (s : vm) (i : Z) : Z := pde_get_addr (pde_at s i).
Definition mapping (s : vm) (vp : Z) : option Z := walk (pm s) (cr3 s) vp.

(** The two directory entries that the entry code fills with one and the same
    page table (entry.asm); every other table belongs to one entry. *)
Definition boot_slot (i : Z) : Prop := i = 0 ∨ i = 768.

Record vm_ok (s : vm) : Prop := {
  vo_cr3 : cr3 s mod 4096 = 0 ∧ 0 ≤ cr3 s < 2 ^ 32;
  vo_words : ∀ a, 0 ≤ pm s a < 2 ^ 32;
  vo_recursive : pde_at s 1023 = Z.lor (cr3 s) 3;
  vo_tables : ∀ i, 0 ≤ i < 1023 → pte_is_present (pde_at s i) = true →
                table s i ≠ cr3 s ∧ fs_used (frames s) (table s i);
  vo_distinct : ∀ i j, 0 ≤ i < 1023 → 0 ≤ j < 1023 → i ≠ j → ¬ boot_slot i →
                  pte_is_present (pde_at s i) = true → pte_is_present (pde_at s j) = true →
                  table s i ≠ table s j;
  vo_root : fs_used (frames s) (cr3 s);
  vo_tlb : ∀ vp f, tlb s !! vp = Some f → 0 ≤ vp < 2 ^ 20 ∧ mapping s vp = Some f;
  vo_frames : fs_ok (frames s);
}.
End Vmm.
