(* ===== verification/VmmSpec.v ===== *)
(** * Virtual memory: correctness

    The page-table operations change the address space exactly as asked: the
    page walk of the processor is the specification, and the invariant [vm_ok]
    includes that the TLB never disagrees with it. *)

From S2P Require Import Prelude Bits Pmm Vmm.

#[local] Open Scope Z_scope.

(** ** Entries *)

Lemma pd_index_eq v : PD_INDEX v = v / 4096 / 1024.
Proof. unfold PD_INDEX. rewrite Z.shiftr_div_pow2 by lia. rewrite Z.div_div by lia. done. Qed.

Lemma pt_index_eq v : PT_INDEX v = (v / 4096) mod 1024.
Proof.
  unfold PT_INDEX. rewrite Z.shiftr_div_pow2 by lia. change 0x3FF with (Z.ones 10).
  by rewrite Z.land_ones by lia.
Qed.

Lemma get_page_table_eq i : 0 ≤ i < 1024 → GET_PAGE_TABLE i = (1023 * 1024 + i) * 4096.
Proof. intros Hi. unfold GET_PAGE_TABLE. rewrite u32_small by lia. lia. Qed.

Lemma present_odd e : pte_is_present e = Z.testbit e 0.
Proof.
  unfold pte_is_present. change 1 with (Z.ones 1). rewrite Z.land_ones by lia.
  change (2 ^ 1) with 2. rewrite Zmod_odd, <- Z.bit0_odd. by destruct (Z.testbit e 0).
Qed.

Lemma pte_create_eq a f : 0 ≤ a < 2 ^ 32 → pte_create a f = a / 4096 * 4096 + f mod 4096.
Proof.
  intros Ha. unfold pte_create. rewrite land_page_mask, land_page_offset by done.
  rewrite <- Z.lxor_lor; [rewrite <- Z.add_nocarry_lxor; [done|]|];
    (apply Z.bits_inj'; intros i Hi; rewrite Z.land_spec, Z.bits_0;
     destruct (decide (i < 12));
     [ change 4096 with (2 ^ 12) at 2; rewrite Z.mul_pow2_bits_low by lia; done
     | rewrite (Z.mod_pow2_bits_high f 12) by lia; apply andb_false_r ]).
Qed.

Lemma pte_create_bounds a f : 0 ≤ a < 2 ^ 32 → 0 ≤ pte_create a f < 2 ^ 32.
Proof. intros Ha. rewrite pte_create_eq by done. dlia. Qed.

Lemma pte_create_addr a f : 0 ≤ a < 2 ^ 32 → pte_get_addr (pte_create a f) = a / 4096 * 4096.
Proof.
  intros Ha. unfold pte_get_addr. rewrite land_page_mask by (by apply pte_create_bounds).
  rewrite pte_create_eq by done. dlia.
Qed.

Lemma pte_create_flags a f : 0 ≤ a < 2 ^ 32 → Z.land (pte_create a f) 0xFFF = f mod 4096.
Proof. intros Ha. rewrite land_page_offset, pte_create_eq by done. dlia. Qed.

Lemma pte_create_present a f : 0 ≤ a < 2 ^ 32 → pte_is_present (pte_create a f) = Z.testbit f 0.
Proof.
  intros Ha. rewrite present_odd, pte_create_eq by done. rewrite !Z.bit0_odd.
  rewrite Z.odd_add, Z.odd_mul. change (Z.odd 4096) with false. rewrite andb_false_r, xorb_false_l.
  rewrite <- !Z.bit0_odd. apply (Z.mod_pow2_bits_low f 12). lia.
Qed.

Lemma get_addr_aligned e : 0 ≤ e < 2 ^ 32 → pte_get_addr e mod 4096 = 0 ∧ 0 ≤ pte_get_addr e < 2 ^ 32.
Proof. intros He. unfold pte_get_addr. rewrite land_page_mask by done. dlia. Qed.

Lemma page_word_ne a b j k :
  a mod 4096 = 0 → b mod 4096 = 0 → a ≠ b → 0 ≤ j < 1024 → 0 ≤ k < 1024 → a + 4 * j ≠ b + 4 * k.
Proof. intros. dlia. Qed.

Section Spec.
Context {P : Type} `{!FrameSource P}.
Implicit Types s : vm (P := P).

Lemma recursive_entry s : vm_ok s → pte_is_present (pde_at s 1023) = true ∧ table s 1023 = cr3 s.
Proof.
  intros Hok. destruct (vo_cr3 _ Hok) as [Hal Hr]. unfold table. rewrite (vo_recursive _ Hok).
  assert (Z.lor (cr3 s) 3 = pte_create (cr3 s) 3) as ->.
  { unfold pte_create. rewrite land_page_mask by done. f_equal. dlia. }
  change (pde_get_addr (pte_create (cr3 s) 3)) with (pte_get_addr (pte_create (cr3 s) 3)).
  rewrite pte_create_addr, pte_create_present by done. split; [done | dlia].
Qed.

(** The recursive region shows the tables. *)
Lemma recursive_mapping s i :
  vm_ok s → 0 ≤ i < 1024 →
  mapping s (1023 * 1024 + i) = if pte_is_present (pde_at s i) then Some (table s i) else None.
Proof.
  intros Hok Hi. destruct (recursive_entry s Hok) as [Hp Ht]. unfold mapping, walk. cbv zeta.
  replace ((1023 * 1024 + i) / 1024) with 1023 by dlia. replace ((1023 * 1024 + i) mod 1024) with i by dlia.
  fold (pde_at s 1023). rewrite Hp. fold (table s 1023). rewrite Ht. done.
Qed.

(** Same memory, and the same cached translations outside the recursive region. *)
Definition same s s' : Prop :=
  pm s' = pm s ∧ cr3 s' = cr3 s ∧ frames s' = frames s ∧
  (∀ vp, vp / 1024 ≠ 1023 → tlb s' !! vp = tlb s !! vp) ∧
  dirs s' = dirs s ∧ current_directory s' = current_directory s.

Lemma same_mapping s s' vp : same s s' → mapping s' vp = mapping s vp.
Proof. intros (Hm & Hc & _). unfold mapping. by rewrite Hm, Hc. Qed.

Lemma same_trans s1 s2 s3 : same s1 s2 → same s2 s3 → same s1 s3.
Proof.
  intros (? & ? & ? & Ht & ? & ?) (? & ? & ? & Ht' & ? & ?). split_and!; try congruence.
  intros vp Hvp. by rewrite Ht', Ht.
Qed.

(** A frame that is neither the directory nor a table of the current address space,
    and states that differ from each other in such frames not at all. *)
Definition page_of (a : Z) : Z := a / 4096 * 4096.
Definition foreign s (pg : Z) : Prop :=
  pg ≠ cr3 s ∧ ∀ i, 0 ≤ i < 1023 → pte_is_present (pde_at s i) = true → table s i ≠ pg.
Definition spares s s' : Prop :=
  dirs s' = dirs s ∧ current_directory s' = current_directory s ∧
  ∀ pg, foreign s pg → fs_used (frames s) pg → foreign s' pg ∧ ∀ a, page_of a = pg → pm s' a = pm s a.

Lemma same_spares s s' : same s s' → spares s s'.
Proof.
  intros (Hm & Hc & _ & _ & Hd & Hcur). split_and!; [done | done|]. intros pg [H1 H2] _. unfold foreign, table, pde_at in *. by rewrite Hm, Hc.
Qed.

Lemma spares_trans s1 s2 s3 : (∀ a, fs_used (frames s1) a → fs_used (frames s2) a) → spares s1 s2 → spares s2 s3 → spares s1 s3.
Proof.
  intros Hu (Hd & Hc & Hp) (Hd' & Hc' & Hp'). split_and!; [congruence | congruence|]. intros pg Hf Hpg. destruct (Hp pg Hf Hpg) as [Hf2 Hm].
  destruct (Hp' pg Hf2 (Hu pg Hpg)) as [Hf3 Hm']. split; [done|]. intros a Ha. by rewrite Hm', Hm.
Qed.

Lemma translate_ok s v f :
  vm_ok s → 0 ≤ v < 2 ^ 32 → v / 4096 / 1024 = 1023 → mapping s (v / 4096) = Some f →
  ∃ s', translate v s = Ret (f + v mod 4096, s') ∧ vm_ok s' ∧ same s s'.
Proof.
  intros Hok Hv Hrec Hm. unfold translate. rewrite bind_get. cbv zeta.
  destruct (tlb s !! (v / 4096)) as [g|] eqn:E.
  - destruct (vo_tlb _ Hok _ _ E) as [_ Hg]. rewrite Hm in Hg. injection Hg as <-. by exists s.
  - unfold mapping in Hm. rewrite Hm, bind_modify. eexists. split; [reflexivity|]. split.
    + destruct Hok as [H1 H2 H3 H4 H5 H6 H7 H8]. split; try done. intros vp g. cbn [tlb with_tlb].
      rewrite lookup_insert_Some. intros [(<- & <-)|(_ & Hg)]; [|by apply H7]. split; [dlia | exact Hm].
    + split_and!; try done. intros vp Hvp. cbn. apply lookup_insert_ne. intros <-. done.
Qed.

Lemma dir_address i : 0 ≤ i < 1024 →
  0 ≤ PAGE_DIR_VIRT_ADDR + 4 * i < 2 ^ 32 ∧ (PAGE_DIR_VIRT_ADDR + 4 * i) / 4096 = 1023 * 1024 + 1023 ∧
  (PAGE_DIR_VIRT_ADDR + 4 * i) mod 4096 = 4 * i.
Proof. intros Hi. split_and!; dlia. Qed.

Lemma table_address i k : 0 ≤ i < 1024 → 0 ≤ k < 1024 →
  0 ≤ GET_PAGE_TABLE i + 4 * k < 2 ^ 32 ∧ (GET_PAGE_TABLE i + 4 * k) / 4096 = 1023 * 1024 + i ∧
  (GET_PAGE_TABLE i + 4 * k) mod 4096 = 4 * k.
Proof. intros Hi Hk. rewrite get_page_table_eq by done. split_and!; dlia. Qed.

(** Every access of the kernel to its tables reaches the intended word. *)
Lemma translate_dir s i :
  vm_ok s → 0 ≤ i < 1024 →
  ∃ s', translate (PAGE_DIR_VIRT_ADDR + 4 * i) s = Ret (cr3 s + 4 * i, s') ∧ vm_ok s' ∧ same s s'.
Proof.
  intros Hok Hi. destruct (dir_address i Hi) as (Hr & Hvp & Hoff). destruct (recursive_entry s Hok) as [Hp Ht].
  pose proof (recursive_mapping s 1023 Hok ltac:(lia)) as Hm. rewrite Hp, Ht in Hm.
  destruct (translate_ok s (PAGE_DIR_VIRT_ADDR + 4 * i) (cr3 s)) as (s' & E & H'); try done.
  { rewrite Hvp. dlia. } { by rewrite Hvp. }
  exists s'. by rewrite E, Hoff.
Qed.

Lemma translate_table s i k :
  vm_ok s → 0 ≤ i < 1024 → 0 ≤ k < 1024 → pte_is_present (pde_at s i) = true →
  ∃ s', translate (GET_PAGE_TABLE i + 4 * k) s = Ret (table s i + 4 * k, s') ∧ vm_ok s' ∧ same s s'.
Proof.
  intros Hok Hi Hk Hp. destruct (table_address i k Hi Hk) as (Hr & Hvp & Hoff).
  pose proof (recursive_mapping s i Hok Hi) as Hm. rewrite Hp in Hm.
  destruct (translate_ok s (GET_PAGE_TABLE i + 4 * k) (table s i)) as (s' & E & H'); try done.
  { rewrite Hvp. dlia. } { by rewrite Hvp. }
  exists s'. by rewrite E, Hoff.
Qed.

Lemma load_dir s i :
  vm_ok s → 0 ≤ i < 1024 →
  ∃ s', load (PAGE_DIR_VIRT_ADDR + 4 * i) s = Ret (pde_at s i, s') ∧ vm_ok s' ∧ same s s'.
Proof.
  intros Hok Hi. destruct (translate_dir s i Hok Hi) as (s' & E & Hok' & Hs). exists s'. split; [|done].
  unfold load. rewrite (bind_Ret _ _ _ _ _ E), bind_get. destruct Hs as (Hm & _). by rewrite Hm.
Qed.

Lemma load_table s i k :
  vm_ok s → 0 ≤ i < 1024 → 0 ≤ k < 1024 → pte_is_present (pde_at s i) = true →
  ∃ s', load (GET_PAGE_TABLE i + 4 * k) s = Ret (pm s (table s i + 4 * k), s') ∧ vm_ok s' ∧ same s s'.
Proof.
  intros Hok Hi Hk Hp. destruct (translate_table s i k Hok Hi Hk Hp) as (s' & E & Hok' & Hs). exists s'.
  split; [|done]. unfold load. rewrite (bind_Ret _ _ _ _ _ E), bind_get. destruct Hs as (Hm & _). by rewrite Hm.
Qed.
(** ** Writing an entry of a table *)

Lemma set_word_eq a v (m : Z → Z) : set_word a v m a = v.
Proof. unfold set_word. by rewrite Z.eqb_refl. Qed.

Lemma set_word_ne a v (m : Z → Z) x : x ≠ a → set_word a v m x = m x.
Proof. intros H. unfold set_word. by rewrite (proj2 (Z.eqb_neq _ _)). Qed.

Lemma table_aligned s i : vm_ok s → table s i mod 4096 = 0 ∧ 0 ≤ table s i < 2 ^ 32.
Proof. intros Hok. apply get_addr_aligned. apply (vo_words _ Hok). Qed.

(** The state after the word for page [k] of table [i] was written. *)
Definition with_pte s (i k e : Z) : vm := with_pm (set_word (table s i + 4 * k) e (pm s)) s.

Section WithPte.
Context s (i k e : Z) (Hok : vm_ok s) (Hi : 0 ≤ i < 1023) (Hb : ¬ boot_slot i) (Hk : 0 ≤ k < 1024)
  (Hp : pte_is_present (pde_at s i) = true).

Lemma with_pte_pde j : 0 ≤ j < 1024 → pde_at (with_pte s i k e) j = pde_at s j.
Proof.
  intros Hj. unfold pde_at, with_pte. cbn. apply set_word_ne.
  destruct (vo_tables _ Hok i Hi Hp) as [Hne _]. destruct (table_aligned s i Hok). destruct (vo_cr3 _ Hok).
  by apply page_word_ne.
Qed.

Lemma with_pte_table j : 0 ≤ j < 1024 → table (with_pte s i k e) j = table s j.
Proof. intros Hj. unfold table. by rewrite with_pte_pde. Qed.

Lemma with_pte_mapping vp :
  0 ≤ vp < 2 ^ 20 →
  mapping (with_pte s i k e) vp =
  if vp =? i * 1024 + k then (if pte_is_present e then Some (pte_get_addr e) else None) else mapping s vp.
Proof.
  intros Hvp. assert (0 ≤ vp / 1024 < 1024) as Hq by dlia. assert (0 ≤ vp mod 1024 < 1024) as Hr by dlia.
  unfold mapping, walk. cbv zeta. change (cr3 (with_pte s i k e)) with (cr3 s).
  change (pm (with_pte s i k e) (cr3 s + 4 * (vp / 1024))) with (pde_at (with_pte s i k e) (vp / 1024)).
  rewrite with_pte_pde by done. fold (pde_at s (vp / 1024)). fold (table s (vp / 1024)).
  destruct (Z.eqb_spec vp (i * 1024 + k)) as [->|Hne].
  - replace ((i * 1024 + k) / 1024) with i by dlia. replace ((i * 1024 + k) mod 1024) with k by dlia.
    rewrite Hp. cbn. by rewrite set_word_eq.
  - destruct (pte_is_present (pde_at s (vp / 1024))) eqn:Hq'; [|done]. cbn [pm with_pte with_pm].
    rewrite set_word_ne; [done|]. destruct (decide (vp / 1024 = i)) as [E|Hneq].
    + rewrite E. intros H. apply Hne. assert (vp mod 1024 = k) by lia. dlia.
    + destruct (table_aligned s i Hok), (table_aligned s (vp / 1024) Hok). apply page_word_ne; try done.
      destruct (decide (vp / 1024 = 1023)) as [E|Hn].
      * rewrite E. destruct (recursive_entry s Hok) as [_ ->]. intros Heq.
        by destruct (vo_tables _ Hok i Hi Hp) as [? _].
      * apply not_eq_sym. apply (vo_distinct _ Hok); try done; lia.
Qed.

(** Invalidating that page makes the state well formed again. *)
Lemma with_pte_ok :
  0 ≤ e < 2 ^ 32 →
  vm_ok (with_tlb (delete (i * 1024 + k) (tlb s)) (with_pte s i k e)).
Proof.
  intros He. pose proof Hok as [H1 H2 H3 H4 H5 H6 H7 H8]. set (s' := with_tlb _ _).
  assert (∀ j, 0 ≤ j < 1024 → pde_at s' j = pde_at s j) as Hpde by exact with_pte_pde.
  assert (∀ j, 0 ≤ j < 1024 → table s' j = table s j) as Htab by exact with_pte_table.
  split; try done.
  - intros a. cbn. unfold set_word. destruct (_ =? _); [done | apply H2].
  - by rewrite Hpde by lia.
  - intros j Hj. rewrite Hpde, Htab by lia. by apply H4.
  - intros j j' Hj Hj' Hne. rewrite !Hpde, !Htab by lia. by apply H5.
  - intros vp f. cbn [tlb with_tlb s']. rewrite lookup_delete_Some. intros [Hne Hf].
    destruct (H7 vp f Hf) as [Hr Hm]. split; [done|].
    change (mapping s' vp) with (mapping (with_pte s i k e) vp).
    rewrite with_pte_mapping, (proj2 (Z.eqb_neq _ _)) by (done || lia). done.
Qed.

Lemma with_pte_pm a : page_of a ≠ table s i → pm (with_pte s i k e) a = pm s a.
Proof.
  intros Ha. unfold with_pte. cbn. apply set_word_ne. intros ->. apply Ha. destruct (table_aligned s i Hok). unfold page_of. dlia.
Qed.

Lemma with_pte_spares t : spares s (with_tlb t (with_pte s i k e)).
Proof.
  split_and!; [done | done|]. intros pg [Hf1 Hf2] _. split.
  - split; [done|]. intros j Hj Hpj. change (table (with_pte s i k e) j ≠ pg). change (pte_is_present (pde_at (with_pte s i k e) j) = true) in Hpj.
    rewrite with_pte_table by lia. rewrite with_pte_pde in Hpj by lia. by apply Hf2.
  - intros a Ha. apply with_pte_pm. rewrite Ha. apply not_eq_sym. by apply Hf2.
Qed.
End WithPte.

Lemma same_pde s s' j : same s s' → pde_at s' j = pde_at s j.
Proof. intros (Hm & Hc & _). unfold pde_at. by rewrite Hm, Hc. Qed.

Lemma same_table s s' j : same s s' → table s' j = table s j.
Proof. intros H. unfold table. by rewrite (same_pde s s' j H). Qed.

(** The entry of a page, meaningful when its table is present. *)
Definition pte_at s (vp : Z) : Z := pm s (table s (vp / 1024) + 4 * (vp mod 1024)).

Lemma mapping_eq s vp :
  mapping s vp =
  if pte_is_present (pde_at s (vp / 1024)) then
    if pte_is_present (pte_at s vp) then Some (pte_get_addr (pte_at s vp)) else None
  else None.
Proof. reflexivity. Qed.

Lemma store_pte s i k e :
  vm_ok s → 0 ≤ i < 1023 → 0 ≤ k < 1024 → pte_is_present (pde_at s i) = true →
  ∃ s1, store (GET_PAGE_TABLE i + 4 * k) e s = Ret (tt, with_pte s1 i k e) ∧ vm_ok s1 ∧ same s s1.
Proof.
  intros Hok Hi Hk Hp. destruct (translate_table s i k Hok ltac:(lia) Hk Hp) as (s1 & E & Hok1 & Hs).
  exists s1. split; [|done]. unfold store. rewrite (bind_Ret _ _ _ _ _ E).
  by rewrite <- (same_table s s1 i Hs).
Qed.

(** The combination that ends every change of a mapping: write and invalidate. *)
Lemma store_invlpg s i k e v :
  vm_ok s → 0 ≤ i < 1023 → ¬ boot_slot i → 0 ≤ k < 1024 → pte_is_present (pde_at s i) = true → 0 ≤ e < 2 ^ 32 →
  v / 4096 = i * 1024 + k →
  ∃ s', (_ ← store (GET_PAGE_TABLE i + 4 * k) e; vmm_invlpg v) s = Ret (tt, s') ∧ vm_ok s' ∧
    cr3 s' = cr3 s ∧ frames s' = frames s ∧
    (∀ j, 0 ≤ j < 1024 → pde_at s' j = pde_at s j) ∧ pte_at s' (v / 4096) = e ∧ spares s s' ∧
    (∀ vp, 0 ≤ vp < 2 ^ 20 → mapping s' vp =
       if vp =? v / 4096 then (if pte_is_present e then Some (pte_get_addr e) else None) else mapping s vp).
Proof.
  intros Hok Hi Hb Hk Hp He Hv. destruct (store_pte s i k e Hok Hi Hk Hp) as (s1 & E & Hok1 & Hs).
  rewrite (bind_Ret _ _ _ _ _ E). rewrite <- (same_pde s s1 i Hs) in Hp.
  eexists. split; [reflexivity|]. cbn [tlb with_tlb]. rewrite Hv.
  change (tlb (with_pte s1 i k e)) with (tlb s1).
  split_and!; [by apply with_pte_ok | apply Hs | apply Hs | | | |].
  - intros j Hj. rewrite <- (same_pde s s1 j Hs). by apply with_pte_pde.
  - set (s' := with_tlb _ _). unfold pte_at.
    replace ((i * 1024 + k) / 1024) with i by dlia. replace ((i * 1024 + k) mod 1024) with k by dlia.
    change (table s' i) with (table (with_pte s1 i k e) i). rewrite (with_pte_table s1 i k e) by (done || lia).
    apply set_word_eq.
  - eapply spares_trans; [|by apply same_spares | by apply with_pte_spares]. destruct Hs as (_ & _ & Hf & _). by rewrite Hf.
  - intros vp Hvp. rewrite <- (same_mapping s s1 vp Hs). by apply with_pte_mapping.
Qed.

(** ** A new page table *)

(** The state after the directory entry [i] was set to [e]. *)
Definition with_pde s (i e : Z) : vm := with_pm (set_word (cr3 s + 4 * i) e (pm s)) s.

Lemma with_pde_pde s i e j : pde_at (with_pde s i e) j = if j =? i then e else pde_at s j.
Proof.
  unfold pde_at, with_pde. cbn. unfold set_word. destruct (Z.eqb_spec j i) as [->|]; [by rewrite Z.eqb_refl|].
  rewrite (proj2 (Z.eqb_neq _ _)) by lia. done.
Qed.

Lemma store_pde s i e :
  vm_ok s → 0 ≤ i < 1024 →
  ∃ s1, store (PAGE_DIR_VIRT_ADDR + 4 * i) e s = Ret (tt, with_pde s1 i e) ∧ vm_ok s1 ∧ same s s1.
Proof.
  intros Hok Hi. destruct (translate_dir s i Hok Hi) as (s1 & E & Hok1 & Hs).
  exists s1. split; [|done]. unfold store. rewrite (bind_Ret _ _ _ _ _ E). destruct Hs as (_ & Hc & _).
  by rewrite <- Hc.
Qed.

(** An absent table has no cached page. *)
Lemma no_table_no_tlb s i vp :
  vm_ok s → pte_is_present (pde_at s i) = false → vp / 1024 = i → tlb s !! vp = None.
Proof.
  intros Hok Hp Hvp. destruct (tlb s !! vp) as [f|] eqn:E; [|done].
  destruct (vo_tlb _ Hok vp f E) as [_ Hm]. unfold mapping, walk in Hm. cbv zeta in Hm.
  rewrite Hvp in Hm. fold (pde_at s i) in Hm. by rewrite Hp in Hm.
Qed.

Lemma with_pde_mapping s i e vp :
  vm_ok s → 0 ≤ i < 1023 → pte_is_present (pde_at s i) = false → 0 ≤ vp < 2 ^ 20 →
  vp / 1024 ≠ i → vp ≠ 1023 * 1024 + i → mapping (with_pde s i e) vp = mapping s vp.
Proof.
  intros Hok Hi Hp Hvp Hne Hne'. destruct (decide (vp / 1024 = 1023)) as [E|Hn].
  - assert (vp = 1023 * 1024 + vp mod 1024) as -> by dlia. set (j := vp mod 1024). assert (0 ≤ j < 1024) by (unfold j; dlia).
    rewrite (recursive_mapping s j Hok) by done. destruct (recursive_entry s Hok) as [Hrp Hrt].
    assert (j ≠ i) as Hji by (unfold j; intros <-; apply Hne'; dlia).
    unfold mapping, walk. cbv zeta. replace ((1023 * 1024 + j) / 1024) with 1023 by dlia.
    replace ((1023 * 1024 + j) mod 1024) with j by dlia. change (cr3 (with_pde s i e)) with (cr3 s).
    change (pm (with_pde s i e) (cr3 s + 4 * 1023)) with (pde_at (with_pde s i e) 1023).
    rewrite with_pde_pde, (proj2 (Z.eqb_neq 1023 i)), Hrp by lia. fold (table s 1023). rewrite Hrt.
    change (pm (with_pde s i e) (cr3 s + 4 * j)) with (pde_at (with_pde s i e) j).
    rewrite with_pde_pde, (proj2 (Z.eqb_neq j i)) by done. done.
  - unfold mapping, walk. cbv zeta. change (cr3 (with_pde s i e)) with (cr3 s).
    change (pm (with_pde s i e) (cr3 s + 4 * (vp / 1024))) with (pde_at (with_pde s i e) (vp / 1024)).
    rewrite with_pde_pde, (proj2 (Z.eqb_neq _ i)) by done. fold (pde_at s (vp / 1024)).
    destruct (pte_is_present (pde_at s (vp / 1024))) eqn:Hq; [|done]. cbn [pm with_pde with_pm].
    rewrite set_word_ne; [done|]. destruct (vo_cr3 _ Hok). destruct (table_aligned s (vp / 1024) Hok).
    apply page_word_ne; try done; [|dlia|dlia]. apply (vo_tables _ Hok); [dlia | done].
Qed.

Lemma with_pde_ok s i e :
  vm_ok s → 0 ≤ i < 1023 → pte_is_present (pde_at s i) = false → 0 ≤ e < 2 ^ 32 →
  pde_get_addr e ≠ cr3 s → fs_used (frames s) (pde_get_addr e) →
  (∀ j, 0 ≤ j < 1023 → pte_is_present (pde_at s j) = true → table s j ≠ pde_get_addr e) →
  vm_ok (with_pde s i e).
Proof.
  intros Hok Hi Hp He Hc Hu Hd. pose proof Hok as [H1 H2 H3 H4 H5 H6 H7 H8].
  assert (∀ j, table (with_pde s i e) j = if j =? i then pde_get_addr e else table s j) as Htab.
  { intros j. unfold table. rewrite with_pde_pde. by destruct (_ =? _). }
  split; try done.
  - intros a. cbn. unfold set_word. destruct (_ =? _); [done | apply H2].
  - rewrite with_pde_pde, (proj2 (Z.eqb_neq _ _)) by lia. done.
  - intros j Hj. rewrite with_pde_pde, Htab. destruct (Z.eqb_spec j i); [done | by apply H4].
  - intros j j' Hj Hj' Hne. rewrite !with_pde_pde, !Htab.
    destruct (Z.eqb_spec j i), (Z.eqb_spec j' i); try lia; intros Hbj Hpj Hpj'.
    + apply not_eq_sym. by apply Hd.
    + by apply Hd.
    + by apply H5.
  - intros vp f Hf. change (tlb s !! vp = Some f) in Hf. destruct (H7 vp f Hf) as [Hr Hm]. split; [done|].
    rewrite with_pde_mapping; try done.
    + intros Hi'. by rewrite (no_table_no_tlb s i vp Hok Hp Hi') in Hf.
    + intros ->. rewrite recursive_mapping, Hp in Hm by (done || lia). done.
Qed.

(** A table that was just linked is cleared through the recursive window, while
    no page of its region is cached. *)
Lemma clear_table s i :
  vm_ok s → 0 ≤ i < 1023 → ¬ boot_slot i → pte_is_present (pde_at s i) = true →
  (∀ vp, vp / 1024 = i → tlb s !! vp = None) →
  ∃ s', clear_page (GET_PAGE_TABLE i) s = Ret (tt, s') ∧ vm_ok s' ∧ cr3 s' = cr3 s ∧ frames s' = frames s ∧
    (∀ j, 0 ≤ j < 1024 → pde_at s' j = pde_at s j) ∧ dirs s' = dirs s ∧ current_directory s' = current_directory s ∧
    (∀ a, page_of a ≠ table s i → pm s' a = pm s a) ∧
    (∀ vp, 0 ≤ vp < 2 ^ 20 → mapping s' vp = if vp / 1024 =? i then None else mapping s vp).
Proof.
  intros Hok Hi Hb Hp Htlb. unfold clear_page.
  destruct (for_up_inv (λ k t, vm_ok t ∧ cr3 t = cr3 s ∧ frames t = frames s ∧
    (∀ j, 0 ≤ j < 1024 → pde_at t j = pde_at s j) ∧ (∀ vp, vp / 1024 = i → tlb t !! vp = None) ∧
    (dirs t = dirs s ∧ current_directory t = current_directory s ∧ ∀ a, page_of a ≠ table s i → pm t a = pm s a) ∧
    (∀ vp, 0 ≤ vp < 2 ^ 20 →
       mapping t vp = if (vp / 1024 =? i) && (vp mod 1024 <? k) then None else mapping s vp))
    (λ k, store (GET_PAGE_TABLE i + 4 * k) 0) 1024 0 s) as (s' & E & Hok' & Hc & Hf & Hd & _ & (? & ? & ?) & Hm).
  - split_and!; try done. intros vp Hvp. rewrite (proj2 (Z.ltb_ge (vp mod 1024) 0)) by dlia. by rewrite andb_false_r.
  - intros k t Hk (Hok1 & Hc & Hf & Hd & Hn & (Hdi & Hcu & Hpm) & Hm). assert (pte_is_present (pde_at t i) = true) as Hpt by (by rewrite Hd by lia).
    destruct (store_pte t i k 0 Hok1 Hi ltac:(lia) Hpt) as (u & E & Hoku & Hu). eexists. split; [exact E|].
    rewrite <- (same_pde t u i Hu) in Hpt.
    assert (∀ vp, vp / 1024 = i → tlb u !! vp = None) as Hnu.
    { intros vp Hvp. destruct Hu as (_ & _ & _ & Ht & _). rewrite Ht by lia. by apply Hn. }
    split_and!; [ | rewrite <- Hc; apply Hu | rewrite <- Hf; apply Hu | | done | rewrite <- Hdi; apply Hu | rewrite <- Hcu; apply Hu | |].
    + pose proof (with_pte_ok u i k 0 Hoku Hi Hb ltac:(lia) Hpt ltac:(lia)) as Hw.
      rewrite delete_id in Hw by (apply Hnu; dlia). by destruct u.
    + intros j Hj. rewrite with_pte_pde by (done || lia). rewrite (same_pde t u j Hu). by apply Hd.
    + assert (table u i = table s i) as Hti by (rewrite (same_table t u i Hu); unfold table; by rewrite Hd by lia).
      intros a Ha. rewrite with_pte_pm by (done || by rewrite Hti). rewrite <- Hpm by done. by rewrite (proj1 Hu).
    + intros vp Hvp. rewrite with_pte_mapping by (done || lia). rewrite (same_mapping t u vp Hu), (Hm vp Hvp).
      destruct (Z.eqb_spec vp (i * 1024 + k)) as [->|Hne].
      * replace ((i * 1024 + k) / 1024) with i by dlia. replace ((i * 1024 + k) mod 1024) with k by dlia.
        rewrite Z.eqb_refl, (proj2 (Z.ltb_lt k (k + 1))) by lia. done.
      * destruct (Z.eqb_spec (vp / 1024) i) as [Hvi|]; [|done]. cbn [andb].
        destruct (Z.ltb_spec (vp mod 1024) k), (Z.ltb_spec (vp mod 1024) (k + 1)); try done; try lia.
        exfalso. apply Hne. dlia.
  - exists s'. split_and!; try done. intros vp Hvp. rewrite (Hm vp Hvp).
    rewrite (proj2 (Z.ltb_lt (vp mod 1024) (0 + Z.of_nat 1024))) by dlia. by rewrite andb_true_r.
Qed.

(** The address space as the rest of the kernel sees it: the recursive window
    itself is left out. *)
Definition space s (vp : Z) : option Z := if vp / 1024 =? 1023 then None else mapping s vp.

Definition keeps_used (p p' : P) : Prop := ∀ a, fs_used p a → fs_used p' a.

Lemma with_frames_ok s p : vm_ok s → fs_ok p → keeps_used (frames s) p → vm_ok (with_frames p s).
Proof.
  intros [H1 H2 H3 H4 H5 H6 H7 H8] Hp Hk. split; try done.
  - intros i Hi Hpr. destruct (H4 i Hi Hpr). split; [done | by apply Hk].
  - by apply Hk.
Qed.

(** Linking a fresh, unused frame as table [i]. *)
Lemma link_table s i a flags p :
  vm_ok s → 0 ≤ i < 1023 → ¬ boot_slot i → pte_is_present (pde_at s i) = false →
  fs_ok p → keeps_used (frames s) p → ¬ fs_used (frames s) a → fs_used p a → a mod 4096 = 0 → 0 < a < 2 ^ 32 →
  ∃ s', (_ ← store (PAGE_DIR_VIRT_ADDR + 4 * i) (pde_create a (Z.lor (Z.lor PAGE_PRESENT PAGE_WRITE) flags));
         clear_page (GET_PAGE_TABLE i)) (with_frames p s) = Ret (tt, s') ∧
    vm_ok s' ∧ cr3 s' = cr3 s ∧ frames s' = p ∧ pte_is_present (pde_at s' i) = true ∧ spares s s' ∧
    (∀ vp, 0 ≤ vp < 2 ^ 20 → space s' vp = space s vp).
Proof.
  intros Hok Hi Hb Hp Hfs Hk Hna Ha Hal Hr. set (e := pde_create _ _).
  assert (0 ≤ e < 2 ^ 32) as He by (apply pte_create_bounds; lia).
  assert (pde_get_addr e = a) as Hea.
  { change (pte_get_addr (pte_create a (Z.lor (Z.lor PAGE_PRESENT PAGE_WRITE) flags)) = a).
    rewrite pte_create_addr by lia. dlia. }
  assert (pte_is_present e = true) as Hpe.
  { change (pte_is_present (pte_create a (Z.lor (Z.lor PAGE_PRESENT PAGE_WRITE) flags)) = true).
    rewrite pte_create_present, !Z.lor_spec by lia. done. }
  destruct (store_pde (with_frames p s) i e) as (s1 & E & Hok1 & Hs1); [by apply with_frames_ok | lia |].
  rewrite (bind_Ret _ _ _ _ _ E).
  pose proof (λ j, same_pde _ _ j Hs1) as Hd1. change (∀ j, pde_at s1 j = pde_at s j) in Hd1.
  pose proof (λ vp, same_mapping _ _ vp Hs1) as Hm1. change (∀ vp, mapping s1 vp = mapping s vp) in Hm1.
  destruct Hs1 as (Hpm1 & Hc1 & Hf1 & _ & Hdi1 & Hcu1). cbn in Hpm1, Hc1, Hf1, Hdi1, Hcu1.
  rewrite <- Hd1 in Hp.
  assert (vm_ok (with_pde s1 i e)) as Hok2.
  { apply with_pde_ok; try done; rewrite Hea.
    - rewrite Hc1. intros ->. apply Hna, (vo_root _ Hok).
    - by rewrite Hf1.
    - intros j Hj Hpj Heq. apply Hna. rewrite <- Heq. unfold table. rewrite Hd1 in Hpj |- *.
      by apply (vo_tables _ Hok). }
  destruct (clear_table (with_pde s1 i e) i Hok2 Hi Hb) as (s' & E' & Hok' & Hc' & Hf' & Hd' & Hdi' & Hcu' & Hpm' & Hm').
  { by rewrite with_pde_pde, Z.eqb_refl. }
  { intros vp Hvp. by apply (no_table_no_tlb s1 i vp). }
  exists s'. split_and!; try done; [by rewrite Hc' | by rewrite Hf' | | split; [|split] |].
  - rewrite Hd', with_pde_pde, Z.eqb_refl by lia. done.
  - rewrite Hdi'. exact Hdi1.
  - rewrite Hcu'. exact Hcu1.
  - intros pg [Hg1 Hg2] Hg. assert (pg ≠ a) as Hga by (intros ->; done).
    assert (∀ j, 0 ≤ j < 1024 → table s' j = if j =? i then a else table s j) as Htab.
    { intros j Hj. unfold table. rewrite Hd', with_pde_pde by done. destruct (Z.eqb_spec j i); [done | by rewrite Hd1]. }
    split; [split; [rewrite Hc'; cbn; congruence|] |].
    + intros j Hj Hpj. rewrite Htab by lia. rewrite Hd', with_pde_pde in Hpj by lia. destruct (Z.eqb_spec j i); [congruence|].
      apply Hg2; [done|]. by rewrite <- Hd1.
    + intros b Hb'. rewrite Hpm'; [|rewrite Hb'; unfold table; rewrite with_pde_pde, Z.eqb_refl, Hea; done].
      cbn. rewrite set_word_ne; [by rewrite Hpm1|]. intros ->. apply Hg1. rewrite <- Hb'. destruct (vo_cr3 _ Hok). rewrite Hc1. unfold page_of. dlia.
  - intros vp Hvp. unfold space. destruct (Z.eqb_spec (vp / 1024) 1023); [done|]. rewrite Hm' by done.
    destruct (Z.eqb_spec (vp / 1024) i) as [Hvi|].
    + rewrite mapping_eq, Hvi, <- Hd1, Hp. done.
    + rewrite <- Hm1. apply with_pde_mapping; try done. intros ->. dlia.
Qed.

(** A page outside the recursive window whose table is not the shared one. *)
Definition plain_page (v : Z) : Prop := ¬ boot_slot (v / 4096 / 1024) ∧ v / 4096 / 1024 ≠ 1023.

Lemma split_page v : 0 ≤ v < 2 ^ 32 → plain_page v →
  0 ≤ v / 4096 / 1024 < 1023 ∧ ¬ boot_slot (v / 4096 / 1024) ∧ 0 ≤ (v / 4096) mod 1024 < 1024 ∧
  v / 4096 = v / 4096 / 1024 * 1024 + (v / 4096) mod 1024 ∧ 0 ≤ v / 4096 < 2 ^ 20.
Proof. intros Hv [Hb Hn]. split_and!; [dlia | dlia | done | dlia | dlia | dlia | dlia | dlia]. Qed.


(** What an operation does to everything but the address space it is asked to change. *)
Definition beside s s' : Prop := cr3 s' = cr3 s ∧ keeps_used (frames s) (frames s') ∧ spares s s'.

Lemma beside_refl s : beside s s.
Proof. split_and!; [done | by intros b | by apply same_spares; split_and!]. Qed.

Lemma beside_trans s1 s2 s3 : beside s1 s2 → beside s2 s3 → beside s1 s3.
Proof.
  intros (Hc & Hu & Hs) (Hc' & Hu' & Hs'). split_and!; [congruence | intros b Hb; by apply Hu', Hu | by eapply spares_trans].
Qed.

(** What [vmm_map_page] leaves behind. *)
Record mapped s s' (virt phys flags : Z) : Prop := {
  md_ok : vm_ok s';
  md_cr3 : cr3 s' = cr3 s;
  md_used : keeps_used (frames s) (frames s');
  md_table : pte_is_present (pde_at s' (virt / 4096 / 1024)) = true;
  md_pte : pte_at s' (virt / 4096) = pte_create phys (Z.lor PAGE_PRESENT flags);
  md_spares : spares s s';
  md_space : ∀ vp, 0 ≤ vp < 2 ^ 20 →
    space s' vp = if vp =? virt / 4096 then Some (phys / 4096 * 4096) else space s vp;
}.

Lemma set_pte s virt phys flags :
  vm_ok s → 0 ≤ virt < 2 ^ 32 → plain_page virt → 0 ≤ phys < 2 ^ 32 →
  pte_is_present (pde_at s (virt / 4096 / 1024)) = true →
  ∃ s', (_ ← store (GET_PAGE_TABLE (virt / 4096 / 1024) + 4 * ((virt / 4096) mod 1024)) (pte_create phys (Z.lor PAGE_PRESENT flags));
         vmm_invlpg virt) s = Ret (tt, s') ∧ mapped s s' virt phys flags ∧ frames s' = frames s.
Proof.
  intros Hok Hv Hn Hph Hp.
  destruct (split_page virt Hv Hn) as (Hi & Hb & Hk & Hsplit & Hvp).
  destruct (store_invlpg s _ _ (pte_create phys (Z.lor PAGE_PRESENT flags)) virt Hok Hi Hb Hk Hp)
    as (s' & E & Hok' & Hc & Hf & Hd & He & Hsp & Hm); [by apply pte_create_bounds | done |].
  exists s'. split; [exact E|]. split; [|done]. split; try done.
  - rewrite Hf. by intros b.
  - rewrite Hd by lia. done.
  - intros vp Hvp'. unfold space. destruct (Z.eqb_spec (vp / 1024) 1023) as [Hr|].
    + destruct (Z.eqb_spec vp (virt / 4096)) as [->|]; [|done]. by destruct Hn.
    + rewrite Hm by done. destruct (_ =? _); [|done].
      rewrite pte_create_present, pte_create_addr, Z.lor_spec by done. done.
Qed.

Lemma mapped_mono s s1 s' virt phys flags :
  cr3 s1 = cr3 s → keeps_used (frames s) (frames s1) → spares s s1 → (∀ vp, 0 ≤ vp < 2 ^ 20 → space s1 vp = space s vp) →
  mapped s1 s' virt phys flags → mapped s s' virt phys flags.
Proof.
  intros Hc Hf Hsp Hm [H1 H2 H3 H4 H5 H6 H7]. split; try done.
  - by rewrite H2.
  - intros b Hb. by apply H3, Hf.
  - by eapply spares_trans.
  - intros vp Hvp. rewrite H7, Hm by done. done.
Qed.

Lemma same_space s s' vp : same s s' → space s' vp = space s vp.
Proof. intros H. unfold space. by rewrite (same_mapping s s' vp H). Qed.

Lemma same_pte s s' vp : same s s' → pte_at s' vp = pte_at s vp.
Proof. intros H. unfold pte_at. rewrite (same_table s s' _ H). by rewrite (proj1 H). Qed.

Lemma same_used s s' : same s s' → keeps_used (frames s) (frames s').
Proof. intros (_ & _ & Hf & _) b. by rewrite Hf. Qed.

Lemma map_page_spec s virt phys flags :
  vm_ok s → 0 ≤ virt < 2 ^ 32 → plain_page virt → 0 ≤ phys < 2 ^ 32 →
  (∃ s', vmm_map_page virt phys flags s = Ret (tt, s') ∧ mapped s s' virt phys flags ∧
     (pte_is_present (pde_at s (virt / 4096 / 1024)) = true → frames s' = frames s)) ∨
  (vmm_map_page virt phys flags s = Panic ∧
   pte_is_present (pde_at s (virt / 4096 / 1024)) = false ∧ ∃ p', fs_alloc (frames s) = Ret (0, p')).
Proof.
  intros Hok Hv Hn Hph. destruct (split_page virt Hv Hn) as (Hi & Hb & Hk & Hsplit & Hvp).
  unfold vmm_map_page. cbv zeta. rewrite pd_index_eq, pt_index_eq. set (i := virt / 4096 / 1024) in *.
  destruct (load_dir s i Hok ltac:(lia)) as (s1 & E & Hok1 & Hs1).
  rewrite (bind_Ret _ _ _ _ _ E). pose proof (same_pde s s1 i Hs1) as Hd.
  destruct (pte_is_present (pde_at s i)) eqn:Hp; cbn [negb].
  - destruct (set_pte s1 virt phys flags) as (s' & E' & Hm & Hf); try done.
    { fold i. by rewrite Hd. }
    left. exists s'. split; [exact E'|]. split.
    + eapply (mapped_mono s s1); [apply Hs1 | by apply same_used | by apply same_spares | intros; by apply same_space | done].
    + intros _. rewrite Hf. apply Hs1.
  - destruct (fs_alloc_ok _ (vo_frames _ Hok1)) as (a & p & Ea & Hp' & Hk' & Ha). pose proof Hs1 as (_ & _ & Hfr & _).
    unfold on_frames. destruct (Z.eqb_spec a 0) as [->|Hne].
    { right. split; [|split; [done|]; exists p; by rewrite <- Hfr].
      erewrite bind_Panic; [done|]. by rewrite (bind_Ret _ _ _ _ _ (zoom_Ret _ _ _ _ _ _ Ea)). }
    destruct (Ha Hne) as (Hal & Hr & Hnu & Hu). rewrite <- Hd in Hp.
    destruct (link_table s1 i a flags p Hok1 Hi Hb Hp Hp' Hk' Hnu Hu Hal Hr) as (s2 & E2 & Hok2 & Hc2 & Hf2 & Hp2 & Hsp2 & Hm2).
    destruct (set_pte s2 virt phys flags) as (s' & E' & Hm & _); try done.
    left. exists s'. split; [|split; [|done]].
    + erewrite bind_Ret; [exact E'|]. rewrite (bind_Ret _ _ _ _ _ (zoom_Ret _ _ _ _ _ _ Ea)).
      rewrite (proj2 (Z.eqb_neq a 0)) by done. exact E2.
    + apply (mapped_mono s s2); try done.
      * rewrite Hc2. apply Hs1.
      * intros b Hb'. rewrite Hf2. by apply Hk', (same_used s s1 Hs1).
      * eapply spares_trans; [by apply same_used | by apply same_spares | done].
      * intros vp Hvp'. rewrite Hm2 by done. by apply same_space.
Qed.

(** ** Unmapping and asking *)

(** The way every other operation starts: find the entry of the page. *)
Lemma lookup_pte s virt :
  vm_ok s → 0 ≤ virt < 2 ^ 32 →
  ∃ s1, load (PAGE_DIR_VIRT_ADDR + 4 * PD_INDEX virt) s = Ret (pde_at s (virt / 4096 / 1024), s1) ∧
    vm_ok s1 ∧ same s s1 ∧
    (pte_is_present (pde_at s (virt / 4096 / 1024)) = true →
     ∃ s2, load (GET_PAGE_TABLE (PD_INDEX virt) + 4 * PT_INDEX virt) s1 = Ret (pte_at s (virt / 4096), s2) ∧
       vm_ok s2 ∧ same s s2).
Proof.
  intros Hok Hv. assert (0 ≤ virt / 4096 / 1024 < 1024) as Hi by dlia.
  assert (0 ≤ (virt / 4096) mod 1024 < 1024) as Hk by dlia. rewrite pd_index_eq, pt_index_eq.
  destruct (load_dir s _ Hok Hi) as (s1 & E & Hok1 & Hs1). exists s1. split_and!; try done.
  intros Hp. rewrite <- (same_pde s s1 _ Hs1) in Hp.
  destruct (load_table s1 _ _ Hok1 Hi Hk Hp) as (s2 & E2 & Hok2 & Hs2). exists s2.
  split_and!; [|done|by eapply same_trans]. rewrite E2. do 2 f_equal. unfold pte_at.
  rewrite (same_table s s1 _ Hs1). by rewrite (proj1 Hs1).
Qed.

Lemma unmap_page_spec s virt :
  vm_ok s → 0 ≤ virt < 2 ^ 32 → plain_page virt →
  ∃ s', vmm_unmap_page virt s = Ret (tt, s') ∧ vm_ok s' ∧ cr3 s' = cr3 s ∧ frames s' = frames s ∧ spares s s' ∧
    ∀ vp, 0 ≤ vp < 2 ^ 20 → space s' vp = if vp =? virt / 4096 then None else space s vp.
Proof.
  intros Hok Hv Hn. destruct (split_page virt Hv Hn) as (Hi & Hb & Hk & Hsplit & Hvp).
  unfold vmm_unmap_page. cbv zeta. destruct (lookup_pte s virt Hok Hv) as (s1 & E & Hok1 & Hs1 & Hnext).
  rewrite (bind_Ret _ _ _ _ _ E).
  assert (∀ t, vm_ok t → same s t → space s (virt / 4096) = None →
    vm_ok t ∧ cr3 t = cr3 s ∧ frames t = frames s ∧ spares s t ∧
    ∀ vp, 0 ≤ vp < 2 ^ 20 → space t vp = if vp =? virt / 4096 then None else space s vp) as Hnop.
  { intros t Ht Hst H0. split_and!; [done | apply Hst | apply Hst | by apply same_spares..|]. intros vp Hvp'. rewrite (same_space s t vp Hst).
    destruct (Z.eqb_spec vp (virt / 4096)) as [->|]; done. }
  unfold space in Hnop at 1. rewrite (proj2 (Z.eqb_neq _ 1023) (proj2 Hn)), mapping_eq in Hnop.
  destruct (pte_is_present (pde_at s (virt / 4096 / 1024))) eqn:Hp; cbn [negb]; [|by exists s1; eauto].
  destruct (Hnext eq_refl) as (s2 & E2 & Hok2 & Hs2). rewrite (bind_Ret _ _ _ _ _ E2).
  destruct (pte_is_present (pte_at s (virt / 4096))) eqn:Hq; [|by exists s2; eauto].
  rewrite pd_index_eq, pt_index_eq. rewrite <- (same_pde s s2 _ Hs2) in Hp.
  destruct (store_invlpg s2 _ _ 0 virt Hok2 Hi Hb Hk Hp) as (s' & E' & Hok' & Hc & Hf & _ & _ & Hsp & Hm); [lia | done |].
  exists s'. split; [done|]. split; [done|]. split; [rewrite Hc; apply Hs2|]. split; [rewrite Hf; apply Hs2|].
  split; [eapply spares_trans; [by apply same_used | by apply same_spares | done]|].
  intros vp Hvp'. unfold space. rewrite Hm, (same_mapping s s2 vp Hs2) by done.
  destruct (_ =? 1023), (_ =? _); done.
Qed.

Lemma virt_to_phys_spec s virt :
  vm_ok s → 0 ≤ virt < 2 ^ 32 →
  ∃ s', vmm_virt_to_phys virt s =
      Ret (match mapping s (virt / 4096) with Some f => f + virt mod 4096 | None => 0 end, s') ∧
    vm_ok s' ∧ same s s'.
Proof.
  intros Hok Hv. unfold vmm_virt_to_phys. cbv zeta.
  destruct (lookup_pte s virt Hok Hv) as (s1 & E & Hok1 & Hs1 & Hnext). rewrite (bind_Ret _ _ _ _ _ E), mapping_eq.
  destruct (pte_is_present (pde_at s (virt / 4096 / 1024))) eqn:Hp; cbn [negb]; [|by exists s1].
  destruct (Hnext eq_refl) as (s2 & E2 & Hok2 & Hs2). rewrite (bind_Ret _ _ _ _ _ E2).
  destruct (pte_is_present (pte_at s (virt / 4096))) eqn:Hq; cbn [negb]; [|by exists s2].
  exists s2. split; [|done]. rewrite mret_eq. do 2 f_equal. unfold PAGE_OFFSET. rewrite land_page_offset.
  destruct (get_addr_aligned (pte_at s (virt / 4096))) as [? ?]; [apply (vo_words _ Hok)|].
  rewrite u32_small; [done | dlia].
Qed.

Lemma page_flags_spec s virt :
  vm_ok s → 0 ≤ virt < 2 ^ 32 →
  ∃ s', vmm_get_page_flags virt s =
      Ret (if pte_is_present (pde_at s (virt / 4096 / 1024)) then pte_at s (virt / 4096) mod 4096 else 0, s') ∧
    vm_ok s' ∧ same s s'.
Proof.
  intros Hok Hv. unfold vmm_get_page_flags. cbv zeta.
  destruct (lookup_pte s virt Hok Hv) as (s1 & E & Hok1 & Hs1 & Hnext). rewrite (bind_Ret _ _ _ _ _ E).
  destruct (pte_is_present (pde_at s (virt / 4096 / 1024))) eqn:Hp; cbn [negb]; [|by exists s1].
  destruct (Hnext eq_refl) as (s2 & E2 & Hok2 & Hs2). rewrite (bind_Ret _ _ _ _ _ E2), land_page_offset.
  by exists s2.
Qed.

Lemma set_page_flags_spec s virt flags f :
  vm_ok s → 0 ≤ virt < 2 ^ 32 → plain_page virt → space s (virt / 4096) = Some f →
  ∃ s', vmm_set_page_flags virt flags s = Ret (tt, s') ∧ vm_ok s' ∧ frames s' = frames s ∧
    pte_is_present (pde_at s' (virt / 4096 / 1024)) = true ∧ pte_at s' (virt / 4096) = pte_create f flags ∧
    ∀ vp, 0 ≤ vp < 2 ^ 20 →
      space s' vp = if vp =? virt / 4096 then (if Z.testbit flags 0 then Some f else None) else space s vp.
Proof.
  intros Hok Hv Hn Hsp. destruct (split_page virt Hv Hn) as (Hi & Hb & Hk & Hsplit & Hvp).
  unfold space in Hsp. rewrite (proj2 (Z.eqb_neq _ 1023) (proj2 Hn)), mapping_eq in Hsp.
  unfold vmm_set_page_flags. cbv zeta. destruct (lookup_pte s virt Hok Hv) as (s1 & E & Hok1 & Hs1 & Hnext).
  rewrite (bind_Ret _ _ _ _ _ E).
  destruct (pte_is_present (pde_at s (virt / 4096 / 1024))) eqn:Hp; cbn [negb]; [|done].
  destruct (Hnext eq_refl) as (s2 & E2 & Hok2 & Hs2). rewrite (bind_Ret _ _ _ _ _ E2).
  destruct (pte_is_present (pte_at s (virt / 4096))) eqn:Hq; [|done]. injection Hsp as Hf.
  rewrite Hf. assert (f mod 4096 = 0 ∧ 0 ≤ f < 2 ^ 32) as [Hfa Hfr] by (rewrite <- Hf; apply get_addr_aligned, (vo_words _ Hok)).
  rewrite pd_index_eq, pt_index_eq. pose proof Hp as Hp2. rewrite <- (same_pde s s2 _ Hs2) in Hp2.
  destruct (store_invlpg s2 _ _ (pte_create f flags) virt Hok2 Hi Hb Hk Hp2)
    as (s' & E' & Hok' & Hc & Hfr' & Hd & He & _ & Hm); [by apply pte_create_bounds | done |].
  exists s'. split_and!; [done | done | rewrite Hfr'; apply Hs2 | | done |].
  - by rewrite Hd by lia.
  - intros vp Hvp'. unfold space. rewrite Hm, (same_mapping s s2 vp Hs2) by done.
    rewrite pte_create_present, pte_create_addr by done.
    destruct (Z.eqb_spec vp (virt / 4096)) as [->|].
    + rewrite (proj2 (Z.eqb_neq _ 1023) (proj2 Hn)). destruct (Z.testbit flags 0); [|done]. f_equal. dlia.
    + done.
Qed.
End Spec.
