(* ===== verification/VmmSpace.v ===== *)
(** * The address space: regions, round trips, start-up

    What callers of kernel/mm/vmm.c rely on, stated on the address space [space]
    that the processor's page walk defines, together with the physical frame
    allocator (kernel/mm/pmm.c) as the source of page tables. *)

From S2P Require Import Prelude Bits Pmm Vmm VmmSpec.

#[local] Open Scope Z_scope.

Section Space.
Context {P : Type} `{!FrameSource P}.
Implicit Types s : vm (P := P).

(** Page [vp] is one of those that the loops visit from [virt] up to [virt_end]. *)
Definition in_region (virt virt_end vp : Z) : bool :=
  (virt / 4096 <=? vp) && (virt + 4096 * (vp - virt / 4096) <? virt_end).

Lemma in_region_step virt virt_end vp :
  0 ≤ virt → virt < virt_end →
  in_region virt virt_end vp = (vp =? virt / 4096) || in_region (virt + 4096) virt_end vp.
Proof.
  intros H0 H. unfold in_region. replace ((virt + 4096) / 4096) with (virt / 4096 + 1) by dlia.
  destruct (Z.eqb_spec vp (virt / 4096)) as [->|Hne].
  - rewrite Z.sub_diag, Z.mul_0_r, Z.add_0_r. by zbool.
  - cbn [orb]. replace (virt + 4096 + 4096 * (vp - (virt / 4096 + 1))) with (virt + 4096 * (vp - virt / 4096)) by lia.
    destruct (Z.leb_spec (virt / 4096) vp), (Z.leb_spec (virt / 4096 + 1) vp); try done; lia.
Qed.

Lemma in_region_empty virt virt_end vp : virt_end ≤ virt → in_region virt virt_end vp = false.
Proof.
  intros H. unfold in_region. destruct (Z.leb_spec (virt / 4096) vp); [|done]. cbn [andb]. apply Z.ltb_ge. lia.
Qed.


(** No frame was left for a page table, after the frames in use when the region
    was started were still in use. *)
Definition out_of_frames s : Prop := ∃ p p', keeps_used (frames s) p ∧ fs_alloc p = Ret (0, p').


(** Where the page walk takes address [v]. *)
Definition goes_to s (v : Z) : option Z := (λ frame, frame + v mod PAGE_SIZE) <$> space s (v / PAGE_SIZE).

(** Page [vp] has no byte of the region. *)
Definition off_region (virt size vp : Z) : Prop := ∀ v, virt ≤ v < virt + size → v / PAGE_SIZE ≠ vp.

(** From an aligned start the loops visit exactly the pages that have a byte of the region. *)
Lemma in_region_on virt size v :
  virt mod PAGE_SIZE = 0 → virt ≤ v < virt + size → in_region virt (virt + size) (v / 4096) = true.
Proof. unfold in_region, PAGE_SIZE. intros Hal Hv. apply andb_true_iff. rewrite Z.leb_le, Z.ltb_lt. dlia. Qed.
Lemma in_region_off virt size vp :
  virt mod PAGE_SIZE = 0 → off_region virt size vp → in_region virt (virt + size) vp = false.
Proof.
  unfold off_region, in_region, PAGE_SIZE. intros Hal Hoff. apply not_true_iff_false. rewrite andb_true_iff, Z.leb_le, Z.ltb_lt. intros [H1 H2].
  apply (Hoff (vp * 4096)); dlia.
Qed.


Lemma unmap_region_loop_spec fuel virt virt_end s :
  vm_ok s → 0 ≤ virt → virt_end ≤ PAGE_TABLE_VIRT_BASE → (∀ v, virt ≤ v < virt_end → plain_page v) →
  virt_end - virt ≤ 4096 * Z.of_nat fuel →
  ∃ s', unmap_region_loop (S fuel) virt virt_end s = Ret (tt, s') ∧ vm_ok s' ∧ frames s' = frames s ∧
    ∀ vp, 0 ≤ vp < 2 ^ 20 → space s' vp = if in_region virt virt_end vp then None else space s vp.
Proof.
  revert virt s. induction fuel as [|fuel IH]; intros virt s Hok H0 Hend Hpl Hf;
    cbn [unmap_region_loop]; destruct (Z.ltb_spec virt virt_end) as [Hlt|Hge]; try lia.
  1,3: exists s; split_and!; try done; intros vp Hvp; by rewrite in_region_empty by lia.
  destruct (unmap_page_spec s virt Hok ltac:(lia) (Hpl virt ltac:(lia))) as (s1 & E & Hok1 & _ & Hf1 & _ & Hsp).
  rewrite (bind_Ret _ _ _ _ _ E). unfold PAGE_SIZE. rewrite (u32_small (virt + 4096)) by lia.
  destruct (IH (virt + 4096) s1 Hok1) as (s' & E' & Hok' & Hf' & Hsp'); try done; try lia.
  { intros v Hv. apply Hpl. lia. }
  exists s'. split_and!; try done; [by rewrite Hf'|]. intros vp Hvp.
  rewrite Hsp', Hsp, (in_region_step virt) by (done || lia). by destruct (vp =? virt / 4096), (in_region _ _ _).
Qed.

(** C6: Unmapping a region that starts at a page boundary and lies in plain pages (as for
    mapping) always succeeds: no address of the region goes anywhere, every page without a
    byte of the region keeps its mapping, no frame is taken or released, and no stale
    translation is left in the TLB. *)
Theorem vmm_unmap_region_correct s virt_start size :
  vm_ok s → 0 ≤ virt_start → virt_start mod PAGE_SIZE = 0 → 0 ≤ size → virt_start + size ≤ PAGE_TABLE_VIRT_BASE →
  (∀ v, virt_start ≤ v < virt_start + size → plain_page v) →
  ∃ s', vmm_unmap_region virt_start size s = Ret (tt, s') ∧ vm_ok s' ∧ frames s' = frames s ∧
    (∀ v, virt_start ≤ v < virt_start + size → goes_to s' v = None ∧ tlb s' !! (v / PAGE_SIZE) = None) ∧
    (∀ vp, 0 ≤ vp < 2 ^ 20 → off_region virt_start size vp → space s' vp = space s vp).
Proof.
  intros Hok H0 Hal Hs Hend Hpl. unfold vmm_unmap_region. pose proof Hend as Hend'.
  rewrite (u32_small (virt_start + size)) by lia.
  destruct (unmap_region_loop_spec (Z.to_nat (size / PAGE_SIZE + 1)) virt_start (virt_start + size) s) as (s' & -> & Hok' & Hf & Hsp); try done.
  { unfold PAGE_SIZE. rewrite Z2Nat.id by dlia. dlia. }
  exists s'. split_and!; try done.
  - intros v Hv. assert (space s' (v / PAGE_SIZE) = None) as Hn.
    { rewrite Hsp, in_region_on by (done || unfold PAGE_SIZE; dlia). done. }
    split; [unfold goes_to; by rewrite Hn|]. destruct (tlb s' !! (v / PAGE_SIZE)) as [f|] eqn:E; [|done].
    apply (vo_tlb _ Hok') in E as [_ E]. unfold space in Hn. destruct (Z.eqb_spec (v / PAGE_SIZE / 1024) 1023); [|congruence]. unfold PAGE_SIZE in *. dlia.
  - intros vp Hvp Hoff. by rewrite Hsp, in_region_off.
Qed.

(** A page that was mapped is found at its frame with its flags, keeps the frame
    when its flags change, and is gone after it was unmapped. *)
Theorem vmm_page_roundtrip s virt v phys flags flags' :
  vm_ok s → 0 ≤ virt < 2 ^ 32 → plain_page virt → v / 4096 = virt / 4096 → 0 ≤ phys < 2 ^ 32 →
  Z.testbit flags' 0 = true →
  let at_v := phys / 4096 * 4096 + v mod 4096 in
  match (_ ← vmm_map_page virt phys flags;
         a ← vmm_virt_to_phys v; f ← vmm_get_page_flags virt;
         _ ← vmm_set_page_flags virt flags';
         b ← vmm_virt_to_phys v; g ← vmm_get_page_flags virt;
         _ ← vmm_unmap_page virt;
         c ← vmm_virt_to_phys v;
         mret (a, f, b, g, c)) s with
  | Ret (r, s') =>
      r = (at_v, Z.lor PAGE_PRESENT flags mod 4096, at_v, flags' mod 4096, 0) ∧ vm_ok s' ∧
      ∀ vp, 0 ≤ vp < 2 ^ 20 → space s' vp = if vp =? virt / 4096 then None else space s vp
  | Panic => out_of_frames s
  | Undef => False
  end.
Proof.
  intros Hok Hv Hpl Hvv Hph Hfl at_v. assert (0 ≤ v < 2 ^ 32) as Hv' by dlia.
  assert (0 ≤ virt / 4096 < 2 ^ 20) as Hvp by dlia.
  assert (∀ t : vm (P := P), mapping t (v / 4096) = space t (virt / 4096)) as Hms.
  { intros t. rewrite Hvv. unfold space. rewrite (proj2 (Z.eqb_neq _ 1023)) by apply Hpl. done. }
  destruct (map_page_spec s virt phys flags Hok Hv Hpl Hph) as [(s1 & E1 & [Hok1 _ _ Ht1 Hp1 _ Hsp1] & _)|(E & _ & p' & Hp')].
  2:{ rewrite (bind_Panic _ _ _ E). exists (frames s), p'. by split; [intros b|]. }
  rewrite (bind_Ret _ _ _ _ _ E1). pose proof (Hsp1 _ Hvp) as Hf1. rewrite Z.eqb_refl in Hf1.
  destruct (virt_to_phys_spec s1 v Hok1 Hv') as (s2 & E2 & Hok2 & Hs2). rewrite (bind_Ret _ _ _ _ _ E2), Hms, Hf1.
  destruct (page_flags_spec s2 virt Hok2 Hv) as (s3 & E3 & Hok3 & Hs3). rewrite (bind_Ret _ _ _ _ _ E3).
  rewrite (same_pde s1 s2 _ Hs2), Ht1. pose proof (same_pte s1 s2 (virt / 4096) Hs2) as Hq2. rewrite Hq2, Hp1.
  pose proof (same_trans _ _ _ Hs2 Hs3) as Hs13.
  destruct (set_page_flags_spec s3 virt flags' (phys / 4096 * 4096) Hok3 Hv Hpl) as (s4 & E4 & Hok4 & _ & Ht4 & Hp4 & Hsp4).
  { by rewrite (same_space s1 s3 _ Hs13). }
  rewrite (bind_Ret _ _ _ _ _ E4). rewrite Hfl in Hsp4. pose proof (Hsp4 _ Hvp) as Hf4. rewrite Z.eqb_refl in Hf4.
  destruct (virt_to_phys_spec s4 v Hok4 Hv') as (s5 & E5 & Hok5 & Hs5). rewrite (bind_Ret _ _ _ _ _ E5), Hms, Hf4.
  destruct (page_flags_spec s5 virt Hok5 Hv) as (s6 & E6 & Hok6 & Hs6). rewrite (bind_Ret _ _ _ _ _ E6).
  rewrite (same_pde s4 s5 _ Hs5), Ht4, (same_pte s4 s5 _ Hs5), Hp4. pose proof (same_trans _ _ _ Hs5 Hs6) as Hs46.
  destruct (unmap_page_spec s6 virt Hok6 Hv Hpl) as (s7 & E7 & Hok7 & _ & _ & _ & Hsp7). rewrite (bind_Ret _ _ _ _ _ E7).
  pose proof (Hsp7 _ Hvp) as Hf7. rewrite Z.eqb_refl in Hf7.
  destruct (virt_to_phys_spec s7 v Hok7 Hv') as (s8 & E8 & Hok8 & Hs8). rewrite (bind_Ret _ _ _ _ _ E8), Hms, Hf7.
  split_and!; [|done|].
  - rewrite <- !land_page_offset, !pte_create_flags, !land_page_offset by dlia. done.
  - intros vp Hvp'. rewrite (same_space s7 s8 _ Hs8), Hsp7, (same_space s4 s6 _ Hs46), Hsp4, (same_space s1 s3 _ Hs13), Hsp1 by done.
    by destruct (_ =? _).
Qed.

(** While the two boot entries share their page table, mapping a page below 4 MB
    also moves the page at the same place above 3 GB, through which the kernel
    reaches low physical memory. *)
Theorem vmm_map_page_moves_direct_map s virt phys flags :
  vm_ok s → 0 ≤ virt < 2 ^ 22 → 0 ≤ phys < 2 ^ 32 →
  pte_is_present (pde_at s 0) = true → pde_at s 768 = pde_at s 0 →
  ∃ s', vmm_map_page virt phys flags s = Ret (tt, s') ∧
    mapping s' (virt / 4096) = Some (phys / 4096 * 4096) ∧
    mapping s' ((virt + 0xC0000000) / 4096) = Some (phys / 4096 * 4096).
Proof.
  intros Hok Hv Hph Hp Hsh. unfold vmm_map_page. cbv zeta. rewrite pd_index_eq, pt_index_eq.
  replace (virt / 4096 / 1024) with 0 by dlia. set (k := (virt / 4096) mod 1024). assert (0 ≤ k < 1024) as Hk by (unfold k; dlia).
  destruct (load_dir s 0 Hok ltac:(lia)) as (s1 & E & Hok1 & Hs1). rewrite (bind_Ret _ _ _ _ _ E), Hp. cbn [negb].
  set (e := pte_create phys (Z.lor PAGE_PRESENT flags)). erewrite bind_Ret by reflexivity.
  destruct (store_pte s1 0 k e Hok1 ltac:(lia) Hk) as (s2 & E2 & Hok2 & Hs2); [by rewrite (same_pde s s1 _ Hs1)|].
  pose proof (same_trans _ _ _ Hs1 Hs2) as Hs. rewrite <- (same_pde s s2 0 Hs) in Hp.
  rewrite <- (same_pde s s2 0 Hs), <- (same_pde s s2 768 Hs) in Hsh.
  rewrite (bind_Ret _ _ _ _ _ E2). eexists. split; [reflexivity|].
  set (s' := with_tlb _ _).
  assert (∀ vp, vp mod 1024 = k → pde_at s2 (vp / 1024) = pde_at s2 0 → 0 ≤ vp / 1024 < 1024 → mapping s' vp = Some (phys / 4096 * 4096)) as Hm.
  { intros vp Hvp Hd Hi. rewrite mapping_eq. unfold pte_at, table.
    assert (pde_at s' (vp / 1024) = pde_at s2 0) as -> by (rewrite <- Hd; by apply (with_pte_pde s2 0 k e Hok2)).
    rewrite Hp, Hvp. fold (table s2 0). change (pm s') with (set_word (table s2 0 + 4 * k) e (pm s2)).
    rewrite set_word_eq. unfold e. rewrite pte_create_present, pte_create_addr, Z.lor_spec by done. done. }
  split; apply Hm.
  - done.
  - f_equal. dlia.
  - dlia.
  - unfold k. dlia.
  - rewrite <- Hsh. f_equal. dlia.
  - dlia.
Qed.

(** ** Start-up *)

(** What the entry code leaves: paging is on, the directory maps itself by the
    identity mapping, its tables are in use, and nothing was invalidated yet. *)
Record boot_ok s : Prop := {
  bo_cr3 : cr3 s mod 4096 = 0 ∧ 0 ≤ cr3 s < 2 ^ 32;
  bo_words : ∀ a, 0 ≤ pm s a < 2 ^ 32;
  bo_identity : mapping s (cr3 s / 4096) = Some (cr3 s);
  bo_tables : ∀ i, 0 ≤ i < 1023 → pte_is_present (pde_at s i) = true →
                table s i ≠ cr3 s ∧ fs_used (frames s) (table s i);
  bo_distinct : ∀ i j, 0 ≤ i < 1023 → 0 ≤ j < 1023 → i ≠ j → ¬ boot_slot i →
                  pte_is_present (pde_at s i) = true → pte_is_present (pde_at s j) = true →
                  table s i ≠ table s j;
  bo_root : fs_used (frames s) (cr3 s);
  bo_tlb : ∀ vp f, tlb s !! vp = Some f → mapping s vp = Some f;
  bo_frames : fs_ok (frames s);
}.

Lemma translate_boot s v f :
  (∀ vp f, tlb s !! vp = Some f → mapping s vp = Some f) → mapping s (v / 4096) = Some f →
  ∃ t, translate v s = Ret (f + v mod 4096, with_tlb t s) ∧ ∀ vp f, t !! vp = Some f → mapping s vp = Some f.
Proof.
  intros Htlb Hm. unfold translate. rewrite bind_get. cbv zeta. destruct (tlb s !! (v / 4096)) as [g|] eqn:E.
  - pose proof (Htlb _ _ E). exists (tlb s). split; [|done]. replace g with f by congruence. by destruct s.
  - unfold mapping in Hm. rewrite Hm, bind_modify. eexists. split; [reflexivity|]. intros vp g.
    rewrite lookup_insert_Some. intros [(<- & <-)|(_ & Hg)]; [done | by apply Htlb].
Qed.

Lemma boot_dir_address s k : boot_ok s → 0 ≤ k < 1024 →
  (cr3 s + 4 * k) / 4096 = cr3 s / 4096 ∧ cr3 s + (cr3 s + 4 * k) mod 4096 = cr3 s + 4 * k.
Proof. intros Hok Hk. destruct (bo_cr3 _ Hok) as [? ?]. split; dlia. Qed.

(** The state in which [vmm_init] leaves the processor and its tables. *)
Definition initialised s (kernel_directory : Z) : vm :=
  let d := {| physical_addr := cr3 s; entries := PAGE_DIR_VIRT_ADDR |} in
  with_current kernel_directory (with_dirs (<[kernel_directory := d]> (dirs s))
    (with_cr3 (cr3 s) (with_pde s 1023 (Z.lor (cr3 s) 3)))).

Lemma vmm_init_eq s kernel_directory kernel_end_phys :
  boot_ok s →
  vmm_init kernel_directory kernel_end_phys s =
  if 4 * 1024 * 1024 <? u32 (kernel_end_phys - KERNEL_PHYSICAL_BASE) then Panic
  else Ret (tt, initialised s kernel_directory).
Proof.
  intros Hok. unfold vmm_init, load, store. unfold vmm_get_cr3, gets. rewrite (bind_Ret _ _ s (cr3 s) s) by done. rewrite bind_modify.
  set (d0 := <[kernel_directory := _]> (dirs s)).
  assert (∀ t k, 0 ≤ k < 1024 → (∀ vp f, t !! vp = Some f → mapping s vp = Some f) →
    ∃ t', translate (cr3 s + 4 * k) (with_tlb t (with_dirs d0 s)) = Ret (cr3 s + 4 * k, with_tlb t' (with_dirs d0 s)) ∧
      ∀ vp f, t' !! vp = Some f → mapping s vp = Some f) as Htr.
  { intros t k Hk Ht. destruct (boot_dir_address s k Hok Hk) as [E1 E2].
    destruct (translate_boot (with_tlb t (with_dirs d0 s)) (cr3 s + 4 * k) (cr3 s)) as (t' & E & H'); [done| |].
    - rewrite E1. exact (bo_identity _ Hok).
    - exists t'. split; [|done]. by rewrite E, E2. }
  destruct (Htr (tlb s) 0 ltac:(lia) (bo_tlb _ Hok)) as (t0 & E0 & Ht0).
  change (with_tlb (tlb s) (with_dirs d0 s)) with (with_dirs d0 s) in E0.
  erewrite bind_Ret by (rewrite (bind_Ret _ _ _ _ _ E0), bind_get; reflexivity).
  destruct (Htr t0 768 ltac:(lia) Ht0) as (t1 & E1 & Ht1).
  erewrite bind_Ret by (rewrite (bind_Ret _ _ _ _ _ E1), bind_get; reflexivity).
  destruct (Htr t1 1023 ltac:(lia) Ht1) as (t2 & E2 & _).
  erewrite bind_Ret by (rewrite (bind_Ret _ _ _ _ _ E2); reflexivity).
  unfold vmm_set_cr3. rewrite !bind_modify. cbv zeta.
  assert (pde_create (cr3 s) (Z.lor PAGE_PRESENT PAGE_WRITE) = Z.lor (cr3 s) 3) as ->.
  { unfold pde_create. destruct (bo_cr3 _ Hok). rewrite land_page_mask by done. f_equal. dlia. }
  destruct (_ <? _); [done|]. rewrite mret_eq. unfold initialised, d0. cbn.
  by rewrite insert_insert_eq.
Qed.

Lemma initialised_ok s kernel_directory :
  boot_ok s →
  vm_ok (initialised s kernel_directory) ∧
  ∀ vp, 0 ≤ vp < 2 ^ 20 → space (initialised s kernel_directory) vp = space s vp.
Proof.
  intros [H1 H2 H3 H4 H5 H6 H7 H8]. set (s' := initialised _ _).
  assert (∀ i, i ≠ 1023 → pde_at s' i = pde_at s i) as Hd.
  { intros i Hi. change (pde_at (with_pde s 1023 (Z.lor (cr3 s) 3)) i = pde_at s i).
    by rewrite with_pde_pde, (proj2 (Z.eqb_neq i 1023)). }
  assert (∀ i, i ≠ 1023 → table s' i = table s i) as Ht by (intros i Hi; unfold table; by rewrite Hd).
  split.
  - split; try done.
    + intros a. cbn. unfold set_word. destruct (_ =? _); [|apply H2].
      assert (Z.lor (cr3 s) 3 = pte_create (cr3 s) 3) as ->.
      { unfold pte_create. destruct H1. rewrite land_page_mask by done. f_equal. dlia. }
      apply pte_create_bounds, H1.
    + apply (with_pde_pde s 1023 (Z.lor (cr3 s) 3) 1023).
    + intros i Hi. rewrite Hd, Ht by lia. by apply H4.
    + intros i j Hi Hj Hne Hb. rewrite !Hd, !Ht by lia. by apply H5.
  - intros vp Hvp. unfold space. destruct (Z.eqb_spec (vp / 1024) 1023); [done|]. rewrite !mapping_eq. rewrite Hd by done.
    destruct (pte_is_present (pde_at s (vp / 1024))) eqn:Hp; [|done].
    assert (pte_at s' vp = pte_at s vp) as ->; [|done]. unfold pte_at. rewrite Ht by done. cbn. apply set_word_ne.
    destruct (H4 (vp / 1024)) as [Hne _]; [dlia | done |].
    destruct (get_addr_aligned (pde_at s (vp / 1024)) ltac:(apply H2)). apply page_word_ne; try done; [apply H1 | dlia].
Qed.

(** Initialisation turns the state that the entry code leaves into a well-formed
    one: the recursive window works from then on, no mapping changes, and the
    kernel directory is current.  It panics exactly when the kernel is larger than
    the 4 MB that are mapped. *)
Theorem vmm_init_correct s kernel_directory kernel_end_phys :
  boot_ok s →
  match vmm_init kernel_directory kernel_end_phys s with
  | Ret (_, s') =>
      u32 (kernel_end_phys - KERNEL_PHYSICAL_BASE) ≤ 4 * 1024 * 1024 ∧ vm_ok s' ∧
      (∀ vp, 0 ≤ vp < 2 ^ 20 → space s' vp = space s vp) ∧
      current_directory s' = kernel_directory ∧
      dirs s' !! kernel_directory = Some {| physical_addr := cr3 s; entries := PAGE_DIR_VIRT_ADDR |}
  | Panic => 4 * 1024 * 1024 < u32 (kernel_end_phys - KERNEL_PHYSICAL_BASE)
  | Undef => False
  end.
Proof.
  intros Hok. rewrite vmm_init_eq by done. destruct (initialised_ok s kernel_directory Hok).
  destruct (Z.ltb_spec (4 * 1024 * 1024) (u32 (kernel_end_phys - KERNEL_PHYSICAL_BASE))); [done|].
  split_and!; [done..|]. cbn. by rewrite lookup_insert_eq.
Qed.
End Space.

(** ** The frame allocator behind the tables *)

Definition pmm_used (s : pmm) (a : Z) : Prop := a mod PAGE_SIZE = 0 ∧ a / PAGE_SIZE ∉ free_set s.

#[export, program] Instance pmm_frames : FrameSource pmm := {|
  fs_ok := λ s, pmm_wf s ∧ 0 ∉ free_set s;
  fs_used := pmm_used;
  fs_alloc := pmm_alloc_frame;
  fs_free := pmm_free_frame;
  fs_managed := λ s a, a / PAGE_SIZE < total s;
|}.
Next Obligation.
  intros s [Hwf H0]. destruct (alloc_frame_cases s Hwf) as [(f & Hf & E)|[He E]]; rewrite E.
  - exists (f * PAGE_SIZE). eexists. split; [reflexivity|].
    pose proof Hf as [Hr _]%elem_of_free_set. destruct (Hwf) as [_ Hcap Htot _ _].
    unfold pmm_used. rewrite !free_set_move, !free_set_mark_used by (done || lia).
    split_and!; [by apply wf_mark_used | set_solver | intros b [? ?]; split; [done | set_solver] |].
    intros _. assert (f ≠ 0) by (intros ->; done). rewrite Z.div_mul by done. unfold PAGE_SIZE in *.
    split_and!; [dlia | lia | lia | by intros [_ ?] | dlia | set_solver].
  - exists 0, s. split_and!; try done.
Qed.
Next Obligation.
  intros s a [Hwf H0] Hal Hr [_ Hu]. destruct (free_frame_spec s a Hwf ltac:(lia)) as (s' & E & Hwf' & Ht & Hfs & _).
  exists s'. unfold pmm_used. rewrite Hfs. unfold free_spec, PAGE_SIZE in *.
  destruct ((a =? 0) || (total s <=? a / 4096)).
  - split_and!; try done. 
  - split_and!; try done.
    + assert (a / 4096 ≠ 0) by dlia. set_solver.
    + intros b [Hb Hn] Hne. split; [done|]. assert (b / 4096 ≠ a / 4096) by dlia. set_solver.
Qed.
Next Obligation.
  intros s a s' [Hwf H0] E. destruct (alloc_frame_cases s Hwf) as [(f & Hf & E')|[He E']]; rewrite E in E'; injection E' as -> ->.
  - pose proof Hf as [Hr _]%elem_of_free_set. destruct (Hwf) as [_ Hcap Htot _ _].
    assert (f ≠ 0) by (intros ->; done). unfold pmm_used. rewrite !free_set_move, !free_set_mark_used by (done || lia). cbn.
    split_and!; [|intros _; rewrite Z.div_mul by done; change (f < total s); lia | done].
    intros b [Hb Hn]. destruct (decide (b / PAGE_SIZE = f)) as [<-|]; [right; unfold PAGE_SIZE in *; dlia | left; split; [done | set_solver]].
  - split_and!; try done. by left.
Qed.
Next Obligation.
  intros s a s' [Hwf H0] Hal Hr E. destruct (free_frame_spec s a Hwf ltac:(lia)) as (s1 & E' & Hwf' & Ht & Hfs & _).
  rewrite E in E'. injection E' as <-. unfold pmm_used. rewrite Hfs. unfold free_spec, PAGE_SIZE in *.
  destruct (Z.eqb_spec a 0); [lia|]. destruct (Z.leb_spec (total s) (a / 4096)); cbn [orb]; [by split; [|lia]|]. split.
  - intros b [Hb Hn]. split; [done | set_solver].
  - intros _ [_ Hn]. set_solver.
Qed.

(** ** The machine after entry.asm *)

(** Directory entries 0 and 768 share the table at 0xA000, which maps the first
    four megabytes to themselves. *)
Definition boot_pm (a : Z) : Z :=
  if (a =? 0x9000) || (a =? 0x9000 + 4 * 768) then 0xA003
  else if (0xA000 <=? a) && (a <? 0xB000) then (a - 0xA000) / 4 * 4096 + 3
  else 0.

Definition boot_vm : vm (P := pmm) :=
  {| pm := boot_pm; cr3 := 0x9000; tlb := ∅; frames := demo; dirs := ∅; current_directory := 0 |}.

Lemma boot_pde i : 0 ≤ i < 1023 → pte_is_present (pde_at boot_vm i) = true → boot_slot i ∧ table boot_vm i = 0xA000.
Proof.
  intros Hi. unfold table, pde_at. cbn [pm cr3 boot_vm]. unfold boot_pm.
  destruct ((0x9000 + 4 * i =? 0x9000) || (0x9000 + 4 * i =? 0x9000 + 4 * 768)) eqn:E.
  - intros _. split; [|done]. unfold boot_slot. apply orb_true_iff in E. rewrite !Z.eqb_eq in E. lia.
  - rewrite (proj2 (Z.leb_gt 0xA000 _)) by lia. done.
Qed.

Lemma demo_used a : a mod PAGE_SIZE = 0 → used demo (a / PAGE_SIZE) = true → pmm_used demo a.
Proof. intros Ha Hu. split; [done|]. rewrite elem_of_free_set. rewrite Hu. by intros []. Qed.

Lemma boot_vm_ok : boot_ok boot_vm.
Proof.
  split.
  - done.
  - intros a. cbn. unfold boot_pm. destruct (_ || _); [lia|].
    destruct ((0xA000 <=? a) && (a <? 0xB000)) eqn:E; [|lia]. apply andb_true_iff in E. rewrite Z.leb_le, Z.ltb_lt in E. dlia.
  - reflexivity.
  - intros i Hi [_ ->]%boot_pde; [|done]. split; [done|]. by apply demo_used.
  - intros i j Hi Hj Hne Hb [? _]%boot_pde; done.
  - by apply demo_used.
  - done.
  - split; [exact demo_wf | exact demo_zero].
Qed.

Definition demo_vm : vm (P := pmm) := initialised boot_vm 0x150000.

Lemma demo_vm_ok : vm_ok demo_vm.
Proof. apply initialised_ok, boot_vm_ok. Qed.

Lemma demo_plain v : 0x40000000 ≤ v < 0x40002000 → plain_page v.
Proof. intros Hv. unfold plain_page, boot_slot. dlia. Qed.



Lemma vmm_unmap_region_correct_witness :
  ∃ s', vmm_unmap_region 0x40000000 0x2000 demo_vm = Ret (tt, s') ∧ vm_ok s' ∧ frames s' = frames demo_vm ∧
    (∀ v, 0x40000000 ≤ v < 0x40002000 → goes_to s' v = None ∧ tlb s' !! (v / PAGE_SIZE) = None) ∧
    (∀ vp, 0 ≤ vp < 2 ^ 20 → off_region 0x40000000 0x2000 vp → space s' vp = space demo_vm vp).
Proof.
  apply (vmm_unmap_region_correct demo_vm 0x40000000 0x2000);
    [exact demo_vm_ok | lia | reflexivity | lia | lia | exact demo_plain].
Defined.

Lemma vmm_page_roundtrip_witness :
  match (_ ← vmm_map_page 0x40001000 0x201000 2;
         a ← vmm_virt_to_phys 0x40001234; f ← vmm_get_page_flags 0x40001000;
         _ ← vmm_set_page_flags 0x40001000 5;
         b ← vmm_virt_to_phys 0x40001234; g ← vmm_get_page_flags 0x40001000;
         _ ← vmm_unmap_page 0x40001000;
         c ← vmm_virt_to_phys 0x40001234;
         mret (a, f, b, g, c)) demo_vm with
  | Ret (r, s') =>
      r = (0x201234, 3, 0x201234, 5, 0) ∧ vm_ok s' ∧
      ∀ vp, 0 ≤ vp < 2 ^ 20 → space s' vp = if vp =? 0x40001 then None else space demo_vm vp
  | Panic => out_of_frames demo_vm
  | Undef => False
  end.
Proof.
  apply (vmm_page_roundtrip demo_vm 0x40001000 0x40001234 0x201000 2 5);
    [exact demo_vm_ok | lia | apply demo_plain; lia | reflexivity | lia | reflexivity].
Defined.

Lemma vmm_map_page_moves_direct_map_witness :
  ∃ s', vmm_map_page 0x300000 0x1F000 3 demo_vm = Ret (tt, s') ∧
    mapping s' 0x300 = Some 0x1F000 ∧ mapping s' 0xC0300 = Some 0x1F000.
Proof.
  apply (vmm_map_page_moves_direct_map demo_vm 0x300000 0x1F000 3);
    [exact demo_vm_ok | lia | lia | reflexivity | reflexivity].
Defined.

Lemma vmm_init_correct_witness :
  match vmm_init 0x150000 0x180000 boot_vm with
  | Ret (_, s') =>
      u32 (0x180000 - KERNEL_PHYSICAL_BASE) ≤ 4 * 1024 * 1024 ∧ vm_ok s' ∧
      (∀ vp, 0 ≤ vp < 2 ^ 20 → space s' vp = space boot_vm vp) ∧
      current_directory s' = 0x150000 ∧
      dirs s' !! 0x150000 = Some {| physical_addr := 0x9000; entries := PAGE_DIR_VIRT_ADDR |}
  | Panic => 4 * 1024 * 1024 < u32 (0x180000 - KERNEL_PHYSICAL_BASE)
  | Undef => False
  end.
Proof. apply (vmm_init_correct boot_vm 0x150000 0x180000 boot_vm_ok). Defined.
