(* ===== verification/Kmap.v ===== *)
(** * Temporary kernel mappings (kernel/mm/kmap.c)

    A pool of 1024 pages at 0xF0000000 through which the kernel reaches physical
    memory above 4 MB.  Each slot counts the users of its page; the first user
    maps it, the last one unmaps it. *)

From S2P Require Import Prelude Bits Pmm Vmm VmmSpec VmmSpace.

#[local] Open Scope Z_scope.

Abbreviation KMAP_BASE := 0xF0000000%Z (only parsing).
Abbreviation KMAP_PAGES := 1024%Z (only parsing).
Abbreviation KMAP_SIZE := (KMAP_PAGES * 4096)%Z (only parsing).

Record kmap_slot := { phys_addr : Z; ref_count : Z }.

Definition free_slot : kmap_slot := {| phys_addr := 0; ref_count := 0 |}.

Section Kmap.
Context {P : Type} `{!FrameSource P}.

Record kmaps := {
  kvm : vm (P := P);
  kmap_slots : list kmap_slot;
  kmap_locked : bool;
  kmap_initialized : bool;
}.

Definition with_kvm (v : vm) (s : kmaps) : kmaps :=
  {| kvm := v; kmap_slots := kmap_slots s; kmap_locked := kmap_locked s; kmap_initialized := kmap_initialized s |}.
Definition with_slots (l : list kmap_slot) (s : kmaps) : kmaps :=
  {| kvm := kvm s; kmap_slots := l; kmap_locked := kmap_locked s; kmap_initialized := kmap_initialized s |}.
Definition with_lock (b : bool) (s : kmaps) : kmaps :=
  {| kvm := kvm s; kmap_slots := kmap_slots s; kmap_locked := b; kmap_initialized := kmap_initialized s |}.

Definition on_vm {A} (c : M (vm (P := P)) A) : M kmaps A := zoom kvm with_kvm c.

(** The spin lock of the pool: taking it while it is held never returns. *)
Definition lock_kmap : M kmaps unit :=
  s ← get; if kmap_locked s then undef else modify (with_lock true).
Definition unlock_kmap : M kmaps unit := modify (with_lock false).

Definition set_slot (i : Z) (x : kmap_slot) : M kmaps unit :=
  s ← get; l ← deref (aset (kmap_slots s) i x); modify (with_slots l).

Definition kmap_init : M kmaps unit :=
  s ← get;
  if kmap_initialized s then mret tt
  else modify (λ s, {| kvm := kvm s; kmap_slots := replicate (Z.to_nat KMAP_PAGES) free_slot;
                       kmap_locked := false; kmap_initialized := true |}).

(** The body of the first loop: another user of a page that is mapped. *)
Definition kmap_share (paddr i : Z) : M kmaps (option Z) :=
  s ← get;
  x ← deref (aget (kmap_slots s) i);
  if (phys_addr x =? paddr) && (0 <? ref_count x) then
    _ ← set_slot i {| phys_addr := phys_addr x; ref_count := u32 (ref_count x + 1) |};
    _ ← unlock_kmap;
    mret (Some (KMAP_BASE + i * 4096))
  else mret None.

(** The body of the second loop: the first user of a page takes a free slot. *)
Definition kmap_take (paddr i : Z) : M kmaps (option Z) :=
  s ← get;
  x ← deref (aget (kmap_slots s) i);
  if ref_count x =? 0 then
    _ ← set_slot i {| phys_addr := paddr; ref_count := 1 |};
    let vaddr := KMAP_BASE + i * 4096 in
    _ ← on_vm (vmm_map_page vaddr paddr 3);
    _ ← unlock_kmap;
    mret (Some vaddr)
  else mret None.

Definition kmap (paddr : Z) : M kmaps Z :=
  s ← get;
  _ ← (if negb (kmap_initialized s) then kmap_init else mret tt);
  let page_addr := Z.land paddr 0xFFFFF000 in
  if page_addr <? 0x400000 then mret (u32 (paddr + 0xC0000000))
  else
    let paddr := page_addr in
    _ ← lock_kmap;
    r ← for_ret (Z.to_nat KMAP_PAGES) 0 (kmap_share paddr);
    match r with
    | Some v => mret v
    | None =>
        r ← for_ret (Z.to_nat KMAP_PAGES) 0 (kmap_take paddr);
        match r with
        | Some v => mret v
        | None => _ ← unlock_kmap; mret 0
        end
    end.

Definition kunmap (addr : Z) : M kmaps unit :=
  s ← get;
  if negb (kmap_initialized s) then mret tt
  else if (addr <? KMAP_BASE) || (KMAP_BASE + KMAP_SIZE <=? addr) then mret tt
  else
    let index := (addr - KMAP_BASE) / 4096 in
    _ ← lock_kmap;
    s ← get;
    x ← deref (aget (kmap_slots s) index);
    _ ← (if (index <? KMAP_PAGES) && (0 <? ref_count x) then
           let n := ref_count x - 1 in
           _ ← set_slot index {| phys_addr := phys_addr x; ref_count := n |};
           if n =? 0 then
             _ ← set_slot index {| phys_addr := 0; ref_count := n |};
             on_vm (vmm_unmap_page (KMAP_BASE + index * 4096))
           else mret tt
         else mret tt);
    unlock_kmap.

(** ** Correctness *)

Definition slot_page (i : Z) : Z := KMAP_BASE / 4096 + i.

(** A slot agrees with the page tables: without users it is empty and its page
    unmapped, with users its page shows its frame. *)
Definition slot_ok (v : vm (P := P)) (i : Z) (x : kmap_slot) : Prop :=
  0 ≤ ref_count x < 2 ^ 32 ∧
  if ref_count x =? 0 then phys_addr x = 0 ∧ space v (slot_page i) = None
  else phys_addr x mod 4096 = 0 ∧ 0x400000 ≤ phys_addr x < 2 ^ 32 ∧ space v (slot_page i) = Some (phys_addr x).

Record kmap_ok (s : kmaps) : Prop := {
  ko_vm : vm_ok (kvm s);
  ko_lock : kmap_locked s = false;
  ko_init : kmap_initialized s = true;
  ko_len : length (kmap_slots s) = 1024%nat;
  ko_slots : ∀ i x, aget (kmap_slots s) i = Some x → slot_ok (kvm s) i x;
  ko_distinct : ∀ i j x y, aget (kmap_slots s) i = Some x → aget (kmap_slots s) j = Some y →
                  0 < ref_count x → 0 < ref_count y → phys_addr x = phys_addr y → i = j;
}.

(** [v'] is [v] with the page of slot [i] changed to [f]. *)
Definition remaps (v v' : vm (P := P)) (i : Z) (f : option Z) : Prop :=
  vm_ok v' ∧ beside v v' ∧ ∀ vp, 0 ≤ vp < 2 ^ 20 → space v' vp = if vp =? slot_page i then f else space v vp.

Lemma slot_page_eq i : 0 ≤ i < 1024 →
  (KMAP_BASE + i * 4096) / 4096 = slot_page i ∧ plain_page (KMAP_BASE + i * 4096) ∧
  0 ≤ KMAP_BASE + i * 4096 < 2 ^ 32 ∧ 0 ≤ slot_page i < 2 ^ 20.
Proof. intros Hi. unfold slot_page, plain_page, boot_slot. split_and!; dlia. Qed.

(** Changing one slot, and its page accordingly, keeps the pool consistent. *)
Lemma kmap_ok_update s v i x :
  kmap_ok s → 0 ≤ i < 1024 → vm_ok v →
  (∀ vp, 0 ≤ vp < 2 ^ 20 → vp ≠ slot_page i → space v vp = space (kvm s) vp) →
  slot_ok v i x →
  (∀ j y, j ≠ i → aget (kmap_slots s) j = Some y → 0 < ref_count y → 0 < ref_count x → phys_addr y ≠ phys_addr x) →
  kmap_ok (with_lock false (with_kvm v (with_slots (<[Z.to_nat i := x]> (kmap_slots s)) (with_lock true s)))).
Proof.
  intros Hok Hi Hv Hsp Hx Hd. destruct (Hok) as [H1 H2 H3 H4 H5 H6]. split; cbn; try done.
  - by rewrite length_insert.
  - intros j y. rewrite aget_insert by lia. destruct (Z.eqb_spec j i) as [->|Hne]; [by intros [= <-]|].
    intros Hy. pose proof (aget_range _ _ _ Hy). destruct (H5 j y Hy) as [Hr Hs]. split; [done|].
    rewrite Hsp; [done | apply slot_page_eq; lia | unfold slot_page; lia].
  - intros j k y z. rewrite !aget_insert by lia.
    destruct (Z.eqb_spec j i) as [->|], (Z.eqb_spec k i) as [->|]; intros Hy Hz Hry Hrz E; simplify_eq; try done.
    + exfalso. by apply (Hd k z n Hz).
    + exfalso. by apply (Hd j y n Hy).
    + by apply (H6 j k y z).
Qed.

Definition shares (s : kmaps) (page i : Z) : bool :=
  match aget (kmap_slots s) i with
  | Some x => (phys_addr x =? page) && (0 <? ref_count x)
  | None => false
  end.

Definition unused (s : kmaps) (i : Z) : bool :=
  match aget (kmap_slots s) i with Some x => ref_count x =? 0 | None => false end.

Lemma set_slot_eq s i x :
  0 ≤ i < Z.of_nat (length (kmap_slots s)) →
  set_slot i x s = Ret (tt, with_slots (<[Z.to_nat i := x]> (kmap_slots s)) s).
Proof.
  intros Hi. unfold set_slot. rewrite bind_get, aset_Some by done. by rewrite bind_deref.
Qed.

Lemma on_vm_Ret {A} (c : M vm A) s a v : c (kvm s) = Ret (a, v) → on_vm c s = Ret (a, with_kvm v s).
Proof. intros E. unfold on_vm. by rewrite (zoom_Ret _ _ _ _ _ _ E). Qed.

Lemma kmap_share_hit s page i x :
  aget (kmap_slots s) i = Some x → phys_addr x = page → 0 < ref_count x →
  kmap_share page i s =
  Ret (Some (KMAP_BASE + i * 4096),
       with_lock false (with_slots (<[Z.to_nat i := {| phys_addr := page; ref_count := u32 (ref_count x + 1) |}]> (kmap_slots s)) s)).
Proof.
  intros Hx Hp Hr. unfold kmap_share. rewrite bind_get, Hx.
  rewrite bind_deref, Hp, Z.eqb_refl, (proj2 (Z.ltb_lt _ _) Hr). cbn [andb].
  rewrite (bind_Ret _ _ _ _ _ (set_slot_eq s i _ (aget_range _ _ _ Hx))). done.
Qed.

Lemma kmap_take_hit s page i x :
  vm_ok (kvm s) → length (kmap_slots s) = 1024%nat → aget (kmap_slots s) i = Some x → ref_count x = 0 → page mod 4096 = 0 → 0 ≤ page < 2 ^ 32 →
  (∃ v, remaps (kvm s) v i (Some page) ∧
     kmap_take page i s =
     Ret (Some (KMAP_BASE + i * 4096),
          with_lock false (with_kvm v (with_slots (<[Z.to_nat i := {| phys_addr := page; ref_count := 1 |}]> (kmap_slots s)) s)))) ∨
  (kmap_take page i s = Panic ∧ out_of_frames (kvm s)).
Proof.
  intros Hok Hlen Hx Hr Hal Hp. unfold kmap_take. rewrite bind_get, Hx.
  rewrite bind_deref, Hr. cbn [Z.eqb]. pose proof (aget_range _ _ _ Hx) as Hi.
  rewrite (bind_Ret _ _ _ _ _ (set_slot_eq s i _ Hi)). set (s1 := with_slots _ s). cbv zeta.
  destruct (slot_page_eq i ltac:(lia)) as (Hvp & Hpl & Hv & Hpr).
  destruct (map_page_spec (kvm s) (KMAP_BASE + i * 4096) page 3 Hok Hv Hpl Hp) as [(v & E & Hm & _)|(E & _ & p & Ep)].
  - left. exists v. split.
    + split; [apply Hm|]. split; [split_and!; apply Hm|]. intros vp Hvp'. rewrite (md_space _ _ _ _ _ Hm vp Hvp'), Hvp. replace (page / 4096 * 4096) with page by dlia. done.
    + by rewrite (bind_Ret _ _ _ _ _ (on_vm_Ret _ s1 _ _ E)).
  - right. split; [|exists (frames (kvm s)), p; by split; [intros b|]].
    apply bind_Panic. unfold on_vm, zoom. cbn [kvm s1 with_slots]. by rewrite E.
Qed.

(** The result of the two loops: where the page of a request ends up. *)
Definition placed (s s' : kmaps) (page v : Z) : Prop :=
  ∃ i x, aget (kmap_slots s) i = Some x ∧ v = KMAP_BASE + i * 4096 ∧
    (shares s page i = true ∨ (ref_count x = 0 ∧ ∀ j, shares s page j = false)) ∧
    kmap_slots s' = <[Z.to_nat i := {| phys_addr := page; ref_count := ref_count x + 1 |}]> (kmap_slots s) ∧
    beside (kvm s) (kvm s') ∧
    ∀ vp, 0 ≤ vp < 2 ^ 20 → space (kvm s') vp = if vp =? slot_page i then Some page else space (kvm s) vp.

Lemma shares_aget s page i : shares s page i = true →
  ∃ x, aget (kmap_slots s) i = Some x ∧ phys_addr x = page ∧ 0 < ref_count x.
Proof.
  unfold shares. destruct (aget (kmap_slots s) i) as [x|]; [|done]. intros [H1 H2]%andb_true_iff.
  exists x. rewrite Z.eqb_eq in H1. rewrite Z.ltb_lt in H2. done.
Qed.

Lemma kmap_search s page i :
  length (kmap_slots s) = 1024%nat → 0 ≤ i < 1024 →
  (shares s page i = false → kmap_share page i s = Ret (None, s)) ∧
  (unused s i = false → kmap_take page i s = Ret (None, s)).
Proof.
  intros Hl Hi. destruct (aget_Some (kmap_slots s) i ltac:(lia)) as [x Hx].
  unfold shares, unused, kmap_share, kmap_take. rewrite Hx, !bind_get, Hx, !bind_deref.
  split; intros ->; done.
Qed.

(** A page in use by another slot is not taken again. *)
Lemma kmap_high s page :
  kmap_ok s → page mod 4096 = 0 → 0x400000 ≤ page < 2 ^ 32 →
  (∀ i x, aget (kmap_slots s) i = Some x → ref_count x < 2 ^ 32 - 1) →
  kmap page s = Panic ∧ out_of_frames (kvm s) ∨
  ∃ v s', kmap page s = Ret (v, s') ∧ kmap_ok s' ∧
    ((v = 0 ∧ s' = s ∧ ∀ i, 0 ≤ i < 1024 → shares s page i = false ∧ unused s i = false) ∨ placed s s' page v).
Proof.
  intros Hok Hal Hp Hsat. destruct (Hok) as [Hvm Hlock Hinit Hlen Hsl Hd].
  unfold kmap. rewrite bind_get, Hinit. cbn [negb]. erewrite bind_Ret by reflexivity. cbv zeta.
  rewrite land_page_mask by lia. replace (page / 4096 * 4096) with page by dlia.
  rewrite (proj2 (Z.ltb_ge page 0x400000)) by lia. set (s1 := with_lock true s).
  rewrite (bind_Ret lock_kmap _ s tt s1) by (unfold lock_kmap; by rewrite bind_get, Hlock).
  destruct (for_ret_first (shares s page) (kmap_share page) (Z.to_nat KMAP_PAGES) 0 s1) as [(i & Hi & Hh & _ & E)|[Hnone E]].
  { intros j Hj Hf. by apply (kmap_search s1 page j Hlen). }
  { intros j Hj (x & Hx & Hpx & Hr)%shares_aget s'. by rewrite (kmap_share_hit s1 page j x). }
  - right. destruct (shares_aget _ _ _ Hh) as (x & Hx & Hpx & Hr).
    pose proof (Hsat i x Hx). rewrite (kmap_share_hit s1 page i x Hx Hpx Hr), u32_small in E by lia.
    rewrite (bind_Ret _ _ _ _ _ E). eexists _, _. split; [reflexivity|].
    pose proof (Hsl i x Hx) as [Hrx Hsx]. rewrite (proj2 (Z.eqb_neq (ref_count x) 0)) in Hsx by lia. destruct Hsx as (_ & _ & Hsx).
    split.
    + apply (kmap_ok_update s (kvm s) i); try done; cbn.
      * split; cbn; [lia|]. rewrite (proj2 (Z.eqb_neq (ref_count x + 1) 0)) by lia. by rewrite Hsx, Hpx.
      * intros j y Hne Hy Hry _ Hpy. apply Hne, (Hd j i y x Hy Hx Hry Hr). by rewrite Hpy, Hpx.
    + right. exists i, x. split; [done|]. split; [done|]. split; [by left|]. split; [done|]. split; [apply beside_refl|]. cbn. intros vp Hvp.
      destruct (Z.eqb_spec vp (slot_page i)) as [->|]; [by rewrite Hsx, Hpx | done].
  - rewrite (bind_Ret _ _ _ _ _ E).
    destruct (for_ret_first (unused s) (kmap_take page) (Z.to_nat KMAP_PAGES) 0 s1) as [(i & Hi & Hh & _ & E2)|[Hnone2 E2]].
    { intros j Hj Hf. by apply (kmap_search s1 page j Hlen). }
    { intros j Hj Hf s'. unfold unused in Hf. destruct (aget (kmap_slots s) j) as [x|] eqn:Hx; [|done].
      destruct (kmap_take_hit s1 page j x) as [(v & _ & ->)|[-> _]]; try done; lia. }
    + unfold unused in Hh. destruct (aget (kmap_slots s) i) as [x|] eqn:Hx; [|done]. apply Z.eqb_eq in Hh.
      destruct (kmap_take_hit s1 page i x) as [(v & (Hv & Hbes & Hsp) & Ek)|[Ek Hout]]; try done; try lia.
      2:{ left. rewrite Ek in E2. by rewrite (bind_Panic _ _ _ E2). }
      right. rewrite Ek in E2. rewrite (bind_Ret _ _ _ _ _ E2). eexists _, _. split; [reflexivity|].
      assert (∀ j, shares s page j = false) as Hns.
      { intros j. destruct (decide (0 ≤ j < 1024)); [apply Hnone; lia|]. unfold shares.
        destruct (aget (kmap_slots s) j) as [y|] eqn:Hy; [|done]. apply aget_range in Hy. lia. }
      pose proof (slot_page_eq i ltac:(lia)) as (_ & _ & _ & Hpr).
      split; [apply (kmap_ok_update s v i); try done; try lia|].
      * intros vp Hvp Hne. rewrite Hsp by done. by rewrite (proj2 (Z.eqb_neq _ _)).
      * split; cbn; [lia|]. rewrite Hsp, Z.eqb_refl by done. done.
      * intros j y Hne Hy Hry _ Hpy. specialize (Hns j). unfold shares in Hns. rewrite Hy, Hpy in Hns. cbn in Hns.
        rewrite Z.eqb_refl, (proj2 (Z.ltb_lt _ _) Hry) in Hns. done.
      * right. exists i, x. split; [done|]. split; [done|]. split; [by right|]. by rewrite Hh.
    + right. rewrite (bind_Ret _ _ _ _ _ E2). eexists _, _. split; [reflexivity|].
      assert (with_lock false s1 = s) as -> by (destruct s; cbn in *; by rewrite Hlock).
      split; [done|]. left. split_and!; try done. intros i Hi. split; [apply Hnone | apply Hnone2]; lia.
Qed.

(** Releasing slot [i]: the last user unmaps the page. *)
Lemma kunmap_spec s i x off :
  kmap_ok s → aget (kmap_slots s) i = Some x → 0 < ref_count x → 0 ≤ off < 4096 →
  ∃ s', kunmap (KMAP_BASE + i * 4096 + off) s = Ret (tt, s') ∧ kmap_ok s' ∧
    kmap_slots s' = <[Z.to_nat i := if ref_count x =? 1 then free_slot
                                    else {| phys_addr := phys_addr x; ref_count := ref_count x - 1 |}]> (kmap_slots s) ∧
    beside (kvm s) (kvm s') ∧
    ∀ vp, 0 ≤ vp < 2 ^ 20 →
      space (kvm s') vp = if (ref_count x =? 1) && (vp =? slot_page i) then None else space (kvm s) vp.
Proof.
  intros Hok Hx Hr Hoff. destruct (Hok) as [Hvm Hlock Hinit Hlen Hsl Hd].
  pose proof (aget_range _ _ _ Hx) as Hi. rewrite Hlen in Hi. pose proof (Hsl i x Hx) as [Hrx Hsx].
  rewrite (proj2 (Z.eqb_neq (ref_count x) 0)) in Hsx by lia. destruct Hsx as (Hal & Hpx & Hsx).
  unfold kunmap. rewrite bind_get, Hinit. cbn [negb]. rewrite (proj2 (Z.ltb_ge _ KMAP_BASE)) by lia.
  rewrite (proj2 (Z.leb_gt (KMAP_BASE + KMAP_SIZE) _)) by lia. cbn [orb]. cbv zeta.
  replace ((KMAP_BASE + i * 4096 + off - KMAP_BASE) / 4096) with i by dlia. set (s1 := with_lock true s).
  rewrite (bind_Ret lock_kmap _ s tt s1) by (unfold lock_kmap; by rewrite bind_get, Hlock).
  rewrite bind_get. change (kmap_slots s1) with (kmap_slots s). rewrite Hx, bind_deref.
  rewrite (proj2 (Z.ltb_lt i KMAP_PAGES)), (proj2 (Z.ltb_lt _ _) Hr) by lia. cbn [andb].
  rewrite (bind_assoc (set_slot i _)), (bind_Ret _ _ _ _ _ (set_slot_eq s1 i _ ltac:(cbn; lia))).
  destruct (Z.eqb_spec (ref_count x) 1) as [H1|H1].
  - rewrite H1. change (1 - 1 =? 0) with true. cbv match. rewrite bind_assoc.
    erewrite bind_Ret by (apply set_slot_eq; cbn; rewrite length_insert; lia). cbn [kmap_slots with_slots].
    rewrite list_insert_insert_eq. destruct (slot_page_eq i ltac:(lia)) as (Hvp & Hpl & Hv & Hpr).
    destruct (unmap_page_spec (kvm s) (KMAP_BASE + i * 4096) Hvm Hv Hpl) as (v & E & Hv' & Hcv & Hfv & Hspa & Hsp).
    erewrite bind_Ret by (apply on_vm_Ret; exact E). rewrite Hvp in Hsp. eexists. split; [reflexivity|].
    split; [|split; [done | split; [split_and!; [done | by intros b; cbn; rewrite Hfv | done] | exact Hsp]]]. apply (kmap_ok_update s v i); try done.
    + intros vp Hvp' Hne. rewrite Hsp by done. by rewrite (proj2 (Z.eqb_neq _ _)).
    + split; cbn; [lia|]. rewrite Hsp, !Z.eqb_refl by done. done.
  - rewrite (proj2 (Z.eqb_neq (ref_count x - 1) 0)) by lia. erewrite bind_Ret by reflexivity.
    eexists. split; [reflexivity|]. split; [|split; [done | split; [apply beside_refl | done]]].
    apply (kmap_ok_update s (kvm s) i); try done.
    + split; cbn; [lia|]. by rewrite (proj2 (Z.eqb_neq (ref_count x - 1) 0)) by lia.
    + cbn. intros j y Hne Hy Hry _ Hpy. apply Hne, (Hd j i y x); done.
Qed.

(** A request for a physical address below 4 MB is answered from the direct map.
    For any other one the page is shared when it is mapped already, else the first
    free slot takes it and shows it; each call counts one user, touches no other
    page and no frame but page tables, and releases the lock.  Null is returned exactly when the pool is full
    and does not hold the page. *)
Theorem kmap_correct s paddr :
  kmap_ok s → 0 ≤ paddr < 2 ^ 32 → (∀ i x, aget (kmap_slots s) i = Some x → ref_count x < 2 ^ 32 - 1) →
  let page := paddr / 4096 * 4096 in
  if page <? 0x400000 then kmap paddr s = Ret (u32 (paddr + 0xC0000000), s)
  else
    kmap paddr s = Panic ∧ out_of_frames (kvm s) ∨
    ∃ v s', kmap paddr s = Ret (v, s') ∧ kmap_ok s' ∧
      ((v = 0 ∧ s' = s ∧ ∀ i, 0 ≤ i < 1024 → shares s page i = false ∧ unused s i = false) ∨ placed s s' page v).
Proof.
  intros Hok Hp Hsat page. destruct (Z.ltb_spec page 0x400000).
  - unfold kmap. rewrite bind_get, (ko_init _ Hok). cbn [negb]. erewrite bind_Ret by reflexivity. cbv zeta.
    rewrite land_page_mask by done. fold page. by rewrite (proj2 (Z.ltb_lt page 0x400000)).
  - assert (kmap paddr s = kmap page s) as ->; [|apply kmap_high; try done; unfold page in *; dlia].
    unfold kmap. rewrite !land_page_mask by (unfold page in *; dlia).
    replace (page / 4096 * 4096) with page by (unfold page; dlia). fold page.
    rewrite (proj2 (Z.ltb_ge page 0x400000)) by done. done.
Qed.

(** The pool determines the address space in its window. *)
Lemma kmap_ok_space s s' i :
  kmap_ok s → kmap_ok s' → kmap_slots s' = kmap_slots s → 0 ≤ i < 1024 →
  space (kvm s') (slot_page i) = space (kvm s) (slot_page i).
Proof.
  intros Hok Hok' Hs Hi. destruct (aget_Some (kmap_slots s) i) as [x Hx]; [rewrite (ko_len _ Hok); lia|].
  destruct (ko_slots _ Hok i x Hx) as [_ H1]. rewrite <- Hs in Hx. destruct (ko_slots _ Hok' i x Hx) as [_ H2].
  destruct (ref_count x =? 0); [by rewrite (proj2 H1), (proj2 H2) | by rewrite (proj2 (proj2 H1)), (proj2 (proj2 H2))].
Qed.

(** Releasing a page undoes the request for it, whatever happened in between. *)
Lemma placed_undo s s1 s2 page v off :
  kmap_ok s → placed s s1 page v → kmap_ok s2 → kmap_slots s2 = kmap_slots s1 → 0 ≤ off < 4096 →
  ∃ s3, kunmap (v + off) s2 = Ret (tt, s3) ∧ kmap_ok s3 ∧ kmap_slots s3 = kmap_slots s ∧ beside (kvm s2) (kvm s3) ∧
    ∀ vp, 0 ≤ vp < 2 ^ 20 → vp ≠ v / 4096 → space (kvm s3) vp = space (kvm s2) vp.
Proof.
  intros Hok (i & x & Hx & -> & Hwhy & Hs1 & _ & _) Hok2 Hs2 Hoff. rewrite Hs1 in Hs2.
  pose proof (aget_range _ _ _ Hx) as Hi. rewrite (ko_len _ Hok) in Hi. destruct (ko_slots _ Hok i x Hx) as [Hrx Hsx].
  set (x1 := {| phys_addr := page; ref_count := ref_count x + 1 |}) in *.
  assert (aget (kmap_slots s2) i = Some x1) as Hx2 by (rewrite Hs2, aget_insert, Z.eqb_refl by (rewrite (ko_len _ Hok); lia); done).
  destruct (kunmap_spec s2 i x1 off Hok2 Hx2 ltac:(cbn; lia) Hoff) as (s3 & E3 & Hok3 & Hs3 & Hb3 & Hsp3).
  exists s3. split_and!; try done.
  - rewrite Hs3, Hs2, list_insert_insert_eq. apply list_insert_id, aget_lookup; [|lia]. rewrite Hx. cbn [ref_count phys_addr x1]. f_equal.
    destruct (Z.eqb_spec (ref_count x) 0) as [H0|H0].
    + destruct Hsx as [Hp _], x; cbn in *; by subst.
    + rewrite (proj2 (Z.eqb_neq (ref_count x + 1) 1)) by lia. destruct Hwhy as [(y & Hy & <- & _)%shares_aget|[? _]]; [|done].
      simplify_eq. destruct x; cbn. f_equal. lia.
  - intros vp Hvp Hne. rewrite Hsp3 by done. destruct (slot_page_eq i ltac:(lia)) as (<- & _).
    by rewrite (proj2 (Z.eqb_neq _ _) Hne), andb_false_r.
Qed.

(** Mapping a page above 4 MB and releasing it again, by any address in it, leaves
    the pool and the whole address space as they were. *)
Theorem kmap_kunmap_roundtrip s page off :
  kmap_ok s → page mod 4096 = 0 → 0x400000 ≤ page < 2 ^ 32 → 0 ≤ off < 4096 →
  (∀ i x, aget (kmap_slots s) i = Some x → ref_count x < 2 ^ 32 - 1) →
  match (v ← kmap page; _ ← kunmap (v + off); mret v) s with
  | Ret (v, s') =>
      (v = 0 ∨ v / 4096 = slot_page ((v - KMAP_BASE) / 4096)) ∧ kmap_ok s' ∧ kmap_slots s' = kmap_slots s ∧
      ∀ vp, 0 ≤ vp < 2 ^ 20 → space (kvm s') vp = space (kvm s) vp
  | Panic => out_of_frames (kvm s)
  | Undef => False
  end.
Proof.
  intros Hok Hal Hp Hoff Hsat. destruct (kmap_high s page Hok Hal Hp Hsat) as [[E Hout]|(v & s1 & E & Hok1 & Hr)].
  { by rewrite (bind_Panic _ _ _ E). }
  rewrite (bind_Ret _ _ _ _ _ E). destruct Hr as [(-> & -> & _)|Hpl].
  { unfold kunmap. unfold mbind at 1, M_bind at 1. rewrite bind_get, (ko_init _ Hok). cbn [negb].
    rewrite (proj2 (Z.ltb_lt _ KMAP_BASE)) by lia. cbn [orb]. cbn. split_and!; try done. by left. }
  destruct (placed_undo s s1 s1 page v off) as (s2 & E2 & Hok2 & Hs2 & _ & Hsp2); try done. rewrite (bind_Ret _ _ _ _ _ E2).
  destruct Hpl as (i & x & Hx & -> & _ & _ & _ & Hsp1). pose proof (aget_range _ _ _ Hx) as Hi. rewrite (ko_len _ Hok) in Hi.
  destruct (slot_page_eq i ltac:(lia)) as (Hvp & _ & _ & Hpr).
  split_and!; [right; rewrite Hvp; f_equal; dlia | done | done|]. intros vp Hvp'. destruct (decide (vp = slot_page i)) as [->|Hne].
  - by apply kmap_ok_space.
  - rewrite Hsp2, Hsp1, (proj2 (Z.eqb_neq _ _) Hne) by (done || by rewrite Hvp). done.
Qed.
End Kmap.

(** ** The empty pool *)

Definition demo_kmap : kmaps (P := pmm) :=
  {| kvm := demo_vm; kmap_slots := replicate 1024 free_slot; kmap_locked := false; kmap_initialized := true |}.

Lemma demo_window i : 0 ≤ i < 1024 → space demo_vm (slot_page i) = None.
Proof.
  intros Hi. unfold space. rewrite mapping_eq. replace (slot_page i / 1024) with 960 by (unfold slot_page; dlia).
  reflexivity.
Qed.

Lemma demo_slot i x : aget (kmap_slots demo_kmap) i = Some x → x = free_slot.
Proof.
  cbn [kmap_slots demo_kmap]. unfold aget. destruct (0 <=? i); [|done]. by intros [-> _]%lookup_replicate_1.
Qed.

Lemma demo_kmap_ok : kmap_ok demo_kmap.
Proof.
  split.
  - exact demo_vm_ok.
  - done.
  - done.
  - apply length_replicate.
  - intros i x Hx. pose proof (aget_range _ _ _ Hx) as Hi. cbn [kmap_slots demo_kmap] in Hi. rewrite length_replicate in Hi.
    rewrite (demo_slot i x Hx). split; [cbn; lia|]. split; [done|]. apply demo_window. lia.
  - intros i j x y ->%demo_slot _ H. cbn in H. lia.
Qed.

Lemma demo_refs i x : aget (kmap_slots demo_kmap) i = Some x → ref_count x < 2 ^ 32 - 1.
Proof. intros ->%demo_slot. cbn. lia. Qed.

Lemma kmap_correct_witness :
  kmap 0x1234567 demo_kmap = Panic ∧ out_of_frames (kvm demo_kmap) ∨
  ∃ v s', kmap 0x1234567 demo_kmap = Ret (v, s') ∧ kmap_ok s' ∧
    ((v = 0 ∧ s' = demo_kmap ∧ ∀ i, 0 ≤ i < 1024 → shares demo_kmap 0x1234000 i = false ∧ unused demo_kmap i = false) ∨
     placed demo_kmap s' 0x1234000 v).
Proof. apply (kmap_correct demo_kmap 0x1234567); [exact demo_kmap_ok | lia | exact demo_refs]. Defined.

Lemma kmap_kunmap_roundtrip_witness :
  match (v ← kmap 0x1234000; _ ← kunmap (v + 5); mret v) demo_kmap with
  | Ret (v, s') =>
      (v = 0 ∨ v / 4096 = slot_page ((v - KMAP_BASE) / 4096)) ∧ kmap_ok s' ∧ kmap_slots s' = kmap_slots demo_kmap ∧
      ∀ vp, 0 ≤ vp < 2 ^ 20 → space (kvm s') vp = space (kvm demo_kmap) vp
  | Panic => out_of_frames (kvm demo_kmap)
  | Undef => False
  end.
Proof.
  apply (kmap_kunmap_roundtrip demo_kmap 0x1234000 5); [exact demo_kmap_ok | done | lia | lia | exact demo_refs].
Defined.
