(* ===== verification/VmmDir.v ===== *)
(** * Page directories of other address spaces (kernel/mm/vmm.c)

    [vmm_create_page_directory], [vmm_destroy_page_directory],
    [vmm_map_page_in_directory] and [vmm_virt_to_phys_in_directory] work on the
    tables of an address space that is not in use.  The code reaches those
    frames through the tables of the address space that is: a directory under
    construction through a temporary page table in entry 767, any other through
    the pool of temporary mappings (kernel/mm/kmap.c), and, where only reading,
    through the direct map of the first 4 MB.

    A frame is [foreign] to the current address space when it is not one of its
    own tables.  Writing to a foreign frame, wherever it is visible, leaves the
    address space as it was; that is what the first part shows, and what the
    theorems on the operations rest on. *)

From S2P Require Import Prelude Bits Pmm Vmm VmmSpec VmmSpace Kmap.

#[local] Open Scope Z_scope.

Abbreviation TEMP_VIRT := 0xBFC00000%Z (only parsing).

Section Operations.
Context {P : Type} `{!FrameSource P}.

(** [kfree] of the structure at [pd]. *)
Definition free_directory (pd : Z) : M (vm (P := P)) unit := modify (λ s, with_dirs (delete pd (dirs s)) s).

(** [mem] is the result of [kmalloc] and [junk] what the structure held. *)
Definition vmm_create_page_directory (mem junk : Z) : M (vm (P := P)) Z :=
  if mem =? 0 then mret 0
  else
    physical_addr ← on_frames fs_alloc;
    _ ← modify (λ s, with_dirs (<[mem := {| physical_addr := physical_addr; entries := junk |}]> (dirs s)) s);
    if physical_addr =? 0 then _ ← free_directory mem; mret 0
    else
      temp_pt_phys ← on_frames fs_alloc;
      if temp_pt_phys =? 0 then
        _ ← on_frames (fs_free physical_addr);
        _ ← free_directory mem;
        mret 0
      else
        let temp_pt := u32 (temp_pt_phys + 0xC0000000) in
        _ ← (if temp_pt_phys <? 0x400000 then clear_page temp_pt
             else for_up 1024 0 (λ i, store (temp_pt + 4 * i) 0));
        _ ← store (temp_pt + 4 * 0) (pte_create physical_addr (Z.lor PAGE_PRESENT PAGE_WRITE));
        old_pde_767 ← load (PAGE_DIR_VIRT_ADDR + 4 * 767);
        _ ← store (PAGE_DIR_VIRT_ADDR + 4 * 767) (pde_create temp_pt_phys (Z.lor PAGE_PRESENT PAGE_WRITE));
        _ ← vmm_invlpg TEMP_VIRT;
        _ ← clear_page TEMP_VIRT;
        _ ← for_up 255 768 (λ i, e ← load (PAGE_DIR_VIRT_ADDR + 4 * i); store (TEMP_VIRT + 4 * i) e);
        _ ← store (TEMP_VIRT + 4 * 1023) (pde_create physical_addr (Z.lor PAGE_PRESENT PAGE_WRITE));
        _ ← store (PAGE_DIR_VIRT_ADDR + 4 * 767) old_pde_767;
        _ ← vmm_invlpg TEMP_VIRT;
        _ ← on_frames (fs_free temp_pt_phys);
        mret mem.

(** [kernel_directory] is the address of the static structure of that name. *)
Definition vmm_destroy_page_directory (kernel_directory pd : Z) : M (vm (P := P)) unit :=
  if (pd =? 0) || (pd =? kernel_directory) then mret tt
  else
    d ← gets (λ s, dirs s !! pd);
    d ← deref d;
    _ ← on_frames (fs_free (physical_addr d));
    free_directory pd.

Definition vmm_virt_to_phys_in_directory (pd virt : Z) : M (vm (P := P)) Z :=
  if pd =? 0 then mret 0
  else
    let pd_index := PD_INDEX virt in
    let pt_index := PT_INDEX virt in
    let offset := PAGE_OFFSET virt in
    d ← gets (λ s, dirs s !! pd);
    d ← deref d;
    let page_directory := u32 (physical_addr d + 0xC0000000) in
    pde ← load (page_directory + 4 * pd_index);
    if negb (pte_is_present pde) then mret 0
    else
      pde ← load (page_directory + 4 * pd_index);
      let page_table := u32 (pde_get_addr pde + 0xC0000000) in
      pte ← load (page_table + 4 * pt_index);
      if negb (pte_is_present pte) then mret 0
      else
        pte ← load (page_table + 4 * pt_index);
        mret (u32 (pte_get_addr pte + offset)).

(** The part of [vmm_map_page_in_directory] that makes the page table exist; false
    when the function returned. *)
Definition require_table (page_directory pd_index : Z) : M (kmaps (P := P)) bool :=
  pde ← on_vm (load (page_directory + 4 * pd_index));
  if negb (pte_is_present pde) then
    pt_phys ← on_vm (on_frames fs_alloc);
    if pt_phys =? 0 then _ ← kunmap page_directory; mret false
    else
      pt_temp ← kmap pt_phys;
      _ ← (if negb (pt_temp =? 0) then _ ← on_vm (clear_page pt_temp); kunmap pt_temp else mret tt);
      _ ← on_vm (store (page_directory + 4 * pd_index)
                   (pde_create pt_phys (Z.lor (Z.lor PAGE_PRESENT PAGE_WRITE) PAGE_USER)));
      mret true
  else mret true.

Definition vmm_map_page_in_directory (pd virt phys flags : Z) : M (kmaps (P := P)) unit :=
  if pd =? 0 then mret tt
  else
    let pd_index := PD_INDEX virt in
    let pt_index := PT_INDEX virt in
    d ← gets (λ s, dirs (kvm s) !! pd);
    d ← deref d;
    page_directory ← kmap (physical_addr d);
    if page_directory =? 0 then mret tt
    else
      go ← require_table page_directory pd_index;
      if negb go then mret tt
      else
        pde ← on_vm (load (page_directory + 4 * pd_index));
        let pt_phys := pde_get_addr pde in
        page_table ← kmap pt_phys;
        if page_table =? 0 then kunmap page_directory
        else
          _ ← on_vm (store (page_table + 4 * pt_index) (pte_create phys flags));
          _ ← kunmap page_table;
          _ ← kunmap page_directory;
          current_cr3 ← on_vm vmm_get_cr3;
          if current_cr3 =? physical_addr d then on_vm (vmm_invlpg virt) else mret tt.
End Operations.

Section Access.
Context {P : Type} `{!FrameSource P}.
Implicit Types s : vm (P := P).

(** ** Changing foreign frames *)

Definition dir_page : Z := 1023 * 1024 + 1023.

(** The memory of [s] and [s'] differs in foreign frames only. *)
Definition agree s s' : Prop := cr3 s' = cr3 s ∧ ∀ x, ¬ foreign s (page_of x) → pm s' x = pm s x.

Lemma page_of_word pg k : pg mod 4096 = 0 → 0 ≤ k < 1024 → page_of (pg + 4 * k) = pg.
Proof. intros Hp Hk. unfold page_of. dlia. Qed.

Lemma dir_not_foreign s j : vm_ok s → 0 ≤ j < 1024 → ¬ foreign s (page_of (cr3 s + 4 * j)).
Proof. intros Hok Hj [H _]. destruct (vo_cr3 _ Hok). by rewrite page_of_word in H. Qed.

Lemma table_not_foreign s i k :
  vm_ok s → 0 ≤ i < 1024 → 0 ≤ k < 1024 → pte_is_present (pde_at s i) = true → ¬ foreign s (page_of (table s i + 4 * k)).
Proof.
  intros Hok Hi Hk Hp. destruct (table_aligned s i Hok). rewrite page_of_word by done. destruct (decide (i = 1023)) as [->|].
  - rewrite (proj2 (recursive_entry s Hok)). by intros [? _].
  - intros [_ H']. by apply (H' i ltac:(lia)).
Qed.

Lemma agree_pde s s' j : vm_ok s → agree s s' → 0 ≤ j < 1024 → pde_at s' j = pde_at s j.
Proof. intros Hok [Hc Hm] Hj. unfold pde_at. rewrite Hc. by apply Hm, dir_not_foreign. Qed.

Lemma agree_table s s' j : vm_ok s → agree s s' → 0 ≤ j < 1024 → table s' j = table s j.
Proof. intros Hok Ha Hj. unfold table. by rewrite (agree_pde s s'). Qed.

Lemma agree_mapping s s' vp : vm_ok s → agree s s' → 0 ≤ vp < 2 ^ 20 → mapping s' vp = mapping s vp.
Proof.
  intros Hok Ha Hvp. assert (0 ≤ vp / 1024 < 1024) as Hi by dlia. rewrite !mapping_eq. unfold pte_at.
  rewrite (agree_pde s s'), (agree_table s s') by done. destruct (pte_is_present (pde_at s (vp / 1024))) eqn:Hp; [|done].
  rewrite (proj2 Ha); [done|]. apply table_not_foreign; try done. dlia.
Qed.

Lemma agree_space s s' vp : vm_ok s → agree s s' → 0 ≤ vp < 2 ^ 20 → space s' vp = space s vp.
Proof. intros. unfold space. by rewrite (agree_mapping s s'). Qed.

Lemma agree_foreign s s' pg : vm_ok s → agree s s' → (foreign s' pg ↔ foreign s pg).
Proof.
  intros Hok Ha. unfold foreign. rewrite (proj1 Ha). split; intros [H1 H2]; (split; [done|]); intros i Hi.
  - rewrite <- (agree_pde s s'), <- (agree_table s s') by (done || lia). by apply H2.
  - rewrite (agree_pde s s'), (agree_table s s') by (done || lia). by apply H2.
Qed.

Lemma agree_trans s1 s2 s3 : vm_ok s1 → agree s1 s2 → agree s2 s3 → agree s1 s3.
Proof.
  intros Hok Ha [Hc Hm]. split; [rewrite Hc; apply Ha|]. intros x Hx. rewrite Hm; [by apply Ha|]. by rewrite agree_foreign.
Qed.

Lemma agree_ok s s' :
  vm_ok s → agree s s' → (∀ x, 0 ≤ pm s' x < 2 ^ 32) → fs_ok (frames s') →
  (∀ b, fs_used (frames s) b → foreign s b ∨ fs_used (frames s') b) →
  (∀ vp f, tlb s' !! vp = Some f → 0 ≤ vp < 2 ^ 20 ∧ mapping s vp = Some f) → vm_ok s'.
Proof.
  intros Hok Ha Hw Hf Hk Ht. pose proof Hok as [H1 H2 H3 H4 H5 H6 _ _]. destruct (Ha) as [Hc _]. split; try done.
  - by rewrite Hc.
  - by rewrite (agree_pde s s'), Hc.
  - intros i Hi. rewrite (agree_pde s s'), (agree_table s s'), Hc by (done || lia). intros Hp. destruct (H4 i Hi Hp) as [? Hu].
    split; [done|]. destruct (Hk _ Hu) as [[_ Hf']|]; [|done]. by apply Hf' in Hp.
  - intros i j Hi Hj. rewrite !(agree_pde s s'), !(agree_table s s') by (done || lia). auto.
  - rewrite Hc. by destruct (Hk _ H6) as [[? _]|].
  - intros vp f E. destruct (Ht vp f E). split; [done|]. by rewrite (agree_mapping s s').
Qed.

(** Only the cached translation of page [vp], and perhaps that of the directory,
    is new. *)
Definition quiet (vp : Z) s s' : Prop :=
  frames s' = frames s ∧ dirs s' = dirs s ∧ current_directory s' = current_directory s ∧
  ∀ q, q ≠ vp → q ≠ dir_page → tlb s' !! q = tlb s !! q.

Lemma quiet_trans vp s1 s2 s3 : quiet vp s1 s2 → quiet vp s2 s3 → quiet vp s1 s3.
Proof.
  intros (? & ? & ? & Ht) (? & ? & ? & Ht'). split_and!; try congruence. intros q Hq1 Hq2. by rewrite Ht', Ht.
Qed.

Lemma translate_any s v f :
  vm_ok s → 0 ≤ v < 2 ^ 32 → mapping s (v / 4096) = Some f →
  ∃ s', translate v s = Ret (f + v mod 4096, s') ∧ vm_ok s' ∧ pm s' = pm s ∧ cr3 s' = cr3 s ∧
    frames s' = frames s ∧ dirs s' = dirs s ∧ current_directory s' = current_directory s ∧
    ∀ q, q ≠ v / 4096 → tlb s' !! q = tlb s !! q.
Proof.
  intros Hok Hv Hm. unfold translate. rewrite bind_get. cbv zeta. destruct (tlb s !! (v / 4096)) as [g|] eqn:E.
  - destruct (vo_tlb _ Hok _ _ E) as [_ Hg]. rewrite Hm in Hg. injection Hg as <-. by exists s.
  - unfold mapping in Hm. rewrite Hm, bind_modify. eexists. split; [reflexivity|]. split_and!; try done.
    + destruct Hok as [H1 H2 H3 H4 H5 H6 H7 H8]. split; try done. intros vp g. cbn [tlb with_tlb].
      rewrite lookup_insert_Some. intros [(<- & <-)|(_ & Hg)]; [|by apply H7]. split; [dlia | exact Hm].
    + intros q Hq. by apply lookup_insert_ne.
Qed.

(** [s'] is [s] after the memory became [f], by writes to foreign frames. *)
Record poked (vp : Z) s s' (f : Z → Z) : Prop := {
  pk_ok : vm_ok s';
  pk_agree : agree s s';
  pk_pm : ∀ x, pm s' x = f x;
  pk_quiet : quiet vp s s';
}.

Lemma poked_refl vp s : vm_ok s → poked vp s s (pm s).
Proof. done. Qed.

Lemma poked_trans vp s1 s2 s3 f g : vm_ok s1 → poked vp s1 s2 f → poked vp s2 s3 g → poked vp s1 s3 g.
Proof.
  intros Hok [H1 H2 H3 H4] [H1' H2' H3' H4']. split; try done; [by eapply agree_trans | by eapply quiet_trans].
Qed.

Lemma poked_ext vp s s' f g : (∀ x, f x = g x) → poked vp s s' f → poked vp s s' g.
Proof. intros E [H1 H2 H3 H4]. split; try done. intros x. by rewrite H3. Qed.

Lemma load_any s v f :
  vm_ok s → 0 ≤ v < 2 ^ 32 → mapping s (v / 4096) = Some f →
  ∃ s', load v s = Ret (pm s (f + v mod 4096), s') ∧ poked (v / 4096) s s' (pm s).
Proof.
  intros Hok Hv Hm. destruct (translate_any s v f Hok Hv Hm) as (s' & E & Hok' & Hp & Hc & Hq). exists s'. split.
  - unfold load. by rewrite (bind_Ret _ _ _ _ _ E), bind_get, Hp.
  - split; try done; [by split; [|intros; rewrite Hp]|by intros x; rewrite Hp|].
    destruct Hq as (? & ? & ? & Ht). split_and!; try done. intros q Hq _. by apply Ht.
Qed.

Lemma store_foreign s v pg w :
  vm_ok s → 0 ≤ v < 2 ^ 32 → mapping s (v / 4096) = Some pg → pg mod 4096 = 0 → foreign s pg → 0 ≤ w < 2 ^ 32 →
  ∃ s', store v w s = Ret (tt, s') ∧ poked (v / 4096) s s' (set_word (pg + v mod 4096) w (pm s)).
Proof.
  intros Hok Hv Hm Hal Hf Hw. destruct (translate_any s v pg Hok Hv Hm) as (t & E & Hokt & Hp & Hc & Hfr & Hd & Hcu & Ht).
  set (s' := with_pm (set_word (pg + v mod 4096) w (pm t)) t).
  assert (agree s s') as Ha.
  { split; [done|]. intros x Hx. cbn. rewrite set_word_ne, Hp; [done|]. intros ->. apply Hx.
    replace (page_of _) with pg; [done|]. unfold page_of. dlia. }
  exists s'. split; [unfold store; by rewrite (bind_Ret _ _ _ _ _ E)|]. split.
  - apply (agree_ok s s'); try done; cbn.
    + intros x. unfold set_word. destruct (x =? _); [done|]. apply (vo_words _ Hokt).
    + rewrite Hfr. apply Hok.
    + rewrite Hfr. by right.
    + intros vp f Hl. destruct (vo_tlb _ Hokt vp f Hl) as [? Hm']. split; [done|]. unfold mapping in *. by rewrite Hp, Hc in Hm'.
  - done.
  - intros x. cbn. by rewrite Hp.
  - split_and!; try done. intros q Hq _. by apply Ht.
Qed.

(** Access to the current directory through its own entry 1023. *)
Lemma dir_mapping s i : vm_ok s → 0 ≤ i < 1024 → mapping s ((PAGE_DIR_VIRT_ADDR + 4 * i) / 4096) = Some (cr3 s).
Proof.
  intros Hok Hi. destruct (dir_address i Hi) as (_ & -> & _). destruct (recursive_entry s Hok) as [Hp Ht].
  by rewrite (recursive_mapping s 1023 Hok ltac:(lia)), Hp, Ht.
Qed.

Lemma quiet_dir vp s s' : quiet dir_page s s' → quiet vp s s'.
Proof. intros (? & ? & ? & Ht). split_and!; try done. intros q _ Hq. by apply Ht. Qed.

Lemma load_dir_quiet vp s i :
  vm_ok s → 0 ≤ i < 1024 →
  ∃ s', load (PAGE_DIR_VIRT_ADDR + 4 * i) s = Ret (pde_at s i, s') ∧ poked vp s s' (pm s).
Proof.
  intros Hok Hi. destruct (dir_address i Hi) as (Hr & Hvp & Hoff).
  destruct (load_any s _ _ Hok Hr (dir_mapping s i Hok Hi)) as (s' & E & [H1 H2 H3 H4]).
  exists s'. rewrite E, Hoff. split; [done|]. rewrite Hvp in H4. split; try done. by apply quiet_dir.
Qed.

Lemma store_dir_quiet vp s i e :
  vm_ok s → 0 ≤ i < 1024 →
  ∃ u, store (PAGE_DIR_VIRT_ADDR + 4 * i) e s = Ret (tt, with_pde u i e) ∧ poked vp s u (pm s).
Proof.
  intros Hok Hi. destruct (dir_address i Hi) as (Hr & Hvp & Hoff).
  destruct (translate_any s _ _ Hok Hr (dir_mapping s i Hok Hi)) as (u & E & Hu & Hp & Hc & Hf & Hd & Hcu & Ht).
  exists u. unfold store. rewrite (bind_Ret _ _ _ _ _ E), Hoff, <- Hc. split; [done|].
  split; [done | by split; [|intros; rewrite Hp] | intros x; by rewrite Hp|]. split_and!; try done.
  intros q _ Hq. apply Ht. by rewrite Hvp.
Qed.

Lemma invlpg_ok s v : vm_ok s → vm_ok (with_tlb (delete (v / 4096) (tlb s)) s).
Proof.
  intros [H1 H2 H3 H4 H5 H6 H7 H8]. split; try done. intros vp f. cbn. rewrite lookup_delete_Some. intros [_ E]. by apply H7.
Qed.

(** The words [lo] to [hi - 1] of frame [pg] replaced by [g]. *)
Definition filled (pg lo hi : Z) (g m : Z → Z) : Z → Z := λ x,
  if ((x - pg) mod 4 =? 0) && (lo <=? (x - pg) / 4) && ((x - pg) / 4 <? hi) then g ((x - pg) / 4) else m x.

Lemma filled_at pg lo hi g m k : lo ≤ k < hi → filled pg lo hi g m (pg + 4 * k) = g k.
Proof.
  intros Hk. unfold filled. replace (pg + 4 * k - pg) with (k * 4) by lia. rewrite Z.mod_mul, Z.div_mul by lia. by zbool.
Qed.

Lemma filled_elsewhere pg lo hi g m x : pg mod 4096 = 0 → 0 ≤ lo → hi ≤ 1024 → page_of x ≠ pg → filled pg lo hi g m x = m x.
Proof.
  intros Hal Hlo Hhi Hx. unfold filled. destruct (Z.eqb_spec ((x - pg) mod 4) 0), (Z.leb_spec lo ((x - pg) / 4)), (Z.ltb_spec ((x - pg) / 4) hi); try done.
  exfalso. apply Hx. unfold page_of. dlia.
Qed.

Lemma filled_step pg lo j g (m : Z → Z) x :
  lo ≤ j → set_word (pg + 4 * j) (g j) (filled pg lo j g m) x = filled pg lo (j + 1) g m x.
Proof.
  intros Hj. unfold set_word. destruct (Z.eqb_spec x (pg + 4 * j)) as [->|Hx]; [by rewrite filled_at by lia|].
  unfold filled. destruct (Z.eqb_spec ((x - pg) mod 4) 0); [|done].
  destruct (Z.leb_spec lo ((x - pg) / 4)), (Z.ltb_spec ((x - pg) / 4) j), (Z.ltb_spec ((x - pg) / 4) (j + 1)); try done; exfalso; dlia.
Qed.

(** A loop that writes the words of a foreign frame one after the other. *)
Lemma fill_loop s v pg n lo g body :
  vm_ok s → 0 ≤ v < 2 ^ 32 → v mod 4096 = 0 → mapping s (v / 4096) = Some pg → pg mod 4096 = 0 → foreign s pg →
  0 ≤ lo → lo + Z.of_nat n ≤ 1024 → (∀ i, lo ≤ i < lo + Z.of_nat n → 0 ≤ g i < 2 ^ 32) →
  (∀ i t, lo ≤ i < lo + Z.of_nat n → vm_ok t → agree s t → ∃ t', body i t = store (v + 4 * i) (g i) t' ∧ poked (v / 4096) t t' (pm t)) →
  ∃ s', for_up n lo body s = Ret (tt, s') ∧ poked (v / 4096) s s' (filled pg lo (lo + Z.of_nat n) g (pm s)).
Proof.
  intros Hok Hv Hva Hm Hal Hf Hlo Hhi Hg Hb.
  apply (for_up_inv (λ j t, poked (v / 4096) s t (filled pg lo j g (pm s)))).
  { apply (poked_ext _ _ _ (pm s)); [|by apply poked_refl]. intros x. unfold filled.
    destruct (Z.leb_spec lo ((x - pg) / 4)), (Z.ltb_spec ((x - pg) / 4) lo); rewrite ?andb_false_r; try done. lia. }
  intros j t Hj Ht. destruct (Hb j t Hj (pk_ok _ _ _ _ Ht) (pk_agree _ _ _ _ Ht)) as (t1 & -> & Ht1).
  pose proof (poked_trans _ _ _ _ _ _ Hok Ht Ht1) as Ht1'. destruct (Ht1') as [Hok1 Ha1 _ _].
  assert ((v + 4 * j) / 4096 = v / 4096 ∧ (v + 4 * j) mod 4096 = 4 * j ∧ 0 ≤ v + 4 * j < 2 ^ 32) as (Hq & Hr & Hb') by (split_and!; dlia).
  destruct (store_foreign t1 (v + 4 * j) pg (g j)) as (t' & E & Ht'); try done.
  { rewrite Hq, (agree_mapping s t1); [done | done | done | dlia]. } { by apply (agree_foreign s t1). } { by apply Hg. }
  rewrite Hq, Hr in Ht'. exists t'. split; [done|]. eapply poked_ext; [|exact (poked_trans _ _ _ _ _ _ Hok Ht1' Ht')].
  intros x. rewrite <- filled_step by lia. unfold set_word. destruct (x =? pg + 4 * j); [done|].
  rewrite (pk_pm _ _ _ _ Ht1 x). apply (pk_pm _ _ _ _ Ht).
Qed.

Lemma clear_foreign s v pg :
  vm_ok s → 0 ≤ v < 2 ^ 32 → v mod 4096 = 0 → mapping s (v / 4096) = Some pg → pg mod 4096 = 0 → foreign s pg →
  ∃ s', clear_page v s = Ret (tt, s') ∧ poked (v / 4096) s s' (filled pg 0 1024 (λ _, 0) (pm s)).
Proof.
  intros Hok Hv Hva Hm Hal Hf. apply (fill_loop s v pg 1024 0 (λ _, 0)); try done; try lia.
  intros i t _ Ht _. exists t. split; [done|]. by apply poked_refl.
Qed.

Lemma on_frames_Ret {A} (c : M P A) s a p : c (frames s) = Ret (a, p) → on_frames c s = Ret (a, with_frames p s).
Proof. apply (zoom_Ret frames with_frames c). Qed.

Lemma with_dirs_ok s d : vm_ok s → vm_ok (with_dirs d s).
Proof. by intros [H1 H2 H3 H4 H5 H6 H7 H8]. Qed.

Lemma unused_foreign s pg : vm_ok s → ¬ fs_used (frames s) pg → foreign s pg.
Proof.
  intros Hok Hu. split; [intros ->; apply Hu, (vo_root _ Hok)|]. intros i Hi Hp <-. by apply Hu, (vo_tables _ Hok i Hi Hp).
Qed.
End Access.

(** ** The temporary page table in entry 767 *)

(** The first 4 MB of physical memory are visible at 0xC0000000. *)
Definition direct_map {P} `{!FrameSource P} (s : vm (P := P)) : Prop :=
  ∀ p, 0 ≤ p < 1024 → mapping s (0xC0000 + p) = Some (p * 4096).

Section Window.
Context {P : Type} `{!FrameSource P}.
Context (s : vm (P := P)) (a t : Z).
Context (Hok : vm_ok s) (Ha : a mod 4096 = 0) (Har : 0 < a < 2 ^ 32) (Ht : t mod 4096 = 0) (Htr : 0 < t < 2 ^ 32)
  (Hat : a ≠ t) (Hfa : foreign s a) (Hft : foreign s t) (Hut : fs_used (frames s) t)
  (H767 : pte_is_present (pde_at s 767) = false).

(** The address space [s] with its entry 767 set to the table [t] that shows [a]. *)
Record window (s' : vm (P := P)) : Prop := {
  wi_ok : vm_ok s';
  wi_cr3 : cr3 s' = cr3 s;
  wi_pm : ∀ x, page_of x ≠ a → page_of x ≠ t → x ≠ cr3 s + 4 * 767 → pm s' x = pm s x;
  wi_pde : pde_at s' 767 = pde_create t 3;
  wi_pt : ∀ k, 0 ≤ k < 1024 → pm s' (t + 4 * k) = if k =? 0 then pte_create a 3 else 0;
  wi_foreign : foreign s' a;
  wi_tlb : tlb s' !! (1023 * 1024 + 767) = None;
  wi_frames : frames s' = frames s;
  wi_dirs : dirs s' = dirs s;
  wi_current : current_directory s' = current_directory s;
}.

Lemma window_pde s' j : window s' → 0 ≤ j < 1024 → j ≠ 767 → pde_at s' j = pde_at s j.
Proof.
  intros W Hj Hne. unfold pde_at. rewrite (wi_cr3 _ W). destruct (vo_cr3 _ Hok).
  apply (wi_pm _ W); [..|lia]; rewrite page_of_word by done; apply not_eq_sym; [apply Hfa | apply Hft].
Qed.

Lemma window_table s' : window s' → table s' 767 = t ∧ pte_is_present (pde_at s' 767) = true.
Proof.
  intros W. unfold table. rewrite (wi_pde _ W). change (pde_create t 3) with (pte_create t 3). split.
  - change (pte_get_addr (pte_create t 3) = t). rewrite pte_create_addr by lia. dlia.
  - by rewrite (pte_create_present t 3) by lia.
Qed.

Lemma window_mapping s' vp : window s' → vp / 1024 = 767 → mapping s' vp = if vp =? 767 * 1024 then Some a else None.
Proof.
  intros W Hvp. rewrite mapping_eq. unfold pte_at. rewrite Hvp. destruct (window_table s' W) as [-> ->].
  rewrite (wi_pt _ W) by dlia. destruct (Z.eqb_spec (vp mod 1024) 0), (Z.eqb_spec vp (767 * 1024)); try (exfalso; dlia); [|done].
  rewrite pte_create_present, pte_create_addr by lia. change (Z.testbit 3 0) with true. cbv match. f_equal. dlia.
Qed.

Lemma window_other s' vp :
  window s' → 0 ≤ vp < 2 ^ 20 → vp / 1024 ≠ 767 → vp ≠ 1023 * 1024 + 767 → mapping s' vp = mapping s vp.
Proof.
  intros W Hvp Hne Hne'. assert (0 ≤ vp / 1024 < 1024 ∧ 0 ≤ vp mod 1024 < 1024) as [Hi Hk] by dlia.
  rewrite !mapping_eq. unfold pte_at, table. rewrite !(window_pde s') by done. fold (table s (vp / 1024)).
  destruct (pte_is_present (pde_at s (vp / 1024))) eqn:Hp; [|done]. destruct (table_aligned s (vp / 1024) Hok).
  rewrite (wi_pm _ W); [done | | |].
  - intros E. apply (table_not_foreign s (vp / 1024) (vp mod 1024) Hok Hi Hk Hp). by rewrite E.
  - intros E. apply (table_not_foreign s (vp / 1024) (vp mod 1024) Hok Hi Hk Hp). by rewrite E.
  - destruct (decide (vp / 1024 = 1023)) as [E|]; [rewrite E, (proj2 (recursive_entry s Hok)); dlia|].
    destruct (vo_tables _ Hok (vp / 1024) ltac:(lia) Hp) as [Hn _]. destruct (vo_cr3 _ Hok). by apply page_word_ne.
Qed.

(** Writing to [a] keeps the window open. *)
Lemma window_poke s1 s2 f :
  window s1 → poked (767 * 1024) s1 s2 f → (∀ x, page_of x ≠ a → f x = pm s1 x) → window s2.
Proof.
  intros W [Hok2 Hag Hpm (Hf & Hd & Hc & Htl)] Hx. pose proof (wi_ok _ W) as Hok1.
  split; try done; rewrite ?Hf, ?Hd, ?Hc, ?(proj1 Hag); try apply W.
  - intros x H1 H2 H3. rewrite Hpm, Hx by done. by apply W.
  - rewrite (agree_pde s1 s2) by (done || lia). apply W.
  - intros k Hk. rewrite Hpm, Hx; [by apply W|]. by rewrite page_of_word.
  - apply (agree_foreign s1 s2); try done. apply W.
  - rewrite Htl by (unfold dir_page; lia). apply W.
Qed.

Lemma window_intro u :
  vm_ok u → agree s u → frames u = frames s → dirs u = dirs s → current_directory u = current_directory s →
  (∀ x, pm u x = set_word t (pte_create a 3) (filled t 0 1024 (λ _, 0) (pm s)) x) →
  window (with_tlb (delete (TEMP_VIRT / 4096) (tlb (with_pde u 767 (pde_create t 3)))) (with_pde u 767 (pde_create t 3))).
Proof.
  intros Hu Hau Hf Hd Hc Hpm. set (w := with_pde u 767 (pde_create t 3)).
  assert (pde_get_addr (pde_create t 3) = t) as Hadr
    by (change (pte_get_addr (pte_create t 3) = t); rewrite pte_create_addr by lia; dlia).
  assert (pte_is_present (pde_at u 767) = false) as Hp by (by rewrite (agree_pde s u) by (done || lia)).
  pose proof (proj2 (agree_foreign s u t Hok Hau) Hft) as [Hf1 Hf2]. destruct (Hau) as [Hcr _]. destruct (vo_cr3 _ Hok) as [Hc0 Hcb].
  assert (vm_ok w) as Hw.
  { apply with_pde_ok; rewrite ?Hadr, ?Hf; try done; try lia. apply (pte_create_bounds t 3). lia. }
  assert (∀ x, page_of x ≠ cr3 s → pm w x = pm u x) as Hpw.
  { intros x Hx. unfold w, with_pde. cbn. apply set_word_ne. intros ->. apply Hx. rewrite Hcr. by apply page_of_word. }
  split; cbn; try done.
  - by apply (invlpg_ok w TEMP_VIRT).
  - intros x H1 H2 H3. unfold set_word. rewrite Hcr, (proj2 (Z.eqb_neq _ _)), Hpm by done.
    rewrite set_word_ne by (intros ->; apply H2; unfold page_of; dlia). by apply filled_elsewhere.
  - unfold pde_at. cbn. apply set_word_eq.
  - intros k Hk. etransitivity; [apply (Hpw (t + 4 * k)); rewrite page_of_word by done; apply Hft|]. rewrite Hpm.
    destruct (Z.eqb_spec k 0) as [->|]; [rewrite Z.mul_0_r, Z.add_0_r; apply set_word_eq|].
    rewrite set_word_ne by lia. by apply filled_at.
  - split; cbn; [rewrite Hcr; apply Hfa|]. intros i Hi. change (pte_is_present (pde_at w i) = true → table w i ≠ a).
    unfold table, w. rewrite !with_pde_pde. destruct (Z.eqb_spec i 767) as [->|]; [by rewrite Hadr|].
    fold (table u i). by apply (agree_foreign s u a Hok Hau).
  - destruct (delete _ (tlb u) !! _) as [f|] eqn:E; [|done]. apply lookup_delete_Some in E as [_ E].
    apply (vo_tlb _ Hu) in E as [_ E]. rewrite recursive_mapping, Hp in E by (done || lia). done.
Qed.

(** The part of [vmm_create_page_directory] up to the first access to the window. *)
Lemma open_window {B} (k : Z → M (vm (P := P)) B) :
  direct_map s → t < 0x400000 →
  ∃ s', window s' ∧
    (let temp_pt := u32 (t + 0xC0000000) in
     _ ← (if t <? 0x400000 then clear_page temp_pt else for_up 1024 0 (λ i, store (temp_pt + 4 * i) 0));
     _ ← store (temp_pt + 4 * 0) (pte_create a (Z.lor PAGE_PRESENT PAGE_WRITE));
     old_pde_767 ← load (PAGE_DIR_VIRT_ADDR + 4 * 767);
     _ ← store (PAGE_DIR_VIRT_ADDR + 4 * 767) (pde_create t (Z.lor PAGE_PRESENT PAGE_WRITE));
     _ ← vmm_invlpg TEMP_VIRT;
     k old_pde_767) s = k (pde_at s 767) s'.
Proof.
  intros Hdm Ht4. cbv zeta. rewrite u32_small, (proj2 (Z.ltb_lt t 0x400000)) by lia. set (v := t + 0xC0000000).
  assert (mapping s (v / 4096) = Some t) as Hm.
  { replace (v / 4096) with (0xC0000 + t / 4096) by (unfold v; dlia). rewrite Hdm by dlia. f_equal. dlia. }
  assert (v mod 4096 = 0 ∧ 0 ≤ v < 2 ^ 32) as [Hv0 Hv] by (unfold v; dlia).
  destruct (clear_foreign s v t Hok Hv Hv0 Hm Ht Hft) as (s1 & E1 & K1). rewrite (bind_Ret _ _ _ _ _ E1).
  destruct (K1) as [Hok1 Ha1 Hp1 _]. change (4 * 0) with 0. rewrite Z.add_0_r.
  destruct (store_foreign s1 v t (pte_create a 3)) as (s2 & E2 & K2); try done.
  { rewrite (agree_mapping s s1) by (done || dlia). done. } { by apply (agree_foreign s s1). } { apply pte_create_bounds. lia. }
  change (Z.lor PAGE_PRESENT PAGE_WRITE) with 3. rewrite (bind_Ret _ _ _ _ _ E2). rewrite Hv0, Z.add_0_r in K2.
  destruct (load_dir_quiet (v / 4096) s2 767 (pk_ok _ _ _ _ K2) ltac:(lia)) as (s3 & E3 & K3). rewrite (bind_Ret _ _ _ _ _ E3).
  destruct (store_dir_quiet (v / 4096) s3 767 (pde_create t 3) (pk_ok _ _ _ _ K3) ltac:(lia)) as (u & E4 & K4).
  rewrite (bind_Ret _ _ _ _ _ E4). unfold vmm_invlpg. rewrite bind_modify.
  pose proof (poked_trans _ _ _ _ _ _ Hok K1 K2) as K12. rewrite (agree_pde s s2) by (done || lia || apply K12).
  pose proof (poked_trans _ _ _ _ _ _ Hok (poked_trans _ _ _ _ _ _ Hok K12 K3) K4) as [Hoku Hau Hpu (Hfu & Hdu & Hcu & _)].
  assert (∀ x, pm u x = set_word t (pte_create a 3) (filled t 0 1024 (λ _, 0) (pm s)) x) as Hpm.
  { intros x. rewrite Hpu, (pk_pm _ _ _ _ K3), (pk_pm _ _ _ _ K2). unfold set_word. destruct (x =? t); [done|]. apply Hp1. }
  eexists. split; [|reflexivity]. by apply window_intro.
Qed.

(** What a directory made from [s] holds. *)
Definition new_entry (i : Z) : Z := if i <? 768 then 0 else if i =? 1023 then pte_create a 3 else pde_at s i.

Lemma fill_window {B} (k : M (vm (P := P)) B) s1 :
  window s1 →
  ∃ s2, window s2 ∧ (∀ i, 0 ≤ i < 1024 → pm s2 (a + 4 * i) = new_entry i) ∧
    (_ ← clear_page TEMP_VIRT;
     _ ← for_up 255 768 (λ i, e ← load (PAGE_DIR_VIRT_ADDR + 4 * i); store (TEMP_VIRT + 4 * i) e);
     _ ← store (TEMP_VIRT + 4 * 1023) (pde_create a (Z.lor PAGE_PRESENT PAGE_WRITE));
     k) s1 = k s2.
Proof.
  intros W1. assert (∀ u, window u → mapping u (TEMP_VIRT / 4096) = Some a) as Hm by (intros u Hu; by rewrite (window_mapping u)).
  assert (0 ≤ TEMP_VIRT < 2 ^ 32) as Hv by lia.
  destruct (clear_foreign s1 TEMP_VIRT a (wi_ok _ W1) Hv eq_refl (Hm _ W1) Ha (wi_foreign _ W1)) as (s2 & E2 & K2).
  rewrite (bind_Ret _ _ _ _ _ E2).
  assert (window s2) as W2 by (eapply window_poke; [exact W1 | exact K2 | intros x Hx; by apply filled_elsewhere]).
  destruct (fill_loop s2 TEMP_VIRT a 255 768 (pde_at s) (λ i, e ← load (PAGE_DIR_VIRT_ADDR + 4 * i); store (TEMP_VIRT + 4 * i) e)
    (wi_ok _ W2) Hv eq_refl (Hm _ W2) Ha (wi_foreign _ W2)) as (s3 & E3 & K3); try lia.
  { intros i _. apply (vo_words _ Hok). }
  { intros i t' Hi Ht' Hag. destruct (load_dir_quiet (TEMP_VIRT / 4096) t' i Ht' ltac:(lia)) as (t1 & E & Kt).
    exists t1. rewrite (bind_Ret _ _ _ _ _ E), (agree_pde s2 t'), (window_pde s2) by (done || lia || apply W2). done. }
  rewrite (bind_Ret _ _ _ _ _ E3).
  assert (window s3) as W3 by (eapply window_poke; [exact W2 | exact K3 | intros x Hx; by apply filled_elsewhere]).
  destruct (store_foreign s3 (TEMP_VIRT + 4 * 1023) a (pte_create a 3) (wi_ok _ W3)) as (s4 & E4 & K4); try done.
  { exact (Hm _ W3). } { apply W3. } { apply pte_create_bounds. lia. }
  change (pde_create a (Z.lor PAGE_PRESENT PAGE_WRITE)) with (pte_create a 3). rewrite (bind_Ret _ _ _ _ _ E4).
  change ((TEMP_VIRT + 4 * 1023) mod 4096) with (4 * 1023) in K4. exists s4. split_and!; [| |done].
  - eapply window_poke; [exact W3 | exact K4|]. intros x Hx. apply set_word_ne. intros ->. apply Hx. apply (page_of_word a 1023 Ha). lia.
  - intros i Hi. rewrite (pk_pm _ _ _ _ K4). unfold new_entry. destruct (Z.eqb_spec i 1023) as [->|].
    + rewrite set_word_eq. done.
    + rewrite set_word_ne, (pk_pm _ _ _ _ K3) by lia. destruct (Z.ltb_spec i 768); [|rewrite filled_at by lia; done].
      unfold filled at 1. rewrite (proj2 (Z.leb_gt 768 _)), andb_false_r by dlia. cbn [andb].
      rewrite (pk_pm _ _ _ _ K2). by apply filled_at.
Qed.

Lemma close_window {B} (k : M (vm (P := P)) B) s1 p :
  window s1 → fs_free t (frames s) = Ret (tt, p) → fs_ok p → (∀ b, fs_used (frames s) b → b ≠ t → fs_used p b) →
  ∃ s', vm_ok s' ∧ agree s s' ∧ frames s' = p ∧ dirs s' = dirs s ∧ current_directory s' = current_directory s ∧
    (∀ x, page_of x = a → pm s' x = pm s1 x) ∧
    (_ ← store (PAGE_DIR_VIRT_ADDR + 4 * 767) (pde_at s 767);
     _ ← vmm_invlpg TEMP_VIRT;
     _ ← on_frames (fs_free t);
     k) s1 = k s'.
Proof.
  intros W Ep Hp Hpu. pose proof (wi_ok _ W) as Hok1.
  destruct (store_dir_quiet (767 * 1024) s1 767 (pde_at s 767) Hok1 ltac:(lia)) as (u & E & K).
  assert (window u) as Wu by (eapply window_poke; [exact W | exact K | done]). rewrite (bind_Ret _ _ _ _ _ E).
  unfold vmm_invlpg. rewrite bind_modify. set (w := with_tlb _ _).
  assert (fs_free t (frames w) = Ret (tt, p)) as Ew by (cbn; by rewrite (wi_frames _ Wu)).
  rewrite (bind_Ret _ _ _ _ _ (on_frames_Ret _ w _ _ Ew)). exists (with_frames p w).
  destruct (vo_cr3 _ Hok) as [Hc0 Hcb]. pose proof (wi_cr3 _ Wu) as Hcr.
  assert (agree s (with_frames p w)) as Hag.
  { split; [done|]. intros x Hx. cbn. unfold set_word. rewrite Hcr. destruct (Z.eqb_spec x (cr3 s + 4 * 767)) as [->|]; [done|].
    apply (wi_pm _ Wu); [| |done]; intros Hx'; apply Hx; by rewrite Hx'. }
  split_and!; try done; [|apply Wu|apply Wu|].
  - apply (agree_ok s); try done; cbn.
    + intros x. unfold set_word. destruct (x =? _); [apply (vo_words _ Hok) | apply (vo_words _ (wi_ok _ Wu))].
    + intros b Hb. destruct (decide (b = t)) as [->|]; [by left | right; auto].
    + intros vp f. rewrite lookup_delete_Some. change (TEMP_VIRT / 4096) with (767 * 1024). intros [Hne Hl].
      destruct (vo_tlb _ (wi_ok _ Wu) vp f Hl) as [Hvp Hm]. split; [done|]. destruct (decide (vp = 1023 * 1024 + 767)) as [->|].
      { by rewrite (wi_tlb _ Wu) in Hl. }
      destruct (decide (vp / 1024 = 767)); [|by rewrite (window_other u) in Hm].
      rewrite (window_mapping u), (proj2 (Z.eqb_neq _ _)) in Hm by done. done.
  - intros x Hx. cbn. rewrite set_word_ne; [apply (pk_pm _ _ _ _ K)|]. intros ->. rewrite Hcr, page_of_word in Hx by (done || lia).
    by destruct Hfa.
Qed.

(** The whole of [vmm_create_page_directory] after its allocations. *)
Lemma create_in_window p mem :
  direct_map s → t < 0x400000 → fs_free t (frames s) = Ret (tt, p) → fs_ok p →
  (∀ b, fs_used (frames s) b → b ≠ t → fs_used p b) →
  ∃ s',
    (let temp_pt := u32 (t + 0xC0000000) in
     _ ← (if t <? 0x400000 then clear_page temp_pt else for_up 1024 0 (λ i, store (temp_pt + 4 * i) 0));
     _ ← store (temp_pt + 4 * 0) (pte_create a (Z.lor PAGE_PRESENT PAGE_WRITE));
     old_pde_767 ← load (PAGE_DIR_VIRT_ADDR + 4 * 767);
     _ ← store (PAGE_DIR_VIRT_ADDR + 4 * 767) (pde_create t (Z.lor PAGE_PRESENT PAGE_WRITE));
     _ ← vmm_invlpg TEMP_VIRT;
     _ ← clear_page TEMP_VIRT;
     _ ← for_up 255 768 (λ i, e ← load (PAGE_DIR_VIRT_ADDR + 4 * i); store (TEMP_VIRT + 4 * i) e);
     _ ← store (TEMP_VIRT + 4 * 1023) (pde_create a (Z.lor PAGE_PRESENT PAGE_WRITE));
     _ ← store (PAGE_DIR_VIRT_ADDR + 4 * 767) old_pde_767;
     _ ← vmm_invlpg TEMP_VIRT;
     _ ← on_frames (fs_free t);
     mret mem : M (vm (P := P)) Z) s = Ret (mem, s') ∧ vm_ok s' ∧ agree s s' ∧ frames s' = p ∧ dirs s' = dirs s ∧
    current_directory s' = current_directory s ∧ ∀ i, 0 ≤ i < 1024 → pm s' (a + 4 * i) = new_entry i.
Proof.
  intros Hdm Hlow Ep Hp Hpu. cbv zeta.
  edestruct @open_window as (s1 & W1 & E1); [exact Hdm | exact Hlow|]. cbv zeta in E1.
  edestruct (fill_window (B := Z)) as (s2 & W2 & Hn & E2); [exact W1|].
  destruct (close_window (mret mem) s2 p W2 Ep Hp Hpu) as (s' & H1 & H2 & H3 & H4 & H5 & H6 & E3).
  exists s'. rewrite E1, E2, E3. split_and!; try done. intros i Hi. rewrite <- Hn by done. apply H6. by apply page_of_word.
Qed.
End Window.

(** ** Creating and using a directory *)

Section Create.
Context {P : Type} `{!FrameSource P}.
Implicit Types s : vm (P := P).


Definition same_used (p p' : P) : Prop := ∀ b, fs_used p' b ↔ fs_used p b.

(** The successful outcome, in terms of the memory. *)
Record made s s' (mem junk a : Z) : Prop := {
  mk_aligned : a mod 4096 = 0 ∧ 0 < a < 2 ^ 32;
  mk_new : ¬ fs_used (frames s) a;
  mk_used : ∀ b, fs_used (frames s') b ↔ fs_used (frames s) b ∨ b = a;
  mk_dirs : dirs s' = <[mem := {| physical_addr := a; entries := junk |}]> (dirs s);
  mk_entries : ∀ i, 0 ≤ i < 1024 → pm s' (a + 4 * i) = new_entry s a i;
}.

Lemma create_spec s mem junk :
  vm_ok s → mem ≠ 0 → direct_map s → pte_is_present (pde_at s 767) = false →
  (∀ a p t p', fs_alloc (frames s) = Ret (a, p) → fs_alloc p = Ret (t, p') → t < 0x400000) →
  ∃ pd s', vmm_create_page_directory mem junk s = Ret (pd, s') ∧ vm_ok s' ∧ agree s s' ∧
    current_directory s' = current_directory s ∧ keeps_used (frames s) (frames s') ∧
    (pd = 0 ∧ out_of_frames s ∧ dirs s' = delete mem (dirs s) ∧ same_used (frames s) (frames s') ∨
     pd = mem ∧ ∃ a, made s s' mem junk a).
Proof.
  intros Hok Hmem Hdm H767 Hlow. unfold vmm_create_page_directory. rewrite (proj2 (Z.eqb_neq mem 0)) by done.
  destruct (fs_alloc_ok (frames s) (vo_frames _ Hok)) as (a & p1 & E1 & Hp1 & Hk1 & Ha).
  rewrite (bind_Ret _ _ _ _ _ (on_frames_Ret _ s _ _ E1)), bind_modify. set (s1 := with_dirs _ _).
  assert (∀ p, fs_ok p → keeps_used (frames s) p → vm_ok (with_frames p s1)) as Hok1
    by (intros p Hp Hk; by apply (with_dirs_ok (with_frames p s)), with_frames_ok).
  destruct (Z.eqb_spec a 0) as [->|Ha0].
  { exists 0, (with_dirs (delete mem (dirs s)) (with_frames p1 s)). split_and!; try done.
    - unfold free_directory. rewrite bind_modify. unfold s1. cbn. by rewrite delete_insert_eq.
    - by apply with_dirs_ok, with_frames_ok.
    - left. split_and!; try done; [exists (frames s), p1; by split; [intros b|]|].
      destruct (fs_alloc_exact (frames s) 0 p1 (vo_frames _ Hok) E1) as [Hx _]. intros b. split; [|by apply Hk1].
      intros Hb. by destruct (Hx b Hb) as [?|[? _]]. }
  destruct (Ha Ha0) as (Hal & Har & Hna & Hua). destruct (fs_alloc_ok p1 Hp1) as (t & p2 & E2 & Hp2 & Hk2 & Ht).
  erewrite bind_Ret; [|apply on_frames_Ret; exact E2].
  assert (keeps_used (frames s) p2) as Hk by (intros b Hb; by apply Hk2, Hk1).
  destruct (Z.eqb_spec t 0) as [->|Ht0].
  { destruct (fs_free_ok p2 a Hp2 Hal Har (Hk2 _ Hua)) as (p3 & E3 & Hp3 & Hk3).
    assert (keeps_used (frames s) p3) as Hk' by (intros b Hb; apply Hk3; [by apply Hk | by intros ->]).
    exists 0, (with_dirs (delete mem (dirs s)) (with_frames p3 s)). split_and!; try done.
    - erewrite bind_Ret; [|apply on_frames_Ret; exact E3]. unfold free_directory. rewrite bind_modify.
      unfold s1. cbn. by rewrite delete_insert_eq.
    - by apply with_dirs_ok, with_frames_ok.
    - left. split_and!; try done; [by exists p1, p2|].
      destruct (fs_alloc_exact _ _ _ (vo_frames _ Hok) E1) as (Hx1 & Hm1 & _), (fs_alloc_exact _ _ _ Hp1 E2) as (Hx2 & _ & Hm2).
      destruct (fs_free_exact _ _ _ Hp2 Hal Har E3) as [Hx3 Hx4]. intros b. split; [|by apply Hk']. intros Hb.
      destruct (Hx2 b (Hx3 b Hb)) as [Hb2|[? _]]; [|done]. destruct (Hx1 b Hb2) as [?|[_ ->]]; [done|].
      exfalso. exact (Hx4 (Hm2 a (Hm1 Ha0)) Hb). }
  destruct (Ht Ht0) as (Htal & Htr & Hnt & Hut). set (s2 := with_frames p2 s1).
  assert (vm_ok s2) as Hok2 by (by apply Hok1).
  assert (a ≠ t) as Hat by (intros ->; done). assert (¬ fs_used (frames s) t) as Hnt' by (intros ?; by apply Hnt, Hk1).
  assert (foreign s a ∧ foreign s t) as [Hfa Hft] by (split; by apply unused_foreign).
  destruct (fs_free_ok p2 t Hp2 Htal Htr Hut) as (p3 & E3 & Hp3 & Hk3).
  destruct (create_in_window s2 a t Hok2 Hal Har Htal Htr Hat Hfa Hft Hut H767 p3 mem)
    as (s' & E & Hok' & Hag & Hfr & Hd & Hc & Hnew); try done; [by eapply Hlow|].
  exists mem, s'. split_and!; try done; [rewrite Hfr; intros b Hb; apply Hk3; [by apply Hk | by intros ->]|].
  right. split; [done|]. exists a. split; try done. rewrite Hfr. intros b.
  destruct (fs_alloc_exact _ _ _ (vo_frames _ Hok) E1) as (Hx1 & _), (fs_alloc_exact _ _ _ Hp1 E2) as (Hx2 & Hm2 & _).
  destruct (fs_free_exact _ _ _ Hp2 Htal Htr E3) as [Hx3 Hx4]. split.
  - intros Hb. destruct (Hx2 b (Hx3 b Hb)) as [Hb2|[_ ->]]; [destruct (Hx1 b Hb2) as [?|[_ ?]]; [by left | by right]|].
    exfalso. exact (Hx4 (Hm2 Ht0) Hb).
  - intros [Hb| ->]; (apply Hk3; [|by intros ->]); [by apply Hk | by apply Hk2].
Qed.

Lemma switch_to s mem d :
  mem ≠ 0 → dirs s !! mem = Some d →
  vmm_switch_page_directory mem s = Ret (tt, with_cr3 (physical_addr d) (with_current mem s)).
Proof.
  intros Hmem Hd. unfold vmm_switch_page_directory. rewrite (proj2 (Z.eqb_neq mem 0)), bind_modify by done.
  unfold gets. rewrite (bind_Ret _ _ _ _ _ eq_refl). cbn. by rewrite Hd.
Qed.



(** Two address spaces part ways: when the kernel maps a page of its own half
    whose page table did not exist when the directory was created, the page is
    there in the current address space and missing in the new one. *)
Theorem new_kernel_tables_not_shared s mem junk virt phys flags :
  vm_ok s → mem ≠ 0 → direct_map s → pte_is_present (pde_at s 767) = false →
  (∀ a p t p', fs_alloc (frames s) = Ret (a, p) → fs_alloc p = Ret (t, p') → t < 0x400000) →
  768 < virt / 4096 / 1024 < 1023 → 0 ≤ virt < 2 ^ 32 → 0 ≤ phys < 2 ^ 32 →
  pte_is_present (pde_at s (virt / 4096 / 1024)) = false →
  match (pd ← vmm_create_page_directory mem junk;
         _ ← vmm_map_page virt phys flags;
         here ← gets (λ u, space u (virt / 4096));
         _ ← vmm_switch_page_directory pd;
         there ← gets (λ u, space u (virt / 4096));
         mret (pd, here, there)) s with
  | Ret (pd, here, there, _) => here = Some (phys / 4096 * 4096) ∧ (pd = 0 ∨ there = None)
  | Panic => out_of_frames s
  | Undef => False
  end.
Proof.
  intros Hok Hmem Hdm H767 Hlow Hi Hv Hph Habs.
  destruct (create_spec s mem junk Hok Hmem Hdm H767 Hlow) as (pd & s1 & E & Hok1 & Hag & Hc & Hk & Hr).
  rewrite (bind_Ret _ _ _ _ _ E). assert (plain_page virt) as Hpl by (unfold plain_page, boot_slot; lia).
  destruct (map_page_spec s1 virt phys flags Hok1 Hv Hpl Hph) as [(s2 & E2 & Hm & _)|(E2 & _ & p' & Ep)].
  2:{ rewrite (bind_Panic _ _ _ E2). by exists (frames s1), p'. }
  rewrite (bind_Ret _ _ _ _ _ E2). unfold gets. rewrite (bind_Ret _ _ _ _ _ eq_refl).
  assert (space s2 (virt / 4096) = Some (phys / 4096 * 4096)) as Hhere.
  { rewrite (md_space _ _ _ _ _ Hm), Z.eqb_refl by dlia. done. }
  destruct Hr as [(-> & _ & _)|(-> & a & [[Hal Har] Hn Hu Hd He])].
  { cbn. split; [done | by left]. }
  destruct (md_spares _ _ _ _ _ Hm) as (Hd2 & _ & Hsp).
  destruct (Hsp a) as [_ Hpm]; [by apply (agree_foreign s s1), unused_foreign | apply Hu; by right|].
  erewrite bind_Ret; [|eapply switch_to; [done | by rewrite Hd2, Hd, lookup_insert_eq]].
  cbn. split; [done|]. right. unfold space. rewrite (proj2 (Z.eqb_neq _ 1023)) by lia. rewrite mapping_eq. unfold pde_at. cbn.
  rewrite Hpm, He by (rewrite ?page_of_word; done || lia). unfold new_entry.
  rewrite (proj2 (Z.ltb_ge _ 768)), (proj2 (Z.eqb_neq _ 1023)), Habs by lia. done.
Qed.

(** Destroying a directory that is not in use gives back its frame and its
    structure; the current address space is as before. *)
Lemma vmm_destroy_page_directory_correct s kernel_directory pd d :
  vm_ok s → pd ≠ 0 → pd ≠ kernel_directory → dirs s !! pd = Some d →
  physical_addr d mod 4096 = 0 → 0 < physical_addr d < 2 ^ 32 → foreign s (physical_addr d) → fs_used (frames s) (physical_addr d) →
  ∃ s', vmm_destroy_page_directory kernel_directory pd s = Ret (tt, s') ∧ vm_ok s' ∧ dirs s' = delete pd (dirs s) ∧
    (∀ vp, mapping s' vp = mapping s vp) ∧ ∀ b, fs_used (frames s) b → b ≠ physical_addr d → fs_used (frames s') b.
Proof.
  intros Hok H0 Hk Hd Hal Hr Hf Hu. unfold vmm_destroy_page_directory. rewrite !(proj2 (Z.eqb_neq _ _)) by done. cbn [orb].
  unfold gets. rewrite (bind_Ret _ _ _ _ _ eq_refl), Hd, bind_deref.
  destruct (fs_free_ok (frames s) (physical_addr d) (vo_frames _ Hok) Hal Hr Hu) as (p & E & Hp & Hkp).
  rewrite (bind_Ret _ _ _ _ _ (on_frames_Ret _ s _ _ E)). eexists. split; [reflexivity|]. split_and!; try done.
  apply with_dirs_ok, (agree_ok s); try done; [apply Hok | | apply Hok].
  intros b Hb. destruct (decide (b = physical_addr d)) as [->|]; [by left | right; by apply Hkp].
Qed.
End Create.

(** ** At the start of the machine *)

Lemma demo_direct_map : direct_map demo_vm.
Proof.
  intros p Hp. rewrite mapping_eq. unfold pte_at, table. replace ((0xC0000 + p) / 1024) with 768 by dlia.
  replace ((0xC0000 + p) mod 1024) with p by dlia. change (pde_at demo_vm 768) with 0xA003.
  change (pde_get_addr 0xA003) with 0xA000. change (pte_is_present 0xA003) with true. cbv match.
  assert (pm demo_vm (0xA000 + 4 * p) = pte_create (p * 4096) 3) as ->.
  { cbn. rewrite set_word_ne by lia. unfold boot_pm. rewrite !(proj2 (Z.eqb_neq _ _)) by lia. cbn [orb]. zbool.
    rewrite pte_create_eq by lia. dlia. }
  rewrite pte_create_present, pte_create_addr by lia. change (Z.testbit 3 0) with true. cbv match. f_equal. dlia.
Qed.

Lemma demo_temp_low a p t p' :
  fs_alloc (frames demo_vm) = Ret (a, p) → fs_alloc p = Ret (t, p') → t < 0x400000.
Proof.
  intros E1 E2. vm_compute in E1. injection E1 as _ Ep. rewrite <- Ep in E2. vm_compute in E2.
  injection E2 as Et _. by rewrite <- Et.
Qed.


Lemma new_kernel_tables_not_shared_witness :
  match (pd ← vmm_create_page_directory 0xD0001000 7;
         _ ← vmm_map_page 0xF0000000 0x500000 3;
         here ← gets (λ u, space u (0xF0000000 / 4096));
         _ ← vmm_switch_page_directory pd;
         there ← gets (λ u, space u (0xF0000000 / 4096));
         mret (pd, here, there)) demo_vm with
  | Ret (pd, here, there, _) => here = Some 0x500000 ∧ (pd = 0 ∨ there = None)
  | Panic => out_of_frames demo_vm
  | Undef => False
  end.
Proof.
  apply (new_kernel_tables_not_shared demo_vm 0xD0001000 7 0xF0000000 0x500000 3);
    [exact demo_vm_ok | lia | exact demo_direct_map | reflexivity | exact demo_temp_low | by vm_compute | lia | lia | reflexivity].
Defined.
