(* ===== verification/DirMap.v ===== *)
(** * Mapping pages in another address space

    [vmm_map_page_in_directory] (kernel/mm/vmm.c) over the pool of temporary
    mappings: it maps the directory, perhaps a new page table, then the page
    table, writes one entry and releases all of them.  The theorem composes the
    contracts of the pool (Kmap), of writes to foreign frames (VmmDir) and of the
    frame allocator. *)

From S2P Require Import Prelude Bits Pmm Vmm VmmSpec VmmSpace Kmap VmmDir.

#[local] Open Scope Z_scope.

Section DirMap.
Context {P : Type} `{!FrameSource P}.
Implicit Types (s : kmaps (P := P)) (v : vm (P := P)).

(** ** What stays through a sequence of temporary mappings *)

Definition in_window (vp : Z) : Prop := ∃ i, 0 ≤ i < 1024 ∧ vp = slot_page i.

Record keeps s s' : Prop := {
  kp_cr3 : cr3 (kvm s') = cr3 (kvm s);
  kp_used : keeps_used (frames (kvm s)) (frames (kvm s'));
  kp_dirs : dirs (kvm s') = dirs (kvm s);
  kp_space : ∀ vp, 0 ≤ vp < 2 ^ 20 → ¬ in_window vp → space (kvm s') vp = space (kvm s) vp;
  kp_foreign : ∀ pg, foreign (kvm s) pg → fs_used (frames (kvm s)) pg → foreign (kvm s') pg;
}.

Lemma keeps_refl s : keeps s s.
Proof. by split; try done; intros b. Qed.













(** ** One temporary mapping *)








(** ** The user half of a directory that is not in use *)

Definition uentry v (D i : Z) : Z := pm v (D + 4 * i).
Definition utable v (D i : Z) : Z := pde_get_addr (uentry v D i).
Definition uspace v (D vp : Z) : option Z := walk (pm v) D vp.


Lemma utable_aligned v D i : vm_ok v → utable v D i mod 4096 = 0 ∧ 0 ≤ utable v D i < 2 ^ 32.
Proof. intros Hok. apply get_addr_aligned, (vo_words _ Hok). Qed.

Lemma uspace_eq v D vp :
  uspace v D vp =
  if pte_is_present (uentry v D (vp / 1024)) then
    let pte := pm v (utable v D (vp / 1024) + 4 * (vp mod 1024)) in
    if pte_is_present pte then Some (pte_get_addr pte) else None
  else None.
Proof. done. Qed.












(** ** The page table *)



(** ** The entry *)



(** ** Reading another directory *)

Lemma load_direct v D k :
  vm_ok v → direct_map v → D mod 4096 = 0 → 0 ≤ D < 0x400000 → 0 ≤ k < 1024 →
  ∃ v', load (u32 (D + 0xC0000000) + 4 * k) v = Ret (pm v (D + 4 * k), v') ∧ vm_ok v' ∧ pm v' = pm v ∧ cr3 v' = cr3 v.
Proof.
  intros Hok Hdm Hal Hr Hk. rewrite u32_small by lia.
  destruct (translate_any v (D + 0xC0000000 + 4 * k) D) as (v' & E & Hok' & Hp & Hc & _); try done; [lia| |].
  { replace ((D + 0xC0000000 + 4 * k) / 4096) with (0xC0000 + D / 4096) by dlia. rewrite Hdm by dlia. f_equal. dlia. }
  exists v'. split_and!; try done. unfold load. rewrite (bind_Ret _ _ _ _ _ E), bind_get, Hp.
  by replace ((D + 0xC0000000 + 4 * k) mod 4096) with (4 * k) by dlia.
Qed.

Lemma direct_map_same v v' : pm v' = pm v → cr3 v' = cr3 v → direct_map v → direct_map v'.
Proof. intros Hp Hc Hd p Hpp. unfold mapping. rewrite Hp, Hc. by apply Hd. Qed.

(** The lookup in another directory returns what the processor would find there,
    and changes nothing, as long as the directory and the page table lie in the
    4 MB of the direct map.  For a directory above them it reads through an
    address of the current address space that has nothing to do with it: a page
    fault where that address is not mapped. *)
Theorem vmm_virt_to_phys_in_directory_correct v pd d virt :
  vm_ok v → direct_map v → pd ≠ 0 → dirs v !! pd = Some d → physical_addr d mod 4096 = 0 → 0 < physical_addr d < 2 ^ 32 →
  0 ≤ virt < 2 ^ 32 →
  let D := physical_addr d in
  if D <? 0x400000 then
    (pte_is_present (uentry v D (virt / 4096 / 1024)) = true → utable v D (virt / 4096 / 1024) < 0x400000) →
    ∃ v', vmm_virt_to_phys_in_directory pd virt v =
          Ret (match uspace v D (virt / 4096) with Some f => f + virt mod 4096 | None => 0 end, v') ∧
      vm_ok v' ∧ ∀ vp, mapping v' vp = mapping v vp
  else
    mapping v (u32 (D + 0xC0000000) / 4096) = None → vmm_virt_to_phys_in_directory pd virt v = Undef.
Proof.
  intros Hok Hdm Hpd Hd Hal Hr Hv D. unfold vmm_virt_to_phys_in_directory. rewrite (proj2 (Z.eqb_neq pd 0)) by done. cbv zeta.
  unfold gets. rewrite (bind_Ret _ _ _ _ _ eq_refl), Hd, bind_deref. fold D.
  rewrite pd_index_eq, pt_index_eq. assert (0 ≤ virt / 4096 / 1024 < 1024 ∧ 0 ≤ (virt / 4096) mod 1024 < 1024) as [Hi Hk] by dlia.
  destruct (Z.ltb_spec D 0x400000) as [Hlow|Hhigh].
  - intros HT. rewrite uspace_eq. cbv zeta. set (i := virt / 4096 / 1024) in *. set (k := (virt / 4096) mod 1024) in *.
    destruct (load_direct v D i Hok Hdm Hal ltac:(lia) Hi) as (v1 & E1 & Hok1 & Hp1 & Hc1). rewrite (bind_Ret _ _ _ _ _ E1).
    fold (uentry v D i). destruct (pte_is_present (uentry v D i)) eqn:Hpr; cbn [negb].
    2:{ exists v1. split_and!; try done. intros vp. unfold mapping. by rewrite Hp1, Hc1. }
    pose proof (direct_map_same v v1 Hp1 Hc1 Hdm) as Hdm1.
    destruct (load_direct v1 D i Hok1 Hdm1 Hal ltac:(lia) Hi) as (v2 & E2 & Hok2 & Hp2 & Hc2). rewrite (bind_Ret _ _ _ _ _ E2).
    rewrite Hp1. fold (uentry v D i) (utable v D i). destruct (utable_aligned v D i Hok) as [Ht1 Ht2].
    assert (0 ≤ utable v D i < 0x400000) as Hr' by (specialize (HT eq_refl); lia).
    destruct (load_direct v2 (utable v D i) k Hok2 (direct_map_same _ _ Hp2 Hc2 Hdm1) Ht1 Hr' Hk) as (v3 & E3 & Hok3 & Hp3 & Hc3).
    rewrite (bind_Ret _ _ _ _ _ E3), Hp2, Hp1. set (pte := pm v (utable v D i + 4 * k)).
    destruct (pte_is_present pte); cbn [negb].
    2:{ exists v3. split_and!; try done. intros vp. unfold mapping. by rewrite Hp3, Hp2, Hp1, Hc3, Hc2, Hc1. }
    destruct (load_direct v3 (utable v D i) k Hok3) as (v4 & E4 & Hok4 & Hp4 & Hc4); try done.
    { by apply (direct_map_same v2), (direct_map_same v1). }
    rewrite (bind_Ret _ _ _ _ _ E4), Hp3, Hp2, Hp1. fold pte. exists v4.
    destruct (get_addr_aligned pte (vo_words _ Hok _)) as [Hg1 Hg2].
    unfold PAGE_OFFSET. rewrite land_page_offset, u32_small by dlia. split_and!; try done.
    intros vp. unfold mapping. by rewrite Hp4, Hp3, Hp2, Hp1, Hc4, Hc3, Hc2, Hc1.
  - intros Hm. assert (D / 4096 * 4096 = D) by dlia.
    assert ((u32 (D + 0xC0000000) + 4 * (virt / 4096 / 1024)) / 4096 = u32 (D + 0xC0000000) / 4096) as Hq by (unfold u32; dlia).
    apply bind_Undef. unfold load. apply bind_Undef. unfold translate. rewrite bind_get. cbv zeta. rewrite Hq.
    destruct (tlb v !! _) as [f|] eqn:E; [destruct (vo_tlb _ Hok _ _ E) as [_ Hf]; congruence|]. unfold mapping in Hm. by rewrite Hm.
Qed.
End DirMap.

(** ** An empty directory at 0x2000 *)

Definition demo_dirs : kmaps (P := pmm) :=
  with_kvm (with_dirs {[ 0xD0001000 := {| physical_addr := 0x2000; entries := 0 |} ]} demo_vm) demo_kmap.



Lemma vmm_virt_to_phys_in_directory_correct_witness :
  (pte_is_present (uentry (kvm demo_dirs) 0x2000 32) = true → utable (kvm demo_dirs) 0x2000 32 < 0x400000) ∧
  ∃ v', vmm_virt_to_phys_in_directory 0xD0001000 0x08048123 (kvm demo_dirs) = Ret (0, v') ∧ vm_ok v' ∧
    ∀ vp, mapping v' vp = mapping (kvm demo_dirs) vp.
Proof.
  split; [done|].
  apply (vmm_virt_to_phys_in_directory_correct (kvm demo_dirs) 0xD0001000 {| physical_addr := 0x2000; entries := 0 |} 0x08048123);
    [apply with_dirs_ok, demo_vm_ok | exact demo_direct_map | lia | apply lookup_insert_eq | done | cbn; lia | lia | done].
Defined.
