(* ===== verification/Bitmap.v ===== *)
(** * Generic bitmaps (include/bitmap.h)

    The bit operations and searches on arrays of [unsigned long], which is 32
    bits wide on i386.  The state of an operation is the array behind its
    [addr] argument; an index outside it is [Undef]. *)

From S2P Require Import Prelude Bits.

#[local] Open Scope Z_scope.

Abbreviation BITS_PER_LONG := 32%Z (only parsing).
Definition BITS_TO_LONGS (nr : Z) : Z := (nr + BITS_PER_LONG - 1) / BITS_PER_LONG.

Definition bit_mask (nr : Z) : Z := u32 (Z.shiftl 1 (nr mod BITS_PER_LONG)).

(** [*p = f( *p)] for the word that holds bit [nr]; the old word is returned. *)
Definition update_word (nr : Z) (f : Z → Z) : M (list Z) Z :=
  addr ← get;
  old ← deref (aget addr (nr / BITS_PER_LONG));
  addr' ← deref (aset addr (nr / BITS_PER_LONG) (f old));
  _ ← put addr';
  mret old.

Definition set_bit (nr : Z) : M (list Z) unit :=
  _ ← update_word nr (λ p, Z.lor p (bit_mask nr)); mret tt.

Definition clear_bit (nr : Z) : M (list Z) unit :=
  _ ← update_word nr (λ p, Z.land p (u32 (Z.lnot (bit_mask nr)))); mret tt.

Definition change_bit (nr : Z) : M (list Z) unit :=
  _ ← update_word nr (λ p, Z.lxor p (bit_mask nr)); mret tt.

Definition test_bit (nr : Z) : M (list Z) Z :=
  addr ← get;
  w ← deref (aget addr (nr / BITS_PER_LONG));
  mret (Z.land 1 (Z.shiftr w (nr mod BITS_PER_LONG))).

Definition test_and_set_bit (nr : Z) : M (list Z) bool :=
  old ← update_word nr (λ p, Z.lor p (bit_mask nr));
  mret (negb (Z.land old (bit_mask nr) =? 0)).

Definition test_and_clear_bit (nr : Z) : M (list Z) bool :=
  old ← update_word nr (λ p, Z.land p (u32 (Z.lnot (bit_mask nr))));
  mret (negb (Z.land old (bit_mask nr) =? 0)).

Definition test_and_change_bit (nr : Z) : M (list Z) bool :=
  old ← update_word nr (λ p, Z.lxor p (bit_mask nr));
  mret (negb (Z.land old (bit_mask nr) =? 0)).

(** The first loop of the two [find_first] functions, over whole words: words
    that [skip] are passed over, in the others the first bit with [hit] is
    the answer. *)
Definition scan_word (skip : Z → bool) (hit : Z → Z → bool) (idx : Z) : M (list Z) (option Z) :=
  addr ← get;
  w ← deref (aget addr idx);
  if negb (skip w) then
    for_ret (Z.to_nat BITS_PER_LONG) 0 (λ b,
      mret (if hit w b then Some (idx * BITS_PER_LONG + b) else None))
  else mret None.

(** The loop over single bits that ends all four searches. *)
Definition scan_bits (want : bool) (from size : Z) : M (list Z) (option Z) :=
  for_ret (Z.to_nat (size - from)) from (λ result,
    t ← test_bit result;
    mret (if Bool.eqb (negb (t =? 0)) want then Some result else None)).

Definition find_first_zero_bit (size : Z) : M (list Z) Z :=
  r ← for_ret (Z.to_nat (size / BITS_PER_LONG)) 0
        (scan_word (λ w, w =? 0xFFFFFFFF)
                   (λ w b, Z.land w (u32 (Z.shiftl 1 b)) =? 0));
  match r with
  | Some v => mret v
  | None =>
      r ← scan_bits false (size / BITS_PER_LONG * BITS_PER_LONG) size;
      mret (default size r)
  end.

Definition find_first_bit (size : Z) : M (list Z) Z :=
  r ← for_ret (Z.to_nat (size / BITS_PER_LONG)) 0
        (scan_word (λ w, w =? 0)
                   (λ w b, negb (Z.land w (u32 (Z.shiftl 1 b)) =? 0)));
  match r with
  | Some v => mret v
  | None =>
      r ← scan_bits true (size / BITS_PER_LONG * BITS_PER_LONG) size;
      mret (default size r)
  end.

Definition find_next_zero_bit (size offset : Z) : M (list Z) Z :=
  if size <=? offset then mret size
  else r ← scan_bits false offset size; mret (default size r).

Definition find_next_bit (size offset : Z) : M (list Z) Z :=
  if size <=? offset then mret size
  else r ← scan_bits true offset size; mret (default size r).

(** [memset] of the first [BITS_TO_LONGS(nbits)] words. *)
Definition fill_words (v nbits : Z) : M (list Z) unit :=
  dst ← get;
  let n := Z.to_nat (BITS_TO_LONGS nbits) in
  if (n <=? length dst)%nat then put (replicate n v ++ drop n dst) else undef.

Definition bitmap_zero (nbits : Z) : M (list Z) unit := fill_words 0 nbits.
Definition bitmap_fill (nbits : Z) : M (list Z) unit := fill_words 0xFFFFFFFF nbits.

Definition bitmap_copy (src : list Z) (nbits : Z) : M (list Z) unit :=
  dst ← get;
  let n := Z.to_nat (BITS_TO_LONGS nbits) in
  if (n <=? length dst)%nat && (n <=? length src)%nat
  then put (take n src ++ drop n dst) else undef.

(** [for_each_set_bit(bit, addr, size)]: the bits the loop visits. *)
Fixpoint for_each_set_bit_loop (fuel : nat) (b size : Z) : M (list Z) (list Z) :=
  if b <? size then
    match fuel with
    | O => undef
    | S fuel' =>
        b' ← find_next_bit size (b + 1);
        rest ← for_each_set_bit_loop fuel' b' size;
        mret (b :: rest)
    end
  else mret [].

Definition for_each_set_bit (size : Z) : M (list Z) (list Z) :=
  b ← find_first_bit size;
  for_each_set_bit_loop (Z.to_nat size) b size.

(** [for_each_clear_bit(bit, addr, size)] *)
Fixpoint for_each_clear_bit_loop (fuel : nat) (b size : Z) : M (list Z) (list Z) :=
  if b <? size then
    match fuel with
    | O => undef
    | S fuel' =>
        b' ← find_next_zero_bit size (b + 1);
        rest ← for_each_clear_bit_loop fuel' b' size;
        mret (b :: rest)
    end
  else mret [].

Definition for_each_clear_bit (size : Z) : M (list Z) (list Z) :=
  b ← find_first_zero_bit size;
  for_each_clear_bit_loop (Z.to_nat size) b size.

Example for_each_set_bit_ex :
  for_each_set_bit 40 [0x80000005; 0x81] = Ret ([0; 2; 31; 32; 39], [0x80000005; 0x81]).
Proof. reflexivity. Qed.

(** ** Single bits *)

Lemma land_1_shiftr w n : 0 ≤ n → Z.land 1 (Z.shiftr w n) = Z.b2z (Z.testbit w n).
Proof.
  intros Hn. rewrite Z.land_comm. change 1 with (Z.ones 1) at 1. rewrite Z.land_ones by lia.
  change (2 ^ 1) with 2. rewrite <- Z.bit0_mod, Z.shiftr_spec by lia. by rewrite Z.add_0_l.
Qed.

Definition words_ok (a : list Z) : Prop := Forall (λ w, 0 ≤ w < 2 ^ 32) a.

Lemma words_ok_lookup a i : words_ok a → 0 ≤ a !!! i < 2 ^ 32.
Proof.
  intros H. rewrite list_lookup_total_alt. destruct (a !! i) eqn:E; [|done].
  by eapply Forall_lookup_1 in H.
Qed.

Section OneBit.
Context (a : list Z) (nr : Z).
Hypothesis (Hnr : 0 ≤ nr < BITS_PER_LONG * Z.of_nat (length a)).

Lemma word_in_range : 0 ≤ nr / 32 < Z.of_nat (length a).
Proof. dlia. Qed.

Lemma aget_word : aget a (nr / 32) = Some (a !!! Z.to_nat (nr / 32)).
Proof.
  pose proof word_in_range. unfold aget. rewrite (proj2 (Z.leb_le _ _)) by lia.
  apply list_lookup_lookup_total_lt. lia.
Qed.

Lemma test_bit_eq : test_bit nr a = Ret (Z.b2z (bit a nr), a).
Proof.
  unfold test_bit. rewrite (bind_Ret get _ a a a eq_refl).
  rewrite aget_word, bind_deref. unfold mret, M_ret.
  do 2 f_equal. apply land_1_shiftr. apply Z.mod_pos_bound. lia.
Qed.

Lemma update_word_eq f :
  update_word nr f a =
  Ret (a !!! Z.to_nat (nr / 32), <[Z.to_nat (nr / 32) := f (a !!! Z.to_nat (nr / 32))]> a).
Proof.
  unfold update_word. rewrite (bind_Ret get _ a a a eq_refl).
  rewrite aget_word, bind_deref.
  by rewrite aset_Some by apply word_in_range.
Qed.
End OneBit.

(** The three read-modify-write operations as one: [op b] is the new value of a
    bit that was [b]. *)
Inductive bit_op := BSet | BClear | BChange.

Definition op_word (o : bit_op) (nr w : Z) : Z :=
  match o with
  | BSet => Z.lor w (bit_mask nr)
  | BClear => Z.land w (u32 (Z.lnot (bit_mask nr)))
  | BChange => Z.lxor w (bit_mask nr)
  end.

Definition op_bit (o : bit_op) (b : bool) : bool :=
  match o with BSet => true | BClear => false | BChange => negb b end.

Lemma op_word_testbit o nr w i :
  0 ≤ i < 32 →
  Z.testbit (op_word o nr w) i =
  if i =? nr mod 32 then op_bit o (Z.testbit w i) else Z.testbit w i.
Proof.
  intros Hi. pose proof (Z.mod_pos_bound nr 32 ltac:(lia)).
  destruct o; unfold op_word, bit_mask.
  - rewrite Z.lor_spec, testbit_u32, testbit_one by lia.
    destruct (i =? nr mod 32); simpl; [apply orb_true_r | apply orb_false_r].
  - rewrite Z.land_spec, testbit_u32, Z.lnot_spec, testbit_u32, testbit_one by lia.
    destruct (i =? nr mod 32); simpl; [apply andb_false_r | apply andb_true_r].
  - rewrite Z.lxor_spec, testbit_u32, testbit_one by lia.
    destruct (i =? nr mod 32); simpl; [apply xorb_true_r | apply xorb_false_r].
Qed.

Lemma lxor_bounds w x : 0 ≤ w < 2 ^ 32 → 0 ≤ x < 2 ^ 32 → 0 ≤ Z.lxor w x < 2 ^ 32.
Proof.
  intros Hw Hx. assert (0 ≤ Z.lxor w x) by (apply Z.lxor_nonneg; lia).
  split; [done|]. apply bits_bounded; [lia | done |].
  intros i Hi. by rewrite Z.lxor_spec, (testbit_high 32 w), (testbit_high 32 x) by (done || lia).
Qed.

Lemma op_word_bounds o nr w : 0 ≤ w < 2 ^ 32 → 0 ≤ op_word o nr w < 2 ^ 32.
Proof.
  pose proof (u32_bounds (Z.shiftl 1 (nr mod BITS_PER_LONG))).
  destruct o; simpl; intros.
  - by apply lor_bounds.
  - auto with words.
  - by apply lxor_bounds.
Qed.

Lemma bit_op_word o a nr g :
  0 ≤ nr < 32 * Z.of_nat (length a) → 0 ≤ g →
  bit (<[Z.to_nat (nr / 32) := op_word o nr (a !!! Z.to_nat (nr / 32))]> a) g =
  if g =? nr then op_bit o (bit a nr) else bit a g.
Proof.
  intros Hnr Hg. rewrite bit_update by dlia.
  destruct (Z.eqb_spec (g / 32) (nr / 32)) as [Hq|Hq].
  - rewrite op_word_testbit by (apply Z.mod_pos_bound; lia). unfold bit. rewrite Hq.
    destruct (Z.eqb_spec (g mod 32) (nr mod 32)) as [Hm|Hm], (Z.eqb_spec g nr) as [->|Hn];
      try congruence.
    exfalso. apply Hn, frame_split; (done || lia).
  - destruct (Z.eqb_spec g nr); [congruence | done].
Qed.

Definition test_and_op (o : bit_op) (nr : Z) : M (list Z) bool :=
  match o with
  | BSet => test_and_set_bit nr
  | BClear => test_and_clear_bit nr
  | BChange => test_and_change_bit nr
  end.

(** Each of the three test-and-modify operations returns the old value of bit
    [nr] and changes that bit only. *)
Theorem test_and_op_correct o a nr :
  words_ok a → 0 ≤ nr < BITS_PER_LONG * Z.of_nat (length a) →
  ∃ a', test_and_op o nr a = Ret (bit a nr, a') ∧ words_ok a' ∧ length a' = length a ∧
        ∀ g, 0 ≤ g → bit a' g = if g =? nr then op_bit o (bit a nr) else bit a g.
Proof.
  intros Hw Hnr. exists (<[Z.to_nat (nr / 32) := op_word o nr (a !!! Z.to_nat (nr / 32))]> a).
  split_and!.
  - assert (negb (Z.land (a !!! Z.to_nat (nr / 32)) (bit_mask nr) =? 0) = bit a nr) as Hold
      by (apply mask_test; apply Z.mod_pos_bound; lia).
    destruct o; unfold test_and_op, test_and_set_bit, test_and_clear_bit, test_and_change_bit;
      rewrite (bind_Ret _ _ _ _ _ (update_word_eq a nr Hnr _)), <- Hold; done.
  - apply Forall_insert; [done|]. by apply op_word_bounds, words_ok_lookup.
  - apply length_insert.
  - intros g Hg. by apply bit_op_word.
Qed.

(** ** Searches *)

(** [r] is the least position in [from, size) whose bit is [want], or [size]. *)
Definition least (a : list Z) (want : bool) (from size r : Z) : Prop :=
  from ≤ r ≤ size ∧ (∀ i, from ≤ i < r → bit a i = negb want) ∧ (r < size → bit a r = want).

Lemma least_unique a want from size r r' :
  least a want from size r → least a want from size r' → r = r'.
Proof.
  intros (Hr & Hlt & Heq) (Hr' & Hlt' & Heq').
  destruct (Z.lt_trichotomy r r') as [H|[H|H]]; [|done|].
  - pose proof (Hlt' r ltac:(lia)) as H1. rewrite Heq in H1 by lia. by destruct want.
  - pose proof (Hlt r' ltac:(lia)) as H1. rewrite Heq' in H1 by lia. by destruct want.
Qed.

Lemma scan_bits_spec a want from size :
  0 ≤ from ≤ size → size ≤ 32 * Z.of_nat (length a) →
  ∃ r, scan_bits want from size a = Ret (r, a) ∧ least a want from size (default size r).
Proof.
  intros Hf Hs. unfold scan_bits.
  destruct (for_ret_rel (λ j (o : option Z), if bool_decide (bit a j = want) then o = Some j else o = None)
    (λ result, t ← test_bit result;
       mret (if Bool.eqb (negb (t =? 0)) want then Some result else None))
    (Z.to_nat (size - from)) from a) as (r & E & Hr).
  - intros j Hj. eexists. split.
    + rewrite (bind_Ret _ _ _ _ _ (test_bit_eq a j ltac:(lia))). reflexivity.
    + destruct (bit a j), want; reflexivity.
  - exists r. split; [done|]. destruct r as [v|]; simpl.
    + destruct Hr as (j & Hj & HQ & Hk). case_bool_decide as Hb; [|done]. injection HQ as ->.
      split_and!; [lia | lia | | done]. intros i Hi. specialize (Hk i Hi).
      case_bool_decide as Hb'; [done|]. by destruct (bit a i), want.
    + split_and!; [lia | lia | | lia]. intros i Hi. specialize (Hr i ltac:(lia)).
      case_bool_decide as Hb'; [done|]. by destruct (bit a i), want.
Qed.

(** The bits of word [idx] are the bits [32 idx .. 32 idx + 31] of the array. *)
Lemma bit_in_word a idx b : 0 ≤ b < 32 → bit a (idx * 32 + b) = Z.testbit (a !!! Z.to_nat idx) b.
Proof.
  intros Hb. unfold bit.
  replace ((idx * 32 + b) / 32) with idx by dlia. by replace ((idx * 32 + b) mod 32) with b by dlia.
Qed.

Section FindFirst.
Context (want : bool) (skip : Z → bool) (hit : Z → Z → bool).
Hypothesis (Hskip : ∀ w b, skip w = true → 0 ≤ b < 32 → Z.testbit w b = negb want).
Hypothesis (Hhit : ∀ w b, 0 ≤ b < 32 → hit w b = Bool.eqb (Z.testbit w b) want).

(** What one turn of the word loop finds. *)
Definition word_result (a : list Z) (idx : Z) (o : option Z) : Prop :=
  match o with
  | Some v => ∃ b, v = idx * 32 + b ∧ 0 ≤ b < 32 ∧ bit a v = want ∧
                   ∀ i, idx * 32 ≤ i < v → bit a i = negb want
  | None => ∀ i, idx * 32 ≤ i < idx * 32 + 32 → bit a i = negb want
  end.

Lemma scan_word_spec a idx :
  0 ≤ idx < Z.of_nat (length a) →
  ∃ o, scan_word skip hit idx a = Ret (o, a) ∧ word_result a idx o.
Proof.
  intros Hi. unfold scan_word. rewrite (bind_Ret get _ a a a eq_refl).
  assert (aget a idx = Some (a !!! Z.to_nat idx)) as ->.
  { unfold aget. rewrite (proj2 (Z.leb_le _ _)) by lia. apply list_lookup_lookup_total_lt. lia. }
  rewrite bind_deref. set (w := a !!! Z.to_nat idx).
  assert (∀ i, idx * 32 ≤ i < idx * 32 + 32 → bit a i = Z.testbit w (i - idx * 32)) as Hbit.
  { intros i Hi'. replace i with (idx * 32 + (i - idx * 32)) at 1 by lia.
    apply bit_in_word. lia. }
  destruct (skip w) eqn:Es; simpl.
  { exists None. split; [done|]. intros i Hi'. rewrite Hbit by lia. apply Hskip; [done | lia]. }
  destruct (for_ret_rel
    (λ b (o : option Z), o = if Bool.eqb (Z.testbit w b) want then Some (idx * 32 + b) else None)
    (λ b, mret (if hit w b then Some (idx * 32 + b) else None) : M (list Z) _)
    (Z.to_nat 32) 0 a) as (r & E & Hr).
  - intros j Hj. eexists. split; [reflexivity|]. by rewrite Hhit by lia.
  - exists r. split; [done|]. destruct r as [v|]; simpl.
    + destruct Hr as (b & Hb & HQ & Hk).
      destruct (Bool.eqb (Z.testbit w b) want) eqn:Eb; [|done]. injection HQ as ->.
      apply Bool.eqb_prop in Eb. exists b. split_and!; [done | lia | lia | |].
      * by rewrite bit_in_word by lia.
      * intros i Hi'. rewrite Hbit by lia. specialize (Hk (i - idx * 32) ltac:(lia)).
        destruct (Z.testbit w (i - idx * 32)), want; done.
    + intros i Hi'. rewrite Hbit by lia. specialize (Hr (i - idx * 32) ltac:(lia)).
      destruct (Z.testbit w (i - idx * 32)), want; done.
Qed.

Lemma find_first_spec a size :
  0 ≤ size ≤ 32 * Z.of_nat (length a) →
  ∃ r, (r ← for_ret (Z.to_nat (size / BITS_PER_LONG)) 0 (scan_word skip hit);
        match r with
        | Some v => mret v
        | None => r ← scan_bits want (size / BITS_PER_LONG * BITS_PER_LONG) size;
                  mret (default size r)
        end) a = Ret (r, a) ∧ least a want 0 size r.
Proof.
  intros Hs. assert (0 ≤ size / 32) by (apply Z.div_pos; lia).
  destruct (for_ret_rel (word_result a) (scan_word skip hit) (Z.to_nat (size / 32)) 0 a)
    as (res & E & Hres).
  { intros j Hj. apply scan_word_spec. dlia. }
  rewrite (bind_Ret _ _ _ _ _ E). destruct res as [v|].
  - destruct Hres as (j & Hj & (b & -> & Hb & Hv & Hlt) & Hk).
    exists (j * 32 + b). split; [done|]. split_and!; [lia | dlia | | done].
    intros i Hi. destruct (decide (i < j * 32)); [|apply Hlt; lia].
    apply (Hk (i / 32)); dlia.
  - destruct (scan_bits_spec a want (size / 32 * 32) size) as (r & E' & Hr1 & Hr2 & Hr3);
      [dlia | lia |].
    exists (default size r). rewrite (bind_Ret _ _ _ _ _ E'). split; [done|].
    split_and!; [lia | lia | | done].
    intros i Hi. destruct (decide (i < size / 32 * 32)); [|apply Hr2; lia].
    apply (Hres (i / 32)); dlia.
Qed.
End FindFirst.

Lemma find_first_zero_bit_spec a size :
  0 ≤ size ≤ 32 * Z.of_nat (length a) →
  ∃ r, find_first_zero_bit size a = Ret (r, a) ∧ least a false 0 size r.
Proof.
  apply (find_first_spec false).
  - intros w b Hw Hb. apply Z.eqb_eq in Hw as ->.
    change 0xFFFFFFFF with (Z.ones 32). by apply Z.ones_spec_low.
  - intros w b Hb. rewrite <- (mask_test w b Hb). by destruct (_ =? 0).
Qed.

Lemma find_first_bit_spec a size :
  0 ≤ size ≤ 32 * Z.of_nat (length a) →
  ∃ r, find_first_bit size a = Ret (r, a) ∧ least a true 0 size r.
Proof.
  apply (find_first_spec true).
  - intros w b Hw Hb. apply Z.eqb_eq in Hw as ->. apply Z.bits_0.
  - intros w b Hb. rewrite <- (mask_test w b Hb). by destruct (_ =? 0).
Qed.

Lemma find_next_bit_spec a size offset :
  0 ≤ offset ≤ size → size ≤ 32 * Z.of_nat (length a) →
  ∃ r, find_next_bit size offset a = Ret (r, a) ∧ least a true offset size r.
Proof.
  intros Ho Hs. unfold find_next_bit. destruct (Z.leb_spec size offset).
  - exists size. split; [done|]. split_and!; try lia.
  - destruct (scan_bits_spec a true offset size) as (r & E & Hr); [lia | done |].
    exists (default size r). by rewrite (bind_Ret _ _ _ _ _ E).
Qed.

Lemma find_next_zero_bit_spec a size offset :
  0 ≤ offset ≤ size → size ≤ 32 * Z.of_nat (length a) →
  ∃ r, find_next_zero_bit size offset a = Ret (r, a) ∧ least a false offset size r.
Proof.
  intros Ho Hs. unfold find_next_zero_bit. destruct (Z.leb_spec size offset).
  - exists size. split; [done|]. split_and!; try lia.
  - destruct (scan_bits_spec a false offset size) as (r & E & Hr); [lia | done |].
    exists (default size r). by rewrite (bind_Ret _ _ _ _ _ E).
Qed.

(** the word-skipping searches [find_first_zero_bit] and [find_first_bit]
    agree with the bit-by-bit searches started at bit 0, and return the least
    position with the wanted bit, or [size]. *)
Theorem find_first_agrees_with_find_next a size :
  0 ≤ size ≤ BITS_PER_LONG * Z.of_nat (length a) →
  (∃ r, find_first_zero_bit size a = Ret (r, a) ∧ find_next_zero_bit size 0 a = Ret (r, a) ∧
        least a false 0 size r) ∧
  (∃ r, find_first_bit size a = Ret (r, a) ∧ find_next_bit size 0 a = Ret (r, a) ∧
        least a true 0 size r).
Proof.
  intros Hs. split.
  - destruct (find_first_zero_bit_spec a size Hs) as (r & E & Hr).
    destruct (find_next_zero_bit_spec a size 0) as (r' & E' & Hr'); [lia | lia |].
    exists r. by rewrite <- (least_unique _ _ _ _ _ _ Hr Hr') in E'.
  - destruct (find_first_bit_spec a size Hs) as (r & E & Hr).
    destruct (find_next_bit_spec a size 0) as (r' & E' & Hr'); [lia | lia |].
    exists r. by rewrite <- (least_unique _ _ _ _ _ _ Hr Hr') in E'.
Qed.

(** ** Iteration over the set bits *)

Definition set_bits (a : list Z) (from size : Z) : list Z :=
  filter (λ i, bit a i = true) (seqZ from (size - from)).

Lemma set_bits_skip a from r size :
  least a true from size r → set_bits a from size = set_bits a r size.
Proof.
  intros (Hr & Hlt & _). unfold set_bits.
  replace (size - from) with ((r - from) + (size - r)) by lia.
  rewrite seqZ_app by lia. rewrite filter_app.
  replace (from + (r - from)) with r by lia.
  assert (filter (λ i, bit a i = true) (seqZ from (r - from)) = []) as ->; [|done].
  apply filter_none. intros i Hi%elem_of_seqZ.
  rewrite Hlt by lia. done.
Qed.

Lemma set_bits_cons a r size :
  r < size → bit a r = true → set_bits a r size = r :: set_bits a (r + 1) size.
Proof.
  intros Hr Hb. unfold set_bits. replace (size - r) with (Z.succ (size - (r + 1))) by lia.
  rewrite seqZ_cons by lia. rewrite filter_cons_True by done. do 3 f_equal; lia.
Qed.

Lemma for_each_set_bit_loop_spec a size fuel r :
  0 ≤ r ≤ size → size ≤ 32 * Z.of_nat (length a) → size - r ≤ Z.of_nat fuel →
  (r < size → bit a r = true) →
  for_each_set_bit_loop fuel r size a = Ret (set_bits a r size, a).
Proof.
  revert r. induction fuel as [|fuel IH]; intros r Hr Hs Hf Hb; cbn [for_each_set_bit_loop];
    destruct (Z.ltb_spec r size) as [Hlt|Hge]; try lia.
  2:{ destruct (find_next_bit_spec a size (r + 1)) as (r' & E & Hl); [lia | done |].
      rewrite (bind_Ret _ _ _ _ _ E). pose proof Hl as (Hr' & _ & Hb').
      erewrite bind_Ret by (apply IH; [lia | done | lia | done]).
      rewrite (set_bits_cons a r size), (set_bits_skip a (r + 1) r' size) by auto. done. }
  all: unfold set_bits; rewrite seqZ_nil by lia; done.
Qed.

(** [for_each_set_bit] visits exactly the set bits below [size], each once,
    in increasing order, and terminates. *)
Theorem for_each_set_bit_visits a size :
  0 ≤ size ≤ BITS_PER_LONG * Z.of_nat (length a) →
  for_each_set_bit size a = Ret (filter (λ i, bit a i = true) (seqZ 0 size), a).
Proof.
  intros Hs. unfold for_each_set_bit.
  destruct (find_first_bit_spec a size Hs) as (r & E & Hr).
  rewrite (bind_Ret _ _ _ _ _ E). pose proof Hr as (Hr1 & _ & Hr3).
  rewrite for_each_set_bit_loop_spec by (lia || done).
  rewrite <- (set_bits_skip a 0 r size) by done. unfold set_bits. by rewrite Z.sub_0_r.
Qed.

(** ** Clearing, filling and copying *)

Lemma bit_app_l l1 l2 i : 0 ≤ i < 32 * Z.of_nat (length l1) → bit (l1 ++ l2) i = bit l1 i.
Proof. intros Hi. unfold bit. rewrite lookup_total_app_l by dlia. done. Qed.

Lemma bits_to_longs_covers nbits i :
  0 ≤ i < nbits → i < 32 * Z.of_nat (Z.to_nat (BITS_TO_LONGS nbits)).
Proof. unfold BITS_TO_LONGS. intros. dlia. Qed.

(** [bitmap_zero], [bitmap_fill] and [bitmap_copy] set the first [nbits]
    bits to 0, to 1, and to those of the source. *)
Theorem bitmap_fill_correct dst src nbits :
  BITS_TO_LONGS nbits ≤ Z.of_nat (length dst) → BITS_TO_LONGS nbits ≤ Z.of_nat (length src) →
  (∃ d, bitmap_zero nbits dst = Ret (tt, d) ∧ ∀ i, 0 ≤ i < nbits → bit d i = false) ∧
  (∃ d, bitmap_fill nbits dst = Ret (tt, d) ∧ ∀ i, 0 ≤ i < nbits → bit d i = true) ∧
  (∃ d, bitmap_copy src nbits dst = Ret (tt, d) ∧ ∀ i, 0 ≤ i < nbits → bit d i = bit src i).
Proof.
  intros Hd Hs. unfold bitmap_zero, bitmap_fill, bitmap_copy, fill_words.
  rewrite !(bind_Ret get _ dst dst dst eq_refl).
  set (n := Z.to_nat (BITS_TO_LONGS nbits)).
  rewrite (proj2 (Nat.leb_le n (length dst))), (proj2 (Nat.leb_le n (length src))) by lia.
  split_and!; eexists; (split; [reflexivity|]); intros i Hi;
    pose proof (bits_to_longs_covers nbits i Hi) as Hc;
    rewrite bit_app_l by (rewrite ?length_replicate, ?length_take; lia).
  - unfold bit. rewrite lookup_total_replicate_2 by dlia. apply Z.bits_0.
  - unfold bit. rewrite lookup_total_replicate_2 by dlia.
    change 0xFFFFFFFF with (Z.ones 32). apply Z.ones_spec_low. apply Z.mod_pos_bound. lia.
  - unfold bit. rewrite lookup_total_take_lt by dlia. done.
Qed.

(** ** Instances *)

Lemma test_and_op_correct_witness :
  ∃ a', test_and_op BChange 35 [0xF0; 0x8] = Ret (bit [0xF0; 0x8] 35, a') ∧
        words_ok a' ∧ length a' = length [0xF0; 0x8] ∧
        ∀ g, 0 ≤ g → bit a' g = if g =? 35 then op_bit BChange (bit [0xF0; 0x8] 35)
                                else bit [0xF0; 0x8] g.
Proof.
  apply (test_and_op_correct BChange [0xF0; 0x8] 35).
  - repeat constructor; lia.
  - vm_compute. split; [discriminate | reflexivity].
Defined.

Lemma find_first_agrees_with_find_next_witness :
  (∃ r, find_first_zero_bit 40 [0xFFFFFFFF; 0x7] = Ret (r, [0xFFFFFFFF; 0x7]) ∧
        find_next_zero_bit 40 0 [0xFFFFFFFF; 0x7] = Ret (r, [0xFFFFFFFF; 0x7]) ∧
        least [0xFFFFFFFF; 0x7] false 0 40 r) ∧
  (∃ r, find_first_bit 40 [0xFFFFFFFF; 0x7] = Ret (r, [0xFFFFFFFF; 0x7]) ∧
        find_next_bit 40 0 [0xFFFFFFFF; 0x7] = Ret (r, [0xFFFFFFFF; 0x7]) ∧
        least [0xFFFFFFFF; 0x7] true 0 40 r).
Proof.
  apply (find_first_agrees_with_find_next [0xFFFFFFFF; 0x7] 40).
  simpl. lia.
Defined.

Lemma for_each_set_bit_visits_witness :
  for_each_set_bit 40 [0x11; 0x7] =
  Ret (filter (λ i, bit [0x11; 0x7] i = true) (seqZ 0 40), [0x11; 0x7]).
Proof.
  apply (for_each_set_bit_visits [0x11; 0x7] 40). simpl. lia.
Defined.

Lemma bitmap_fill_correct_witness :
  (∃ d, bitmap_zero 40 [1; 2; 3] = Ret (tt, d) ∧ ∀ i, 0 ≤ i < 40 → bit d i = false) ∧
  (∃ d, bitmap_fill 40 [1; 2; 3] = Ret (tt, d) ∧ ∀ i, 0 ≤ i < 40 → bit d i = true) ∧
  (∃ d, bitmap_copy [5; 6] 40 [1; 2; 3] = Ret (tt, d) ∧
        ∀ i, 0 ≤ i < 40 → bit d i = bit [5; 6] i).
Proof.
  apply (bitmap_fill_correct [1; 2; 3] [5; 6] 40); vm_compute; discriminate.
Defined.
