(* ===== verification/LibGcc.v ===== *)
(** * 64-bit arithmetic helpers (lib/libgcc_compat.c, lib/divdi3.c)

    On i386 the compiler calls these functions for 64-bit division, remainder
    and shifts.  [Compat] is lib/libgcc_compat.c, the file the kernel links;
    [Divdi3] is lib/divdi3.c, an alternative that the build leaves out.
    Unsigned values are [Z] in [0, 2^64), signed ones in [-2^63, 2^63); the
    negation of the least signed value wraps, as the compiler implements it. *)

From S2P Require Import Prelude.

#[local] Open Scope Z_scope.

(** ** Shared arithmetic facts *)

Lemma lor_disjoint a b : Z.land a b = 0 → Z.lor a b = a + b.
Proof. intros H. by rewrite <- Z.lxor_lor, <- Z.add_nocarry_lxor. Qed.

Lemma lor_pow2_add k n x : 0 ≤ n → 0 ≤ x < 2 ^ n → Z.lor (k * 2 ^ n) x = k * 2 ^ n + x.
Proof.
  intros Hn Hx. apply lor_disjoint. apply Z.bits_inj'. intros i Hi.
  rewrite Z.land_spec, Z.bits_0. destruct (decide (i < n)).
  - by rewrite Z.mul_pow2_bits_low by lia.
  - rewrite (testbit_high n x i) by (done || lia). apply andb_false_r.
Qed.

Lemma land_1 x : Z.land x 1 = x mod 2.
Proof. change 1 with (Z.ones 1) at 1. by rewrite Z.land_ones by lia. Qed.

Module Compat.

(** The loop [for (int i = 63; i >= 0; i--)] of [__udivdi3]; [n] is [i + 1]. *)
Fixpoint udiv_loop (n : nat) (dividend divisor quotient remainder : Z) : Z :=
  match n with
  | O => quotient
  | S k =>
      let i := Z.of_nat k in
      let remainder := u64 (Z.shiftl remainder 1) in
      let remainder := Z.lor remainder (Z.land (Z.shiftr dividend i) 1) in
      if divisor <=? remainder
      then udiv_loop k dividend divisor (Z.lor quotient (u64 (Z.shiftl 1 i)))
                     (u64 (remainder - divisor))
      else udiv_loop k dividend divisor quotient remainder
  end.

Definition udivdi3 (dividend divisor : Z) : Z :=
  if divisor =? 0 then 0
  else if dividend <? divisor then 0
  else if divisor =? dividend then 1
  else if (Z.shiftr dividend 32 =? 0) && (Z.shiftr divisor 32 =? 0)
  then u32 dividend / u32 divisor
  else udiv_loop 64 dividend divisor 0 0.

(** The loop of [__umoddi3]. *)
Fixpoint umod_loop (n : nat) (dividend divisor remainder : Z) : Z :=
  match n with
  | O => remainder
  | S k =>
      let i := Z.of_nat k in
      let remainder := u64 (Z.shiftl remainder 1) in
      let remainder := Z.lor remainder (Z.land (Z.shiftr dividend i) 1) in
      umod_loop k dividend divisor
        (if divisor <=? remainder then u64 (remainder - divisor) else remainder)
  end.

Definition umoddi3 (dividend divisor : Z) : Z :=
  if divisor =? 0 then 0
  else if dividend <? divisor then dividend
  else if divisor =? dividend then 0
  else if (Z.shiftr dividend 32 =? 0) && (Z.shiftr divisor 32 =? 0)
  then u32 dividend mod u32 divisor
  else umod_loop 64 dividend divisor 0.

Definition divdi3 (dividend divisor : Z) : Z :=
  if divisor =? 0 then 0
  else
    let sign := 1 in
    let '(sign, udividend) :=
      if dividend <? 0 then (- sign, u64 (i64 (- dividend))) else (sign, u64 dividend) in
    let '(sign, udivisor) :=
      if divisor <? 0 then (- sign, u64 (i64 (- divisor))) else (sign, u64 divisor) in
    let result := udivdi3 udividend udivisor in
    if sign <? 0 then i64 (- i64 result) else i64 result.

Definition moddi3 (dividend divisor : Z) : Z :=
  if divisor =? 0 then 0
  else
    let '(sign, udividend) :=
      if dividend <? 0 then (-1, u64 (i64 (- dividend))) else (1, u64 dividend) in
    let udivisor :=
      if divisor <? 0 then u64 (i64 (- divisor)) else u64 divisor in
    let result := umoddi3 udividend udivisor in
    if sign <? 0 then i64 (- i64 result) else i64 result.

Definition ashldi3 (value shift : Z) : Z :=
  if 64 <=? shift then 0 else u64 (Z.shiftl value shift).

Definition lshrdi3 (value shift : Z) : Z :=
  if 64 <=? shift then 0 else Z.shiftr value shift.

Definition ashrdi3 (value shift : Z) : Z :=
  if 64 <=? shift then (if value <? 0 then -1 else 0) else Z.shiftr value shift.

(** *** Long division *)

(** One turn of the loop: with [r] the remainder of [D / 2^(i+1)], the new
    partial remainder is [2 r + b], [b] the next bit of [D]; it does not
    overflow because it is at most [D / 2^i]. *)
Lemma partial_remainder D d i :
  0 ≤ D < 2 ^ 64 → 0 < d → 0 ≤ i < 64 →
  let r := (D / 2 ^ (i + 1)) mod d in
  Z.lor (u64 (Z.shiftl r 1)) (Z.land (Z.shiftr D i) 1) = 2 * r + (D / 2 ^ i) mod 2 ∧
  2 * r + (D / 2 ^ i) mod 2 < 2 ^ 64.
Proof.
  intros HD Hd Hi r.
  assert (0 < 2 ^ i) by lia. assert (0 < 2 ^ (i + 1)) by lia.
  assert (D / 2 ^ (i + 1) = D / 2 ^ i / 2) as E.
  { rewrite Z.div_div, Z.pow_add_r by lia. done. }
  assert (0 ≤ r ≤ D / 2 ^ (i + 1)) as Hr.
  { unfold r. assert (0 ≤ D / 2 ^ (i + 1)) by (apply Z.div_pos; lia).
    split; [apply Z.mod_pos_bound; lia | apply Z.mod_le; lia]. }
  assert (0 ≤ D / 2 ^ i < 2 ^ 64) as Hi64.
  { split; [apply Z.div_pos; lia|]. apply Z.div_lt_upper_bound; [lia | nia]. }
  assert (2 * r + (D / 2 ^ i) mod 2 ≤ D / 2 ^ i) by (rewrite E in Hr; dlia).
  split; [|lia].
  rewrite Z.shiftl_mul_pow2, land_1, Z.shiftr_div_pow2 by lia.
  rewrite u64_small by dlia.
  rewrite lor_pow2_add by dlia. lia.
Qed.

Lemma div_step D d i b :
  0 < d → 0 ≤ i →
  b = (D / 2 ^ i) mod 2 →
  let q := D / 2 ^ (i + 1) / d in let r := (D / 2 ^ (i + 1)) mod d in
  (d ≤ 2 * r + b → D / 2 ^ i / d = 2 * q + 1 ∧ (D / 2 ^ i) mod d = 2 * r + b - d) ∧
  (2 * r + b < d → D / 2 ^ i / d = 2 * q ∧ (D / 2 ^ i) mod d = 2 * r + b).
Proof.
  intros Hd Hi Hb q r.
  assert (D / 2 ^ (i + 1) = D / 2 ^ i / 2) as E.
  { rewrite Z.div_div, Z.pow_add_r by lia. done. }
  set (E1 := D / 2 ^ i) in *.
  assert (E1 = 2 * (d * q + r) + b) as HE.
  { unfold q, r. rewrite <- Z.div_mod by lia. rewrite E. dlia. }
  assert (0 ≤ r < d) by (apply Z.mod_pos_bound; lia).
  assert (0 ≤ b < 2) by (subst b; apply Z.mod_pos_bound; lia).
  split; intros Hc.
  - assert (E1 = d * (2 * q + 1) + (2 * r + b - d)) as HE' by lia.
    split; symmetry; [eapply Z.div_unique_pos | eapply Z.mod_unique_pos]; try exact HE'; lia.
  - assert (E1 = d * (2 * q) + (2 * r + b)) as HE' by lia.
    split; symmetry; [eapply Z.div_unique_pos | eapply Z.mod_unique_pos]; try exact HE'; lia.
Qed.

Lemma udiv_loop_spec D d n :
  0 ≤ D < 2 ^ 64 → 0 < d < 2 ^ 64 → (n ≤ 64)%nat →
  udiv_loop n D d (D / 2 ^ Z.of_nat n / d * 2 ^ Z.of_nat n) ((D / 2 ^ Z.of_nat n) mod d) = D / d.
Proof.
  intros HD Hd. induction n as [|k IH]; intros Hn.
  - simpl. by rewrite Z.div_1_r, Z.mul_1_r.
  - cbn [udiv_loop]. set (i := Z.of_nat k).
    replace (Z.of_nat (S k)) with (i + 1) by lia.
    destruct (partial_remainder D d i) as [-> Hlt]; [done | lia | lia |].
    destruct (div_step D d i _ ltac:(lia) ltac:(lia) eq_refl) as [Hge Hlt'].
    assert (0 ≤ (D / 2 ^ (i + 1)) mod d) by (apply Z.mod_pos_bound; lia).
    assert (2 ^ (i + 1) = 2 * 2 ^ i) as Hp by (rewrite Z.pow_add_r by lia; lia).
    assert (0 < 2 ^ i < 2 ^ 64) as Hpi by (split; [lia | apply Z.pow_lt_mono_r; lia]).
    destruct (Z.leb_spec d (2 * ((D / 2 ^ (i + 1)) mod d) + (D / 2 ^ i) mod 2)) as [Hc|Hc].
    + destruct (Hge Hc) as [Hq Hr]. rewrite Z.shiftl_1_l, (u64_small (2 ^ i)), u64_small by lia.
      rewrite <- Hr.
      rewrite lor_pow2_add by lia.
      replace (D / 2 ^ (i + 1) / d * 2 ^ (i + 1) + 2 ^ i) with (D / 2 ^ i / d * 2 ^ i)
        by (rewrite Hq, Hp; ring).
      apply IH. lia.
    + destruct (Hlt' Hc) as [Hq Hr]. rewrite <- Hr.
      replace (D / 2 ^ (i + 1) / d * 2 ^ (i + 1)) with (D / 2 ^ i / d * 2 ^ i)
        by (rewrite Hq, Hp; ring).
      apply IH. lia.
Qed.

Lemma umod_loop_spec D d n :
  0 ≤ D < 2 ^ 64 → 0 < d < 2 ^ 64 → (n ≤ 64)%nat →
  umod_loop n D d ((D / 2 ^ Z.of_nat n) mod d) = D mod d.
Proof.
  intros HD Hd. induction n as [|k IH]; intros Hn.
  - simpl. by rewrite Z.div_1_r.
  - cbn [umod_loop]. set (i := Z.of_nat k).
    replace (Z.of_nat (S k)) with (i + 1) by lia.
    destruct (partial_remainder D d i) as [-> Hlt]; [done | lia | lia |].
    destruct (div_step D d i _ ltac:(lia) ltac:(lia) eq_refl) as [Hge Hlt'].
    assert (0 ≤ (D / 2 ^ (i + 1)) mod d) by (apply Z.mod_pos_bound; lia).
    destruct (Z.leb_spec d (2 * ((D / 2 ^ (i + 1)) mod d) + (D / 2 ^ i) mod 2)) as [Hc|Hc].
    + destruct (Hge Hc) as [_ Hr]. rewrite u64_small by lia. rewrite <- Hr. apply IH. lia.
    + destruct (Hlt' Hc) as [_ Hr]. rewrite <- Hr. apply IH. lia.
Qed.

Lemma div_pow2_64 D : 0 ≤ D < 2 ^ 64 → D / 2 ^ Z.of_nat 64 = 0.
Proof. intros. by apply Z.div_small. Qed.

Lemma shiftr_32_zero x : 0 ≤ x → Z.shiftr x 32 = 0 → x < 2 ^ 32.
Proof. rewrite Z.shiftr_div_pow2 by lia. intros. dlia. Qed.

Lemma udivdi3_eq D d : 0 ≤ D < 2 ^ 64 → 0 < d < 2 ^ 64 → udivdi3 D d = D / d.
Proof.
  intros HD Hd. unfold udivdi3.
  destruct (Z.eqb_spec d 0); [lia|].
  destruct (Z.ltb_spec D d); [by rewrite Z.div_small by lia|].
  destruct (Z.eqb_spec d D) as [->|]; [by rewrite Z.div_same by lia|].
  destruct (Z.eqb_spec (Z.shiftr D 32) 0) as [E1|E1], (Z.eqb_spec (Z.shiftr d 32) 0) as [E2|E2];
    cbn [andb].
  { apply shiftr_32_zero in E1; [|lia]. apply shiftr_32_zero in E2; [|lia].
    by rewrite !u32_small by lia. }
  all: rewrite <- (udiv_loop_spec D d 64 HD Hd ltac:(lia)), div_pow2_64 by done;
    by rewrite Z.div_0_l, Z.mod_0_l by lia.
Qed.

Lemma umoddi3_eq D d : 0 ≤ D < 2 ^ 64 → 0 < d < 2 ^ 64 → umoddi3 D d = D mod d.
Proof.
  intros HD Hd. unfold umoddi3.
  destruct (Z.eqb_spec d 0); [lia|].
  destruct (Z.ltb_spec D d); [by rewrite Z.mod_small by lia|].
  destruct (Z.eqb_spec d D) as [->|]; [by rewrite Z.mod_same by lia|].
  destruct (Z.eqb_spec (Z.shiftr D 32) 0) as [E1|E1], (Z.eqb_spec (Z.shiftr d 32) 0) as [E2|E2];
    cbn [andb].
  { apply shiftr_32_zero in E1; [|lia]. apply shiftr_32_zero in E2; [|lia].
    by rewrite !u32_small by lia. }
  all: rewrite <- (umod_loop_spec D d 64 HD Hd ltac:(lia)), div_pow2_64 by done;
    by rewrite Z.mod_0_l by lia.
Qed.

(** the unsigned 64-bit division and remainder are exact for every
    divisor, and return 0 for divisor 0. *)
Theorem udivmod_correct D d :
  0 ≤ D < 2 ^ 64 → 0 ≤ d < 2 ^ 64 →
  (d ≠ 0 → udivdi3 D d = D / d ∧ umoddi3 D d = D mod d) ∧
  (d = 0 → udivdi3 D d = 0 ∧ umoddi3 D d = 0).
Proof.
  intros HD Hd. split.
  - intros Hnz. split; [apply udivdi3_eq | apply umoddi3_eq]; lia.
  - by intros ->.
Qed.

(** *** Signed division *)

Lemma i64_small z : - 2 ^ 63 ≤ z < 2 ^ 63 → i64 z = z.
Proof.
  intros Hz. unfold i64, sgn. destruct (decide (0 ≤ z)).
  - rewrite Z.mod_small by lia. destruct (Z.ltb_spec z (2 ^ (64 - 1))); lia.
  - assert (z mod 2 ^ 64 = z + 2 ^ 64) as ->
      by (symmetry; apply (Z.mod_unique_pos _ _ (-1)); lia).
    destruct (Z.ltb_spec (z + 2 ^ 64) (2 ^ (64 - 1))); lia.
Qed.

(** The magnitude the code computes, also for the least value. *)
Lemma magnitude z : - 2 ^ 63 ≤ z < 0 → u64 (i64 (- z)) = - z.
Proof.
  intros Hz. destruct (decide (z = - 2 ^ 63)) as [->|]; [done|].
  rewrite i64_small by lia. apply u64_small. lia.
Qed.

(** The signed results as magnitude and sign. *)
Lemma signed_result neg m :
  0 ≤ m ≤ 2 ^ 63 → (neg = false → m < 2 ^ 63) →
  (if (if neg : bool then -1 else 1) <? 0 then i64 (- i64 m) else i64 m) = if neg then - m else m.
Proof.
  intros Hm Hn. destruct neg; simpl.
  - destruct (decide (m = 2 ^ 63)) as [->|]; [done|]. rewrite !i64_small; try rewrite i64_small; lia.
  - apply i64_small. specialize (Hn eq_refl). lia.
Qed.

Lemma quot_magnitude a b :
  b ≠ 0 → Z.quot a b = if xorb (a <? 0) (b <? 0) then - (Z.abs a / Z.abs b) else Z.abs a / Z.abs b.
Proof.
  intros Hb. rewrite <- Z.quot_div_nonneg by lia.
  destruct (Z.ltb_spec a 0), (Z.ltb_spec b 0); simpl.
  - rewrite !Z.abs_neq, Z.quot_opp_opp by lia. done.
  - rewrite (Z.abs_neq a), (Z.abs_eq b), Z.quot_opp_l by lia. lia.
  - rewrite (Z.abs_eq a), (Z.abs_neq b), Z.quot_opp_r by lia. lia.
  - by rewrite !Z.abs_eq by lia.
Qed.

Lemma rem_magnitude a b :
  b ≠ 0 → Z.rem a b = if a <? 0 then - (Z.abs a mod Z.abs b) else Z.abs a mod Z.abs b.
Proof.
  intros Hb. rewrite <- Z.rem_mod_nonneg by lia.
  destruct (Z.ltb_spec a 0).
  - rewrite (Z.abs_neq a) by lia. rewrite Z.rem_opp_l', Z.rem_abs_r by lia. lia.
  - rewrite (Z.abs_eq a) by lia. by rewrite Z.rem_abs_r by lia.
Qed.

Lemma abs_div_bounds a b :
  - 2 ^ 63 ≤ a < 2 ^ 63 → - 2 ^ 63 ≤ b < 2 ^ 63 → b ≠ 0 → (a ≠ - 2 ^ 63 ∨ b ≠ -1) →
  0 ≤ Z.abs a / Z.abs b ≤ 2 ^ 63 ∧
  (xorb (a <? 0) (b <? 0) = false → Z.abs a / Z.abs b < 2 ^ 63).
Proof.
  intros Ha Hb Hb0 Hov. split.
  - split; [apply Z.div_pos; lia | apply Z.div_le_upper_bound; nia].
  - intros Hs. destruct (decide (Z.abs b = 1)) as [E|].
    + rewrite E, Z.div_1_r. destruct (Z.ltb_spec a 0), (Z.ltb_spec b 0); simpl in Hs; lia.
    + apply Z.div_lt_upper_bound; nia.
Qed.

Lemma divdi3_magnitude a b :
  - 2 ^ 63 ≤ a < 2 ^ 63 → - 2 ^ 63 ≤ b < 2 ^ 63 → b ≠ 0 →
  divdi3 a b =
  let m := Z.abs a / Z.abs b in
  if (if xorb (a <? 0) (b <? 0) then -1 else 1) <? 0 then i64 (- i64 m) else i64 m.
Proof.
  intros Ha Hb Hb0. unfold divdi3. destruct (Z.eqb_spec b 0); [done|].
  destruct (Z.ltb_spec a 0), (Z.ltb_spec b 0);
    rewrite ?magnitude, ?(u64_small a), ?(u64_small b), udivdi3_eq by lia; simpl;
    rewrite ?(Z.abs_neq a), ?(Z.abs_eq a), ?(Z.abs_neq b), ?(Z.abs_eq b) by lia; done.
Qed.

Lemma moddi3_magnitude a b :
  - 2 ^ 63 ≤ a < 2 ^ 63 → - 2 ^ 63 ≤ b < 2 ^ 63 → b ≠ 0 →
  moddi3 a b =
  let m := Z.abs a mod Z.abs b in
  if (if a <? 0 then -1 else 1) <? 0 then i64 (- i64 m) else i64 m.
Proof.
  intros Ha Hb Hb0. unfold moddi3. destruct (Z.eqb_spec b 0); [done|].
  destruct (Z.ltb_spec a 0), (Z.ltb_spec b 0);
    rewrite ?magnitude, ?(u64_small a), ?(u64_small b), umoddi3_eq by lia; simpl;
    rewrite ?(Z.abs_neq a), ?(Z.abs_eq a), ?(Z.abs_neq b), ?(Z.abs_eq b) by lia; done.
Qed.

(** the signed division truncates towards zero and the remainder has the
    sign of the dividend, as C requires, whenever the quotient is
    representable. *)
Theorem divmod_signed_correct a b :
  - 2 ^ 63 ≤ a < 2 ^ 63 → - 2 ^ 63 ≤ b < 2 ^ 63 → b ≠ 0 →
  (a ≠ - 2 ^ 63 ∨ b ≠ -1) →
  divdi3 a b = Z.quot a b ∧ moddi3 a b = Z.rem a b.
Proof.
  intros Ha Hb Hb0 Hov. rewrite divdi3_magnitude, moddi3_magnitude by done.
  destruct (abs_div_bounds a b Ha Hb Hb0 Hov) as [Hm Hs].
  pose proof (Z.mod_pos_bound (Z.abs a) (Z.abs b) ltac:(lia)).
  split; cbv zeta; rewrite signed_result.
  - by rewrite quot_magnitude.
  - done.
  - done.
  - by rewrite rem_magnitude.
  - lia.
  - intros. lia.
Qed.

(** the shift helpers compute the 64-bit logical left shift, the logical
    right shift and the arithmetic right shift for every shift count. *)
Theorem shifts_correct v shift :
  0 ≤ shift →
  (0 ≤ v < 2 ^ 64 → ashldi3 v shift = (v * 2 ^ shift) mod 2 ^ 64 ∧
                    lshrdi3 v shift = v / 2 ^ shift) ∧
  (- 2 ^ 63 ≤ v < 2 ^ 63 → ashrdi3 v shift = v / 2 ^ shift).
Proof.
  intros Hs. unfold ashldi3, lshrdi3, ashrdi3.
  destruct (Z.leb_spec 64 shift) as [H64|H64].
  - assert (2 ^ 64 ≤ 2 ^ shift) by (apply Z.pow_le_mono_r; lia).
    split; [intros Hv; split|intros Hv].
    + replace shift with (64 + (shift - 64)) by lia. rewrite Z.pow_add_r by lia.
      replace (v * (2 ^ 64 * 2 ^ (shift - 64))) with (v * 2 ^ (shift - 64) * 2 ^ 64) by ring.
      by rewrite Z.mod_mul by lia.
    + by rewrite Z.div_small by lia.
    + destruct (Z.ltb_spec v 0); [|by rewrite Z.div_small by lia].
      apply (Z.div_unique_pos _ _ _ (v + 2 ^ shift)); lia.
  - rewrite !Z.shiftr_div_pow2, Z.shiftl_mul_pow2 by lia. done.
Qed.

Lemma udivmod_correct_witness :
  (3 ≠ 0 → udivdi3 (2 ^ 63 + 5) 3 = (2 ^ 63 + 5) / 3 ∧ umoddi3 (2 ^ 63 + 5) 3 = (2 ^ 63 + 5) mod 3) ∧
  (3 = 0 → udivdi3 (2 ^ 63 + 5) 3 = 0 ∧ umoddi3 (2 ^ 63 + 5) 3 = 0).
Proof. apply (udivmod_correct (2 ^ 63 + 5) 3); lia. Defined.

Lemma divmod_signed_correct_witness :
  divdi3 (- 2 ^ 63) 7 = Z.quot (- 2 ^ 63) 7 ∧ moddi3 (- 2 ^ 63) 7 = Z.rem (- 2 ^ 63) 7.
Proof. apply (divmod_signed_correct (- 2 ^ 63) 7); lia. Defined.

Lemma shifts_correct_witness :
  (0 ≤ 2 ^ 63 - 1 < 2 ^ 64 → ashldi3 (2 ^ 63 - 1) 40 = ((2 ^ 63 - 1) * 2 ^ 40) mod 2 ^ 64 ∧
                             lshrdi3 (2 ^ 63 - 1) 40 = (2 ^ 63 - 1) / 2 ^ 40) ∧
  (- 2 ^ 63 ≤ 2 ^ 63 - 1 < 2 ^ 63 → ashrdi3 (2 ^ 63 - 1) 40 = (2 ^ 63 - 1) / 2 ^ 40).
Proof. apply (shifts_correct (2 ^ 63 - 1) 40). lia. Defined.

End Compat.

(** ** The alternative implementation *)

Module Divdi3.

Definition udivdi3 (num den : Z) : Z :=
  if den =? 0 then 0
  else if den <=? 0xFFFFFFFF then
    let den32 := u32 den in
    let high := u32 (Z.shiftr num 32) in
    let low := u32 num in
    if high =? 0 then low / den32
    else
      let q_high := high / den32 in
      let r_high := high mod den32 in
      let mid := Z.lor (u64 (Z.shiftl r_high 32)) low in
      if Z.shiftr mid 32 =? 0 then
        let q_low := u32 mid / den32 in
        Z.lor (u64 (Z.shiftl q_high 32)) q_low
      else
        let mid_high := u32 (Z.shiftr mid 32) in
        let mid_low := u32 mid in
        let q_mid := mid_high / den32 in
        let r_mid := mid_high mod den32 in
        let final := Z.lor (u64 (Z.shiftl r_mid 32)) mid_low in
        let q_low := u32 final / den32 in
        Z.lor (Z.lor (u64 (Z.shiftl q_high 32)) (u64 (Z.shiftl q_mid 32))) q_low
  else if den <=? num then 1 else 0.

Definition divdi3 (num den : Z) : Z :=
  let '(sign, num) := if num <? 0 then (true, i64 (- num)) else (false, num) in
  let '(sign, den) := if den <? 0 then (negb sign, i64 (- den)) else (sign, den) in
  let result := udivdi3 (u64 num) (u64 den) in
  if sign : bool then i64 (- i64 result) else i64 result.

Definition umoddi3 (num den : Z) : Z :=
  let quot := udivdi3 num den in
  u64 (num - u64 (quot * den)).

Definition moddi3 (num den : Z) : Z :=
  let '(sign, num) := if num <? 0 then (true, i64 (- num)) else (false, num) in
  let den := if den <? 0 then i64 (- den) else den in
  let result := umoddi3 (u64 num) (u64 den) in
  if sign : bool then i64 (- i64 result) else i64 result.

(** this division is not exact: it drops the carry from the high half when
    [high mod den] is not 0, and answers at most 1 for a divisor above 32 bits. *)
Theorem udivdi3_not_exact :
  udivdi3 (2 ^ 32) 3 = 0 ∧ 2 ^ 32 / 3 = 1431655765 ∧
  udivdi3 (2 ^ 34) (2 ^ 32) = 1 ∧ 2 ^ 34 / 2 ^ 32 = 4.
Proof. by vm_compute. Qed.

(** it is exact for 32-bit divisors that divide the high half. *)
Theorem udivdi3_exact_when num den :
  0 ≤ num < 2 ^ 64 → 0 < den < 2 ^ 32 → (num / 2 ^ 32) mod den = 0 →
  udivdi3 num den = num / den.
Proof.
  intros Hn Hd Hr. unfold udivdi3.
  destruct (Z.eqb_spec den 0); [lia|]. destruct (Z.leb_spec den 0xFFFFFFFF); [|lia].
  rewrite (u32_small den) by lia. rewrite !Z.shiftr_div_pow2 by lia.
  assert (0 ≤ num / 2 ^ 32 < 2 ^ 32) by dlia.
  rewrite (u32_small (num / 2 ^ 32)) by done. unfold u32.
  pose proof (Z.mod_pos_bound num (2 ^ 32) ltac:(lia)).
  assert (num = 2 ^ 32 * (num / 2 ^ 32) + num mod 2 ^ 32) as Hsplit by (apply Z.div_mod; lia).
  set (h := num / 2 ^ 32) in *. set (l := num mod 2 ^ 32) in *.
  destruct (Z.eqb_spec h 0) as [Eh|].
  { f_equal. lia. }
  rewrite Hr. rewrite Z.shiftl_0_l. change (u64 0) with 0. rewrite Z.lor_0_l.
  rewrite (Z.div_small l) by lia. rewrite Z.eqb_refl.
  rewrite (Z.mod_small l) by lia. rewrite Z.shiftl_mul_pow2 by lia.
  assert (h = den * (h / den)) as Hh by (rewrite (Z.div_mod h den) at 1 by lia; lia).
  assert (0 ≤ h / den ≤ h) by (split; [apply Z.div_pos; lia | apply Z.div_le_upper_bound; nia]).
  rewrite u64_small by lia.
  assert (0 ≤ l / den < 2 ^ 32)
    by (split; [apply Z.div_pos; lia | apply Z.div_lt_upper_bound; nia]).
  rewrite lor_pow2_add by lia.
  replace (num / den) with ((l + (h / den * 2 ^ 32) * den) / den) by (f_equal; nia).
  rewrite Z.div_add by lia. lia.
Qed.

Lemma udivdi3_exact_when_witness : udivdi3 (6 * 2 ^ 32 + 17) 3 = (6 * 2 ^ 32 + 17) / 3.
Proof. apply (udivdi3_exact_when (6 * 2 ^ 32 + 17) 3); [lia | lia | reflexivity]. Defined.

End Divdi3.
