(* ===== verification/Bytes.v ===== *)
(** * Byte buffers

    The disk code works on arrays of bytes: [memcpy] out of one and into another
    at an offset, [memset], and the little-endian words in them.  A buffer is the
    list of its bytes; copying outside of it has no meaning. *)

From S2P Require Import Prelude.

#[local] Open Scope Z_scope.

Abbreviation zlen l := (Z.of_nat (length l)).

(** [n] bytes at offset [off]. *)
Definition slice (off n : Z) (l : list Z) : option (list Z) :=
  if (0 <=? off) && (0 <=? n) && (off + n <=? zlen l) then Some (take (Z.to_nat n) (drop (Z.to_nat off) l)) else None.

(** [memcpy(l + off, src, length src)] *)
Definition splice (off : Z) (src l : list Z) : option (list Z) :=
  if (0 <=? off) && (off + zlen src <=? zlen l) then
    Some (take (Z.to_nat off) l ++ src ++ drop (Z.to_nat off + length src) l)
  else None.

(** The bytes of [f] from address [a] on. *)
Definition bytes (f : Z → Z) (a n : Z) : list Z := (λ i, f (a + i)) <$> seqZ 0 n.

Definition is_byte (b : Z) : Prop := 0 ≤ b < 256.

(** A little-endian 32-bit word. *)
Definition le32 (b0 b1 b2 b3 : Z) : Z := b0 + 256 * b1 + 65536 * b2 + 16777216 * b3.
Definition le32_bytes (v : Z) : list Z := [v mod 256; v / 256 mod 256; v / 65536 mod 256; v / 16777216 mod 256].
Definition get32 (l : list Z) (off : Z) : option Z :=
  match slice off 4 l with Some [b0; b1; b2; b3] => Some (le32 b0 b1 b2 b3) | _ => None end.
Definition get16 (l : list Z) (off : Z) : option Z :=
  match slice off 2 l with Some [b0; b1] => Some (b0 + 256 * b1) | _ => None end.
Definition le16_bytes (v : Z) : list Z := [v mod 256; v / 256 mod 256].

Lemma le32_bytes_eq v : 0 ≤ v < 2 ^ 32 →
  le32 (v mod 256) (v / 256 mod 256) (v / 65536 mod 256) (v / 16777216 mod 256) = v.
Proof. intros Hv. unfold le32. dlia. Qed.

Lemma le32_range b0 b1 b2 b3 : is_byte b0 → is_byte b1 → is_byte b2 → is_byte b3 → 0 ≤ le32 b0 b1 b2 b3 < 2 ^ 32.
Proof. unfold is_byte, le32. lia. Qed.

Lemma length_bytes f a n : 0 ≤ n → zlen (bytes f a n) = n.
Proof. intros Hn. unfold bytes. rewrite length_fmap, length_seqZ. lia. Qed.

Lemma bytes_lookup f a n i : 0 ≤ i < n → bytes f a n !! Z.to_nat i = Some (f (a + i)).
Proof.
  intros Hi. unfold bytes. rewrite list_lookup_fmap, lookup_seqZ_lt by lia. cbn. do 2 f_equal. lia.
Qed.

Lemma bytes_ext f g a n : (∀ i, 0 ≤ i < n → f (a + i) = g (a + i)) → bytes f a n = bytes g a n.
Proof. intros H. unfold bytes. apply list_fmap_ext. intros k i Hi. apply lookup_seqZ in Hi as [-> Hk]. apply H. lia. Qed.

Lemma bytes_app f a n m : 0 ≤ n → 0 ≤ m → bytes f a (n + m) = bytes f a n ++ bytes f (a + n) m.
Proof.
  intros Hn Hm. unfold bytes. rewrite (seqZ_app 0 n m) by lia. rewrite fmap_app. f_equal.
  replace (0 + n) with (n + 0) by lia. rewrite <- (fmap_add_seqZ n 0 m). rewrite <- list_fmap_compose.
  apply list_fmap_ext. intros k i _. cbn. f_equal. lia.
Qed.

Lemma slice_bytes f a n off k :
  0 ≤ off → 0 ≤ k → off + k ≤ n → slice off k (bytes f a n) = Some (bytes f (a + off) k).
Proof.
  intros Ho Hk Hn. unfold slice. rewrite length_bytes by lia.
  rewrite !(proj2 (Z.leb_le _ _)) by lia. cbn [andb]. f_equal.
  replace n with (off + (k + (n - off - k))) by lia. rewrite !bytes_app by lia.
  rewrite drop_app_length' by (pose proof (length_bytes f a off); lia).
  rewrite take_app_length' by (pose proof (length_bytes f (a + off) k); lia). done.
Qed.

Lemma splice_Some off src l : 0 ≤ off → off + zlen src ≤ zlen l → ∃ l', splice off src l = Some l' ∧ length l' = length l.
Proof.
  intros Ho Hl. unfold splice. rewrite !(proj2 (Z.leb_le _ _)) by lia. cbn [andb]. eexists. split; [done|].
  rewrite !length_app, length_take, length_drop. lia.
Qed.

Lemma splice_lookup off src l l' i :
  splice off src l = Some l' → 0 ≤ i →
  l' !!! Z.to_nat i = if (off <=? i) && (i <? off + zlen src) then src !!! Z.to_nat (i - off) else l !!! Z.to_nat i.
Proof.
  unfold splice. destruct (Z.leb_spec 0 off), (Z.leb_spec (off + zlen src) (zlen l)); cbn [andb]; try done. intros [= <-] Hi.
  rewrite !list_lookup_total_alt. destruct (Z.leb_spec off i); cbn [andb].
  - rewrite lookup_app_r by (rewrite length_take; lia). rewrite length_take. destruct (Z.ltb_spec i (off + zlen src)).
    + rewrite lookup_app_l by lia. do 2 f_equal. lia.
    + rewrite lookup_app_r by lia. rewrite lookup_drop. do 2 f_equal. lia.
  - rewrite lookup_app_l by (rewrite length_take; lia). by rewrite lookup_take_lt by lia.
Qed.

Lemma splice_Forall (P : Z → Prop) off src l l' :
  splice off src l = Some l' → Forall P src → Forall P l → Forall P l'.
Proof.
  unfold splice. destruct (_ && _); [|done]. intros [= <-] Hs Hl.
  apply Forall_app; split; [by apply Forall_take|]. apply Forall_app; split; [done | by apply Forall_drop].
Qed.

(** ** Overwriting, without bounds *)

Definition over (off : nat) (src l : list Z) : list Z := take off l ++ src ++ drop (off + length src) l.

Lemma splice_over off src l : 0 ≤ off → off + zlen src ≤ zlen l → splice off src l = Some (over (Z.to_nat off) src l).
Proof. intros Ho Hl. unfold splice. rewrite !(proj2 (Z.leb_le _ _)) by lia. done. Qed.

Lemma slice_take off n l : 0 ≤ off → 0 ≤ n → off + n ≤ zlen l → slice off n l = Some (take (Z.to_nat n) (drop (Z.to_nat off) l)).
Proof. intros Ho Hn Hl. unfold slice. rewrite !(proj2 (Z.leb_le _ _)) by lia. done. Qed.

Lemma length_over off src l : (off + length src ≤ length l)%nat → length (over off src l) = length l.
Proof. intros H. unfold over. rewrite !length_app, length_take, length_drop. lia. Qed.

Lemma over_whole src l : length src = length l → over 0 src l = src.
Proof. intros H. unfold over. rewrite take_0, drop_ge by lia. cbn. by rewrite app_nil_r. Qed.

Lemma over_nil off l : over off [] l = l.
Proof. unfold over. cbn. rewrite Nat.add_0_r. apply take_drop. Qed.

Lemma over_Forall (P : Z → Prop) off src l : Forall P src → Forall P l → Forall P (over off src l).
Proof. intros Hs Hl. apply Forall_app; split; [by apply Forall_take|]. apply Forall_app; split; [done | by apply Forall_drop]. Qed.

(** Overwriting across a boundary, and within the part in front of it. *)
Lemma over_app off w1 w2 A B :
  (off + length w1 = length A)%nat → over off (w1 ++ w2) (A ++ B) = over off w1 A ++ over 0 w2 B.
Proof.
  intros H. unfold over. rewrite take_app_le, length_app by lia. rewrite (drop_ge A) by lia. rewrite take_0, app_nil_r, app_nil_l.
  rewrite <- !app_assoc. do 2 f_equal. replace (off + (length w1 + length w2))%nat with (length A + length w2)%nat by lia.
  by rewrite drop_app_add.
Qed.

Lemma over_app_l off w A B : (off + length w ≤ length A)%nat → over off w (A ++ B) = over off w A ++ B.
Proof. intros H. unfold over. rewrite take_app_le, drop_app_le by lia. by rewrite <- !app_assoc. Qed.

Lemma over_app_r off w A B : over (length A + off) w (A ++ B) = A ++ over off w B.
Proof.
  unfold over. rewrite take_app_add. rewrite <- Nat.add_assoc, drop_app_add. by rewrite <- app_assoc.
Qed.

Lemma over_read off src l : (off ≤ length l)%nat → take (length src) (drop off (over off src l)) = src.
Proof.
  intros H. unfold over. rewrite drop_app_ge, length_take by (rewrite length_take; lia).
  replace (off - off `min` length l)%nat with 0%nat by lia. rewrite drop_0. apply take_app_length.
Qed.

Lemma lookup_over_ne off src l i :
  (off + length src ≤ length l)%nat → (i < off ∨ off + length src ≤ i)%nat → over off src l !! i = l !! i.
Proof.
  intros Hl Hi. unfold over. destruct (decide (i < off)%nat) as [Hlt|Hge].
  - rewrite lookup_app_l by (rewrite length_take; lia). by rewrite lookup_take_lt.
  - rewrite lookup_app_r, length_take by (rewrite length_take; lia). rewrite lookup_app_r, lookup_drop by lia. f_equal. lia.
Qed.

Lemma over_read_ne off src l a n :
  (off + length src ≤ length l)%nat → (a + n ≤ off ∨ off + length src ≤ a)%nat → take n (drop a (over off src l)) = take n (drop a l).
Proof.
  intros Hl Ha. apply list_eq. intros i. destruct (decide (i < n)%nat) as [Hi|Hi].
  - rewrite !lookup_take_lt, !lookup_drop by done. apply lookup_over_ne; lia.
  - by rewrite !lookup_take_ge by lia.
Qed.
