(* ===== verification/Format.v ===== *)
(** * Formatted output (kernel/kernel.c)

    [itoa_internal] and the three interpreters of format strings built on it:
    [snprintf], [ksnprintf] and [kvprintf].  A format string is the list of its
    characters without the terminator; the state of an interpreter is the list of
    the arguments that [va_arg] has not taken yet.  Taking an argument that is not
    there or has another type, and reading behind the end of the format string,
    are [Undef].

    Text is a list of characters as bytes.  [kvprintf] writes to the console; here
    it returns what it writes. *)

From S2P Require Import Prelude Bytes.

#[local] Open Scope Z_scope.

(** ** Numbers *)

(** [while (num != 0)]: the digits, least significant first.  A [long long] has at
    most 64 digits in any base. *)
Fixpoint itoa_loop (fuel : nat) (num base : Z) : list Z :=
  match fuel with
  | O => []
  | S fuel =>
      if num =? 0 then []
      else
        let rem := Z.rem num base in
        u8 (if 9 <? rem then (rem - 10) + 97 else rem + 48) :: itoa_loop fuel (Z.quot num base) base
  end.

(** The swaps that turn the string around. *)
Fixpoint swap_loop (fuel start end_ : nat) (str : list Z) : list Z :=
  match fuel with
  | O => str
  | S fuel =>
      if (start <? end_)%nat then
        let temp := str !!! start in
        swap_loop fuel (S start) (pred end_) (<[end_ := temp]> (<[start := str !!! end_]> str))
      else str
  end.

Definition itoa_internal (num base : Z) (is_signed : bool) : list Z :=
  if num =? 0 then [48]
  else
    let is_negative := is_signed && (num <? 0) in
    let num := if is_negative then i64 (- num) else num in
    let str := itoa_loop 64 num base ++ (if is_negative then [45] else []) in
    swap_loop (length str) 0 (pred (length str)) str.

(** ** Arguments *)

(** An [int] or [unsigned int], a [long long], a string; [None] is the null pointer. *)
Inductive arg := AInt (z : Z) | ALong (z : Z) | AStr (s : option (list Z)).

Definition va_int : M (list arg) Z :=
  args ← get; match args with AInt z :: args => _ ← put args; mret z | _ => undef end.
Definition va_long : M (list arg) Z :=
  args ← get; match args with ALong z :: args => _ ← put args; mret z | _ => undef end.
Definition va_str : M (list arg) (option (list Z)) :=
  args ← get; match args with AStr s :: args => _ ← put args; mret s | _ => undef end.

(** ** snprintf *)

(** [while ( *s && written < size - 1) *p++ = *s++]. *)
Fixpoint put_string (limit : Z) (s out : list Z) : list Z :=
  match s with
  | [] => out
  | c :: s => if zlen out <? limit then put_string limit s (out ++ [c]) else out
  end.

Definition snprintf_conv (limit conv : Z) (out : list Z) : M (list arg) (list Z) :=
  if conv =? 115 then s ← va_str; mret (match s with Some s => put_string limit s out | None => out end)
  else if (conv =? 100) || (conv =? 105) then num ← va_int; mret (put_string limit (itoa_internal (i32 num) 10 true) out)
  else if conv =? 117 then num ← va_int; mret (put_string limit (itoa_internal (u32 num) 10 false) out)
  else if conv =? 120 then num ← va_int; mret (put_string limit (itoa_internal (u32 num) 16 false) out)
  else if conv =? 99 then c ← va_int; mret (if zlen out <? limit then out ++ [u8 c] else out)
  else if conv =? 37 then mret (if zlen out <? limit then out ++ [37] else out)
  else mret out.

(** The two interpreters that write to a buffer differ in their conversions. *)
Fixpoint format_loop (convert : Z → list Z → M (list arg) (list Z)) (limit : Z) (fmt out : list Z) : M (list arg) (list Z) :=
  match fmt with
  | [] => mret out
  | c :: fmt =>
      if zlen out <? limit then
        if c =? 37 then
          match fmt with
          | [] => undef
          | conv :: fmt => out ← convert conv out; format_loop convert limit fmt out
          end
        else format_loop convert limit fmt (out ++ [c])
      else mret out
  end.

(** The number of characters, and what is in the buffer from its start on, the
    terminator included.  A null buffer is not modelled. *)
Definition snprintf (size : Z) (fmt : list Z) : M (list arg) (Z * list Z) :=
  if size =? 0 then mret (0, [])
  else out ← format_loop (snprintf_conv (size - 1)) (size - 1) fmt []; mret (zlen out, out ++ [0]).

(** ** ksnprintf *)

Definition ksnprintf_conv (limit conv : Z) (out : list Z) : M (list arg) (list Z) :=
  if conv =? 115 then s ← va_str; mret (match s with Some s => put_string limit s out | None => out end)
  else if conv =? 100 then num ← va_int; mret (put_string limit (itoa_internal (i32 num) 10 true) out)
  else if conv =? 117 then num ← va_int; mret (put_string limit (itoa_internal (u32 num) 10 false) out)
  else if conv =? 120 then num ← va_int; mret (put_string limit (itoa_internal (u32 num) 16 false) out)
  else if conv =? 99 then c ← va_int; mret (if zlen out <? limit then out ++ [u8 c] else out)
  else if conv =? 37 then mret (if zlen out <? limit then out ++ [37] else out)
  else mret (if zlen out <? limit - 1 then out ++ [37; conv] else out).

Definition ksnprintf (size : Z) (fmt : list Z) : M (list arg) (Z * list Z) :=
  if size =? 0 then mret (0, [])
  else out ← format_loop (ksnprintf_conv (size - 1)) (size - 1) fmt []; mret (zlen out, out ++ [0]).

(** ** kvprintf *)

Definition capital (c : Z) : Z := if (97 <=? c) && (c <=? 102) then c - 97 + 65 else c.

(** What is written for one conversion, and how many characters of the format
    string behind its letter it has used. *)
Definition kvprintf_conv (conv : Z) (fmt : list Z) : M (list arg) (list Z * nat) :=
  if conv =? 115 then s ← va_str; mret (default [40; 110; 117; 108; 108; 41] s, 0%nat)
  else if (conv =? 100) || (conv =? 105) then num ← va_int; mret (itoa_internal (i32 num) 10 true, 0%nat)
  else if conv =? 117 then num ← va_int; mret (itoa_internal (u32 num) 10 false, 0%nat)
  else if conv =? 120 then num ← va_int; mret (itoa_internal (u32 num) 16 false, 0%nat)
  else if conv =? 88 then num ← va_int; mret (capital <$> itoa_internal (u32 num) 16 false, 0%nat)
  else if conv =? 112 then num ← va_int; mret ([48; 120] ++ itoa_internal (u32 num) 16 false, 0%nat)
  else if conv =? 99 then c ← va_int; mret ([u8 c], 0%nat)
  else if conv =? 37 then mret ([37], 0%nat)
  else if conv =? 48 then
    match fmt with
    | w :: fmt =>
        if (49 <=? w) && (w <=? 57) then
          match fmt with
          | [] => undef
          | x :: _ =>
              if (x =? 120) || (x =? 88) then
                num ← va_int;
                let buffer := itoa_internal (u32 num) 16 false in
                mret (replicate (Z.to_nat (w - 48 - zlen buffer)) 48 ++ buffer, 2%nat)
              else mret ([], 2%nat)
          end
        else mret ([], 0%nat)
    | [] => mret ([], 0%nat)
    end
  else if conv =? 108 then
    match fmt with
    | l :: fmt =>
        if l =? 108 then
          match fmt with
          | d :: _ =>
              if d =? 117 then num ← va_long; mret (itoa_internal (i64 num) 10 false, 2%nat)
              else if d =? 100 then num ← va_long; mret (itoa_internal (i64 num) 10 true, 2%nat)
              else mret ([], 1%nat)
          | [] => mret ([], 1%nat)
          end
        else mret ([], 0%nat)
    | [] => mret ([], 0%nat)
    end
  else mret ([37; conv], 0%nat).

(** Each round uses at least one character: the length is enough fuel. *)
Fixpoint kvprintf_loop (fuel : nat) (fmt : list Z) : M (list arg) (list Z) :=
  match fuel with
  | O => mret []
  | S fuel =>
      match fmt with
      | [] => mret []
      | c :: fmt =>
          if c =? 37 then
            match fmt with
            | [] => undef
            | conv :: fmt =>
                '(s, used) ← kvprintf_conv conv fmt;
                rest ← kvprintf_loop fuel (drop used fmt);
                mret (s ++ rest)
            end
          else rest ← kvprintf_loop fuel fmt; mret (c :: rest)
      end
  end.

Definition kvprintf (fmt : list Z) : M (list arg) (list Z) := kvprintf_loop (length fmt) fmt.

(** ** Numbers are printed so that they can be read back *)

Lemma swap_loop_spec m : ∀ fuel p l q,
  length l = m → (m ≤ 2 * fuel)%nat →
  swap_loop fuel (length p) (pred (length p + m)) (p ++ l ++ q) = p ++ rev l ++ q.
Proof.
  induction m as [m IH] using lt_wf_ind. intros fuel p l q Hm Hf.
  destruct (decide (m ≤ 1)%nat) as [Hs|Hs].
  { assert (rev l = l) as -> by (destruct l as [|x [|y l]]; cbn in *; [done | done | lia]).
    destruct fuel; cbn [swap_loop]; [done|]. by rewrite (proj2 (Nat.ltb_ge _ _)) by lia. }
  destruct fuel as [|fuel]; [lia|]. cbn [swap_loop]. rewrite (proj2 (Nat.ltb_lt _ _)) by lia. cbv zeta.
  destruct l as [|x l]; [cbn in *; lia|]. destruct l as [|y l _] using rev_ind; [cbn in *; lia|].
  rewrite length_cons, length_app in Hm. cbn in Hm.
  replace (pred (length p + m)) with (length p + S (length l))%nat by lia.
  assert (∀ a b, p ++ (a :: l ++ [b]) ++ q = (p ++ [a]) ++ l ++ (b :: q)) as Happ by (intros; cbn; rewrite <- !app_assoc; done).
  assert ((p ++ (x :: l ++ [y]) ++ q) !!! (length p + S (length l))%nat = y) as ->.
  { rewrite Happ. rewrite list_lookup_total_alt. rewrite !lookup_app_r by (rewrite ?length_app; cbn; lia). rewrite !length_app. cbn.
    by replace (length p + S (length l) - (length p + 1) - length l)%nat with 0%nat by lia. }
  assert ((p ++ (x :: l ++ [y]) ++ q) !!! length p = x) as -> by (rewrite list_lookup_total_alt, lookup_app_r by lia; by rewrite Nat.sub_diag).
  rewrite insert_app_r_alt, Nat.sub_diag by lia. cbn [insert list_insert app]. change (y :: (l ++ [y]) ++ q) with ((y :: l ++ [y]) ++ q).
  rewrite Happ. rewrite insert_app_r_alt by (rewrite length_app; cbn; lia). rewrite length_app. cbn [length].
  replace (length p + S (length l) - (length p + 1))%nat with (length l + 0)%nat by lia. rewrite insert_app_r. cbn [insert list_insert].
  specialize (IH (length l) ltac:(lia) fuel (p ++ [y]) l (x :: q) eq_refl ltac:(lia)). rewrite length_app in IH. cbn [length] in IH.
  replace (pred (length p + 1 + length l)) with (pred (length p + S (length l))) in IH by lia.
  replace (length p + 1)%nat with (S (length p)) in IH by lia. rewrite IH. cbn [rev]. rewrite rev_app_distr. cbn. by rewrite <- !app_assoc.
Qed.

Lemma swap_loop_rev l : swap_loop (length l) 0 (pred (length l)) l = rev l.
Proof. pose proof (swap_loop_spec (length l) (length l) [] l [] eq_refl ltac:(lia)) as H. rewrite !app_nil_r in H. exact H. Qed.

(** Reading a number, as a reference. *)
Definition digit (c : Z) : Z := if 97 <=? c then c - 97 + 10 else c - 48.
Definition parse_nat (base : Z) (s : list Z) : Z := fold_left (λ n c, n * base + digit c) s 0.
Definition parse (base : Z) (s : list Z) : Z :=
  match s with 45 :: s => - parse_nat base s | _ => parse_nat base s end.

Lemma parse_nat_snoc base s c : parse_nat base (s ++ [c]) = parse_nat base s * base + digit c.
Proof. unfold parse_nat. by rewrite fold_left_app. Qed.

Lemma itoa_loop_spec base fuel num :
  2 ≤ base ≤ 36 → 0 ≤ num < 2 ^ Z.of_nat fuel →
  parse_nat base (rev (itoa_loop fuel num base)) = num ∧ Forall (λ c, c ≠ 45) (itoa_loop fuel num base).
Proof.
  intros Hb. revert num. induction fuel as [|fuel IH]; intros num Hn; [cbn in *; split; [lia | done]|].
  cbn [itoa_loop]. destruct (Z.eqb_spec num 0) as [->|Hz]; [done|]. cbv zeta.
  rewrite Z.rem_mod_nonneg, Z.quot_div_nonneg by lia. pose proof (Z.mod_pos_bound num base ltac:(lia)) as Hm.
  assert (0 ≤ num / base < 2 ^ Z.of_nat fuel) as Hq.
  { split; [apply Z.div_pos; lia|]. apply Z.div_lt_upper_bound; [lia|]. replace (Z.of_nat (S fuel)) with (Z.of_nat fuel + 1) in Hn by lia.
    rewrite Z.pow_add_r in Hn by lia. nia. }
  destruct (IH _ Hq) as [E Hf]. set (c := u8 _). cbn [rev]. rewrite parse_nat_snoc, E.
  assert (digit c = num mod base ∧ c ≠ 45) as [-> Hc].
  { unfold c, u8, digit. destruct (Z.ltb_spec 9 (num mod base)); rewrite (Z.mod_small _ (2 ^ 8)) by lia; match goal with |- context [97 <=? ?x] => destruct (Z.leb_spec 97 x) end; lia. }
  split; [|by constructor]. pose proof (Z.div_mod num base ltac:(lia)). lia.
Qed.

Lemma length_itoa_loop fuel num base k :
  10 ≤ base → 0 ≤ num < 10 ^ Z.of_nat k → (length (itoa_loop fuel num base) ≤ k)%nat.
Proof.
  intros Hb. revert num k. induction fuel as [|fuel IH]; intros num k Hn; cbn [itoa_loop]; [cbn; lia|].
  destruct (Z.eqb_spec num 0); cbn; [lia|]. destruct k as [|k]; [cbn in Hn; lia|]. apply le_n_S. apply IH.
  rewrite Z.quot_div_nonneg by lia. split; [apply Z.div_pos; lia|]. apply Z.div_lt_upper_bound; [lia|].
  replace (Z.of_nat (S k)) with (Z.of_nat k + 1) in Hn by lia. rewrite Z.pow_add_r in Hn by lia. nia.
Qed.

(** Reading the text that [itoa_internal] produces gives the number back, for every
    [long long] but the least one, and for unsigned conversions of numbers that
    are not negative; the text and its terminator fit the buffer of 32 characters
    of the callers. *)
Theorem itoa_roundtrip num base is_signed :
  10 ≤ base ≤ 36 → - 2 ^ 63 < num < 2 ^ 63 → is_signed = true ∨ 0 ≤ num →
  parse base (itoa_internal num base is_signed) = num ∧ zlen (itoa_internal num base is_signed) < 32.
Proof.
  intros Hb Hn Hs. unfold itoa_internal. destruct (Z.eqb_spec num 0) as [->|Hz]; [done|]. cbv zeta. rewrite swap_loop_rev.
  set (a := if is_signed && (num <? 0) then i64 (- num) else num).
  assert (a = Z.abs num ∧ 0 < a < 2 ^ 63) as [Ha Hr].
  { unfold a. destruct (Z.ltb_spec num 0); destruct is_signed; cbn [andb]; try lia.
    unfold i64, sgn. cbv zeta. change (64 - 1) with 63. rewrite Z.mod_small by lia. destruct (Z.ltb_spec (- num) (2 ^ 63)); lia. }
  destruct (itoa_loop_spec base 64 a ltac:(lia) ltac:(lia)) as [E Hf]. pose proof (length_itoa_loop 64 a base 20 ltac:(lia) ltac:(lia)) as Hl.
  rewrite rev_app_distr, length_app, !length_rev. destruct (is_signed && (num <? 0)) eqn:Hneg; cbn [rev app length].
  - unfold parse. rewrite E. apply andb_true_iff in Hneg as [_ Hneg%Z.ltb_lt]. lia.
  - assert (parse base (rev (itoa_loop 64 a base)) = parse_nat base (rev (itoa_loop 64 a base))) as ->.
    { destruct (rev (itoa_loop 64 a base)) as [|c t] eqn:El; [done|].
      assert (c ≠ 45) as Hc by (apply (Forall_forall (λ c, c ≠ 45) (itoa_loop 64 a base)); [done|]; apply list_elem_of_In, in_rev; rewrite El; by left).
      cbn. destruct c as [|c|c]; try done. repeat (destruct c as [c|c|]; try done). }
    rewrite E. split; [|lia]. apply andb_false_iff in Hneg as [->|Hneg%Z.ltb_ge]; [destruct Hs; [done|lia] | lia].
Qed.

Lemma itoa_roundtrip_witness : parse 10 (itoa_internal (-1205) 10 true) = -1205 ∧ zlen (itoa_internal (-1205) 10 true) < 32.
Proof. apply itoa_roundtrip; [lia | lia | by left]. Defined.

(** ** The three interpreters agree *)

(** The numeral of a number that is not negative, most significant digit first. *)
Definition glyph (d : Z) : Z := [48; 49; 50; 51; 52; 53; 54; 55; 56; 57; 97; 98; 99; 100; 101; 102] !!! Z.to_nat d.

Fixpoint numeral (fuel : nat) (base n : Z) : list Z :=
  match fuel with
  | O => []
  | S fuel => if n <? base then [glyph n] else numeral fuel base (n / base) ++ [glyph (n mod base)]
  end.

Definition decimal (n : Z) : list Z := if n <? 0 then 45 :: numeral 64 10 (- n) else numeral 64 10 n.

Lemma glyph_eq d : 0 ≤ d < 16 → u8 (if 9 <? d then (d - 10) + 97 else d + 48) = glyph d.
Proof.
  intros Hd. assert (Forall (λ d, u8 (if 9 <? d then (d - 10) + 97 else d + 48) = glyph d) (seqZ 0 16)) as H by by repeat constructor.
  rewrite Forall_forall in H. apply H. apply elem_of_seqZ. lia.
Qed.

Lemma itoa_loop_zero fuel base : itoa_loop fuel 0 base = [].
Proof. by destruct fuel. Qed.

Lemma itoa_loop_numeral base fuel n : 2 ≤ base ≤ 16 → 0 < n < 2 ^ Z.of_nat fuel → rev (itoa_loop fuel n base) = numeral fuel base n.
Proof.
  intros Hb. revert n. induction fuel as [|fuel IH]; intros n Hn; [cbn in Hn; lia|]. cbn [itoa_loop numeral].
  rewrite (proj2 (Z.eqb_neq n 0)) by lia. cbv zeta. rewrite Z.rem_mod_nonneg, Z.quot_div_nonneg by lia.
  pose proof (Z.mod_pos_bound n base ltac:(lia)) as Hm. rewrite glyph_eq by lia. cbn [rev]. destruct (Z.ltb_spec n base).
  - by rewrite Z.div_small, itoa_loop_zero, Z.mod_small by lia.
  - rewrite IH; [done|]. split; [apply Z.div_str_pos; lia|]. apply Z.div_lt_upper_bound; [lia|].
    replace (Z.of_nat (S fuel)) with (Z.of_nat fuel + 1) in Hn by lia. rewrite Z.pow_add_r in Hn by lia. nia.
Qed.

Lemma itoa_unsigned base n : 2 ≤ base ≤ 16 → itoa_internal (u32 n) base false = numeral 64 base (u32 n).
Proof.
  intros Hb. pose proof (u32_bounds n) as Hn. set (m := u32 n) in *. unfold itoa_internal. destruct (Z.eqb_spec m 0) as [->|Hz].
  - cbn [numeral]. by rewrite (proj2 (Z.ltb_lt 0 base)) by lia.
  - cbn [andb]. cbv zeta. rewrite app_nil_r, swap_loop_rev. apply itoa_loop_numeral; lia.
Qed.

Lemma itoa_signed n : itoa_internal (i32 n) 10 true = decimal (i32 n).
Proof.
  assert (- 2 ^ 31 ≤ i32 n < 2 ^ 31) as Hn.
  { unfold i32, sgn. cbv zeta. change (32 - 1) with 31. pose proof (Z.mod_pos_bound n (2 ^ 32) ltac:(lia)). destruct (Z.ltb_spec (n mod 2 ^ 32) (2 ^ 31)); lia. }
  set (m := i32 n) in *. unfold itoa_internal, decimal. destruct (Z.eqb_spec m 0) as [->|Hz]; [done|]. cbn [andb]. cbv zeta. rewrite swap_loop_rev.
  destruct (Z.ltb_spec m 0).
  - assert (i64 (- m) = - m) as ->.
    { unfold i64, sgn. cbv zeta. change (64 - 1) with 63. rewrite Z.mod_small by lia. by rewrite (proj2 (Z.ltb_lt _ _)) by lia. }
    rewrite rev_app_distr. cbn [rev app]. f_equal. apply itoa_loop_numeral; lia.
  - rewrite app_nil_r. apply itoa_loop_numeral; lia.
Qed.

(** What a format means: the whole text, for the conversions that all three have. *)
Definition conv_text (conv : Z) : M (list arg) (list Z) :=
  if conv =? 115 then s ← va_str; deref s
  else if conv =? 100 then num ← va_int; mret (decimal (i32 num))
  else if conv =? 117 then num ← va_int; mret (numeral 64 10 (u32 num))
  else if conv =? 120 then num ← va_int; mret (numeral 64 16 (u32 num))
  else if conv =? 99 then c ← va_int; mret [u8 c]
  else if conv =? 37 then mret [37]
  else undef.

Fixpoint render (fmt : list Z) : M (list arg) (list Z) :=
  match fmt with
  | [] => mret []
  | c :: fmt =>
      if c =? 37 then
        match fmt with
        | [] => undef
        | conv :: fmt => t ← conv_text conv; r ← render fmt; mret (t ++ r)
        end
      else r ← render fmt; mret (c :: r)
  end.

Lemma put_string_eq limit s out : put_string limit s out = out ++ take (Z.to_nat (limit - zlen out)) s.
Proof.
  revert out. induction s as [|c s IH]; intros out; cbn [put_string]; [by rewrite take_nil, app_nil_r|].
  destruct (Z.ltb_spec (zlen out) limit).
  - rewrite IH, length_app. cbn [length]. replace (Z.to_nat (limit - zlen out)) with (S (Z.to_nat (limit - Z.of_nat (length out + 1)))) by lia.
    cbn. by rewrite <- app_assoc.
  - by replace (Z.to_nat (limit - zlen out)) with 0%nat by lia; rewrite app_nil_r.
Qed.

(** A way to convert that appends as much of the text as there is room for. *)
Definition converts (limit : Z) (convert : Z → list Z → M (list arg) (list Z)) : Prop :=
  ∀ conv out args t args', zlen out < limit → conv_text conv args = Ret (t, args') → convert conv out args = Ret (put_string limit t out, args').

#[local] Opaque numeral decimal.

(** Split on the letter of a conversion; at a letter that has no text there is nothing left. *)
Ltac by_conversion H :=
  unfold conv_text in H;
  repeat match type of H with
  | context [?c =? ?n] => destruct (Z.eqb_spec c n) as [->|?]; cbn [Z.eqb Pos.eqb orb] in *
  end; try done.

(** The text comes from the same argument in the interpreter. *)
Ltac same_text H :=
  by_conversion H; try minv H;
  repeat match goal with E : va_int _ = _ |- _ => rewrite (bind_Ret _ _ _ _ _ E); clear E | E : va_str _ = _ |- _ => rewrite (bind_Ret _ _ _ _ _ E); clear E end;
  try match type of H with deref ?r _ = _ => destruct r; [|done] end; injection H as <- <-;
  rewrite ?itoa_signed, ?itoa_unsigned by lia.

Lemma snprintf_converts limit : converts limit (snprintf_conv limit).
Proof.
  intros conv out args t args' Ho H. unfold snprintf_conv. same_text H; cbn [put_string]; by rewrite ?(proj2 (Z.ltb_lt _ limit) Ho).
Qed.

Lemma ksnprintf_converts limit : converts limit (ksnprintf_conv limit).
Proof.
  intros conv out args t args' Ho H. unfold ksnprintf_conv. same_text H; cbn [put_string]; by rewrite ?(proj2 (Z.ltb_lt _ limit) Ho).
Qed.

Lemma kvprintf_converts conv fmt args t args' : conv_text conv args = Ret (t, args') → kvprintf_conv conv fmt args = Ret ((t, 0%nat), args').
Proof. intros H. unfold kvprintf_conv. by same_text H. Qed.

Lemma format_loop_spec limit convert n fmt out args s rest :
  converts limit convert → (length fmt ≤ n)%nat → render fmt args = Ret (s, rest) →
  ∃ rest', format_loop convert limit fmt out args = Ret (put_string limit s out, rest').
Proof.
  intros Hc. revert fmt out args s. induction n as [|n IH]; intros [|c fmt] out args s Hl H; try (cbn in *; lia).
  1, 2: injection H as <- <-; by exists args.
  cbn [format_loop]. destruct (Z.ltb_spec (zlen out) limit) as [Hlt|Hge].
  2:{ exists args. rewrite put_string_eq. replace (Z.to_nat (limit - zlen out)) with 0%nat by lia. by rewrite app_nil_r. }
  cbn [render] in H. destruct (c =? 37).
  - destruct fmt as [|conv fmt]; [done|]. minv H. minv H. injection H as <- <-. rewrite (bind_Ret _ _ _ _ _ (Hc _ _ _ _ _ Hlt E)).
    destruct (IH fmt (put_string limit r out) _ _ ltac:(cbn in *; lia) E0) as (rest' & ->). exists rest'. do 2 f_equal.
    rewrite !put_string_eq, length_app, length_take. rewrite <- app_assoc. f_equal. rewrite take_app. do 2 f_equal. lia.
  - minv H. injection H as <- <-. destruct (IH fmt (out ++ [c]) _ _ ltac:(cbn in *; lia) E) as (rest' & ->). exists rest'. cbn [put_string].
    by rewrite (proj2 (Z.ltb_lt _ limit) Hlt).
Qed.

Lemma kvprintf_loop_spec n fmt args s rest :
  (length fmt ≤ n)%nat → render fmt args = Ret (s, rest) → kvprintf_loop n fmt args = Ret (s, rest).
Proof.
  revert fmt args s. induction n as [|n IH]; intros [|c fmt] args s Hl H; try (cbn in *; lia); try done.
  cbn [render kvprintf_loop] in *. destruct (c =? 37).
  - destruct fmt as [|conv fmt]; [done|]. minv H. minv H. injection H as <- <-. rewrite (bind_Ret _ _ _ _ _ (kvprintf_converts _ fmt _ _ _ E)). cbv match.
    rewrite drop_0. by rewrite (bind_Ret _ _ _ _ _ (IH fmt _ _ ltac:(cbn in *; lia) E0)).
  - minv H. injection H as <- <-. by rewrite (bind_Ret _ _ _ _ _ (IH fmt _ _ ltac:(cbn in *; lia) E)).
Qed.

(** C38: The three interpreters of format strings produce the same text: the one that
    the format means, with numbers as decimal or hexadecimal numerals, for formats of
    the conversions that all three have (%s, %d, %u, %x, %c and %%) with matching
    arguments.  [kvprintf] writes all of it; [snprintf] and [ksnprintf] store as much as
    fits the buffer with its terminator, and never a character behind it, and return the
    length of what they stored. *)
Theorem printf_family_correct fmt args s rest size :
  render fmt args = Ret (s, rest) → 0 < size →
  let t := take (Z.to_nat (size - 1)) s in
  zlen (t ++ [0]) ≤ size ∧ kvprintf fmt args = Ret (s, rest) ∧
  (∃ r, snprintf size fmt args = Ret ((zlen t, t ++ [0]), r)) ∧ (∃ r, ksnprintf size fmt args = Ret ((zlen t, t ++ [0]), r)).
Proof.
  intros H Hs. cbv zeta.
  assert (∀ convert, converts (size - 1) convert → ∃ r, (out ← format_loop convert (size - 1) fmt []; mret (zlen out, out ++ [0])) args =
    Ret ((zlen (take (Z.to_nat (size - 1)) s), take (Z.to_nat (size - 1)) s ++ [0]), r)) as Hbuf.
  { intros convert Hc. destruct (format_loop_spec (size - 1) convert _ fmt [] args s rest Hc (le_n _) H) as (r & E). exists r.
    rewrite (bind_Ret _ _ _ _ _ E), put_string_eq. cbn [length app]. change (Z.of_nat 0) with 0. by rewrite Z.sub_0_r. }
  unfold snprintf, ksnprintf. rewrite (proj2 (Z.eqb_neq size 0)) by lia. split_and!.
  - rewrite length_app, length_take. cbn. lia.
  - by apply kvprintf_loop_spec.
  - apply Hbuf, snprintf_converts.
  - apply Hbuf, ksnprintf_converts.
Qed.

#[local] Transparent numeral decimal.

(** "~%d" with 12, into eight and into three characters. *)
Lemma printf_family_correct_witness :
  (∃ r, snprintf 8 [126; 37; 100] [AInt 12] = Ret ((3, [126; 49; 50; 0]), r)) ∧
  (∃ r, ksnprintf 3 [126; 37; 100] [AInt 12] = Ret ((2, [126; 49; 0]), r)).
Proof.
  split.
  - apply (printf_family_correct [126; 37; 100] [AInt 12] [126; 49; 50] [] 8 eq_refl). lia.
  - apply (printf_family_correct [126; 37; 100] [AInt 12] [126; 49; 50] [] 3 eq_refl). lia.
Defined.

(** A per cent sign at the end of a format string makes all three read behind it. *)
Lemma percent_at_end args : snprintf 64 [37] args = Undef ∧ ksnprintf 64 [37] args = Undef ∧ kvprintf [37] args = Undef.
Proof. done. Qed.

(** [%llu] does not print numbers from 2^63 on: they are taken for negative ones,
    and the remainders with them. *)
Lemma llu_wraps : kvprintf [37; 108; 108; 117] [ALong (2 ^ 64 - 1)] = Ret ([47], []).
Proof. reflexivity. Qed.
