(* ===== verification/Net.v ===== *)
(** * The network layer (kernel/net/netdev.c, kernel/net/ethernet.c, kernel/net/ip.c)

    A packet buffer is the array that [head] points to, with [data] and [tail] as
    positions in it; reading or writing outside of the array is [Undef].  A buffer of
    the pool that is not in use has no entry in [skbs], so that using it is [Undef] as
    well.  What [kmalloc] returns is an argument: the contents of the memory, [None]
    for a null pointer.  There is one device; the frames that its driver
    (rtl8139_start_xmit of kernel/drivers/rtl8139.c) hands to the hardware are the list
    [wire]. *)

From S2P Require Import Prelude Bytes.

#[local] Open Scope Z_scope.

Abbreviation ETH_ALEN := 6%Z (only parsing).
Abbreviation ETH_FRAME_LEN := 1514%Z (only parsing).
Abbreviation ETH_P_IP := 0x0800%Z (only parsing).
Abbreviation ETH_P_ARP := 0x0806%Z (only parsing).
Abbreviation IPPROTO_ICMP := 1%Z (only parsing).
Abbreviation ICMP_ECHO := 8%Z (only parsing).
Abbreviation ICMP_ECHOREPLY := 0%Z (only parsing).
Abbreviation ARPOP_REQUEST := 1%Z (only parsing).
Abbreviation ARPOP_REPLY := 2%Z (only parsing).
Abbreviation ARP_CACHE_SIZE := 32%Z (only parsing).
Abbreviation SKB_POOL_SIZE := 256%Z (only parsing).
Abbreviation RTL8139_TX_BUF_SIZE := 1536%Z (only parsing).
Abbreviation sizeof_ethhdr := 14%Z (only parsing).
Abbreviation sizeof_iphdr := 20%Z (only parsing).
Abbreviation sizeof_arphdr := 8%Z (only parsing).
Abbreviation sizeof_icmphdr := 8%Z (only parsing).

(** [has_xmit] is whether the device has operations with [ndo_start_xmit]. *)
Record net_device := { dev_addr : list Z; broadcast : list Z; ip_addr : Z; has_xmit : bool }.

(** [skb_dev] is whether [dev] points to the device; the fields that the code only sets
    are left out. *)
Record sk_buff := { head : list Z; data : Z; tail : Z; len : Z; skb_dev : bool; protocol : Z }.

Record arp_entry := { arp_ip : Z; arp_mac : list Z; valid : bool }.

Record net := {
  dev : net_device;
  skb_pool_bitmap : list Z;
  skbs : gmap Z sk_buff;
  arp_cache : list arp_entry;
  wire : list (list Z);
  ip_packet_count : Z;
  eth_packet_count : Z;
  icmp_echo_request_count : Z;
}.

Definition with_pool (bm : list Z) (m : gmap Z sk_buff) (s : net) : net :=
  {| dev := dev s; skb_pool_bitmap := bm; skbs := m; arp_cache := arp_cache s; wire := wire s; ip_packet_count := ip_packet_count s;
     eth_packet_count := eth_packet_count s; icmp_echo_request_count := icmp_echo_request_count s |}.
Definition with_arp (c : list arp_entry) (s : net) : net :=
  {| dev := dev s; skb_pool_bitmap := skb_pool_bitmap s; skbs := skbs s; arp_cache := c; wire := wire s; ip_packet_count := ip_packet_count s;
     eth_packet_count := eth_packet_count s; icmp_echo_request_count := icmp_echo_request_count s |}.
Definition with_wire (w : list (list Z)) (s : net) : net :=
  {| dev := dev s; skb_pool_bitmap := skb_pool_bitmap s; skbs := skbs s; arp_cache := arp_cache s; wire := w; ip_packet_count := ip_packet_count s;
     eth_packet_count := eth_packet_count s; icmp_echo_request_count := icmp_echo_request_count s |}.
Definition with_counts (eth ip icmp : Z) (s : net) : net :=
  {| dev := dev s; skb_pool_bitmap := skb_pool_bitmap s; skbs := skbs s; arp_cache := arp_cache s; wire := wire s; ip_packet_count := ip;
     eth_packet_count := eth; icmp_echo_request_count := icmp |}.

Definition the_skb (i : Z) : M net sk_buff := s ← get; deref (skbs s !! i).
Definition set_skb (i : Z) (b : sk_buff) : M net unit := modify (λ s, with_pool (skb_pool_bitmap s) (<[i := b]> (skbs s)) s).

(** Accesses to the array of a buffer. *)
Definition buf_read (i pos n : Z) : M net (list Z) := b ← the_skb i; deref (slice pos n (head b)).
Definition buf_write (i pos : Z) (src : list Z) : M net unit :=
  b ← the_skb i;
  l ← deref (splice pos src (head b));
  set_skb i {| head := l; data := data b; tail := tail b; len := len b; skb_dev := skb_dev b; protocol := protocol b |}.

(** ** Byte order *)

Definition htons (x : Z) : Z := u16 (Z.lor (Z.shiftl (Z.land x 0xFF) 8) (Z.land (Z.shiftr x 8) 0xFF)).

Definition htonl (x : Z) : Z :=
  Z.lor (Z.lor (u32 (Z.shiftl (Z.land x 0xFF) 24)) (Z.shiftl (Z.land x 0xFF00) 8))
        (Z.lor (Z.shiftr (Z.land x 0xFF0000) 8) (Z.land (Z.shiftr x 24) 0xFF)).

(** ** The checksum *)

Fixpoint sum_words (l : list Z) (sum : Z) : Z :=
  match l with
  | b0 :: b1 :: l => sum_words l (u32 (sum + (b0 + 256 * b1)))
  | [b] => u32 (sum + b)
  | [] => sum
  end.

(** [while (sum >> 16)]: after two rounds the sum is less than 2^16. *)
Fixpoint fold_sum (fuel : nat) (sum : Z) : Z :=
  match fuel with
  | O => sum
  | S fuel => if Z.shiftr sum 16 =? 0 then sum else fold_sum fuel (u32 (Z.land sum 0xFFFF + Z.shiftr sum 16))
  end.

Definition ip_checksum (l : list Z) : Z := u16 (Z.lnot (fold_sum 3 (sum_words l 0))).

(** ** Buffers *)

(** The search for a clear bit: [Some] leaves the loop. *)
Definition pool_step (i : Z) : M net (option Z) :=
  s ← get;
  w ← deref (aget (skb_pool_bitmap s) (i / 32));
  if Z.land w (u32 (Z.shiftl 1 (i mod 32))) =? 0 then
    bm ← deref (aset (skb_pool_bitmap s) (i / 32) (Z.lor w (u32 (Z.shiftl 1 (i mod 32)))));
    _ ← modify (with_pool bm (skbs s));
    mret (Some i)
  else mret None.

Definition clear_pool_bit (i : Z) : M net unit :=
  s ← get;
  w ← deref (aget (skb_pool_bitmap s) (i / 32));
  bm ← deref (aset (skb_pool_bitmap s) (i / 32) (Z.land w (u32 (Z.lnot (Z.shiftl 1 (i mod 32))))));
  modify (with_pool bm (skbs s)).

(** The number of the buffer in the pool. *)
Definition alloc_skb (mem : option (list Z)) : M net (option Z) :=
  found ← for_ret (Z.to_nat SKB_POOL_SIZE) 0 pool_step;
  match found with
  | None => mret None
  | Some i =>
      match mem with
      | None => _ ← clear_pool_bit i; mret None
      | Some l => _ ← set_skb i {| head := l; data := 0; tail := 0; len := 0; skb_dev := false; protocol := 0 |}; mret (Some i)
      end
  end.

Definition kfree_skb (i : Z) : M net unit :=
  _ ← the_skb i;
  _ ← modify (λ s, with_pool (skb_pool_bitmap s) (delete i (skbs s)) s);
  clear_pool_bit i.

Definition skb_reserve (i n : Z) : M net unit :=
  b ← the_skb i;
  set_skb i {| head := head b; data := data b + n; tail := tail b + n; len := len b; skb_dev := skb_dev b; protocol := protocol b |}.

Definition skb_put (i n : Z) : M net Z :=
  b ← the_skb i;
  _ ← set_skb i {| head := head b; data := data b; tail := tail b + n; len := u32 (len b + n); skb_dev := skb_dev b; protocol := protocol b |};
  mret (tail b).

Definition skb_push (i n : Z) : M net Z :=
  b ← the_skb i;
  _ ← set_skb i {| head := head b; data := data b - n; tail := tail b; len := u32 (len b + n); skb_dev := skb_dev b; protocol := protocol b |};
  mret (data b - n).

Definition skb_pull (i n : Z) : M net Z :=
  b ← the_skb i;
  _ ← set_skb i {| head := head b; data := data b + n; tail := tail b; len := u32 (len b - n); skb_dev := skb_dev b; protocol := protocol b |};
  mret (data b + n).

(** [skb->dev = dev] *)
Definition set_dev (i : Z) : M net unit :=
  b ← the_skb i; set_skb i {| head := head b; data := data b; tail := tail b; len := len b; skb_dev := true; protocol := protocol b |}.

(** ** Sending *)

(** The driver copies the frame to a buffer of its own. *)
Definition start_xmit (i : Z) : M net Z :=
  b ← the_skb i;
  frame ← deref (slice (data b) (len b) (head b));
  if RTL8139_TX_BUF_SIZE <? len b then undef
  else
    _ ← modify (λ s, with_wire (wire s ++ [frame]) s);
    _ ← kfree_skb i;
    mret 0.

(** [if (dev->netdev_ops && dev->netdev_ops->ndo_start_xmit)] *)
Definition xmit_or_free (i : Z) : M net Z :=
  s ← get; if has_xmit (dev s) then start_xmit i else _ ← kfree_skb i; mret (-1).

Definition eth_header (i type : Z) (daddr saddr : option (list Z)) : M net Z :=
  eth ← skb_push i sizeof_ethhdr;
  _ ← buf_write i (eth + 12) (le16_bytes (htons type));
  s ← get;
  _ ← buf_write i (eth + 6) (match saddr with Some a => a | None => dev_addr (dev s) end);
  match daddr with
  | Some a => _ ← buf_write i eth a; mret ETH_ALEN
  | None => mret (- ETH_ALEN)
  end.

(** The packet that both uses of ARP fill in behind the room for the Ethernet header. *)
Definition arp_packet (i op : Z) (sha : list Z) (spa : Z) (tha : list Z) (tpa : Z) : M net unit :=
  _ ← set_dev i;
  _ ← skb_reserve i sizeof_ethhdr;
  p ← skb_put i (sizeof_arphdr + 20);
  buf_write i p (le16_bytes (htons 1) ++ le16_bytes (htons ETH_P_IP) ++ [6; 4] ++ le16_bytes (htons op) ++
                 sha ++ le32_bytes spa ++ tha ++ le32_bytes tpa).

(** The result and, if that is 0, the address.  [mem] is the memory of the request. *)
Definition arp_resolve (ip : Z) (mem : option (list Z)) : M net (Z * list Z) :=
  s ← get;
  match List.find (λ e, valid e && (arp_ip e =? ip)) (arp_cache s) with
  | Some e => mret (0, arp_mac e)
  | None =>
      skb ← alloc_skb mem;
      match skb with
      | None => mret (-1, [])
      | Some i =>
          _ ← arp_packet i ARPOP_REQUEST (dev_addr (dev s)) (htonl (ip_addr (dev s))) (replicate 6 0) (htonl ip);
          _ ← eth_header i ETH_P_ARP (Some (broadcast (dev s))) None;
          _ ← xmit_or_free i;
          mret (-1, [])
      end
  end.

Definition ip_header (tot_len proto saddr daddr check : Z) : list Z :=
  [0x45; 0] ++ le16_bytes (htons tot_len) ++ le16_bytes 0 ++ le16_bytes 0 ++ [64; proto] ++ le16_bytes check ++
  le32_bytes (htonl saddr) ++ le32_bytes (htonl daddr).

Definition ip_send (i daddr proto : Z) (mem : option (list Z)) : M net Z :=
  b ← the_skb i;
  if negb (skb_dev b) then _ ← kfree_skb i; mret (-1)
  else
    iph ← skb_push i sizeof_iphdr;
    b ← the_skb i;
    s ← get;
    _ ← buf_write i iph (ip_header (len b) proto (ip_addr (dev s)) daddr 0);
    hdr ← buf_read i iph sizeof_iphdr;
    _ ← buf_write i (iph + 10) (le16_bytes (ip_checksum hdr));
    '(r, dest_mac) ← arp_resolve daddr mem;
    if r <? 0 then _ ← kfree_skb i; mret (-1)
    else
      _ ← eth_header i ETH_P_IP (Some dest_mac) None;
      xmit_or_free i.

(** ** Receiving *)

(** The first slot of the cache that is free or has the address. *)
Fixpoint arp_update (ip : Z) (mac : list Z) (cache : list arp_entry) : list arp_entry :=
  match cache with
  | [] => []
  | e :: cache =>
      if negb (valid e) || (arp_ip e =? ip) then {| arp_ip := ip; arp_mac := mac; valid := true |} :: cache
      else e :: arp_update ip mac cache
  end.

Definition arp_rcv (i : Z) (mem : option (list Z)) : M net Z :=
  b ← the_skb i;
  arph ← buf_read i (data b) sizeof_arphdr;
  hrd ← deref (get16 arph 0);
  pro ← deref (get16 arph 2);
  if negb (htons hrd =? 1) || negb (htons pro =? ETH_P_IP) then _ ← kfree_skb i; mret (-1)
  else
    let arp_data := data b + sizeof_arphdr in
    sha ← buf_read i arp_data ETH_ALEN;
    spa_raw ← buf_read i (arp_data + 6) 4;
    spa ← deref (get32 spa_raw 0);
    _ ← modify (λ s, with_arp (arp_update (htonl spa) sha (arp_cache s)) s);
    op ← deref (get16 arph 6);
    reply_to ← (if htons op =? ARPOP_REQUEST then
                  tpa_raw ← buf_read i (arp_data + 16) 4;
                  tpa ← deref (get32 tpa_raw 0);
                  s ← get;
                  if negb (skb_dev b) then undef else mret (htonl tpa =? ip_addr (dev s))
                else mret false);
    if reply_to : bool then
      s ← get;
      reply ← alloc_skb mem;
      match reply with
      | None => _ ← kfree_skb i; mret (-1)
      | Some r =>
          _ ← arp_packet r ARPOP_REPLY (dev_addr (dev s)) (htonl (ip_addr (dev s))) sha spa;
          _ ← eth_header r ETH_P_ARP (Some sha) None;
          _ ← xmit_or_free r;
          _ ← kfree_skb i;
          mret 0
      end
    else _ ← kfree_skb i; mret 0.

(** [mem] is the memory of the reply, [amem] that of an ARP request for its destination. *)
Definition icmp_send_echo_reply (i : Z) (mem amem : option (list Z)) : M net Z :=
  b ← the_skb i;
  if negb (skb_dev b) then _ ← kfree_skb i; mret (-1)
  else
    reply ← alloc_skb mem;
    match reply with
    | None => _ ← kfree_skb i; mret (-1)
    | Some r =>
        p ← skb_put r (sizeof_icmphdr + 32);
        echo ← buf_read i (data b + sizeof_iphdr + 4) 4;
        _ ← buf_write r p ([ICMP_ECHOREPLY; 0] ++ le16_bytes 0 ++ echo);
        payload ← buf_read i (data b + sizeof_iphdr + sizeof_icmphdr) 32;
        _ ← buf_write r (p + sizeof_icmphdr) payload;
        l ← buf_read r p (sizeof_icmphdr + 32);
        _ ← buf_write r (p + 2) (le16_bytes (ip_checksum l));
        _ ← set_dev r;
        saddr_raw ← buf_read i (data b + 12) 4;
        saddr ← deref (get32 saddr_raw 0);
        ret ← ip_send r (htonl saddr) IPPROTO_ICMP amem;
        _ ← kfree_skb i;
        mret ret
    end.

Definition icmp_rcv (i : Z) (mem amem : option (list Z)) : M net Z :=
  b ← the_skb i;
  type ← buf_read i (data b + sizeof_iphdr) 1;
  if type !!! 0%nat =? ICMP_ECHO then
    _ ← modify (λ s, with_counts (eth_packet_count s) (ip_packet_count s) (u32 (icmp_echo_request_count s + 1)) s);
    icmp_send_echo_reply i mem amem
  else _ ← kfree_skb i; mret 0.

Definition ip_rcv (i : Z) (mem amem : option (list Z)) : M net Z :=
  b ← the_skb i;
  _ ← modify (λ s, with_counts (eth_packet_count s) (u32 (ip_packet_count s + 1)) (icmp_echo_request_count s) s);
  vi ← buf_read i (data b) 1;
  if negb (Z.shiftr (vi !!! 0%nat) 4 =? 4) then _ ← kfree_skb i; mret (-1)
  else
    check ← buf_read i (data b + 10) 2;
    _ ← buf_write i (data b + 10) [0; 0];
    hdr ← buf_read i (data b) (Z.land (vi !!! 0%nat) 0x0F * 4);
    if negb (ip_checksum hdr =? check !!! 0%nat + 256 * check !!! 1%nat) then _ ← kfree_skb i; mret (-1)
    else
      _ ← buf_write i (data b + 10) check;
      proto ← buf_read i (data b + 9) 1;
      if proto !!! 0%nat =? IPPROTO_ICMP then icmp_rcv i mem amem
      else _ ← kfree_skb i; mret (-1).

Definition eth_type_trans (i : Z) (mem amem : option (list Z)) : M net Z :=
  b ← the_skb i;
  proto ← buf_read i (data b + 12) 2;
  _ ← modify (λ s, with_counts (u32 (eth_packet_count s + 1)) (ip_packet_count s) (icmp_echo_request_count s) s);
  type ← deref (get16 proto 0);
  let protocol := htons type in
  _ ← set_skb i {| head := head b; data := data b; tail := tail b; len := len b; skb_dev := skb_dev b; protocol := protocol |};
  _ ← skb_pull i sizeof_ethhdr;
  if protocol =? ETH_P_IP then ip_rcv i mem amem
  else if protocol =? ETH_P_ARP then arp_rcv i mem
  else _ ← kfree_skb i; mret (-1).
