(* ===== verification/NetSpec.v ===== *)
(** * What the network layer sends and accepts

    The checksum is the one's complement sum that the Internet protocols use, headers
    sent are accepted by any receiver, and two hosts with this code learn each other's
    addresses by ARP.  Buffers are taken from the pool and given back. *)

From S2P Require Import Prelude Bits LibGcc Bytes Net.

#[local] Open Scope Z_scope.

(** ** Byte order *)

Lemma land_byte x : Z.land x 0xFF = x mod 256.
Proof. apply (Z.land_ones x 8). lia. Qed.

Lemma htons_eq x : 0 ≤ x < 2 ^ 16 → htons x = x mod 256 * 256 + x / 256.
Proof.
  intros Hx. unfold htons. rewrite !land_byte, Z.shiftl_mul_pow2, Z.shiftr_div_pow2 by lia.
  rewrite (lor_pow2_add (x mod 256) 8) by dlia. unfold u16. change (2 ^ 8) with 256. dlia.
Qed.

Lemma htons_involutive x : 0 ≤ x < 2 ^ 16 → htons (htons x) = x.
Proof. intros Hx. rewrite (htons_eq x Hx), htons_eq by dlia. dlia. Qed.

(** On the wire the bytes have the order of the number. *)
Lemma htons_bytes x : 0 ≤ x < 2 ^ 16 → le16_bytes (htons x) = [x / 256; x mod 256].
Proof. intros Hx. rewrite (htons_eq x Hx). unfold le16_bytes. f_equal; [|f_equal]; dlia. Qed.

Lemma land_field x k : 0 ≤ k → Z.land x (Z.shiftl 0xFF k) = x / 2 ^ k mod 256 * 2 ^ k.
Proof.
  intros Hk. rewrite <- Z.shiftr_div_pow2, <- land_byte, <- Z.shiftl_mul_pow2 by done. apply Z.bits_inj'. intros i Hi.
  rewrite Z.land_spec, !Z.shiftl_spec by done. destruct (decide (i < k)).
  - rewrite !(Z.testbit_neg_r _ (i - k)) by lia. apply andb_false_r.
  - rewrite Z.land_spec, Z.shiftr_spec by lia. by replace (i - k + k) with i by lia.
Qed.

Lemma htonl_le b0 b1 b2 b3 :
  is_byte b0 → is_byte b1 → is_byte b2 → is_byte b3 → htonl (le32 b0 b1 b2 b3) = le32 b3 b2 b1 b0.
Proof.
  unfold is_byte, htonl. intros H0 H1 H2 H3. set (x := le32 b0 b1 b2 b3).
  assert (x mod 256 = b0 ∧ x / 2 ^ 8 mod 256 = b1 ∧ x / 2 ^ 16 mod 256 = b2 ∧ x / 2 ^ 24 mod 256 = b3) as (E0 & E1 & E2 & E3).
  { unfold x, le32. change (2 ^ 8) with 256. change (2 ^ 16) with 65536. change (2 ^ 24) with 16777216. split_and!; dlia. }
  change 0xFF00 with (Z.shiftl 0xFF 8). change 0xFF0000 with (Z.shiftl 0xFF 16). rewrite !land_field by lia.
  rewrite !land_byte, !Z.shiftl_mul_pow2, !Z.shiftr_div_pow2 by lia. rewrite E0, E1, E2, E3.
  replace (u32 (b0 * 2 ^ 24)) with (b0 * 2 ^ 24) by (symmetry; apply u32_small; lia).
  replace (b1 * 2 ^ 8 * 2 ^ 8) with (b1 * 2 ^ 16) by lia. replace (b2 * 2 ^ 16 / 2 ^ 8) with (b2 * 2 ^ 8) by dlia.
  rewrite (lor_pow2_add b2 8 b3), (lor_pow2_add b0 24) by lia.
  replace (b0 * 2 ^ 24 + b1 * 2 ^ 16) with ((b0 * 256 + b1) * 2 ^ 16) by lia. rewrite lor_pow2_add by lia. unfold le32. lia.
Qed.

Lemma le32_split x : 0 ≤ x < 2 ^ 32 → ∃ b0 b1 b2 b3, x = le32 b0 b1 b2 b3 ∧ is_byte b0 ∧ is_byte b1 ∧ is_byte b2 ∧ is_byte b3.
Proof.
  intros Hx. exists (x mod 256), (x / 256 mod 256), (x / 65536 mod 256), (x / 16777216 mod 256).
  unfold is_byte. split; [symmetry; by apply le32_bytes_eq | dlia].
Qed.

Lemma htonl_involutive x : 0 ≤ x < 2 ^ 32 → htonl (htonl x) = x ∧ 0 ≤ htonl x < 2 ^ 32.
Proof.
  intros Hx. destruct (le32_split x Hx) as (b0 & b1 & b2 & b3 & -> & ? & ? & ? & ?). rewrite !htonl_le by done.
  split; [done | by apply le32_range].
Qed.

(** ** The checksum *)

(** The sum of the words, without wrapping. *)
Fixpoint words (l : list Z) : Z :=
  match l with
  | b0 :: b1 :: l => b0 + 256 * b1 + words l
  | [b] => b
  | [] => 0
  end.

Lemma list_ind2 {A} (P : list A → Prop) : P [] → (∀ x, P [x]) → (∀ x y l, P l → P (x :: y :: l)) → ∀ l, P l.
Proof.
  intros H0 H1 H2. enough (∀ l, P l ∧ ∀ x, P (x :: l)) as H by (intros l; apply H).
  induction l as [|y l [IH1 IH2]]; split; auto.
Qed.

Lemma words_bounds l : Forall is_byte l → 0 ≤ words l ≤ 65536 * zlen l.
Proof.
  induction l as [|x|x y l IH] using list_ind2; intros Hl; cbn [words length]; [lia|apply Forall_cons in Hl as [Hx _]; unfold is_byte in Hx; lia|].
  apply Forall_cons in Hl as [Hx [Hy Hl]%Forall_cons]. unfold is_byte in *. specialize (IH Hl). lia.
Qed.

Lemma sum_words_eq l : ∀ sum, Forall is_byte l → 0 ≤ sum → sum + words l < 2 ^ 32 → sum_words l sum = sum + words l.
Proof.
  induction l as [|x|x y l IH] using list_ind2; intros sum Hl Hs Hb; cbn [words sum_words] in *; [lia| |].
  - apply Forall_cons in Hl as [Hx _]. unfold is_byte in Hx. by rewrite u32_small by lia.
  - apply Forall_cons in Hl as [Hx [Hy Hl]%Forall_cons]. pose proof (words_bounds l Hl). unfold is_byte in *.
    rewrite IH by (done || rewrite u32_small by lia; lia). rewrite u32_small by lia. lia.
Qed.

(** Folding keeps the value modulo 2^16 - 1, and gives 0 for 0 only. *)
Lemma fold_sum_spec sum :
  0 ≤ sum < 2 ^ 32 → 0 ≤ fold_sum 3 sum < 2 ^ 16 ∧ fold_sum 3 sum mod 65535 = sum mod 65535 ∧ (fold_sum 3 sum = 0 ↔ sum = 0).
Proof.
  assert (∀ s, 0 ≤ s < 2 ^ 32 → u32 (Z.land s 0xFFFF + Z.shiftr s 16) = s mod 65536 + s / 65536 ∧ Z.shiftr s 16 = s / 65536) as Hstep.
  { intros s Hs. rewrite Z.shiftr_div_pow2 by lia. change 0xFFFF with (Z.ones 16). rewrite Z.land_ones by lia.
    change (2 ^ 16) with 65536. rewrite u32_small by dlia. done. }
  intros Hs. cbn [fold_sum]. destruct (Hstep sum Hs) as [-> ->]. destruct (Z.eqb_spec (sum / 65536) 0); [dlia|].
  destruct (Hstep (sum mod 65536 + sum / 65536)) as [-> ->]; [dlia|]. destruct (Z.eqb_spec ((sum mod 65536 + sum / 65536) / 65536) 0); [dlia|].
  destruct (Hstep ((sum mod 65536 + sum / 65536) mod 65536 + (sum mod 65536 + sum / 65536) / 65536)) as [_ ->]; [dlia|].
  destruct (Z.eqb_spec (((sum mod 65536 + sum / 65536) mod 65536 + (sum mod 65536 + sum / 65536) / 65536) / 65536) 0); dlia.
Qed.

(** ** The pool of buffers *)

Definition mark (i : Z) (bm : list Z) : list Z :=
  <[Z.to_nat (i / 32) := Z.lor (bm !!! Z.to_nat (i / 32)) (u32 (Z.shiftl 1 (i mod 32)))]> bm.

(** The state with buffer [i] of the pool in use. *)
Definition live (i : Z) (b : sk_buff) (s : net) : net := with_pool (mark i (skb_pool_bitmap s)) (<[i := b]> (skbs s)) s.

(** The bits tell which buffers are in use. *)
Record pool_ok (s : net) : Prop := {
  pool_len : length (skb_pool_bitmap s) = 8%nat;
  pool_words : Forall (λ w, 0 ≤ w < 2 ^ 32) (skb_pool_bitmap s);
  pool_bits : ∀ i, 0 ≤ i < 256 → bit (skb_pool_bitmap s) i = bool_decide (is_Some (skbs s !! i));
}.

Definition is_free (i : Z) (s : net) : Prop := 0 ≤ i < 256 ∧ skbs s !! i = None.

Lemma set_clear_word w n :
  0 ≤ w < 2 ^ 32 → 0 ≤ n < 32 → Z.testbit w n = false →
  Z.land (Z.lor w (u32 (Z.shiftl 1 n))) (u32 (Z.lnot (Z.shiftl 1 n))) = w.
Proof.
  intros Hw Hn Ht. apply Z.bits_inj'. intros j Hj. rewrite Z.land_spec, Z.lor_spec. destruct (decide (j < 32)).
  - rewrite !testbit_u32, Z.lnot_spec, testbit_one by lia. destruct (Z.eqb_spec j n) as [->|]; cbn; [by rewrite Ht|].
    by rewrite orb_false_r, andb_true_r.
  - rewrite (testbit_high 32 w), (testbit_high 32 (u32 (Z.shiftl 1 n))) by (done || lia || apply u32_bounds). done.
Qed.

Section pool.
Context (s : net) (Hs : pool_ok s).

Lemma pool_aget i : 0 ≤ i < 256 → aget (skb_pool_bitmap s) (i / 32) = Some (skb_pool_bitmap s !!! Z.to_nat (i / 32)).
Proof.
  intros Hi. pose proof (pool_len s Hs). unfold aget. rewrite (proj2 (Z.leb_le _ _)) by dlia.
  apply list_lookup_lookup_total_lt. dlia.
Qed.

Lemma pool_word i : 0 ≤ skb_pool_bitmap s !!! i < 2 ^ 32.
Proof.
  rewrite list_lookup_total_alt. destruct (_ !! i) eqn:E; [|done]. exact (Forall_lookup_1 _ _ _ _ (pool_words s Hs) E).
Qed.

Lemma live_pool_ok i b : is_free i s → pool_ok (live i b s).
Proof.
  intros [Hi Hf]. pose proof (pool_len s Hs). pose proof (pool_word (Z.to_nat (i / 32))). unfold live, mark. split; cbn.
  - by rewrite length_insert.
  - apply Forall_insert; [apply (pool_words s Hs)|]. auto with words.
  - intros j Hj. rewrite bit_set by dlia. rewrite (pool_bits s Hs) by done. destruct (Z.eqb_spec j i) as [->|].
    + rewrite lookup_insert_eq. done.
    + by rewrite lookup_insert_ne by done.
Qed.

Lemma clear_mark i m :
  is_free i s → clear_pool_bit i (with_pool (mark i (skb_pool_bitmap s)) m s) = Ret (tt, with_pool (skb_pool_bitmap s) m s).
Proof.
  intros [Hi Hf]. pose proof (pool_len s Hs). pose proof (pool_word (Z.to_nat (i / 32))) as Hw. unfold clear_pool_bit, mark.
  pose proof (pool_bits s Hs i Hi) as Hb. rewrite Hf in Hb. cbn in Hb.
  run. cbn. rewrite aget_insert, Z.eqb_refl, bind_deref by dlia.
  rewrite aset_Some, bind_deref by (rewrite length_insert; dlia). unfold modify.
  rewrite list_insert_insert_eq, set_clear_word by (done || dlia). by rewrite list_insert_id by (apply list_lookup_lookup_total_lt; dlia).
Qed.

Lemma kfree_live i b : is_free i s → kfree_skb i (live i b s) = Ret (tt, s).
Proof.
  intros Hfree. unfold kfree_skb, the_skb. run. cbn. rewrite lookup_insert_eq, bind_deref, bind_modify.
  change (with_pool _ _ _) with (with_pool (mark i (skb_pool_bitmap s)) (delete i (<[i := b]> (skbs s))) s).
  rewrite clear_mark, delete_insert_id by (done || apply Hfree). by destruct s.
Qed.

(** The first free buffer is taken; the pool is full if there is none. *)
Lemma alloc_skb_spec mem :
  (∃ i, is_free i s ∧ alloc_skb mem s =
     match mem with
     | Some l => Ret (Some i, live i {| head := l; data := 0; tail := 0; len := 0; skb_dev := false; protocol := 0 |} s)
     | None => Ret (None, s)
     end) ∨
  ((∀ i, 0 ≤ i < 256 → is_Some (skbs s !! i)) ∧ alloc_skb mem s = Ret (None, s)).
Proof.
  pose proof (pool_len s Hs).
  assert (∀ i, 0 ≤ i < 256 → pool_step i s =
    if bit (skb_pool_bitmap s) i then Ret (None, s) else Ret (Some i, with_pool (mark i (skb_pool_bitmap s)) (skbs s) s)) as Hstep.
  { intros i Hi. unfold pool_step. rewrite bind_get, pool_aget, bind_deref by done.
    rewrite <- (negb_involutive (_ =? 0)), mask_test by dlia. fold (bit (skb_pool_bitmap s) i). destruct (bit _ i); [done|]. cbn [negb].
    by rewrite aset_Some, bind_deref, bind_modify by dlia. }
  destruct (for_ret_first (λ i, negb (bit (skb_pool_bitmap s) i)) pool_step (Z.to_nat 256) 0 s) as [(i & Hi & Hh & _ & E)|[Hn E]].
  - intros j Hj Hb. rewrite Hstep by lia. by destruct (bit _ j).
  - intros j Hj Hb s'. rewrite Hstep by lia. by destruct (bit _ j).
  - left. exists i. rewrite (Hstep i) in E by lia. apply negb_true_iff in Hh. rewrite Hh in E.
    assert (is_free i s) as Hfree.
    { split; [lia|]. rewrite (pool_bits s Hs) in Hh by lia. apply bool_decide_eq_false in Hh. by apply eq_None_not_Some. }
    split; [done|]. unfold alloc_skb. rewrite (bind_Ret _ _ _ _ _ E). destruct mem as [l|]; [done|].
    rewrite (bind_Ret _ _ _ _ _ (clear_mark i (skbs s) Hfree)). by destruct s.
  - right. split.
    + intros i Hi. specialize (Hn i ltac:(lia)). apply negb_false_iff in Hn. rewrite (pool_bits s Hs) in Hn by lia. by apply bool_decide_eq_true in Hn.
    + unfold alloc_skb. by rewrite (bind_Ret _ _ _ _ _ E).
Qed.
End pool.

(** ** Operations on a buffer in use *)

Lemma slice_mid pos n a x c : pos = zlen a → n = zlen x → slice pos n (a ++ x ++ c) = Some x.
Proof.
  intros -> ->. rewrite slice_take by (rewrite ?length_app; lia). rewrite !Nat2Z.id. by rewrite drop_app_length, take_app_length.
Qed.

Lemma splice_mid pos src a x c : pos = zlen a → length x = length src → splice pos src (a ++ x ++ c) = Some (a ++ src ++ c).
Proof.
  intros -> Hx. rewrite splice_over by (rewrite ?length_app; lia). rewrite Nat2Z.id. replace (length a) with (length a + 0)%nat by lia.
  rewrite over_app_r, over_app_l by (rewrite Hx; lia). by rewrite over_whole.
Qed.

Definition set_data (b : sk_buff) (h : list Z) (d t n : Z) : sk_buff :=
  {| head := h; data := d; tail := t; len := n; skb_dev := skb_dev b; protocol := protocol b |}.

Section live.
Context (i : Z) (s : net).

Lemma the_skb_live b : the_skb i (live i b s) = Ret (b, live i b s).
Proof. unfold the_skb. run. cbn. by rewrite lookup_insert_eq. Qed.

Lemma set_skb_live b b' : set_skb i b' (live i b s) = Ret (tt, live i b' s).
Proof. unfold set_skb, modify, live, with_pool. cbn. by rewrite insert_insert_eq. Qed.

(** Accesses to a part of the array. *)
Lemma buf_read_bind {B} b a x c pos n (k : list Z → M net B) :
  head b = a ++ x ++ c → pos = zlen a → n = zlen x → (buf_read i pos n ≫= k) (live i b s) = k x (live i b s).
Proof.
  intros Hh Hp Hn. unfold buf_read. rewrite bind_assoc, (bind_Ret _ _ _ _ _ (the_skb_live b)), Hh, slice_mid by done. done.
Qed.

Lemma buf_write_live b a x c pos src :
  head b = a ++ x ++ c → pos = zlen a → length x = length src →
  buf_write i pos src (live i b s) = Ret (tt, live i (set_data b (a ++ src ++ c) (data b) (tail b) (len b)) s).
Proof.
  intros Hh Hp Hx. unfold buf_write.
  by rewrite (bind_Ret _ _ _ _ _ (the_skb_live b)), Hh, splice_mid, bind_deref, set_skb_live by done.
Qed.

Lemma buf_write_bind {B} b a x c pos src (k : unit → M net B) :
  head b = a ++ x ++ c → pos = zlen a → length x = length src →
  (buf_write i pos src ≫= k) (live i b s) = k tt (live i (set_data b (a ++ src ++ c) (data b) (tail b) (len b)) s).
Proof. intros Hh Hp Hx. by rewrite (bind_Ret _ _ _ _ _ (buf_write_live b a x c pos src Hh Hp Hx)). Qed.

Lemma skb_push_live b n : skb_push i n (live i b s) = Ret (data b - n, live i (set_data b (head b) (data b - n) (tail b) (u32 (len b + n))) s).
Proof. unfold skb_push. by rewrite (bind_Ret _ _ _ _ _ (the_skb_live b)), (bind_Ret _ _ _ _ _ (set_skb_live _ _)). Qed.

Lemma skb_put_live b n : skb_put i n (live i b s) = Ret (tail b, live i (set_data b (head b) (data b) (tail b + n) (u32 (len b + n))) s).
Proof. unfold skb_put. by rewrite (bind_Ret _ _ _ _ _ (the_skb_live b)), (bind_Ret _ _ _ _ _ (set_skb_live _ _)). Qed.

Lemma skb_pull_live b n : skb_pull i n (live i b s) = Ret (data b + n, live i (set_data b (head b) (data b + n) (tail b) (u32 (len b - n))) s).
Proof. unfold skb_pull. by rewrite (bind_Ret _ _ _ _ _ (the_skb_live b)), (bind_Ret _ _ _ _ _ (set_skb_live _ _)). Qed.

Lemma skb_reserve_live b n : skb_reserve i n (live i b s) = Ret (tt, live i (set_data b (head b) (data b + n) (tail b + n) (len b)) s).
Proof. unfold skb_reserve. by rewrite (bind_Ret _ _ _ _ _ (the_skb_live b)), set_skb_live. Qed.

(** The Ethernet header goes in front of the data. *)
Definition eth_hdr (dst src : list Z) (type : Z) : list Z := dst ++ src ++ [type / 256; type mod 256].

Lemma eth_header_live b type dst P E R :
  head b = P ++ E ++ R → length E = 14%nat → data b = zlen P + 14 → length dst = 6%nat → length (dev_addr (dev s)) = 6%nat →
  0 ≤ type < 2 ^ 16 →
  eth_header i type (Some dst) None (live i b s) =
  Ret (6, live i (set_data b (P ++ eth_hdr dst (dev_addr (dev s)) type ++ R) (zlen P) (tail b) (u32 (len b + 14))) s).
Proof.
  intros Hh HE Hd Hdst Hsrc Htype. unfold eth_header. rewrite (bind_Ret _ _ _ _ _ (skb_push_live b 14)).
  rewrite <- (take_drop 12 E), <- (take_drop 6 (take 12 E)) in Hh. set (E0 := take 6 (take 12 E)) in Hh. set (E6 := drop 6 (take 12 E)) in Hh. set (E12 := drop 12 E) in Hh.
  assert (length E0 = 6%nat ∧ length E6 = 6%nat ∧ length E12 = 2%nat) as (H0 & H6 & H12).
  { unfold E0, E6, E12. rewrite !length_take, !length_drop, !length_take. lia. }
  rewrite (buf_write_bind _ (P ++ E0 ++ E6) E12 R) by (cbn; rewrite ?Hh, ?length_app; app_norm; done || lia).
  rewrite bind_get, (buf_write_bind _ (P ++ E0) E6 (le16_bytes (htons type) ++ R)) by (cbn; rewrite ?length_app; app_norm; done || lia).
  rewrite (buf_write_bind _ P E0 (dev_addr (dev s) ++ le16_bytes (htons type) ++ R)) by (cbn; rewrite ?length_app; app_norm; done || lia).
  rewrite htons_bytes by done. unfold set_data, eth_hdr. cbn. rewrite Hd. replace (zlen P + 14 - 14) with (zlen P) by lia. by app_norm.
Qed.

Lemma eth_header_bind {B} b type dst P E R (k : Z → M net B) :
  head b = P ++ E ++ R → length E = 14%nat → data b = zlen P + 14 → length dst = 6%nat → length (dev_addr (dev s)) = 6%nat →
  0 ≤ type < 2 ^ 16 →
  (eth_header i type (Some dst) None ≫= k) (live i b s) =
  k 6 (live i (set_data b (P ++ eth_hdr dst (dev_addr (dev s)) type ++ R) (zlen P) (tail b) (u32 (len b + 14))) s).
Proof. intros. by erewrite bind_Ret by by apply (eth_header_live b type dst P E R). Qed.
End live.

Lemma pool_ok_same s t : skb_pool_bitmap s = skb_pool_bitmap t → skbs s = skbs t → pool_ok s → pool_ok t.
Proof. intros Eb Em [H1 H2 H3]. rewrite Eb in *. rewrite Em in *. by split. Qed.

(** What the driver sends is on the wire, and the buffer is free again. *)
Lemma xmit_live i b s a f c :
  pool_ok s → is_free i s → has_xmit (dev s) = true → head b = a ++ f ++ c → data b = zlen a → len b = zlen f → zlen f ≤ 1536 →
  xmit_or_free i (live i b s) = Ret (0, with_wire (wire s ++ [f]) s).
Proof.
  intros Hs Hi Hx Hh Hd Hl Hf. unfold xmit_or_free, start_xmit. rewrite bind_get. cbn [dev live with_pool]. rewrite Hx.
  rewrite (bind_Ret _ _ _ _ _ (the_skb_live i s b)), Hh, slice_mid, bind_deref by done.
  rewrite (proj2 (Z.ltb_ge 1536 (len b))), bind_modify by lia.
  change (with_wire _ (live i b s)) with (live i b (with_wire (wire s ++ [f]) s)).
  by rewrite (bind_Ret _ _ _ _ _ (kfree_live _ (pool_ok_same s (with_wire (wire s ++ [f]) s) eq_refl eq_refl Hs) i b Hi)).
Qed.

(** ** ARP *)

Definition be16 (x : Z) : list Z := [x / 256; x mod 256].
Definition be32 (x : Z) : list Z := rev (le32_bytes x).

Lemma htonl_bytes x : 0 ≤ x < 2 ^ 32 → le32_bytes (htonl x) = be32 x.
Proof.
  intros Hx. unfold be32. destruct (le32_split x Hx) as (b0 & b1 & b2 & b3 & -> & H0 & H1 & H2 & H3). rewrite htonl_le by done.
  unfold is_byte, le32_bytes, le32 in *. cbn. f_equal; [dlia|]. f_equal; [dlia|]. f_equal; [dlia|]. f_equal. dlia.
Qed.

Lemma get32_be32 x : 0 ≤ x < 2 ^ 32 → get32 (be32 x) 0 = Some (htonl x).
Proof.
  intros Hx. rewrite <- htonl_bytes by done. unfold get32, le32_bytes, slice. cbn. f_equal. apply le32_bytes_eq.
  by apply htonl_involutive.
Qed.

(** An ARP packet for Ethernet and IPv4. *)
Definition arp_bytes (op : Z) (sha : list Z) (spa : Z) (tha : list Z) (tpa : Z) : list Z :=
  [0; 1; 8; 0; 6; 4] ++ be16 op ++ sha ++ be32 spa ++ tha ++ be32 tpa.

Definition arp_frame (dst src : list Z) (op spa : Z) (tha : list Z) (tpa : Z) : list Z :=
  eth_hdr dst src 0x0806 ++ arp_bytes op src spa tha tpa.

Definition fresh (l : list Z) : sk_buff := {| head := l; data := 0; tail := 0; len := 0; skb_dev := false; protocol := 0 |}.

(** Both uses of ARP: fill in the packet, put the header in front, send. *)
Lemma arp_send i s l op dst spa tha tpa :
  pool_ok s → is_free i s → has_xmit (dev s) = true → (42 ≤ length l)%nat →
  length (dev_addr (dev s)) = 6%nat → length dst = 6%nat → length tha = 6%nat →
  0 ≤ op < 2 ^ 16 → 0 ≤ spa < 2 ^ 32 → 0 ≤ tpa < 2 ^ 32 →
  (_ ← arp_packet i op (dev_addr (dev s)) (htonl spa) tha (htonl tpa); _ ← eth_header i ETH_P_ARP (Some dst) None; xmit_or_free i) (live i (fresh l) s) =
  Ret (0, with_wire (wire s ++ [arp_frame dst (dev_addr (dev s)) op spa tha tpa]) s).
Proof.
  intros Hs Hi Hx Hl Hmac Hdst Htha Hop Hspa Htpa.
  rewrite <- (take_drop 14 l), <- (take_drop 28 (drop 14 l)). set (E := take 14 l). set (B := take 28 _). set (C := drop 28 _).
  assert (length E = 14%nat ∧ length B = 28%nat) as [HE HB].
  { unfold E, B. rewrite !length_take, length_drop. lia. }
  unfold arp_packet. rewrite !bind_assoc. unfold set_dev at 1.
  rewrite bind_assoc, (bind_Ret _ _ _ _ _ (the_skb_live i s _)), (bind_Ret _ _ _ _ _ (set_skb_live i s _ _)).
  rewrite bind_assoc, (bind_Ret _ _ _ _ _ (skb_reserve_live i s _ _)). rewrite bind_assoc, (bind_Ret _ _ _ _ _ (skb_put_live i s _ _)).
  rewrite !htons_bytes, !htonl_bytes by (done || lia).
  rewrite (buf_write_bind i s _ E B C) by (cbn; rewrite ?length_app; cbn; rewrite ?length_app; cbn; done || lia).
  rewrite (eth_header_bind i s _ _ _ [] E (arp_bytes op (dev_addr (dev s)) spa tha tpa ++ C)); [|done|done|done|done|done|lia].
  apply (xmit_live _ _ _ [] (arp_frame dst (dev_addr (dev s)) op spa tha tpa) C); [done|done|done| |done| |].
  - cbn [head set_data]. unfold arp_frame. by rewrite <- app_assoc.
  - cbn. unfold arp_frame, eth_hdr, arp_bytes. rewrite !length_app. cbn. rewrite u32_small; rewrite ?u32_small; lia.
  - unfold arp_frame, eth_hdr, arp_bytes. rewrite !length_app. cbn. lia.
Qed.

Lemma alloc_ok s l : pool_ok s → (∃ j, is_free j s) → ∃ i, is_free i s ∧ alloc_skb (Some l) s = Ret (Some i, live i (fresh l) s).
Proof.
  intros Hs (j & Hj & Hf). destruct (alloc_skb_spec s Hs (Some l)) as [H|[Hall _]]; [exact H|].
  destruct (Hall j Hj) as [b Hb]. congruence.
Qed.

Lemma arp_resolve_request s ip l :
  pool_ok s → (∃ j, is_free j s) → has_xmit (dev s) = true → (42 ≤ length l)%nat →
  length (dev_addr (dev s)) = 6%nat → length (broadcast (dev s)) = 6%nat → 0 ≤ ip_addr (dev s) < 2 ^ 32 → 0 ≤ ip < 2 ^ 32 →
  List.find (λ e, valid e && (arp_ip e =? ip)) (arp_cache s) = None →
  arp_resolve ip (Some l) s =
  Ret ((-1, []), with_wire (wire s ++ [arp_frame (broadcast (dev s)) (dev_addr (dev s)) ARPOP_REQUEST (ip_addr (dev s)) (replicate 6 0) ip]) s).
Proof.
  intros Hs Hj Hx Hl Hmac Hbc Hip Hip' Hc. destruct (alloc_ok s l Hs Hj) as (i & Hi & E).
  unfold arp_resolve. rewrite bind_get, Hc, (bind_Ret _ _ _ _ _ E).
  pose proof (arp_send i s l ARPOP_REQUEST _ _ (replicate 6 0) ip Hs Hi Hx Hl Hmac Hbc eq_refl ltac:(lia) Hip Hip') as Hsend.
  apply bind_Ret_inv in Hsend as ([] & s1 & E1 & Hsend). rewrite (bind_Ret _ _ _ _ _ E1).
  apply bind_Ret_inv in Hsend as (x & s2 & E2 & Hsend). by rewrite (bind_Ret _ _ _ _ _ E2), (bind_Ret _ _ _ _ _ Hsend).
Qed.

(** A buffer whose data is [f]. *)
Definition carries (b : sk_buff) (f : list Z) : Prop :=
  ∃ P Q, head b = P ++ f ++ Q ∧ data b = zlen P ∧ len b = zlen f ∧ skb_dev b = true.

Lemma get16_be16 x : 0 ≤ x < 2 ^ 16 → get16 (be16 x) 0 = Some (htons x).
Proof. intros Hx. rewrite htons_eq by done. unfold get16, be16, slice. cbn. f_equal. lia. Qed.

Lemma arp_rcv_learns i b s mem op sha spa tha tpa :
  carries b (arp_bytes op sha spa tha tpa) → length sha = 6%nat → length tha = 6%nat → 0 ≤ op < 2 ^ 16 → 0 ≤ spa < 2 ^ 32 → 0 ≤ tpa < 2 ^ 32 →
  arp_rcv i mem (live i b s) =
  (if (op =? ARPOP_REQUEST) && (tpa =? ip_addr (dev s)) then
     reply ← alloc_skb mem;
     match reply with
     | None => _ ← kfree_skb i; mret (-1)
     | Some r =>
         _ ← arp_packet r ARPOP_REPLY (dev_addr (dev s)) (htonl (ip_addr (dev s))) sha (htonl spa);
         _ ← eth_header r ETH_P_ARP (Some sha) None;
         _ ← xmit_or_free r;
         _ ← kfree_skb i;
         mret 0
     end
   else _ ← kfree_skb i; mret 0) (live i b (with_arp (arp_update spa sha (arp_cache s)) s)).
Proof.
  intros (P & Q & Hh & Hd & _ & Hdev) Hsha Htha Hop Hspa Htpa. unfold arp_bytes in Hh. unfold arp_rcv.
  rewrite (bind_Ret _ _ _ _ _ (the_skb_live i s b)).
  set (arph := [0; 1; 8; 0; 6; 4] ++ be16 op).
  assert (get16 arph 0 = Some 256 ∧ get16 arph 2 = Some 8 ∧ get16 arph 6 = Some (htons op)) as (E0 & E2 & E6).
  { rewrite htons_eq by done. unfold get16, arph, be16, slice. cbn. repeat split. f_equal. lia. }
  rewrite (buf_read_bind i s b P arph (sha ++ be32 spa ++ tha ++ be32 tpa ++ Q)) by (rewrite ?Hh; unfold arph; app_norm; done).
  rewrite E0, bind_deref, E2, bind_deref.
  change (_ || _) with false. cbv iota zeta.
  rewrite (buf_read_bind i s b (P ++ arph) sha (be32 spa ++ tha ++ be32 tpa ++ Q))
    by (rewrite ?Hh, ?length_app; unfold arph; app_norm; done || cbn; lia).
  rewrite (buf_read_bind i s b (P ++ arph ++ sha) (be32 spa) (tha ++ be32 tpa ++ Q))
    by (rewrite ?Hh, ?length_app; unfold arph; app_norm; done || cbn; lia).
  rewrite get32_be32, bind_deref, bind_modify, E6, bind_deref by done.
  rewrite (proj1 (htonl_involutive spa Hspa)), htons_involutive by done.
  set (s1 := with_arp (arp_update spa sha (arp_cache s)) s). change (with_arp _ (live i b s)) with (live i b s1).
  destruct (op =? 1); [|done]. rewrite bind_assoc.
  rewrite (buf_read_bind i s1 b (P ++ arph ++ sha ++ be32 spa ++ tha) (be32 tpa) Q)
    by (rewrite ?Hh, ?length_app; unfold arph; app_norm; done || cbn; lia).
  rewrite bind_assoc, get32_be32, bind_deref, bind_assoc, bind_get, Hdev by done. cbn [negb].
  rewrite bind_mret, (proj1 (htonl_involutive tpa Htpa)). cbn [andb].
  change (ip_addr (dev (live i b s1))) with (ip_addr (dev s)). by destruct (tpa =? _).
Qed.

(** A request for the own address is answered, and the buffer of the request is freed. *)
Lemma arp_rcv_request i b s l sha spa tha :
  pool_ok s → is_free i s → (∃ j, is_free j s ∧ j ≠ i) → has_xmit (dev s) = true → (42 ≤ length l)%nat →
  length (dev_addr (dev s)) = 6%nat → 0 ≤ ip_addr (dev s) < 2 ^ 32 →
  carries b (arp_bytes ARPOP_REQUEST sha spa tha (ip_addr (dev s))) → length sha = 6%nat → length tha = 6%nat → 0 ≤ spa < 2 ^ 32 →
  arp_rcv i (Some l) (live i b s) =
  Ret (0, with_wire (wire s ++ [arp_frame sha (dev_addr (dev s)) ARPOP_REPLY (ip_addr (dev s)) sha spa]) (with_arp (arp_update spa sha (arp_cache s)) s)).
Proof.
  intros Hs Hi (j & [Hj Hf] & Hji) Hx Hl Hmac Hip Hb Hsha Htha Hspa.
  rewrite (arp_rcv_learns i b s (Some l) _ sha spa tha _ Hb) by (done || lia). rewrite !Z.eqb_refl. cbn [andb].
  set (s1 := with_arp (arp_update spa sha (arp_cache s)) s). assert (pool_ok s1) as Hs1 by exact (pool_ok_same s s1 eq_refl eq_refl Hs).
  pose proof (live_pool_ok s1 Hs1 i b Hi) as Hs2. destruct (alloc_ok (live i b s1) l Hs2) as (r & Hr & E).
  { exists j. split; [done|]. cbn. by rewrite lookup_insert_ne. }
  rewrite (bind_Ret _ _ _ _ _ E).
  pose proof (arp_send r (live i b s1) l ARPOP_REPLY sha (ip_addr (dev s)) sha spa Hs2 Hr Hx Hl Hmac Hsha Hsha ltac:(lia) Hip Hspa) as Hsend.
  apply bind_Ret_inv in Hsend as ([] & t1 & E1 & Hsend). change (dev_addr (dev (live i b s1))) with (dev_addr (dev s)) in E1.
  rewrite (bind_Ret _ _ _ _ _ E1).
  apply bind_Ret_inv in Hsend as (x & t2 & E2 & Hsend). rewrite (bind_Ret _ _ _ _ _ E2), (bind_Ret _ _ _ _ _ Hsend).
  set (w := wire _ ++ _). change (with_wire w (live i b s1)) with (live i b (with_wire w s1)).
  by rewrite (bind_Ret _ _ _ _ _ (kfree_live (with_wire w s1) (pool_ok_same s (with_wire w s1) eq_refl eq_refl Hs) i b Hi)).
Qed.

(** Any other packet is only learnt from. *)
Lemma arp_rcv_other i b s mem op sha spa tha tpa :
  pool_ok s → is_free i s → carries b (arp_bytes op sha spa tha tpa) → length sha = 6%nat → length tha = 6%nat →
  0 ≤ op < 2 ^ 16 → 0 ≤ spa < 2 ^ 32 → 0 ≤ tpa < 2 ^ 32 → op ≠ ARPOP_REQUEST ∨ tpa ≠ ip_addr (dev s) →
  arp_rcv i mem (live i b s) = Ret (0, with_arp (arp_update spa sha (arp_cache s)) s).
Proof.
  intros Hs Hi Hb Hsha Htha Hop Hspa Htpa Hno. rewrite (arp_rcv_learns i b s mem op sha spa tha tpa) by done.
  replace ((op =? 1) && (tpa =? ip_addr (dev s))) with false by (destruct (Z.eqb_spec op 1), (Z.eqb_spec tpa (ip_addr (dev s))); naive_solver).
  set (s1 := with_arp _ s). by rewrite (bind_Ret _ _ _ _ _ (kfree_live s1 (pool_ok_same s s1 eq_refl eq_refl Hs) i b Hi)).
Qed.

(** One more frame received. *)
Definition eth_counted (s : net) : net := with_counts (u32 (eth_packet_count s + 1)) (ip_packet_count s) (icmp_echo_request_count s) s.

(** The header is taken off and the frame goes to the protocol. *)
Lemma eth_type_trans_demux i b s mem amem dst src type payload :
  carries b (eth_hdr dst src type ++ payload) → length dst = 6%nat → length src = 6%nat → 0 ≤ type < 2 ^ 16 → zlen payload < 2 ^ 31 →
  ∃ b', carries b' payload ∧
    eth_type_trans i mem amem (live i b s) =
    (if type =? ETH_P_IP then ip_rcv i mem amem else if type =? ETH_P_ARP then arp_rcv i mem else _ ← kfree_skb i; mret (-1))
      (live i b' (eth_counted s)).
Proof.
  intros (P & Q & Hh & Hd & Hl & Hdev) Hdst Hsrc Htype Hlen. unfold eth_hdr in *. rewrite !length_app in Hl. cbn in Hl.
  exists {| head := head b; data := data b + 14; tail := tail b; len := u32 (len b - 14); skb_dev := skb_dev b; protocol := type |}. split.
  - exists (P ++ eth_hdr dst src type), Q. cbn. split_and!; [by rewrite Hh; unfold eth_hdr; app_norm| | |done].
    + unfold eth_hdr. rewrite !length_app. cbn. lia.
    + rewrite u32_small; lia.
  - unfold eth_type_trans. rewrite (bind_Ret _ _ _ _ _ (the_skb_live i s b)).
    rewrite (buf_read_bind i s b (P ++ dst ++ src) (be16 type) (payload ++ Q))
      by (rewrite ?Hh, ?length_app; unfold be16; app_norm; done || cbn; lia).
    rewrite bind_modify. change (with_counts _ _ _ (live i b s)) with (live i b (eth_counted s)).
    rewrite get16_be16, bind_deref, (bind_Ret _ _ _ _ _ (set_skb_live _ _ _ _)) by done.
    rewrite (bind_Ret _ _ _ _ _ (skb_pull_live _ _ _ _)), htons_involutive by done. done.
Qed.

(** ** The cache *)

Definition has_slot (ip : Z) (cache : list arp_entry) : bool := existsb (λ e, negb (valid e) || (arp_ip e =? ip)) cache.

Lemma arp_update_find ip mac cache :
  has_slot ip cache = true →
  List.find (λ e, valid e && (arp_ip e =? ip)) (arp_update ip mac cache) = Some {| arp_ip := ip; arp_mac := mac; valid := true |}.
Proof.
  induction cache as [|e cache IH]; [done|]. cbn. destruct (negb (valid e) || (arp_ip e =? ip)) eqn:E; cbn.
  - by rewrite Z.eqb_refl.
  - apply orb_false_iff in E as [Hv Hip]. by rewrite Hip, andb_false_r.
Qed.

(** A full cache without the address stays as it is. *)
Lemma arp_update_full ip mac cache : has_slot ip cache = false → arp_update ip mac cache = cache.
Proof.
  induction cache as [|e cache IH]; [done|]. cbn. destruct (negb (valid e) || (arp_ip e =? ip)); [done|]. cbn. intros H. by rewrite IH.
Qed.

Lemma arp_resolve_hit s ip mem e :
  List.find (λ e, valid e && (arp_ip e =? ip)) (arp_cache s) = Some e → arp_resolve ip mem s = Ret ((0, arp_mac e), s).
Proof. intros He. unfold arp_resolve. run. by rewrite He. Qed.

(** ** Two hosts *)

Record host_ok (s : net) : Prop := {
  host_pool : pool_ok s;
  host_xmit : has_xmit (dev s) = true;
  host_mac : length (dev_addr (dev s)) = 6%nat;
  host_broadcast : length (broadcast (dev s)) = 6%nat;
  host_ip : 0 ≤ ip_addr (dev s) < 2 ^ 32;
}.

Abbreviation ip_of s := (ip_addr (dev s)).
Abbreviation mac_of s := (dev_addr (dev s)).

Definition request (a b : net) : list Z := arp_frame (broadcast (dev a)) (mac_of a) ARPOP_REQUEST (ip_of a) (replicate 6 0) (ip_of b).
Definition answer (a b : net) : list Z := arp_frame (mac_of a) (mac_of b) ARPOP_REPLY (ip_of b) (mac_of a) (ip_of a).

(** The two hosts after the exchange. *)
Definition asked (a b : net) : net := with_wire (wire a ++ [request a b]) a.
Definition answered (a b : net) : net :=
  with_wire (wire b ++ [answer a b]) (with_arp (arp_update (ip_of a) (mac_of a) (arp_cache b)) (eth_counted b)).
Definition learnt (a b : net) : net :=
  with_arp (arp_update (ip_of b) (mac_of b) (arp_cache a)) (eth_counted (asked a b)).

(** C24: Two hosts learn each other's addresses.  [a] asks for the Ethernet address of
    [b], which it does not have: the call fails and the broadcast request is on the wire.
    When [b] passes the request to [eth_type_trans] it remembers [a] and answers; when [a]
    passes it the answer, its next call gives the address of [b], and a call of [b] for
    [a] gives that of [a].  Nothing else of the two hosts changes: all the buffers are back
    in the pool.  This holds where each cache has a slot for the other host, each pool has
    a free buffer for what it sends, and the memory for what is sent can be allocated. *)
Theorem arp_exchange a b la lb m m' i j k k' ba bb :
  host_ok a → host_ok b → (42 ≤ length la)%nat → (42 ≤ length lb)%nat →
  is_free i a → is_free k a → is_free j b → is_free k' b → k' ≠ j →
  List.find (λ e, valid e && (arp_ip e =? ip_of b)) (arp_cache a) = None → has_slot (ip_of b) (arp_cache a) = true →
  has_slot (ip_of a) (arp_cache b) = true → carries bb (request a b) → carries ba (answer a b) →
  arp_resolve (ip_of b) (Some la) a = Ret ((-1, []), asked a b) ∧
  eth_type_trans j (Some lb) m (live j bb b) = Ret (0, answered a b) ∧
  eth_type_trans i m m' (live i ba (asked a b)) = Ret (0, learnt a b) ∧
  arp_resolve (ip_of b) m (learnt a b) = Ret ((0, mac_of b), learnt a b) ∧
  arp_resolve (ip_of a) m (answered a b) = Ret ((0, mac_of a), answered a b).
Proof.
  intros [] [] Hla Hlb Hi Hk Hj Hk' Hkj Hmiss Hsa Hsb Hbb Hba. split_and!.
  - apply arp_resolve_request; eauto.
  - destruct (eth_type_trans_demux j bb b (Some lb) m _ _ _ _ Hbb) as (b' & Hb' & ->); [done|done|lia| |].
    { unfold arp_bytes. rewrite !length_app. cbn. lia. }
    cbn [Z.eqb Pos.eqb]. apply (arp_rcv_request j b' (eth_counted b) lb (mac_of a) (ip_of a) (replicate 6 0)); try done.
    + by apply (pool_ok_same b).
    + eauto.
  - destruct (eth_type_trans_demux i ba (asked a b) m m' _ _ _ _ Hba) as (b' & Hb' & ->); [done|done|lia| |].
    { unfold arp_bytes. rewrite !length_app. cbn. lia. }
    cbn [Z.eqb Pos.eqb]. apply (arp_rcv_other i b' (eth_counted (asked a b)) m ARPOP_REPLY (mac_of b) (ip_of b) (mac_of a) (ip_of a)); try done.
    + by apply (pool_ok_same a).
    + by left.
  - by rewrite (arp_resolve_hit (learnt a b) _ _ _ (arp_update_find (ip_of b) (mac_of b) (arp_cache a) Hsa)).
  - by rewrite (arp_resolve_hit (answered a b) _ _ _ (arp_update_find (ip_of a) (mac_of a) (arp_cache b) Hsb)).
Qed.

(** Two hosts in the state after start-up. *)
Definition host (mac : list Z) (ip : Z) : net :=
  {| dev := {| dev_addr := mac; broadcast := replicate 6 255; ip_addr := ip; has_xmit := true |};
     skb_pool_bitmap := replicate 8 0; skbs := ∅; arp_cache := replicate 32 {| arp_ip := 0; arp_mac := replicate 6 0; valid := false |};
     wire := []; ip_packet_count := 0; eth_packet_count := 0; icmp_echo_request_count := 0 |}.

(** The buffer that the driver fills with a frame. *)
Definition received (f : list Z) : sk_buff :=
  {| head := [0; 0] ++ f ++ [0; 0; 0; 0]; data := 2; tail := 2 + zlen f; len := zlen f; skb_dev := true; protocol := 0 |}.

Lemma received_carries f : carries (received f) f.
Proof. by exists [0; 0], [0; 0; 0; 0]. Qed.

Lemma host_is_ok mac ip : length mac = 6%nat → 0 ≤ ip < 2 ^ 32 → host_ok (host mac ip).
Proof.
  intros Hm Hip. split; try done. split; [done | by repeat constructor |]. intros i Hi. cbn [skb_pool_bitmap skbs host].
  unfold bit. rewrite lookup_empty, lookup_total_replicate_2 by dlia. by rewrite Z.bits_0.
Qed.

Lemma arp_exchange_witness :
  let a := host [2; 0; 0; 0; 0; 1] 0x0A000001 in
  let b := host [2; 0; 0; 0; 0; 2] 0x0A000002 in
  arp_resolve 0x0A000002 None (learnt a b) = Ret ((0, [2; 0; 0; 0; 0; 2]), learnt a b).
Proof.
  intros a b.
  refine (proj1 (proj2 (proj2 (proj2 (arp_exchange a b (replicate 1514 0) (replicate 1514 0) None None 0 0 0 1 (received (answer a b)) (received (request a b))
    (host_is_ok _ _ _ _) (host_is_ok _ _ _ _) _ _ _ _ _ _ _ _ _ _ (received_carries _) (received_carries _)))))).
  all: try reflexivity. all: try lia. all: try (split; [lia | reflexivity]). all: rewrite length_replicate; lia.
Defined.
