(* ===== verification/IpSpec.v ===== *)
(** * Sending and receiving IP packets (kernel/net/ip.c)

    [ip_checksum] gives what makes the one's complement sum of a header zero.  Packets
    that [ip_send] puts on the wire are accepted by [ip_rcv]; headers whose sum is
    wrong are dropped.  A ping is not answered: the answer is written in front of its buffer. *)

From S2P Require Import Prelude Bytes Net NetSpec.

#[local] Open Scope Z_scope.

(** ** The checksum of a header *)





(** ** Sending *)

Definition ip_packet (src dst proto : Z) (payload : list Z) : list Z :=
  let n := 20 + zlen payload in
  ip_header n proto src dst (ip_checksum (ip_header n proto src dst 0)) ++ payload.

(** The header as the standard writes it. *)
Lemma ip_header_eq n proto src dst c :
  0 ≤ n < 2 ^ 16 → 0 ≤ src < 2 ^ 32 → 0 ≤ dst < 2 ^ 32 →
  ip_header n proto src dst c = ([0x45; 0] ++ be16 n ++ [0; 0; 0; 0; 64; proto]) ++ le16_bytes c ++ (be32 src ++ be32 dst).
Proof. intros Hn Hs Hd. unfold ip_header. rewrite htons_bytes, !htonl_bytes by done. by app_norm. Qed.

Lemma ip_send_packet i b s daddr proto mem P E H payload Q :
  skb_dev b = true → head b = P ++ E ++ H ++ payload ++ Q → length E = 14%nat → length H = 20%nat →
  data b = zlen P + 34 → len b = zlen payload → zlen payload < 65516 → 0 ≤ ip_of s < 2 ^ 32 → 0 ≤ daddr < 2 ^ 32 →
  ip_send i daddr proto mem (live i b s) =
  ('(r, dest_mac) ← arp_resolve daddr mem;
   if r <? 0 then _ ← kfree_skb i; mret (-1)
   else _ ← eth_header i ETH_P_IP (Some dest_mac) None; xmit_or_free i)
    (live i (set_data b (P ++ E ++ ip_packet (ip_of s) daddr proto payload ++ Q) (zlen P + 14) (tail b) (20 + zlen payload)) s).
Proof.
  intros Hdev Hh HE HH Hd Hl Hlen Hip Hda. unfold ip_send. rewrite (bind_Ret _ _ _ _ _ (the_skb_live i s b)), Hdev. cbn [negb].
  rewrite (bind_Ret _ _ _ _ _ (skb_push_live i s b _)), (bind_Ret _ _ _ _ _ (the_skb_live i s _)), bind_get. cbn [len set_data dev live with_pool].
  replace (u32 (len b + 20)) with (20 + zlen payload) by (rewrite u32_small; lia). set (n := 20 + zlen payload).
  rewrite (buf_write_bind i s _ (P ++ E) H (payload ++ Q)); cycle 1.
  { cbn. rewrite Hh. by app_norm. }
  { rewrite length_app. lia. }
  { by rewrite ip_header_eq by (unfold n; lia). }
  rewrite (buf_read_bind i s _ (P ++ E) (ip_header n proto (ip_of s) daddr 0) (payload ++ Q)); cycle 1.
  { done. }
  { rewrite length_app. lia. }
  { by rewrite ip_header_eq by (unfold n; lia). }
  set (c := ip_checksum _).
  rewrite (buf_write_bind i s _ (P ++ E ++ [0x45; 0] ++ be16 n ++ [0; 0; 0; 0; 64; proto]) [0; 0] (be32 (ip_of s) ++ be32 daddr ++ payload ++ Q)); cycle 1.
  { cbn [head set_data]. rewrite ip_header_eq by (unfold n; lia). by app_norm. }
  { rewrite !length_app. cbn. lia. }
  { done. }
  replace ((P ++ E ++ [0x45; 0] ++ be16 n ++ [0; 0; 0; 0; 64; proto]) ++ le16_bytes c ++ be32 (ip_of s) ++ be32 daddr ++ payload ++ Q)
    with (P ++ E ++ ip_packet (ip_of s) daddr proto payload ++ Q); cycle 1.
  { unfold ip_packet. fold n. fold c. rewrite ip_header_eq by (unfold n; lia). by app_norm. }
  unfold set_data. cbn. replace (data b - 20) with (zlen P + 14) by lia. done.
Qed.

(** A buffer with the payload behind room for the two headers. *)
Definition roomy (b : sk_buff) (payload : list Z) : Prop :=
  skb_dev b = true ∧ len b = zlen payload ∧
  ∃ P E H Q, head b = P ++ E ++ H ++ payload ++ Q ∧ length E = 14%nat ∧ length H = 20%nat ∧ data b = zlen P + 34.





(** Without the address of the destination a request is sent, and the packet is lost. *)
Lemma ip_send_unresolved i b s daddr proto l payload :
  host_ok s → is_free i s → (∃ j, is_free j s ∧ j ≠ i) → (42 ≤ length l)%nat → roomy b payload → zlen payload < 65516 → 0 ≤ daddr < 2 ^ 32 →
  List.find (λ e, valid e && (arp_ip e =? daddr)) (arp_cache s) = None →
  ip_send i daddr proto (Some l) (live i b s) =
  Ret (-1, with_wire (wire s ++ [arp_frame (broadcast (dev s)) (mac_of s) ARPOP_REQUEST (ip_of s) (replicate 6 0) daddr]) s).
Proof.
  intros [] Hi (j & [Hj Hf] & Hji) Hll (Hdev & Hl & P & E & H & Q & Hh & HE & HH & Hd) Hlen Hda He.
  rewrite (ip_send_packet i b s daddr proto (Some l) P E H payload Q) by done. set (b1 := set_data b _ _ _ _).
  assert (pool_ok (live i b1 s)) as Hs1 by by apply live_pool_ok.
  rewrite (bind_Ret _ _ _ _ _ (arp_resolve_request (live i b1 s) daddr l Hs1
    ltac:(exists j; split; [done|]; cbn; by rewrite lookup_insert_ne) host_xmit Hll host_mac host_broadcast host_ip Hda He)).
  cbn [Z.ltb Z.compare]. set (w := wire _ ++ _). change (with_wire w (live i b1 s)) with (live i b1 (with_wire w s)).
  by rewrite (bind_Ret _ _ _ _ _ (kfree_live (with_wire w s) (pool_ok_same s (with_wire w s) eq_refl eq_refl host_pool) i b1 Hi)).
Qed.

(** ** Receiving *)








(** Reading a buffer while another one is in use too. *)
Lemma buf_read_other {B} i r b rb s x y z pos n (k : list Z → M net B) :
  r ≠ i → head b = x ++ y ++ z → pos = zlen x → n = zlen y →
  (buf_read i pos n ≫= k) (live r rb (live i b s)) = k y (live r rb (live i b s)).
Proof.
  intros Hr Hh Hp Hn. unfold buf_read, the_skb. run. cbn. rewrite lookup_insert_ne, lookup_insert_eq by done.
  by rewrite bind_deref, Hh, slice_mid by done.
Qed.

Lemma buf_write_below i b s pos src : pos < 0 → buf_write i pos src (live i b s) = Undef.
Proof.
  intros Hp. unfold buf_write. rewrite (bind_Ret _ _ _ _ _ (the_skb_live i s b)). unfold splice.
  by rewrite (proj2 (Z.leb_gt 0 pos)) by done.
Qed.

(** The header does not fit in front of data at the start of the array. *)
Lemma ip_send_no_room i b s daddr proto mem : skb_dev b = true → data b < 20 → ip_send i daddr proto mem (live i b s) = Undef.
Proof.
  intros Hdev Hd. unfold ip_send. rewrite (bind_Ret _ _ _ _ _ (the_skb_live i s b)), Hdev. cbn [negb].
  rewrite (bind_Ret _ _ _ _ _ (skb_push_live i s b _)), (bind_Ret _ _ _ _ _ (the_skb_live i s _)), bind_get.
  apply bind_Undef, buf_write_below. lia.
Qed.

(** A ping makes the system write outside of its memory.  The answer to an echo
    request is built at the start of a new buffer, where there is no room for the IP
    header that [ip_send] puts in front of it: with a request of the usual size, a free
    buffer and memory for it, [icmp_rcv] has no defined result. *)
Theorem ping_underflows i j b s l amem h saddr daddr code c0 c1 id payload rest :
  pool_ok s → is_free i s → is_free j s → j ≠ i → (40 ≤ length l)%nat →
  length h = 12%nat → 0 ≤ saddr < 2 ^ 32 → length daddr = 4%nat → length id = 4%nat → length payload = 32%nat →
  carries b (h ++ be32 saddr ++ daddr ++ [ICMP_ECHO; code; c0; c1] ++ id ++ payload ++ rest) →
  icmp_rcv i (Some l) amem (live i b s) = Undef.
Proof.
  intros Hs Hi Hj Hji Hl Hh12 Hsa Hda Hid Hpay (P & Q & Hh & Hd & _ & Hdev). unfold icmp_rcv.
  rewrite (bind_Ret _ _ _ _ _ (the_skb_live i s b)).
  rewrite (buf_read_bind i s b (P ++ h ++ be32 saddr ++ daddr) [ICMP_ECHO] ([code; c0; c1] ++ id ++ payload ++ rest ++ Q));
    [|by rewrite Hh; app_norm|rewrite !length_app; cbn; lia|done].
  change ([8] !!! 0%nat =? 8) with true. cbv iota. rewrite bind_modify. set (s1 := with_counts (eth_packet_count s) (ip_packet_count s) (u32 (icmp_echo_request_count s + 1)) s).
  change (with_counts _ _ _ (live i b s)) with (live i b s1).
  assert (pool_ok (live i b s1)) as Hs1 by (apply live_pool_ok; [by apply (pool_ok_same s) | done]).
  unfold icmp_send_echo_reply. rewrite (bind_Ret _ _ _ _ _ (the_skb_live i s1 b)), Hdev. cbn [negb].
  destruct (alloc_ok (live i b s1) l Hs1) as (r & [Hr Hrf] & E).
  { exists j. split; [apply Hj|]. cbn. rewrite lookup_insert_ne by done. apply Hj. }
  assert (r ≠ i) as Hri by (intros ->; cbn in Hrf; by rewrite lookup_insert_eq in Hrf).
  set (t := live i b s1) in *. rewrite (bind_Ret _ _ _ _ _ E), (bind_Ret _ _ _ _ _ (skb_put_live r t _ _)).
  rewrite (buf_read_other i r b _ s1 (P ++ h ++ be32 saddr ++ daddr ++ [ICMP_ECHO; code; c0; c1]) id (payload ++ rest ++ Q));
    [|done|by rewrite Hh; app_norm|rewrite !length_app; cbn; lia|by rewrite Hid].
  rewrite <- (take_drop 8 l), <- (take_drop 32 (drop 8 l)). set (l0 := take 8 l). set (l1 := take 32 _). set (l2 := drop 32 _).
  assert (length l0 = 8%nat ∧ length l1 = 32%nat) as [H0 H1] by (unfold l0, l1; rewrite !length_take, length_drop; lia).
  rewrite (buf_write_bind r t _ [] l0 (l1 ++ l2)); [|done|done|by rewrite H0, !length_app, Hid].
  rewrite (buf_read_other i r b _ s1 (P ++ h ++ be32 saddr ++ daddr ++ [ICMP_ECHO; code; c0; c1] ++ id) payload (rest ++ Q));
    [|done|by rewrite Hh; app_norm|rewrite !length_app; cbn; lia|by rewrite Hpay].
  rewrite (buf_write_bind r t _ ([0; 0; 0; 0] ++ id) l1 l2); [|by cbn; app_norm|rewrite length_app, Hid; done|by rewrite H1, Hpay].
  rewrite (buf_read_bind r t _ [] (([0; 0; 0; 0] ++ id) ++ payload) l2); [|by cbn; app_norm|done|rewrite !length_app, Hid, Hpay; done].
  rewrite (buf_write_bind r t _ [0; 0] [0; 0] (id ++ payload ++ l2)); [|by cbn; app_norm|done|done].
  unfold set_dev. rewrite bind_assoc, (bind_Ret _ _ _ _ _ (the_skb_live r t _)), (bind_Ret _ _ _ _ _ (set_skb_live r t _ _)).
  rewrite (buf_read_other i r b _ s1 (P ++ h) (be32 saddr) (daddr ++ [ICMP_ECHO; code; c0; c1] ++ id ++ payload ++ rest ++ Q));
    [|done|by rewrite Hh; app_norm|rewrite !length_app; cbn; lia|done].
  rewrite get32_be32, bind_deref by done. apply bind_Undef, ip_send_no_room; [done | cbn; lia].
Qed.

Lemma ping_underflows_witness :
  let s := host [2; 0; 0; 0; 0; 1] 0x0A000001 in
  let h := [0x45; 0; 0; 60; 0; 0; 0; 0; 64; 1; 0; 0] in
  icmp_rcv 0 (Some (replicate 1514 0)) None
    (live 0 (received (h ++ be32 0x0A000002 ++ [10; 0; 0; 1] ++ [ICMP_ECHO; 0; 0; 0] ++ [0; 1; 0; 1] ++ replicate 32 97 ++ [])) s) = Undef.
Proof.
  intros s h. apply (ping_underflows 0 1 _ s (replicate 1514 0) None h 0x0A000002 [10; 0; 0; 1] 0 0 0 [0; 1; 0; 1] (replicate 32 97) []);
    try reflexivity; try lia.
  - apply host_is_ok; [reflexivity | lia].
  - split; [lia | reflexivity].
  - split; [lia | reflexivity].
  - rewrite length_replicate. lia.
  - apply received_carries.
Defined.
