(* ===== verification/Mem.v ===== *)
(** * Byte-addressed memory

    The memory the kernel code reads and writes through pointers: a finite map
    from addresses to byte values.  An address without a byte is not mapped,
    and an access to it is [Undef].  A [uint32_t] field is four bytes, least
    significant first.  Pointer arithmetic is not reduced modulo 2^32: a
    pointer beyond the address space is not mapped either. *)

From S2P Require Import Prelude.

#[local] Open Scope Z_scope.

Abbreviation mem := (gmap Z Z).

Definition load8 (a : Z) : M mem Z := m ← get; deref (m !! a).

Definition store8 (a v : Z) : M mem unit :=
  m ← get;
  match m !! a with
  | Some _ => put (<[a := u8 v]> m)
  | None => undef
  end.

Definition load32 (a : Z) : M mem Z :=
  b0 ← load8 a;
  b1 ← load8 (a + 1);
  b2 ← load8 (a + 2);
  b3 ← load8 (a + 3);
  mret (b0 + 2 ^ 8 * b1 + 2 ^ 16 * b2 + 2 ^ 24 * b3).

Definition store32 (a v : Z) : M mem unit :=
  _ ← store8 a v;
  _ ← store8 (a + 1) (v / 2 ^ 8);
  _ ← store8 (a + 2) (v / 2 ^ 16);
  store8 (a + 3) (v / 2 ^ 24).

(** ** Mapped ranges *)

Definition mapped (m : mem) (a n : Z) : Prop := ∀ x, a ≤ x < a + n → is_Some (m !! x).

(** Every byte of the memory is a byte value. *)
Definition bytes_ok (m : mem) : Prop := map_Forall (λ _ b, 0 ≤ b < 2 ^ 8) m.

(** [m] and [m'] agree outside [[a, a + n)]. *)
Definition same_outside (a n : Z) (m m' : mem) : Prop :=
  ∀ x, x < a ∨ a + n ≤ x → m' !! x = m !! x.

Lemma mapped_sub m a n b k : mapped m a n → a ≤ b → b + k ≤ a + n → mapped m b k.
Proof. intros H ? ? x Hx. apply H. lia. Qed.

Lemma mapped_app m a n k : 0 ≤ n → mapped m a n → mapped m (a + n) k → mapped m a (n + k).
Proof. intros Hn H1 H2 x Hx. destruct (decide (x < a + n)); [apply H1 | apply H2]; lia. Qed.

Lemma mapped_insert m a n x b : mapped m a n → mapped (<[x := b]> m) a n.
Proof. intros H y Hy. destruct (decide (x = y)) as [->|]; [by rewrite lookup_insert_eq|].
  rewrite lookup_insert_ne by done. by apply H.
Qed.

Lemma load8_eq m a b : m !! a = Some b → load8 a m = Ret (b, m).
Proof. intros H. unfold load8, get, mbind, M_bind. by rewrite H. Qed.

Lemma store8_eq m a v : is_Some (m !! a) → store8 a v m = Ret (tt, <[a := u8 v]> m).
Proof. intros [b H]. unfold store8, get, mbind, M_bind. by rewrite H. Qed.

(** ** Words *)

Definition word (m : mem) (a : Z) : Z :=
  m !!! a + 2 ^ 8 * m !!! (a + 1) + 2 ^ 16 * m !!! (a + 2) + 2 ^ 24 * m !!! (a + 3).

Definition write32 (m : mem) (a v : Z) : mem :=
  <[a + 3 := u8 (v / 2 ^ 24)]> (<[a + 2 := u8 (v / 2 ^ 16)]>
    (<[a + 1 := u8 (v / 2 ^ 8)]> (<[a := u8 v]> m))).

Lemma load32_eq m a : mapped m a 4 → load32 a m = Ret (word m a, m).
Proof.
  intros H. unfold load32, word.
  destruct (H a ltac:(lia)) as [b0 E0]. destruct (H (a + 1) ltac:(lia)) as [b1 E1].
  destruct (H (a + 2) ltac:(lia)) as [b2 E2]. destruct (H (a + 3) ltac:(lia)) as [b3 E3].
  rewrite !lookup_total_alt, E0, E1, E2, E3.
  by rewrite (bind_Ret _ _ _ _ _ (load8_eq m a b0 E0)),
    (bind_Ret _ _ _ _ _ (load8_eq m (a + 1) b1 E1)), (bind_Ret _ _ _ _ _ (load8_eq m (a + 2) b2 E2)),
    (bind_Ret _ _ _ _ _ (load8_eq m (a + 3) b3 E3)).
Qed.

Lemma store32_eq m a v : mapped m a 4 → store32 a v m = Ret (tt, write32 m a v).
Proof.
  intros H. unfold store32, write32.
  rewrite (bind_Ret _ _ _ _ _ (store8_eq m a v ltac:(apply H; lia))).
  pose proof (mapped_insert _ _ _ a (u8 v) H) as H1.
  erewrite bind_Ret by (apply store8_eq, H1; lia).
  pose proof (mapped_insert _ _ _ (a + 1) (u8 (v / 2 ^ 8)) H1) as H2.
  erewrite bind_Ret by (apply store8_eq, H2; lia).
  apply store8_eq, (mapped_insert _ _ _ (a + 2) (u8 (v / 2 ^ 16)) H2). lia.
Qed.

Lemma lookup_write32_ne m a v x : x < a ∨ a + 4 ≤ x → write32 m a v !! x = m !! x.
Proof. intros H. unfold write32. by rewrite !lookup_insert_ne by lia. Qed.

Lemma write32_same_outside m a v : same_outside a 4 m (write32 m a v).
Proof. intros x Hx. by apply lookup_write32_ne. Qed.

Lemma mapped_write32 m b n a v : mapped m b n → mapped (write32 m a v) b n.
Proof. intros H. by repeat apply mapped_insert. Qed.

Lemma word_write32_eq m a v : 0 ≤ v < 2 ^ 32 → word (write32 m a v) a = v.
Proof.
  intros Hv. unfold word, write32.
  rewrite !lookup_total_insert_eq, !lookup_total_insert_ne by lia.
  rewrite !lookup_total_insert_eq, !lookup_total_insert_ne by lia.
  rewrite !lookup_total_insert_eq, !lookup_total_insert_ne by lia.
  rewrite !lookup_total_insert_eq. unfold u8. dlia.
Qed.

Lemma word_ext m m' a : (∀ x, a ≤ x < a + 4 → m' !! x = m !! x) → word m' a = word m a.
Proof. intros H. unfold word. by rewrite !lookup_total_alt, !H by lia. Qed.

Lemma word_write32_ne m a v b : b + 4 ≤ a ∨ a + 4 ≤ b → word (write32 m a v) b = word m b.
Proof. intros H. apply word_ext. intros x Hx. apply lookup_write32_ne. lia. Qed.

Lemma bytes_ok_insert m a v : bytes_ok m → bytes_ok (<[a := u8 v]> m).
Proof. intros H. apply map_Forall_insert_2; [|done]. apply Z.mod_pos_bound. lia. Qed.

Lemma bytes_ok_write32 m a v : bytes_ok m → bytes_ok (write32 m a v).
Proof. intros H. by repeat apply bytes_ok_insert. Qed.

Lemma lookup_total_byte m a : bytes_ok m → 0 ≤ m !!! a < 2 ^ 8.
Proof.
  intros H. rewrite lookup_total_alt. destruct (m !! a) eqn:E; [by apply (H a) in E | done].
Qed.

Lemma word_bounds m a : bytes_ok m → 0 ≤ word m a < 2 ^ 32.
Proof.
  intros H. unfold word. pose proof (lookup_total_byte m a H).
  pose proof (lookup_total_byte m (a + 1) H). pose proof (lookup_total_byte m (a + 2) H).
  pose proof (lookup_total_byte m (a + 3) H). lia.
Qed.

(** ** Bytes of a range *)

(** The bytes of [l] are stored from [a] on. *)
Definition bytes_at (m : mem) (a : Z) (l : list Z) : Prop :=
  ∀ i b, l !! i = Some b → m !! (a + Z.of_nat i) = Some b.

Lemma bytes_at_nil m a : bytes_at m a [].
Proof. intros i b H. by rewrite lookup_nil in H. Qed.

Lemma bytes_at_cons m a b l : bytes_at m a (b :: l) ↔ m !! a = Some b ∧ bytes_at m (a + 1) l.
Proof.
  split.
  - intros H. split.
    + rewrite <- (H 0%nat b) by done. f_equal. lia.
    + intros i c Hi. rewrite <- (H (S i) c) by done. f_equal. lia.
  - intros [Hb Hl] [|i] c; simpl.
    + intros [= ->]. rewrite <- Hb. f_equal. lia.
    + intros Hc. rewrite <- (Hl i c Hc). f_equal. lia.
Qed.

Lemma bytes_at_app m a l1 l2 :
  bytes_at m a (l1 ++ l2) ↔ bytes_at m a l1 ∧ bytes_at m (a + Z.of_nat (length l1)) l2.
Proof.
  revert a. induction l1 as [|b l1 IH]; intros a; simpl.
  - rewrite Z.add_0_r. split; [intros; split; [apply bytes_at_nil | done] | by intros [_ ?]].
  - rewrite !bytes_at_cons, IH.
    replace (a + 1 + Z.of_nat (length l1)) with (a + Z.of_nat (S (length l1))) by lia. tauto.
Qed.

Lemma bytes_at_ext m m' a l :
  (∀ x, a ≤ x < a + Z.of_nat (length l) → m' !! x = m !! x) → bytes_at m a l → bytes_at m' a l.
Proof. intros H Hl i b Hi. rewrite H; [by apply Hl|]. apply lookup_lt_Some in Hi. lia. Qed.

Lemma bytes_at_mapped m a l : bytes_at m a l → mapped m a (Z.of_nat (length l)).
Proof.
  intros H x Hx. destruct (lookup_lt_is_Some_2 l (Z.to_nat (x - a))) as [b Hb]; [lia|].
  exists b. rewrite <- (H _ _ Hb). f_equal. lia.
Qed.

(** The bytes stored at a mapped range. *)
Definition peek (m : mem) (a : Z) (n : nat) : list Z := (λ i, m !!! (a + i)) <$> seqZ 0 (Z.of_nat n).

Lemma length_peek m a n : length (peek m a n) = n.
Proof. unfold peek. rewrite length_fmap, length_seqZ. lia. Qed.

Lemma lookup_peek m a n i : (i < n)%nat → peek m a n !! i = Some (m !!! (a + Z.of_nat i)).
Proof.
  intros Hi. unfold peek. rewrite list_lookup_fmap, lookup_seqZ_lt by lia. simpl. do 3 f_equal. 
Qed.

Lemma bytes_at_peek m a n : mapped m a (Z.of_nat n) → bytes_at m a (peek m a n).
Proof.
  intros Hm i b Hi. pose proof (lookup_lt_Some _ _ _ Hi) as Hl. rewrite length_peek in Hl.
  rewrite lookup_peek in Hi by done. injection Hi as <-.
  destruct (Hm (a + Z.of_nat i)) as [c E]; [lia|]. by rewrite lookup_total_alt, E.
Qed.

(** The number of bytes in a range is at most the number of mapped bytes. *)
Lemma mapped_size m a n : 0 ≤ n → mapped m a n → n ≤ Z.of_nat (size m).
Proof.
  intros Hn Hm. assert (list_to_set (seqZ a n) ⊆ dom m) as Hsub.
  { intros x. rewrite elem_of_list_to_set, elem_of_seqZ, elem_of_dom. intros. apply Hm. lia. }
  apply subseteq_size in Hsub. rewrite size_list_to_set in Hsub by apply NoDup_seqZ.
  rewrite length_seqZ, size_dom in Hsub. lia.
Qed.
