(* ===== verification/Strings.v ===== *)
(** * Memory and string functions (lib/string.c, user/libc/string/str.c)

    Each function runs on the byte memory of [Mem.v]; a [char] is a byte, and
    where the code compares [char]s by order or subtracts them the signed
    value [i8] is taken, as on i386.  A loop over a string is given the number
    of mapped bytes plus one as fuel: each iteration reads another mapped byte,
    so it ends (at a zero byte, or [Undef] at the first unmapped address)
    before the fuel does. *)

From S2P Require Import Prelude Mem.

#[local] Open Scope Z_scope.

(** Addresses and sizes are [uint32_t]; [size_t] arguments become the number
    of iterations of the counted loops. *)

(** ** Memory blocks *)

Fixpoint memset_loop (count : nat) (d val : Z) : M mem unit :=
  match count with
  | O => mret tt
  | S count => _ ← store8 d val; memset_loop count (d + 1) val
  end.

Definition memset (dest val count : Z) : M mem Z :=
  _ ← memset_loop (Z.to_nat count) dest val; mret dest.

Fixpoint memcpy_loop (count : nat) (d s : Z) : M mem unit :=
  match count with
  | O => mret tt
  | S count => c ← load8 s; _ ← store8 d c; memcpy_loop count (d + 1) (s + 1)
  end.

Definition memcpy (dest src count : Z) : M mem Z :=
  _ ← memcpy_loop (Z.to_nat count) dest src; mret dest.

(** [while (count--) *--d = *--s;] *)
Fixpoint memmove_down (count : nat) (d s : Z) : M mem unit :=
  match count with
  | O => mret tt
  | S count => c ← load8 (s - 1); _ ← store8 (d - 1) c; memmove_down count (d - 1) (s - 1)
  end.

Definition memmove (dest src count : Z) : M mem Z :=
  _ ← (if dest <? src then memcpy_loop (Z.to_nat count) dest src
       else memmove_down (Z.to_nat count) (dest + count) (src + count));
  mret dest.

Fixpoint memcmp_loop (n : nat) (p1 p2 : Z) : M mem Z :=
  match n with
  | O => mret 0
  | S n =>
      a ← load8 p1;
      b ← load8 p2;
      if negb (a =? b) then mret (a - b) else memcmp_loop n (p1 + 1) (p2 + 1)
  end.

Definition memcmp (s1 s2 n : Z) : M mem Z := memcmp_loop (Z.to_nat n) s1 s2.

(** ** Strings *)

Definition string_fuel : M mem nat := m ← get; mret (S (size m)).

Fixpoint strlen_loop (fuel : nat) (str len : Z) : M mem Z :=
  match fuel with
  | O => undef
  | S fuel =>
      c ← load8 (str + len);
      if c =? 0 then mret len else strlen_loop fuel str (u32 (len + 1))
  end.

Definition strlen (str : Z) : M mem Z := fuel ← string_fuel; strlen_loop fuel str 0.

(** [while ( *d++ = *src++ );] *)
Fixpoint copy_string (fuel : nat) (d src : Z) : M mem unit :=
  match fuel with
  | O => undef
  | S fuel =>
      c ← load8 src;
      _ ← store8 d c;
      if c =? 0 then mret tt else copy_string fuel (d + 1) (src + 1)
  end.

Definition strcpy (dest src : Z) : M mem Z :=
  fuel ← string_fuel; _ ← copy_string fuel dest src; mret dest.

(** The first loop of [strncpy], [k] bytes from the end of the count; it
    returns how many bytes of the count are left. *)
Fixpoint strncpy_loop (k : nat) (d src : Z) : M mem (nat * Z) :=
  match k with
  | O => mret (O, d)
  | S k' =>
      c ← load8 src;
      if c =? 0 then mret (k, d)
      else _ ← store8 d c; strncpy_loop k' (d + 1) (src + 1)
  end.

Definition strncpy (dest src n : Z) : M mem Z :=
  r ← strncpy_loop (Z.to_nat n) dest src;
  _ ← memset_loop r.1 r.2 0;
  mret dest.

Fixpoint strcmp_loop (fuel : nat) (s1 s2 : Z) : M mem Z :=
  match fuel with
  | O => undef
  | S fuel =>
      a ← load8 s1;
      b ← load8 s2;
      if negb (a =? 0) && (a =? b) then strcmp_loop fuel (s1 + 1) (s2 + 1) else mret (a - b)
  end.

Definition strcmp (s1 s2 : Z) : M mem Z := fuel ← string_fuel; strcmp_loop fuel s1 s2.

Fixpoint strncmp_loop (n : nat) (s1 s2 : Z) : M mem Z :=
  match n with
  | O => mret 0
  | S n =>
      a ← load8 s1;
      if a =? 0 then b ← load8 s2; mret (a - b)
      else b ← load8 s2; if a =? b then strncmp_loop n (s1 + 1) (s2 + 1) else mret (a - b)
  end.

Definition strncmp (s1 s2 n : Z) : M mem Z := strncmp_loop (Z.to_nat n) s1 s2.

(** [while ( *d) d++;] *)
Fixpoint skip_string (fuel : nat) (d : Z) : M mem Z :=
  match fuel with
  | O => undef
  | S fuel => c ← load8 d; if c =? 0 then mret d else skip_string fuel (d + 1)
  end.

Definition strcat (dest src : Z) : M mem Z :=
  fuel ← string_fuel;
  d ← skip_string fuel dest;
  _ ← copy_string fuel d src;
  mret dest.

(** [while (n-- && ( *d++ = *src++ ));], returning the final [n] and [d]. *)
Fixpoint strncat_loop (n : nat) (d src : Z) : M mem (Z * Z) :=
  match n with
  | O => mret (u32 (-1), d)
  | S n =>
      c ← load8 src;
      _ ← store8 d c;
      if c =? 0 then mret (Z.of_nat n, d + 1) else strncat_loop n (d + 1) (src + 1)
  end.

Definition strncat (dest src n : Z) : M mem Z :=
  fuel ← string_fuel;
  d ← skip_string fuel dest;
  r ← strncat_loop (Z.to_nat n) d src;
  _ ← (if r.1 =? u32 (-1) then store8 r.2 0 else mret tt);
  mret dest.

Fixpoint strchr_loop (fuel : nat) (s c : Z) : M mem Z :=
  match fuel with
  | O => undef
  | S fuel =>
      x ← load8 s;
      if x =? 0 then mret (if c =? 0 then s else 0)
      else if x =? u8 c then mret s
      else strchr_loop fuel (s + 1) c
  end.

Definition strchr (s c : Z) : M mem Z := fuel ← string_fuel; strchr_loop fuel s c.

Fixpoint strrchr_loop (fuel : nat) (s c last : Z) : M mem Z :=
  match fuel with
  | O => undef
  | S fuel =>
      x ← load8 s;
      if x =? 0 then mret (if c =? 0 then s else last)
      else strrchr_loop fuel (s + 1) c (if x =? u8 c then s else last)
  end.

Definition strrchr (s c : Z) : M mem Z := fuel ← string_fuel; strrchr_loop fuel s c 0.

(** [( *s >= 'a' && *s <= 'z') ? ( *s - 32) : *s] on a signed [char]. *)
Definition upcase (x : Z) : Z :=
  let c := i8 x in if (97 <=? c) && (c <=? 122) then c - 32 else c.

Fixpoint strcasecmp_loop (fuel : nat) (s1 s2 : Z) : M mem Z :=
  match fuel with
  | O => undef
  | S fuel =>
      a ← load8 s1;
      b ← load8 s2;
      if negb (a =? 0) && negb (b =? 0) then
        if negb (upcase a =? upcase b) then mret (upcase a - upcase b)
        else strcasecmp_loop fuel (s1 + 1) (s2 + 1)
      else mret (i8 a - i8 b)
  end.

Definition strcasecmp (s1 s2 : Z) : M mem Z := fuel ← string_fuel; strcasecmp_loop fuel s1 s2.

(** ** Character classes *)

Definition toupper (c : Z) : Z := if (97 <=? c) && (c <=? 122) then c - 32 else c.
Definition tolower (c : Z) : Z := if (65 <=? c) && (c <=? 90) then c + 32 else c.
Definition islower (c : Z) : bool := (97 <=? c) && (c <=? 122).
Definition isupper (c : Z) : bool := (65 <=? c) && (c <=? 90).
Definition isalpha (c : Z) : bool := islower c || isupper c.
Definition isdigit (c : Z) : bool := (48 <=? c) && (c <=? 57).
Definition isalnum (c : Z) : bool := isalpha c || isdigit c.
Definition isspace (c : Z) : bool :=
  (c =? 32) || (c =? 9) || (c =? 10) || (c =? 13) || (c =? 12) || (c =? 11).

(** ** Tokens

    [strtok] keeps its position in the static [strtok_saveptr]. *)

Record tok_st := { tmem : mem; strtok_saveptr : Z }.

Definition on_mem {A} (c : M mem A) : M tok_st A :=
  zoom tmem (λ m s, {| tmem := m; strtok_saveptr := strtok_saveptr s |}) c.

Definition set_saveptr (p : Z) : M tok_st unit :=
  modify (λ s, {| tmem := tmem s; strtok_saveptr := p |}).

(** [while ( *save && strchr(delim, *save) == want) save++;], where [want]
    says whether [strchr] finds the character. *)
Fixpoint span_loop (fuel : nat) (want : bool) (delim save : Z) : M mem Z :=
  match fuel with
  | O => undef
  | S fuel =>
      c ← load8 save;
      if c =? 0 then mret save
      else
        r ← strchr delim (i8 c);
        if Bool.eqb (negb (r =? 0)) want then span_loop fuel want delim (save + 1) else mret save
  end.

Definition span (want : bool) (delim : Z) : M tok_st unit :=
  s ← get;
  p ← on_mem (fuel ← string_fuel; span_loop fuel want delim (strtok_saveptr s));
  set_saveptr p.

Definition strtok (str delim : Z) : M tok_st Z :=
  _ ← (if negb (str =? 0) then set_saveptr str else mret tt);
  s ← get;
  if strtok_saveptr s =? 0 then mret 0
  else
    _ ← span true delim;
    s ← get;
    c ← on_mem (load8 (strtok_saveptr s));
    if c =? 0 then _ ← set_saveptr 0; mret 0
    else
      let token_start := strtok_saveptr s in
      _ ← span false delim;
      s ← get;
      c ← on_mem (load8 (strtok_saveptr s));
      _ ← (if negb (c =? 0) then
             _ ← on_mem (store8 (strtok_saveptr s) 0);
             set_saveptr (strtok_saveptr s + 1)
           else set_saveptr 0);
      mret token_start.

(** ** The user library's variants (user/libc/string/str.c) *)

Module User.

(** As the kernel's [strncat], except for the test of [n] after the loop. *)
Definition strncat (dest src n : Z) : M mem Z :=
  fuel ← string_fuel;
  d ← skip_string fuel dest;
  r ← strncat_loop (Z.to_nat n) d src;
  _ ← (if r.1 =? 0 then store8 r.2 0 else mret tt);
  mret dest.

(** The inner loop of [strstr]: the final value of [n]. *)
Fixpoint match_loop (fuel : nat) (h n : Z) : M mem Z :=
  match fuel with
  | O => undef
  | S fuel =>
      a ← load8 h;
      if a =? 0 then mret n
      else
        b ← load8 n;
        if b =? 0 then mret n
        else if a =? b then match_loop fuel (h + 1) (n + 1) else mret n
  end.

Fixpoint strstr_loop (fuel : nat) (haystack needle : Z) : M mem Z :=
  match fuel with
  | O => undef
  | S fuel' =>
      c ← load8 haystack;
      if c =? 0 then mret 0
      else
        fuel ← string_fuel;
        n ← match_loop fuel haystack needle;
        x ← load8 n;
        if x =? 0 then mret haystack else strstr_loop fuel' (haystack + 1) needle
  end.

Definition strstr (haystack needle : Z) : M mem Z :=
  c ← load8 needle;
  if c =? 0 then mret haystack
  else fuel ← string_fuel; strstr_loop fuel haystack needle.

End User.

(** ** Blocks: what the loops leave behind *)

Lemma memset_loop_spec n : ∀ d v m,
  mapped m d (Z.of_nat n) →
  ∃ m', memset_loop n d v m = Ret (tt, m') ∧ bytes_at m' d (replicate n (u8 v)) ∧
        same_outside d (Z.of_nat n) m m'.
Proof.
  induction n as [|n IH]; intros d v m Hm.
  - exists m. split_and!; [done | apply bytes_at_nil | done].
  - cbn [memset_loop]. rewrite (bind_Ret _ _ _ _ _ (store8_eq m d v ltac:(apply Hm; lia))).
    destruct (IH (d + 1) v (<[d := u8 v]> m)) as (m' & E & Hb & Hs).
    { apply mapped_insert. eapply mapped_sub; [done | lia | lia]. }
    exists m'. split_and!; [done | |].
    + cbn [replicate]. apply bytes_at_cons. split; [|done].
      rewrite Hs by lia. apply lookup_insert_eq.
    + intros x Hx. rewrite Hs by lia. by rewrite lookup_insert_ne by lia.
Qed.

(** A forward copy is right whenever the destination is not inside the source. *)
Lemma memcpy_loop_spec l : ∀ d s m,
  mapped m d (Z.of_nat (length l)) → bytes_at m s l → bytes_ok m →
  (d ≤ s ∨ s + Z.of_nat (length l) ≤ d) →
  ∃ m', memcpy_loop (length l) d s m = Ret (tt, m') ∧ bytes_at m' d l ∧
        same_outside d (Z.of_nat (length l)) m m' ∧ bytes_ok m'.
Proof.
  induction l as [|b l IH]; intros d s m Hm Hl Hok Hov; simpl length in *.
  - exists m. split_and!; [done | apply bytes_at_nil | done | done].
  - apply bytes_at_cons in Hl as [Hb Hl]. cbn [memcpy_loop].
    rewrite (bind_Ret _ _ _ _ _ (load8_eq m s b Hb)).
    rewrite (bind_Ret _ _ _ _ _ (store8_eq m d b ltac:(apply Hm; lia))).
    assert (u8 b = b) as -> by (apply Z.mod_small, (Hok s b Hb)).
    destruct (IH (d + 1) (s + 1) (<[d := b]> m)) as (m' & E & Hd & Hs & Hok').
    + apply mapped_insert. eapply mapped_sub; [done | lia | lia].
    + eapply bytes_at_ext; [|done]. intros x Hx. rewrite lookup_insert_ne by lia. done.
    + apply map_Forall_insert_2; [by apply (Hok s) | done].
    + lia.
    + exists m'. split_and!; [done | | | done].
      * apply bytes_at_cons. split; [|done]. rewrite Hs by lia. apply lookup_insert_eq.
      * intros x Hx. rewrite Hs by lia. by rewrite lookup_insert_ne by lia.
Qed.

(** A backward copy is right whenever the source does not begin inside the
    destination. *)
Lemma memmove_down_spec l : ∀ d s m,
  mapped m d (Z.of_nat (length l)) → bytes_at m s l → bytes_ok m → s ≤ d →
  ∃ m', memmove_down (length l) (d + Z.of_nat (length l)) (s + Z.of_nat (length l)) m = Ret (tt, m') ∧
        bytes_at m' d l ∧ same_outside d (Z.of_nat (length l)) m m' ∧ bytes_ok m'.
Proof.
  induction l as [|b l IH] using rev_ind; intros d s m Hm Hl Hok Hov.
  - exists m. split_and!; [done | apply bytes_at_nil | done | done].
  - rewrite length_app in *. simpl length in *.
    replace (length l + 1)%nat with (S (length l)) in * by lia.
    apply bytes_at_app in Hl as [Hl [Hb _]%bytes_at_cons]. cbn [memmove_down].
    replace (s + Z.of_nat (S (length l)) - 1) with (s + Z.of_nat (length l)) by lia.
    replace (d + Z.of_nat (S (length l)) - 1) with (d + Z.of_nat (length l)) by lia.
    rewrite (bind_Ret _ _ _ _ _ (load8_eq m _ b Hb)).
    rewrite (bind_Ret _ _ _ _ _ (store8_eq m (d + Z.of_nat (length l)) b ltac:(apply Hm; lia))).
    assert (u8 b = b) as -> by (apply Z.mod_small, (Hok _ b Hb)).
    destruct (IH d s (<[d + Z.of_nat (length l) := b]> m)) as (m' & E & Hd & Hs & Hok').
    + apply mapped_insert. eapply mapped_sub; [done | lia | lia].
    + eapply bytes_at_ext; [|done]. intros x Hx. rewrite lookup_insert_ne by lia. done.
    + apply map_Forall_insert_2; [by apply (Hok (s + Z.of_nat (length l))) | done].
    + lia.
    + exists m'. split_and!; [done | | | done].
      * apply bytes_at_app. split; [done|]. apply bytes_at_cons. split; [|apply bytes_at_nil].
        rewrite Hs by lia. apply lookup_insert_eq.
      * intros x Hx. rewrite Hs by lia. by rewrite lookup_insert_ne by lia.
Qed.

(** [memmove] copies correctly however the two blocks overlap: the
    destination ends up with the bytes the source had before the call, and no
    byte outside the destination changes. *)
Theorem memmove_correct dest src l m :
  mapped m dest (Z.of_nat (length l)) → bytes_at m src l → bytes_ok m →
  ∃ m', memmove dest src (Z.of_nat (length l)) m = Ret (dest, m') ∧ bytes_at m' dest l ∧
        same_outside dest (Z.of_nat (length l)) m m' ∧ bytes_ok m'.
Proof.
  intros Hm Hl Hok. unfold memmove. rewrite Nat2Z.id.
  destruct (Z.ltb_spec dest src).
  - destruct (memcpy_loop_spec l dest src m) as (m' & E & H'); try done; [lia|].
    exists m'. by rewrite (bind_Ret _ _ _ _ _ E).
  - destruct (memmove_down_spec l dest src m) as (m' & E & H'); try done.
    exists m'. by rewrite (bind_Ret _ _ _ _ _ E).
Qed.

Lemma memset_spec d v n m :
  0 ≤ n → mapped m d n →
  ∃ m', memset d v n m = Ret (d, m') ∧ bytes_at m' d (replicate (Z.to_nat n) (u8 v)) ∧
        same_outside d n m m'.
Proof.
  intros Hn Hm. unfold memset.
  destruct (memset_loop_spec (Z.to_nat n) d v m) as (m' & E & Hb & Hs).
  { by rewrite Z2Nat.id. }
  exists m'. rewrite (bind_Ret _ _ _ _ _ E). rewrite Z2Nat.id in Hs by done. done.
Qed.

Lemma memcpy_spec d s l m :
  mapped m d (Z.of_nat (length l)) → bytes_at m s l → bytes_ok m →
  (d ≤ s ∨ s + Z.of_nat (length l) ≤ d) →
  ∃ m', memcpy d s (Z.of_nat (length l)) m = Ret (d, m') ∧ bytes_at m' d l ∧
        same_outside d (Z.of_nat (length l)) m m' ∧ bytes_ok m'.
Proof.
  intros Hm Hl Hok Hov. unfold memcpy. rewrite Nat2Z.id.
  destruct (memcpy_loop_spec l d s m) as (m' & E & H'); try done.
  exists m'. by rewrite (bind_Ret _ _ _ _ _ E).
Qed.

(** ** Strings in memory *)

(** [s] is the C string at address [a]: its bytes, none of them zero,
    followed by a zero byte. *)
Definition cstr (m : mem) (a : Z) (s : list Z) : Prop := bytes_at m a (s ++ [0]) ∧ 0 ∉ s.

Lemma cstr_nil m a : cstr m a [] ↔ m !! a = Some 0.
Proof.
  unfold cstr. simpl. rewrite bytes_at_cons.
  split; [by intros [[? _] _] | intros; split_and!; [done | apply bytes_at_nil | set_solver]].
Qed.

Lemma cstr_cons m a c s : cstr m a (c :: s) ↔ m !! a = Some c ∧ c ≠ 0 ∧ cstr m (a + 1) s.
Proof. unfold cstr. simpl. rewrite bytes_at_cons, not_elem_of_cons. naive_solver. Qed.

Lemma cstr_length m a s : cstr m a s → (length s < size m)%nat.
Proof.
  intros [H _]. apply bytes_at_mapped in H. apply mapped_size in H; [|lia].
  rewrite length_app in H. simpl in H. lia.
Qed.

Lemma cstr_ext m m' a s :
  (∀ x, a ≤ x ≤ a + Z.of_nat (length s) → m' !! x = m !! x) → cstr m a s → cstr m' a s.
Proof.
  intros Hx [Hb H0]. split; [|done]. eapply bytes_at_ext; [|done].
  intros x Hr. apply Hx. rewrite length_app in Hr. simpl in Hr. lia.
Qed.

(** The function of memory a string loop starts with. *)
Lemma string_fuel_eq {A} (k : nat → M mem A) m : (string_fuel ≫= k) m = k (S (size m)) m.
Proof. done. Qed.

Lemma skip_string_spec s : ∀ fuel a m,
  cstr m a s → (length s < fuel)%nat → skip_string fuel a m = Ret (a + Z.of_nat (length s), m).
Proof.
  induction s as [|c s IH]; intros [|fuel] a m Hs Hf; simpl in Hf; try lia; cbn [skip_string].
  - apply cstr_nil in Hs. rewrite (bind_Ret _ _ _ _ _ (load8_eq m a 0 Hs)). simpl.
    by rewrite Z.add_0_r.
  - apply cstr_cons in Hs as (Hc & Hc0 & Hs). rewrite (bind_Ret _ _ _ _ _ (load8_eq m a c Hc)).
    rewrite (proj2 (Z.eqb_neq c 0)) by done. rewrite IH by (done || lia).
    do 2 f_equal. simpl length. lia.
Qed.

Lemma strlen_loop_spec s : ∀ fuel a len m,
  cstr m (a + len) s → 0 ≤ len → len + Z.of_nat (length s) < 2 ^ 32 → (length s < fuel)%nat →
  strlen_loop fuel a len m = Ret (len + Z.of_nat (length s), m).
Proof.
  induction s as [|c s IH]; intros [|fuel] a len m Hs Hl Hb Hf; simpl in Hf; try lia;
    cbn [strlen_loop].
  - apply cstr_nil in Hs. rewrite (bind_Ret _ _ _ _ _ (load8_eq m _ 0 Hs)). simpl.
    by rewrite Z.add_0_r.
  - apply cstr_cons in Hs as (Hc & Hc0 & Hs). rewrite (bind_Ret _ _ _ _ _ (load8_eq m _ c Hc)).
    rewrite (proj2 (Z.eqb_neq c 0)) by done. simpl length in *. rewrite u32_small by lia.
    rewrite IH; [do 2 f_equal; lia | | lia | lia | lia].
    by replace (a + (len + 1)) with (a + len + 1) by lia.
Qed.

Lemma strlen_spec m a s :
  cstr m a s → Z.of_nat (length s) < 2 ^ 32 → strlen a m = Ret (Z.of_nat (length s), m).
Proof.
  intros Hs Hb. unfold strlen. rewrite string_fuel_eq.
  pose proof (cstr_length m a s Hs). rewrite strlen_loop_spec with (s := s); try lia; [done|].
  by rewrite Z.add_0_r.
Qed.

(** Copying a string: the destination may not begin inside the source. *)
Lemma copy_string_spec s : ∀ fuel d a m,
  cstr m a s → mapped m d (Z.of_nat (length s) + 1) → bytes_ok m → (length s < fuel)%nat →
  (d ≤ a ∨ a + Z.of_nat (length s) < d) →
  ∃ m', copy_string fuel d a m = Ret (tt, m') ∧ cstr m' d s ∧
        same_outside d (Z.of_nat (length s) + 1) m m' ∧ bytes_ok m'.
Proof.
  induction s as [|c s IH]; intros [|fuel] d a m Hs Hm Hok Hf Hov; simpl in Hf; try lia;
    cbn [copy_string]; simpl length in *.
  - apply cstr_nil in Hs. rewrite (bind_Ret _ _ _ _ _ (load8_eq m a 0 Hs)).
    rewrite (bind_Ret _ _ _ _ _ (store8_eq m d 0 ltac:(apply Hm; lia))).
    exists (<[d := 0]> m). split_and!; [done | | |].
    + apply cstr_nil, lookup_insert_eq.
    + intros x Hx. by rewrite lookup_insert_ne by lia.
    + by apply (bytes_ok_insert m d 0).
  - apply cstr_cons in Hs as (Hc & Hc0 & Hs). rewrite (bind_Ret _ _ _ _ _ (load8_eq m a c Hc)).
    rewrite (bind_Ret _ _ _ _ _ (store8_eq m d c ltac:(apply Hm; lia))).
    assert (u8 c = c) as -> by (apply Z.mod_small, (Hok _ c Hc)).
    rewrite (proj2 (Z.eqb_neq c 0)) by done.
    destruct (IH fuel (d + 1) (a + 1) (<[d := c]> m)) as (m' & E & Hd & Hso & Hok'); try lia.
    + eapply cstr_ext; [|done]. intros x Hx. by rewrite lookup_insert_ne by lia.
    + apply mapped_insert. eapply mapped_sub; [done | lia | lia].
    + apply map_Forall_insert_2; [by apply (Hok a) | done].
    + exists m'. split_and!; [done | | | done].
      * apply cstr_cons. split_and!; [|done|done]. rewrite Hso by lia. apply lookup_insert_eq.
      * intros x Hx. rewrite Hso by lia. by rewrite lookup_insert_ne by lia.
Qed.

Lemma strcpy_spec m dest src s :
  cstr m src s → mapped m dest (Z.of_nat (length s) + 1) → bytes_ok m →
  (dest ≤ src ∨ src + Z.of_nat (length s) < dest) →
  ∃ m', strcpy dest src m = Ret (dest, m') ∧ cstr m' dest s ∧
        same_outside dest (Z.of_nat (length s) + 1) m m'.
Proof.
  intros Hs Hm Hok Hov. unfold strcpy. rewrite string_fuel_eq.
  pose proof (cstr_length m src s Hs).
  destruct (copy_string_spec s (S (size m)) dest src m) as (m' & E & Hc & Hso & _); try done; [lia|].
  exists m'. by rewrite (bind_Ret _ _ _ _ _ E).
Qed.

(** ** Concatenation *)

(** The bounded copy of [strncat]: it stores the first [n] bytes of the source
    string, and its terminator when it fits. *)
Lemma strncat_loop_spec s : ∀ n d a m,
  cstr m a s → mapped m d (Z.of_nat (Nat.min n (S (length s)))) → bytes_ok m →
  (d ≤ a ∨ a + Z.of_nat (length s) < d) → Z.of_nat n < 2 ^ 32 - 1 →
  ∃ m', strncat_loop n d a m =
          Ret (if (length s <? n)%nat
               then (Z.of_nat (n - length s - 1), d + Z.of_nat (length s) + 1)
               else (2 ^ 32 - 1, d + Z.of_nat n), m') ∧
        bytes_at m' d (take n (s ++ [0])) ∧
        same_outside d (Z.of_nat (Nat.min n (S (length s)))) m m' ∧ bytes_ok m'.
Proof.
  induction s as [|c s IH]; intros [|n] d a m Hs Hm Hok Hov Hn; cbn [strncat_loop]; simpl length in *.
  - exists m. split_and!; [simpl; by rewrite Z.add_0_r | apply bytes_at_nil | done | done].
  - apply cstr_nil in Hs. rewrite (bind_Ret _ _ _ _ _ (load8_eq m a 0 Hs)).
    rewrite (bind_Ret _ _ _ _ _ (store8_eq m d 0 ltac:(apply Hm; simpl; lia))).
    exists (<[d := 0]> m). split_and!.
    + cbn [Z.eqb]. rewrite mret_eq. simpl. do 3 f_equal; lia.
    + simpl. rewrite take_nil. apply bytes_at_cons. split; [apply lookup_insert_eq | apply bytes_at_nil].
    + intros x Hx. by rewrite lookup_insert_ne by (simpl in *; lia).
    + by apply (bytes_ok_insert m d 0).
  - exists m. split_and!; [simpl; by rewrite Z.add_0_r | apply bytes_at_nil | done | done].
  - apply cstr_cons in Hs as (Hc & Hc0 & Hs). rewrite (bind_Ret _ _ _ _ _ (load8_eq m a c Hc)).
    rewrite (bind_Ret _ _ _ _ _ (store8_eq m d c ltac:(apply Hm; lia))).
    assert (u8 c = c) as -> by (apply Z.mod_small, (Hok _ c Hc)).
    rewrite (proj2 (Z.eqb_neq c 0)) by done.
    destruct (IH n (d + 1) (a + 1) (<[d := c]> m)) as (m' & E & Hd & Hso & Hok'); try lia.
    + eapply cstr_ext; [|done]. intros x Hx. by rewrite lookup_insert_ne by lia.
    + apply mapped_insert. eapply mapped_sub; [done | lia | simpl; lia].
    + apply map_Forall_insert_2; [by apply (Hok a) | done].
    + exists m'. split_and!; [| | | done].
      * rewrite E. change (S (length s) <? S n)%nat with (length s <? n)%nat.
        destruct (length s <? n)%nat; do 3 f_equal; lia.
      * simpl. apply bytes_at_cons. split; [|done]. rewrite Hso by lia. apply lookup_insert_eq.
      * intros x Hx. rewrite Hso by (simpl in Hx; lia). by rewrite lookup_insert_ne by (simpl in Hx; lia).
Qed.

Lemma not_elem_of_take (n : nat) (x : Z) (t : list Z) : x ∉ t → x ∉ take n t.
Proof. intros Ht Hin. by apply Ht, (subseteq_take n). Qed.

(** [strncat] appends at most [n] characters and always terminates the
    result: the destination becomes the string [s ++ take n t], and nothing
    outside the destination's new extent changes. *)
Theorem strncat_correct m dest src s t n :
  cstr m dest s → cstr m src t → bytes_ok m → 0 ≤ n < 2 ^ 32 - 1 →
  mapped m dest (Z.of_nat (length s + Nat.min (Z.to_nat n) (length t)) + 1) →
  (dest + Z.of_nat (length s) ≤ src ∨ src + Z.of_nat (length t) < dest + Z.of_nat (length s)) →
  ∃ m', strncat dest src n m = Ret (dest, m') ∧ cstr m' dest (s ++ take (Z.to_nat n) t) ∧
        same_outside (dest + Z.of_nat (length s))
          (Z.of_nat (Nat.min (Z.to_nat n) (length t)) + 1) m m'.
Proof.
  intros Hs Ht Hok Hn Hm Hov. set (k := Z.to_nat n) in *. set (d := dest + Z.of_nat (length s)) in *.
  unfold strncat. rewrite string_fuel_eq. pose proof (cstr_length m dest s Hs).
  rewrite (bind_Ret _ _ _ _ _ (skip_string_spec s (S (size m)) dest m Hs ltac:(lia))). fold d k.
  destruct (strncat_loop_spec t k d src m) as (m1 & E & Hb & Hso & Hok1); try done; try lia.
  { eapply mapped_sub; [done | lia | lia]. }
  rewrite (bind_Ret _ _ _ _ _ E). clear E.
  assert (bytes_at m1 dest s) as Hs1.
  { destruct Hs as [[Hs' _]%bytes_at_app _]. eapply bytes_at_ext; [|done].
    intros x Hx. apply Hso. lia. }
  assert (0 ∉ s ++ take k t) as H0
    by (apply not_elem_of_app; split; [apply Hs | apply not_elem_of_take, Ht]).
  destruct (Nat.ltb_spec (length t) k) as [Hlt|Hge]; cbn [fst snd].
  - change (u32 (-1)) with (2 ^ 32 - 1).
    rewrite (proj2 (Z.eqb_neq _ _)) by lia. exists m1.
    split_and!; [done | | intros x Hx; apply Hso; lia]. split; [|done].
    rewrite (take_ge t), <- app_assoc by lia. apply bytes_at_app. split; [done|].
    by rewrite take_ge in Hb by (rewrite length_app; simpl; lia).
  - change (2 ^ 32 - 1 =? u32 (-1)) with true. cbn iota.
    assert (is_Some (m1 !! (d + Z.of_nat k))) as Hlast by (rewrite Hso by lia; apply Hm; lia).
    rewrite (bind_Ret _ _ _ _ _ (store8_eq m1 _ 0 Hlast)).
    exists (<[d + Z.of_nat k := 0]> m1). split_and!; [done | |].
    + split; [|done]. rewrite <- app_assoc. apply bytes_at_app. split.
      { eapply bytes_at_ext; [|done]. intros x Hx. by rewrite lookup_insert_ne by lia. }
      rewrite take_app_le in Hb by done. apply bytes_at_app. rewrite length_take. split.
      * eapply bytes_at_ext; [|done]. intros x Hx. rewrite length_take in Hx.
        by rewrite lookup_insert_ne by lia.
      * apply bytes_at_cons. split; [|apply bytes_at_nil]. fold d.
        rewrite Nat.min_l by done. apply lookup_insert_eq.
    + intros x Hx. rewrite lookup_insert_ne by lia. apply Hso. lia.
Qed.

(** ** Comparison *)

(** Lexicographic order of byte strings. *)
Inductive lex_lt : list Z → list Z → Prop :=
  | lex_nil b t : lex_lt [] (b :: t)
  | lex_head a b s t : a < b → lex_lt (a :: s) (b :: t)
  | lex_tail a s t : lex_lt s t → lex_lt (a :: s) (a :: t).

Definition sign_agrees (r : Z) (s t : list Z) : Prop :=
  (r = 0 ↔ s = t) ∧ (r < 0 ↔ lex_lt s t) ∧ (0 < r ↔ lex_lt t s).

Lemma lex_lt_cons a s b t : lex_lt (a :: s) (b :: t) ↔ a < b ∨ a = b ∧ lex_lt s t.
Proof.
  split.
  - inversion 1; subst; auto.
  - intros [?|[-> ?]]; by constructor.
Qed.

Lemma lex_lt_nil s : ¬ lex_lt s [].
Proof. inversion 1. Qed.

Lemma sign_agrees_cons r c s t : sign_agrees r s t → sign_agrees r (c :: s) (c :: t).
Proof.
  intros (H1 & H2 & H3). unfold sign_agrees. rewrite !lex_lt_cons, <- H2, <- H3.
  split_and!; [|lia|lia]. rewrite H1. split; [by intros -> | by intros [= ->]].
Qed.

Lemma sign_agrees_head a s b t : a ≠ b → sign_agrees (a - b) (a :: s) (b :: t).
Proof.
  intros H. unfold sign_agrees. rewrite !lex_lt_cons. split_and!; [|lia|lia].
  split; [lia|]. intros [=]. congruence.
Qed.

Lemma sign_agrees_end : sign_agrees 0 [] [].
Proof. split_and!; split; try done; try lia; by intros ?%lex_lt_nil. Qed.

Lemma sign_agrees_left b t : 0 < b → sign_agrees (0 - b) [] (b :: t).
Proof.
  intros Hb. split_and!; split; try lia; try done.
  - intros _. constructor.
  - by intros ?%lex_lt_nil.
Qed.

Lemma sign_agrees_right a s : 0 < a → sign_agrees (a - 0) (a :: s) [].
Proof.
  intros Hb. split_and!; split; try lia; try done.
  - by intros ?%lex_lt_nil.
  - intros _. constructor.
Qed.

Lemma byte_pos m a c : bytes_ok m → m !! a = Some c → c ≠ 0 → 0 < c.
Proof. intros Hok Hc Hn. apply (Hok a) in Hc. simpl in Hc. lia. Qed.

Lemma strcmp_loop_spec s : ∀ t fuel a b m,
  cstr m a s → cstr m b t → bytes_ok m → (length s < fuel)%nat →
  ∃ r, strcmp_loop fuel a b m = Ret (r, m) ∧ sign_agrees r s t.
Proof.
  induction s as [|c s IH]; intros t [|fuel] a b m Hs Ht Hok Hf; simpl in Hf; try lia;
    cbn [strcmp_loop].
  - apply cstr_nil in Hs. rewrite (bind_Ret _ _ _ _ _ (load8_eq m a 0 Hs)).
    destruct t as [|d t].
    + apply cstr_nil in Ht. rewrite (bind_Ret _ _ _ _ _ (load8_eq m b 0 Ht)).
      exists 0. split; [done | apply sign_agrees_end].
    + apply cstr_cons in Ht as (Hd & Hd0 & _). rewrite (bind_Ret _ _ _ _ _ (load8_eq m b d Hd)).
      exists (0 - d). split; [done|]. apply sign_agrees_left. by eapply byte_pos.
  - apply cstr_cons in Hs as (Hc & Hc0 & Hs). rewrite (bind_Ret _ _ _ _ _ (load8_eq m a c Hc)).
    rewrite (proj2 (Z.eqb_neq c 0)) by done. cbn [negb andb]. destruct t as [|d t].
    + apply cstr_nil in Ht. rewrite (bind_Ret _ _ _ _ _ (load8_eq m b 0 Ht)).
      rewrite (proj2 (Z.eqb_neq c 0)) by done.
      exists (c - 0). split; [done|]. apply sign_agrees_right. by eapply byte_pos.
    + apply cstr_cons in Ht as (Hd & Hd0 & Ht). rewrite (bind_Ret _ _ _ _ _ (load8_eq m b d Hd)).
      destruct (Z.eqb_spec c d) as [<-|Hne].
      * destruct (IH t fuel (a + 1) (b + 1) m) as (r & E & Hr); try done; [lia|].
        exists r. split; [done | by apply sign_agrees_cons].
      * exists (c - d). split; [done | by apply sign_agrees_head].
Qed.

(** [strcmp] orders strings lexicographically by unsigned bytes: its
    result is zero exactly for equal strings and its sign is the order. *)
Theorem strcmp_correct m a b s t :
  cstr m a s → cstr m b t → bytes_ok m →
  ∃ r, strcmp a b m = Ret (r, m) ∧
       (r = 0 ↔ s = t) ∧ (r < 0 ↔ lex_lt s t) ∧ (0 < r ↔ lex_lt t s).
Proof.
  intros Hs Ht Hok. unfold strcmp. rewrite string_fuel_eq.
  pose proof (cstr_length m a s Hs). apply strcmp_loop_spec; try done. lia.
Qed.

(** ** Searching *)

Lemma u8_i8 x : 0 ≤ x < 2 ^ 8 → u8 (i8 x) = x.
Proof. intros Hx. unfold u8, i8, sgn. cbv zeta. case_match; dlia. Qed.

Lemma i8_zero x : 0 ≤ x < 2 ^ 8 → i8 x = 0 → x = 0.
Proof. intros Hx. unfold i8, sgn. cbv zeta. case_match; dlia. Qed.

Definition strchr_result (a c : Z) (s : list Z) : Z :=
  match list_find (λ x, x = u8 c) s with
  | Some (i, _) => a + Z.of_nat i
  | None => if c =? 0 then a + Z.of_nat (length s) else 0
  end.

Lemma strchr_loop_spec s : ∀ fuel a c m,
  cstr m a s → (length s < fuel)%nat → strchr_loop fuel a c m = Ret (strchr_result a c s, m).
Proof.
  induction s as [|x s IH]; intros [|fuel] a c m Hs Hf; simpl in Hf; try lia; cbn [strchr_loop].
  - apply cstr_nil in Hs. rewrite (bind_Ret _ _ _ _ _ (load8_eq m a 0 Hs)). simpl.
    unfold strchr_result. simpl. by rewrite Z.add_0_r.
  - apply cstr_cons in Hs as (Hc & Hc0 & Hs). rewrite (bind_Ret _ _ _ _ _ (load8_eq m a x Hc)).
    rewrite (proj2 (Z.eqb_neq x 0)) by done.
    unfold strchr_result. cbn [list_find]. destruct (Z.eqb_spec x (u8 c)) as [->|Hne].
    + rewrite decide_True by done. rewrite mret_eq. do 2 f_equal. lia.
    + rewrite decide_False, IH by (done || lia). unfold strchr_result. do 2 f_equal.
      destruct (list_find _ s) as [[i y]|]; simpl; [lia|]. destruct (c =? 0); [|done].
      simpl length. lia.
Qed.

Lemma strchr_spec m a c s : cstr m a s → strchr a c m = Ret (strchr_result a c s, m).
Proof.
  intros Hs. unfold strchr. rewrite string_fuel_eq. apply strchr_loop_spec; [done|].
  pose proof (cstr_length m a s Hs). lia.
Qed.

(** Whether [strchr] finds a non-zero character. *)
Lemma strchr_found m a s x :
  0 < a → cstr m a s → bytes_ok m → 0 ≤ x < 2 ^ 8 → x ≠ 0 →
  ∃ r, strchr a (i8 x) m = Ret (r, m) ∧ negb (r =? 0) = bool_decide (x ∈ s).
Proof.
  intros Ha Hs Hok Hx Hx0. eexists. split; [by apply strchr_spec|]. unfold strchr_result.
  rewrite u8_i8 by done. destruct (list_find (λ y, y = x) s) as [[i y]|] eqn:E.
  - apply list_find_Some in E as (Hi & -> & _). rewrite bool_decide_true by (by eapply list_elem_of_lookup_2).
    by rewrite (proj2 (Z.eqb_neq _ _)) by lia.
  - apply list_find_None in E. rewrite Forall_forall in E.
    rewrite bool_decide_false by (intros Hin; by apply (E x Hin)).
    rewrite (proj2 (Z.eqb_neq (i8 x) 0)); [done|]. intros H0. by apply i8_zero in H0.
Qed.

(** ** Tokens *)

(** The longest prefix of [s] made of characters in [D] ([want = true]) or of
    characters not in [D]. *)
Fixpoint prefix_chars (want : bool) (D s : list Z) : list Z :=
  match s with
  | [] => []
  | c :: s => if Bool.eqb (bool_decide (c ∈ D)) want then c :: prefix_chars want D s else []
  end.

Definition suffix_chars (want : bool) (D s : list Z) : list Z :=
  drop (length (prefix_chars want D s)) s.

Lemma prefix_suffix want D s : s = prefix_chars want D s ++ suffix_chars want D s.
Proof.
  unfold suffix_chars. induction s as [|c s IH]; [done|]. simpl.
  destruct (Bool.eqb _ _); [|done]. simpl. by f_equal.
Qed.

Lemma span_loop_spec want D delim s : ∀ fuel a m,
  0 < delim → cstr m delim D → cstr m a s → bytes_ok m → (length s < fuel)%nat →
  span_loop fuel want delim a m = Ret (a + Z.of_nat (length (prefix_chars want D s)), m).
Proof.
  induction s as [|c s IH]; intros [|fuel] a m Hd HD Hs Hok Hf; simpl in Hf; try lia;
    cbn [span_loop].
  - apply cstr_nil in Hs. rewrite (bind_Ret _ _ _ _ _ (load8_eq m a 0 Hs)). simpl.
    by rewrite Z.add_0_r.
  - apply cstr_cons in Hs as (Hc & Hc0 & Hs). rewrite (bind_Ret _ _ _ _ _ (load8_eq m a c Hc)).
    rewrite (proj2 (Z.eqb_neq c 0)) by done.
    destruct (strchr_found m delim D c Hd HD Hok (Hok _ _ Hc) Hc0) as (r & E & Hr).
    rewrite (bind_Ret _ _ _ _ _ E), Hr. cbn [prefix_chars].
    destruct (Bool.eqb _ _).
    + rewrite IH by (done || lia). do 2 f_equal. simpl. lia.
    + simpl. by rewrite Z.add_0_r.
Qed.

Lemma span_spec want D delim s m p :
  0 < delim → cstr m delim D → cstr m p s → bytes_ok m →
  span want delim {| tmem := m; strtok_saveptr := p |} =
  Ret (tt, {| tmem := m; strtok_saveptr := p + Z.of_nat (length (prefix_chars want D s)) |}).
Proof.
  intros Hd HD Hs Hok. unfold span, on_mem. rewrite (bind_Ret get _ _ _ _ eq_refl).
  pose proof (cstr_length m p s Hs).
  erewrite bind_Ret; [|apply zoom_Ret; cbn [tmem strtok_saveptr]; rewrite string_fuel_eq;
                       apply (span_loop_spec want D delim s); (done || lia)].
  done.
Qed.

Lemma cstr_drop m a s k : cstr m a s → (k ≤ length s)%nat → cstr m (a + Z.of_nat k) (drop k s).
Proof.
  intros [Hb H0] Hk. split.
  - rewrite <- (take_drop k s) in Hb. rewrite <- app_assoc in Hb. apply bytes_at_app in Hb as [_ Hb].
    by rewrite length_take, Nat.min_l in Hb by done.
  - intros Hin. apply H0. by eapply subseteq_drop.
Qed.

Lemma on_mem_load8 m p a b :
  m !! a = Some b →
  on_mem (load8 a) {| tmem := m; strtok_saveptr := p |} = Ret (b, {| tmem := m; strtok_saveptr := p |}).
Proof. intros H. unfold on_mem. by rewrite (zoom_Ret _ _ _ _ b m) by (by apply load8_eq). Qed.

Lemma on_mem_store8 m p a v :
  is_Some (m !! a) →
  on_mem (store8 a v) {| tmem := m; strtok_saveptr := p |} =
  Ret (tt, {| tmem := <[a := u8 v]> m; strtok_saveptr := p |}).
Proof. intros H. unfold on_mem. by rewrite (zoom_Ret _ _ _ _ tt (<[a := u8 v]> m)) by (by apply store8_eq). Qed.

Lemma cstr_head m a s : cstr m a s → m !! a = Some (default 0 (head s)).
Proof. destruct s as [|c s]; [by rewrite cstr_nil | rewrite cstr_cons; by intros []]. Qed.

Lemma suffix_cstr want D m p s :
  cstr m p s → cstr m (p + Z.of_nat (length (prefix_chars want D s))) (suffix_chars want D s).
Proof.
  intros Hs. apply cstr_drop; [done|]. rewrite (prefix_suffix want D s) at 2.
  rewrite length_app. lia.
Qed.

(** The second half of [strtok], from the start of a token. *)
Lemma strtok_token D delim m p c s :
  0 < delim → cstr m delim D → cstr m p (c :: s) → bytes_ok m → c ∉ D →
  let tok := prefix_chars false D (c :: s) in
  (_ ← span false delim;
   st ← get;
   x ← on_mem (load8 (strtok_saveptr st));
   _ ← (if negb (x =? 0) then
          _ ← on_mem (store8 (strtok_saveptr st) 0);
          set_saveptr (strtok_saveptr st + 1)
        else set_saveptr 0);
   mret p : M tok_st Z) {| tmem := m; strtok_saveptr := p |} =
  Ret (p, match suffix_chars false D (c :: s) with
          | [] => {| tmem := m; strtok_saveptr := 0 |}
          | _ :: _ => {| tmem := <[p + Z.of_nat (length tok) := 0]> m;
                         strtok_saveptr := p + Z.of_nat (length tok) + 1 |}
          end).
Proof.
  intros Hd HD Hs Hok Hc tok.
  rewrite (bind_Ret _ _ _ _ _ (span_spec false D delim (c :: s) m p Hd HD Hs Hok)).
  rewrite (bind_Ret get _ _ _ _ eq_refl). cbn [strtok_saveptr tmem]. fold tok.
  pose proof (suffix_cstr false D m p (c :: s) Hs) as Hsuf. fold tok in Hsuf.
  rewrite (bind_Ret _ _ _ _ _ (on_mem_load8 m _ _ _ (cstr_head _ _ _ Hsuf))).
  destruct (suffix_chars false D (c :: s)) as [|d suf]; [done|].
  apply cstr_cons in Hsuf as (Hd' & Hd0 & _). change (default 0 (head (d :: suf))) with d.
  rewrite (proj2 (Z.eqb_neq d 0)) by done. cbn [negb].
  erewrite bind_Ret; [reflexivity|].
  rewrite (bind_Ret _ _ _ _ _ (on_mem_store8 m _ _ 0 ltac:(by eexists))). done.
Qed.

Lemma suffix_head_not D s c rest : suffix_chars true D s = c :: rest → c ∉ D.
Proof.
  unfold suffix_chars. induction s as [|x s IH]; [done|]. simpl.
  destruct (bool_decide (x ∈ D)) eqn:E; simpl; [exact IH|].
  intros [= -> ->]. by apply bool_decide_eq_false in E.
Qed.

(** Overwriting one character with zero leaves two strings. *)
Lemma cstr_cut m a t d s :
  cstr m a (t ++ d :: s) →
  let cut := a + Z.of_nat (length t) in
  cstr (<[cut := 0]> m) a t ∧ cstr (<[cut := 0]> m) (cut + 1) s.
Proof.
  intros [Hb H0] cut. rewrite <- app_assoc in Hb. simpl in Hb.
  apply bytes_at_app in Hb as [Ht [Hd Hs]%bytes_at_cons].
  apply not_elem_of_app in H0 as [H0t [_ H0s]%not_elem_of_cons]. fold cut in Hs.
  split; (split; [|done]).
  - apply bytes_at_app. fold cut. split.
    + eapply bytes_at_ext; [|done]. intros x Hx. by rewrite lookup_insert_ne by lia.
    + apply bytes_at_cons. split; [apply lookup_insert_eq | apply bytes_at_nil].
  - eapply bytes_at_ext; [|done]. intros x Hx. by rewrite lookup_insert_ne by lia.
Qed.

(** one call of [strtok] splits off the next token.  [pre] are the leading
    delimiters, [tok] the following characters that are not delimiters and
    [suf] the rest.  Without a token the answer is NULL and the saved position
    is cleared; otherwise the answer is the start of the token, which the call
    terminates in place by overwriting the one delimiter after it, and the
    saved position is the character behind that delimiter. *)
Theorem strtok_correct m save str delim D s :
  let p := if str =? 0 then save else str in
  let pre := prefix_chars true D s in
  let tok := prefix_chars false D (suffix_chars true D s) in
  let start := p + Z.of_nat (length pre) in
  let stop := start + Z.of_nat (length tok) in
  0 < p → 0 < delim → cstr m delim D → cstr m p s → bytes_ok m →
  match tok, suffix_chars false D (suffix_chars true D s) with
  | [], _ =>
      strtok str delim {| tmem := m; strtok_saveptr := save |} =
      Ret (0, {| tmem := m; strtok_saveptr := 0 |})
  | _, [] =>
      strtok str delim {| tmem := m; strtok_saveptr := save |} =
      Ret (start, {| tmem := m; strtok_saveptr := 0 |}) ∧ cstr m start tok
  | _, _ :: suf =>
      let m' := <[stop := 0]> m in
      strtok str delim {| tmem := m; strtok_saveptr := save |} =
      Ret (start, {| tmem := m'; strtok_saveptr := stop + 1 |}) ∧
      cstr m' start tok ∧ cstr m' (stop + 1) suf
  end.
Proof.
  intros p pre tok start stop Hp Hd HD Hs Hok.
  assert (strtok str delim {| tmem := m; strtok_saveptr := save |} =
    (c ← on_mem (load8 start);
     if c =? 0 then _ ← set_saveptr 0; mret 0
     else _ ← span false delim;
       st ← get;
       x ← on_mem (load8 (strtok_saveptr st));
       _ ← (if negb (x =? 0) then
              _ ← on_mem (store8 (strtok_saveptr st) 0);
              set_saveptr (strtok_saveptr st + 1)
            else set_saveptr 0);
       mret start : M tok_st Z) {| tmem := m; strtok_saveptr := start |}) as ->.
  { unfold strtok.
    erewrite (bind_Ret _ _ _ tt {| tmem := m; strtok_saveptr := p |})
      by (unfold p; by destruct (str =? 0)).
    rewrite (bind_Ret get _ _ _ _ eq_refl). cbn [strtok_saveptr].
    rewrite (proj2 (Z.eqb_neq p 0)) by lia.
    rewrite (bind_Ret _ _ _ _ _ (span_spec true D delim s m p Hd HD Hs Hok)).
    by rewrite (bind_Ret get _ _ _ _ eq_refl). }
  pose proof (suffix_cstr true D m p s Hs) as Hsuf. fold pre start in Hsuf.
  rewrite (bind_Ret _ _ _ _ _ (on_mem_load8 m _ _ _ (cstr_head _ _ _ Hsuf))).
  destruct (suffix_chars true D s) as [|c rest] eqn:Erest; [done|].
  change (default 0 (head (c :: rest))) with c.
  assert (c ≠ 0 ∧ c ∉ D) as [Hc0 HcD].
  { split; [by apply cstr_cons in Hsuf as (_ & ? & _)|]. exact (suffix_head_not D s c rest Erest). }
  rewrite (proj2 (Z.eqb_neq c 0)) by done.
  rewrite (strtok_token D delim m start c rest) by done. fold tok stop.
  pose proof (prefix_suffix false D (c :: rest)) as Hsplit. fold tok in Hsplit.
  assert (tok ≠ []) as Htok by (unfold tok; simpl; by rewrite bool_decide_false by done).
  destruct tok as [|c' tok'] eqn:Etok; [done|]. rewrite <- Etok in *.
  destruct (suffix_chars false D (c :: rest)) as [|d suf].
  - split; [done|]. rewrite app_nil_r in Hsplit. by rewrite <- Hsplit.
  - split; [done|]. rewrite Hsplit in Hsuf. unfold stop. rewrite <- Etok. exact (cstr_cut _ _ _ _ _ Hsuf).
Qed.

(** ** The user library *)

(** the user library's [strncat] does not terminate its result when the
    source is longer than [n]: the byte after the copied characters keeps its
    old value.  When [n] is one more than the length of the source it writes a
    second zero behind the terminator, one byte beyond the extent of the
    result. *)
Theorem user_strncat_unterminated m dest src s t n :
  cstr m dest s → cstr m src t → bytes_ok m → 0 ≤ n < 2 ^ 32 - 1 →
  mapped m dest (Z.of_nat (length s + length t) + 2) →
  (dest + Z.of_nat (length s) ≤ src ∨ src + Z.of_nat (length t) < dest + Z.of_nat (length s)) →
  let d := dest + Z.of_nat (length s) in
  (n ≤ Z.of_nat (length t) →
   ∃ m', User.strncat dest src n m = Ret (dest, m') ∧ bytes_at m' d (take (Z.to_nat n) t) ∧
         m' !! (d + n) = m !! (d + n)) ∧
  (n = Z.of_nat (length t) + 1 →
   ∃ m', User.strncat dest src n m = Ret (dest, m') ∧ m' !! (d + n) = Some 0).
Proof.
  intros Hs Ht Hok Hn Hm Hov d. pose proof (cstr_length m dest s Hs).
  assert (∀ k, k = Z.to_nat n → (k ≤ S (length t))%nat → ∃ m1 r,
    strncat_loop k d src m = Ret (r, m1) ∧
    (if (length t <? k)%nat then r.1 = Z.of_nat (k - length t - 1) ∧ r.2 = d + Z.of_nat (length t) + 1
     else r.1 = 2 ^ 32 - 1) ∧
    bytes_at m1 d (take k (t ++ [0])) ∧ same_outside d (Z.of_nat k) m m1) as Hloop.
  { intros k -> Hk. destruct (strncat_loop_spec t (Z.to_nat n) d src m)
      as (m1 & E & Hb & Hso & _); try done; try lia.
    { eapply mapped_sub; [done | lia | lia]. }
    exists m1. eexists. split; [exact E|]. split; [by destruct (length t <? Z.to_nat n)%nat|].
    split; [done|]. intros x Hx. apply Hso. lia. }
  split; intros Hc; unfold User.strncat; rewrite string_fuel_eq;
    rewrite (bind_Ret _ _ _ _ _ (skip_string_spec s (S (size m)) dest m Hs ltac:(lia)));
    destruct (Hloop (Z.to_nat n) eq_refl ltac:(lia)) as (m1 & r & E & Hr & Hb & Hso);
    fold d; rewrite (bind_Ret _ _ _ _ _ E).
  - rewrite (proj2 (Nat.ltb_ge _ _)) in Hr by lia. rewrite Hr. exists m1.
    split_and!; [done | | apply Hso; lia]. by rewrite take_app_le in Hb by lia.
  - rewrite (proj2 (Nat.ltb_lt _ _)) in Hr by lia. destruct Hr as [Hr1 Hr2].
    replace (r.1) with 0 by lia. cbn [Z.eqb]. rewrite Hr2.
    replace (d + Z.of_nat (length t) + 1) with (d + n) by lia.
    assert (is_Some (m1 !! (d + n))) as Hx by (rewrite Hso by lia; apply Hm; lia).
    rewrite (bind_Ret _ _ _ _ _ (store8_eq m1 (d + n) 0 Hx)).
    exists (<[d + n := 0]> m1). split; [done | apply lookup_insert_eq].
Qed.

(** The inner loop of [strstr] stops behind the needle exactly when the needle
    is a prefix of the haystack. *)
Lemma match_loop_spec m h : ∀ fuel a n needle,
  cstr m a h → cstr m n needle → bytes_ok m → (length h < fuel)%nat →
  ∃ k, User.match_loop fuel a n m = Ret (n + Z.of_nat k, m) ∧ (k ≤ length needle)%nat ∧
       (k = length needle ↔ needle `prefix_of` h).
Proof.
  induction h as [|c h IH]; intros [|fuel] a n [|x needle] Hh Hn Hok Hf; simpl in Hf; try lia;
    cbn [User.match_loop].
  - apply cstr_nil in Hh. rewrite (bind_Ret _ _ _ _ _ (load8_eq m a 0 Hh)).
    exists O. rewrite Z.add_0_r. split_and!; [done | done |]. split; [intros; apply prefix_nil | done].
  - apply cstr_nil in Hh. rewrite (bind_Ret _ _ _ _ _ (load8_eq m a 0 Hh)).
    exists O. rewrite Z.add_0_r. split_and!; [done | lia |]. split; [done | by intros ?%prefix_nil_inv].
  - apply cstr_cons in Hh as (Hc & Hc0 & Hh). rewrite (bind_Ret _ _ _ _ _ (load8_eq m a c Hc)).
    rewrite (proj2 (Z.eqb_neq c 0)) by done.
    apply cstr_nil in Hn. rewrite (bind_Ret _ _ _ _ _ (load8_eq m n 0 Hn)).
    exists O. rewrite Z.add_0_r. split_and!; [done | done |]. split; [intros; apply prefix_nil | done].
  - apply cstr_cons in Hh as (Hc & Hc0 & Hh). rewrite (bind_Ret _ _ _ _ _ (load8_eq m a c Hc)).
    rewrite (proj2 (Z.eqb_neq c 0)) by done.
    apply cstr_cons in Hn as (Hx & Hx0 & Hn). rewrite (bind_Ret _ _ _ _ _ (load8_eq m n x Hx)).
    rewrite (proj2 (Z.eqb_neq x 0)) by done. destruct (Z.eqb_spec c x) as [<-|Hne].
    + destruct (IH fuel (a + 1) (n + 1) needle) as (k & E & Hk & Hp); try done; [lia|].
      exists (S k). split_and!; [rewrite E; do 2 f_equal; lia | simpl; lia |].
      simpl length. split.
      * intros [= Hk']. by apply prefix_cons, Hp.
      * intros Hpre. f_equal. apply Hp. by apply prefix_cons_inv_2 in Hpre.
    + exists O. rewrite Z.add_0_r. split_and!; [done | lia |].
      split; [done|]. intros Hpre%prefix_cons_inv_1. congruence.
Qed.

Lemma strstr_loop_spec m n needle h : ∀ fuel a,
  cstr m a h → cstr m n needle → bytes_ok m → needle ≠ [] → (length h < fuel)%nat →
  ∃ r, User.strstr_loop fuel a n m = Ret (r, m) ∧
    ((∃ i, (i < length h)%nat ∧ r = a + Z.of_nat i ∧ needle `prefix_of` drop i h ∧
           ∀ j, (j < i)%nat → ¬ needle `prefix_of` drop j h)
     ∨ (r = 0 ∧ ∀ j, ¬ needle `prefix_of` drop j h)).
Proof.
  induction h as [|c h IH]; intros [|fuel] a Hh Hn Hok Hne Hf; simpl in Hf; try lia;
    cbn [User.strstr_loop].
  - apply cstr_nil in Hh. rewrite (bind_Ret _ _ _ _ _ (load8_eq m a 0 Hh)).
    exists 0. split; [done|]. right. split; [done|]. intros j. rewrite drop_nil.
    by intros ?%prefix_nil_inv.
  - pose proof Hh as (Hc & Hc0 & Hh')%cstr_cons. rewrite (bind_Ret _ _ _ _ _ (load8_eq m a c Hc)).
    rewrite (proj2 (Z.eqb_neq c 0)) by done. rewrite string_fuel_eq.
    pose proof (cstr_length m a (c :: h) Hh).
    destruct (match_loop_spec m (c :: h) (S (size m)) a n needle) as (k & E & Hk & Hp); try done; [lia|].
    rewrite (bind_Ret _ _ _ _ _ E).
    pose proof (cstr_head _ _ _ (cstr_drop m n needle k Hn Hk)) as Hload.
    rewrite (bind_Ret _ _ _ _ _ (load8_eq m _ _ Hload)).
    destruct (decide (k = length needle)) as [Hkl|Hkl].
    + rewrite drop_ge by lia. exists a. split; [done|]. left. exists O.
      split_and!; [simpl; lia | lia | by apply Hp | lia].
    + destruct (drop k needle) as [|x rest] eqn:Ed.
      { apply (f_equal length) in Ed. rewrite length_drop in Ed. simpl in Ed. lia. }
      change (default 0 (head (x :: rest))) with x.
      assert (x ≠ 0) as Hx0.
      { intros ->. apply (proj2 Hn). eapply subseteq_drop. rewrite Ed. by left. }
      rewrite (proj2 (Z.eqb_neq x 0)) by done.
      destruct (IH fuel (a + 1)) as (r & Er & Hr); try done; [lia|].
      exists r. split; [done|]. destruct Hr as [(i & Hi & -> & Hpi & Hj)|[-> Hj]].
      * left. exists (S i). split_and!; [simpl; lia | lia | done |].
        intros [|j] Hlt; [naive_solver | simpl; apply Hj; lia].
      * right. split; [done|]. intros [|j]; [naive_solver | simpl; apply Hj].
Qed.

(** [strstr] returns the address of the first occurrence of the needle in
    the haystack, and NULL exactly when there is none. *)
Theorem strstr_correct m a n h needle :
  cstr m a h → cstr m n needle → bytes_ok m →
  ∃ r, User.strstr a n m = Ret (r, m) ∧
    ((∃ i, r = a + Z.of_nat i ∧ needle `prefix_of` drop i h ∧
           ∀ j, (j < i)%nat → ¬ needle `prefix_of` drop j h)
     ∨ (r = 0 ∧ ∀ j, ¬ needle `prefix_of` drop j h)).
Proof.
  intros Hh Hn Hok. unfold User.strstr.
  rewrite (bind_Ret _ _ _ _ _ (load8_eq m n _ (cstr_head _ _ _ Hn))).
  destruct needle as [|x needle].
  - exists a. split; [done|]. left. exists O. split_and!; [lia | apply prefix_nil | lia].
  - change (default 0 (head (x :: needle))) with x.
    pose proof Hn as (_ & Hx0 & _)%cstr_cons. rewrite (proj2 (Z.eqb_neq x 0)) by done.
    rewrite string_fuel_eq. pose proof (cstr_length m a h Hh).
    destruct (strstr_loop_spec m n (x :: needle) h (S (size m)) a) as (r & E & Hr); try done; [lia|].
    exists r. split; [done|]. destruct Hr as [(i & _ & Hi)|Hr]; eauto.
Qed.

(** ** A concrete memory

    At 100 the string "ab,c" with room behind it, at 120 ",", at 122 "b,", at
    125 "xyz". *)

Definition demo_bytes : list Z :=
  [97; 98; 44; 99; 0; 7; 7; 7; 7; 7; 7; 7; 7; 7; 7; 7; 7; 7; 7; 7; 44; 0; 98; 44; 0; 120; 121; 122; 0].

Definition demo_mem : mem := list_to_map (zip (seqZ 100 29) demo_bytes).

Ltac solve_bytes := repeat (apply bytes_at_cons; split; [reflexivity|]); apply bytes_at_nil.
Ltac solve_cstr := split; [solve_bytes | apply (bool_decide_unpack _); exact I].

Lemma demo_all : bytes_at demo_mem 100 demo_bytes.
Proof. unfold demo_bytes. solve_bytes. Qed.

Lemma demo_bytes_ok : bytes_ok demo_mem.
Proof. apply (bool_decide_unpack _). vm_compute. exact I. Qed.

Lemma demo_mapped n : 0 ≤ n ≤ 29 → mapped demo_mem 100 n.
Proof. intros Hn x Hx. apply (bytes_at_mapped _ _ _ demo_all). cbn. lia. Qed.

Lemma memmove_correct_witness :
  ∃ m', memmove 102 100 4 demo_mem = Ret (102, m') ∧ bytes_at m' 102 [97; 98; 44; 99] ∧
        same_outside 102 4 demo_mem m' ∧ bytes_ok m'.
Proof.
  apply (memmove_correct 102 100 [97; 98; 44; 99] demo_mem).
  - intros x Hx. apply (demo_mapped 29); cbn in *; lia.
  - solve_bytes.
  - apply demo_bytes_ok.
Defined.

Lemma strncat_correct_witness :
  ∃ m', strncat 100 125 2 demo_mem = Ret (100, m') ∧ cstr m' 100 [97; 98; 44; 99; 120; 121] ∧
        same_outside 104 3 demo_mem m'.
Proof.
  apply (strncat_correct demo_mem 100 125 [97; 98; 44; 99] [120; 121; 122] 2).
  - solve_cstr.
  - solve_cstr.
  - apply demo_bytes_ok.
  - lia.
  - apply demo_mapped. cbn. lia.
  - left. cbn. lia.
Defined.

Lemma strcmp_correct_witness : ∃ r, strcmp 122 125 demo_mem = Ret (r, demo_mem) ∧ r ≠ 0.
Proof.
  destruct (strcmp_correct demo_mem 122 125 [98; 44] [120; 121; 122]) as (r & E & Hr & _);
    [solve_cstr | solve_cstr | apply demo_bytes_ok |].
  exists r. split; [exact E|]. intros H0. apply Hr in H0. discriminate.
Defined.

Lemma strtok_correct_witness :
  strtok 100 120 {| tmem := demo_mem; strtok_saveptr := 0 |} =
    Ret (100, {| tmem := <[102 := 0]> demo_mem; strtok_saveptr := 103 |}).
Proof.
  refine (proj1 (strtok_correct demo_mem 0 100 120 [44] [97; 98; 44; 99] _ _ _ _ _)).
  - cbn. lia.
  - lia.
  - solve_cstr.
  - cbn. solve_cstr.
  - apply demo_bytes_ok.
Defined.

Lemma user_strncat_unterminated_witness :
  (∃ m', User.strncat 100 125 2 demo_mem = Ret (100, m') ∧ bytes_at m' 104 [120; 121] ∧ m' !! 106 = Some 7) ∧
  (∃ m', User.strncat 100 125 4 demo_mem = Ret (100, m') ∧ m' !! 108 = Some 0).
Proof.
  split.
  - destruct (user_strncat_unterminated demo_mem 100 125 [97; 98; 44; 99] [120; 121; 122] 2) as [H _];
      [solve_cstr | solve_cstr | apply demo_bytes_ok | lia | apply demo_mapped; cbn; lia | left; cbn; lia |].
    apply H. cbn. lia.
  - destruct (user_strncat_unterminated demo_mem 100 125 [97; 98; 44; 99] [120; 121; 122] 4) as [_ H];
      [solve_cstr | solve_cstr | apply demo_bytes_ok | lia | apply demo_mapped; cbn; lia | left; cbn; lia |].
    apply H. reflexivity.
Defined.

Lemma strstr_correct_witness :
  ∃ r, User.strstr 100 122 demo_mem = Ret (r, demo_mem) ∧
    ((∃ i, r = 100 + Z.of_nat i ∧ [98; 44] `prefix_of` drop i [97; 98; 44; 99] ∧
           ∀ j, (j < i)%nat → ¬ [98; 44] `prefix_of` drop j [97; 98; 44; 99])
     ∨ (r = 0 ∧ ∀ j, ¬ [98; 44] `prefix_of` drop j [97; 98; 44; 99])).
Proof. apply strstr_correct; [solve_cstr | solve_cstr | apply demo_bytes_ok]. Defined.
