(* ===== verification/Block.v ===== *)
(** * Block devices (kernel/drivers/block.c, kernel/drivers/ramdisk.c)

    The table of devices, the checked access to sectors, and the RAM disk behind
    it.  [BlockDevice] is the contract that the file system is proved against: a
    reliable device of 512-byte sectors.  The RAM disk, reached through the block
    layer, satisfies it.

    Buffers are lists of bytes; every caller passes an array, so that the code's
    checks for a null buffer never apply. *)

From S2P Require Import Prelude Bytes Errno.

#[local] Open Scope Z_scope.

(** ** The block layer *)

Section Layer.
Context {D : Type}.

(** [struct block_device] without its type tag and its pointer to the driver's
    data, which is the state [D]. *)
Record block_device := {
  bdev_name : option (list Z);
  sector_size : Z;
  total_sectors : Z;
  read_sectors : option (Z → Z → list Z → M D (Z * list Z));
  write_sectors : option (Z → Z → list Z → M D Z);
}.

Definition block_read_sectors (bdev : option block_device) (sector count : Z) (buf : list Z) : M D (Z * list Z) :=
  match bdev with
  | None => mret (- EINVAL, buf)
  | Some b =>
      match read_sectors b with
      | None => mret (- ENOSYS, buf)
      | Some read =>
          if total_sectors b <? u32 (sector + count) then mret (- EINVAL, buf) else read sector count buf
      end
  end.

Definition block_write_sectors (bdev : option block_device) (sector count : Z) (buf : list Z) : M D Z :=
  match bdev with
  | None => mret (- EINVAL)
  | Some b =>
      match write_sectors b with
      | None => mret (- ENOSYS)
      | Some write =>
          if total_sectors b <? u32 (sector + count) then mret (- EINVAL) else write sector count buf
      end
  end.

(** The table: the devices registered so far, in order. *)
Abbreviation MAX_BLOCK_DEVICES := 8%Z (only parsing).

Definition block_init : M (list block_device) unit := put [].

Definition named (name : list Z) (b : block_device) : bool := bool_decide (bdev_name b = Some name).

Definition block_register_device (bdev : option block_device) : M (list block_device) Z :=
  match bdev with
  | None => mret (- EINVAL)
  | Some b =>
      match bdev_name b with
      | None => mret (- EINVAL)
      | Some name =>
          devices ← get;
          if MAX_BLOCK_DEVICES <=? zlen devices then mret (- ENOMEM)
          else if existsb (named name) devices then mret (- EEXIST)
          else _ ← put (devices ++ [b]); mret 0
      end
  end.

Definition block_get_device (name : option (list Z)) : M (list block_device) (option block_device) :=
  match name with
  | None => mret None
  | Some name => devices ← get; mret (List.find (named name) devices)
  end.

(** No two registered devices have the same name, and there are at most eight. *)
Definition table_ok (devices : list block_device) : Prop :=
  zlen devices ≤ MAX_BLOCK_DEVICES ∧ NoDup (bdev_name <$> devices) ∧ Forall (λ b, is_Some (bdev_name b)) devices.

Lemma named_spec name b : named name b = true ↔ bdev_name b = Some name.
Proof. unfold named. by rewrite bool_decide_eq_true. Qed.

Lemma existsb_named name devices : existsb (named name) devices = true ↔ Some name ∈ bdev_name <$> devices.
Proof.
  rewrite existsb_exists, list_elem_of_fmap. split.
  - intros (b & Hb & E). exists b. apply named_spec in E. split; [done|]. by apply list_elem_of_In.
  - intros (b & E & Hb). exists b. split; [by apply list_elem_of_In | by apply named_spec].
Qed.

Lemma find_name_None name devices : Some name ∉ bdev_name <$> devices → List.find (named name) devices = None.
Proof.
  intros Hn. destruct (List.find (named name) devices) as [b|] eqn:E; [|done].
  apply find_some in E as [Hb E]. exfalso. apply Hn. apply named_spec in E. rewrite <- E.
  apply list_elem_of_fmap. exists b. split; [done|]. by apply list_elem_of_In.
Qed.

Lemma find_snoc {A} (f : A → bool) l x : List.find f (l ++ [x]) = match List.find f l with Some y => Some y | None => if f x then Some x else None end.
Proof. induction l as [|y l IH]; cbn; [done|]. by destruct (f y). Qed.

(** A registration succeeds exactly when the device has a name that is not taken
    and the table has room; from then on the name finds the device, and every
    other name what it found before.  A failed registration changes nothing. *)
Theorem block_register_correct devices b name :
  table_ok devices → bdev_name b = Some name →
  ∃ r devices', block_register_device (Some b) devices = Ret (r, devices') ∧ table_ok devices' ∧
    (r = 0 ↔ (Some name ∉ bdev_name <$> devices) ∧ zlen devices < MAX_BLOCK_DEVICES) ∧
    (r ≠ 0 → devices' = devices) ∧
    (r = 0 → ∀ n, block_get_device (Some n) devices' =
       Ret (if bool_decide (n = name) then Some b else List.find (named n) devices, devices')).
Proof.
  intros (Hlen & Hnd & Hsome) Hn. unfold block_register_device. rewrite Hn, bind_get.
  destruct (Z.leb_spec MAX_BLOCK_DEVICES (zlen devices)) as [Hfull|Hroom].
  { exists (- ENOMEM), devices. split_and!; try done. split; [done | lia]. }
  destruct (existsb (named name) devices) eqn:Hex.
  { exists (- EEXIST), devices. split_and!; try done. apply existsb_named in Hex. split; [done|]. by intros []. }
  assert (Some name ∉ bdev_name <$> devices) as Hnew by (rewrite <- existsb_named, Hex; done).
  exists 0, (devices ++ [b]). split_and!; try done.
  - split_and!.
    + rewrite length_app. cbn. lia.
    + rewrite fmap_app. apply NoDup_app. split_and!; [done | | apply NoDup_singleton].
      intros x Hx ->%list_elem_of_singleton. by rewrite Hn in Hx.
    + apply Forall_app. split; [done|]. apply Forall_singleton. by rewrite Hn.
  - intros _ n. unfold block_get_device. rewrite bind_get, find_snoc. case_bool_decide as E.
    + subst n. by rewrite find_name_None, (proj2 (named_spec name b) Hn).
    + destruct (List.find (named n) devices); [done|]. destruct (named n b) eqn:Eb; [|done].
      apply named_spec in Eb. congruence.
Qed.
End Layer.
Arguments block_device : clear implicits.

(** ** What a file system relies on *)

Class BlockDevice (D : Type) := {
  bd_ok : D → Prop;
  bd_sectors : D → Z;
  bd_byte : D → Z → Z;
  bd_read : Z → Z → list Z → M D (Z * list Z);
  bd_write : Z → Z → list Z → M D Z;
  bd_bound d : bd_ok d → 0 ≤ bd_sectors d ≤ 2 ^ 23;
  bd_is_byte d a : bd_ok d → is_byte (bd_byte d a);
  bd_read_ok d s n buf :
    bd_ok d → 0 ≤ s → 0 ≤ n → s + n ≤ bd_sectors d → 512 * n ≤ zlen buf →
    bd_read s n buf d = Ret ((0, bytes (bd_byte d) (512 * s) (512 * n) ++ drop (Z.to_nat (512 * n)) buf), d);
  bd_read_beyond d s n buf :
    bd_ok d → bd_sectors d < s + n < 2 ^ 32 → bd_read s n buf d = Ret ((- EINVAL, buf), d);
  bd_write_ok d s n buf :
    bd_ok d → 0 ≤ s → 0 ≤ n → s + n ≤ bd_sectors d → 512 * n ≤ zlen buf → Forall is_byte buf →
    ∃ d', bd_write s n buf d = Ret (0, d') ∧ bd_ok d' ∧ bd_sectors d' = bd_sectors d ∧
      ∀ a, bd_byte d' a = if (512 * s <=? a) && (a <? 512 * (s + n)) then buf !!! Z.to_nat (a - 512 * s) else bd_byte d a;
}.

(** ** The RAM disk *)

Record ramdisk_data := { rd_data : list Z; rd_size : Z }.

Definition ramdisk_read_sectors (sector_size sector count : Z) (buf : list Z) : M ramdisk_data (Z * list Z) :=
  let offset := u32 (sector * sector_size) in
  let size := u32 (count * sector_size) in
  rd ← get;
  if rd_size rd <? u32 (offset + size) then mret (- EINVAL, buf)
  else
    data ← deref (slice offset size (rd_data rd));
    buf ← deref (splice 0 data buf);
    mret (0, buf).

Definition ramdisk_write_sectors (sector_size sector count : Z) (buf : list Z) : M ramdisk_data Z :=
  let offset := u32 (sector * sector_size) in
  let size := u32 (count * sector_size) in
  rd ← get;
  if rd_size rd <? u32 (offset + size) then mret (- EINVAL)
  else
    data ← deref (slice 0 size buf);
    rd' ← deref (splice offset data (rd_data rd));
    _ ← put {| rd_data := rd'; rd_size := rd_size rd |};
    mret 0.

(** The device that [ramdisk_create] builds over [size] bytes. *)
Definition ramdisk_device (name : list Z) (size : Z) : block_device ramdisk_data :=
  {| bdev_name := Some name; sector_size := 512; total_sectors := size / 512;
     read_sectors := Some (ramdisk_read_sectors 512); write_sectors := Some (ramdisk_write_sectors 512) |}.

(** [ramdisk_create]: [data], [rd] and [bdev] say whether the three allocations
    succeed; [data] is the memory that the first one returns. *)
Definition ramdisk_create (name : list Z) (size_mb : Z) (data : option (list Z)) (rd bdev : bool) :
    M (list (block_device ramdisk_data)) (option (block_device ramdisk_data * ramdisk_data)) :=
  let size := u32 (size_mb * 1024 * 1024) in
  match data with
  | None => mret None
  | Some data =>
      data ← deref (splice 0 (replicate (Z.to_nat size) 0) data);
      if negb rd then mret None
      else if negb bdev then mret None
      else
        let b := ramdisk_device name size in
        r ← block_register_device (Some b);
        if r <? 0 then mret None else mret (Some (b, {| rd_data := data; rd_size := size |}))
  end.

Definition ramdisk_ok (rd : ramdisk_data) : Prop :=
  zlen (rd_data rd) = rd_size rd ∧ Forall is_byte (rd_data rd) ∧ rd_size rd mod 512 = 0 ∧ rd_size rd < 2 ^ 32.

(** The accesses of a client, through the block layer. *)
Definition ramdisk_read (sector count : Z) (buf : list Z) : M ramdisk_data (Z * list Z) := λ rd,
  block_read_sectors (Some (ramdisk_device [] (rd_size rd))) sector count buf rd.
Definition ramdisk_write (sector count : Z) (buf : list Z) : M ramdisk_data Z := λ rd,
  block_write_sectors (Some (ramdisk_device [] (rd_size rd))) sector count buf rd.

Definition byte_at (l : list Z) (a : Z) : Z := if 0 <=? a then l !!! Z.to_nat a else 0.

Lemma byte_at_range l a : Forall is_byte l → is_byte (byte_at l a).
Proof.
  intros Hl. unfold byte_at. destruct (0 <=? a); [|unfold is_byte; lia]. rewrite list_lookup_total_alt.
  destruct (l !! Z.to_nat a) as [b|] eqn:E; cbn; [by apply (Forall_lookup_1 _ _ _ _ Hl E) | unfold is_byte; cbn; lia].
Qed.

Lemma slice_byte_at l off n : 0 ≤ off → 0 ≤ n → off + n ≤ zlen l → slice off n l = Some (bytes (byte_at l) off n).
Proof.
  intros Ho Hn Hl. unfold slice. rewrite !(proj2 (Z.leb_le _ _)) by lia. cbn [andb]. f_equal. apply list_eq. intros i.
  destruct (decide (Z.of_nat i < n)) as [Hi|Hi].
  - rewrite lookup_take_lt, lookup_drop by lia. replace i with (Z.to_nat (Z.of_nat i)) at 2 by lia. rewrite bytes_lookup by lia.
    unfold byte_at. rewrite (proj2 (Z.leb_le _ _)) by lia. replace (Z.to_nat (off + Z.of_nat i)) with (Z.to_nat off + i)%nat by lia.
    apply list_lookup_lookup_total_lt. lia.
  - rewrite (proj2 (lookup_ge_None _ i)) by (rewrite length_take, length_drop; lia). symmetry. apply lookup_ge_None.
    pose proof (length_bytes (byte_at l) off n). lia.
Qed.

Lemma ramdisk_in_range rd s n :
  ramdisk_ok rd → 0 ≤ s → 0 ≤ n → s + n ≤ rd_size rd / 512 →
  (rd_size rd / 512 <? u32 (s + n)) = false ∧ u32 (s * 512) = 512 * s ∧ u32 (n * 512) = 512 * n ∧
  (rd_size rd <? u32 (512 * s + 512 * n)) = false ∧ 512 * s + 512 * n ≤ rd_size rd.
Proof.
  intros (H1 & _ & H2 & H3) Hs Hn Hr. assert (512 * (s + n) ≤ rd_size rd) by dlia.
  rewrite !u32_small by lia. split_and!; try (apply Z.ltb_ge); lia.
Qed.

#[export, program] Instance ramdisk_block : BlockDevice ramdisk_data := {|
  bd_ok := ramdisk_ok;
  bd_sectors := λ rd, rd_size rd / 512;
  bd_byte := λ rd, byte_at (rd_data rd);
  bd_read := ramdisk_read;
  bd_write := ramdisk_write;
|}.
Next Obligation. intros rd (H1 & _ & _ & H2). dlia. Qed.
Next Obligation. intros rd a (_ & Hb & _). by apply byte_at_range. Qed.
Next Obligation.
  intros rd s n buf Hok Hs Hn Hr Hl. destruct (ramdisk_in_range rd s n Hok Hs Hn Hr) as (E1 & E2 & E3 & E4 & Hle).
  destruct Hok as (Hlen & _). unfold ramdisk_read, block_read_sectors. cbn. rewrite E1. unfold ramdisk_read_sectors. cbv zeta.
  rewrite bind_get, E2, E3, E4. rewrite slice_byte_at by lia. rewrite bind_deref.
  unfold splice. rewrite length_bytes by lia. rewrite !(proj2 (Z.leb_le _ _)) by lia. cbn [andb].
  rewrite bind_deref. change (Z.to_nat 0) with 0%nat. rewrite take_0. cbn [app].
  replace (0 + length (bytes (byte_at (rd_data rd)) (512 * s) (512 * n)))%nat with (Z.to_nat (512 * n)); [done|].
  pose proof (length_bytes (byte_at (rd_data rd)) (512 * s) (512 * n)). lia.
Qed.
Next Obligation.
  intros rd s n buf Hok Hr. unfold ramdisk_read, block_read_sectors. cbn. destruct Hok as (? & _ & ? & ?).
  rewrite u32_small by dlia. rewrite (proj2 (Z.ltb_lt _ _)) by lia. done.
Qed.
Next Obligation.
  intros rd s n buf Hok Hs Hn Hr Hl Hb. destruct (ramdisk_in_range rd s n Hok Hs Hn Hr) as (E1 & E2 & E3 & E4 & Hle).
  destruct Hok as (Hlen & Hby & Hal & Hsz). unfold ramdisk_write, block_write_sectors. cbn. rewrite E1. unfold ramdisk_write_sectors. cbv zeta.
  rewrite bind_get, E2, E3, E4. rewrite slice_byte_at by lia. rewrite bind_deref.
  set (src := bytes (byte_at buf) 0 (512 * n)). assert (zlen src = 512 * n) as Hsrc by (apply length_bytes; lia).
  destruct (splice_Some (512 * s) src (rd_data rd)) as (l' & E & Hl'); [lia | lia|]. rewrite E, bind_deref.
  eexists. split; [reflexivity|]. cbn. assert (Forall is_byte src) as Hsb.
  { apply Forall_fmap, Forall_true. intros i. by apply byte_at_range. }
  split_and!; try done.
  - split_and!; cbn; try done; [lia|]. by eapply splice_Forall.
  - intros a. unfold byte_at. destruct (Z.leb_spec 0 a) as [Ha|Ha].
    2:{ rewrite (proj2 (Z.leb_gt _ _)) by lia. done. }
    rewrite (splice_lookup _ _ _ _ _ E Ha), Hsrc. replace (512 * s + 512 * n) with (512 * (s + n)) by lia.
    destruct (Z.leb_spec (512 * s) a), (Z.ltb_spec a (512 * (s + n))); cbn [andb]; try done.
    rewrite !list_lookup_total_alt. unfold src. rewrite bytes_lookup by lia. cbn. unfold byte_at.
    rewrite (proj2 (Z.leb_le _ _)) by lia. by rewrite Z.add_0_l, list_lookup_total_alt.
Qed.

(** The checks of the layer and of the driver add before they compare: a request
    at the very end of the 32-bit range passes both and leaves the disk's memory. *)
Theorem ramdisk_wraps rd buf :
  ramdisk_ok rd → 512 ≤ zlen buf → rd_size rd < 2 ^ 32 - 512 → ramdisk_read (2 ^ 32 - 1) 1 buf rd = Undef.
Proof.
  intros (Hlen & _ & Hal & Hsz) Hb Hs. unfold ramdisk_read, block_read_sectors. cbn [read_sectors total_sectors ramdisk_device].
  replace (u32 (2 ^ 32 - 1 + 1)) with 0 by reflexivity. rewrite (proj2 (Z.ltb_ge _ 0)) by dlia.
  unfold ramdisk_read_sectors. cbv zeta. rewrite bind_get. replace (u32 ((2 ^ 32 - 1) * 512)) with (2 ^ 32 - 512) by reflexivity.
  replace (u32 (1 * 512)) with 512 by reflexivity. replace (u32 (2 ^ 32 - 512 + 512)) with 0 by reflexivity.
  rewrite (proj2 (Z.ltb_ge _ 0)) by lia. apply bind_Undef. unfold slice. rewrite (proj2 (Z.leb_gt (_ + _) _)) by lia.
  by rewrite andb_false_r.
Qed.

Lemma ramdisk_wraps_witness : ramdisk_read (2 ^ 32 - 1) 1 (replicate 512 0) {| rd_data := replicate 512 0; rd_size := 512 |} = Undef.
Proof. apply ramdisk_wraps; try done. split_and!; try done. by apply Forall_replicate. Defined.

Lemma block_register_correct_witness :
  ∃ r devices, block_register_device (Some (ramdisk_device [114] 512)) [] = Ret (r, devices) ∧ table_ok devices.
Proof.
  destruct (block_register_correct [] (ramdisk_device [114] 512) [114]) as (r & devices & E & Hok & _); [|done|by exists r, devices].
  split_and!; try done; constructor.
Defined.
