(* ===== verification/Fat.v ===== *)
(** * FAT32: the allocation table (kernel/fs/fat32.c, include/fs/fat32.h)

    Mounting a volume, the table of cluster links, allocation and release of
    clusters, and access to the data of a cluster, over any [BlockDevice].  The
    state is the disk; the parameters that mounting computes are a record that
    every operation takes, as in the code.

    A sector buffer of the code is an uninitialised array that the read fills
    completely; here it starts with zeros. *)

From S2P Require Import Prelude Bytes Errno Block.

#[local] Open Scope Z_scope.

Abbreviation FAT32_SECTOR_SIZE := 512%Z (only parsing).
Abbreviation FAT32_FREE := 0x00000000%Z (only parsing).
Abbreviation FAT32_BAD_CLUSTER := 0x0FFFFFF7%Z (only parsing).
Abbreviation FAT32_EOC_MIN := 0x0FFFFFF8%Z (only parsing).
Abbreviation FAT32_EOC_MAX := 0x0FFFFFFF%Z (only parsing).
Abbreviation FAT32_MASK := 0x0FFFFFFF%Z (only parsing).

Definition fat32_is_eoc (cluster : Z) : bool := FAT32_EOC_MIN <=? Z.land cluster FAT32_MASK.
Definition fat32_is_bad_cluster (cluster : Z) : bool := Z.land cluster FAT32_MASK =? FAT32_BAD_CLUSTER.
Definition fat32_is_free_cluster (cluster : Z) : bool := Z.land cluster FAT32_MASK =? FAT32_FREE.

(** [struct fat32_dir_entry] *)
Record fat32_dir_entry := {
  de_name : list Z;
  attr : Z;
  nt_reserved : Z;
  create_time_tenth : Z;
  create_time : Z;
  create_date : Z;
  last_access_date : Z;
  first_cluster_high : Z;
  write_time : Z;
  write_date : Z;
  first_cluster_low : Z;
  file_size : Z;
}.

Definition fat32_get_first_cluster (e : fat32_dir_entry) : Z :=
  Z.lor (Z.shiftl (first_cluster_high e) 16) (first_cluster_low e).

Definition fat32_set_first_cluster (cluster : Z) (e : fat32_dir_entry) : fat32_dir_entry :=
  {| de_name := de_name e; attr := attr e; nt_reserved := nt_reserved e; create_time_tenth := create_time_tenth e;
     create_time := create_time e; create_date := create_date e; last_access_date := last_access_date e;
     first_cluster_high := Z.land (Z.shiftr cluster 16) 0xFFFF; write_time := write_time e; write_date := write_date e;
     first_cluster_low := Z.land cluster 0xFFFF; file_size := file_size e |}.

Definition set_file_size (n : Z) (e : fat32_dir_entry) : fat32_dir_entry :=
  {| de_name := de_name e; attr := attr e; nt_reserved := nt_reserved e; create_time_tenth := create_time_tenth e;
     create_time := create_time e; create_date := create_date e; last_access_date := last_access_date e;
     first_cluster_high := first_cluster_high e; write_time := write_time e; write_date := write_date e;
     first_cluster_low := first_cluster_low e; file_size := n |}.

(** [struct fat32_fs_info]; the two cache pointers stay null and the superblock
    pointer is not used. *)
Record fat32_fs_info := {
  bytes_per_sector : Z;
  sectors_per_cluster : Z;
  cluster_size : Z;
  reserved_sectors : Z;
  num_fats : Z;
  fat_size : Z;
  root_cluster : Z;
  fs_total_sectors : Z;
  total_clusters : Z;
  fat_start_sector : Z;
  data_start_sector : Z;
  bdev : Z;                 (* address of the device, 0 for none *)
}.

(** The fields of [struct fat32_boot_sector] that are read, at their offsets in
    the packed structure. *)
Record fat32_boot_sector := {
  bs_bytes_per_sector : Z;
  bs_sectors_per_cluster : Z;
  bs_reserved_sectors : Z;
  bs_num_fats : Z;
  bs_root_entry_count : Z;
  bs_total_sectors_16 : Z;
  bs_fat_size_16 : Z;
  bs_total_sectors_32 : Z;
  bs_fat_size_32 : Z;
  bs_root_cluster : Z;
  bs_fs_type : list Z;
  bs_boot_signature_end : Z;
}.

Definition boot_sector_of (buf : list Z) : option fat32_boot_sector :=
  a ← get16 buf 0x0B; b ← aget buf 0x0D; c ← get16 buf 0x0E; d ← aget buf 0x10;
  e ← get16 buf 0x11; f ← get16 buf 0x13; g ← get16 buf 0x16; h ← get32 buf 0x20;
  i ← get32 buf 0x24; j ← get32 buf 0x2C; k ← slice 0x52 8 buf; l ← get16 buf 0x1FE;
  Some {| bs_bytes_per_sector := a; bs_sectors_per_cluster := b; bs_reserved_sectors := c; bs_num_fats := d;
          bs_root_entry_count := e; bs_total_sectors_16 := f; bs_fat_size_16 := g; bs_total_sectors_32 := h;
          bs_fat_size_32 := i; bs_root_cluster := j; bs_fs_type := k; bs_boot_signature_end := l |}.

(** "FAT32" *)
Definition fat32_type : list Z := [70; 65; 84; 51; 50].

Definition validate_boot_sector (bs : fat32_boot_sector) : bool :=
  let spc := bs_sectors_per_cluster bs in
  if negb (bs_boot_signature_end bs =? 0xAA55) then false
  else if negb (bool_decide (take 5 (bs_fs_type bs) = fat32_type)) then false
  else if negb (bs_bytes_per_sector bs =? 512) && negb (bs_bytes_per_sector bs =? 1024) &&
          negb (bs_bytes_per_sector bs =? 2048) && negb (bs_bytes_per_sector bs =? 4096) then false
  else if (spc =? 0) || negb (Z.land spc (spc - 1) =? 0) then false
  else if bs_num_fats bs =? 0 then false
  else if negb (bs_root_entry_count bs =? 0) then false
  else if negb (bs_total_sectors_16 bs =? 0) then false
  else if negb (bs_fat_size_16 bs =? 0) then false
  else true.

Definition fs_of_boot_sector (bdev : Z) (bs : fat32_boot_sector) : fat32_fs_info :=
  let data_start := u32 (bs_reserved_sectors bs + u32 (bs_num_fats bs * bs_fat_size_32 bs)) in
  let data_sectors := u32 (bs_total_sectors_32 bs - data_start) in
  {| bytes_per_sector := bs_bytes_per_sector bs;
     sectors_per_cluster := bs_sectors_per_cluster bs;
     cluster_size := bs_bytes_per_sector bs * bs_sectors_per_cluster bs;
     reserved_sectors := bs_reserved_sectors bs;
     num_fats := bs_num_fats bs;
     fat_size := bs_fat_size_32 bs;
     root_cluster := bs_root_cluster bs;
     fs_total_sectors := bs_total_sectors_32 bs;
     total_clusters := u32 (data_sectors / bs_sectors_per_cluster bs + 2);
     fat_start_sector := bs_reserved_sectors bs;
     data_start_sector := data_start;
     bdev := bdev |}.

Section Fat.
Context {D : Type} `{!BlockDevice D}.

Definition fat_read_sectors (bdev sector count : Z) (buf : list Z) : M D (Z * list Z) :=
  if bdev =? 0 then mret (- EINVAL, buf) else bd_read sector count buf.

Definition fat_write_sectors (bdev sector count : Z) (buf : list Z) : M D Z :=
  if bdev =? 0 then mret (- EINVAL) else bd_write sector count buf.

Definition sector_buf : list Z := replicate (Z.to_nat FAT32_SECTOR_SIZE) 0.

Definition cluster_to_sector (fs : fat32_fs_info) (cluster : Z) : Z :=
  u32 (data_start_sector fs + u32 (u32 (cluster - 2) * sectors_per_cluster fs)).

(** ** The table *)

Definition fat_sector_of (fs : fat32_fs_info) (cluster : Z) : Z :=
  u32 (fat_start_sector fs + u32 (cluster * 4) / bytes_per_sector fs).
Definition entry_offset_of (fs : fat32_fs_info) (cluster : Z) : Z := u32 (cluster * 4) mod bytes_per_sector fs.

Definition fat32_read_fat (fs : fat32_fs_info) (cluster : Z) : M D Z :=
  if (cluster <? 2) || (total_clusters fs <=? cluster) then mret FAT32_BAD_CLUSTER
  else
    '(r, buf) ← fat_read_sectors (bdev fs) (fat_sector_of fs cluster) 1 sector_buf;
    if r <? 0 then mret FAT32_BAD_CLUSTER
    else
      entry ← deref (get32 buf (entry_offset_of fs cluster));
      mret (Z.land entry FAT32_MASK).

Definition fat32_write_fat (fs : fat32_fs_info) (cluster value : Z) : M D Z :=
  if (cluster <? 2) || (total_clusters fs <=? cluster) then mret (- EINVAL)
  else
    let fat_sector := fat_sector_of fs cluster in
    let entry_offset := entry_offset_of fs cluster in
    '(r, buf) ← fat_read_sectors (bdev fs) fat_sector 1 sector_buf;
    if r <? 0 then mret (- EIO)
    else
      old ← deref (get32 buf entry_offset);
      let entry := Z.lor (Z.land old 0xF0000000) (Z.land value FAT32_MASK) in
      buf ← deref (splice entry_offset (le32_bytes entry) buf);
      r ← fat_write_sectors (bdev fs) fat_sector 1 buf;
      if r <? 0 then mret (- EIO)
      else
        _ ← (if 1 <? num_fats fs then
               r ← fat_write_sectors (bdev fs) (u32 (fat_sector + fat_size fs)) 1 buf; mret tt
             else mret tt);
        mret 0.

(** ** Allocation *)

Definition alloc_step (fs : fat32_fs_info) (cluster : Z) : M D (option Z) :=
  entry ← fat32_read_fat fs cluster;
  if fat32_is_free_cluster entry then
    _ ← fat32_write_fat fs cluster FAT32_EOC_MAX;
    mret (Some cluster)
  else mret None.

Definition fat32_alloc_cluster (fs : fat32_fs_info) : M D Z :=
  r ← for_ret (Z.to_nat (total_clusters fs - 2)) 2 (alloc_step fs);
  match r with Some cluster => mret cluster | None => mret 0 end.

Fixpoint free_loop (fuel : nat) (fs : fat32_fs_info) (cluster : Z) : M D Z :=
  match fuel with
  | O => undef
  | S fuel =>
      if (2 <=? cluster) && (cluster <? total_clusters fs) then
        next ← fat32_read_fat fs cluster;
        _ ← fat32_write_fat fs cluster FAT32_FREE;
        if fat32_is_eoc next || fat32_is_bad_cluster next then mret 0
        else free_loop fuel fs next
      else mret 0
  end.

(** One iteration for each cluster of the volume, and one more: see
    [fat32_free_cluster_correct]. *)
Definition fat32_free_cluster (fs : fat32_fs_info) (cluster : Z) : M D Z :=
  free_loop (S (Z.to_nat (total_clusters fs))) fs cluster.

(** ** Data *)

Definition fat32_read_cluster (fs : fat32_fs_info) (cluster : Z) (buf : list Z) : M D (Z * list Z) :=
  if (cluster <? 2) || (total_clusters fs <=? cluster) then mret (- EINVAL, buf)
  else fat_read_sectors (bdev fs) (cluster_to_sector fs cluster) (sectors_per_cluster fs) buf.

Definition fat32_write_cluster (fs : fat32_fs_info) (cluster : Z) (buf : list Z) : M D Z :=
  if (cluster <? 2) || (total_clusters fs <=? cluster) then mret (- EINVAL)
  else fat_write_sectors (bdev fs) (cluster_to_sector fs cluster) (sectors_per_cluster fs) buf.

(** ** Mounting *)

(** The disk and the global pointer [g_fat32_fs]. *)
Record fat32_st := { disk : D; g_fat32_fs : option fat32_fs_info }.
Definition with_disk (d : D) (s : fat32_st) : fat32_st := {| disk := d; g_fat32_fs := g_fat32_fs s |}.
Definition on_disk {A} (c : M D A) : M fat32_st A := zoom disk with_disk c.

(** [mem] says whether the allocation of the structure succeeds. *)
Definition fat32_mount (mem : bool) (bdev : Z) : M fat32_st Z :=
  if negb mem then mret (- ENOMEM)
  else
    '(r, buf) ← on_disk (fat_read_sectors bdev 0 1 sector_buf);
    if r <? 0 then mret (- EIO)
    else
      bs ← deref (boot_sector_of buf);
      if negb (validate_boot_sector bs) then mret (- EINVAL)
      else
        _ ← modify (λ s, {| disk := disk s; g_fat32_fs := Some (fs_of_boot_sector bdev bs) |});
        mret 0.

Definition fat32_get_fs : M fat32_st (option fat32_fs_info) := gets g_fat32_fs.
End Fat.
Arguments fat32_st : clear implicits.
