(* ===== verification/FatSpec.v ===== *)
(** * FAT32: correctness of the allocation table

    The table is a function from cluster numbers to links ([link]); the data area
    a function from cluster numbers to contents ([cluster]).  Reading and writing
    the table, allocating and releasing clusters and accessing their data are
    shown to be the corresponding operations on these two functions. *)

From S2P Require Import Prelude Bytes Errno Block Fat.

#[local] Open Scope Z_scope.

Lemma get32_bytes f a n off :
  0 ≤ off → off + 4 ≤ n →
  get32 (bytes f a n) off = Some (le32 (f (a + off)) (f (a + off + 1)) (f (a + off + 2)) (f (a + off + 3))).
Proof.
  intros Ho Hn. unfold get32. rewrite slice_bytes by lia. unfold bytes. change (seqZ 0 4) with [0; 1; 2; 3]. cbn. by rewrite Z.add_0_r.
Qed.

Lemma mask_insert old v : Z.land (Z.lor (Z.land old 0xF0000000) (Z.land v FAT32_MASK)) FAT32_MASK = Z.land v FAT32_MASK.
Proof.
  rewrite Z.land_lor_distr_l, <- !Z.land_assoc. change (Z.land 0xF0000000 FAT32_MASK) with 0.
  rewrite Z.land_diag, Z.land_0_r. apply Z.lor_0_l.
Qed.

Lemma mask_range v : 0 ≤ Z.land v FAT32_MASK < 2 ^ 28.
Proof. change FAT32_MASK with (Z.ones 28). rewrite Z.land_ones by lia. apply Z.mod_pos_bound. lia. Qed.

Lemma mask_small v : 0 ≤ v < 2 ^ 28 → Z.land v FAT32_MASK = v.
Proof. intros Hv. change FAT32_MASK with (Z.ones 28). rewrite Z.land_ones by lia. by apply Z.mod_small. Qed.

Lemma entry_range old v : 0 ≤ old < 2 ^ 32 → 0 ≤ Z.lor (Z.land old 0xF0000000) (Z.land v FAT32_MASK) < 2 ^ 32.
Proof.
  intros Ho. split; [apply Z.lor_nonneg; split; apply Z.land_nonneg; right; lia|].
  apply bits_bounded; [lia | apply Z.lor_nonneg; split; apply Z.land_nonneg; right; lia|].
  intros i Hi. rewrite Z.lor_spec, !Z.land_spec, (testbit_high 32 old), (testbit_high 28 FAT32_MASK) by lia.
  by rewrite andb_false_r.
Qed.

Section FatSpec.
Context {D : Type} `{!BlockDevice D} (fs : fat32_fs_info).
Implicit Types d : D.

(** ** The volume *)

(** A mounted volume whose parameters fit the device: the tables before the data
    area, the table large enough for every cluster, and both inside the device. *)
Record fs_ok d : Prop := {
  fo_dev : bd_ok d;
  fo_bdev : bdev fs ≠ 0;
  fo_sector : bytes_per_sector fs = 512;
  fo_cluster : 0 < sectors_per_cluster fs ∧ cluster_size fs = 512 * sectors_per_cluster fs;
  fo_tables : 0 ≤ fat_start_sector fs ∧ 0 < fat_size fs ∧ 0 < num_fats fs ∧
              fat_start_sector fs + num_fats fs * fat_size fs ≤ data_start_sector fs;
  fo_table : 2 ≤ total_clusters fs ∧ 4 * total_clusters fs ≤ 512 * fat_size fs;
  fo_data : data_start_sector fs + (total_clusters fs - 2) * sectors_per_cluster fs ≤ bd_sectors d;
}.

Definition valid_cluster (c : Z) : Prop := 2 ≤ c < total_clusters fs.

Definition entry_addr (c : Z) : Z := 512 * fat_start_sector fs + 4 * c.
Definition data_addr (c : Z) : Z := 512 * (data_start_sector fs + (c - 2) * sectors_per_cluster fs).

Definition entry d (c : Z) : Z :=
  le32 (bd_byte d (entry_addr c)) (bd_byte d (entry_addr c + 1)) (bd_byte d (entry_addr c + 2)) (bd_byte d (entry_addr c + 3)).
Definition link d (c : Z) : Z := Z.land (entry d c) FAT32_MASK.
Definition cluster d (c : Z) : list Z := bytes (bd_byte d) (data_addr c) (cluster_size fs).

Lemma total_small d : fs_ok d → total_clusters fs ≤ 2 ^ 23 + 2.
Proof.
  intros H. pose proof (bd_bound d (fo_dev _ H)). pose proof (fo_data _ H). destruct (fo_cluster _ H) as [Hc _], (fo_tables _ H) as (? & ? & ? & ?), (fo_table _ H).
  assert (0 ≤ num_fats fs * fat_size fs) by nia. nia.
Qed.

Lemma entry_word d c : fs_ok d → 0 ≤ entry d c < 2 ^ 32.
Proof. intros H. apply le32_range; apply bd_is_byte, H. Qed.

Lemma link_range d c : 0 ≤ link d c < 2 ^ 28.
Proof. apply mask_range. Qed.

(** Where the entry of a cluster is. *)
Lemma entry_sector d c :
  fs_ok d → valid_cluster c →
  fat_sector_of fs c = fat_start_sector fs + 4 * c / 512 ∧ entry_offset_of fs c = 4 * c mod 512 ∧
  0 ≤ fat_sector_of fs c ∧ fat_sector_of fs c < fat_start_sector fs + fat_size fs ∧
  fat_start_sector fs + num_fats fs * fat_size fs ≤ bd_sectors d ∧
  0 ≤ entry_offset_of fs c ≤ 508 ∧ 512 * fat_sector_of fs c + entry_offset_of fs c = entry_addr c.
Proof.
  intros H Hc. pose proof (total_small d H). destruct H as [Hd _ Hs [Hp _] (Ht1 & Ht2 & Ht3 & Ht4) [Hf1 Hf2] Hda].
  pose proof (bd_bound d Hd). unfold valid_cluster in Hc. unfold fat_sector_of, entry_offset_of, entry_addr. rewrite Hs.
  assert (fat_start_sector fs + num_fats fs * fat_size fs ≤ bd_sectors d) by nia.
  assert (fat_size fs ≤ num_fats fs * fat_size fs) by nia.
  rewrite (u32_small (c * 4)) by lia. rewrite (Z.mul_comm c 4). rewrite u32_small by dlia. split_and!; dlia.
Qed.

Lemma read_sector d s buf :
  fs_ok d → 0 ≤ s < bd_sectors d → zlen buf = 512 →
  fat_read_sectors (bdev fs) s 1 buf d = Ret ((0, bytes (bd_byte d) (512 * s) 512), d).
Proof.
  intros H Hs Hb. unfold fat_read_sectors. rewrite (proj2 (Z.eqb_neq _ 0) (fo_bdev _ H)).
  rewrite (bd_read_ok d s 1 buf (fo_dev _ H)) by lia. rewrite drop_ge by lia. by rewrite app_nil_r.
Qed.

(** ** Reading and writing the table *)

Lemma read_fat_spec d c : fs_ok d → valid_cluster c → fat32_read_fat fs c d = Ret (link d c, d).
Proof.
  intros H Hc. destruct (entry_sector d c H Hc) as (_ & _ & H1 & H2 & H3 & H4 & H5). unfold fat32_read_fat, valid_cluster in *.
  rewrite (proj2 (Z.ltb_ge c 2)), (proj2 (Z.leb_gt _ c)) by lia. cbn [orb]. destruct (fo_tables _ H) as (_ & _ & Hn & _).
  assert (fat_size fs ≤ num_fats fs * fat_size fs) by (destruct (fo_tables _ H) as (_ & ? & _); nia).
  rewrite (bind_Ret _ _ _ _ _ (read_sector d (fat_sector_of fs c) sector_buf H ltac:(lia) eq_refl)). cbn [Z.ltb Z.compare].
  rewrite get32_bytes by lia. rewrite bind_deref, H5. done.
Qed.

Lemma read_fat_invalid d c : ¬ valid_cluster c → fat32_read_fat fs c d = Ret (FAT32_BAD_CLUSTER, d).
Proof.
  intros Hc. unfold fat32_read_fat, valid_cluster in *.
  destruct (Z.ltb_spec c 2), (Z.leb_spec (total_clusters fs) c); cbn [orb]; try done. lia.
Qed.

(** [d'] is [d] with bytes changed in the tables only. *)
Definition outside_tables d d' : Prop :=
  ∀ a, a < 512 * fat_start_sector fs ∨ 512 * (fat_start_sector fs + num_fats fs * fat_size fs) ≤ a → bd_byte d' a = bd_byte d a.

Lemma write_sector d s buf :
  fs_ok d → 0 ≤ s < bd_sectors d → zlen buf = 512 → Forall is_byte buf →
  ∃ d', fat_write_sectors (bdev fs) s 1 buf d = Ret (0, d') ∧ fs_ok d' ∧ bd_sectors d' = bd_sectors d ∧
    ∀ a, bd_byte d' a = if (512 * s <=? a) && (a <? 512 * (s + 1)) then buf !!! Z.to_nat (a - 512 * s) else bd_byte d a.
Proof.
  intros H Hs Hb Hby. unfold fat_write_sectors. rewrite (proj2 (Z.eqb_neq _ 0) (fo_bdev _ H)).
  destruct (bd_write_ok d s 1 buf (fo_dev _ H)) as (d' & E & Hok & Hn & Ha); try done; try lia.
  exists d'. split_and!; try done. destruct H as [H1 H2 H3 H4 H5 H6 H7]. split; try done. by rewrite Hn.
Qed.

Lemma le32_bytes_range v : Forall is_byte (le32_bytes v).
Proof. unfold le32_bytes, is_byte. repeat constructor; apply Z.mod_pos_bound; lia. Qed.

Lemma splice_bytes f a n off v l :
  splice off (le32_bytes v) (bytes f a n) = Some l → 0 ≤ off → off + 4 ≤ n → (∀ x, is_byte (f x)) →
  zlen l = n ∧ Forall is_byte l ∧
  ∀ i, 0 ≤ i < n → l !!! Z.to_nat i = if (off <=? i) && (i <? off + 4) then le32_bytes v !!! Z.to_nat (i - off) else f (a + i).
Proof.
  intros E Ho Hn Hf. split_and!.
  - destruct (splice_Some off (le32_bytes v) (bytes f a n)) as (l' & E' & Hl'); [lia | rewrite length_bytes; cbn; lia|].
    rewrite E in E'. injection E' as <-. rewrite Hl'. apply length_bytes. lia.
  - eapply splice_Forall; [done | apply le32_bytes_range|]. apply Forall_fmap, Forall_true. intros. apply Hf.
  - intros i Hi. rewrite (splice_lookup _ _ _ _ _ E) by lia. change (zlen (le32_bytes v)) with 4.
    destruct (_ && _); [done|]. by rewrite list_lookup_total_alt, bytes_lookup.
Qed.

(** Writing the sector of an entry back changes its four bytes in the first table. *)
Lemma write_entry d c v buf :
  fs_ok d → valid_cluster c →
  splice (entry_offset_of fs c) (le32_bytes v) (bytes (bd_byte d) (512 * fat_sector_of fs c) 512) = Some buf →
  ∃ d', fat_write_sectors (bdev fs) (fat_sector_of fs c) 1 buf d = Ret (0, d') ∧ fs_ok d' ∧ bd_sectors d' = bd_sectors d ∧
    zlen buf = 512 ∧ Forall is_byte buf ∧
    ∀ a, bd_byte d' a = if (entry_addr c <=? a) && (a <? entry_addr c + 4) then le32_bytes v !!! Z.to_nat (a - entry_addr c) else bd_byte d a.
Proof.
  intros H Hc Eb. destruct (entry_sector d c H Hc) as (_ & _ & H1 & H2 & H3 & H4 & H5).
  destruct (fo_tables _ H) as (_ & Hz & Hn & _). assert (fat_size fs ≤ num_fats fs * fat_size fs) by nia.
  destruct (splice_bytes _ _ _ _ _ _ Eb) as (Hlen & Hby & Hbuf); [lia | lia | intros; apply bd_is_byte, H|].
  set (s := fat_sector_of fs c) in *. set (off := entry_offset_of fs c) in *.
  destruct (write_sector d s buf H ltac:(lia) Hlen Hby) as (d1 & E1 & Hok1 & Hn1 & Ha1).
  exists d1. split_and!; try done. intros a. rewrite Ha1. rewrite <- H5.
  destruct (Z.leb_spec (512 * s) a), (Z.ltb_spec a (512 * (s + 1))); cbn [andb].
  - rewrite Hbuf by lia. replace (512 * s + (a - 512 * s)) with a by lia.
    destruct (Z.leb_spec off (a - 512 * s)), (Z.ltb_spec (a - 512 * s) (off + 4)), (Z.leb_spec (512 * s + off) a), (Z.ltb_spec a (512 * s + off + 4));
      cbn [andb]; try done; try lia. f_equal. lia.
  - rewrite (proj2 (Z.ltb_ge a _)), andb_false_r by lia. done.
  - rewrite (proj2 (Z.leb_gt _ a)) by lia. done.
  - rewrite (proj2 (Z.leb_gt _ a)) by lia. done.
Qed.

(** The copy in the second table does not touch the first one, nor the data. *)
Lemma write_copy d s buf :
  fs_ok d → zlen buf = 512 → Forall is_byte buf → fat_start_sector fs ≤ s < fat_start_sector fs + fat_size fs →
  ∃ d', (_ ← (if 1 <? num_fats fs then r ← fat_write_sectors (bdev fs) (u32 (s + fat_size fs)) 1 buf; mret tt else mret tt);
         mret 0) d = Ret (0, d') ∧ fs_ok d' ∧ bd_sectors d' = bd_sectors d ∧
    (∀ a, a < 512 * (fat_start_sector fs + fat_size fs) → bd_byte d' a = bd_byte d a) ∧ outside_tables d d'.
Proof.
  intros H Hlen Hby Hs. destruct (Z.ltb_spec 1 (num_fats fs)) as [H2f|H1f]; [|by exists d].
  pose proof (bd_bound d (fo_dev _ H)). destruct (fo_tables _ H) as (Hs0 & Hz & Hn & Ht).
  pose proof (fo_data _ H). destruct (fo_cluster _ H), (fo_table _ H).
  assert (2 * fat_size fs ≤ num_fats fs * fat_size fs) by nia. assert (0 ≤ (total_clusters fs - 2) * sectors_per_cluster fs) by nia.
  rewrite u32_small by lia. destruct (write_sector d (s + fat_size fs) buf H ltac:(lia) Hlen Hby) as (d' & E & Hok & Hn' & Ha).
  rewrite bind_assoc, (bind_Ret _ _ _ _ _ E). exists d'. split_and!; try done.
  - intros a Hlt. rewrite Ha, (proj2 (Z.leb_gt _ a)) by lia. done.
  - intros a Hout. rewrite Ha. destruct (Z.leb_spec (512 * (s + fat_size fs)) a), (Z.ltb_spec a (512 * (s + fat_size fs + 1))); cbn [andb]; try done. lia.
Qed.

Lemma entry_written d d' c v :
  0 ≤ v < 2 ^ 32 →
  (∀ a, bd_byte d' a = if (entry_addr c <=? a) && (a <? entry_addr c + 4) then le32_bytes v !!! Z.to_nat (a - entry_addr c) else bd_byte d a) →
  ∀ x, entry d' x = if x =? c then v else entry d x.
Proof.
  intros Hv Ha x. unfold entry. rewrite !Ha. destruct (Z.eqb_spec x c) as [->|Hne].
  - rewrite !(proj2 (Z.leb_le _ _)), !(proj2 (Z.ltb_lt _ _)) by lia. cbn [andb]. replace (entry_addr c - entry_addr c) with 0 by lia.
    replace (entry_addr c + 1 - entry_addr c) with 1 by lia. replace (entry_addr c + 2 - entry_addr c) with 2 by lia.
    replace (entry_addr c + 3 - entry_addr c) with 3 by lia. by apply le32_bytes_eq.
  - assert (∀ i, 0 ≤ i < 4 → (entry_addr c <=? entry_addr x + i) && (entry_addr x + i <? entry_addr c + 4) = false) as Hf.
    { intros i Hi. destruct (Z.leb_spec (entry_addr c) (entry_addr x + i)), (Z.ltb_spec (entry_addr x + i) (entry_addr c + 4)); try done.
      unfold entry_addr in *. lia. }
    pose proof (Hf 0 ltac:(lia)) as Hf0. rewrite Z.add_0_r in Hf0. by rewrite Hf0, !Hf by lia.
Qed.

Lemma write_fat_spec d c v :
  fs_ok d → valid_cluster c →
  ∃ d', fat32_write_fat fs c v d = Ret (0, d') ∧ fs_ok d' ∧
    (∀ x, 0 ≤ x < total_clusters fs → link d' x = if x =? c then Z.land v FAT32_MASK else link d x) ∧ outside_tables d d'.
Proof.
  intros H Hc. destruct (entry_sector d c H Hc) as (H0 & _ & H1 & H2 & H3 & H4 & H5).
  destruct (fo_tables _ H) as (Hs0 & Hz & Hn & _). assert (fat_size fs ≤ num_fats fs * fat_size fs) by nia.
  assert (fat_start_sector fs ≤ fat_sector_of fs c) as Hge by (unfold valid_cluster in Hc; rewrite H0; dlia).
  unfold fat32_write_fat. unfold valid_cluster in Hc. rewrite (proj2 (Z.ltb_ge c 2)), (proj2 (Z.leb_gt _ c)) by lia. cbn [orb]. cbv zeta.
  rewrite (bind_Ret _ _ _ _ _ (read_sector d (fat_sector_of fs c) sector_buf H ltac:(lia) eq_refl)). cbn [Z.ltb Z.compare].
  rewrite get32_bytes by lia. rewrite bind_deref, H5. fold (entry d c). set (e := Z.lor _ _).
  assert (0 ≤ e < 2 ^ 32) as He by (apply entry_range, entry_word, H).
  destruct (splice_Some (entry_offset_of fs c) (le32_bytes e) (bytes (bd_byte d) (512 * fat_sector_of fs c) 512)) as (buf & Eb & _);
    [lia | rewrite length_bytes; cbn; lia|]. rewrite Eb, bind_deref.
  destruct (write_entry d c e buf H Hc Eb) as (d1 & E1 & Hok1 & Hn1 & Hlen & Hby & Ha1). rewrite (bind_Ret _ _ _ _ _ E1). cbn [Z.ltb Z.compare].
  destruct (write_copy d1 (fat_sector_of fs c) buf Hok1 Hlen Hby ltac:(lia)) as (d' & E' & Hok' & _ & Hb' & Ho').
  exists d'. split_and!; [exact E' | done | |].
  - intros x Hx. assert (entry d' x = entry d1 x) as Ee by (unfold entry, entry_addr; destruct (fo_table _ H); rewrite !Hb' by lia; done).
    unfold link. rewrite Ee, (entry_written d d1 c e He Ha1). destruct (x =? c); [apply mask_insert | done].
  - intros a Ha. rewrite Ho', Ha1 by done. destruct (Z.leb_spec (entry_addr c) a), (Z.ltb_spec a (entry_addr c + 4)); cbn [andb]; try done. lia.
Qed.

(** ** The data area *)

Definition same_data d d' : Prop := ∀ c, valid_cluster c → cluster d' c = cluster d c.
Definition same_links d d' : Prop := ∀ c, 0 ≤ c < total_clusters fs → link d' c = link d c.

Lemma data_range d c :
  fs_ok d → valid_cluster c →
  512 * (fat_start_sector fs + num_fats fs * fat_size fs) ≤ data_addr c ∧
  cluster_to_sector fs c = data_start_sector fs + (c - 2) * sectors_per_cluster fs ∧
  0 ≤ cluster_to_sector fs c ∧ cluster_to_sector fs c + sectors_per_cluster fs ≤ bd_sectors d.
Proof.
  intros H Hc. pose proof (bd_bound d (fo_dev _ H)). pose proof (total_small d H). destruct (fo_cluster _ H) as [Hp _].
  destruct (fo_tables _ H) as (? & ? & ? & ?). pose proof (fo_data _ H). unfold valid_cluster in Hc.
  assert (0 ≤ num_fats fs * fat_size fs) by nia. assert (0 ≤ (c - 2) * sectors_per_cluster fs) by nia.
  assert ((c - 1) * sectors_per_cluster fs ≤ (total_clusters fs - 2) * sectors_per_cluster fs) by nia.
  unfold data_addr, cluster_to_sector. rewrite (u32_small (c - 2)) by lia. rewrite (u32_small (_ * _)) by lia. rewrite u32_small by lia.
  split_and!; lia.
Qed.

Lemma outside_same_data d d' : fs_ok d → outside_tables d d' → same_data d d'.
Proof.
  intros H Ho c Hc. apply bytes_ext. intros i Hi. apply Ho. right. pose proof (data_range d c H Hc). lia.
Qed.

Lemma read_cluster_spec d c buf :
  fs_ok d → valid_cluster c → zlen buf = cluster_size fs → fat32_read_cluster fs c buf d = Ret ((0, cluster d c), d).
Proof.
  intros H Hc Hb. destruct (data_range d c H Hc) as (_ & Hs & H1 & H2). destruct (fo_cluster _ H) as [Hp Hsz].
  unfold fat32_read_cluster. unfold valid_cluster in Hc. rewrite (proj2 (Z.ltb_ge c 2)), (proj2 (Z.leb_gt _ c)) by lia. cbn [orb].
  unfold fat_read_sectors. rewrite (proj2 (Z.eqb_neq _ 0) (fo_bdev _ H)).
  rewrite (bd_read_ok d _ (sectors_per_cluster fs) buf (fo_dev _ H)) by lia.
  rewrite drop_ge by lia. unfold cluster, data_addr. by rewrite app_nil_r, Hs, Hsz.
Qed.

Lemma read_cluster_invalid d c buf : ¬ valid_cluster c → fat32_read_cluster fs c buf d = Ret ((- EINVAL, buf), d).
Proof.
  intros Hc. unfold fat32_read_cluster, valid_cluster in *.
  destruct (Z.ltb_spec c 2), (Z.leb_spec (total_clusters fs) c); cbn [orb]; try done. lia.
Qed.

Lemma length_cluster d c : fs_ok d → zlen (cluster d c) = cluster_size fs.
Proof. intros H. apply length_bytes. destruct (fo_cluster _ H). lia. Qed.

Lemma cluster_is_byte d c : fs_ok d → Forall is_byte (cluster d c).
Proof. intros H. apply Forall_fmap, Forall_true. intros. apply bd_is_byte, H. Qed.

Lemma write_cluster_spec d c buf :
  fs_ok d → valid_cluster c → zlen buf = cluster_size fs → Forall is_byte buf →
  ∃ d', fat32_write_cluster fs c buf d = Ret (0, d') ∧ fs_ok d' ∧ same_links d d' ∧
    ∀ x, valid_cluster x → cluster d' x = if x =? c then buf else cluster d x.
Proof.
  intros H Hc Hb Hby. destruct (data_range d c H Hc) as (Ht & Hs & H1 & H2). destruct (fo_cluster _ H) as [Hp Hsz].
  unfold fat32_write_cluster. pose proof Hc as Hc'. unfold valid_cluster in Hc'. rewrite (proj2 (Z.ltb_ge c 2)), (proj2 (Z.leb_gt _ c)) by lia. cbn [orb].
  unfold fat_write_sectors. rewrite (proj2 (Z.eqb_neq _ 0) (fo_bdev _ H)).
  destruct (bd_write_ok d (cluster_to_sector fs c) (sectors_per_cluster fs) buf (fo_dev _ H)) as (d' & E & Hok & Hn & Ha); try done; try lia.
  rewrite Hs in Ha. exists d'. split; [done|]. assert (fs_ok d') as H' by (destruct H; split; try done; by rewrite Hn).
  assert (∀ a, bd_byte d' a = if (data_addr c <=? a) && (a <? data_addr c + cluster_size fs) then buf !!! Z.to_nat (a - data_addr c) else bd_byte d a) as Ha'.
  { intros a. rewrite Ha. unfold data_addr. rewrite Hsz.
    by replace (512 * (data_start_sector fs + (c - 2) * sectors_per_cluster fs + sectors_per_cluster fs))
      with (512 * (data_start_sector fs + (c - 2) * sectors_per_cluster fs) + 512 * sectors_per_cluster fs) by lia. }
  split_and!; [done | |].
  - intros x Hx. assert (∀ i, 0 ≤ i < 4 → bd_byte d' (entry_addr x + i) = bd_byte d (entry_addr x + i)) as He.
    { intros i Hi. rewrite Ha', (proj2 (Z.leb_gt _ _)); [done|]. destruct (fo_tables _ H) as (? & ? & ? & ?), (fo_table _ H).
      assert (fat_size fs ≤ num_fats fs * fat_size fs) by nia. unfold entry_addr. lia. }
    pose proof (He 0 ltac:(lia)) as He0. rewrite Z.add_0_r in He0. unfold link, entry. by rewrite He0, !He by lia.
  - intros x Hx. destruct (Z.eqb_spec x c) as [->|Hne].
    + apply list_eq. intros i. destruct (decide (Z.of_nat i < cluster_size fs)) as [Hi|Hi].
      * replace i with (Z.to_nat (Z.of_nat i)) at 1 by lia. unfold cluster. rewrite bytes_lookup, Ha' by lia.
        rewrite (proj2 (Z.leb_le _ _)), (proj2 (Z.ltb_lt _ _)) by lia. cbn [andb]. replace (data_addr c + Z.of_nat i - data_addr c) with (Z.of_nat i) by lia.
        rewrite Nat2Z.id. symmetry. apply list_lookup_lookup_total_lt. lia.
      * pose proof (length_cluster d' c H'). rewrite !lookup_ge_None_2 by lia. done.
    + apply bytes_ext. intros i Hi. rewrite Ha'. unfold data_addr in *. rewrite Hsz in *.
      destruct (Z.leb_spec (512 * (data_start_sector fs + (c - 2) * sectors_per_cluster fs)) (512 * (data_start_sector fs + (x - 2) * sectors_per_cluster fs) + i)),
        (Z.ltb_spec (512 * (data_start_sector fs + (x - 2) * sectors_per_cluster fs) + i)
           (512 * (data_start_sector fs + (c - 2) * sectors_per_cluster fs) + 512 * sectors_per_cluster fs)); cbn [andb]; try done.
      exfalso. assert (x < c ∨ c < x) as [?|?] by lia; nia.
Qed.

(** What is written to an entry of the table is what is read from it, up to the
    28 bits that a link has; every other entry and all data stay as they were. *)
Theorem fat32_fat_roundtrip d c v x :
  fs_ok d → valid_cluster c → valid_cluster x →
  ∃ d', (_ ← fat32_write_fat fs c v; fat32_read_fat fs x) d = Ret (if x =? c then v mod 2 ^ 28 else link d x, d') ∧
    fs_ok d' ∧ same_data d d'.
Proof.
  intros H Hc Hx. destruct (write_fat_spec d c v H Hc) as (d' & E & H' & Hl & Ho). exists d'.
  rewrite (bind_Ret _ _ _ _ _ E), read_fat_spec, Hl by (done || unfold valid_cluster in Hx; lia).
  change FAT32_MASK with (Z.ones 28). rewrite Z.land_ones by lia. split_and!; try done. by apply outside_same_data.
Qed.

(** ** Allocation *)

Lemma is_free_link d c : fat32_is_free_cluster (link d c) = (link d c =? 0).
Proof. unfold fat32_is_free_cluster. by rewrite mask_small by apply link_range. Qed.

(** Allocation takes the first free cluster of the volume, ends its chain there
    and changes no other entry and no data; it returns 0, with nothing changed,
    exactly when no cluster is free. *)
Lemma alloc_cluster_spec d :
  fs_ok d →
  ∃ c d', fat32_alloc_cluster fs d = Ret (c, d') ∧
    ((c = 0 ∧ d' = d ∧ ∀ x, valid_cluster x → link d x ≠ 0) ∨
     (valid_cluster c ∧ link d c = 0 ∧ (∀ x, 2 ≤ x < c → link d x ≠ 0) ∧ fs_ok d' ∧ same_data d d' ∧
      ∀ x, 0 ≤ x < total_clusters fs → link d' x = if x =? c then FAT32_EOC_MAX else link d x)).
Proof.
  intros H. unfold fat32_alloc_cluster. destruct (fo_table _ H) as [Ht _].
  assert (∀ j, 2 ≤ j < 2 + Z.of_nat (Z.to_nat (total_clusters fs - 2)) → valid_cluster j) as Hv by (unfold valid_cluster; lia).
  assert (∀ j, valid_cluster j → alloc_step fs j d =
    if link d j =? 0 then (_ ← fat32_write_fat fs j FAT32_EOC_MAX; mret (Some j)) d else Ret (None, d)) as Hstep.
  { intros j Hj. unfold alloc_step. rewrite (bind_Ret _ _ _ _ _ (read_fat_spec d j H Hj)), is_free_link. by destruct (link d j =? 0). }
  destruct (for_ret_first (λ c, link d c =? 0) (alloc_step fs) (Z.to_nat (total_clusters fs - 2)) 2 d) as [(c & Hc & Hl & Hk & E)|[Hn E]].
  { intros j Hj Hf. by rewrite Hstep, Hf by auto. }
  { intros j Hj Hf d'. rewrite Hstep, Hf by auto. destruct (write_fat_spec d j FAT32_EOC_MAX H (Hv j Hj)) as (d1 & E & _).
    by rewrite (bind_Ret _ _ _ _ _ E). }
  - rewrite Hstep, Hl in E by auto. destruct (write_fat_spec d c FAT32_EOC_MAX H (Hv c Hc)) as (d' & E' & H' & Hl' & Ho).
    rewrite (bind_Ret _ _ _ _ _ E') in E. exists c, d'. rewrite (bind_Ret _ _ _ _ _ E). split; [done|]. right.
    apply Z.eqb_eq in Hl. split_and!; try done; [by apply Hv.. | |by apply outside_same_data].
    intros x Hx. by apply Z.eqb_neq, Hk.
  - exists 0, d. rewrite (bind_Ret _ _ _ _ _ E). split; [done|]. left. split_and!; try done.
    intros x Hx. apply Z.eqb_neq, Hn. unfold valid_cluster in Hx. lia.
Qed.

(** ** Chains *)

(** [l] is the chain of clusters from [c] to an end mark. *)
Inductive chain d : Z → list Z → Prop :=
  | chain_last c : valid_cluster c → fat32_is_eoc (link d c) = true → chain d c [c]
  | chain_next c l : valid_cluster c → chain d (link d c) l → chain d c (c :: l).

Lemma chain_head d c l : chain d c l → valid_cluster c ∧ ∃ t, l = c :: t.
Proof. intros []; eauto. Qed.

Lemma chain_valid d c l x : chain d c l → x ∈ l → valid_cluster x.
Proof.
  induction 1 as [c Hc _|c l Hc _ IH]; [by intros ->%list_elem_of_singleton|]. intros [->|Hx]%elem_of_cons; [done | by apply IH].
Qed.

Lemma valid_not_end d c : fs_ok d → valid_cluster c → fat32_is_eoc c = false ∧ fat32_is_bad_cluster c = false.
Proof.
  intros H Hc. pose proof (total_small d H). unfold valid_cluster in Hc. unfold fat32_is_eoc, fat32_is_bad_cluster.
  rewrite mask_small by lia. split; [apply Z.leb_gt; lia | apply Z.eqb_neq; lia].
Qed.

Lemma chain_det d c l l' : fs_ok d → chain d c l → chain d c l' → l = l'.
Proof.
  intros H Hl. revert l'. induction Hl as [c Hc He|c l Hc Hl IH]; inversion 1 as [? _ He'|? t _ Ht]; subst; try done.
  - destruct (chain_head _ _ _ Ht) as [Hv _]. by rewrite (proj1 (valid_not_end d _ H Hv)) in He.
  - destruct (chain_head _ _ _ Hl) as [Hv _]. by rewrite (proj1 (valid_not_end d _ H Hv)) in He'.
  - f_equal. by apply IH.
Qed.

Lemma chain_suffix d c l x : chain d c l → x ∈ l → ∃ t, chain d x (x :: t) ∧ (length t < length l)%nat.
Proof.
  induction 1 as [c Hc He|c l Hc Hl IH].
  - intros ->%list_elem_of_singleton. exists []. split; [by constructor | cbn; lia].
  - intros [->|Hx]%elem_of_cons; [exists l; split; [by constructor | cbn; lia]|].
    destruct (IH Hx) as (t & ? & ?). exists t. split; [done | cbn; lia].
Qed.

Lemma chain_NoDup d c l : fs_ok d → chain d c l → NoDup l.
Proof.
  intros H. induction 1 as [c Hc He|c l Hc Hl IH]; [apply NoDup_singleton|]. constructor; [|done]. intros Hin.
  destruct (chain_suffix d _ l c Hl Hin) as (t & Ht & Hlt). pose proof (chain_det d c (c :: l) (c :: t) H ltac:(by constructor) Ht) as E.
  injection E as ->. lia.
Qed.

(** A chain depends on the entries of its clusters alone. *)
Lemma chain_frame d d' c l : (∀ x, x ∈ l → link d' x = link d x) → chain d c l → chain d' c l.
Proof.
  intros Hl Hc. induction Hc as [c Hc He|c l Hc Hch IH].
  - constructor; [done|]. by rewrite Hl by (by left).
  - constructor; [done|]. rewrite Hl by (by left). apply IH. intros x Hx. apply Hl. by right.
Qed.

(** ** Release *)

Definition used_clusters d : list Z := filter (λ c, link d c ≠ 0) (seqZ 2 (total_clusters fs - 2)).

(** The loop ends on any table, also one whose links run in a circle: each round
    frees a cluster in use, except for a last one that meets a free cluster. *)
Lemma free_loop_total fuel c d :
  fs_ok d → (length (used_clusters d) + 2 ≤ fuel)%nat →
  ∃ d', free_loop fuel fs c d = Ret (0, d') ∧ fs_ok d' ∧ same_data d d' ∧
    ∀ x, 0 ≤ x < total_clusters fs → link d' x = link d x ∨ link d' x = 0.
Proof.
  revert c d. induction fuel as [|fuel IH]; intros c d H Hf; [lia|]. cbn [free_loop].
  destruct (decide (valid_cluster c)) as [Hc|Hc].
  2:{ exists d. split_and!; try done; [|by left]. unfold valid_cluster in Hc.
      destruct (Z.leb_spec 2 c), (Z.ltb_spec c (total_clusters fs)); cbn [andb]; try done. lia. }
  pose proof Hc as Hc'. unfold valid_cluster in Hc'. rewrite (proj2 (Z.leb_le _ _)), (proj2 (Z.ltb_lt _ _)) by lia. cbn [andb].
  rewrite (bind_Ret _ _ _ _ _ (read_fat_spec d c H Hc)). destruct (write_fat_spec d c FAT32_FREE H Hc) as (d1 & E & H1 & Hl & Ho).
  rewrite (bind_Ret _ _ _ _ _ E). change (Z.land FAT32_FREE FAT32_MASK) with 0 in Hl. pose proof (outside_same_data d d1 H Ho) as Hd1.
  assert (∀ x, 0 ≤ x < total_clusters fs → link d1 x = link d x ∨ link d1 x = 0) as Hd by (intros x Hx; rewrite Hl by done; destruct (x =? c); auto).
  destruct (fat32_is_eoc (link d c) || fat32_is_bad_cluster (link d c)) eqn:Eend; [by exists d1|].
  destruct (decide (link d c = 0)) as [E0|E0].
  { rewrite E0. destruct fuel as [|fuel]; [lia|]. by exists d1. }
  destruct (IH (link d c) d1 H1) as (d2 & E2 & H2 & Hs2 & Hl2).
  { assert (length (used_clusters d1) < length (used_clusters d))%nat; [|lia]. apply (length_filter_lt _ _ _ c).
    - intros x Hx. apply elem_of_seqZ in Hx. rewrite Hl by lia. by destruct (x =? c).
    - apply elem_of_seqZ. lia.
    - done.
    - rewrite Hl, Z.eqb_refl by lia. auto. }
  exists d2. split_and!; try done.
  - intros x Hx. by rewrite Hs2, Hd1.
  - intros x Hx. destruct (Hl2 x Hx) as [->|]; [by apply Hd | by right].
Qed.

Lemma chain_length d c l : fs_ok d → chain d c l → Z.of_nat (length l) ≤ total_clusters fs - 2.
Proof.
  intros H Hl. pose proof (fo_table _ H). assert (l ⊆+ seqZ 2 (total_clusters fs - 2)) as Hs%submseteq_length.
  { apply NoDup_submseteq; [by apply (chain_NoDup d c)|]. intros x Hx. pose proof (chain_valid d c l x Hl Hx) as Hv.
    unfold valid_cluster in Hv. apply elem_of_seqZ. lia. }
  rewrite length_seqZ in Hs. lia.
Qed.

Lemma free_loop_chain fuel d c l :
  fs_ok d → chain d c l → (length l ≤ fuel)%nat →
  ∃ d', free_loop fuel fs c d = Ret (0, d') ∧ fs_ok d' ∧ same_data d d' ∧
    ∀ x, 0 ≤ x < total_clusters fs → link d' x = if bool_decide (x ∈ l) then 0 else link d x.
Proof.
  intros H Hl. revert d fuel H Hl. induction l as [|c0 l IH] in c |- *; intros d fuel H Hl Hf; [inversion Hl|].
  pose proof (chain_NoDup d c _ H Hl) as Hnd. destruct (chain_head _ _ _ Hl) as (Hc & t & [= <- <-]).
  destruct fuel as [|fuel]; [cbn in Hf; lia|]. cbn [free_loop]. pose proof Hc as Hc'. unfold valid_cluster in Hc'.
  rewrite (proj2 (Z.leb_le _ _)), (proj2 (Z.ltb_lt _ _)) by lia. cbn [andb]. rewrite (bind_Ret _ _ _ _ _ (read_fat_spec d c0 H Hc)).
  destruct (write_fat_spec d c0 FAT32_FREE H Hc) as (d1 & E & H1 & Hl1 & Ho). rewrite (bind_Ret _ _ _ _ _ E).
  change (Z.land FAT32_FREE FAT32_MASK) with 0 in Hl1. pose proof (outside_same_data d d1 H Ho) as Hd1. apply NoDup_cons in Hnd as [Hn _].
  inversion Hl as [? _ He|? ? _ Ht]; subst.
  - rewrite He. cbn [orb]. exists d1. split_and!; try done. intros x Hx. rewrite Hl1 by done.
    destruct (Z.eqb_spec x c0) as [->|]; [by rewrite bool_decide_true by (by left)|]. by rewrite bool_decide_false by set_solver.
  - destruct (valid_not_end d (link d c0) H) as [He Hb]; [by apply (chain_head d _ l)|]. rewrite He, Hb. cbn [orb].
    destruct (IH (link d c0) d1 fuel H1) as (d2 & E2 & H2 & Hs2 & Hl2); [|cbn in Hf; lia|].
    { apply (chain_frame d); [|done]. intros x Hx. pose proof (chain_valid d _ l x Ht Hx) as Hv. unfold valid_cluster in Hv.
      rewrite Hl1 by lia. by rewrite (proj2 (Z.eqb_neq x c0)) by (intros ->; done). }
    exists d2. split_and!; try done; [intros x Hx; by rewrite Hs2, Hd1|]. intros x Hx. rewrite Hl2, Hl1 by done.
    destruct (Z.eqb_spec x c0) as [->|Hne]; [rewrite (bool_decide_true (c0 ∈ c0 :: l)) by (by left); by destruct (bool_decide _)|].
    by rewrite (bool_decide_ext (x ∈ c0 :: l) (x ∈ l)) by set_solver.
Qed.

(** C22: Releasing clusters ends on every table, also a damaged one whose links form a
    circle, and never changes an entry to anything but free; on a chain it frees
    the clusters of the chain and no other.  The data stay on the disk. *)
Theorem fat32_free_cluster_correct d c :
  fs_ok d →
  ∃ d', fat32_free_cluster fs c d = Ret (0, d') ∧ fs_ok d' ∧ same_data d d' ∧
    (∀ x, 0 ≤ x < total_clusters fs → link d' x = link d x ∨ link d' x = 0) ∧
    ∀ l, chain d c l → ∀ x, 0 ≤ x < total_clusters fs → link d' x = if bool_decide (x ∈ l) then 0 else link d x.
Proof.
  intros H. pose proof (fo_table _ H). unfold fat32_free_cluster.
  destruct (free_loop_total (S (Z.to_nat (total_clusters fs))) c d H) as (d' & E & H' & Hs & Hl).
  { pose proof (length_filter_le (λ c, link d c ≠ 0) (λ _, True) (seqZ 2 (total_clusters fs - 2)) ltac:(done)) as Hle.
    rewrite (filter_all (λ _, True)), length_seqZ in Hle by done. unfold used_clusters. lia. }
  exists d'. split_and!; try done. intros l Hc. pose proof (chain_length d c l H Hc).
  destruct (free_loop_chain (S (Z.to_nat (total_clusters fs))) d c l H Hc) as (d2 & E2 & _ & _ & Hl2); [lia|].
  rewrite E in E2. by injection E2 as ->.
Qed.
End FatSpec.

(** ** Mounting *)

(** A boot sector that describes a volume of [n] sectors of 512 bytes: the tables
    have an entry for every cluster and the data area lies inside the volume. *)
Record geometry (n : Z) (bs : fat32_boot_sector) : Prop := {
  ge_sector : bs_bytes_per_sector bs = 512;
  ge_reserved : 0 ≤ bs_reserved_sectors bs;
  ge_cluster : 0 < bs_sectors_per_cluster bs;
  ge_tables : 0 < bs_fat_size_32 bs ∧ 0 < bs_num_fats bs;
  ge_data : bs_reserved_sectors bs + bs_num_fats bs * bs_fat_size_32 bs ≤ bs_total_sectors_32 bs ≤ n;
  ge_table : 4 * ((bs_total_sectors_32 bs - bs_reserved_sectors bs - bs_num_fats bs * bs_fat_size_32 bs) / bs_sectors_per_cluster bs + 2)
             ≤ 512 * bs_fat_size_32 bs;
}.

Section Mount.
Context {D : Type} `{!BlockDevice D}.
Implicit Types d : D.

Lemma geometry_fs_ok d bdev bs : bd_ok d → bdev ≠ 0 → geometry (bd_sectors d) bs → fs_ok (fs_of_boot_sector bdev bs) d.
Proof.
  intros Hd Hb [G1 G2 G3 [G4 G5] G6 G7]. pose proof (bd_bound d Hd) as Hbd. set (ds := bs_reserved_sectors bs + bs_num_fats bs * bs_fat_size_32 bs) in *.
  assert (0 ≤ bs_num_fats bs * bs_fat_size_32 bs) as Hm by nia.
  assert (u32 (bs_reserved_sectors bs + u32 (bs_num_fats bs * bs_fat_size_32 bs)) = ds) as Eds.
  { rewrite (u32_small (_ * _)) by (unfold ds in *; lia). apply u32_small. unfold ds in *. lia. }
  assert (u32 (bs_total_sectors_32 bs - ds) = bs_total_sectors_32 bs - ds) as Et by (apply u32_small; unfold ds in *; lia).
  set (k := (bs_total_sectors_32 bs - ds) / bs_sectors_per_cluster bs).
  assert (0 ≤ k ∧ bs_sectors_per_cluster bs * k ≤ bs_total_sectors_32 bs - ds) as [Hk Hk'].
  { split; [apply Z.div_pos; lia | apply Z.mul_div_le; lia]. }
  assert (k ≤ 2 ^ 23) as Hk2 by (unfold ds in *; nia).
  replace (bs_total_sectors_32 bs - bs_reserved_sectors bs - bs_num_fats bs * bs_fat_size_32 bs) with (bs_total_sectors_32 bs - ds) in G7 by (unfold ds; lia).
  split; cbn [bytes_per_sector sectors_per_cluster cluster_size num_fats fat_size total_clusters fat_start_sector data_start_sector fs_of_boot_sector Fat.bdev];
    try done; rewrite ?Eds, ?Et; fold k in G7 |- *; rewrite ?(u32_small (k + 2)) by lia; [by rewrite G1 | unfold ds; lia | lia | unfold ds in *; nia].
Qed.

(** Mounting accepts exactly the boot sectors that pass its checks; what it then
    records describes the volume, so that every operation of the file system can
    rely on it, when the boot sector does. *)
Theorem fat32_mount_correct d g bdev bs :
  bd_ok d → 0 < bd_sectors d → bdev ≠ 0 → boot_sector_of (bytes (bd_byte d) 0 512) = Some bs →
  ∃ r g', fat32_mount true bdev {| disk := d; g_fat32_fs := g |} = Ret (r, {| disk := d; g_fat32_fs := g' |}) ∧
    (r = 0 ↔ validate_boot_sector bs = true) ∧ (r ≠ 0 → r = - EINVAL ∧ g' = g) ∧
    (r = 0 → geometry (bd_sectors d) bs → ∃ fs, g' = Some fs ∧ fs_ok fs d ∧ root_cluster fs = bs_root_cluster bs).
Proof.
  intros Hd Hs Hb Hbs. unfold fat32_mount. cbn [negb].
  erewrite bind_Ret; [|apply (zoom_Ret disk with_disk); cbn [disk]; unfold fat_read_sectors; rewrite (proj2 (Z.eqb_neq _ 0) Hb);
    apply (bd_read_ok d 0 1 sector_buf Hd); (lia || done)]. cbv match. cbn [Z.ltb Z.compare]. rewrite drop_ge, app_nil_r by done.
  change (512 * 0) with 0. change (512 * 1) with 512. rewrite Hbs. rewrite bind_deref.
  destruct (validate_boot_sector bs) eqn:E; cbn [negb].
  - rewrite bind_modify. exists 0. eexists. split_and!; try done. intros _ Hg. eexists. split_and!; [done | by apply geometry_fs_ok | done].
  - exists (- EINVAL), g. split_and!; try done; lia.
Qed.
End Mount.

(** ** A volume *)

(** Three data clusters of one sector behind the boot sector and one table, on a RAM
    disk of five sectors; clusters 2 and 3 form a chain, cluster 4 is free. *)
Module Volume.
Definition boot : list Z :=
  replicate 11 0 ++ [0; 2; 1; 1; 0; 1] ++ replicate 15 0 ++ [5; 0; 0; 0; 1; 0; 0; 0] ++ replicate 4 0 ++ [2; 0; 0; 0] ++
  replicate 34 0 ++ fat32_type ++ replicate 423 0 ++ [0x55; 0xAA].
Definition table : list Z := replicate 8 0 ++ [3; 0; 0; 0; 255; 255; 255; 15] ++ replicate 496 0.
Definition rd : ramdisk_data := {| rd_data := boot ++ table ++ replicate 1536 7; rd_size := 2560 |}.
Definition bs : fat32_boot_sector :=
  {| bs_bytes_per_sector := 512; bs_sectors_per_cluster := 1; bs_reserved_sectors := 1; bs_num_fats := 1; bs_root_entry_count := 0;
     bs_total_sectors_16 := 0; bs_fat_size_16 := 0; bs_total_sectors_32 := 5; bs_fat_size_32 := 1; bs_root_cluster := 2;
     bs_fs_type := fat32_type ++ [0; 0; 0]; bs_boot_signature_end := 0xAA55 |}.
Definition fs : fat32_fs_info := fs_of_boot_sector 1 bs.

Lemma rd_ok : bd_ok rd.
Proof.
  split_and!; [reflexivity | | reflexivity | done]. cbn [rd_data rd]. unfold boot, table, fat32_type.
  rewrite !Forall_app. split_and!; try (by apply Forall_replicate); by repeat constructor.
Qed.

Lemma bs_geometry : geometry 5 bs.
Proof. by split. Qed.

Lemma volume_ok : fs_ok fs rd.
Proof. apply (geometry_fs_ok (D := ramdisk_data)); [apply rd_ok | done | apply bs_geometry]. Qed.

Lemma rd_chain : chain fs rd 2 [2; 3].
Proof. constructor; [by split|]. change (link fs rd 2) with 3. constructor; [by split | reflexivity]. Qed.
End Volume.

Lemma fat32_fat_roundtrip_witness :
  ∃ d', (_ ← fat32_write_fat Volume.fs 4 5; fat32_read_fat Volume.fs 4) Volume.rd = Ret (5, d') ∧ fs_ok Volume.fs d' ∧ same_data Volume.fs Volume.rd d'.
Proof. apply (fat32_fat_roundtrip Volume.fs Volume.rd 4 5 4 Volume.volume_ok); by split. Defined.

Lemma fat32_free_cluster_correct_witness :
  ∃ d', fat32_free_cluster Volume.fs 2 Volume.rd = Ret (0, d') ∧ link Volume.fs d' 2 = 0 ∧ link Volume.fs d' 3 = 0.
Proof.
  destruct (fat32_free_cluster_correct Volume.fs Volume.rd 2 Volume.volume_ok) as (d' & E & _ & _ & _ & Hl).
  exists d'. split_and!; [done | apply (Hl [2; 3] Volume.rd_chain 2); by split | apply (Hl [2; 3] Volume.rd_chain 3); by split].
Defined.

Lemma fat32_mount_correct_witness :
  ∃ fs, fat32_mount true 1 {| disk := Volume.rd; g_fat32_fs := None |} = Ret (0, {| disk := Volume.rd; g_fat32_fs := Some fs |}) ∧ fs_ok fs Volume.rd.
Proof.
  destruct (fat32_mount_correct Volume.rd None 1 Volume.bs Volume.rd_ok eq_refl ltac:(done) eq_refl) as (r & g & E & Hr & _ & Hg).
  rewrite (proj2 Hr eq_refl) in E, Hg. destruct (Hg eq_refl Volume.bs_geometry) as (fs & -> & Hfs & _). by exists fs.
Defined.
