(* ===== verification/FatFile.v ===== *)
(** * FAT32: reading and writing files (kernel/fs/fat32_file.c)

    The two file operations over the cluster chain of an open file, and that they
    are reading and overwriting of the file's bytes: the contents of the clusters
    of its chain, one after the other. *)

From S2P Require Import Prelude Bytes Errno Block Fat FatSpec.

#[local] Open Scope Z_scope.

Section Operations.
Context {D : Type} `{!BlockDevice D}.

(** The disk, and the open file: its position and the copy of its directory entry
    that [private_data] points to. *)
Record fat32_file := { fdisk : D; pos : Z; private_data : option fat32_dir_entry }.

Definition with_fdisk (d : D) (f : fat32_file) : fat32_file := {| fdisk := d; pos := pos f; private_data := private_data f |}.
Definition with_pos (p : Z) (f : fat32_file) : fat32_file := {| fdisk := fdisk f; pos := p; private_data := private_data f |}.
Definition with_entry (e : fat32_dir_entry) (f : fat32_file) : fat32_file := {| fdisk := fdisk f; pos := pos f; private_data := Some e |}.
Definition on_fdisk {A} (c : M D A) : M fat32_file A := zoom fdisk with_fdisk c.

Definition fat32_file_open : M fat32_file Z := _ ← modify (with_pos 0); mret 0.

Definition fat32_file_release : M fat32_file Z :=
  _ ← modify (λ f, {| fdisk := fdisk f; pos := pos f; private_data := None |}); mret 0.

(** [for (i = 0; i < n && !eoc(cluster); i++) cluster = next]: the cluster and the
    one before it. *)
Fixpoint skip_clusters (n : nat) (fs : fat32_fs_info) (prev cluster : Z) : M D (Z * Z) :=
  match n with
  | O => mret (prev, cluster)
  | S n =>
      if fat32_is_eoc cluster then mret (prev, cluster)
      else next ← fat32_read_fat fs cluster; skip_clusters n fs cluster next
  end.

(** The loop over the clusters that are read: what was read, or [-EIO]. *)
Fixpoint read_loop (fuel : nat) (fs : fat32_fs_info) (count bytes_read offset cluster : Z) (cluster_buf buf : list Z) :
    M D (Z * list Z) :=
  match fuel with
  | O => undef
  | S fuel =>
      if (bytes_read <? count) && negb (fat32_is_eoc cluster) then
        '(r, cluster_buf) ← fat32_read_cluster fs cluster cluster_buf;
        if r <? 0 then mret (- EIO, buf)
        else
          let to_read := cluster_size fs - offset in
          let to_read := if count - bytes_read <? to_read then count - bytes_read else to_read in
          data ← deref (slice offset to_read cluster_buf);
          next ← fat32_read_fat fs cluster;
          read_loop fuel fs count (bytes_read + to_read) 0 next cluster_buf (buf ++ data)
      else mret (bytes_read, buf)
  end.

Definition io_fuel (fs : fat32_fs_info) (count : Z) : nat := 3 + Z.to_nat (count / cluster_size fs).

(** [mem] is the buffer that [kmalloc] returns; the bytes copied to the caller's
    buffer are part of the result. *)
Definition fat32_file_read (fs : option fat32_fs_info) (mem : option (list Z)) (count : Z) : M fat32_file (Z * list Z) :=
  f ← get;
  match private_data f, fs with
  | Some entry, Some fs =>
      let cluster := fat32_get_first_cluster entry in
      let offset := pos f in
      if file_size entry <=? offset then mret (0, [])
      else
        let count := if file_size entry <? u32 (offset + count) then file_size entry - offset else count in
        '(_, cluster) ← on_fdisk (skip_clusters (Z.to_nat (offset / cluster_size fs)) fs 0 cluster);
        match mem with
        | None => mret (- ENOMEM, [])
        | Some cluster_buf =>
            '(bytes_read, buf) ← on_fdisk (read_loop (io_fuel fs count) fs count 0 (offset mod cluster_size fs) cluster cluster_buf []);
            if bytes_read <? 0 then mret (bytes_read, buf)
            else _ ← modify (with_pos (u32 (offset + bytes_read))); mret (bytes_read, buf)
        end
  | _, _ => mret (- EINVAL, [])
  end.

(** The loop over the clusters that are written: the number of bytes, or [-EIO]. *)
Fixpoint write_loop (fuel : nat) (fs : fat32_fs_info) (buf : list Z) (bytes_written offset cluster : Z) (cluster_buf : list Z) : M D Z :=
  match fuel with
  | O => undef
  | S fuel =>
      let count := zlen buf in
      if bytes_written <? count then
        cluster_buf ← (if (0 <? offset) || (count - bytes_written <? cluster_size fs - offset) then
                         '(_, b) ← fat32_read_cluster fs cluster cluster_buf; mret b
                       else mret cluster_buf);
        let to_write := cluster_size fs - offset in
        let to_write := if count - bytes_written <? to_write then count - bytes_written else to_write in
        data ← deref (slice bytes_written to_write buf);
        cluster_buf ← deref (splice offset data cluster_buf);
        r ← fat32_write_cluster fs cluster cluster_buf;
        if r <? 0 then mret (- EIO)
        else
          let bytes_written := bytes_written + to_write in
          if bytes_written <? count then
            next ← fat32_read_fat fs cluster;
            if fat32_is_eoc next then
              next ← fat32_alloc_cluster fs;
              if next =? 0 then mret bytes_written
              else _ ← fat32_write_fat fs cluster next; write_loop fuel fs buf bytes_written 0 next cluster_buf
            else write_loop fuel fs buf bytes_written 0 next cluster_buf
          else write_loop fuel fs buf bytes_written 0 cluster cluster_buf
      else mret bytes_written
  end.

Definition fat32_file_write (fs : option fat32_fs_info) (mem : option (list Z)) (buf : list Z) : M fat32_file Z :=
  f ← get;
  match private_data f, fs with
  | Some entry, Some fs =>
      let count := zlen buf in
      let offset := pos f in
      '(entry, cluster) ←
        (let cluster := fat32_get_first_cluster entry in
         if cluster =? 0 then
           cluster ← on_fdisk (fat32_alloc_cluster fs);
           mret (if cluster =? 0 then entry else fat32_set_first_cluster cluster entry, cluster)
         else mret (entry, cluster));
      if cluster =? 0 then mret (- ENOSPC)
      else
        _ ← modify (with_entry entry);
        let cluster_offset := offset / cluster_size fs in
        '(prev_cluster, cluster) ← on_fdisk (skip_clusters (Z.to_nat cluster_offset) fs 0 cluster);
        cluster ← on_fdisk
          (if fat32_is_eoc cluster && (0 <? cluster_offset) then
             cluster ← fat32_alloc_cluster fs;
             if cluster =? 0 then mret None
             else
               _ ← (if 0 <? prev_cluster then _ ← fat32_write_fat fs prev_cluster cluster; mret tt else mret tt);
               mret (Some cluster)
           else mret (Some cluster));
        match cluster, mem with
        | None, _ => mret (- ENOSPC)
        | Some _, None => mret (- ENOMEM)
        | Some cluster, Some cluster_buf =>
            bytes_written ← on_fdisk (write_loop (io_fuel fs count) fs buf 0 (offset mod cluster_size fs) cluster cluster_buf);
            if bytes_written <? 0 then mret bytes_written
            else
              _ ← (if file_size entry <? u32 (offset + bytes_written) then
                     modify (with_entry (set_file_size (u32 (offset + bytes_written)) entry))
                   else mret tt);
              _ ← modify (with_pos (u32 (offset + bytes_written)));
              mret bytes_written
        end
  | _, _ => mret (- EINVAL)
  end.
End Operations.
Arguments fat32_file : clear implicits.

(** ** The bytes of a file *)

Section Content.
Context {D : Type} `{!BlockDevice D} (fs : fat32_fs_info).
Implicit Types d : D.

Definition content d (l : list Z) : list Z := concat (cluster fs d <$> l).

Lemma length_content d l : fs_ok fs d → zlen (content d l) = zlen l * cluster_size fs.
Proof.
  intros H. unfold content. induction l as [|c l IH]; [done|]. cbn [fmap list_fmap concat length].
  rewrite length_app. pose proof (length_cluster fs d c H). lia.
Qed.

Lemma content_cons d c l : content d (c :: l) = cluster fs d c ++ content d l.
Proof. done. Qed.

Lemma content_same d d' l : (∀ x, x ∈ l → cluster fs d' x = cluster fs d x) → content d' l = content d l.
Proof. intros H. unfold content. f_equal. apply list_fmap_ext. intros i x Hx. apply H. by eapply list_elem_of_lookup_2. Qed.

Lemma cluster_size_pos d : fs_ok fs d → 0 < cluster_size fs.
Proof. intros H. destruct (fo_cluster _ _ H). lia. Qed.

(** ** Skipping *)

Lemma chain_nth d c l n x : chain fs d c l → l !! n = Some x → chain fs d x (drop n l).
Proof.
  intros Hl. revert n. induction Hl as [c Hc He|c l Hc Hl IH]; intros [|n] Hn; simplify_eq/=; try (by constructor).
  by apply IH.
Qed.

(** Skipping inside the chain. *)
Lemma skip_inside d p c l n x :
  fs_ok fs d → chain fs d c l → l !! n = Some x → ∃ p', skip_clusters n fs p c d = Ret ((p', x), d).
Proof.
  intros H Hl. revert p n. induction Hl as [c Hc He|c l Hc Hl IH]; intros p [|n] Hn; simplify_eq/=; try (by eexists).
  destruct (valid_not_end fs d c H Hc) as [-> _]. rewrite (bind_Ret _ _ _ _ _ (read_fat_spec fs d c H Hc)). by apply IH.
Qed.

(** Skipping the whole chain: the end mark, and the last cluster. *)
Lemma skip_all d p c l :
  fs_ok fs d → chain fs d c l →
  ∃ e x, skip_clusters (length l) fs p c d = Ret ((x, e), d) ∧ fat32_is_eoc e = true ∧ last l = Some x.
Proof.
  intros H Hl. revert p. induction Hl as [c Hc He|c l Hc Hl IH]; intros p; cbn.
  - destruct (valid_not_end fs d c H Hc) as [-> _]. rewrite (bind_Ret _ _ _ _ _ (read_fat_spec fs d c H Hc)). by exists (link fs d c), c.
  - destruct (valid_not_end fs d c H Hc) as [-> _]. rewrite (bind_Ret _ _ _ _ _ (read_fat_spec fs d c H Hc)).
    destruct (IH c) as (e & x & E & He & Hx). exists e, x. split_and!; try done. destruct l; [by inversion Hl | done].
Qed.

(** ** Reading *)

Lemma read_loop_spec fuel d c l count br off cbuf out :
  fs_ok fs d → chain fs d c l → 0 ≤ off < cluster_size fs → zlen cbuf = cluster_size fs → 0 ≤ br ≤ count →
  off + (count - br) ≤ zlen (content d l) → off + (count - br) ≤ cluster_size fs * (Z.of_nat fuel - 1) →
  read_loop fuel fs count br off c cbuf out d =
  Ret ((count, out ++ take (Z.to_nat (count - br)) (drop (Z.to_nat off) (content d l))), d).
Proof.
  intros H Hl. pose proof (cluster_size_pos d H) as Hcs.
  revert fuel br off cbuf out. induction Hl as [c Hc He|c l Hc Hl IH]; intros [|fuel] br off cbuf out Hoff Hcb Hbr Hle Hf; try nia;
    cbn [read_loop]; destruct (Z.ltb_spec br count) as [Hlt|Hge]; cbn [andb].
  2,4: assert (br = count) as -> by lia; rewrite Z.sub_diag, take_0, app_nil_r; done.
  all: destruct (valid_not_end fs d c H Hc) as [-> _]; cbn [negb];
    rewrite (bind_Ret _ _ _ _ _ (read_cluster_spec fs d c cbuf H Hc Hcb)); cbn [Z.ltb Z.compare]; cbv zeta;
    pose proof (length_cluster fs d c H) as Hlc; cbn [content fmap list_fmap concat] in Hle |- *; rewrite length_app in Hle.
  - cbn [length] in Hle. destruct (Z.ltb_spec (count - br) (cluster_size fs - off)) as [Hs|Hs];
      [|assert (cluster_size fs - off = count - br) as -> by lia];
      rewrite slice_take by lia; rewrite bind_deref, (bind_Ret _ _ _ _ _ (read_fat_spec fs d c H Hc)), app_nil_r;
      (destruct fuel as [|fuel]; [nia|]); cbn [read_loop]; rewrite (proj2 (Z.ltb_ge _ count)) by lia; cbn [andb];
      by replace (br + (count - br)) with count by lia.
  - destruct (Z.ltb_spec (count - br) (cluster_size fs - off)) as [Hs|Hs].
    + rewrite slice_take by lia. rewrite bind_deref, (bind_Ret _ _ _ _ _ (read_fat_spec fs d c H Hc)).
      rewrite drop_app_le, take_app_le by (rewrite ?length_drop; lia).
      destruct fuel as [|fuel]; [nia|]. cbn [read_loop]. rewrite (proj2 (Z.ltb_ge _ count)) by lia. cbn [andb].
      by replace (br + (count - br)) with count by lia.
    + rewrite slice_take by lia. rewrite bind_deref, (bind_Ret _ _ _ _ _ (read_fat_spec fs d c H Hc)).
      rewrite IH by (fold (content d l) in Hle; (done || lia || nia)). f_equal. f_equal. f_equal. rewrite drop_0, <- app_assoc. f_equal.
      rewrite drop_app_le by lia. rewrite (take_ge (drop _ _)) by (rewrite length_drop; lia).
      rewrite (take_app_ge (drop _ _)) by (rewrite length_drop; lia). f_equal. rewrite length_drop. fold (content d l). f_equal. lia.
Qed.
(** An open file: its entry, and the chain of its clusters, none for an empty file
    that was never written. *)
Definition file_ok d (e : fat32_dir_entry) (l : list Z) : Prop :=
  (fat32_get_first_cluster e = 0 ∧ l = [] ∨ chain fs d (fat32_get_first_cluster e) l) ∧
  0 ≤ file_size e < 2 ^ 32 ∧ file_size e ≤ zlen (content d l).

Lemma on_fdisk_Ret {A} (c : M D A) (f : fat32_file D) a d : c (fdisk f) = Ret (a, d) → on_fdisk c f = Ret (a, with_fdisk d f).
Proof. apply (zoom_Ret fdisk with_fdisk c). Qed.

Lemma content_nth d l n x :
  fs_ok fs d → l !! n = Some x → ∀ off, drop (Z.to_nat (Z.of_nat n * cluster_size fs) + off) (content d l) = drop off (content d (drop n l)).
Proof.
  intros H. revert n. induction l as [|c l IH]; intros [|n] Hn off; simplify_eq/=; [done|].
  pose proof (length_cluster fs d c H) as Hlc. pose proof (cluster_size_pos d H).
  unfold content. cbn [fmap list_fmap concat]. replace (Z.to_nat (Z.of_nat (S n) * cluster_size fs) + off)%nat
    with (length (cluster fs d c) + (Z.to_nat (Z.of_nat n * cluster_size fs) + off))%nat by nia.
  rewrite drop_app_add. by apply IH.
Qed.

(** Reading inside a file. *)
Lemma file_read_spec d p e l count cluster_buf :
  fs_ok fs d → file_ok d e l → 0 ≤ p → 0 ≤ count → p + count < 2 ^ 32 → zlen cluster_buf = cluster_size fs →
  let n := if file_size e <=? p then 0 else Z.min count (file_size e - p) in
  fat32_file_read (Some fs) (Some cluster_buf) count {| fdisk := d; pos := p; private_data := Some e |} =
  Ret ((n, take (Z.to_nat n) (drop (Z.to_nat p) (content d l))), {| fdisk := d; pos := p + n; private_data := Some e |}).
Proof.
  intros H [Hch [Hsz Hlen]] Hp Hc Hpc Hcb. cbv zeta. unfold fat32_file_read. rewrite bind_get. cbn [private_data pos].
  destruct (Z.leb_spec (file_size e) p) as [Hend|Hin]; [by rewrite Z.add_0_r|]. cbv zeta. rewrite (u32_small (p + count)) by lia.
  pose proof (cluster_size_pos d H) as Hcs. destruct Hch as [[_ ->]|Hch]; [cbn in Hlen; lia|].
  set (n := Z.min count (file_size e - p)). assert ((if file_size e <? p + count then file_size e - p else count) = n) as ->.
  { unfold n. destruct (Z.ltb_spec (file_size e) (p + count)); lia. }
  pose proof (length_content d l H) as Hlc. assert (p / cluster_size fs < zlen l) as Hk by (apply Z.div_lt_upper_bound; lia).
  assert (0 ≤ p / cluster_size fs) as Hk0 by (apply Z.div_pos; lia).
  destruct (lookup_lt_is_Some_2 l (Z.to_nat (p / cluster_size fs))) as [x Hx]; [lia|].
  destruct (skip_inside d 0 _ l _ x H Hch Hx) as (p' & Es). erewrite bind_Ret; [|apply on_fdisk_Ret; exact Es]. cbv match.
  pose proof (chain_nth d _ l _ x Hch Hx) as Hx'. pose proof (Z.mod_pos_bound p (cluster_size fs) Hcs) as Hm.
  pose proof (Z.div_mod p (cluster_size fs) ltac:(lia)) as Hdm. pose proof (length_content d (drop (Z.to_nat (p / cluster_size fs)) l) H) as Hlc'.
  rewrite length_drop in Hlc'. assert (0 ≤ n ≤ file_size e - p) as Hn by (unfold n; lia).
  assert (read_loop (io_fuel fs n) fs n 0 (p mod cluster_size fs) x cluster_buf [] d =
    Ret ((n, [] ++ take (Z.to_nat (n - 0)) (drop (Z.to_nat (p mod cluster_size fs)) (content d (drop (Z.to_nat (p / cluster_size fs)) l)))), d)) as Er.
  { apply read_loop_spec; try done; [lia| |].
    - rewrite Hlc'. replace (Z.of_nat (length l - Z.to_nat (p / cluster_size fs))) with (zlen l - p / cluster_size fs) by lia.
      rewrite Z.mul_sub_distr_r. lia.
    - unfold io_fuel. pose proof (Z.div_mod n (cluster_size fs) ltac:(lia)). pose proof (Z.mod_pos_bound n (cluster_size fs) Hcs).
      assert (0 ≤ n / cluster_size fs) by (apply Z.div_pos; lia). nia. }
  erewrite bind_Ret; [|apply on_fdisk_Ret; exact Er]. cbv match. rewrite (proj2 (Z.ltb_ge n 0)) by lia. rewrite bind_modify, mret_eq.
  unfold with_pos, with_fdisk. cbn [fdisk private_data pos]. rewrite u32_small by lia. rewrite Z.sub_0_r, app_nil_l.
  rewrite <- (content_nth d l _ x H Hx). do 5 f_equal. rewrite Z2Nat.id by lia. rewrite <- Z2Nat.inj_add by nia. f_equal. lia.
Qed.

(** Reading a file returns its bytes from the current position on, as many as
    asked for and as the file has, and advances the position by that much; the
    disk is not changed. *)
Theorem fat32_file_read_correct d p e l count cluster_buf :
  fs_ok fs d → file_ok d e l → 0 ≤ p → 0 ≤ count → p + count < 2 ^ 32 → zlen cluster_buf = cluster_size fs →
  let n := if file_size e <=? p then 0 else Z.min count (file_size e - p) in
  fat32_file_read (Some fs) (Some cluster_buf) count {| fdisk := d; pos := p; private_data := Some e |} =
  Ret ((n, take (Z.to_nat n) (drop (Z.to_nat p) (content d l))), {| fdisk := d; pos := p + n; private_data := Some e |}).
Proof. apply file_read_spec. Qed.
(** ** Writing *)

(** Of the bytes [w], [n] were written from offset [off] of the cluster [c] on, whose
    chain [c :: t] has become [c :: t'].  The new clusters were free; no other
    cluster has changed; bytes are left over only when the volume is full. *)
Record wrote d d' (c : Z) (t w : list Z) (off n : Z) (t' : list Z) : Prop := {
  wr_ok : fs_ok fs d';
  wr_chain : chain fs d' c (c :: t');
  wr_prefix : t `prefix_of` t';
  wr_content : content d' (c :: t') = over (Z.to_nat off) (take (Z.to_nat n) w) (content d (c :: t'));
  wr_new : ∀ x, x ∈ t' → x ∉ t → link fs d x = 0;
  wr_frame : ∀ x, valid_cluster fs x → x ∉ c :: t' → link fs d' x = link fs d x ∧ cluster fs d' x = cluster fs d x;
  wr_count : 0 ≤ n ≤ zlen w;
  wr_full : n < zlen w → ∀ x, valid_cluster fs x → link fs d' x ≠ 0;
}.

Lemma wrote_nothing d c t w off : fs_ok fs d → chain fs d c (c :: t) → zlen w = 0 → wrote d d c t w off 0 t.
Proof.
  intros H Hl Hw. split; try done; [by rewrite take_0, over_nil | lia | lia].
Qed.

(** The clusters of [d] with the contents of [c] replaced by [nb]. *)
Definition filled_in d d1 (c : Z) (nb : list Z) : Prop :=
  ∀ x, valid_cluster fs x → cluster fs d1 x = if x =? c then nb else cluster fs d x.

Lemma content_filled d d1 c nb l :
  filled_in d d1 c nb → (∀ x, x ∈ l → valid_cluster fs x) → c ∉ l → content d1 l = content d l.
Proof.
  intros Hf Hv Hc. apply content_same. intros x Hx. rewrite Hf by auto. by rewrite (proj2 (Z.eqb_neq x c)) by (intros ->; done).
Qed.

(** Everything fits into the first cluster. *)
Lemma wrote_here d d1 c t w off nb :
  fs_ok fs d → fs_ok fs d1 → chain fs d c (c :: t) → same_links fs d d1 → filled_in d d1 c nb →
  0 ≤ off → off + zlen w ≤ cluster_size fs → nb = over (Z.to_nat off) w (cluster fs d c) → wrote d d1 c t w off (zlen w) t.
Proof.
  intros H H1 Hl Hsl Hf Ho Hw ->. pose proof (chain_NoDup fs d c _ H Hl) as [Hn _]%NoDup_cons.
  destruct (chain_head _ _ _ _ Hl) as [Hc _]. assert (∀ x, x ∈ t → valid_cluster fs x) as Hv.
  { intros x Hx. apply (chain_valid fs d c _ x Hl). by right. }
  pose proof (length_cluster fs d c H) as Hlc. split; try done.
  - apply (chain_frame fs d); [|done]. intros x Hx. apply Hsl. pose proof (chain_valid fs d c _ x Hl Hx) as Hx'. unfold valid_cluster in Hx'. lia.
  - rewrite !content_cons, (content_filled d d1 c _ t Hf Hv Hn).
    rewrite Hf, Z.eqb_refl by done. rewrite over_app_l; rewrite take_ge by lia; [done | lia].
  - intros x Hx Hnx. split; [apply Hsl; unfold valid_cluster in Hx; lia|]. rewrite Hf by done.
    by rewrite (proj2 (Z.eqb_neq x c)) by (intros ->; apply Hnx; left).
  - lia.
  - lia.
Qed.

(** The first cluster is filled to its end, and the rest goes to the following ones. *)
Lemma wrote_more d d1 d' c c2 t t2 w off n2 t2' :
  fs_ok fs d → valid_cluster fs c → valid_cluster fs c2 → 0 ≤ off → 
  let k := cluster_size fs - off in
  0 ≤ k ≤ zlen w → (t = [] ∨ t = c2 :: t2) → t2 = tail t → (t = [] → link fs d c2 = 0) →
  c ∉ c2 :: t2 → link fs d1 c = c2 →
  (∀ x, valid_cluster fs x → x ≠ c → x ≠ c2 → link fs d1 x = link fs d x) →
  filled_in d d1 c (over (Z.to_nat off) (take (Z.to_nat k) w) (cluster fs d c)) →
  wrote d1 d' c2 t2 (drop (Z.to_nat k) w) 0 n2 t2' → wrote d d' c t w off (k + n2) (c2 :: t2').
Proof.
  intros H Hc Hc2 Ho k Hk Ht Ht2 Hfree Hnot Hl1 Hsl Hf [W1 W2 W3 W4 W5 W6 W7 W8].
  assert (∀ x, x ∈ c2 :: t2' → valid_cluster fs x) as Hv by (intros x Hx; by apply (chain_valid fs d' c2 _ x W2)).
  assert (c2 ≠ 0) as Hnz by (unfold valid_cluster in Hc2; lia).
  assert (c ∉ c2 :: t2') as Hn.
  { intros [->|Hx]%elem_of_cons; [apply Hnot; left|]. assert (c ∉ t2) as Hnt by set_solver. specialize (W5 c Hx Hnt). congruence. }
  destruct (W6 c Hc Hn) as [Hlc Hcc]. pose proof (length_cluster fs d c H) as Hlen. rewrite length_drop in W7.
  rewrite length_drop in W8. split; try done.
  - constructor; [done|]. by rewrite Hlc, Hl1.
  - destruct Ht as [->| ->]; [apply prefix_nil | by apply prefix_cons].
  - rewrite !(content_cons _ c), W4, Hcc, Hf, Z.eqb_refl by done. rewrite (content_filled d d1 c _ (c2 :: t2') Hf Hv Hn).
    rewrite <- over_app by (rewrite length_take; lia). f_equal. rewrite take_take_drop. f_equal. lia.
  - intros x [->|Hx]%elem_of_cons Hnx; [destruct Ht as [->| ->]; [by apply Hfree | exfalso; apply Hnx; left]|].
    destruct (decide (x ∈ t2)) as [Hin|Hnin]; [destruct Ht as [->| ->]; [by rewrite Ht2 in Hin | exfalso; apply Hnx; by right]|].
    specialize (W5 x Hx Hnin). rewrite <- Hsl; [done | apply Hv; by right | intros ->; apply Hn; by right |].
    intros ->. pose proof (chain_NoDup fs d' c2 _ W1 W2) as [Hnd _]%NoDup_cons. done.
  - intros x Hx Hnx. destruct (W6 x Hx) as [E1 E2]; [set_solver|]. rewrite E1, E2, Hsl, Hf by (done || set_solver).
    by rewrite (proj2 (Z.eqb_neq x c)) by set_solver.
  - lia.
  - intros Hlt. apply W8. lia.
Qed.
(** One round of the loop: the cluster gets its part of the data. *)
Lemma write_round d c buf bw off cbuf :
  fs_ok fs d → valid_cluster fs c → 0 ≤ off < cluster_size fs → zlen cbuf = cluster_size fs → Forall is_byte buf →
  0 ≤ bw < zlen buf →
  let k := Z.min (cluster_size fs - off) (zlen buf - bw) in
  let nb := over (Z.to_nat off) (take (Z.to_nat k) (drop (Z.to_nat bw) buf)) (cluster fs d c) in
  ∃ d1, fs_ok fs d1 ∧ same_links fs d d1 ∧ filled_in d d1 c nb ∧ zlen nb = cluster_size fs ∧
    ∀ (h : Z → list Z → M D Z),
      (cluster_buf ← (if (0 <? off) || (zlen buf - bw <? cluster_size fs - off) then
                        '(_, b) ← fat32_read_cluster fs c cbuf; mret b
                      else mret cbuf);
       let to_write := cluster_size fs - off in
       let to_write := if zlen buf - bw <? to_write then zlen buf - bw else to_write in
       data ← deref (slice bw to_write buf);
       cluster_buf ← deref (splice off data cluster_buf);
       r ← fat32_write_cluster fs c cluster_buf;
       if r <? 0 then mret (- EIO) else h to_write cluster_buf) d = h k nb d1.
Proof.
  intros H Hc Ho Hcb Hby Hbw k nb. pose proof (length_cluster fs d c H) as Hlc.
  assert (length (take (Z.to_nat k) (drop (Z.to_nat bw) buf)) = Z.to_nat k) as Hk by (rewrite length_take, length_drop; lia).
  assert (zlen nb = cluster_size fs) as Hnb by (unfold nb; rewrite length_over; lia).
  assert (Forall is_byte nb) as Hnby by (apply over_Forall; [by apply Forall_take, Forall_drop | by apply cluster_is_byte]).
  destruct (write_cluster_spec fs d c nb H Hc Hnb Hnby) as (d1 & E & H1 & Hl1 & Hd1). exists d1. split_and!; try done. intros h.
  assert ((if zlen buf - bw <? cluster_size fs - off then zlen buf - bw else cluster_size fs - off) = k) as Hkk.
  { unfold k. destruct (Z.ltb_spec (zlen buf - bw) (cluster_size fs - off)); lia. }
  cbv zeta. rewrite Hkk.
  assert (∃ b, (if (0 <? off) || (zlen buf - bw <? cluster_size fs - off) then
                  '(_, b) ← fat32_read_cluster fs c cbuf; mret b
                else mret cbuf) d = Ret (b, d) ∧ zlen b = cluster_size fs ∧
               over (Z.to_nat off) (take (Z.to_nat k) (drop (Z.to_nat bw) buf)) b = nb) as (b & Eb & Hb & Hob).
  { destruct (Z.ltb_spec 0 off); cbn [orb].
    - exists (cluster fs d c). by rewrite (bind_Ret _ _ _ _ _ (read_cluster_spec fs d c cbuf H Hc Hcb)).
    - destruct (Z.ltb_spec (zlen buf - bw) (cluster_size fs - off)).
      + exists (cluster fs d c). by rewrite (bind_Ret _ _ _ _ _ (read_cluster_spec fs d c cbuf H Hc Hcb)).
      + exists cbuf. split_and!; try done. assert (off = 0) as -> by lia. unfold nb. rewrite !over_whole; [done | lia | lia]. }
  rewrite (bind_Ret _ _ _ _ _ Eb), slice_take by lia. rewrite bind_deref.
  rewrite splice_over by lia. rewrite bind_deref, Hob, (bind_Ret _ _ _ _ _ E). done.
Qed.
Lemma write_loop_spec fuel d c t buf bw off cbuf :
  fs_ok fs d → chain fs d c (c :: t) → 0 ≤ off < cluster_size fs → zlen cbuf = cluster_size fs → Forall is_byte buf →
  0 ≤ bw ≤ zlen buf → off + (zlen buf - bw) ≤ cluster_size fs * (Z.of_nat fuel - 1) → 1 ≤ Z.of_nat fuel →
  ∃ n d' t', write_loop fuel fs buf bw off c cbuf d = Ret (bw + n, d') ∧ wrote d d' c t (drop (Z.to_nat bw) buf) off n t'.
Proof.
  revert d c t bw off cbuf. induction fuel as [|fuel IH]; intros d c t bw off cbuf H Hl Ho Hcb Hby Hbw Hf Hf1; [lia|].
  cbn [write_loop]. cbv zeta. destruct (chain_head _ _ _ _ Hl) as [Hc _]. pose proof (chain_NoDup fs d c _ H Hl) as [Hnd _]%NoDup_cons.
  destruct (Z.ltb_spec bw (zlen buf)) as [Hlt|Hge].
  2:{ exists 0, d, t. rewrite Z.add_0_r. split; [done|]. apply wrote_nothing; try done. rewrite length_drop. lia. }
  destruct (write_round d c buf bw off cbuf H Hc Ho Hcb Hby ltac:(lia)) as (d1 & H1 & Hl1 & Hf1' & Hnb & E).
  set (k := Z.min _ _) in *. set (nb := over _ _ _) in *. rewrite (E (λ k nb,
    if bw + k <? zlen buf then
      next ← fat32_read_fat fs c;
      if fat32_is_eoc next then
        next ← fat32_alloc_cluster fs;
        if next =? 0 then mret (bw + k)
        else _ ← fat32_write_fat fs c next; write_loop fuel fs buf (bw + k) 0 next nb
      else write_loop fuel fs buf (bw + k) 0 next nb
    else write_loop fuel fs buf (bw + k) 0 c nb)). clear E.
  assert (zlen (drop (Z.to_nat bw) buf) = zlen buf - bw) as Hrest by (rewrite length_drop; lia).
  destruct (Z.ltb_spec (bw + k) (zlen buf)) as [Hmore|Hdone].
  2:{ destruct fuel as [|fuel]; [nia|]. cbn [write_loop]. cbv zeta. rewrite (proj2 (Z.ltb_ge _ _) Hdone).
      exists (zlen (drop (Z.to_nat bw) buf)), d1, t. split; [by replace (bw + k) with (bw + zlen (drop (Z.to_nat bw) buf)) by lia|].
      eapply wrote_here; try done; [lia | lia|]. unfold nb. by rewrite take_ge by lia. }
  assert (k = cluster_size fs - off) as Hk by lia. rewrite (bind_Ret _ _ _ _ _ (read_fat_spec fs d1 c H1 Hc)).
  assert (link fs d1 c = link fs d c) as Hlc by (apply Hl1; unfold valid_cluster in Hc; lia). rewrite Hlc.
  assert (drop (Z.to_nat (bw + k)) buf = drop (Z.to_nat k) (drop (Z.to_nat bw) buf)) as Hdrop by (rewrite drop_drop; f_equal; lia).
  inversion Hl as [? _ He|? ? _ Ht]; subst.
  - rewrite He. destruct (alloc_cluster_spec fs d1 H1) as (c2 & d2 & E2 & [(-> & -> & Hfull)|(Hc2 & Hz & _ & H2 & Hd2 & Hl2)]);
      rewrite (bind_Ret _ _ _ _ _ E2).
    + exists k, d1, []. split; [done|].
      pose proof (wrote_here d d1 c [] (take (Z.to_nat k) (drop (Z.to_nat bw) buf)) off nb H H1 Hl Hl1 Hf1' ltac:(lia)) as W.
      assert (zlen (take (Z.to_nat k) (drop (Z.to_nat bw) buf)) = k) as Hkl by (rewrite length_take; lia). rewrite Hkl in W.
      destruct (W ltac:(lia) eq_refl) as [W1 W2 W3 W4 W5 W6 W7 W8]. split; try done; [|lia].
      rewrite W4. f_equal. by rewrite take_take, Nat.min_id.
    + assert (c2 ≠ c) as Hne by (intros ->; rewrite Hlc in Hz; rewrite Hz in He; done).
      rewrite (proj2 (Z.eqb_neq c2 0)) by (unfold valid_cluster in Hc2; lia).
      destruct (write_fat_spec fs d2 c c2 H2 Hc) as (d3 & E3 & H3 & Hl3 & Ho3). rewrite (bind_Ret _ _ _ _ _ E3).
      pose proof (outside_same_data fs d2 d3 H2 Ho3) as Hd3. pose proof (total_small fs d H) as Hts.
      assert (∀ x, valid_cluster fs x → link fs d3 x = if x =? c then c2 else if x =? c2 then FAT32_EOC_MAX else link fs d x) as Hl'.
      { intros x Hx. unfold valid_cluster in Hx, Hc2. rewrite Hl3, Hl2, Hl1 by lia. rewrite mask_small by lia. done. }
      destruct (IH d3 c2 [] (bw + k) 0 nb H3) as (n2 & d' & t2' & E' & W); try done; try lia.
      { constructor; [done|]. by rewrite Hl', (proj2 (Z.eqb_neq c2 c)), Z.eqb_refl by done. }
      exists (k + n2), d', (c2 :: t2'). rewrite E'. split; [do 2 f_equal; lia|]. rewrite Hdrop in W. rewrite Hk in W |- *.
      eapply (wrote_more d d3 d' c c2 [] []); try done; try lia; [by left | | set_solver | | |].
      * intros _. rewrite <- Hl1; [done|]. unfold valid_cluster in Hc2. lia.
      * by rewrite Hl', Z.eqb_refl.
      * intros x Hx Hx1 Hx2. by rewrite Hl', !(proj2 (Z.eqb_neq _ _)).
      * intros x Hx. rewrite Hd3, Hd2, Hf1' by done. unfold nb. by rewrite Hk.
  - destruct (chain_head _ _ _ _ Ht) as (Hc2 & t2 & ->). set (c2 := link fs d c) in *.
    destruct (valid_not_end fs d c2 H Hc2) as [-> _].
    destruct (IH d1 c2 t2 (bw + k) 0 nb H1) as (n2 & d' & t2' & E' & W); try done; try lia.
    { apply (chain_frame fs d); [|done]. intros x Hx. apply Hl1. pose proof (chain_valid fs d c2 _ x Ht Hx) as Hx'. unfold valid_cluster in Hx'. lia. }
    exists (k + n2), d', (c2 :: t2'). rewrite E'. split; [do 2 f_equal; lia|]. rewrite Hdrop in W. rewrite Hk in W |- *.
    eapply (wrote_more d d1 d' c c2 (c2 :: t2) t2); try done; try lia; [by right | |].
    + intros x Hx _ _. apply Hl1. unfold valid_cluster in Hx. lia.
    + intros x Hx. rewrite Hf1' by done. unfold nb. by rewrite Hk.
Qed.
(** ** The whole file *)

(** The chain [l] of the file that starts at [c] has become [l'], and the bytes from
    position [p] on are [n] bytes of [buf]; everything else is as in [wrote]. *)
Record written d d' (c : Z) (l buf : list Z) (p n : Z) (l' : list Z) : Prop := {
  wn_ok : fs_ok fs d';
  wn_chain : chain fs d' c l';
  wn_prefix : l `prefix_of` l';
  wn_content : content d' l' = over (Z.to_nat p) (take (Z.to_nat n) buf) (content d l');
  wn_new : ∀ x, x ∈ l' → x ∉ l → link fs d x = 0;
  wn_frame : ∀ x, valid_cluster fs x → x ∉ l' → link fs d' x = link fs d x ∧ cluster fs d' x = cluster fs d x;
  wn_count : 0 ≤ n ≤ zlen buf;
  wn_full : n < zlen buf → ∀ x, valid_cluster fs x → link fs d' x ≠ 0;
}.

Lemma chain_replace_tail d d' c l1 x t t' :
  chain fs d c (l1 ++ x :: t) → (∀ y, y ∈ l1 → link fs d' y = link fs d y) → chain fs d' x (x :: t') → chain fs d' c (l1 ++ x :: t').
Proof.
  revert c. induction l1 as [|y l1 IH]; intros c Hl Hsame Hx; cbn in *.
  - by destruct (chain_head _ _ _ _ Hl) as (_ & ? & [= -> _]).
  - destruct (chain_head _ _ _ _ Hl) as (Hc & ? & [= <- _]). inversion Hl as [? ? ? E|? ? _ Ht]; subst; [by destruct l1|].
    constructor; [done|]. rewrite Hsame by left. apply IH; try done. intros z Hz. apply Hsame. by right.
Qed.

Lemma content_app d l1 l2 : content d (l1 ++ l2) = content d l1 ++ content d l2.
Proof. unfold content. by rewrite fmap_app, concat_app. Qed.

(** Writing from a cluster inside the chain. *)
Lemma written_inside d d' c l1 x t buf off n t' :
  fs_ok fs d → chain fs d c (l1 ++ x :: t) → 0 ≤ off → wrote d d' x t buf off n t' →
  written d d' c (l1 ++ x :: t) buf (zlen l1 * cluster_size fs + off) n (l1 ++ x :: t').
Proof.
  intros H Hl Ho [W1 W2 W3 W4 W5 W6 W7 W8]. pose proof (cluster_size_pos d H) as Hcs.
  pose proof (chain_NoDup fs d c _ H Hl) as (_ & Hdis & _)%NoDup_app.
  assert (∀ y, y ∈ l1 → valid_cluster fs y) as Hv by (intros y Hy; apply (chain_valid fs d c _ y Hl), elem_of_app; by left).
  assert (∀ y, y ∈ l1 → link fs d y ≠ 0) as Hused.
  { intros y Hy. destruct (list_elem_of_lookup_1 _ _ Hy) as [i Hi].
    assert (chain fs d y (drop i (l1 ++ x :: t))) as Hc by (apply chain_nth with c; [done | by apply lookup_app_l_Some]).
    intros E0. inversion Hc as [? _ He|? ? _ Ht]; subst; [by rewrite E0 in He|]. rewrite E0 in Ht.
    destruct (chain_head _ _ _ _ Ht) as [Hv0 _]. unfold valid_cluster in Hv0. lia. }
  assert (∀ y, y ∈ l1 → y ∉ x :: t') as Hn.
  { intros y Hy [->|Hin]%elem_of_cons; [apply (Hdis x Hy); left|]. destruct (decide (y ∈ t)); [apply (Hdis y Hy); by right|].
    by apply (Hused y Hy), W5. }
  split; try done.
  - apply (chain_replace_tail d d' c l1 x t t' Hl); [|done]. intros y Hy. apply W6; auto.
  - apply prefix_app, prefix_cons. done.
  - rewrite !content_app, W4. pose proof (length_content d l1 H) as Hlen.
    replace (Z.to_nat (zlen l1 * cluster_size fs + off)) with (length (content d l1) + Z.to_nat off)%nat by nia.
    rewrite over_app_r. f_equal. apply content_same. intros y Hy. apply W6; auto.
  - intros y Hy Hny. apply W5; [|set_solver]. apply elem_of_app in Hy as [Hy|Hy]; [set_solver|].
    apply elem_of_cons in Hy as [->|Hy]; [set_solver | done].
  - intros y Hy Hny. apply W6; [done | set_solver].
Qed.

(** The same from a cluster that was free and has been appended to the chain. *)
Lemma written_appended d d0 d' c l x buf p n l' :
  valid_cluster fs x → link fs d x = 0 → same_data fs d d0 → fs_ok fs d0 →
  (∀ y, valid_cluster fs y → y ≠ x → y ∉ l → link fs d0 y = link fs d y) →
  written d0 d' c (l ++ [x]) buf p n l' → written d d' c l buf p n l'.
Proof.
  intros Hx Hz Hd H0 Hl [W1 W2 W3 W4 W5 W6 W7 W8].
  assert (∀ y, y ∈ l' → valid_cluster fs y) as Hv by (intros y Hy; by apply (chain_valid fs d' c _ y W2)).
  split; try done.
  - etrans; [|done]. by apply prefix_app_r.
  - rewrite W4. f_equal. apply content_same. intros y Hy. apply Hd. auto.
  - intros y Hy Hny. destruct (decide (y = x)) as [->|Hne]; [done|]. rewrite <- Hl by auto. apply W5; [done | set_solver].
  - intros y Hy Hny. destruct (W6 y Hy Hny) as [E1 E2]. assert (∀ z, z ∈ l ++ [x] → z ∈ l') as Hsub by (destruct W3 as [k ->]; set_solver). rewrite E1, E2, Hl, Hd by (done || set_solver). done.
Qed.
Lemma first_cluster_set c e : 0 ≤ c < 2 ^ 32 → fat32_get_first_cluster (fat32_set_first_cluster c e) = c.
Proof.
  intros Hc. unfold fat32_get_first_cluster, fat32_set_first_cluster. cbn. change 0xFFFF with (Z.ones 16). rewrite !Z.land_ones by lia.
  rewrite Z.shiftr_div_pow2 by lia. apply Z.bits_inj'. intros i Hi. rewrite Z.lor_spec, Z.shiftl_spec by lia.
  destruct (decide (i < 16)).
  - rewrite Z.testbit_neg_r by lia. cbn. by apply Z.mod_pow2_bits_low.
  - rewrite (Z.mod_pow2_bits_high c) by lia. rewrite orb_false_r. destruct (decide (i - 16 < 16)).
    + rewrite Z.mod_pow2_bits_low by lia. rewrite Z.div_pow2_bits by lia. f_equal. lia.
    + rewrite Z.mod_pow2_bits_high by lia. symmetry. apply (testbit_high 32); lia.
Qed.

(** The entry of a file after [n] bytes were written at [p]. *)
Definition grown (p n : Z) (e : fat32_dir_entry) : fat32_dir_entry :=
  if file_size e <? p + n then set_file_size (p + n) e else e.

(** The part of [fat32_file_write] from the buffer on. *)
Lemma write_tail d e c l1 x t buf p cbuf :
  fs_ok fs d → chain fs d c (l1 ++ x :: t) → 0 ≤ p → zlen l1 = p / cluster_size fs → p + zlen buf < 2 ^ 32 →
  zlen cbuf = cluster_size fs → Forall is_byte buf →
  ∃ n d' l', written d d' c (l1 ++ x :: t) buf p n l' ∧
    (bytes_written ← on_fdisk (write_loop (io_fuel fs (zlen buf)) fs buf 0 (p mod cluster_size fs) x cbuf);
     if bytes_written <? 0 then mret bytes_written
     else
       _ ← (if file_size e <? u32 (p + bytes_written) then modify (with_entry (set_file_size (u32 (p + bytes_written)) e)) else mret tt);
       _ ← modify (with_pos (u32 (p + bytes_written)));
       mret bytes_written) {| fdisk := d; pos := p; private_data := Some e |} =
    Ret (n, {| fdisk := d'; pos := p + n; private_data := Some (grown p n e) |}).
Proof.
  intros H Hl Hp Hk Hpc Hcb Hby. pose proof (cluster_size_pos d H) as Hcs. pose proof (Z.mod_pos_bound p (cluster_size fs) Hcs) as Hm.
  pose proof (Z.div_mod p (cluster_size fs) ltac:(lia)) as Hdm.
  assert (chain fs d x (x :: t)) as Hx by (rewrite <- (drop_app_length l1 (x :: t)); apply chain_nth with c; [done | by apply list_lookup_middle]).
  destruct (write_loop_spec (io_fuel fs (zlen buf)) d x t buf 0 (p mod cluster_size fs) cbuf H Hx Hm Hcb Hby) as (n & d' & t' & E & W); [lia | | |].
  { unfold io_fuel. pose proof (Z.div_mod (zlen buf) (cluster_size fs) ltac:(lia)). pose proof (Z.mod_pos_bound (zlen buf) (cluster_size fs) Hcs).
    assert (0 ≤ zlen buf / cluster_size fs) by (apply Z.div_pos; lia). nia. }
  { unfold io_fuel. lia. }
  rewrite drop_0, Z.add_0_l in *. exists n, d', (l1 ++ x :: t'). pose proof (wr_count _ _ _ _ _ _ _ _ W) as Hn.
  pose proof (written_inside d d' c l1 x t buf (p mod cluster_size fs) n t' H Hl ltac:(lia) W) as Wn.
  replace (zlen l1 * cluster_size fs + p mod cluster_size fs) with p in Wn by nia. split; [done|].
  erewrite bind_Ret; [|apply on_fdisk_Ret; exact E]. rewrite (proj2 (Z.ltb_ge n 0)), u32_small by lia. unfold grown.
  destruct (file_size e <? p + n); done.
Qed.

Lemma grown_ok d d' e c l buf p n l' :
  fs_ok fs d → 0 ≤ p → p ≤ zlen (content d l) → p + zlen buf < 2 ^ 32 → 0 ≤ file_size e < 2 ^ 32 → file_size e ≤ zlen (content d l) →
  fat32_get_first_cluster e = c → written d d' c l buf p n l' →
  file_ok d' (grown p n e) l' ∧ file_size (grown p n e) = Z.max (file_size e) (p + n).
Proof.
  intros H Hp Hpl Hpc Hsz Hlen Hc [W1 W2 W3 W4 W5 W6 W7 W8]. pose proof (cluster_size_pos d H) as Hcs.
  assert (file_size (grown p n e) = Z.max (file_size e) (p + n)) as Hg.
  { unfold grown. destruct (Z.ltb_spec (file_size e) (p + n)); cbn; lia. }
  split; [|done]. unfold file_ok. assert (fat32_get_first_cluster (grown p n e) = c) as -> by (unfold grown; by destruct (_ <? _)).
  split; [by right|]. rewrite Hg. split; [lia|].
  pose proof (length_content d l H) as L1. pose proof (length_content d' l' W1) as L2. pose proof (length_content d l' H) as L3.
  assert (zlen l ≤ zlen l') as Hll by (apply prefix_length in W3; lia).
  assert (p + n ≤ zlen (content d' l')); [|nia]. rewrite W4. unfold over. rewrite !length_app, length_take, length_take, length_drop. nia.
Qed.
(** A chain with a fresh cluster linked to its last one. *)
Lemma chain_append d d2 d3 c l y x :
  fs_ok fs d → chain fs d c l → last l = Some y → valid_cluster fs x → link fs d x = 0 →
  (∀ z, 0 ≤ z < total_clusters fs → link fs d2 z = if z =? x then FAT32_EOC_MAX else link fs d z) →
  (∀ z, 0 ≤ z < total_clusters fs → link fs d3 z = if z =? y then Z.land x FAT32_MASK else link fs d2 z) →
  chain fs d3 c (l ++ [x]) ∧ ∀ z, valid_cluster fs z → z ≠ x → z ∉ l → link fs d3 z = link fs d z.
Proof.
  intros H Hl Hy Hx Hz H2 H3. pose proof (total_small fs d H) as Hts. pose proof (chain_NoDup fs d c l H Hl) as Hnd.
  assert (Z.land x FAT32_MASK = x) as Hmx by (unfold valid_cluster in Hx; apply mask_small; lia).
  assert (∀ z, valid_cluster fs z → z ≠ x → z ≠ y → link fs d3 z = link fs d z) as Hsame.
  { intros z Hvz H1z H2z. unfold valid_cluster in Hvz. by rewrite H3, H2, !(proj2 (Z.eqb_neq _ _)) by (done || lia). }
  apply last_Some in Hy as [l1 ->]. assert (valid_cluster fs y) as Hvy by (apply (chain_valid fs d c _ y Hl); set_solver).
  assert (link fs d y ≠ 0) as Hy0.
  { pose proof (chain_nth d c _ (length l1) y Hl ltac:(by apply list_lookup_middle)) as Hc. rewrite drop_app_length in Hc.
    intros E0. inversion Hc as [? _ He|? ? _ Ht]; subst; [by rewrite E0 in He | inversion Ht]. }
  split.
  - rewrite <- app_assoc. cbn. apply (chain_replace_tail d d3 c l1 y [] [x] Hl).
    + intros z Hz'. apply NoDup_app in Hnd as (_ & Hdis & _). apply Hsame; [apply (chain_valid fs d c _ z Hl); set_solver | |].
      * intros ->. destruct (list_elem_of_lookup_1 _ _ Hz') as [i Hi].
        pose proof (chain_nth d c _ i x Hl ltac:(by apply lookup_app_l_Some)) as Hc.
        inversion Hc as [? _ He|? ? _ Ht]; subst; [by rewrite Hz in He|]. rewrite Hz in Ht. destruct (chain_head _ _ _ _ Ht) as [Hv0 _]. unfold valid_cluster in Hv0. lia.
      * intros ->. apply (Hdis y Hz'). left.
    + unfold valid_cluster in Hx, Hvy. constructor; [done|]. rewrite H3, Z.eqb_refl, Hmx by lia. constructor; [done|].
      rewrite H3, H2, Z.eqb_refl by lia. by rewrite (proj2 (Z.eqb_neq x y)) by (intros ->; done).
  - intros z Hvz Hzx Hzl. apply Hsame; [done | done | set_solver].
Qed.

(** What a write of [buf] at position [p] of the file [e] with chain [l] leaves. *)
Definition write_outcome d p e l buf (r : Z) (f' : fat32_file D) : Prop :=
  r = - ENOSPC ∧ f' = {| fdisk := d; pos := p; private_data := Some e |} ∧ (∀ x, valid_cluster fs x → link fs d x ≠ 0) ∨
  ∃ d' e' l', f' = {| fdisk := d'; pos := p + r; private_data := Some e' |} ∧ file_ok d' e' l' ∧
    file_size e' = Z.max (file_size e) (p + r) ∧ written d d' (fat32_get_first_cluster e') l buf p r l'.

Lemma grown_first p n e : fat32_get_first_cluster (grown p n e) = fat32_get_first_cluster e.
Proof. unfold grown. by destruct (_ <? _). Qed.

(** The loop and the updates that follow it, once the first cluster to write to is
    found on the disk [d1], which the search may have made from [d]. *)
Lemma write_tail_outcome d d1 e e1 l l1 x t buf p cbuf :
  fs_ok fs d → file_ok d e l → 0 ≤ p ≤ zlen (content d l) → p + zlen buf < 2 ^ 32 → zlen cbuf = cluster_size fs → Forall is_byte buf →
  fs_ok fs d1 → chain fs d1 (fat32_get_first_cluster e1) (l1 ++ x :: t) → file_size e1 = file_size e → zlen l1 = p / cluster_size fs →
  (∀ n d' l', written d1 d' (fat32_get_first_cluster e1) (l1 ++ x :: t) buf p n l' → written d d' (fat32_get_first_cluster e1) l buf p n l') →
  ∃ r f',
    (bytes_written ← on_fdisk (write_loop (io_fuel fs (zlen buf)) fs buf 0 (p mod cluster_size fs) x cbuf);
     if bytes_written <? 0 then mret bytes_written
     else
       _ ← (if file_size e1 <? u32 (p + bytes_written) then modify (with_entry (set_file_size (u32 (p + bytes_written)) e1)) else mret tt);
       _ ← modify (with_pos (u32 (p + bytes_written)));
       mret bytes_written) {| fdisk := d1; pos := p; private_data := Some e1 |} = Ret (r, f') ∧ write_outcome d p e l buf r f'.
Proof.
  intros H (_ & Hsz & Hlen) Hp Hpc Hcb Hby H1 Hch Hes Hl1 HW.
  destruct (write_tail d1 e1 _ l1 x t buf p cbuf H1 Hch ltac:(lia) Hl1 Hpc Hcb Hby) as (n & d' & l' & W & Et).
  exists n. eexists. split; [exact Et|]. right. apply HW in W. rewrite <- Hes in Hsz, Hlen.
  destruct (grown_ok d d' e1 _ l buf p n l' H ltac:(lia) ltac:(lia) Hpc Hsz Hlen eq_refl W) as [Hok' Hsz'].
  exists d', (grown p n e1), l'. rewrite grown_first, <- Hes. by split_and!.
Qed.

Lemma file_write_spec d p e l buf cluster_buf :
  fs_ok fs d → file_ok d e l → 0 ≤ p ≤ zlen (content d l) → p + zlen buf < 2 ^ 32 → Forall is_byte buf →
  zlen cluster_buf = cluster_size fs →
  ∃ r f', fat32_file_write (Some fs) (Some cluster_buf) buf {| fdisk := d; pos := p; private_data := Some e |} = Ret (r, f') ∧
    write_outcome d p e l buf r f'.
Proof.
  intros H Hok Hp Hpc Hby Hcb. unfold fat32_file_write. rewrite bind_get. cbn [private_data pos]. cbv zeta.
  pose proof (cluster_size_pos d H) as Hcs. pose proof (length_content d l H) as Hlc. pose proof (proj1 Hok) as [[H0 ->]|Hch].
  - rewrite H0. cbn [Z.eqb]. cbn in Hp. assert (p = 0) as -> by lia.
    destruct (alloc_cluster_spec fs d H) as (c & d1 & E & [(-> & -> & Hfull)|(Hc & Hz & _ & H1 & Hd1 & Hl1)]);
      rewrite bind_assoc; (erewrite bind_Ret; [|apply on_fdisk_Ret; exact E]); rewrite bind_mret; cbv match.
    { exists (- ENOSPC). eexists. split; [done|]. by left. }
    assert (c ≠ 0 ∧ 0 ≤ c < 2 ^ 32) as [Hc0 Hcr] by (pose proof (total_small fs d H); unfold valid_cluster in Hc; lia).
    rewrite (proj2 (Z.eqb_neq c 0)), bind_modify by done. rewrite Zdiv_0_l. cbn [Z.to_nat skip_clusters].
    erewrite bind_Ret; [|by apply on_fdisk_Ret]. cbv match. rewrite andb_false_r. erewrite bind_Ret; [|by apply on_fdisk_Ret]. cbv match.
    apply (write_tail_outcome d d1 e (fat32_set_first_cluster c e) [] [] c []); rewrite ?first_cluster_set by done; try done.
    { constructor; [done|]. unfold valid_cluster in Hc. by rewrite Hl1, Z.eqb_refl by lia. }
    intros n d' l'. apply (written_appended d d1 d' c [] c buf 0 n l' Hc Hz Hd1 H1). intros y Hy Hne _. unfold valid_cluster in Hy.
    by rewrite Hl1, (proj2 (Z.eqb_neq y c)) by (done || lia).
  - destruct (chain_head _ _ _ _ Hch) as (Hc & t & El). set (c := fat32_get_first_cluster e) in *.
    rewrite (proj2 (Z.eqb_neq c 0)) by (unfold valid_cluster in Hc; lia). rewrite bind_mret. cbv match.
    rewrite (proj2 (Z.eqb_neq c 0)), bind_modify by (unfold valid_cluster in Hc; lia).
    pose proof (Z.div_mod p (cluster_size fs) ltac:(lia)) as Hdm. pose proof (Z.mod_pos_bound p (cluster_size fs) Hcs) as Hm.
    assert (0 ≤ p / cluster_size fs ≤ zlen l) as Hk by (split; [apply Z.div_pos; lia | apply Z.div_le_upper_bound; lia]).
    destruct (decide (p / cluster_size fs = zlen l)) as [Hend|Hin].
    + destruct (skip_all d 0 c l H Hch) as (ee & y & Es & He & Hy). rewrite Hend, Nat2Z.id.
      erewrite bind_Ret; [|apply on_fdisk_Ret; exact Es]. cbv match. rewrite He, (proj2 (Z.ltb_lt 0 _)) by (rewrite El; cbn; lia). cbn [andb].
      destruct (alloc_cluster_spec fs d H) as (x & d1 & E & [(-> & -> & Hfull)|(Hx & Hz & _ & H1 & Hd1 & Hl1)]).
      { exists (- ENOSPC). eexists. split; [|left; split_and!; [done | reflexivity | done]].
        erewrite bind_Ret; [|apply on_fdisk_Ret; rewrite (bind_Ret _ _ _ _ _ E); reflexivity]. done. }
      assert (valid_cluster fs y) as Hvy by (apply (chain_valid fs d c l y Hch); apply last_Some in Hy as [? ->]; set_solver).
      destruct (write_fat_spec fs d1 y x H1 Hvy) as (d2 & E2 & H2 & Hl2 & Ho2). pose proof (outside_same_data fs d1 d2 H1 Ho2) as Hd2.
      erewrite bind_Ret; [|apply on_fdisk_Ret; rewrite (bind_Ret _ _ _ _ _ E); rewrite (proj2 (Z.eqb_neq x 0)) by (unfold valid_cluster in Hx; lia);
        rewrite (proj2 (Z.ltb_lt 0 y)) by (unfold valid_cluster in Hvy; lia); rewrite bind_assoc, (bind_Ret _ _ _ _ _ E2); reflexivity].
      cbv match. destruct (chain_append d d1 d2 c l y x H Hch Hy Hx Hz Hl1 Hl2) as [Hl0 Hsame].
      apply (write_tail_outcome d d2 e e l l x []); try done. intros n d' l'.
      apply (written_appended d d2 d' c l x buf p n l' Hx Hz); try done. intros z Hvz. by rewrite Hd2, Hd1.
    + destruct (lookup_lt_is_Some_2 l (Z.to_nat (p / cluster_size fs))) as [x Hx]; [lia|].
      destruct (skip_inside d 0 c l _ x H Hch Hx) as (p' & Es). erewrite bind_Ret; [|apply on_fdisk_Ret; exact Es]. cbv match.
      assert (valid_cluster fs x) as Hvx by (apply (chain_valid fs d c l x Hch); by eapply list_elem_of_lookup_2).
      destruct (valid_not_end fs d x H Hvx) as [-> _]. cbn [andb]. erewrite bind_Ret; [|by apply on_fdisk_Ret]. cbv match.
      pose proof (take_drop_middle l _ x Hx) as El2.
      apply (write_tail_outcome d d e e l (take (Z.to_nat (p / cluster_size fs)) l) x (drop (S (Z.to_nat (p / cluster_size fs))) l)); rewrite ?El2; try done. rewrite length_take. lia.
Qed.

(** C9: Writing to a file, at a position inside it or at its end, replaces its bytes
    from there on by the given ones, extending its chain with free clusters where
    it is too short, and advances position and size; every byte of the file
    outside of the written range, every other cluster and every other entry of
    the table is as before.  Fewer bytes are written, or none with [-ENOSPC],
    only when no cluster of the volume is free. *)
Theorem fat32_file_write_correct d p e l buf cluster_buf :
  fs_ok fs d → file_ok d e l → 0 ≤ p ≤ zlen (content d l) → p + zlen buf < 2 ^ 32 → Forall is_byte buf →
  zlen cluster_buf = cluster_size fs →
  ∃ r f', fat32_file_write (Some fs) (Some cluster_buf) buf {| fdisk := d; pos := p; private_data := Some e |} = Ret (r, f') ∧
    write_outcome d p e l buf r f'.
Proof. apply file_write_spec. Qed.

(** C10: What was written to a file is read back: after a write of [buf] at a position
    inside the file or at its end that reports [r] bytes, reading [r] bytes from
    that position gives the first [r] bytes of [buf]; all of them when the volume
    still has a free cluster. *)
Theorem fat32_write_read_roundtrip d p e l buf cluster_buf :
  fs_ok fs d → file_ok d e l → 0 ≤ p ≤ zlen (content d l) → p + zlen buf < 2 ^ 32 → Forall is_byte buf →
  zlen cluster_buf = cluster_size fs →
  ∃ r f', fat32_file_write (Some fs) (Some cluster_buf) buf {| fdisk := d; pos := p; private_data := Some e |} = Ret (r, f') ∧
    (0 ≤ r → fat32_file_read (Some fs) (Some cluster_buf) r (with_pos p f') = Ret ((r, take (Z.to_nat r) buf), f')) ∧
    ((∃ x, valid_cluster fs x ∧ link fs (fdisk f') x = 0) → r = zlen buf).
Proof.
  intros H Hok Hp Hpc Hby Hcb. destruct (file_write_spec d p e l buf cluster_buf H Hok Hp Hpc Hby Hcb) as (r & f' & E & Hout).
  exists r, f'. split; [done|]. destruct Hout as [(-> & -> & Hfull)|(d' & e' & l' & -> & Hok' & Hsz & W)].
  { split; [lia|]. intros (x & Hx & Hz). by destruct (Hfull x Hx). }
  pose proof (wn_count _ _ _ _ _ _ _ _ W) as Hr. pose proof (wn_content _ _ _ _ _ _ _ _ W) as Hct. pose proof Hok as (_ & Hsz0 & _).
  pose proof Hok' as (_ & _ & Hlen'). split.
  - intros _. unfold with_pos. cbn [fdisk pos private_data].
    rewrite (file_read_spec d' p e' l' r cluster_buf (wn_ok _ _ _ _ _ _ _ _ W) Hok') by lia.
    assert ((if file_size e' <=? p then 0 else Z.min r (file_size e' - p)) = r) as -> by (destruct (Z.leb_spec (file_size e') p); lia).
    pose proof (prefix_length _ _ (wn_prefix _ _ _ _ _ _ _ _ W)) as Hpre. pose proof (length_content d l H). pose proof (length_content d l' H) as Hlc.
    pose proof (cluster_size_pos d H). do 3 f_equal. rewrite Hct.
    replace (Z.to_nat r) with (length (take (Z.to_nat r) buf)) at 1 by (rewrite length_take; lia). apply over_read. nia.
  - intros (x & Hx & Hz). cbn [fdisk] in Hz. destruct (decide (r < zlen buf)) as [Hlt|]; [|lia]. by destruct (wn_full _ _ _ _ _ _ _ _ W Hlt x Hx).
Qed.
End Content.

(** ** A file of two clusters *)

Module File.
Definition e : fat32_dir_entry := 
  {| de_name := replicate 11 32; attr := 0x20; nt_reserved := 0; create_time_tenth := 0; create_time := 0; create_date := 0; last_access_date := 0;
     first_cluster_high := 0; write_time := 0; write_date := 0; first_cluster_low := 2; file_size := 600 |}.

Lemma e_ok : file_ok Volume.fs Volume.rd e [2; 3].
Proof. split_and!; [right; apply Volume.rd_chain | done | done | done]. Qed.
End File.

Lemma fat32_file_read_correct_witness :
  fat32_file_read (Some Volume.fs) (Some (replicate 512 0)) 4 {| fdisk := Volume.rd; pos := 510; private_data := Some File.e |} =
  Ret ((4, [7; 7; 7; 7]), {| fdisk := Volume.rd; pos := 514; private_data := Some File.e |}).
Proof.
  etransitivity; [apply (fat32_file_read_correct Volume.fs Volume.rd 510 File.e [2; 3] 4 (replicate 512 0) Volume.volume_ok File.e_ok); done|].
  reflexivity.
Defined.

Lemma fat32_file_write_correct_witness :
  ∃ r f', fat32_file_write (Some Volume.fs) (Some (replicate 512 0)) [1; 2; 3] {| fdisk := Volume.rd; pos := 1024; private_data := Some File.e |} = Ret (r, f') ∧
    write_outcome Volume.fs Volume.rd 1024 File.e [2; 3] [1; 2; 3] r f'.
Proof.
  apply (fat32_file_write_correct Volume.fs Volume.rd 1024 File.e [2; 3] [1; 2; 3] (replicate 512 0) Volume.volume_ok File.e_ok);
    [split; done | reflexivity | by repeat constructor | reflexivity].
Defined.

Lemma fat32_write_read_roundtrip_witness :
  ∃ r f', fat32_file_write (Some Volume.fs) (Some (replicate 512 0)) [1; 2; 3] {| fdisk := Volume.rd; pos := 511; private_data := Some File.e |} = Ret (r, f') ∧
    (0 ≤ r → fat32_file_read (Some Volume.fs) (Some (replicate 512 0)) r (with_pos 511 f') = Ret ((r, take (Z.to_nat r) [1; 2; 3]), f')).
Proof.
  destruct (fat32_write_read_roundtrip Volume.fs Volume.rd 511 File.e [2; 3] [1; 2; 3] (replicate 512 0) Volume.volume_ok File.e_ok)
    as (r & f' & E & Hr & _); [split; done | reflexivity | by repeat constructor | reflexivity|]. exists r, f'. split; assumption.
Defined.
