(* ===== verification/FatName.v ===== *)
(** * FAT32: file names (kernel/fs/fat32_lfn.c, kernel/fs/fat32_dir.c)

    Short names of eight and three characters, long names spread over directory
    entries of 13 characters, and the conversions between them and C strings.  A
    C string is the list of its characters without the terminator, a [char] is a
    byte whose value as an [int] is [i8] of it; a directory entry on disk is a
    list of 32 bytes, which the code casts to one of two structures. *)

From S2P Require Import Prelude Bytes Errno Mem Strings Format Block Fat.

#[local] Open Scope Z_scope.

Abbreviation FAT_ATTR_VOLUME_ID := 0x08%Z (only parsing).
Abbreviation FAT_ATTR_DIRECTORY := 0x10%Z (only parsing).
Abbreviation FAT_ATTR_ARCHIVE := 0x20%Z (only parsing).
Abbreviation FAT_ATTR_LONG_NAME := 0x0F%Z (only parsing).
Abbreviation FAT_DIR_ENTRY_FREE := 0xE5%Z (only parsing).
Abbreviation FAT_DIR_ENTRY_END := 0x00%Z (only parsing).
Abbreviation sizeof_dir_entry := 32%Z (only parsing).

(** ** Strings as lists *)

(** The characters in front of the first [c]. *)
Fixpoint until (c : Z) (s : list Z) : list Z :=
  match s with
  | [] => []
  | x :: s => if x =? c then [] else x :: until c s
  end.

(** [strchr] and [strrchr]: what is in front of and behind the character found. *)
Definition split_first (c : Z) (s : list Z) : option (list Z * list Z) :=
  if bool_decide (c ∈ s) then Some (until c s, drop (S (length (until c s))) s) else None.
Definition split_last (c : Z) (s : list Z) : option (list Z * list Z) :=
  match split_first c (rev s) with Some (a, b) => Some (rev b, rev a) | None => None end.

(** [strcasecmp(s, t) == 0] *)
Fixpoint same_ignoring_case (s t : list Z) : bool :=
  match s, t with
  | [], [] => true
  | c :: s, d :: t => (upcase c =? upcase d) && same_ignoring_case s t
  | _, _ => false
  end.

(** ** Short names *)

(** The string that the function leaves in [output] ends at its first zero byte. *)
Definition format_83_name (fat_name : list Z) : list Z :=
  until 0 (until 32 (take 8 fat_name) ++
           (if fat_name !!! 8%nat =? 32 then [] else 46 :: until 32 (take 3 (drop 8 fat_name)))).

Definition pad (n : nat) (s : list Z) : list Z := s ++ replicate (n - length s) 32.

Definition upper (c : Z) : Z := u8 (toupper (i8 c)).

Definition to_83_name (name : list Z) : list Z :=
  match split_first 46 name with
  | Some (base, ext) => pad 8 (upper <$> take 8 base) ++ pad 3 (upper <$> take 3 ext)
  | None => pad 8 (upper <$> take 8 name) ++ pad 3 []
  end.

Definition name_match (fat_name name : list Z) : bool := same_ignoring_case (format_83_name fat_name) name.

(** The loop over the characters of the base name, while there is [room]. *)
Fixpoint copy_legal (room : nat) (base : list Z) : list Z :=
  match base, room with
  | c :: base, S room' =>
      let ch := upper c in
      if isalnum (i8 ch) || (ch =? 95) || (ch =? 45) then ch :: copy_legal room' base else copy_legal room base
  | _, _ => []
  end.

(** An illegal character of the extension leaves a space. *)
Definition ext_char (c : Z) : Z :=
  let ch := upper c in if isalnum (i8 ch) || (ch =? 95) then ch else 32.

(** [snprintf(tail, 8, "~%d", tail_num)] *)
Definition tail_string (tail_num : Z) : list Z :=
  match snprintf 8 [126; 37; 100] [AInt tail_num] with Ret ((n, buf), _) => take (Z.to_nat n) buf | _ => [] end.

Definition fat32_generate_short_name (long_name : list Z) (tail_num : Z) : list Z :=
  let '(base, ext) := match split_last 46 long_name with Some p => p | None => (long_name, []) end in
  let name := copy_legal 6 base in
  let name :=
    if 0 <? tail_num then
      let tail := tail_string tail_num in
      take (if (8 <? length name + length tail)%nat then 8 - length tail else length name) name ++ tail
    else name in
  pad 8 name ++ pad 3 (ext_char <$> take 3 ext).

(** ** Directory entries on disk *)

Definition entry_of (raw : list Z) : option fat32_dir_entry :=
  a ← slice 0x00 11 raw; b ← aget raw 0x0B; c ← aget raw 0x0C; d ← aget raw 0x0D; e ← get16 raw 0x0E; f ← get16 raw 0x10;
  g ← get16 raw 0x12; h ← get16 raw 0x14; i ← get16 raw 0x16; j ← get16 raw 0x18; k ← get16 raw 0x1A; l ← get32 raw 0x1C;
  Some {| de_name := a; attr := b; nt_reserved := c; create_time_tenth := d; create_time := e; create_date := f;
          last_access_date := g; first_cluster_high := h; write_time := i; write_date := j; first_cluster_low := k; file_size := l |}.

Definition entry_bytes (e : fat32_dir_entry) : list Z :=
  de_name e ++ [attr e; nt_reserved e; create_time_tenth e] ++ le16_bytes (create_time e) ++ le16_bytes (create_date e) ++
  le16_bytes (last_access_date e) ++ le16_bytes (first_cluster_high e) ++ le16_bytes (write_time e) ++ le16_bytes (write_date e) ++
  le16_bytes (first_cluster_low e) ++ le32_bytes (file_size e).

(** ** Long names *)

Abbreviation LFN_MAX_LEN := 255%Z (only parsing).
Abbreviation LFN_CHARS_PER_ENTRY := 13%Z (only parsing).
Abbreviation LFN_LAST_ENTRY := 0x40%Z (only parsing).

(** [name1], [name2] and [name3] are the three groups of characters. *)
Record fat32_lfn_entry := {
  order : Z;
  name1 : list Z;
  lfn_attr : Z;
  lfn_type : Z;
  checksum : Z;
  name2 : list Z;
  lfn_cluster_low : Z;
  name3 : list Z;
}.

Definition chars_of (raw : list Z) (off : Z) (n : Z) : option (list Z) := mapM (λ i, get16 raw (off + 2 * i)) (seqZ 0 n).

Definition lfn_of (raw : list Z) : option fat32_lfn_entry :=
  a ← aget raw 0x00; b ← chars_of raw 0x01 5; c ← aget raw 0x0B; d ← aget raw 0x0C; e ← aget raw 0x0D;
  f ← chars_of raw 0x0E 6; g ← get16 raw 0x1A; h ← chars_of raw 0x1C 2;
  Some {| order := a; name1 := b; lfn_attr := c; lfn_type := d; checksum := e; name2 := f; lfn_cluster_low := g; name3 := h |}.

Definition lfn_bytes (e : fat32_lfn_entry) : list Z :=
  [order e] ++ concat (le16_bytes <$> name1 e) ++ [lfn_attr e; lfn_type e; checksum e] ++ concat (le16_bytes <$> name2 e) ++
  le16_bytes (lfn_cluster_low e) ++ concat (le16_bytes <$> name3 e).

Definition lfn_checksum (short_name : list Z) : Z :=
  fold_left (λ sum c, u8 (Z.shiftl (Z.land sum 1) 7 + Z.shiftr sum 1 + c)) (take 11 short_name) 0.

(** The characters of the three groups up to a 0 or a 0xFFFF. *)
Fixpoint lfn_chars (l : list Z) : list Z :=
  match l with
  | [] => []
  | ch :: l => if (ch =? 0) || (ch =? 0xFFFF) then [] else ch :: lfn_chars l
  end.

Definition lfn_extract_chars (lfn : fat32_lfn_entry) : list Z := lfn_chars (name1 lfn ++ name2 lfn ++ name3 lfn).

Definition unicode_to_ascii (unicode : list Z) : list Z := (λ c, Z.land c 0xFF) <$> unicode.

Definition ascii_to_unicode (ascii : list Z) (max_len : Z) : list Z :=
  let s := take (Z.to_nat max_len) ascii in
  s ++ (if zlen s <? max_len then 0 :: replicate (Z.to_nat (max_len - zlen s - 1)) 0xFFFF else []).

(** [fat32_read_lfn] from one iteration on.  [lfn_buf] is the used part of an array of
    255 characters.  The result is the number of entries and, if that is not 0,
    the name. *)
Fixpoint read_lfn_loop (entries : list (list Z)) (first : bool) (expected_order sum lfn_count : Z) (lfn_buf : list Z) :
    outcome (Z * option (list Z)) :=
  match entries with
  | [] => Ret (0, None)
  | raw :: entries =>
      match entry_of raw, lfn_of raw with
      | Some entry, Some lfn =>
          if negb (attr entry =? FAT_ATTR_LONG_NAME) then
            if 0 <? lfn_count then
              if negb (lfn_checksum (de_name entry) =? sum) then Ret (0, None)
              else Ret (lfn_count, Some (unicode_to_ascii lfn_buf))
            else Ret (0, None)
          else if first && (Z.land (order lfn) LFN_LAST_ENTRY =? 0) then Ret (0, None)
          else if negb first && negb (order lfn =? expected_order) then Ret (0, None)
          else if negb first && negb (checksum lfn =? sum) then Ret (0, None)
          else
            let expected_order := if first then Z.land (order lfn) 0x3F else expected_order in
            let sum := if first then checksum lfn else sum in
            let chars := lfn_extract_chars lfn in
            if LFN_MAX_LEN <? zlen chars + zlen lfn_buf then Undef
            else
              let expected_order := u8 (expected_order - 1) in
              if expected_order =? 0 then Ret (0, None)
              else read_lfn_loop entries false expected_order sum (lfn_count + 1) (chars ++ lfn_buf)
      | _, _ => Undef
      end
  end.

Definition fat32_read_lfn (entries : list (list Z)) : outcome (Z * option (list Z)) := read_lfn_loop entries true 0 0 0 [].

(** The test whether a name needs a long entry. *)
Definition needs_lfn (name : list Z) : bool :=
  let '(base_len, ext_len) := match split_first 46 name with Some (b, e) => (zlen b, zlen e) | None => (zlen name, 0) end in
  negb ((base_len <=? 8) && (ext_len <=? 3)) || existsb (λ c, islower (i8 c) || (c =? 32)) name.

(** Entry [i] of [lfn_entries]. *)
Definition lfn_entry_at (unicode_name : list Z) (name_len lfn_entries sum i : Z) : fat32_lfn_entry :=
  let char_start := (lfn_entries - i - 1) * LFN_CHARS_PER_ENTRY in
  let char_at idx := if idx <=? name_len then unicode_name !!! Z.to_nat idx else 0xFFFF in
  {| order := u8 (if i =? 0 then Z.lor (lfn_entries - i) LFN_LAST_ENTRY else lfn_entries - i);
     name1 := (λ j, char_at (char_start + j)) <$> seqZ 0 5;
     lfn_attr := FAT_ATTR_LONG_NAME; lfn_type := 0; checksum := sum;
     name2 := (λ j, char_at (char_start + 5 + j)) <$> seqZ 0 6;
     lfn_cluster_low := 0;
     name3 := (λ j, char_at (char_start + 11 + j)) <$> seqZ 0 2 |}.

(** [unicode_name] has 256 elements. *)
Definition fat32_create_lfn (name short_name : list Z) (max_entries : Z) : outcome (Z * list (list Z)) :=
  if negb (needs_lfn name) then Ret (0, [])
  else
    let name_len := zlen name in
    let lfn_entries := (name_len + LFN_CHARS_PER_ENTRY - 1) / LFN_CHARS_PER_ENTRY in
    if max_entries <? lfn_entries + 1 then Ret (- EINVAL, [])
    else if LFN_MAX_LEN + 1 <? name_len + 1 then Undef
    else
      let sum := lfn_checksum short_name in
      let unicode_name := ascii_to_unicode name (name_len + 1) in
      Ret (lfn_entries, (λ i, lfn_bytes (lfn_entry_at unicode_name name_len lfn_entries sum i)) <$> seqZ 0 lfn_entries).

(** ** The string functions behind the definitions *)

Lemma strcasecmp_loop_spec m s : bytes_ok m → ∀ fuel a b t,
  cstr m a s → cstr m b t → (length s < fuel)%nat →
  ∃ r, strcasecmp_loop fuel a b m = Ret (r, m) ∧ (r = 0 ↔ same_ignoring_case s t = true).
Proof.
  intros Hm. assert (∀ x y, 0 ≤ x < 2 ^ 8 → y ≠ 0 → 0 ≤ y < 2 ^ 8 → (x = 0 → i8 x - i8 y ≠ 0) ∧ (x = 0 → i8 y - i8 x ≠ 0)) as Hne.
  { intros x y Hx Hy Hyr. pose proof (i8_zero y Hyr). split; intros ->; change (i8 0) with 0; lia. }
  induction s as [|c s IH]; intros fuel a b t Ha Hb Hf; (destruct fuel as [|fuel]; [cbn in Hf; lia|]); cbn [strcasecmp_loop];
    rewrite (bind_Ret _ _ _ _ _ (load8_eq _ _ _ (cstr_head _ _ _ Ha))), (bind_Ret _ _ _ _ _ (load8_eq _ _ _ (cstr_head _ _ _ Hb)));
    destruct t as [|d t]; cbn [head default id]; unfold id.
  - exists 0. done.
  - apply cstr_cons in Hb as (Hd & Hd0 & Hb). assert (0 ≤ d < 2 ^ 8) by apply (Hm _ _ Hd). eexists. split; [reflexivity|]. cbn. split; [|done]. intros E.
    by destruct (proj1 (Hne 0 d ltac:(lia) Hd0 ltac:(lia)) eq_refl).
  - apply cstr_cons in Ha as (Hc & Hc0 & Ha). assert (0 ≤ c < 2 ^ 8) by apply (Hm _ _ Hc). rewrite (proj2 (Z.eqb_neq c 0)) by done. eexists. split; [reflexivity|]. cbn. split; [|done].
    intros E. by destruct (proj2 (Hne 0 c ltac:(lia) Hc0 ltac:(lia)) eq_refl).
  - apply cstr_cons in Ha as (_ & Hc0 & Ha). apply cstr_cons in Hb as (_ & Hd0 & Hb). rewrite !(proj2 (Z.eqb_neq _ 0)) by done. cbn [negb andb same_ignoring_case].
    destruct (Z.eqb_spec (upcase c) (upcase d)) as [->|Hcd]; cbn [negb andb]; [apply IH; try done; cbn in Hf; lia|].
    eexists. split; [reflexivity|]. split; [lia | done].
Qed.

(** [name_match] calls [strcasecmp] on two strings in memory. *)
Lemma strcasecmp_spec m a b s t :
  bytes_ok m → cstr m a s → cstr m b t →
  ∃ r, strcasecmp a b m = Ret (r, m) ∧ (r = 0 ↔ same_ignoring_case s t = true).
Proof.
  intros Hm Ha Hb. unfold strcasecmp. rewrite string_fuel_eq. apply strcasecmp_loop_spec; try done. pose proof (cstr_length m a s Ha). lia.
Qed.

(** ** Entries on disk *)

Lemma le16_eq v : 0 ≤ v < 2 ^ 16 → v mod 256 + 256 * (v / 256 mod 256) = v.
Proof. intros. dlia. Qed.

(** An entry whose fields have the widths of the structure. *)
Record entry_ok (e : fat32_dir_entry) : Prop := {
  eo_name : length (de_name e) = 11%nat ∧ Forall is_byte (de_name e);
  eo_bytes : is_byte (attr e) ∧ is_byte (nt_reserved e) ∧ is_byte (create_time_tenth e);
  eo_words : Forall (λ v, 0 ≤ v < 2 ^ 16) [create_time e; create_date e; last_access_date e; first_cluster_high e; write_time e; write_date e; first_cluster_low e];
  eo_size : 0 ≤ file_size e < 2 ^ 32;
}.

Lemma entry_of_bytes b0 b1 b2 b3 b4 b5 b6 b7 b8 b9 b10 b11 b12 b13 b14 b15 b16 b17 b18 b19 b20 b21 b22 b23 b24 b25 b26 b27 b28 b29 b30 b31 :
  entry_of [b0; b1; b2; b3; b4; b5; b6; b7; b8; b9; b10; b11; b12; b13; b14; b15; b16; b17; b18; b19; b20; b21; b22; b23; b24; b25; b26; b27; b28; b29; b30; b31] =
  Some {| de_name := [b0; b1; b2; b3; b4; b5; b6; b7; b8; b9; b10]; attr := b11; nt_reserved := b12; create_time_tenth := b13;
          create_time := b14 + 256 * b15; create_date := b16 + 256 * b17; last_access_date := b18 + 256 * b19; first_cluster_high := b20 + 256 * b21;
          write_time := b22 + 256 * b23; write_date := b24 + 256 * b25; first_cluster_low := b26 + 256 * b27; file_size := le32 b28 b29 b30 b31 |}.
Proof. reflexivity. Qed.

Lemma entry_roundtrip e : entry_ok e → entry_of (entry_bytes e) = Some e.
Proof.
  intros [[Hn _] _ Hw Hs]. destruct e as [name ? ? ? ? ? ? ? ? ? ? ?]. cbn [de_name] in Hn.
  do 11 (destruct name as [|? name]; [done|]). destruct name; [|done].
  repeat (apply Forall_cons in Hw as [? Hw]). cbn in *. unfold entry_bytes, le16_bytes, le32_bytes. cbn [app].
  rewrite entry_of_bytes, !le16_eq, le32_bytes_eq by done. done.
Qed.

Lemma length_entry_bytes e : length (de_name e) = 11%nat → length (entry_bytes e) = 32%nat.
Proof. intros H. unfold entry_bytes. rewrite length_app, H. done. Qed.

Record lfn_ok (e : fat32_lfn_entry) : Prop := {
  lo_lengths : length (name1 e) = 5%nat ∧ length (name2 e) = 6%nat ∧ length (name3 e) = 2%nat;
  lo_words : Forall (λ v, 0 ≤ v < 2 ^ 16) (name1 e ++ name2 e ++ name3 e ++ [lfn_cluster_low e]);
}.

Lemma lfn_roundtrip e : lfn_ok e → lfn_of (lfn_bytes e) = Some e ∧ ∃ d, entry_of (lfn_bytes e) = Some d ∧ attr d = lfn_attr e.
Proof.
  intros [(H1 & H2 & H3) Hw]. destruct e as [? n1 ? ? ? n2 ? n3]. cbn in *.
  do 5 (destruct n1 as [|? n1]; [done|]). destruct n1; [|done]. do 6 (destruct n2 as [|? n2]; [done|]). destruct n2; [|done].
  do 2 (destruct n3 as [|? n3]; [done|]). destruct n3; [|done]. cbn [app] in Hw. repeat (apply Forall_cons in Hw as [? Hw]).
  unfold lfn_bytes. cbn [order name1 lfn_attr lfn_type checksum name2 lfn_cluster_low name3]. simpl.
  rewrite !le16_eq by done. split; [done|]. by eexists.
Qed.

(** ** Long names *)

Section Lfn.
Context (name : list Z) (Hname : Forall (λ c, 0 < c < 256) name) (sum : Z).

Definition char_at (idx : Z) : Z := if idx <=? zlen name then (name ++ [0]) !!! Z.to_nat idx else 0xFFFF.

Lemma char_at_range idx : 0 ≤ idx → 0 ≤ char_at idx < 2 ^ 16.
Proof.
  intros Hi. unfold char_at. destruct (Z.leb_spec idx (zlen name)); [|lia].
  destruct (lookup_lt_is_Some_2 (name ++ [0]) (Z.to_nat idx)) as [c Hc]; [rewrite length_app; cbn; lia|].
  rewrite (list_lookup_total_correct _ _ _ Hc). apply lookup_app_Some in Hc as [Hc|[_ Hc]].
  - pose proof (Forall_lookup_1 _ _ _ _ Hname Hc). cbn in *. lia.
  - apply list_lookup_singleton_Some in Hc as [_ <-]. lia.
Qed.

Lemma lfn_chars_run n a :
  0 ≤ a ≤ zlen name → lfn_chars (char_at <$> seqZ a (Z.of_nat n)) = take n (drop (Z.to_nat a) name).
Proof.
  revert a. induction n as [|n IH]; intros a Ha; [done|]. rewrite seqZ_cons by lia. cbn [fmap list_fmap lfn_chars].
  unfold char_at at 1 2 3. rewrite (proj2 (Z.leb_le _ _)) by lia. destruct (decide (a = zlen name)) as [->|Hne].
  - rewrite Nat2Z.id, list_lookup_total_middle by done. cbn [Z.eqb orb]. by rewrite drop_all, take_nil.
  - destruct (lookup_lt_is_Some_2 name (Z.to_nat a)) as [c Hc]; [lia|]. rewrite lookup_total_app_l by lia.
    rewrite (list_lookup_total_correct _ _ _ Hc). pose proof (Forall_lookup_1 _ _ _ _ Hname Hc) as Hcr. cbn in Hcr.
    rewrite !(proj2 (Z.eqb_neq c _)) by lia. cbn [orb]. rewrite (drop_S _ _ _ Hc). cbn [take]. f_equal.
    replace (Z.pred (Z.of_nat (S n))) with (Z.of_nat n) by lia. rewrite IH by lia. do 2 f_equal. lia.
Qed.

Abbreviation count := ((zlen name + 12) / 13).
Abbreviation nth_entry := (lfn_entry_at (ascii_to_unicode name (zlen name + 1)) (zlen name) count sum).

Lemma unicode_eq : ascii_to_unicode name (zlen name + 1) = name ++ [0].
Proof.
  unfold ascii_to_unicode. cbv zeta. rewrite take_ge by lia. rewrite (proj2 (Z.ltb_lt _ _)) by lia. by replace (Z.to_nat _) with 0%nat by lia.
Qed.

Lemma nth_entry_name i :
  name1 (nth_entry i) ++ name2 (nth_entry i) ++ name3 (nth_entry i) = char_at <$> seqZ ((count - i - 1) * 13) 13.
Proof.
  unfold lfn_entry_at. cbn [name1 name2 name3]. rewrite unicode_eq. set (a := (count - i - 1) * LFN_CHARS_PER_ENTRY).
  change ((count - i - 1) * 13) with a. replace (char_at <$> seqZ a 13) with ((λ j, char_at (a + j)) <$> seqZ 0 13).
  { change (((λ j, char_at (a + j)) <$> seqZ 0 5) ++ ((λ j, char_at (a + 5 + j)) <$> seqZ 0 6) ++ ((λ j, char_at (a + 11 + j)) <$> seqZ 0 2) =
            (λ j, char_at (a + j)) <$> seqZ 0 13).
    change (seqZ 0 5) with [0; 1; 2; 3; 4]. change (seqZ 0 6) with [0; 1; 2; 3; 4; 5]. change (seqZ 0 2) with [0; 1].
    change (seqZ 0 13) with [0; 1; 2; 3; 4; 5; 6; 7; 8; 9; 10; 11; 12]. cbn [fmap list_fmap app]. by do 13 (apply f_equal2; [f_equal; lia|]). }
  replace (seqZ a 13) with (Z.add a <$> seqZ 0 13) by (rewrite fmap_add_seqZ; f_equal; lia). by rewrite <- list_fmap_compose.
Qed.

Hypothesis Hlen : 1 ≤ zlen name ≤ 255.

Lemma count_range : 1 ≤ count ≤ 20 ∧ 13 * (count - 1) < zlen name ≤ 13 * count.
Proof. dlia. Qed.

Lemma nth_entry_ok i : 0 ≤ i < count → lfn_ok (nth_entry i).
Proof.
  intros Hi. split; [done|]. rewrite !app_assoc, <- (app_assoc (name1 _)), nth_entry_name. apply Forall_app. split; [|by repeat constructor].
  apply Forall_fmap, Forall_forall. intros j [k Hk]%list_elem_of_lookup. apply lookup_seqZ in Hk as [-> Hk]. cbn. apply char_at_range. lia.
Qed.

Lemma extract_step i :
  0 ≤ i < count →
  lfn_extract_chars (nth_entry i) ++ drop (Z.to_nat (13 * (count - i))) name = drop (Z.to_nat (13 * (count - (i + 1)))) name.
Proof.
  intros Hi. pose proof count_range. unfold lfn_extract_chars. rewrite nth_entry_name. rewrite (lfn_chars_run 13) by lia.
  replace (Z.to_nat (13 * (count - i))) with (Z.to_nat ((count - i - 1) * 13) + 13)%nat by lia. rewrite <- drop_drop, take_drop. f_equal. lia.
Qed.

(** The parts of a name, last part first, as the entries hold them. *)
Definition lfn_text (es : list fat32_lfn_entry) (buf : list Z) : list Z := fold_left (λ buf e, lfn_extract_chars e ++ buf) es buf.

Lemma lfn_text_from n i :
  0 ≤ i → count - i = Z.of_nat n → lfn_text (nth_entry <$> seqZ i (Z.of_nat n)) (drop (Z.to_nat (13 * (count - i))) name) = name.
Proof.
  revert i. induction n as [|n IH]; intros i Hi Hn.
  - cbn. replace (Z.to_nat (13 * (count - i))) with 0%nat by lia. done.
  - rewrite seqZ_cons by lia. cbn [fmap list_fmap]. unfold lfn_text. cbn [fold_left]. rewrite extract_step by lia.
    replace (Z.pred (Z.of_nat (S n))) with (Z.of_nat n) by lia. apply IH; lia.
Qed.

Lemma order_first : Z.land (order (nth_entry 0)) LFN_LAST_ENTRY ≠ 0 ∧ Z.land (order (nth_entry 0)) 0x3F = count.
Proof.
  pose proof count_range. cbn [order lfn_entry_at Z.eqb]. rewrite Z.sub_0_r.
  assert (count ∈ seqZ 1 20) as Hin by (apply elem_of_seqZ; lia).
  assert (Forall (λ n, Z.land (u8 (Z.lor n LFN_LAST_ENTRY)) LFN_LAST_ENTRY ≠ 0 ∧ Z.land (u8 (Z.lor n LFN_LAST_ENTRY)) 0x3F = n) (seqZ 1 20)) as Hall
    by (by repeat constructor).
  rewrite Forall_forall in Hall. apply Hall, list_elem_of_In. by apply list_elem_of_In.
Qed.

Lemma read_created n i expected cks k tail :
  0 ≤ i → count - i = Z.of_nat (S n) → (i ≠ 0 → expected = count - i ∧ cks = sum) →
  read_lfn_loop (((λ i, lfn_bytes (nth_entry i)) <$> seqZ i (Z.of_nat (S n))) ++ tail) (i =? 0) expected cks k
    (drop (Z.to_nat (13 * (count - i))) name) = Ret (0, None).
Proof.
  revert i expected cks k. induction n as [|n IH]; intros i expected cks k Hi Hn Hinv; pose proof count_range as Hcr.
  all: rewrite seqZ_cons by lia; cbn [fmap list_fmap app read_lfn_loop].
  all: destruct (lfn_roundtrip _ (nth_entry_ok i ltac:(lia))) as [-> (d & -> & ->)].
  all: replace (negb (lfn_attr (nth_entry i) =? FAT_ATTR_LONG_NAME)) with false by done.
  all: destruct order_first as [Ho1 Ho2].
  all: assert ((i =? 0) && (Z.land (order (nth_entry i)) LFN_LAST_ENTRY =? 0) = false) as ->
         by (destruct (Z.eqb_spec i 0) as [->|]; [by apply Z.eqb_neq | done]).
  all: assert (i ≠ 0 → order (nth_entry i) = expected) as Hord
         by (intros Hi0; cbn; rewrite (proj2 (Z.eqb_neq i 0) Hi0); destruct (Hinv Hi0) as [-> _]; apply Z.mod_small; lia).
  all: assert (negb (i =? 0) && negb (order (nth_entry i) =? expected) = false) as ->
         by (destruct (Z.eqb_spec i 0) as [|Hi0]; [done|]; rewrite (Hord Hi0), Z.eqb_refl; done).
  all: assert (negb (i =? 0) && negb (checksum (nth_entry i) =? cks) = false) as ->
         by (destruct (Z.eqb_spec i 0) as [|Hi0]; [done|]; destruct (Hinv Hi0) as [_ ->]; cbn; by rewrite Z.eqb_refl).
  all: cbv zeta; assert ((if i =? 0 then Z.land (order (nth_entry i)) 0x3F else expected) = count - i) as ->
         by (destruct (Z.eqb_spec i 0) as [->|Hi0]; [rewrite Z.sub_0_r; done | by destruct (Hinv Hi0)]).
  all: rewrite extract_step by lia; rewrite (proj2 (Z.ltb_ge _ (zlen (lfn_extract_chars _) + _)))
         by (rewrite <- Nat2Z.inj_add, <- length_app, extract_step by lia; rewrite length_drop; lia).
  - replace (u8 (count - i - 1)) with 0; [done|]. by replace (count - i - 1) with 0 by lia.
  - assert (u8 (count - i - 1) = count - i - 1) as -> by (apply Z.mod_small; lia). rewrite (proj2 (Z.eqb_neq _ 0)) by lia. replace (Z.pred (Z.of_nat (S (S n)))) with (Z.of_nat (S n)) by lia.
    specialize (IH (i + 1) (count - i - 1) (if i =? 0 then checksum (nth_entry i) else cks) (k + 1) ltac:(lia) ltac:(lia)).
    rewrite (proj2 (Z.eqb_neq (i + 1) 0)) in IH by lia. apply IH. intros _. split; [lia|].
    destruct (Z.eqb_spec i 0) as [|Hi0]; [done | by destruct (Hinv Hi0)].
Qed.
End Lfn.

(** Long names are written and cannot be read: the entries that [fat32_create_lfn]
    makes hold the characters of the name, part by part, in order and with the
    checksum of the short name, but reading stops at the last of them, before the
    short entry that would complete the name, and reports that there is none. *)
Theorem lfn_lost name short_name max_entries tail :
  Forall (λ c, 0 < c < 256) name → 1 ≤ zlen name ≤ 255 → needs_lfn name = true → 21 ≤ max_entries →
  ∃ n raws es, fat32_create_lfn name short_name max_entries = Ret (n, raws) ∧ 0 < n ∧ zlen raws = n ∧
    mapM lfn_of raws = Some es ∧ unicode_to_ascii (lfn_text es []) = name ∧
    Forall (λ e, checksum e = lfn_checksum short_name ∧ lfn_attr e = FAT_ATTR_LONG_NAME) es ∧
    fat32_read_lfn (raws ++ tail) = Ret (0, None).
Proof.
  intros Hname Hlen Hneed Hmax. unfold fat32_create_lfn. rewrite Hneed. cbn [negb]. cbv zeta.
  replace (zlen name + 13 - 1) with (zlen name + 12) by lia. pose proof (count_range name Hlen) as Hcr. set (n := (zlen name + 12) / 13) in *.
  rewrite !(proj2 (Z.ltb_ge _ _)) by lia. set (sum := lfn_checksum short_name).
  eexists n, _, (lfn_entry_at (ascii_to_unicode name (zlen name + 1)) (zlen name) n sum <$> seqZ 0 n). split; [reflexivity|].
  split_and!; [lia | rewrite length_fmap, length_seqZ; lia | | | |].
  - apply mapM_Some, Forall2_fmap, Forall_Forall2_diag, Forall_forall. intros i [k Hk]%list_elem_of_lookup. apply lookup_seqZ in Hk as [-> Hk].
    apply lfn_roundtrip, nth_entry_ok; try done; fold n; lia.
  - pose proof (lfn_text_from name Hname sum Hlen (Z.to_nat n) 0 ltac:(lia) ltac:(lia)) as E. fold n in E.
    rewrite Z2Nat.id, Z.sub_0_r, drop_ge in E by lia. rewrite E. unfold unicode_to_ascii. rewrite <- (list_fmap_id name) at 2.
    apply list_fmap_ext. intros j c Hc. pose proof (Forall_lookup_1 _ _ _ _ Hname Hc) as Hcr2. cbn in Hcr2.
    change 0xFF with (Z.ones 8). rewrite Z.land_ones by lia. change (id c) with c. rewrite Z.mod_small; lia.
  - apply Forall_fmap, Forall_true. done.
  - pose proof (read_created name Hname sum Hlen (pred (Z.to_nat n)) 0 0 0 0 tail ltac:(lia) ltac:(fold n; lia) ltac:(done)) as E. fold n in E.
    replace (Z.of_nat (S (pred (Z.to_nat n)))) with n in E by lia. rewrite Z.sub_0_r, drop_ge in E by lia. exact E.
Qed.

(** "long name", in one entry. *)
Lemma lfn_lost_witness :
  ∃ n raws, fat32_create_lfn [108; 111; 110; 103; 32; 110; 97; 109; 101] (replicate 11 65) 21 = Ret (n, raws) ∧ 0 < n ∧
    fat32_read_lfn (raws ++ [replicate 32 65]) = Ret (0, None).
Proof.
  destruct (lfn_lost [108; 111; 110; 103; 32; 110; 97; 109; 101] (replicate 11 65) 21 [replicate 32 65]) as (n & raws & es & E & Hn & _ & _ & _ & _ & Hr);
    [by repeat constructor | done | reflexivity | done|]. by exists n, raws.
Defined.

(** ** Short names *)

(** A character that the short name keeps, as a capital. *)
Definition legal (c : Z) : bool := let ch := upper c in isalnum (i8 ch) || (ch =? 95).

Lemma upper_legal c : is_byte c → legal c = true → upper c ≠ 0 ∧ upper c ≠ 32 ∧ upper c ≠ 46 ∧ c ≠ 46 ∧ upcase (upper c) = upcase c.
Proof.
  intros Hc Hl. assert (c ∈ seqZ 0 256) as Hin by (apply elem_of_seqZ; unfold is_byte in Hc; lia).
  assert (forallb (λ c, negb (legal c) || (negb (upper c =? 0) && negb (upper c =? 32) && negb (upper c =? 46) && negb (c =? 46) && (upcase (upper c) =? upcase c)))
    (seqZ 0 256) = true) as Hall by (vm_compute; reflexivity).
  rewrite forallb_forall in Hall. specialize (Hall c (proj1 (list_elem_of_In _ _) Hin)). rewrite Hl in Hall. cbn [negb orb] in Hall.
  repeat (apply andb_true_iff in Hall as [Hall ?]). repeat match goal with H : negb _ = true |- _ => apply negb_true_iff, Z.eqb_neq in H end.
  match goal with H : (_ =? _) = true |- _ => apply Z.eqb_eq in H end. done.
Qed.

Lemma copy_legal_take room s : Forall (λ c, legal c = true) s → copy_legal room s = upper <$> take room s.
Proof.
  intros Hs. revert room. induction Hs as [|c s Hc Hs IH]; intros [|room]; try done. cbn [copy_legal take fmap list_fmap]. unfold legal in Hc. cbv zeta in *.
  apply orb_true_iff in Hc. rewrite IH. destruct (isalnum (i8 (upper c))); [done|]. destruct Hc as [|Hc]; [done|]. by rewrite Hc.
Qed.

Lemma until_none c s : c ∉ s → until c s = s.
Proof. induction s as [|x s IH]; [done|]. intros Hn. cbn. rewrite (proj2 (Z.eqb_neq x c)) by set_solver. f_equal. apply IH. set_solver. Qed.

Lemma until_app c s t : c ∉ s → until c (s ++ c :: t) = s.
Proof.
  induction s as [|x s IH]; intros Hn; cbn; [by rewrite Z.eqb_refl|]. rewrite (proj2 (Z.eqb_neq x c)) by set_solver. f_equal. apply IH. set_solver.
Qed.

Lemma until_pad s n : 32 ∉ s → until 32 (pad n s) = s.
Proof.
  intros Hs. unfold pad. destruct (n - length s)%nat; cbn; [rewrite app_nil_r; by apply until_none | by apply until_app].
Qed.

Lemma split_last_eq c s t : c ∉ t → split_last c (s ++ c :: t) = Some (s, t).
Proof.
  intros Hn. unfold split_last, split_first. rewrite rev_app_distr. cbn [rev]. rewrite <- app_assoc. cbn [app].
  assert (c ∉ rev t) as Hr by (rewrite list_elem_of_In, <- in_rev, <- list_elem_of_In; done).
  rewrite bool_decide_true by set_solver. rewrite until_app by done. replace (S (length (rev t))) with (length (rev t ++ [c])) by (rewrite length_app; cbn; lia).
  replace (rev t ++ c :: rev s) with ((rev t ++ [c]) ++ rev s) by (by rewrite <- app_assoc).
  rewrite drop_app_length, !rev_involutive. done.
Qed.

Lemma same_length s t : same_ignoring_case s t = true → length s = length t.
Proof. revert t. induction s as [|c s IH]; intros [|d t]; cbn; try done. intros [_ H]%andb_true_iff. f_equal. by apply IH. Qed.

Lemma same_map s t : Forall2 (λ c d, upcase c = upcase d) s t → same_ignoring_case s t = true.
Proof. induction 1 as [|c d s t E _ IH]; cbn; [done|]. by rewrite E, Z.eqb_refl. Qed.

Lemma length_pad n s : (length s ≤ n)%nat → length (pad n s) = n.
Proof. intros H. unfold pad. rewrite length_app, length_replicate. lia. Qed.

Lemma pad_bytes n s : Forall is_byte s → Forall is_byte (pad n s).
Proof. intros H. apply Forall_app. split; [done|]. by apply Forall_replicate. Qed.

Lemma upper_byte c : is_byte (upper c).
Proof. apply Z.mod_pos_bound. lia. Qed.

Lemma copy_legal_ok room s : (length (copy_legal room s) ≤ room)%nat ∧ Forall is_byte (copy_legal room s).
Proof.
  revert room. induction s as [|c s IH]; intros [|room]; cbn; try (split; [lia | constructor]). cbv zeta. destruct (_ || _); [|apply IH].
  destruct (IH room). split; [cbn; lia|]. constructor; [apply upper_byte | done].
Qed.

Lemma short_name_ok long_name : length (fat32_generate_short_name long_name 0) = 11%nat ∧ Forall is_byte (fat32_generate_short_name long_name 0).
Proof.
  unfold fat32_generate_short_name. destruct (match split_last 46 long_name with Some p => p | None => _ end) as [base ext]. cbn [Z.ltb Z.compare].
  destruct (copy_legal_ok 6 base) as [H1 H2]. split.
  - rewrite length_app, !length_pad; [done | rewrite length_fmap, length_take; lia | lia].
  - apply Forall_app. split; apply pad_bytes; [done|]. apply Forall_fmap, Forall_true. intros c. cbn. unfold ext_char. cbv zeta.
    destruct (_ || _); [apply upper_byte | done].
Qed.

(** The short name of a base and an extension of legal characters, as it is shown. *)
Lemma format_short base ext :
  Forall (λ c, is_byte c ∧ legal c = true) base → Forall (λ c, is_byte c ∧ legal c = true) ext → (1 ≤ length ext ≤ 3)%nat →
  format_83_name (fat32_generate_short_name (base ++ 46 :: ext) 0) = (upper <$> take 6 base) ++ 46 :: (upper <$> ext).
Proof.
  intros Hb He Hl. assert (∀ s x, Forall (λ c, is_byte c ∧ legal c = true) s → x = 0 ∨ x = 32 ∨ x = 46 → x ∉ upper <$> s) as Hno.
  { intros s x Hs Hx [c [-> Hc]]%list_elem_of_fmap. rewrite Forall_forall in Hs. destruct (Hs c Hc) as [Hcb Hcl].
    destruct (upper_legal c Hcb Hcl) as (? & ? & ? & _). naive_solver. }
  assert (46 ∉ ext) as Hdot.
  { intros Hin. rewrite Forall_forall in He. destruct (He _ Hin) as [H1 H2]. by destruct (upper_legal _ H1 H2) as (_ & _ & _ & ? & _). }
  unfold fat32_generate_short_name. rewrite split_last_eq by done. cbn [Z.ltb Z.compare].
  rewrite copy_legal_take by (eapply Forall_impl; [done | naive_solver]).
  assert (ext_char <$> take 3 ext = upper <$> ext) as ->.
  { rewrite take_ge by lia. apply list_fmap_ext. intros j c Hc. destruct (Forall_lookup_1 _ _ _ _ He Hc) as [_ Hcl].
    unfold ext_char. cbv zeta. unfold legal in Hcl. cbv zeta in Hcl. by rewrite Hcl. }
  set (b := upper <$> take 6 base). set (e := upper <$> ext).
  assert (length b ≤ 6)%nat as Hlb by (unfold b; rewrite length_fmap, length_take; lia).
  assert (length (pad 8 b) = 8%nat) as Hp8 by (unfold pad; rewrite length_app, length_replicate; lia).
  assert (length e = length ext) as Hle by (by unfold e; rewrite length_fmap).
  assert (length (pad 3 e) = 3%nat) as Hp3 by (unfold pad; rewrite length_app, length_replicate; lia).
  assert (∀ x, x = 0 ∨ x = 32 ∨ x = 46 → (x ∉ b) ∧ (x ∉ e)) as Hbe by (intros x Hx; split; apply Hno; try done; by apply Forall_take).
  unfold format_83_name. rewrite (take_app_length' _ _ 8), (drop_app_length' _ _ 8), (take_ge (pad 3 e)) by lia.
  rewrite lookup_total_app_r, Hp8, Nat.sub_diag by lia. destruct e as [|x e'] eqn:Ee; [cbn in Hle; lia|].
  change (pad 3 (x :: e') !!! 0%nat) with x. rewrite (proj2 (Z.eqb_neq x 32)) by (destruct (Hbe 32 ltac:(auto)); set_solver).
  rewrite !until_pad by (apply Hbe; auto). apply until_none. destruct (Hbe 0 ltac:(auto)). set_solver.
Qed.

Lemma name_match_short base ext :
  Forall (λ c, is_byte c ∧ legal c = true) base → Forall (λ c, is_byte c ∧ legal c = true) ext → (1 ≤ length ext ≤ 3)%nat → (length base ≤ 6)%nat →
  name_match (fat32_generate_short_name (base ++ 46 :: ext) 0) (base ++ 46 :: ext) = true.
Proof.
  intros Hb He Hl Hlen. unfold name_match. rewrite format_short by done. rewrite take_ge by lia. apply same_map.
  assert (∀ s, Forall (λ c, is_byte c ∧ legal c = true) s → Forall2 (λ c d, upcase c = upcase d) (upper <$> s) s) as Hs.
  { intros s Hs. apply Forall2_fmap_l, Forall_Forall2_diag. eapply Forall_impl; [exact Hs|]. intros c [H1 H2]. by destruct (upper_legal c H1 H2) as (_ & _ & _ & _ & ?). }
  apply Forall2_app; [by apply Hs|]. constructor; [done | by apply Hs].
Qed.

(** A file is found under the name it was created with exactly when the part in
    front of the dot has at most six characters: of longer ones the short name
    keeps six, so that the name does not match its own entry, and names with the
    same six first characters share one. *)
Theorem short_name_matches base ext :
  Forall (λ c, is_byte c ∧ legal c = true) base → Forall (λ c, is_byte c ∧ legal c = true) ext → (1 ≤ length ext ≤ 3)%nat →
  name_match (fat32_generate_short_name (base ++ 46 :: ext) 0) (base ++ 46 :: ext) = bool_decide (length base ≤ 6)%nat ∧
  ∀ base', Forall (λ c, is_byte c ∧ legal c = true) base' → take 6 base' = take 6 base →
    fat32_generate_short_name (base' ++ 46 :: ext) 0 = fat32_generate_short_name (base ++ 46 :: ext) 0.
Proof.
  intros Hb He Hl. split.
  - case_bool_decide as Hlen; [by apply name_match_short|]. unfold name_match. rewrite format_short by done.
    apply not_true_is_false. intros Hs%same_length. rewrite !length_app in Hs. cbn [length] in Hs. rewrite !length_fmap, length_take in Hs. lia.
  - intros base' Hb' E. assert (46 ∉ ext) as Hdot.
    { intros Hin. rewrite Forall_forall in He. destruct (He _ Hin) as [H1 H2]. by destruct (upper_legal _ H1 H2) as (_ & _ & _ & ? & _). }
    unfold fat32_generate_short_name. rewrite !split_last_eq by done. rewrite !copy_legal_take by (eapply Forall_impl; [done | naive_solver]).
    by rewrite E.
Qed.

(** "notes.txt" *)
Lemma short_name_matches_witness :
  name_match (fat32_generate_short_name [110; 111; 116; 101; 115; 46; 116; 120; 116] 0) [110; 111; 116; 101; 115; 46; 116; 120; 116] = true.
Proof.
  apply (short_name_matches [110; 111; 116; 101; 115] [116; 120; 116]); [by repeat constructor | by repeat constructor | cbn; lia].
Defined.
