(* ===== verification/FatDir.v ===== *)
(** * FAT32: directories (kernel/fs/fat32_dir.c, kernel/fs/fat32_create.c)

    Searching and listing a directory, resolving a path, and creating and removing
    files and directories.  A directory is a chain of clusters that hold entries of
    32 bytes.

    Allocations are arguments: a buffer of one cluster is the list of its bytes,
    [None] if [kmalloc] fails, and a boolean says whether the allocation of an
    entry succeeds; [fat32_lookup] makes one of each for each part of the path.
    The walks along a chain get one step more than there are clusters, which is
    enough for a chain; a damaged one whose links form a circle makes the code
    loop, and the model [Undef]. *)

From S2P Require Import Prelude Bytes Errno Mem Strings Block Fat FatName.

#[local] Open Scope Z_scope.

Section Dir.
Context {D : Type} `{!BlockDevice D}.

Definition entry_at (cluster_buf : list Z) (i : Z) : option fat32_dir_entry :=
  raw ← slice (i * sizeof_dir_entry) sizeof_dir_entry cluster_buf; entry_of raw.

(** [entry->name[0]], a [char]. *)
Definition name0 (e : fat32_dir_entry) : Z := i8 (de_name e !!! 0%nat).

Definition entries_per_cluster (fs : fat32_fs_info) : nat := Z.to_nat (cluster_size fs / sizeof_dir_entry).

Definition chain_fuel (fs : fat32_fs_info) : nat := S (Z.to_nat (total_clusters fs)).

(** The entries that the loops pass over. *)
Definition skipped (e : fat32_dir_entry) : bool :=
  (name0 e =? FAT_DIR_ENTRY_FREE) || (attr e =? FAT_ATTR_LONG_NAME) || negb (Z.land (attr e) FAT_ATTR_VOLUME_ID =? 0).

(** ** Searching *)

(** The body of the loop over the entries: [Some] returns from the function. *)
Definition find_step (rmem : bool) (name cluster_buf : list Z) (i : Z) : M D (option (option fat32_dir_entry)) :=
  e ← deref (entry_at cluster_buf i);
  if name0 e =? FAT_DIR_ENTRY_END then mret (Some None)
  else if skipped e then mret None
  else if name_match (de_name e) name then mret (Some (if rmem then Some e else None))
  else mret None.

Fixpoint find_loop (fuel : nat) (fs : fat32_fs_info) (rmem : bool) (name : list Z) (cluster : Z) (cluster_buf : list Z) :
    M D (option fat32_dir_entry) :=
  match fuel with
  | O => undef
  | S fuel =>
      if (2 <=? cluster) && negb (fat32_is_eoc cluster) then
        '(r, cluster_buf) ← fat32_read_cluster fs cluster cluster_buf;
        if r <? 0 then mret None
        else
          found ← for_ret (entries_per_cluster fs) 0 (find_step rmem name cluster_buf);
          match found with
          | Some result => mret result
          | None => next ← fat32_read_fat fs cluster; find_loop fuel fs rmem name next cluster_buf
          end
      else mret None
  end.

Definition fat32_find_in_dir (fs : fat32_fs_info) (mem : option (list Z)) (rmem : bool) (dir_cluster : Z) (name : list Z) :
    M D (option fat32_dir_entry) :=
  match mem with
  | None => mret None
  | Some cluster_buf => find_loop (chain_fuel fs) fs rmem name dir_cluster cluster_buf
  end.

(** ** Listing *)

(** The entries of one cluster: the index that is reached, and what the function
    returns if it ends there. *)
Fixpoint readdir_scan (n : nat) (i : Z) (cluster_buf : list Z) (index current_index : Z) :
    M D (Z * option (Z * option (list Z * fat32_dir_entry))) :=
  match n with
  | O => mret (current_index, None)
  | S n =>
      e ← deref (entry_at cluster_buf i);
      if name0 e =? FAT_DIR_ENTRY_END then mret (current_index, Some (0, None))
      else if skipped e then readdir_scan n (i + 1) cluster_buf index current_index
      else if current_index =? index then mret (current_index, Some (1, Some (format_83_name (de_name e), e)))
      else readdir_scan n (i + 1) cluster_buf index (current_index + 1)
  end.

Fixpoint readdir_loop (fuel : nat) (fs : fat32_fs_info) (index current_index cluster : Z) (cluster_buf : list Z) :
    M D (Z * option (list Z * fat32_dir_entry)) :=
  match fuel with
  | O => undef
  | S fuel =>
      if (2 <=? cluster) && negb (fat32_is_eoc cluster) then
        '(r, cluster_buf) ← fat32_read_cluster fs cluster cluster_buf;
        if r <? 0 then mret (- EIO, None)
        else
          '(current_index, result) ← readdir_scan (entries_per_cluster fs) 0 cluster_buf index current_index;
          match result with
          | Some result => mret result
          | None => next ← fat32_read_fat fs cluster; readdir_loop fuel fs index current_index next cluster_buf
          end
      else mret (0, None)
  end.

(** The result, and the name and the entry that it stores for the caller. *)
Definition fat32_readdir (fs : fat32_fs_info) (mem : option (list Z)) (dir_cluster index : Z) : M D (Z * option (list Z * fat32_dir_entry)) :=
  match mem with
  | None => mret (- ENOMEM, None)
  | Some cluster_buf => readdir_loop (chain_fuel fs) fs index 0 dir_cluster cluster_buf
  end.

(** ** Paths *)

Definition zero_entry : fat32_dir_entry :=
  {| de_name := replicate 11 0; attr := 0; nt_reserved := 0; create_time_tenth := 0; create_time := 0; create_date := 0; last_access_date := 0;
     first_cluster_high := 0; write_time := 0; write_date := 0; first_cluster_low := 0; file_size := 0 |}.

Definition set_name_attr (name : list Z) (a : Z) (e : fat32_dir_entry) : fat32_dir_entry :=
  {| de_name := name; attr := a; nt_reserved := nt_reserved e; create_time_tenth := create_time_tenth e; create_time := create_time e;
     create_date := create_date e; last_access_date := last_access_date e; first_cluster_high := first_cluster_high e;
     write_time := write_time e; write_date := write_date e; first_cluster_low := first_cluster_low e; file_size := file_size e |}.

(** What successive calls of [strtok(path, "/")] return. *)
Fixpoint tokens (fuel : nat) (s : list Z) : list (list Z) :=
  match fuel with
  | O => []
  | S fuel =>
      match suffix_chars true [47] s with
      | [] => []
      | s => prefix_chars false [47] s :: tokens fuel (drop 1 (suffix_chars false [47] s))
      end
  end.

Definition is_directory (e : fat32_dir_entry) : bool := negb (Z.land (attr e) FAT_ATTR_DIRECTORY =? 0).

Fixpoint lookup_loop (fs : fat32_fs_info) (mem : nat → option (list Z)) (rmem : nat → bool) (k : nat) (toks : list (list Z)) (cluster : Z) :
    M D (option fat32_dir_entry) :=
  match toks with
  | [] => mret None
  | token :: toks =>
      found ← fat32_find_in_dir fs (mem k) (rmem k) cluster token;
      match found with
      | None => mret None
      | Some e =>
          match toks with
          | [] => mret (Some e)
          | _ =>
              if negb (is_directory e) then mret None
              else lookup_loop fs mem rmem (S k) toks (fat32_get_first_cluster e)
          end
      end
  end.

(** [smem] is whether [strdup] succeeds, [rmem 0] also whether the entry of the root
    directory can be allocated. *)
Definition fat32_lookup (fs : fat32_fs_info) (mem : nat → option (list Z)) (rmem : nat → bool) (smem : bool) (path : list Z) :
    M D (option fat32_dir_entry) :=
  let path := match path with 47 :: p => p | p => p end in
  match path with
  | [] =>
      mret (if rmem 0%nat then Some (fat32_set_first_cluster (root_cluster fs) (set_name_attr (47 :: replicate 10 32) FAT_ATTR_DIRECTORY zero_entry))
            else None)
  | _ => if negb smem then mret None else lookup_loop fs mem rmem 0 (tokens (length path) path) (root_cluster fs)
  end.

(** ** A place for a new entry *)

Definition free_step (cluster_buf : list Z) (cluster i : Z) : M D (option (Z * Z)) :=
  e ← deref (entry_at cluster_buf i);
  if (name0 e =? FAT_DIR_ENTRY_END) || (name0 e =? FAT_DIR_ENTRY_FREE) then mret (Some (cluster, i * sizeof_dir_entry)) else mret None.

(** The place, or an error; without either, the link at which the chain ends. *)
Fixpoint find_free_loop (fuel : nat) (fs : fat32_fs_info) (cluster : Z) (cluster_buf : list Z) : M D (Z * option (Z * Z) * Z) :=
  match fuel with
  | O => undef
  | S fuel =>
      if (2 <=? cluster) && negb (fat32_is_eoc cluster) then
        '(r, cluster_buf) ← fat32_read_cluster fs cluster cluster_buf;
        if r <? 0 then mret (- EIO, None, cluster)
        else
          found ← for_ret (entries_per_cluster fs) 0 (free_step cluster_buf cluster);
          match found with
          | Some p => mret (0, Some p, cluster)
          | None => next ← fat32_read_fat fs cluster; find_free_loop fuel fs next cluster_buf
          end
      else mret (0, None, cluster)
  end.

(** [while (!fat32_is_eoc(fat32_read_fat(fs, last)))] *)
Fixpoint last_loop (fuel : nat) (fs : fat32_fs_info) (last : Z) : M D Z :=
  match fuel with
  | O => undef
  | S fuel =>
      next ← fat32_read_fat fs last;
      if fat32_is_eoc next then mret last else last ← fat32_read_fat fs last; last_loop fuel fs last
  end.

Definition fat32_find_free_dir_entry (fs : fat32_fs_info) (mem : option (list Z)) (dir_cluster : Z) : M D (Z * (Z * Z)) :=
  match mem with
  | None => mret (- ENOMEM, (0, 0))
  | Some cluster_buf =>
      '(r, found, cluster) ← find_free_loop (chain_fuel fs) fs dir_cluster cluster_buf;
      if r <? 0 then mret (r, (0, 0))
      else
        match found with
        | Some p => mret (0, p)
        | None =>
            new_cluster ← fat32_alloc_cluster fs;
            if new_cluster =? 0 then mret (- ENOSPC, (0, 0))
            else
              _ ← (if negb (fat32_is_eoc cluster) then
                     last ← last_loop (chain_fuel fs) fs dir_cluster; _ ← fat32_write_fat fs last new_cluster; mret tt
                   else mret tt);
              _ ← fat32_write_cluster fs new_cluster (replicate (Z.to_nat (cluster_size fs)) 0);
              mret (0, (new_cluster, 0))
        end
  end.

Definition fat32_write_dir_entry (fs : fat32_fs_info) (mem : option (list Z)) (cluster offset : Z) (entry : fat32_dir_entry) : M D Z :=
  match mem with
  | None => mret (- ENOMEM)
  | Some cluster_buf =>
      '(r, cluster_buf) ← fat32_read_cluster fs cluster cluster_buf;
      if r <? 0 then mret (- EIO)
      else
        cluster_buf ← deref (splice offset (entry_bytes entry) cluster_buf);
        r ← fat32_write_cluster fs cluster cluster_buf;
        if r <? 0 then mret (- EIO) else mret 0
  end.

(** ** Creating and removing *)

Definition fat32_get_current_time : Z := Z.lor (Z.lor (Z.shiftl 12 11) (Z.shiftl 0 5)) (0 / 2).
Definition fat32_get_current_date : Z := Z.lor (Z.lor (Z.shiftl (2024 - 1980) 9) (Z.shiftl 10 5)) 11.

Definition new_entry (name : list Z) (a cluster : Z) : fat32_dir_entry :=
  fat32_set_first_cluster cluster
    {| de_name := name; attr := a; nt_reserved := 0; create_time_tenth := 0; create_time := fat32_get_current_time;
       create_date := fat32_get_current_date; last_access_date := 0; first_cluster_high := 0; write_time := fat32_get_current_time;
       write_date := fat32_get_current_date; first_cluster_low := 0; file_size := 0 |}.

(** The part of the path behind its last slash. *)
Definition basename (path : list Z) : list Z := match split_last 47 path with Some (_, name) => name | None => path end.

(** [mem] and [wmem] are the buffers of the search and of the write. *)
Definition fat32_create_file (fs : option fat32_fs_info) (mem wmem : option (list Z)) (path : option (list Z)) : M D Z :=
  match fs, path with
  | Some fs, Some path =>
      let short_name := fat32_generate_short_name (basename path) 0 in
      '(ret, (entry_cluster, entry_offset)) ← fat32_find_free_dir_entry fs mem (root_cluster fs);
      if ret <? 0 then mret ret
      else
        ret ← fat32_write_dir_entry fs wmem entry_cluster entry_offset (new_entry short_name FAT_ATTR_ARCHIVE 0);
        if ret <? 0 then mret ret else mret 0
  | _, _ => mret (- EINVAL)
  end.

Definition fat32_unlink (fs : option fat32_fs_info) (mem : nat → option (list Z)) (rmem : nat → bool) (smem : bool) (path : option (list Z)) : M D Z :=
  match fs, path with
  | Some fs, Some path =>
      found ← fat32_lookup fs mem rmem smem path;
      match found with
      | None => mret (- ENOENT)
      | Some entry =>
          if is_directory entry then mret (- EISDIR)
          else
            let cluster := fat32_get_first_cluster entry in
            _ ← (if 2 <=? cluster then fat32_free_cluster fs cluster else mret 0);
            mret 0
      end
  | _, _ => mret (- EINVAL)
  end.

(** [dmem] is whether the buffer for the new directory can be allocated. *)
Definition fat32_mkdir (fs : option fat32_fs_info) (mem wmem : option (list Z)) (dmem : bool) (path : option (list Z)) : M D Z :=
  match fs, path with
  | Some fs, Some path =>
      let parent_cluster := root_cluster fs in
      new_cluster ← fat32_alloc_cluster fs;
      if new_cluster =? 0 then mret (- ENOSPC)
      else
        let short_name := fat32_generate_short_name (basename path) 0 in
        '(ret, (entry_cluster, entry_offset)) ← fat32_find_free_dir_entry fs mem parent_cluster;
        if ret <? 0 then _ ← fat32_free_cluster fs new_cluster; mret ret
        else
          ret ← fat32_write_dir_entry fs wmem entry_cluster entry_offset (new_entry short_name FAT_ATTR_DIRECTORY new_cluster);
          if ret <? 0 then _ ← fat32_free_cluster fs new_cluster; mret ret
          else
            _ ← (if dmem then
                   let dot := fat32_set_first_cluster new_cluster (set_name_attr (46 :: replicate 10 32) FAT_ATTR_DIRECTORY zero_entry) in
                   let dotdot := fat32_set_first_cluster parent_cluster (set_name_attr (46 :: 46 :: replicate 9 32) FAT_ATTR_DIRECTORY zero_entry) in
                   dir_buf ← deref (splice 0 (entry_bytes dot ++ entry_bytes dotdot) (replicate (Z.to_nat (cluster_size fs)) 0));
                   fat32_write_cluster fs new_cluster dir_buf
                 else mret 0);
            mret 0
  | _, _ => mret (- EINVAL)
  end.

(** An entry in use, from the third on, makes a directory not empty. *)
Definition empty_step (cluster_buf : list Z) (i : Z) : M D (option Z) :=
  e ← deref (entry_at cluster_buf i);
  if negb (name0 e =? FAT_DIR_ENTRY_END) && negb (name0 e =? FAT_DIR_ENTRY_FREE) then mret (Some (- ENOTEMPTY)) else mret None.

Definition fat32_rmdir (fs : option fat32_fs_info) (mem : nat → option (list Z)) (rmem : nat → bool) (smem : bool) (dmem : option (list Z))
    (path : option (list Z)) : M D Z :=
  match fs, path with
  | Some fs, Some path =>
      found ← fat32_lookup fs mem rmem smem path;
      match found with
      | None => mret (- ENOENT)
      | Some entry =>
          if negb (is_directory entry) then mret (- ENOTDIR)
          else
            let cluster := fat32_get_first_cluster entry in
            match dmem with
            | None => mret (- ENOMEM)
            | Some cluster_buf =>
                '(r, cluster_buf) ← fat32_read_cluster fs cluster cluster_buf;
                if r <? 0 then mret (- EIO)
                else
                  used ← for_ret (entries_per_cluster fs - 2) 2 (empty_step cluster_buf);
                  match used with
                  | Some e => mret e
                  | None => _ ← fat32_free_cluster fs cluster; mret 0
                  end
            end
      end
  | _, _ => mret (- EINVAL)
  end.
End Dir.
