(* ===== verification/FatDirSpec.v ===== *)
(** * FAT32: correctness of directories

    A directory is the list of its entries; the live ones are those in front of the
    first end mark.  Searching, listing and path resolution are the corresponding
    functions on these lists; creating a file replaces the end mark by a new entry. *)

From S2P Require Import Prelude Bytes Errno Mem Strings Block Fat FatSpec FatName FatDir.

#[local] Open Scope Z_scope.

(** ** The entries of a buffer *)

Definition entries_of (buf : list Z) : list fat32_dir_entry := (λ i, default zero_entry (entry_at buf i)) <$> seqZ 0 (zlen buf / 32).

Lemma entry_of_total raw : length raw = 32%nat → ∃ e, entry_of raw = Some e.
Proof. intros H. do 32 (destruct raw as [|? raw]; [done|]). destruct raw; [|done]. rewrite entry_of_bytes. by eexists. Qed.

Lemma length_entries buf : length (entries_of buf) = Z.to_nat (zlen buf / 32).
Proof. unfold entries_of. by rewrite length_fmap, length_seqZ. Qed.

Lemma entry_at_lookup buf j e : entries_of buf !! j = Some e → entry_at buf (Z.of_nat j) = Some e.
Proof.
  intros H. pose proof (lookup_lt_Some _ _ _ H) as Hj. rewrite length_entries in Hj. unfold entries_of in H.
  rewrite list_lookup_fmap, lookup_seqZ_lt in H by lia. cbn in H. rewrite Z.add_0_l in H.
  unfold entry_at in *. rewrite slice_take in * by dlia. cbn [mbind option_bind] in *.
  destruct (entry_of_total (take (Z.to_nat 32) (drop (Z.to_nat (Z.of_nat j * 32)) buf))) as [e' E]; [rewrite length_take, length_drop; dlia|].
  rewrite E in *. cbn in H. congruence.
Qed.

Lemma entry_bytes_ok e : entry_ok e → Forall is_byte (entry_bytes e).
Proof.
  intros [[_ Hn] (H1 & H2 & H3) _ _]. unfold entry_bytes, le16_bytes, le32_bytes. rewrite !Forall_app. split_and!; try done.
  all: repeat (apply Forall_cons; split); first [done | by apply Forall_nil | apply Z.mod_pos_bound; lia].
Qed.

(** Writing an entry back. *)
Lemma entries_splice buf j e :
  entry_ok e → (j < length (entries_of buf))%nat →
  ∃ buf', splice (Z.of_nat j * 32) (entry_bytes e) buf = Some buf' ∧ zlen buf' = zlen buf ∧ entries_of buf' = <[j := e]> (entries_of buf) ∧
    (Forall is_byte buf → Forall is_byte buf').
Proof.
  intros He Hj. pose proof Hj as Hj'. rewrite length_entries in Hj'. pose proof (length_entry_bytes e (proj1 (eo_name _ He))) as Hlen.
  assert (Z.of_nat j * 32 + 32 ≤ zlen buf) as Hb by dlia. rewrite splice_over by lia. eexists. split; [reflexivity|].
  assert (zlen (over (Z.to_nat (Z.of_nat j * 32)) (entry_bytes e) buf) = zlen buf) as Hz by (rewrite length_over by lia; done).
  split_and!; [done | | intros; apply over_Forall; [by apply entry_bytes_ok | done]].
  apply list_eq. intros k. destruct (decide (k < length (entries_of buf))%nat) as [Hk|Hk].
  2:{ rewrite !(proj2 (lookup_ge_None _ k)); rewrite ?length_insert, ?length_entries, ?Hz in *; (done || lia). }
  unfold entries_of at 1. rewrite list_lookup_fmap, Hz, lookup_seqZ_lt by (rewrite length_entries in Hk; lia). cbn [fmap option_fmap option_map]. rewrite Z.add_0_l.
  rewrite length_entries in Hk. unfold entry_at. rewrite slice_take by dlia. cbn [mbind option_bind].
  destruct (decide (k = j)) as [->|Hne].
  - rewrite list_lookup_insert_eq by done. change (Z.to_nat 32) with 32%nat. rewrite <- Hlen at 1. rewrite over_read by lia. by rewrite entry_roundtrip.
  - rewrite list_lookup_insert_ne by done. rewrite over_read_ne by lia. unfold entries_of. rewrite list_lookup_fmap, lookup_seqZ_lt by lia.
    cbn [fmap option_fmap option_map]. rewrite Z.add_0_l. unfold entry_at. rewrite slice_take by dlia. done.
Qed.

(** The first entry of a buffer, and a cleared buffer. *)
Lemma entries_cons e buf : entry_ok e → entries_of (entry_bytes e ++ buf) = e :: entries_of buf.
Proof.
  intros He. pose proof (length_entry_bytes e (proj1 (eo_name _ He))) as Hlen. unfold entries_of.
  assert (zlen (entry_bytes e ++ buf) / 32 = 1 + zlen buf / 32) as -> by (rewrite length_app, Hlen; dlia).
  rewrite seqZ_cons by dlia. cbn [fmap list_fmap]. f_equal.
  - unfold entry_at. rewrite slice_take by (rewrite ?length_app; lia). change (Z.to_nat (0 * 32)) with 0%nat. rewrite drop_0, (take_app_length' _ _ (Z.to_nat 32)) by done.
    cbn [mbind option_bind]. by rewrite entry_roundtrip.
  - replace (Z.pred (1 + zlen buf / 32)) with (zlen buf / 32) by lia. replace (Z.succ 0) with (1 + 0) by done. rewrite <- (fmap_add_seqZ 1 0).
    rewrite <- list_fmap_compose. apply list_fmap_ext. intros k i Hi. apply lookup_seqZ in Hi as [-> Hk]. cbn [compose]. unfold entry_at.
    rewrite !slice_take by (rewrite ?length_app; dlia).
    replace (Z.to_nat ((1 + (0 + Z.of_nat k)) * 32)) with (length (entry_bytes e) + Z.to_nat ((0 + Z.of_nat k) * 32))%nat by lia. by rewrite drop_app_add.
Qed.

Lemma zero_entry_ok : entry_ok zero_entry.
Proof. split; [split; [done | by apply Forall_replicate] | done | by repeat (apply Forall_cons; split) | done]. Qed.

Lemma entries_zero n : entries_of (replicate (32 * n) 0) = replicate n zero_entry.
Proof.
  induction n as [|n IH]; [done|]. replace (32 * S n)%nat with (32 + 32 * n)%nat by lia. rewrite replicate_add.
  change (replicate 32 0) with (entry_bytes zero_entry). rewrite entries_cons by apply zero_entry_ok. by rewrite IH.
Qed.

(** ** Directories as lists *)

Fixpoint live (es : list fat32_dir_entry) : list fat32_dir_entry :=
  match es with
  | [] => []
  | e :: es => if name0 e =? FAT_DIR_ENTRY_END then [] else e :: live es
  end.

Definition matches (name : list Z) (e : fat32_dir_entry) : bool := negb (skipped e) && name_match (de_name e) name.

(** The entry of that name, in a list of entries. *)
Definition search (name : list Z) (es : list fat32_dir_entry) : option fat32_dir_entry := List.find (matches name) (live es).

(** One cluster of it: [Some] when the search ends there. *)
Definition found (name : list Z) (e : fat32_dir_entry) : option (option fat32_dir_entry) :=
  if name0 e =? FAT_DIR_ENTRY_END then Some None else if matches name e then Some (Some e) else None.

Lemma search_app name es1 es2 :
  search name (es1 ++ es2) = match first_some (found name) es1 with Some r => r | None => search name es2 end.
Proof.
  unfold search. induction es1 as [|e es1 IH]; [done|]. cbn. unfold found at 1. destruct (name0 e =? FAT_DIR_ENTRY_END); [done|]. cbn.
  by destruct (matches name e).
Qed.

Lemma search_end name es1 e es2 : name0 e = FAT_DIR_ENTRY_END → search name (es1 ++ e :: es2) = search name es1.
Proof.
  intros He. unfold search. f_equal. induction es1 as [|x es1 IH]; cbn; [by rewrite He|]. destruct (_ =? _); [done|]. by rewrite IH.
Qed.

(** The entries that a listing shows, and what it returns at an index. *)
Definition visible (es : list fat32_dir_entry) : list fat32_dir_entry := filter (λ e, skipped e = false) (live es).

Definition listed (es : list fat32_dir_entry) (index : Z) : Z * option (list Z * fat32_dir_entry) :=
  match visible es !! Z.to_nat index with
  | Some e => (1, Some (format_83_name (de_name e), e))
  | None => (0, None)
  end.

Fixpoint scan (es : list fat32_dir_entry) (index current : Z) : Z * option (Z * option (list Z * fat32_dir_entry)) :=
  match es with
  | [] => (current, None)
  | e :: es =>
      if name0 e =? FAT_DIR_ENTRY_END then (current, Some (0, None))
      else if skipped e then scan es index current
      else if current =? index then (current, Some (1, Some (format_83_name (de_name e), e)))
      else scan es index (current + 1)
  end.

Lemma scan_listed es1 es2 index current :
  current ≤ index →
  match scan es1 index current with
  | (_, Some r) => listed (es1 ++ es2) (index - current) = r
  | (current', None) => current' ≤ index ∧ listed (es1 ++ es2) (index - current) = listed es2 (index - current')
  end.
Proof.
  revert current. induction es1 as [|e es1 IH]; intros current Hc; [done|]. cbn. unfold listed, visible. cbn.
  destruct (name0 e =? FAT_DIR_ENTRY_END); [done|]. destruct (skipped e) eqn:Hs.
  - specialize (IH current Hc). unfold listed, visible in IH. rewrite filter_cons_False by (by rewrite Hs). apply IH.
  - rewrite filter_cons_True by done. destruct (Z.eqb_spec current index) as [->|Hne]; [by rewrite Z.sub_diag|].
    specialize (IH (current + 1) ltac:(lia)). unfold listed, visible in IH. replace (Z.to_nat (index - current)) with (S (Z.to_nat (index - (current + 1)))) by lia.
    apply IH.
Qed.

(** A [char] is never 0xE5: entries that are marked as deleted are not recognised. *)
Lemma name0_not_free e : (name0 e =? FAT_DIR_ENTRY_FREE) = false.
Proof.
  apply Z.eqb_neq. unfold name0, i8, sgn. cbv zeta. pose proof (Z.mod_pos_bound (de_name e !!! 0%nat) (2 ^ 8) ltac:(lia)).
  change (2 ^ (8 - 1)) with 128. destruct (Z.ltb_spec ((de_name e !!! 0%nat) mod 2 ^ 8) 128); lia.
Qed.

(** What a listing should show, from the bytes of the entries: bit 3 of the attributes
    marks a volume label, and is set in every part of a long name. *)
Fixpoint before_end (es : list fat32_dir_entry) : list fat32_dir_entry :=
  match es with
  | [] => []
  | e :: es => if decide (de_name e !!! 0%nat = 0) then [] else e :: before_end es
  end.

Definition shown (es : list fat32_dir_entry) : list fat32_dir_entry := filter (λ e, Z.testbit (attr e) 3 = false) (before_end es).

(** Eight characters and an extension of three, each filled up with spaces. *)
Definition shown_name (name : list Z) : list Z :=
  let base := until 32 (take 8 name) in
  match until 32 (drop 8 name) with
  | [] => until 0 base
  | ext => until 0 (base ++ [46] ++ ext)
  end.

Lemma skipped_eq e : skipped e = Z.testbit (attr e) 3.
Proof.
  unfold skipped. rewrite name0_not_free. cbn [orb]. assert (Z.land (attr e) 8 = if Z.testbit (attr e) 3 then 8 else 0) as ->.
  { apply Z.bits_inj'. intros n Hn. rewrite Z.land_spec. change 8 with (2 ^ 3). rewrite Z.pow2_bits_eqb by lia.
    destruct (Z.eqb_spec 3 n) as [<-|]; [|rewrite andb_false_r; destruct (Z.testbit (attr e) 3); by rewrite ?Z.pow2_bits_false, ?Z.bits_0].
    rewrite andb_true_r. by destruct (Z.testbit (attr e) 3) eqn:E. }
  destruct (Z.eqb_spec (attr e) 15) as [->|]; [done|]. by destruct (Z.testbit (attr e) 3).
Qed.

Lemma shown_name_eq name : length name = 11%nat → format_83_name name = shown_name name.
Proof.
  intros H. unfold format_83_name, shown_name. do 11 (destruct name as [|? name]; [done|]). destruct name; [|done]. cbn [lookup_total list_lookup_total take drop].
  cbn [until]. match goal with |- context [if ?x =? 32 then [] else 46 :: _] => destruct (x =? 32) end; by rewrite ?app_nil_r.
Qed.

Definition raw_name (e : fat32_dir_entry) : Prop := length (de_name e) = 11%nat ∧ Forall is_byte (de_name e).

Lemma name0_end e : raw_name e → (name0 e =? FAT_DIR_ENTRY_END) = bool_decide (de_name e !!! 0%nat = 0).
Proof.
  intros [Hl Hb]. unfold name0. destruct (de_name e) as [|x n]; [done|]. apply Forall_cons in Hb as [Hx _]. cbn. unfold is_byte in Hx.
  unfold i8, sgn. cbv zeta. change (2 ^ (8 - 1)) with 128. rewrite Z.mod_small by lia.
  destruct (Z.ltb_spec x 128); case_bool_decide; (apply Z.eqb_eq || apply Z.eqb_neq); lia.
Qed.

(** What the code returns is what a listing should show. *)
Definition listing (es : list fat32_dir_entry) (index : Z) : Z * option (list Z * fat32_dir_entry) :=
  match shown es !! Z.to_nat index with
  | Some e => (1, Some (shown_name (de_name e), e))
  | None => (0, None)
  end.

Lemma listed_listing es index : Forall raw_name es → listed es index = listing es index.
Proof.
  intros Hes. assert (visible es = shown es) as Hv.
  { unfold visible, shown. replace (live es) with (before_end es); [apply list_filter_iff; intros e; by rewrite skipped_eq|].
    induction Hes as [|e es He _ IH]; [done|]. cbn. rewrite name0_end by done. case_bool_decide; [by rewrite decide_True | by rewrite decide_False, IH]. }
  unfold listed, listing. rewrite Hv. destruct (shown es !! Z.to_nat index) as [e|] eqn:E; [|done]. rewrite shown_name_eq; [done|].
  rewrite Forall_forall in Hes. apply Hes. apply list_elem_of_lookup_2 in E. unfold shown in E. apply list_elem_of_filter in E as [_ E].
  clear -E. induction es as [|x es IH]; cbn in E; [by apply not_elem_of_nil in E|]. case_decide; [by apply not_elem_of_nil in E|].
  apply elem_of_cons in E as [->|E]; [left | right; by apply IH].
Qed.

Section DirSpec.
Context {D : Type} `{!BlockDevice D} (fs : fat32_fs_info).
Implicit Types d : D.

Definition dir d (l : list Z) : list fat32_dir_entry := concat ((λ c, entries_of (cluster fs d c)) <$> l).

Lemma dir_cons d c l : dir d (c :: l) = entries_of (cluster fs d c) ++ dir d l.
Proof. done. Qed.

Lemma dir_same d d' l : (∀ x, x ∈ l → cluster fs d' x = cluster fs d x) → dir d' l = dir d l.
Proof. intros H. unfold dir. f_equal. apply list_fmap_ext. intros i c Hc. f_equal. apply H. by eapply list_elem_of_lookup_2. Qed.

Lemma entries_count d c : fs_ok fs d → length (entries_of (cluster fs d c)) = entries_per_cluster fs.
Proof. intros H. rewrite length_entries, length_cluster by done. done. Qed.

(** A loop over the entries of a cluster whose body looks at one entry. *)
Lemma scan_cluster {R} d c (f : fat32_dir_entry → option R) (body : Z → M D (option R)) :
  fs_ok fs d → (∀ i e, entry_at (cluster fs d c) i = Some e → body i d = Ret (f e, d)) →
  for_ret (entries_per_cluster fs) 0 body d = Ret (first_some f (entries_of (cluster fs d c)), d).
Proof.
  intros H Hb. rewrite <- (entries_count d c H). apply for_ret_list. intros j e He. rewrite Z.add_0_l. apply Hb. by apply entry_at_lookup.
Qed.

Lemma find_step_spec d name buf i e : entry_at buf i = Some e → find_step true name buf i d = Ret (found name e, d).
Proof.
  intros He. unfold find_step. rewrite He, bind_deref. unfold found, matches.
  destruct (name0 e =? _); [done|]. destruct (skipped e); [done|]. cbn. by destruct (name_match _ _).
Qed.

Lemma walking d c : fs_ok fs d → valid_cluster fs c → (2 <=? c) && negb (fat32_is_eoc c) = true.
Proof. intros H Hc. destruct (valid_not_end fs d c H Hc) as [-> _]. unfold valid_cluster in Hc. by rewrite (proj2 (Z.leb_le 2 c)) by lia. Qed.

Lemma find_loop_spec d name l : ∀ fuel c buf,
  fs_ok fs d → chain fs d c l → (length l < fuel)%nat → zlen buf = cluster_size fs →
  find_loop fuel fs true name c buf d = Ret (search name (dir d l), d).
Proof.
  induction l as [|x l IH]; intros fuel c buf H Hl Hf Hb; [by inversion Hl|]. destruct (chain_head _ _ _ _ Hl) as (Hc & t & Et).
  injection Et as -> <-. destruct fuel as [|fuel]; [lia|]. cbn [find_loop]. rewrite (walking d c H Hc).
  rewrite (bind_Ret _ _ _ _ _ (read_cluster_spec fs d c buf H Hc Hb)). cbn [Z.ltb Z.compare].
  rewrite (bind_Ret _ _ _ _ _ (scan_cluster d c (found name) _ H (find_step_spec d name _))). rewrite dir_cons, search_app.
  destruct (first_some _ _); [done|]. rewrite (bind_Ret _ _ _ _ _ (read_fat_spec fs d c H Hc)).
  inversion Hl as [? _ He|? ? _ Ht]; subst.
  - destruct fuel as [|fuel]; [cbn in Hf; lia|]. cbn [find_loop]. by rewrite He, andb_false_r.
  - apply IH; try done; [cbn in Hf; lia | by rewrite length_cluster].
Qed.

(** Searching a directory finds the first live entry of that name. *)
Lemma find_in_dir_spec d c l name buf :
  fs_ok fs d → chain fs d c l → zlen buf = cluster_size fs →
  fat32_find_in_dir fs (Some buf) true c name d = Ret (search name (dir d l), d).
Proof.
  intros H Hl Hb. apply find_loop_spec; try done. pose proof (chain_length fs d c l H Hl). unfold chain_fuel. lia.
Qed.

Lemma readdir_scan_spec d buf index es : ∀ i current,
  (∀ j e, es !! j = Some e → entry_at buf (i + Z.of_nat j) = Some e) →
  readdir_scan (length es) i buf index current d = Ret (scan es index current, d).
Proof.
  induction es as [|e es IH]; intros i current He; [done|]. cbn [length readdir_scan scan].
  pose proof (He 0%nat e eq_refl) as E. rewrite Z.add_0_r in E. rewrite E, bind_deref.
  assert (∀ j e', es !! j = Some e' → entry_at buf (i + 1 + Z.of_nat j) = Some e') as He'.
  { intros j e' Hj. replace (i + 1 + Z.of_nat j) with (i + Z.of_nat (S j)) by lia. by apply He. }
  destruct (name0 e =? _); [done|]. destruct (skipped e); [by apply IH|]. destruct (current =? index); [done | by apply IH].
Qed.

Lemma readdir_loop_spec d index l : ∀ fuel c buf current,
  fs_ok fs d → chain fs d c l → (length l < fuel)%nat → zlen buf = cluster_size fs → current ≤ index →
  readdir_loop fuel fs index current c buf d = Ret (listed (dir d l) (index - current), d).
Proof.
  induction l as [|x l IH]; intros fuel c buf current H Hl Hf Hb Hi; [by inversion Hl|]. destruct (chain_head _ _ _ _ Hl) as (Hc & t & Et).
  injection Et as -> <-. destruct fuel as [|fuel]; [lia|]. cbn [readdir_loop]. rewrite (walking d c H Hc).
  rewrite (bind_Ret _ _ _ _ _ (read_cluster_spec fs d c buf H Hc Hb)). cbn [Z.ltb Z.compare].
  assert (readdir_scan (entries_per_cluster fs) 0 (cluster fs d c) index current d = Ret (scan (entries_of (cluster fs d c)) index current, d)) as E.
  { rewrite <- (entries_count d c H). apply readdir_scan_spec. intros j e He. rewrite Z.add_0_l. by apply entry_at_lookup. }
  rewrite (bind_Ret _ _ _ _ _ E). rewrite dir_cons. pose proof (scan_listed (entries_of (cluster fs d c)) (dir d l) index current Hi) as Hs.
  destruct (scan _ _ _) as [current' [r|]]; [by rewrite Hs|]. destruct Hs as [Hi' ->]. rewrite (bind_Ret _ _ _ _ _ (read_fat_spec fs d c H Hc)).
  inversion Hl as [? _ He|? ? _ Ht]; subst.
  - destruct fuel as [|fuel]; [cbn in Hf; lia|]. cbn [readdir_loop]. by rewrite He, andb_false_r.
  - apply IH; try done; [cbn in Hf; lia | by rewrite length_cluster].
Qed.

Lemma entries_raw d c : fs_ok fs d → Forall raw_name (entries_of (cluster fs d c)).
Proof.
  intros H. apply Forall_fmap, Forall_forall. intros i Hi. cbn. apply elem_of_seqZ in Hi.
  pose proof (cluster_is_byte fs d c H) as Hb. set (buf := cluster fs d c) in *.
  unfold entry_at. rewrite slice_take by dlia. cbn [mbind option_bind].
  assert (Forall is_byte (take (Z.to_nat 32) (drop (Z.to_nat (i * 32)) buf))) as Hr by by apply Forall_take, Forall_drop.
  assert (length (take (Z.to_nat 32) (drop (Z.to_nat (i * 32)) buf)) = 32%nat) as Hl by (rewrite length_take, length_drop; dlia).
  destruct (take _ _) as [|x0 raw] eqn:E; [done|]. do 31 (destruct raw as [|? raw]; [done|]). destruct raw; [|done].
  rewrite entry_of_bytes. cbn. split; [done|]. repeat (apply Forall_cons in Hr as [? Hr]). by repeat (apply Forall_cons; split).
Qed.

Lemma dir_raw d l : fs_ok fs d → Forall raw_name (dir d l).
Proof. intros H. apply Forall_concat, Forall_fmap, Forall_true. intros c. by apply entries_raw. Qed.

(** C23: Listing a directory returns by index the entries in front of the end mark whose
    volume-label bit is clear, so neither the label nor the parts of long names, with
    their names as eight characters, a dot and an extension; behind the last one it
    returns 0.  Entries that are marked as deleted are listed too: their mark 0xE5 is
    compared with a signed character and never found. *)
Theorem fat32_readdir_correct d c l index buf :
  fs_ok fs d → chain fs d c l → 0 ≤ index → zlen buf = cluster_size fs →
  fat32_readdir fs (Some buf) c index d = Ret (listing (dir d l) index, d).
Proof.
  intros H Hl Hi Hb. unfold fat32_readdir. rewrite (readdir_loop_spec d index l) by (done || pose proof (chain_length fs d c l H Hl); unfold chain_fuel; lia).
  by rewrite Z.sub_0_r, listed_listing by by apply dir_raw.
Qed.

(** ** Paths *)

(** A path from the directory at a cluster on, by its parts. *)
Inductive resolves d : Z → list (list Z) → option fat32_dir_entry → Prop :=
  | resolves_none c l t toks : chain fs d c l → search t (dir d l) = None → resolves d c (t :: toks) None
  | resolves_last c l t e : chain fs d c l → search t (dir d l) = Some e → resolves d c [t] (Some e)
  | resolves_file c l t toks e :
      chain fs d c l → search t (dir d l) = Some e → is_directory e = false → toks ≠ [] → resolves d c (t :: toks) None
  | resolves_dir c l t toks e r :
      chain fs d c l → search t (dir d l) = Some e → is_directory e = true → toks ≠ [] →
      resolves d (fat32_get_first_cluster e) toks r → resolves d c (t :: toks) r.

Lemma lookup_loop_spec d mem c toks r :
  fs_ok fs d → (∀ k, ∃ buf, mem k = Some buf ∧ zlen buf = cluster_size fs) → resolves d c toks r →
  ∀ k, lookup_loop fs mem (λ _, true) k toks c d = Ret (r, d).
Proof.
  intros H Hm Hr.
  assert (∀ k c l t, chain fs d c l → fat32_find_in_dir fs (mem k) true c t d = Ret (search t (dir d l), d)) as Hfind.
  { intros k c' l t Hl. destruct (Hm k) as (buf & -> & Hb). by apply find_in_dir_spec. }
  induction Hr as [c l t toks Hl Hs|c l t e Hl Hs|c l t toks e Hl Hs Hd Ht|c l t toks e r Hl Hs Hd Ht _ IH]; intros k;
    cbn [lookup_loop]; rewrite (bind_Ret _ _ _ _ _ (Hfind k c l t Hl)), Hs; try done.
  all: destruct toks; [done|]; rewrite Hd; try done. apply IH.
Qed.

Lemma lookup_spec d mem path r :
  fs_ok fs d → (∀ k, ∃ buf, mem k = Some buf ∧ zlen buf = cluster_size fs) →
  let p := match path with 47 :: p => p | p => p end in
  p ≠ [] → resolves d (root_cluster fs) (tokens (length p) p) r →
  fat32_lookup fs mem (λ _, true) true path d = Ret (r, d).
Proof.
  intros H Hm p Hp Hr. unfold fat32_lookup. fold p. destruct p as [|x p']; [done|]. cbn [negb]. by apply lookup_loop_spec.
Qed.

(** ** Creating *)

Definition no_end (es : list fat32_dir_entry) : Prop := Forall (λ e, name0 e ≠ FAT_DIR_ENTRY_END) es.

(** Every entry behind an end mark is one, as in a directory that was cleared when it
    was made. *)
Definition dir_ok (es : list fat32_dir_entry) : Prop :=
  ∃ pre post, es = pre ++ post ∧ no_end pre ∧ Forall (λ e, name0 e = FAT_DIR_ENTRY_END) post.

Lemma free_step_spec d buf c i e :
  entry_at buf i = Some e → free_step buf c i d = Ret (if name0 e =? FAT_DIR_ENTRY_END then Some (c, i * 32) else None, d).
Proof.
  intros He. unfold free_step. rewrite He, bind_deref, name0_not_free, orb_false_r. by destruct (name0 e =? _).
Qed.

(** The first end mark of a cluster. *)
Lemma free_scan d c es : ∀ i,
  (∀ j e, es !! j = Some e → entry_at (cluster fs d c) (i + Z.of_nat j) = Some e) →
  (no_end es ∧ for_ret (length es) i (free_step (cluster fs d c) c) d = Ret (None, d)) ∨
  ∃ pre e post, es = pre ++ e :: post ∧ no_end pre ∧ name0 e = FAT_DIR_ENTRY_END ∧
    for_ret (length es) i (free_step (cluster fs d c) c) d = Ret (Some (c, (i + zlen pre) * 32), d).
Proof.
  induction es as [|e es IH]; intros i He; [left; split; [constructor | done]|]. cbn [length for_ret].
  pose proof (He 0%nat e eq_refl) as E. rewrite Z.add_0_r in E. rewrite (bind_Ret _ _ _ _ _ (free_step_spec d _ c _ e E)).
  destruct (Z.eqb_spec (name0 e) FAT_DIR_ENTRY_END) as [Hend|Hend].
  - right. exists [], e, es. split_and!; [done | constructor | done | by cbn; rewrite Z.add_0_r].
  - destruct (IH (i + 1)) as [[Hn ->]|(pre & e0 & post & -> & Hn & H0 & ->)].
    { intros j e' Hj. replace (i + 1 + Z.of_nat j) with (i + Z.of_nat (S j)) by lia. by apply He. }
    + left. split; [by constructor | done].
    + right. exists (e :: pre), e0, post. split_and!; [done | by constructor | done | cbn [length]]. do 4 f_equal. lia.
Qed.

Lemma find_free_loop_spec d l : ∀ fuel c buf,
  fs_ok fs d → chain fs d c l → (length l < fuel)%nat → zlen buf = cluster_size fs →
  (no_end (dir d l) ∧ ∃ x, fat32_is_eoc x = true ∧ find_free_loop fuel fs c buf d = Ret ((0, None, x), d)) ∨
  ∃ l1 x l2 pre e post, l = l1 ++ x :: l2 ∧ entries_of (cluster fs d x) = pre ++ e :: post ∧ no_end (dir d l1 ++ pre) ∧
    name0 e = FAT_DIR_ENTRY_END ∧ find_free_loop fuel fs c buf d = Ret ((0, Some (x, zlen pre * 32), x), d).
Proof.
  induction l as [|x l IH]; intros fuel c buf H Hl Hf Hb; [by inversion Hl|]. destruct (chain_head _ _ _ _ Hl) as (Hc & t & Et).
  injection Et as -> <-. destruct fuel as [|fuel]; [lia|]. cbn [find_free_loop]. rewrite (walking d c H Hc).
  rewrite (bind_Ret _ _ _ _ _ (read_cluster_spec fs d c buf H Hc Hb)). cbn [Z.ltb Z.compare].
  destruct (free_scan d c (entries_of (cluster fs d c)) 0) as [[Hn E]|(pre & e & post & Ee & Hn & He & E)].
  { intros j e He. rewrite Z.add_0_l. by apply entry_at_lookup. }
  all: rewrite entries_count in E by done; rewrite (bind_Ret _ _ _ _ _ E).
  2:{ right. exists [], c, l, pre, e, post. rewrite Z.add_0_l. by split_and!. }
  rewrite (bind_Ret _ _ _ _ _ (read_fat_spec fs d c H Hc)). rewrite dir_cons. inversion Hl as [? _ He|? ? _ Ht]; subst.
  - left. split; [by rewrite app_nil_r|]. exists (link fs d c). split; [done|]. destruct fuel as [|fuel]; [cbn in Hf; lia|]. cbn [find_free_loop].
    by rewrite He, andb_false_r.
  - destruct (IH fuel _ (cluster fs d c) H Ht ltac:(cbn in Hf; lia) (length_cluster fs d c H)) as [[Hn' (x & Hx & ->)]|(l1 & x & l2 & pre & e & post & -> & Ee & Hn' & He & ->)].
    + left. split; [by apply Forall_app | by exists x].
    + right. exists (c :: l1), x, l2, pre, e, post. rewrite dir_cons, <- app_assoc. split_and!; try done. by apply Forall_app.
Qed.

Lemma write_dir_entry_spec d x pre e0 e post buf :
  fs_ok fs d → valid_cluster fs x → zlen buf = cluster_size fs → entry_ok e → entries_of (cluster fs d x) = pre ++ e0 :: post →
  ∃ d', fat32_write_dir_entry fs (Some buf) x (zlen pre * 32) e d = Ret (0, d') ∧ fs_ok fs d' ∧ same_links fs d d' ∧
    entries_of (cluster fs d' x) = pre ++ e :: post ∧ ∀ y, valid_cluster fs y → y ≠ x → cluster fs d' y = cluster fs d y.
Proof.
  intros H Hx Hb He Ee. unfold fat32_write_dir_entry. rewrite (bind_Ret _ _ _ _ _ (read_cluster_spec fs d x buf H Hx Hb)). cbn [Z.ltb Z.compare].
  destruct (entries_splice (cluster fs d x) (length pre) e He) as (buf' & -> & Hlen & E' & Hby); [rewrite Ee, length_app; cbn; lia|].
  rewrite bind_deref. rewrite length_cluster in Hlen by done.
  destruct (write_cluster_spec fs d x buf' H Hx Hlen (Hby (cluster_is_byte fs d x H))) as (d' & E & H' & Hl & Hc).
  rewrite (bind_Ret _ _ _ _ _ E). cbn [Z.ltb Z.compare]. exists d'. split_and!; try done.
  - rewrite Hc, Z.eqb_refl, E', Ee by done. by rewrite insert_app_r_alt, Nat.sub_diag by lia.
  - intros y Hy Hne. by rewrite Hc, (proj2 (Z.eqb_neq y x)).
Qed.

(** The first end mark of the directory [l] was replaced by [e]; nothing else changed. *)
Record added d d' (l : list Z) (e : fat32_dir_entry) : Prop := {
  ad_ok : fs_ok fs d';
  ad_links : same_links fs d d';
  ad_dir : ∃ pre e0 post, dir d l = pre ++ e0 :: post ∧ no_end pre ∧ name0 e0 = FAT_DIR_ENTRY_END ∧ dir d' l = pre ++ e :: post;
  ad_frame : ∀ y, valid_cluster fs y → y ∉ l → cluster fs d' y = cluster fs d y;
}.

Lemma dir_app d l1 l2 : dir d (l1 ++ l2) = dir d l1 ++ dir d l2.
Proof. unfold dir. by rewrite fmap_app, concat_app. Qed.

Lemma write_adds d c l1 x l2 pre e0 e post buf :
  fs_ok fs d → chain fs d c (l1 ++ x :: l2) → zlen buf = cluster_size fs → entry_ok e → entries_of (cluster fs d x) = pre ++ e0 :: post →
  no_end (dir d l1 ++ pre) → name0 e0 = FAT_DIR_ENTRY_END →
  ∃ d', fat32_write_dir_entry fs (Some buf) x (zlen pre * 32) e d = Ret (0, d') ∧ added d d' (l1 ++ x :: l2) e.
Proof.
  intros H Hl Hb He Ee Hn He0. assert (valid_cluster fs x) as Hx by (apply (chain_valid fs d c _ x Hl); set_solver).
  destruct (write_dir_entry_spec d x pre e0 e post buf H Hx Hb He Ee) as (d' & E & H' & Hlk & E' & Hf). exists d'. split; [done|].
  pose proof (chain_NoDup fs d c _ H Hl) as Hnd. apply NoDup_app in Hnd as (_ & Hd1 & [Hx2 _]%NoDup_cons).
  assert (∀ l, (∀ y, y ∈ l → y ∈ l1 ++ x :: l2 ∧ y ≠ x) → dir d' l = dir d l) as Hsame.
  { intros l Hin. apply dir_same. intros y Hy. destruct (Hin y Hy). apply Hf; [by apply (chain_valid fs d c _ y Hl) | done]. }
  split; [done | done | | intros y Hy Hn'; apply Hf; [done | set_solver]].
  exists (dir d l1 ++ pre), e0, (post ++ dir d l2). rewrite !dir_app, !dir_cons, Ee, E'. rewrite (Hsame l1), (Hsame l2).
  - split_and!; try done; rewrite <- !app_assoc; done.
  - intros y Hy. split; [set_solver|]. intros ->. done.
  - intros y Hy. split; [set_solver|]. intros ->. apply (Hd1 x Hy). left.
Qed.

Lemma find_free_spec d c l buf e :
  fs_ok fs d → chain fs d c l → zlen buf = cluster_size fs → e ∈ dir d l → name0 e = FAT_DIR_ENTRY_END →
  ∃ l1 x l2 pre e post, l = l1 ++ x :: l2 ∧ entries_of (cluster fs d x) = pre ++ e :: post ∧ no_end (dir d l1 ++ pre) ∧
    name0 e = FAT_DIR_ENTRY_END ∧ fat32_find_free_dir_entry fs (Some buf) c d = Ret ((0, (x, zlen pre * 32)), d).
Proof.
  intros H Hl Hb He He0. unfold fat32_find_free_dir_entry. pose proof (chain_length fs d c l H Hl) as Hlen.
  destruct (find_free_loop_spec d l (chain_fuel fs) c buf H Hl ltac:(unfold chain_fuel; lia) Hb) as [[Hn _]|(l1 & x & l2 & pre & e1 & post & Hll & Ee & Hn & He1 & E)].
  { exfalso. unfold no_end in Hn; rewrite Forall_forall in Hn. by apply (Hn e He). }
  exists l1, x, l2, pre, e1, post. split_and!; try done. by rewrite (bind_Ret _ _ _ _ _ E).
Qed.

Lemma new_entry_ok name a c : length name = 11%nat → Forall is_byte name → is_byte a → entry_ok (new_entry name a c).
Proof.
  intros Hn Hb Ha. split; [done | done | | done]. unfold new_entry, fat32_set_first_cluster.
  cbn [create_time create_date last_access_date first_cluster_high write_time write_date first_cluster_low].
  assert (∀ v, 0 ≤ Z.land v 0xFFFF < 2 ^ 16) as Hm by (intros v; change 0xFFFF with (Z.ones 16); rewrite Z.land_ones by lia; apply Z.mod_pos_bound; lia).
  repeat (apply Forall_cons; split); try apply Hm; try apply Forall_nil; done.
Qed.

(** Where the root directory has an end mark, a new file takes its place. *)
Lemma create_file_spec d l path mem wmem e :
  fs_ok fs d → chain fs d (root_cluster fs) l → zlen mem = cluster_size fs → zlen wmem = cluster_size fs →
  e ∈ dir d l → name0 e = FAT_DIR_ENTRY_END →
  ∃ d', fat32_create_file (Some fs) (Some mem) (Some wmem) (Some path) d = Ret (0, d') ∧
    added d d' l (new_entry (fat32_generate_short_name (basename path) 0) FAT_ATTR_ARCHIVE 0).
Proof.
  intros H Hl Hm Hw He He0. destruct (find_free_spec d _ l mem e H Hl Hm He He0) as (l1 & x & l2 & pre & e1 & post & -> & Ee & Hn & He1 & E).
  unfold fat32_create_file. cbv zeta. rewrite (bind_Ret _ _ _ _ _ E). cbn [Z.ltb Z.compare].
  destruct (short_name_ok (basename path)) as [Hs1 Hs2].
  destruct (write_adds d _ l1 x l2 pre e1 _ post wmem H Hl Hw (new_entry_ok _ FAT_ATTR_ARCHIVE 0 Hs1 Hs2 ltac:(done)) Ee Hn He1) as (d' & Ew & Ha).
  rewrite (bind_Ret _ _ _ _ _ Ew). by exists d'.
Qed.

Lemma chain_same_links d d' c l : chain fs d c l → same_links fs d d' → chain fs d' c l.
Proof.
  intros Hl Hs. apply (chain_frame fs d); [|done]. intros x Hx. pose proof (chain_valid fs d c l x Hl Hx) as Hv. unfold valid_cluster in Hv. apply Hs. lia.
Qed.

Lemma search_no_end name es : no_end es → search name es = List.find (matches name) es.
Proof.
  intros Hn. unfold search. f_equal. induction Hn as [|e es He _ IH]; [done|]. cbn. by rewrite (proj2 (Z.eqb_neq _ _) He), IH.
Qed.

(** What every name finds once an entry was added. *)
Lemma search_added d d' l e name :
  dir_ok (dir d l) → added d d' l e → name0 e ≠ FAT_DIR_ENTRY_END →
  dir_ok (dir d' l) ∧
  search name (dir d' l) = match search name (dir d l) with Some e' => Some e' | None => if matches name e then Some e else None end.
Proof.
  intros (pre & post & Ed & Hpre & Hpost) [_ _ (pre' & e0 & post' & Ed2 & Hpre' & He0 & Ed') _] He.
  assert (pre = pre' ∧ post = e0 :: post') as [-> ->].
  { rewrite Ed2 in Ed. destruct (app_eq_inv _ _ _ _ Ed) as [(k & E1 & E2)|(k & E1 & E2)].
    - destruct k as [|x k]; cbn in E2; [rewrite app_nil_r in E1; by subst|]. exfalso. subst.
      unfold no_end in Hpre'. rewrite Forall_app, Forall_cons in Hpre'. rewrite Forall_cons in Hpost. by destruct Hpre' as (_ & ? & _), Hpost.
    - destruct k as [|x k]; cbn in E2; [rewrite app_nil_r in E1; by subst|]. exfalso. injection E2 as <- ->.
      unfold no_end in Hpre. subst pre. rewrite Forall_app, Forall_cons in Hpre. by destruct Hpre as (_ & ? & _). }
  assert (no_end (pre' ++ [e])) as Hpe by (apply Forall_app; split; [done | by constructor]). apply Forall_cons in Hpost as [_ Hpost].
  rewrite Ed'. split; [exists (pre' ++ [e]), post'; split; [by rewrite <- app_assoc | done]|]. rewrite Ed2, (search_end _ pre' e0 post' He0).
  assert (search name (pre' ++ e :: post') = search name (pre' ++ [e])) as ->.
  { destruct Hpost as [|x post' Hx _]; [done|]. by rewrite <- (search_end _ (pre' ++ [e]) x post' Hx), <- app_assoc. }
  rewrite !search_no_end, find_app by done. by destruct (List.find _ pre').
Qed.

Lemma tokens_one s : s ≠ [] → 47 ∉ s → tokens (length s) s = [s].
Proof.
  intros Hs Hn. destruct s as [|c s]; [done|]. cbn [length tokens].
  assert (∀ t, 47 ∉ t → prefix_chars false [47] t = t ∧ suffix_chars false [47] t = []) as Hp.
  { intros t Ht. assert (prefix_chars false [47] t = t) as E.
    { induction t as [|x t IH]; [done|]. cbn. rewrite bool_decide_false by set_solver. cbn. f_equal. apply IH. set_solver. }
    unfold suffix_chars. rewrite E. split; [done|]. apply drop_all. }
  assert (suffix_chars true [47] (c :: s) = c :: s) as E.
  { unfold suffix_chars. cbn. rewrite bool_decide_false by set_solver. done. }
  rewrite E. destruct (Hp (c :: s) Hn) as [-> ->]. cbn. by destruct (length s).
Qed.

Lemma legal_no_slash s : Forall (λ c, is_byte c ∧ legal c = true) s → 47 ∉ s.
Proof. intros Hs Hin. rewrite Forall_forall in Hs. by destruct (Hs _ Hin) as [_ ?]. Qed.

Lemma basename_plain s : 47 ∉ s → basename s = s.
Proof.
  intros Hn. unfold basename, split_last, split_first. rewrite bool_decide_false; [done|]. by rewrite list_elem_of_In, <- in_rev, <- list_elem_of_In.
Qed.

Lemma no_slash_head s : 47 ∉ s → match s with 47 :: p => p | p => p end = s.
Proof. intros Hn. destruct s as [|c s]; [done|]. destruct c as [|c|c]; try done. repeat (destruct c as [c|c|]; try done). set_solver. Qed.

(** The entry of a new file with a legal name is live and has that name. *)
Lemma new_file_matches base ext :
  Forall (λ c, is_byte c ∧ legal c = true) base → Forall (λ c, is_byte c ∧ legal c = true) ext → (1 ≤ length ext ≤ 3)%nat → (1 ≤ length base ≤ 6)%nat →
  let e := new_entry (fat32_generate_short_name (base ++ 46 :: ext) 0) FAT_ATTR_ARCHIVE 0 in
  name0 e ≠ FAT_DIR_ENTRY_END ∧ matches (base ++ 46 :: ext) e = true.
Proof.
  intros Hb He Hl Hlb e. split.
  - assert (de_name e !!! 0%nat = upper (base !!! 0%nat)) as E.
    { unfold e, new_entry, fat32_set_first_cluster. cbn [de_name]. unfold fat32_generate_short_name.
      rewrite split_last_eq by (intros Hin; rewrite Forall_forall in He; by destruct (He _ Hin)). cbn [Z.ltb Z.compare].
      rewrite copy_legal_take by (eapply Forall_impl; [done | naive_solver]). destruct base as [|c base]; [cbn in Hlb; lia | done]. }
    unfold name0. rewrite E. destruct base as [|c base]; [cbn in Hlb; lia|]. apply Forall_cons in Hb as [[Hc1 Hc2] _]. cbn.
    destruct (upper_legal c Hc1 Hc2) as (Hz & _). intros H0. apply Hz. apply i8_zero; [apply (upper_byte c) | done].
  - unfold matches, skipped. rewrite name0_not_free. cbn [attr e new_entry fat32_set_first_cluster de_name]. rewrite name_match_short by (done || lia). done.
Qed.

(** C14: A file with a short name is found after it was created: for a name of one to six
    characters, a dot and an extension of one to three, all letters, digits or an
    underscore, that no entry of the root directory has yet, and where the root
    directory has a free entry, creating it succeeds, looking its name up returns the
    new, empty entry, every other name finds what it found before, and no other
    cluster and no link has changed. *)
Theorem fat32_create_lookup d l base ext e mem wmem lmem :
  fs_ok fs d → chain fs d (root_cluster fs) l → dir_ok (dir d l) → e ∈ dir d l → name0 e = FAT_DIR_ENTRY_END →
  Forall (λ c, is_byte c ∧ legal c = true) base → Forall (λ c, is_byte c ∧ legal c = true) ext → (1 ≤ length ext ≤ 3)%nat → (1 ≤ length base ≤ 6)%nat →
  zlen mem = cluster_size fs → zlen wmem = cluster_size fs → (∀ k, ∃ buf, lmem k = Some buf ∧ zlen buf = cluster_size fs) →
  let name := base ++ 46 :: ext in
  let ne := new_entry (fat32_generate_short_name name 0) FAT_ATTR_ARCHIVE 0 in
  search name (dir d l) = None →
  ∃ d', fat32_create_file (Some fs) (Some mem) (Some wmem) (Some name) d = Ret (0, d') ∧ fs_ok fs d' ∧ chain fs d' (root_cluster fs) l ∧
    dir_ok (dir d' l) ∧ fat32_lookup fs lmem (λ _, true) true name d' = Ret (Some ne, d') ∧
    (∀ n, search n (dir d' l) = match search n (dir d l) with Some e' => Some e' | None => if matches n ne then Some ne else None end) ∧
    same_links fs d d' ∧ ∀ y, valid_cluster fs y → y ∉ l → cluster fs d' y = cluster fs d y.
Proof.
  intros H Hl Hok He He0 Hb Hx Hlx Hlb Hm Hw Hlm name ne Hnone.
  assert (47 ∉ name) as Hslash by (unfold name; pose proof (legal_no_slash _ Hb); pose proof (legal_no_slash _ Hx); set_solver).
  destruct (create_file_spec d l name mem wmem e H Hl Hm Hw He He0) as (d' & E & Ha). rewrite basename_plain in Ha by done. fold ne in Ha.
  destruct (new_file_matches base ext Hb Hx Hlx Hlb) as [Hlive Hmatch]. fold name ne in Hlive, Hmatch.
  assert (∀ n, search n (dir d' l) = match search n (dir d l) with Some e' => Some e' | None => if matches n ne then Some ne else None end) as Hsearch
    by (intros n; by apply search_added).
  assert (chain fs d' (root_cluster fs) l) as Hl' by (apply (chain_same_links d); [done | apply Ha]).
  exists d'. split_and!; try done; try apply Ha; [by apply (search_added d d' l ne name)|].
  pose proof (no_slash_head name Hslash) as Ep.
  apply lookup_spec; rewrite ?Ep; [apply Ha | done | by unfold name; destruct base |]. rewrite tokens_one by (done || by unfold name; destruct base).
  apply (resolves_last d' _ l); [done|]. by rewrite Hsearch, Hnone, Hmatch.
Qed.

Lemma chain_used d c l x : fs_ok fs d → chain fs d c l → x ∈ l → link fs d x ≠ 0.
Proof.
  intros H Hl Hx E. destruct (chain_suffix fs d c l x Hl Hx) as (t & Ht & _). inversion Ht as [? _ He|? ? _ Hn]; subst; [by rewrite E in He|].
  rewrite E in Hn. destruct (chain_head _ _ _ _ Hn) as [Hv _]. unfold valid_cluster in Hv. lia.
Qed.

(** A full directory is not extended: creating a file in it takes a free cluster,
    writes the entry there and reports success, but never links the cluster to the
    directory, whose entries stay as they were; the cluster is lost. *)
Theorem fat32_create_in_full_dir_lost d l path mem wmem x :
  fs_ok fs d → chain fs d (root_cluster fs) l → no_end (dir d l) → valid_cluster fs x → link fs d x = 0 →
  zlen mem = cluster_size fs → zlen wmem = cluster_size fs →
  ∃ d' c, fat32_create_file (Some fs) (Some mem) (Some wmem) (Some path) d = Ret (0, d') ∧ chain fs d' (root_cluster fs) l ∧ dir d' l = dir d l ∧
    valid_cluster fs c ∧ (c ∉ l) ∧ link fs d c = 0 ∧ link fs d' c ≠ 0.
Proof.
  intros H Hl Hn Hx Hz Hm Hw. unfold fat32_create_file. cbv zeta. pose proof (chain_length fs d _ l H Hl).
  destruct (find_free_loop_spec d l (chain_fuel fs) _ mem H Hl ltac:(unfold chain_fuel; lia) Hm) as [[_ (eoc & He & E)]|(l1 & y & l2 & pre & e & post & Hll & Ee & _ & He & _)].
  2:{ exfalso. unfold no_end in Hn. rewrite Forall_forall in Hn. apply (Hn e); [|done]. rewrite Hll, dir_app, dir_cons, Ee. set_solver. }
  destruct (alloc_cluster_spec fs d H) as (c & d1 & Ea & [(_ & _ & Hfull)|(Hc & Hc0 & _ & H1 & Hd1 & Hl1)]); [by destruct (Hfull x Hx)|].
  assert (c ∉ l) as Hcl by (intros Hin; by apply (chain_used d _ l c H Hl Hin)).
  assert (cluster_size fs = 512 * sectors_per_cluster fs ∧ 0 < sectors_per_cluster fs) as [Hcs Hsp] by (destruct (fo_cluster _ _ H); done).
  destruct (write_cluster_spec fs d1 c (replicate (Z.to_nat (cluster_size fs)) 0) H1 Hc) as (d2 & Ew & H2 & Hs2 & Hd2);
    [rewrite length_replicate; lia | by apply Forall_replicate|].
  assert (fat32_find_free_dir_entry fs (Some mem) (root_cluster fs) d = Ret ((0, (c, 0)), d2)) as Ef.
  { unfold fat32_find_free_dir_entry. rewrite (bind_Ret _ _ _ _ _ E). cbn [Z.ltb Z.compare]. rewrite (bind_Ret _ _ _ _ _ Ea).
    rewrite (proj2 (Z.eqb_neq c 0)) by (unfold valid_cluster in Hc; lia). rewrite He. cbn [negb]. rewrite bind_mret.
    by rewrite (bind_Ret _ _ _ _ _ Ew). }
  rewrite (bind_Ret _ _ _ _ _ Ef). cbn [Z.ltb Z.compare]. destruct (short_name_ok (basename path)) as [Hs1 Hs3].
  destruct (entries_of (cluster fs d2 c)) as [|e0 post] eqn:Ee.
  { pose proof (entries_count d2 c H2) as Hcount. rewrite Ee in Hcount. unfold entries_per_cluster in Hcount. cbn in Hcount. dlia. }
  destruct (write_dir_entry_spec d2 c [] e0 _ post wmem H2 Hc Hw (new_entry_ok _ FAT_ATTR_ARCHIVE 0 Hs1 Hs3 ltac:(done)) Ee) as (d3 & Ew3 & H3 & Hs4 & _ & Hf3).
  rewrite (bind_Ret _ _ _ _ _ Ew3). exists d3, c. assert (∀ y, y ∈ l → valid_cluster fs y ∧ y ≠ c) as Hv.
  { intros y Hy. split; [by apply (chain_valid fs d _ l y Hl) | by intros ->]. }
  split_and!; try done.
  - apply (chain_frame fs d); [|done]. intros y Hy. destruct (Hv y Hy) as [Hy1 Hy2]. unfold valid_cluster in Hy1.
    by rewrite Hs4, Hs2, Hl1, (proj2 (Z.eqb_neq y c)) by (done || lia).
  - apply dir_same. intros y Hy. destruct (Hv y Hy) as [Hy1 Hy2]. by rewrite Hf3, Hd2, (proj2 (Z.eqb_neq y c)), Hd1.
  - unfold valid_cluster in Hc. by rewrite Hs4, Hs2, Hl1, Z.eqb_refl by lia.
Qed.

(** ** Removing *)

(** Removing a file leaves its directory entry: its clusters are released, but the
    name still finds the entry, whose first cluster is now free. *)
Theorem fat32_unlink_keeps_entry d l lf name e lmem :
  fs_ok fs d → chain fs d (root_cluster fs) l → name ≠ [] → 47 ∉ name → search name (dir d l) = Some e → is_directory e = false →
  chain fs d (fat32_get_first_cluster e) lf → l ## lf → (∀ k, ∃ buf, lmem k = Some buf ∧ zlen buf = cluster_size fs) →
  ∃ d', fat32_unlink (Some fs) lmem (λ _, true) true (Some name) d = Ret (0, d') ∧ fs_ok fs d' ∧
    (∀ y, 0 ≤ y < total_clusters fs → link fs d' y = if bool_decide (y ∈ lf) then 0 else link fs d y) ∧
    fat32_lookup fs lmem (λ _, true) true name d' = Ret (Some e, d') ∧ link fs d' (fat32_get_first_cluster e) = 0.
Proof.
  intros H Hl Hne Hns Hs Hd Hlf Hdis Hm. destruct (chain_head _ _ _ _ Hlf) as (Hc & t & Et).
  assert (match name with 47 :: p => p | p => p end = name) as Ep by by apply no_slash_head.
  assert (∀ d', fs_ok fs d' → chain fs d' (root_cluster fs) l → dir d' l = dir d l →
    fat32_lookup fs lmem (λ _, true) true name d' = Ret (Some e, d')) as Hlook.
  { intros d' H' Hl' Hdir. apply lookup_spec; rewrite ?Ep; try done. rewrite tokens_one by done. apply (resolves_last d' _ l); [done|]. by rewrite Hdir. }
  unfold fat32_unlink. rewrite (bind_Ret _ _ _ _ _ (Hlook d H Hl eq_refl)), Hd. cbv zeta.
  rewrite (proj2 (Z.leb_le 2 _)) by (unfold valid_cluster in Hc; lia). pose proof (chain_length fs d _ lf H Hlf).
  destruct (free_loop_chain fs (S (Z.to_nat (total_clusters fs))) d _ lf H Hlf) as (d' & E & H' & Hsd & Hlk); [lia|].
  unfold fat32_free_cluster. rewrite (bind_Ret _ _ _ _ _ E). exists d'. split_and!; try done.
  - apply Hlook; [done | |].
    + apply (chain_frame fs d); [|done]. intros y Hy. pose proof (chain_valid fs d _ l y Hl Hy) as Hv. unfold valid_cluster in Hv.
      rewrite Hlk by lia. rewrite bool_decide_false; [done | set_solver].
    + apply dir_same. intros y Hy. apply Hsd. by apply (chain_valid fs d _ l y Hl).
  - unfold valid_cluster in Hc. rewrite Hlk by lia. rewrite bool_decide_true; [done|]. rewrite Et. left.
Qed.

(** ** New directories *)

Definition dot_entry (c : Z) : fat32_dir_entry := fat32_set_first_cluster c (set_name_attr (46 :: replicate 10 32) FAT_ATTR_DIRECTORY zero_entry).
Definition dotdot_entry (c : Z) : fat32_dir_entry := fat32_set_first_cluster c (set_name_attr (46 :: 46 :: replicate 9 32) FAT_ATTR_DIRECTORY zero_entry).

Lemma dot_ok c : entry_ok (dot_entry c) ∧ entry_ok (dotdot_entry c).
Proof.
  assert (∀ v, 0 ≤ Z.land v 0xFFFF < 2 ^ 16) as Hm by (intros v; change 0xFFFF with (Z.ones 16); rewrite Z.land_ones by lia; apply Z.mod_pos_bound; lia).
  split; (split; [split; [done|]; repeat (apply Forall_cons; split); try apply Forall_replicate; done | done | | done]);
    repeat (apply Forall_cons; split); try apply Hm; try apply Forall_nil; done.
Qed.

(** The cluster of a new directory holds its two entries and is cleared behind them. *)
Lemma new_directory c p n :
  (2 ≤ n)%nat →
  ∃ buf, splice 0 (entry_bytes (dot_entry c) ++ entry_bytes (dotdot_entry p)) (replicate (32 * n) 0) = Some buf ∧
    length buf = (32 * n)%nat ∧ Forall is_byte buf ∧ entries_of buf = dot_entry c :: dotdot_entry p :: replicate (n - 2) zero_entry.
Proof.
  intros Hn. destruct (dot_ok c) as [H1 _], (dot_ok p) as [_ H2].
  pose proof (length_entry_bytes _ (proj1 (eo_name _ H1))) as L1. pose proof (length_entry_bytes _ (proj1 (eo_name _ H2))) as L2.
  set (src := entry_bytes (dot_entry c) ++ entry_bytes (dotdot_entry p)). assert (length src = 64%nat) as Hsrc by (unfold src; rewrite length_app; lia).
  rewrite splice_over by (rewrite ?length_replicate; lia). eexists. split; [reflexivity|]. unfold over. change (Z.to_nat 0) with 0%nat.
  rewrite take_0, app_nil_l, drop_replicate, Hsrc. replace (32 * n - (0 + 64))%nat with (32 * (n - 2))%nat by lia. split_and!.
  - rewrite length_app, length_replicate. lia.
  - unfold src. rewrite !Forall_app. split_and!; [by apply entry_bytes_ok | by apply entry_bytes_ok | by apply Forall_replicate].
  - unfold src. rewrite <- app_assoc, !entries_cons by done. by rewrite entries_zero.
Qed.

(** C15: Creating a directory where the root directory has a free entry and the volume a
    free cluster takes a cluster that was free, ends its chain there, clears it and fills in
    the entries of itself and of the root as its parent, and puts an entry with the last
    part of the path at the end of the root directory, whatever directories the path
    names; no other link and no cluster outside of the two directories changes. *)
Theorem fat32_mkdir_correct d l path mem wmem e x :
  fs_ok fs d → chain fs d (root_cluster fs) l → e ∈ dir d l → name0 e = FAT_DIR_ENTRY_END → valid_cluster fs x → link fs d x = 0 →
  zlen mem = cluster_size fs → zlen wmem = cluster_size fs →
  ∃ d' c, fat32_mkdir (Some fs) (Some mem) (Some wmem) true (Some path) d = Ret (0, d') ∧ fs_ok fs d' ∧
    valid_cluster fs c ∧ link fs d c = 0 ∧ chain fs d' c [c] ∧ live (dir d' [c]) = [dot_entry c; dotdot_entry (root_cluster fs)] ∧
    chain fs d' (root_cluster fs) l ∧
    (∃ pre e0 post, dir d l = pre ++ e0 :: post ∧ no_end pre ∧ name0 e0 = FAT_DIR_ENTRY_END ∧
       dir d' l = pre ++ new_entry (fat32_generate_short_name (basename path) 0) FAT_ATTR_DIRECTORY c :: post) ∧
    (∀ y, valid_cluster fs y → y ≠ c → link fs d' y = link fs d y) ∧
    (∀ y, valid_cluster fs y → y ≠ c → y ∉ l → cluster fs d' y = cluster fs d y).
Proof.
  intros H Hl He He0 Hx Hx0 Hm Hw. unfold fat32_mkdir. cbv zeta.
  destruct (alloc_cluster_spec fs d H) as (c & d1 & Ea & [(_ & _ & Hfull)|(Hc & Hc0 & _ & H1 & Hd1 & Hl1)]); [by destruct (Hfull x Hx)|].
  assert (c ∉ l) as Hcl by (intros Hin; by apply (chain_used d _ l c H Hl Hin)).
  assert (∀ y, y ∈ l → valid_cluster fs y ∧ y ≠ c) as Hv.
  { intros y Hy. split; [by apply (chain_valid fs d _ l y Hl) | by intros ->]. }
  assert (∀ y, valid_cluster fs y → y ≠ c → link fs d1 y = link fs d y) as Hl1'.
  { intros y Hy Hne. unfold valid_cluster in Hy. by rewrite Hl1, (proj2 (Z.eqb_neq y c)) by (done || lia). }
  assert (chain fs d1 (root_cluster fs) l) as Hlc1 by (apply (chain_frame fs d); [intros y Hy; destruct (Hv y Hy); auto | done]).
  assert (dir d1 l = dir d l) as Hdir1 by (apply dir_same; intros y Hy; apply Hd1; by destruct (Hv y Hy)).
  rewrite (bind_Ret _ _ _ _ _ Ea). rewrite (proj2 (Z.eqb_neq c 0)) by (unfold valid_cluster in Hc; lia). rewrite <- Hdir1 in He.
  destruct (find_free_spec d1 _ l mem e H1 Hlc1 Hm He He0) as (l1 & y & l2 & pre & e1 & post & El & Ee & Hn & He1 & Ef).
  rewrite (bind_Ret _ _ _ _ _ Ef). cbn [Z.ltb Z.compare]. destruct (short_name_ok (basename path)) as [Hs1 Hs2]. rewrite El in Hlc1.
  destruct (write_adds d1 _ l1 y l2 pre e1 _ post wmem H1 Hlc1 Hw (new_entry_ok _ FAT_ATTR_DIRECTORY c Hs1 Hs2 ltac:(done)) Ee Hn He1) as (d2 & Ew & [H2 Hs3 Hdir2 Hf2]).
  rewrite (bind_Ret _ _ _ _ _ Ew). cbn [Z.ltb Z.compare]. rewrite <- El in *.
  destruct (fo_cluster _ _ H) as [Hsp Hcs]. assert (Z.to_nat (cluster_size fs) = (32 * Z.to_nat (16 * sectors_per_cluster fs))%nat) as Hsz by lia.
  destruct (new_directory c (root_cluster fs) (Z.to_nat (16 * sectors_per_cluster fs))) as (buf & Es & Hbl & Hbb & Hbe); [lia|].
  fold (dot_entry c) (dotdot_entry (root_cluster fs)). rewrite Hsz, Es.
  destruct (write_cluster_spec fs d2 c buf H2 Hc) as (d3 & Ew3 & H3 & Hs4 & Hd3); [lia | done|].
  rewrite bind_assoc, bind_deref, (bind_Ret _ _ _ _ _ Ew3). exists d3, c.
  assert (∀ z, valid_cluster fs z → link fs d3 z = link fs d1 z) as Hlk.
  { intros z Hz. unfold valid_cluster in Hz. rewrite Hs4, Hs3 by lia. done. }
  assert (dir d3 l = dir d2 l) as Hdir3.
  { apply dir_same. intros z Hz. destruct (Hv z Hz) as [Hz1 Hz2]. by rewrite Hd3, (proj2 (Z.eqb_neq z c)). }
  split_and!; try done.
  - constructor; [done|]. rewrite Hlk by done. unfold valid_cluster in Hc. by rewrite Hl1, Z.eqb_refl by lia.
  - unfold dir. cbn [fmap list_fmap concat]. rewrite app_nil_r, Hd3, Z.eqb_refl, Hbe by done. cbn [live].
    destruct (Z.to_nat (16 * sectors_per_cluster fs) - 2)%nat; done.
  - apply (chain_frame fs d); [|done]. intros z Hz. destruct (Hv z Hz). rewrite Hlk, Hl1'; done.
  - rewrite Hdir3, <- Hdir1. done.
  - intros z Hz Hne. rewrite Hlk, Hl1'; done.
  - intros z Hz Hne Hnl. rewrite Hd3, (proj2 (Z.eqb_neq z c)), Hf2, Hd1; done.
Qed.
End DirSpec.

(** ** A volume with a file *)

(** The root directory, cluster 2, holds the file "A.TXT", whose only cluster is 3. *)
Module Small.
Definition file : fat32_dir_entry :=
  {| de_name := [65; 32; 32; 32; 32; 32; 32; 32; 84; 88; 84]; attr := FAT_ATTR_ARCHIVE; nt_reserved := 0; create_time_tenth := 0; create_time := 0;
     create_date := 0; last_access_date := 0; first_cluster_high := 0; write_time := 0; write_date := 0; first_cluster_low := 3; file_size := 5 |}.
Definition table : list Z := replicate 8 0 ++ [255; 255; 255; 15; 255; 255; 255; 15] ++ replicate 496 0.
Definition root : list Z := entry_bytes file ++ replicate 480 0.
Definition rd : ramdisk_data := {| rd_data := Volume.boot ++ table ++ root ++ replicate 1024 0; rd_size := 2560 |}.
Abbreviation fs := Volume.fs.
Definition buf : list Z := replicate 512 0.
Definition bufs (k : nat) : option (list Z) := Some buf.

Lemma file_ok : entry_ok file.
Proof. split; [split; [done | by repeat (apply Forall_cons; split)] | done | by repeat (apply Forall_cons; split) | done]. Qed.

Lemma small_rd_ok : bd_ok rd.
Proof.
  split_and!; [reflexivity | | reflexivity | done]. cbn [rd_data rd]. unfold Volume.boot, table, root, fat32_type. rewrite !Forall_app.
  split_and!; try (by apply Forall_replicate); try (by repeat constructor).
Qed.

Lemma small_volume_ok : fs_ok fs rd.
Proof. apply (geometry_fs_ok (D := ramdisk_data)); [apply small_rd_ok | done | apply Volume.bs_geometry]. Qed.

Lemma root_chain : chain fs rd (root_cluster fs) [2].
Proof. constructor; [by split | reflexivity]. Qed.

Lemma file_chain : chain fs rd 3 [3].
Proof. constructor; [by split | reflexivity]. Qed.

Lemma root_eq : cluster fs rd 2 = root.
Proof. reflexivity. Qed.

Lemma dir_eq : dir fs rd [2] = file :: replicate 15 zero_entry.
Proof.
  unfold dir. cbn [fmap list_fmap concat]. rewrite app_nil_r, root_eq. unfold root. rewrite entries_cons by apply file_ok. by f_equal.
Qed.

Lemma root_dir_ok : dir_ok (dir fs rd [2]).
Proof.
  rewrite dir_eq. exists [file], (replicate 15 zero_entry). split_and!; [done | by apply Forall_cons | by apply Forall_replicate].
Qed.

Lemma root_end : zero_entry ∈ dir fs rd [2].
Proof. rewrite dir_eq. right. left. Qed.

Lemma bufs_ok k : ∃ b, bufs k = Some b ∧ zlen b = cluster_size fs.
Proof. by exists buf. Qed.
End Small.

Lemma fat32_readdir_correct_witness :
  fat32_readdir Small.fs (Some Small.buf) 2 0 Small.rd = Ret ((1, Some ([65; 46; 84; 88; 84], Small.file)), Small.rd).
Proof.
  etransitivity; [apply (fat32_readdir_correct Small.fs Small.rd 2 [2] 0 Small.buf Small.small_volume_ok Small.root_chain); done|].
  by rewrite Small.dir_eq.
Defined.

(** "b.txt" *)
Lemma fat32_create_lookup_witness :
  ∃ d' e, fat32_create_file (Some Small.fs) (Some Small.buf) (Some Small.buf) (Some [98; 46; 116; 120; 116]) Small.rd = Ret (0, d') ∧
    fat32_lookup Small.fs Small.bufs (λ _, true) true [98; 46; 116; 120; 116] d' = Ret (Some e, d').
Proof.
  destruct (fat32_create_lookup Small.fs Small.rd [2] [98] [116; 120; 116] zero_entry Small.buf Small.buf Small.bufs
    Small.small_volume_ok Small.root_chain Small.root_dir_ok Small.root_end) as (d' & E & _ & _ & _ & Hf & _);
    [reflexivity | by repeat constructor | by repeat constructor | cbn; lia | cbn; lia | reflexivity | reflexivity | apply Small.bufs_ok |
     rewrite Small.dir_eq; reflexivity|].
  exists d'. eexists. split; [exact E | exact Hf].
Defined.

(** "a.txt" *)
Lemma fat32_unlink_keeps_entry_witness :
  ∃ d', fat32_unlink (Some Small.fs) Small.bufs (λ _, true) true (Some [97; 46; 116; 120; 116]) Small.rd = Ret (0, d') ∧
    fat32_lookup Small.fs Small.bufs (λ _, true) true [97; 46; 116; 120; 116] d' = Ret (Some Small.file, d') ∧ link Small.fs d' 3 = 0.
Proof.
  destruct (fat32_unlink_keeps_entry Small.fs Small.rd [2] [3] [97; 46; 116; 120; 116] Small.file Small.bufs
    Small.small_volume_ok Small.root_chain) as (d' & E & _ & _ & Hf & Hz);
    [discriminate | set_solver | rewrite Small.dir_eq; reflexivity | reflexivity | apply Small.file_chain | set_solver | apply Small.bufs_ok|].
  exists d'. split_and!; assumption.
Defined.

(** "d" *)
Lemma fat32_mkdir_correct_witness :
  ∃ d' c, fat32_mkdir (Some Small.fs) (Some Small.buf) (Some Small.buf) true (Some [100]) Small.rd = Ret (0, d') ∧ chain Small.fs d' c [c].
Proof.
  destruct (fat32_mkdir_correct Small.fs Small.rd [2] [100] Small.buf Small.buf zero_entry 4 Small.small_volume_ok Small.root_chain Small.root_end)
    as (d' & c & E & _ & _ & _ & Hc & _); [reflexivity | by split | reflexivity | reflexivity | reflexivity|]. exists d', c. split; assumption.
Defined.

Lemma fat32_create_in_full_dir_lost_witness :
  ∃ d' c, fat32_create_file (Some Volume.fs) (Some Small.buf) (Some Small.buf) (Some [98]) Volume.rd = Ret (0, d') ∧
    dir Volume.fs d' [2; 3] = dir Volume.fs Volume.rd [2; 3] ∧ c ∉ [2; 3].
Proof.
  destruct (fat32_create_in_full_dir_lost Volume.fs Volume.rd [2; 3] [98] Small.buf Small.buf 4 Volume.volume_ok Volume.rd_chain)
    as (d' & c & E & _ & Hd & _ & Hc & _); [| by split | reflexivity | reflexivity | reflexivity|].
  - assert (cluster Volume.fs Volume.rd 2 = replicate 512 7 ∧ cluster Volume.fs Volume.rd 3 = replicate 512 7) as [E2 E3] by (split; reflexivity).
    unfold dir. cbn [fmap list_fmap concat]. rewrite E2, E3, app_nil_r.
    assert (entries_of (replicate 512 7) = replicate 16 (default zero_entry (entry_of (replicate 32 7)))) as -> by reflexivity.
    apply Forall_app; split; apply Forall_replicate; discriminate.
  - exists d', c. split_and!; assumption.
Defined.
