(* ===== verification/Files.v ===== *)
(** * Open files and descriptors (kernel/fs/vfs_core.c, kernel/fs/devfs.c,
      kernel/process/fd_table.c, kernel/syscall/sys_fd.c, kernel/syscall/sys_io.c)

    Inodes, open files and descriptor tables are by address; 0 is the null pointer
    and a freed object is no longer in the state, so that using it is [Undef].
    Results of [kmalloc] are arguments.  The current process is given by its
    descriptor table, 0 if it has none.

    The operations behind [f_op] belong to the drivers and the file systems; the
    class [FileOps] says what this component relies on: they return, and they touch
    nothing but the position and the private data of open files and what they keep for
    themselves.  What [vfs_lookup]
    finds for a path is an argument of the functions that call it; [devfs_lookup] is
    one such lookup. *)

From S2P Require Import Prelude Bytes Errno.

#[local] Open Scope Z_scope.

Abbreviation MAX_FILES_PER_PROCESS := 64%Z (only parsing).
Abbreviation VFS_MAX_OPEN_FILES := 64%Z (only parsing).
Abbreviation VFS_MAX_NAME := 256%Z (only parsing).
Abbreviation O_CREAT := 0x0040%Z (only parsing).
Abbreviation O_TRUNC := 0x0200%Z (only parsing).

(** [mode], [rdev], [sb] and [i_op] of an inode and the [dentry] of a file are not used
    here. *)
Record vfs_inode := { i_size : Z; i_ref_count : Z; i_f_op : Z; i_private_data : Z }.

Record vfs_file := { f_inode : Z; f_op : Z; f_flags : Z; f_pos : Z; f_ref_count : Z; f_private_data : Z }.

Record file_descriptor_table := { fds : list Z; fd_count : Z }.

(** [device_list] has the name and the inode of each device, [errno] is that of the
    current process, and [drv] is what the drivers and file systems keep for themselves. *)
Record vfs := {
  inodes : gmap Z vfs_inode;
  filps : gmap Z vfs_file;
  tables : gmap Z file_descriptor_table;
  open_files : list Z;
  device_list : list (list Z * Z);
  errno : Z;
  drv : gmap Z Z;
}.

Definition with_inodes (m : gmap Z vfs_inode) (s : vfs) : vfs :=
  {| inodes := m; filps := filps s; tables := tables s; open_files := open_files s; device_list := device_list s; errno := errno s; drv := drv s |}.
Definition with_filps (m : gmap Z vfs_file) (s : vfs) : vfs :=
  {| inodes := inodes s; filps := m; tables := tables s; open_files := open_files s; device_list := device_list s; errno := errno s; drv := drv s |}.
Definition with_tables (m : gmap Z file_descriptor_table) (s : vfs) : vfs :=
  {| inodes := inodes s; filps := filps s; tables := m; open_files := open_files s; device_list := device_list s; errno := errno s; drv := drv s |}.
Definition with_open_files (l : list Z) (s : vfs) : vfs :=
  {| inodes := inodes s; filps := filps s; tables := tables s; open_files := l; device_list := device_list s; errno := errno s; drv := drv s |}.
Definition with_devices (l : list (list Z * Z)) (s : vfs) : vfs :=
  {| inodes := inodes s; filps := filps s; tables := tables s; open_files := open_files s; device_list := l; errno := errno s; drv := drv s |}.
Definition with_errno (e : Z) (s : vfs) : vfs :=
  {| inodes := inodes s; filps := filps s; tables := tables s; open_files := open_files s; device_list := device_list s; errno := e; drv := drv s |}.

Definition the_inode (p : Z) : M vfs vfs_inode := s ← get; deref (inodes s !! p).
Definition the_file (p : Z) : M vfs vfs_file := s ← get; deref (filps s !! p).
Definition the_table (p : Z) : M vfs file_descriptor_table := s ← get; deref (tables s !! p).
Definition set_inode (p : Z) (i : vfs_inode) : M vfs unit := modify (λ s, with_inodes (<[p := i]> (inodes s)) s).
Definition set_file (p : Z) (f : vfs_file) : M vfs unit := modify (λ s, with_filps (<[p := f]> (filps s)) s).
Definition set_table (p : Z) (t : file_descriptor_table) : M vfs unit := modify (λ s, with_tables (<[p := t]> (tables s)) s).

Definition with_f_ref (r : Z) (f : vfs_file) : vfs_file :=
  {| f_inode := f_inode f; f_op := f_op f; f_flags := f_flags f; f_pos := f_pos f; f_ref_count := r; f_private_data := f_private_data f |}.
Definition with_f_pos (p : Z) (f : vfs_file) : vfs_file :=
  {| f_inode := f_inode f; f_op := f_op f; f_flags := f_flags f; f_pos := p; f_ref_count := f_ref_count f; f_private_data := f_private_data f |}.
Definition with_f_flags (l : Z) (f : vfs_file) : vfs_file :=
  {| f_inode := f_inode f; f_op := f_op f; f_flags := l; f_pos := f_pos f; f_ref_count := f_ref_count f; f_private_data := f_private_data f |}.
Definition with_i_ref (r : Z) (i : vfs_inode) : vfs_inode :=
  {| i_size := i_size i; i_ref_count := r; i_f_op := i_f_op i; i_private_data := i_private_data i |}.

(** ** The operations of drivers and file systems *)

(** What such an operation may not change. *)
Definition shape (f : vfs_file) : Z * Z * Z * Z := (f_inode f, f_op f, f_flags f, f_ref_count f).

Definition same_refs (s s' : vfs) : Prop :=
  inodes s' = inodes s ∧ tables s' = tables s ∧ open_files s' = open_files s ∧ device_list s' = device_list s ∧ shape <$> filps s' = shape <$> filps s.

(** [None] is an operation that the table does not have. *)
Class FileOps := {
  op_open : Z → option (Z → Z → M vfs Z);
  op_release : Z → option (Z → M vfs Z);
  op_read : Z → option (Z → Z → M vfs (Z * list Z));
  op_write : Z → option (Z → list Z → M vfs Z);
  op_open_frame o f i p s : op_open o = Some f → is_Some (filps s !! p) → ∃ r s', f i p s = Ret (r, s') ∧ same_refs s s';
  op_release_frame o f p s : op_release o = Some f → is_Some (filps s !! p) → ∃ r s', f p s = Ret (r, s') ∧ same_refs s s';
  op_read_frame o f p n s : op_read o = Some f → is_Some (filps s !! p) → ∃ r s', f p n s = Ret (r, s') ∧ same_refs s s';
  op_write_frame o f p b s : op_write o = Some f → is_Some (filps s !! p) → ∃ r s', f p b s = Ret (r, s') ∧ same_refs s s';
}.

Section Files.
Context {ops : FileOps}.

(** ** Reference counts *)

Definition inode_get (inode : Z) : M vfs Z :=
  if inode =? 0 then mret 0
  else i ← the_inode inode; _ ← set_inode inode (with_i_ref (u32 (i_ref_count i + 1)) i); mret inode.

Definition inode_put (inode : Z) : M vfs unit :=
  if inode =? 0 then mret tt
  else
    i ← the_inode inode;
    let r := if 0 <? i_ref_count i then i_ref_count i - 1 else i_ref_count i in
    _ ← set_inode inode (with_i_ref r i);
    if r =? 0 then modify (λ s, with_inodes (delete inode (inodes s)) s) else mret tt.

Definition file_get (file : Z) : M vfs Z :=
  if file =? 0 then mret 0
  else f ← the_file file; _ ← set_file file (with_f_ref (u32 (f_ref_count f + 1)) f); mret file.

Definition free_file (file : Z) : M vfs unit := modify (λ s, with_filps (delete file (filps s)) s).

(** [if (file->f_op && file->f_op->release) file->f_op->release(file)] *)
Definition release (file : Z) : M vfs unit :=
  f ← the_file file;
  if f_op f =? 0 then mret tt
  else match op_release (f_op f) with Some op => _ ← op file; mret tt | None => mret tt end.

Definition file_put (file : Z) : M vfs unit :=
  if file =? 0 then mret tt
  else
    f ← the_file file;
    let r := if 0 <? f_ref_count f then f_ref_count f - 1 else f_ref_count f in
    _ ← set_file file (with_f_ref r f);
    if r =? 0 then
      _ ← release file;
      f ← the_file file;
      _ ← (if f_inode f =? 0 then mret tt else inode_put (f_inode f));
      free_file file
    else mret tt.

(** ** Opening and closing *)

(** The first free slot of an array of pointers. *)
Definition free_slot (l : list Z) : option nat := fst <$> list_find (eq 0) l.

(** [look] is the inode of the entry that [vfs_lookup] finds, 0 if it finds none;
    [fmem] is the new file object.  The path is not null and [vfs_state] is initialised. *)
Definition vfs_open (look : M vfs Z) (fmem flags : Z) : M vfs Z :=
  inode ← look;
  if inode =? 0 then mret (- ENOENT)
  else
    i ← the_inode inode;
    if fmem =? 0 then mret (- ENOMEM)
    else
      _ ← set_file fmem {| f_inode := inode; f_op := i_f_op i; f_flags := u32 flags; f_pos := 0; f_ref_count := 1; f_private_data := i_private_data i |};
      _ ← inode_get inode;
      ret ← match (if i_f_op i =? 0 then None else op_open (i_f_op i)) with Some op => op inode fmem | None => mret 0 end;
      if ret <? 0 then _ ← free_file fmem; mret ret
      else
        s ← get;
        match free_slot (open_files s) with
        | None => _ ← release fmem; _ ← free_file fmem; mret (- ENOMEM)
        | Some fd => _ ← modify (with_open_files (<[fd := fmem]> (open_files s))); mret (Z.of_nat fd)
        end.

Definition vfs_state_get_file (fd : Z) : M vfs Z :=
  if (fd <? 0) || (VFS_MAX_OPEN_FILES <=? fd) then mret 0 else s ← get; deref (aget (open_files s) fd).

Definition vfs_close (fd : Z) : M vfs Z :=
  if (fd <? 0) || (VFS_MAX_OPEN_FILES <=? fd) then mret (- EBADF)
  else
    s ← get;
    file ← deref (aget (open_files s) fd);
    if file =? 0 then mret (- EBADF)
    else
      _ ← modify (with_open_files (<[Z.to_nat fd := 0]> (open_files s)));
      _ ← file_put file;
      mret 0.

Definition vfs_open_file (look : M vfs Z) (fmem flags : Z) : M vfs Z :=
  global_fd ← vfs_open look fmem flags;
  if global_fd <? 0 then mret 0
  else
    global_file ← vfs_state_get_file global_fd;
    if global_file =? 0 then _ ← vfs_close global_fd; mret 0
    else
      file ← file_get global_file;
      _ ← vfs_close global_fd;
      mret file.

(** ** Reading, writing and seeking *)

(** [buf] is whether the caller's buffer is not null; what is read is returned. *)
Definition vfs_file_read (file : Z) (buf : bool) (count : Z) : M vfs (Z * list Z) :=
  if (file =? 0) || negb buf then mret (- EINVAL, [])
  else
    f ← the_file file;
    let access := Z.land (f_flags f) 3 in
    if negb (access =? 0) && negb (access =? 2) then mret (- EBADF, [])
    else match (if f_op f =? 0 then None else op_read (f_op f)) with
         | None => mret (- EINVAL, [])
         | Some op => op file count
         end.

Definition vfs_file_write (file : Z) (buf : option (list Z)) : M vfs Z :=
  match buf with
  | Some b =>
      if file =? 0 then mret (- EINVAL)
      else
        f ← the_file file;
        let access := Z.land (f_flags f) 3 in
        if negb (access =? 1) && negb (access =? 2) then mret (- EBADF)
        else match (if f_op f =? 0 then None else op_write (f_op f)) with
             | None => mret (- EINVAL)
             | Some op => op file b
             end
  | None => mret (- EINVAL)
  end.

Definition vfs_read (fd : Z) (buf : bool) (count : Z) : M vfs (Z * list Z) :=
  if (fd <? 0) || (VFS_MAX_OPEN_FILES <=? fd) || negb buf then mret (- EINVAL, [])
  else
    s ← get;
    file ← deref (aget (open_files s) fd);
    if file =? 0 then mret (- EBADF, []) else vfs_file_read file true count.

Definition vfs_write (fd : Z) (buf : option (list Z)) : M vfs Z :=
  match buf with
  | Some b =>
      if (fd <? 0) || (VFS_MAX_OPEN_FILES <=? fd) then mret (- EINVAL)
      else
        s ← get;
        file ← deref (aget (open_files s) fd);
        if file =? 0 then mret (- EBADF) else vfs_file_write file (Some b)
  | None => mret (- EINVAL)
  end.

Definition vfs_lseek (fd offset whence : Z) : M vfs Z :=
  if (fd <? 0) || (VFS_MAX_OPEN_FILES <=? fd) then mret (- EINVAL)
  else
    s ← get;
    file ← deref (aget (open_files s) fd);
    if file =? 0 then mret (- EBADF)
    else
      f ← the_file file;
      new_pos ← (if whence =? 0 then mret (Some offset)
                 else if whence =? 1 then mret (Some (i32 (f_pos f + offset)))
                 else if whence =? 2 then
                   if f_inode f =? 0 then mret None else i ← the_inode (f_inode f); mret (Some (i32 (i_size i + offset)))
                 else mret None);
      match new_pos with
      | None => mret (- EINVAL)
      | Some new_pos =>
          if new_pos <? 0 then mret (- EINVAL)
          else _ ← set_file file (with_f_pos new_pos f); mret new_pos
      end.

(** ** Lookups *)

(** The part of [vfs_lookup] at [try_fat32].  [entry] is the result of [fat32_lookup], the
    size in the directory entry and its address; [imem] is the new inode, [dmem] whether
    the dentry can be allocated and [fops] the address of [fat32_file_ops]. *)
Definition lookup_fat32 (entry : option (Z * Z)) (imem : Z) (dmem : bool) (fops : Z) : M vfs Z :=
  match entry with
  | None => mret 0
  | Some (file_size, fat_entry) =>
      if imem =? 0 then mret 0
      else
        _ ← set_inode imem {| i_size := file_size; i_ref_count := 0; i_f_op := fops; i_private_data := fat_entry |};
        mret (if dmem then imem else 0)
  end.

(** [dmem] is whether the dentry can be allocated. *)
Definition devfs_lookup (name : list Z) (dmem : bool) : M vfs Z :=
  s ← get;
  mret (match list_find (λ dev, dev.1 = name) (device_list s) with
        | Some (_, dev) => if dmem then dev.2 else 0
        | None => 0
        end).

(** ** Devices *)

(** [dmem] is whether the entry of the list can be allocated, [imem] the new inode. *)
Definition devfs_register_device (name : list Z) (fops : Z) (dmem : bool) (imem : Z) : M vfs Z :=
  if fops =? 0 then mret (- EINVAL)
  else
    s ← get;
    if bool_decide (name ∈ (device_list s).*1) then mret (- EEXIST)
    else if negb dmem || (imem =? 0) then mret (- ENOMEM)
    else
      _ ← set_inode imem {| i_size := 0; i_ref_count := 0; i_f_op := fops; i_private_data := 0 |};
      _ ← modify (with_devices ((take (Z.to_nat (VFS_MAX_NAME - 1)) name, imem) :: device_list s));
      mret 0.

(** [vfs_free_inode]: the inode must be allocated. *)
Definition vfs_free_inode (inode : Z) : M vfs unit :=
  if inode =? 0 then mret tt else _ ← the_inode inode; modify (λ s, with_inodes (delete inode (inodes s)) s).

Definition devfs_unregister_device (name : list Z) : M vfs Z :=
  s ← get;
  match list_find (λ dev, dev.1 = name) (device_list s) with
  | None => mret (- ENOENT)
  | Some (k, dev) => _ ← modify (with_devices (delete k (device_list s))); _ ← vfs_free_inode dev.2; mret 0
  end.

(** ** Descriptor tables *)

Definition fd_table_create (mem : Z) : M vfs Z :=
  if mem =? 0 then mret 0
  else _ ← set_table mem {| fds := replicate (Z.to_nat MAX_FILES_PER_PROCESS) 0; fd_count := 0 |}; mret mem.

Definition destroy_step (table i : Z) : M vfs unit :=
  t ← the_table table;
  file ← deref (aget (fds t) i);
  if file =? 0 then mret tt
  else
    _ ← file_put file;
    t ← the_table table;
    set_table table {| fds := <[Z.to_nat i := 0]> (fds t); fd_count := fd_count t |}.

Definition fd_table_destroy (table : Z) : M vfs unit :=
  if table =? 0 then mret tt
  else
    _ ← for_up (Z.to_nat MAX_FILES_PER_PROCESS) 0 (destroy_step table);
    modify (λ s, with_tables (delete table (tables s)) s).

Definition fd_table_alloc (table file : Z) : M vfs Z :=
  if (table =? 0) || (file =? 0) then mret (-1)
  else
    t ← the_table table;
    match free_slot (fds t) with
    | None => mret (-1)
    | Some i => _ ← set_table table {| fds := <[i := file]> (fds t); fd_count := u32 (fd_count t + 1) |}; mret (Z.of_nat i)
    end.

Definition fd_table_free (table fd : Z) : M vfs Z :=
  if (table =? 0) || (fd <? 0) || (MAX_FILES_PER_PROCESS <=? fd) then mret (-1)
  else
    t ← the_table table;
    file ← deref (aget (fds t) fd);
    if file =? 0 then mret (-1)
    else
      _ ← file_put file;
      t ← the_table table;
      _ ← set_table table {| fds := <[Z.to_nat fd := 0]> (fds t); fd_count := u32 (fd_count t - 1) |};
      mret 0.

Definition fd_table_get (table fd : Z) : M vfs Z :=
  if (table =? 0) || (fd <? 0) || (MAX_FILES_PER_PROCESS <=? fd) then mret 0
  else t ← the_table table; deref (aget (fds t) fd).

(** The loop copies every slot; a slot that it leaves is null in the new table, as
    it is in the old one. *)
Definition fd_table_copy (src mem : Z) : M vfs Z :=
  if src =? 0 then mret 0
  else
    dst ← fd_table_create mem;
    if dst =? 0 then mret 0
    else
      t ← the_table src;
      _ ← set_table dst {| fds := fds t; fd_count := fd_count t |};
      mret dst.

(** ** System calls *)

Definition set_errno (error_code : Z) : M vfs Z := _ ← modify (with_errno error_code); mret (-1).

(** The file behind a descriptor of the current process, 0 if there is none. *)
Definition current_file (table fd : Z) : M vfs Z :=
  if (table =? 0) || (fd <? 0) || (MAX_FILES_PER_PROCESS <=? fd) then mret 0
  else t ← the_table table; deref (aget (fds t) fd).

Definition sys_dup (table oldfd : Z) : M vfs Z :=
  file ← current_file table oldfd;
  if file =? 0 then set_errno EBADF
  else
    _ ← file_get file;
    newfd ← fd_table_alloc table file;
    if newfd <? 0 then _ ← file_put file; set_errno EMFILE else mret newfd.

(** [table->files[newfd] = file] without counting it. *)
Definition put_slot (table fd file : Z) : M vfs unit :=
  t ← the_table table;
  l ← deref (aset (fds t) fd file);
  set_table table {| fds := l; fd_count := fd_count t |}.

Definition sys_dup2 (table oldfd newfd : Z) : M vfs Z :=
  file ← current_file table oldfd;
  if file =? 0 then set_errno EBADF
  else if (newfd <? 0) || (MAX_FILES_PER_PROCESS <=? newfd) then set_errno EBADF
  else if oldfd =? newfd then mret newfd
  else
    old ← current_file table newfd;
    _ ← (if old =? 0 then mret 0 else fd_table_free table newfd);
    file ← current_file table oldfd;
    _ ← file_get file;
    _ ← put_slot table newfd file;
    mret newfd.

Definition dupfd_step (table file newfd : Z) : M vfs (option Z) :=
  t ← the_table table;
  x ← deref (aget (fds t) newfd);
  if x =? 0 then _ ← file_get file; _ ← put_slot table newfd file; mret (Some newfd) else mret None.

Definition sys_fcntl (table fd cmd arg : Z) : M vfs Z :=
  file ← current_file table fd;
  if file =? 0 then set_errno EBADF
  else if cmd =? 0 then
    let from := i32 arg in
    r ← for_ret (Z.to_nat (MAX_FILES_PER_PROCESS - from)) from (dupfd_step table file);
    match r with Some newfd => mret newfd | None => set_errno EMFILE end
  else if (cmd =? 1) || (cmd =? 2) then mret 0
  else if cmd =? 3 then f ← the_file file; mret (i32 (f_flags f))
  else if cmd =? 4 then
    f ← the_file file;
    let mask := Z.lor 0x0400 2048 in
    _ ← set_file file (with_f_flags (Z.lor (Z.land (f_flags f) (u32 (Z.lnot mask))) (Z.land arg mask)) f);
    mret 0
  else set_errno EINVAL.

(** [path_len] is the length of the path as the check finds it. *)
Definition sys_open (path_len : Z) (look : M vfs Z) (fmem table flags : Z) : M vfs Z :=
  if 4096 <=? path_len then mret (- ENAMETOOLONG)
  else if table =? 0 then mret (- EBADF)
  else
    file ← vfs_open_file look fmem flags;
    if file =? 0 then mret (- ENOENT)
    else
      fd ← fd_table_alloc table file;
      if fd <? 0 then _ ← file_put file; mret (- ENOMEM) else mret fd.

Definition sys_creat (path_len : Z) (look : M vfs Z) (fmem table : Z) : M vfs Z :=
  sys_open path_len look fmem table (Z.lor (Z.lor O_CREAT 1) O_TRUNC).

Definition sys_close (table fd : Z) : M vfs Z :=
  if fd <? 0 then mret (- EINVAL) else if table =? 0 then mret (- EBADF) else fd_table_free table fd.

Definition sys_read (table fd : Z) (buf : bool) (count : Z) : M vfs (Z * list Z) :=
  if (fd <? 0) || negb buf || (count =? 0) then mret (- EINVAL, [])
  else
    file ← current_file table fd;
    if file =? 0 then mret (- EBADF, []) else vfs_file_read file buf count.

Definition sys_write (table fd : Z) (buf : option (list Z)) : M vfs Z :=
  match buf with
  | Some b =>
      if (fd <? 0) || (zlen b =? 0) then mret (- EINVAL)
      else if table =? 0 then vfs_write fd buf
      else
        file ← current_file table fd;
        if file =? 0 then mret (- EBADF) else vfs_file_write file buf
  | None => mret (- EINVAL)
  end.

Definition sys_lseek (fd offset whence : Z) : M vfs Z := vfs_lseek fd offset whence.
End Files.

(** ** /dev/null and /dev/zero

    The two tables of operations, at the addresses 1 and 2. *)

Abbreviation dev_null_fops := 1%Z (only parsing).
Abbreviation dev_zero_fops := 2%Z (only parsing).

Definition dev_null_read (file count : Z) : M vfs (Z * list Z) := mret (0, []).

Definition dev_zero_read (file count : Z) : M vfs (Z * list Z) :=
  if count =? 0 then mret (0, []) else mret (i32 count, replicate (Z.to_nat count) 0).

Definition dev_write (file : Z) (buf : list Z) : M vfs Z := mret (i32 (zlen buf)).

#[refine, local] Instance device_ops : FileOps := {|
  op_open o := if (o =? dev_null_fops) || (o =? dev_zero_fops) then Some (λ _ _, mret 0) else None;
  op_release o := if (o =? dev_null_fops) || (o =? dev_zero_fops) then Some (λ _, mret 0) else None;
  op_read o := if o =? dev_null_fops then Some dev_null_read else if o =? dev_zero_fops then Some dev_zero_read else None;
  op_write o := if (o =? dev_null_fops) || (o =? dev_zero_fops) then Some dev_write else None;
|}.
Proof.
  - intros o f i p s. case_match; [|done]. intros [= <-] _. by exists 0, s.
  - intros o f p s. case_match; [|done]. intros [= <-] _. by exists 0, s.
  - intros o f p n s. repeat case_match; [| |done]; intros [= <-] _; unfold dev_zero_read; try case_match; by eexists _, s.
  - intros o f p b s. case_match; [|done]. intros [= <-] _. by eexists _, s.
Defined.
