(* ===== verification/FilesSpec.v ===== *)
(** * Reference counts of open files

    An open file is shared by the slots of descriptor tables that point to it.  The
    invariant [counted] says that its reference count is the number of those slots;
    a call that is under way holds references of its own, which the invariant takes
    as a [credit].  From it: whatever system calls processes make on their tables, in
    whatever order, no file is used after it is freed and none is leaked.  Fork is
    the exception, as [fd_table_copy] takes no references. *)

From S2P Require Import Prelude Bytes Errno Files.

#[local] Open Scope Z_scope.

(** ** Sums over maps *)

Section Sums.
Context {V : Type} (g : V → Z).

Definition msum (m : gmap Z V) : Z := map_fold (λ _ v acc, g v + acc) 0 m.

Lemma msum_fresh m k v : m !! k = None → msum (<[k := v]> m) = g v + msum m.
Proof. intros Hk. unfold msum. rewrite map_fold_insert_L; [done | intros; lia | done]. Qed.

Lemma msum_delete m k v : m !! k = Some v → msum (delete k m) = msum m - g v.
Proof. intros Hk. rewrite <- (insert_delete_id m k v Hk) at 2. rewrite msum_fresh by apply lookup_delete_eq. lia. Qed.

Lemma msum_insert m k v v' : m !! k = Some v → msum (<[k := v']> m) = msum m - g v + g v'.
Proof.
  intros Hk. rewrite <- insert_delete_eq, msum_fresh by apply lookup_delete_eq.
  rewrite (msum_delete _ _ _ Hk). lia.
Qed.

Lemma msum_bounds m b : (∀ k v, m !! k = Some v → 0 ≤ g v ≤ b) → 0 ≤ msum m ≤ b * Z.of_nat (size m).
Proof.
  induction m as [|k v m Hk IH] using map_ind; intros Hb; [rewrite map_size_empty; unfold msum; rewrite map_fold_empty; lia|].
  rewrite msum_fresh, map_size_insert_None by done.
  destruct (Hb k v) as [? ?]; [apply lookup_insert_eq|].
  destruct IH as [? ?]; [|nia]. intros k' v' Hk'. apply (Hb k'). rewrite lookup_insert_ne by congruence. done.
Qed.

Lemma msum_nonneg m : (∀ k v, m !! k = Some v → 0 ≤ g v) → 0 ≤ msum m.
Proof.
  induction m as [|k v m Hk IH] using map_ind; intros Hb; [unfold msum; by rewrite map_fold_empty|]. rewrite msum_fresh by done.
  pose proof (Hb k v (lookup_insert_eq _ _ _)). enough (0 ≤ msum m) by lia. apply IH.
  intros k' v' Hk'. apply (Hb k'). rewrite lookup_insert_ne by congruence. done.
Qed.

Lemma msum_ge m k v : (∀ k v, m !! k = Some v → 0 ≤ g v) → m !! k = Some v → g v ≤ msum m.
Proof.
  intros Hb Hk. pose proof (msum_delete m k v Hk). enough (0 ≤ msum (delete k m)) by lia.
  apply msum_nonneg. intros k' v' [_ Hk']%lookup_delete_Some. by apply (Hb k').
Qed.
End Sums.

(** How often a pointer occurs in an array. *)
Definition occ (p : Z) (l : list Z) : Z := zlen (filter (eq p) l).

Definition one (p q : Z) : Z := if decide (p = q) then 1 else 0.

Lemma occ_cons p x l : occ p (x :: l) = one p x + occ p l.
Proof. unfold occ, one. rewrite filter_cons. case_decide; cbn [length]; lia. Qed.

Lemma occ_insert p l i x y : l !! i = Some x → occ p (<[i := y]> l) = occ p l - one p x + one p y.
Proof.
  revert i. induction l as [|z l IH]; intros [|i] H; simplify_eq/=; rewrite !occ_cons; [lia|]. rewrite (IH i H). lia.
Qed.

Lemma occ_bounds p l : 0 ≤ occ p l ≤ zlen l.
Proof. unfold occ. pose proof (length_filter (eq p) l). lia. Qed.

Lemma occ_lookup p l i : l !! i = Some p → 1 ≤ occ p l.
Proof.
  intros H. unfold occ. assert (p ∈ filter (eq p) l) as Hin by (apply list_elem_of_filter; split; [done | by eapply list_elem_of_lookup_2]).
  destruct (filter (eq p) l); [by apply not_elem_of_nil in Hin | cbn [length]; lia].
Qed.

Lemma occ_none p l : (∀ x, x ∈ l → x ≠ p) → occ p l = 0.
Proof. intros H. unfold occ. rewrite filter_none; [done|]. intros x Hx <-. by apply (H _ Hx). Qed.

(** ** The invariant *)

(** The inode and the reference count of every open file. *)
Definition held (s : vfs) : gmap Z (Z * Z) := (λ f, (f_inode f, f_ref_count f)) <$> filps s.

(** The slots that point to a file. *)
Definition refs (s : vfs) (p : Z) : Z := occ p (open_files s) + msum (λ t, occ p (fds t)) (tables s).

Definition of_inode (n : Z) (x : Z * Z) : Z := one n x.1.

(** An inode in use has at least one reference for each of its files. *)
Definition inodes_ok (m : gmap Z vfs_inode) (h : gmap Z (Z * Z)) : Prop :=
  ∀ p n r, h !! p = Some (n, r) → n ≠ 0 ∧ ∃ i, m !! n = Some i ∧ msum (of_inode n) h ≤ i_ref_count i.

Record counted (credit : Z → Z) (s : vfs) : Prop := {
  cnt_files p : p ≠ 0 →
    match held s !! p with Some (_, r) => r = refs s p + credit p ∧ 0 < r | None => refs s p + credit p = 0 end;
  cnt_inodes : inodes_ok (inodes s) (held s);
  cnt_tables k t : tables s !! k = Some t → zlen (fds t) = MAX_FILES_PER_PROCESS;
  cnt_open : zlen (open_files s) = VFS_MAX_OPEN_FILES;
  cnt_size : Z.of_nat (size (tables s)) < 2 ^ 24;
}.

Lemma of_inode_nonneg n (h : gmap Z (Z * Z)) : ∀ k v, h !! k = Some v → 0 ≤ of_inode n v.
Proof. intros k v _. unfold of_inode, one. case_decide; lia. Qed.

Lemma inodes_ok_ref m h p n r r' : h !! p = Some (n, r) → inodes_ok m h → inodes_ok m (<[p := (n, r')]> h).
Proof.
  intros Hp Hok q k x Hq. assert (∃ y, h !! q = Some (k, y)) as [y Hy].
  { apply lookup_insert_Some in Hq as [[-> [= -> ->]]|[_ Hq]]; eauto. }
  destruct (Hok q k y Hy) as (Hk & i & Hi & Hle). split; [done|]. exists i. split; [done|].
  rewrite (msum_insert _ _ _ _ _ Hp). unfold of_inode at 2 3. cbn. lia.
Qed.

(** Freeing a file gives back its reference to the inode. *)
Lemma inodes_ok_drop m h p n r i :
  h !! p = Some (n, r) → m !! n = Some i → inodes_ok m h →
  1 ≤ i_ref_count i ∧
  inodes_ok (if i_ref_count i - 1 =? 0 then delete n m else <[n := with_i_ref (i_ref_count i - 1) i]> m) (delete p h).
Proof.
  intros Hp Hi Hok. pose proof (msum_ge (of_inode n) h p (n, r) (of_inode_nonneg n h) Hp) as Hge.
  destruct (Hok p n r Hp) as (Hn & i' & Hi' & Hle). simplify_eq. unfold of_inode at 1, one in Hge. cbn in Hge. rewrite decide_True in Hge by done.
  split; [lia|]. intros q k x [Hpq Hq]%lookup_delete_Some. destruct (Hok q k x Hq) as (Hk & j & Hj & Hlej). split; [done|].
  rewrite (msum_delete (of_inode k) h p (n, r) Hp). unfold of_inode at 2. cbn [fst].
  destruct (decide (k = n)) as [->|Hkn].
  - simplify_eq. unfold one. rewrite decide_True by done.
    assert (1 ≤ msum (of_inode n) (delete p h)) as Hrest.
    { assert (delete p h !! q = Some (n, x)) as Hq' by (rewrite lookup_delete_ne; done).
      pose proof (msum_ge (of_inode n) _ q (n, x) (of_inode_nonneg n _) Hq') as H. unfold of_inode at 1, one in H. cbn in H.
      by rewrite decide_True in H. }
    rewrite (msum_delete (of_inode n) h p (n, r) Hp) in Hrest. unfold of_inode at 2, one in Hrest. cbn in Hrest. rewrite decide_True in Hrest by done.
    rewrite (proj2 (Z.eqb_neq _ 0)) by lia. rewrite lookup_insert_eq. eexists. split; [done|]. cbn. lia.
  - exists j. unfold one. rewrite decide_False by done. split; [|lia].
    destruct (i_ref_count i - 1 =? 0); [by rewrite lookup_delete_ne | by rewrite lookup_insert_ne].
Qed.

Lemma inodes_ok_users m h n i : m !! n = Some i → 0 ≤ i_ref_count i → inodes_ok m h → msum (of_inode n) h ≤ i_ref_count i.
Proof.
  intros Hi Hr Hok. destruct (decide (map_Exists (λ _ x, x.1 = n) h)) as [(p & [k r] & Hp & Hk)|Hno].
  - cbn in Hk. subst k. destruct (Hok p n r Hp) as (_ & i' & Hi' & Hle). by simplify_eq.
  - destruct (msum_bounds (of_inode n) h 0) as [_ ?]; [|lia]. intros k v Hv. unfold of_inode, one.
    rewrite decide_False; [lia|]. intros ->. apply Hno. by exists k, v.
Qed.

Lemma inodes_ok_add m h p n i :
  h !! p = None → n ≠ 0 → m !! n = Some i → 0 ≤ i_ref_count i → inodes_ok m h →
  inodes_ok (<[n := with_i_ref (i_ref_count i + 1) i]> m) (<[p := (n, 1)]> h).
Proof.
  intros Hp Hn Hi Hr Hok q k x Hq. pose proof (inodes_ok_users m h n i Hi Hr Hok) as Hu.
  assert (k = n ∨ h !! q = Some (k, x)) as Hcase by (apply lookup_insert_Some in Hq as [[_ [= -> _]]|[_ ?]]; auto).
  rewrite (msum_fresh _ _ _ _ Hp). unfold of_inode at 1. cbn [fst].
  destruct (decide (k = n)) as [->|Hkn].
  - split; [done|]. rewrite lookup_insert_eq. eexists. split; [done|]. unfold one. rewrite decide_True by done. cbn. lia.
  - destruct Hcase as [|Hq']; [done|]. destruct (Hok q k x Hq') as (Hk & j & Hj & Hle). split; [done|]. exists j.
    rewrite lookup_insert_ne by done. split; [done|]. unfold one. rewrite decide_False by done. lia.
Qed.

Lemma counted_frame c s s' :
  counted c s → held s' = held s → inodes s' = inodes s → tables s' = tables s → open_files s' = open_files s → counted c s'.
Proof. intros [H1 H2 H3 H4 H5] Eh Ei Et Eo. split; unfold refs; rewrite ?Eh, ?Ei, ?Et, ?Eo; assumption. Qed.

Lemma counted_ext c c' s : counted c s → (∀ q, q ≠ 0 → c' q = c q) → counted c' s.
Proof. intros [H1 H2 H3 H4 H5] Hc. split; [|done..]. intros p Hp. rewrite Hc by done. by apply H1. Qed.

Lemma refs_bounds c s p : counted c s → 0 ≤ refs s p ≤ 64 + 64 * Z.of_nat (size (tables s)).
Proof.
  intros Hs. unfold refs. pose proof (occ_bounds p (open_files s)). rewrite (cnt_open _ _ Hs) in *.
  destruct (msum_bounds (λ t, occ p (fds t)) (tables s) 64); [|lia].
  intros k t Ht. rewrite <- (cnt_tables _ _ Hs k t Ht). apply occ_bounds.
Qed.

(** A file that somebody refers to is allocated, and its count is exact. *)
Lemma counted_live c s p :
  counted c s → p ≠ 0 → refs s p + c p ≠ 0 →
  ∃ f, filps s !! p = Some f ∧ f_ref_count f = refs s p + c p ∧ 0 < f_ref_count f.
Proof.
  intros Hs Hp Hr. pose proof (cnt_files _ _ Hs p Hp) as H. unfold held in H. rewrite lookup_fmap in H.
  destruct (filps s !! p) as [f|]; cbn in H; [by exists f | done].
Qed.

Lemma refs_table s k t i p : tables s !! k = Some t → fds t !! i = Some p → 1 ≤ refs s p.
Proof.
  intros Ht Hi. unfold refs. pose proof (occ_bounds p (open_files s)). pose proof (occ_lookup _ _ _ Hi).
  pose proof (msum_ge (λ t, occ p (fds t)) (tables s) k t ltac:(intros; apply occ_bounds) Ht). cbn in *. lia.
Qed.

(** Writing a slot moves a reference between the slot and the credit. *)
Lemma counted_slot c s k t i x y n :
  counted c s → tables s !! k = Some t → fds t !! i = Some x →
  counted (λ q, c q + one q x - one q y) (with_tables (<[k := {| fds := <[i := y]> (fds t); fd_count := n |}]> (tables s)) s).
Proof.
  intros Hs Ht Hi. split.
  - intros p Hp. pose proof (cnt_files _ _ Hs p Hp) as H. unfold held, refs in *. cbn.
    rewrite (msum_insert _ _ _ _ _ Ht). cbn. rewrite (occ_insert _ _ _ _ _ Hi). case_match; [case_match|]; lia.
  - exact (cnt_inodes _ _ Hs).
  - cbn. intros k' t' [[-> <-]|[_ Ht']]%lookup_insert_Some; cbn; [rewrite length_insert|]; by eapply cnt_tables.
  - exact (cnt_open _ _ Hs).
  - cbn. rewrite map_size_insert_Some by eauto. apply (cnt_size _ _ Hs).
Qed.

Lemma counted_open_slot c s i x y :
  counted c s → open_files s !! i = Some x → counted (λ q, c q + one q x - one q y) (with_open_files (<[i := y]> (open_files s)) s).
Proof.
  intros Hs Hi. split.
  - intros p Hp. pose proof (cnt_files _ _ Hs p Hp) as H. unfold held, refs in *. cbn.
    rewrite (occ_insert _ _ _ _ _ Hi). case_match; [case_match|]; lia.
  - exact (cnt_inodes _ _ Hs).
  - exact (cnt_tables _ _ Hs).
  - cbn. rewrite length_insert. exact (cnt_open _ _ Hs).
  - exact (cnt_size _ _ Hs).
Qed.

Lemma counted_new_table c s k t :
  counted c s → tables s !! k = None → zlen (fds t) = 64 → (∀ x, x ∈ fds t → x = 0) → Z.of_nat (size (tables s)) + 1 < 2 ^ 24 →
  counted c (with_tables (<[k := t]> (tables s)) s).
Proof.
  intros Hs Hk Hl Hz Hsz. split.
  - intros p Hp. pose proof (cnt_files _ _ Hs p Hp) as H. unfold held, refs in *. cbn.
    rewrite (msum_fresh _ _ _ _ Hk), (occ_none p (fds t)); [by rewrite Z.add_0_l|]. intros x Hx ->. by specialize (Hz _ Hx).
  - exact (cnt_inodes _ _ Hs).
  - cbn. intros k' t' [[-> <-]|[_ Ht']]%lookup_insert_Some; [done | by eapply cnt_tables].
  - exact (cnt_open _ _ Hs).
  - cbn. rewrite map_size_insert_None by done. lia.
Qed.

Lemma counted_drop_table c s k t :
  counted c s → tables s !! k = Some t → (∀ x, x ∈ fds t → x = 0) → counted c (with_tables (delete k (tables s)) s).
Proof.
  intros Hs Hk Hz. split.
  - intros p Hp. pose proof (cnt_files _ _ Hs p Hp) as H. unfold held, refs in *. cbn.
    rewrite (msum_delete _ _ _ _ Hk), (occ_none p (fds t)); [by rewrite Z.sub_0_r|]. intros x Hx ->. by specialize (Hz _ Hx).
  - exact (cnt_inodes _ _ Hs).
  - cbn. intros k' t' [_ Ht']%lookup_delete_Some. by eapply cnt_tables.
  - exact (cnt_open _ _ Hs).
  - cbn. rewrite map_size_delete_Some by eauto. pose proof (cnt_size _ _ Hs). lia.
Qed.

Lemma held_shape s s' : shape <$> filps s' = shape <$> filps s → held s' = held s.
Proof.
  intros E. unfold held.
  assert (∀ m : gmap Z vfs_file, (λ f, (f_inode f, f_ref_count f)) <$> m = (λ x, (x.1.1.1, x.2)) <$> (shape <$> m)) as Hc.
  { intros m. rewrite <- map_fmap_compose. done. }
  by rewrite !Hc, E.
Qed.

(** Changing the count of one file, and freeing one. *)
Lemma counted_ref c s p f d :
  counted c s → p ≠ 0 → filps s !! p = Some f → 0 < f_ref_count f + d →
  counted (λ q, c q + d * one q p) (with_filps (<[p := with_f_ref (f_ref_count f + d) f]> (filps s)) s).
Proof.
  intros Hs Hp Hf Hd. assert (held s !! p = Some (f_inode f, f_ref_count f)) as Hh by (unfold held; by rewrite lookup_fmap, Hf).
  assert (held (with_filps (<[p := with_f_ref (f_ref_count f + d) f]> (filps s)) s) = <[p := (f_inode f, f_ref_count f + d)]> (held s)) as E.
  { unfold held. cbn. by rewrite fmap_insert. }
  split.
  - intros q Hq. pose proof (cnt_files _ _ Hs q Hq) as H. rewrite E. unfold refs in *. cbn. unfold one.
    destruct (decide (q = p)) as [->|Hqp]; [rewrite Hh in H; rewrite lookup_insert_eq; lia|].
    rewrite lookup_insert_ne by done. case_match; [case_match|]; lia.
  - rewrite E. eapply inodes_ok_ref; [exact Hh | exact (cnt_inodes _ _ Hs)].
  - exact (cnt_tables _ _ Hs).
  - exact (cnt_open _ _ Hs).
  - exact (cnt_size _ _ Hs).
Qed.

(** The references held before and after balance. *)
Ltac credits := intros; cbn beta; unfold one in *; repeat case_decide; first [lia | congruence].

(** No call is under way. *)
Abbreviation settled := (counted (λ _, 0)).

(** ** Getting and putting references *)

Lemma the_file_Ret s p f : filps s !! p = Some f → the_file p s = Ret (f, s).
Proof. intros H. unfold the_file. by rewrite bind_get, H. Qed.

Lemma the_inode_Ret s p i : inodes s !! p = Some i → the_inode p s = Ret (i, s).
Proof. intros H. unfold the_inode. by rewrite bind_get, H. Qed.

Lemma the_table_Ret s p t : tables s !! p = Some t → the_table p s = Ret (t, s).
Proof. intros H. unfold the_table. by rewrite bind_get, H. Qed.

Section Counting.
Context {ops : FileOps}.

Lemma release_spec s p f : filps s !! p = Some f → ∃ s', release p s = Ret (tt, s') ∧ same_refs s s'.
Proof.
  intros Hf. unfold release. rewrite (bind_Ret _ _ _ _ _ (the_file_Ret _ _ _ Hf)).
  destruct (f_op f =? 0); [by exists s|]. destruct (op_release (f_op f)) as [op|] eqn:Ho; [|by exists s].
  destruct (op_release_frame _ _ p s Ho ltac:(eauto)) as (r & s' & E & Hs'). exists s'. by rewrite (bind_Ret _ _ _ _ _ E).
Qed.

Lemma same_refs_file s s' p f :
  same_refs s s' → filps s !! p = Some f → ∃ f', filps s' !! p = Some f' ∧ shape f' = shape f.
Proof.
  intros (_ & _ & _ & _ & E) Hf. assert ((shape <$> filps s') !! p = Some (shape f)) as H by (rewrite E, lookup_fmap, Hf; done).
  rewrite lookup_fmap in H. destruct (filps s' !! p) as [f'|]; [|done]. exists f'. split; [done|]. cbn [fmap option_fmap option_map] in H. congruence.
Qed.

Lemma inode_put_spec s n i :
  n ≠ 0 → inodes s !! n = Some i → 1 ≤ i_ref_count i →
  inode_put n s =
    Ret (tt, with_inodes (if i_ref_count i - 1 =? 0 then delete n (inodes s) else <[n := with_i_ref (i_ref_count i - 1) i]> (inodes s)) s).
Proof.
  intros Hn Hi Hr. unfold inode_put. rewrite (proj2 (Z.eqb_neq n 0)) by done.
  rewrite (bind_Ret _ _ _ _ _ (the_inode_Ret _ _ _ Hi)), (proj2 (Z.ltb_lt 0 _)) by lia.
  unfold set_inode. rewrite bind_modify. destruct (i_ref_count i - 1 =? 0); [|done].
  unfold modify. cbn. by rewrite delete_insert_eq.
Qed.

(** What a call leaves alone when it only touches references. *)
Definition quiet (s s' : vfs) : Prop :=
  tables s' = tables s ∧ open_files s' = open_files s ∧ device_list s' = device_list s.

Lemma file_get_spec c s p f :
  counted c s → p ≠ 0 → filps s !! p = Some f → c p ≤ 2 ^ 31 →
  ∃ s', file_get p s = Ret (p, s') ∧ counted (λ q, c q + one q p) s' ∧ quiet s s' ∧ inodes s' = inodes s ∧
    filps s' = <[p := with_f_ref (f_ref_count f + 1) f]> (filps s).
Proof.
  intros Hs Hp Hf Hc. pose proof (cnt_files _ _ Hs p Hp) as H. unfold held in H. rewrite lookup_fmap, Hf in H. cbn in H.
  pose proof (refs_bounds _ _ p Hs). pose proof (cnt_size _ _ Hs).
  unfold file_get. rewrite (proj2 (Z.eqb_neq p 0)), (bind_Ret _ _ _ _ _ (the_file_Ret _ _ _ Hf)), u32_small by lia. unfold set_file. rewrite bind_modify.
  eexists. split; [done|]. split; [|done].
  eapply counted_ext; [apply (counted_ref c s p f 1); [done..|lia]|]. credits.
Qed.

Lemma counted_free c s s' p f i :
  counted c s → p ≠ 0 → filps s !! p = Some f → f_ref_count f = 1 → inodes s !! f_inode f = Some i →
  inodes s' = (if i_ref_count i - 1 =? 0 then delete (f_inode f) (inodes s) else <[f_inode f := with_i_ref (i_ref_count i - 1) i]> (inodes s)) →
  held s' = delete p (held s) → quiet s s' → counted (λ q, c q - one q p) s'.
Proof.
  intros Hs Hp Hf Hr Hi Ei Eh (Et & Eo & _).
  assert (held s !! p = Some (f_inode f, 1)) as Hh by (unfold held; by rewrite lookup_fmap, Hf, <- Hr).
  split.
  - intros q Hq. pose proof (cnt_files _ _ Hs q Hq) as H. rewrite Eh. unfold refs in *. rewrite Et, Eo. unfold one.
    destruct (decide (q = p)) as [->|Hqp]; [rewrite Hh in H; rewrite lookup_delete_eq; lia|].
    rewrite lookup_delete_ne by done. case_match; [case_match|]; lia.
  - rewrite Eh, Ei. by eapply inodes_ok_drop; [exact Hh | | exact (cnt_inodes _ _ Hs)].
  - rewrite Et. exact (cnt_tables _ _ Hs).
  - rewrite Eo. exact (cnt_open _ _ Hs).
  - rewrite Et. exact (cnt_size _ _ Hs).
Qed.

(** What giving back a reference does to the files and the inodes. *)
Definition dropped (s s' : vfs) (p : Z) (f : vfs_file) : Prop :=
  if f_ref_count f =? 1 then
    held s' = delete p (held s) ∧ ∃ i, inodes s !! f_inode f = Some i ∧
      inodes s' = if i_ref_count i - 1 =? 0 then delete (f_inode f) (inodes s) else <[f_inode f := with_i_ref (i_ref_count i - 1) i]> (inodes s)
  else filps s' = <[p := with_f_ref (f_ref_count f - 1) f]> (filps s) ∧ inodes s' = inodes s.

Lemma dropped_held s s' p f :
  dropped s s' p f →
  held s' = if f_ref_count f =? 1 then delete p (held s) else <[p := (f_inode f, f_ref_count f - 1)]> (held s).
Proof. unfold dropped. destruct (f_ref_count f =? 1); intros [E _]; [done|]. unfold held. by rewrite E, fmap_insert. Qed.

Lemma file_put_spec c s p f :
  counted c s → p ≠ 0 → filps s !! p = Some f →
  ∃ s', file_put p s = Ret (tt, s') ∧ counted (λ q, c q - one q p) s' ∧ quiet s s' ∧ dropped s s' p f.
Proof.
  intros Hs Hp Hf. pose proof (cnt_files _ _ Hs p Hp) as H. unfold held in H. rewrite lookup_fmap, Hf in H. cbn in H.
  unfold file_put. rewrite (proj2 (Z.eqb_neq p 0)), (bind_Ret _ _ _ _ _ (the_file_Ret _ _ _ Hf)), (proj2 (Z.ltb_lt 0 _)) by lia. unfold set_file. rewrite bind_modify.
  set (s1 := with_filps _ _). unfold dropped. destruct (Z.eqb_spec (f_ref_count f) 1) as [H1|H1].
  - rewrite (proj2 (Z.eqb_eq (f_ref_count f - 1) 0)) by lia.
    assert (filps s1 !! p = Some (with_f_ref (f_ref_count f - 1) f)) as Hf1 by apply lookup_insert_eq.
    destruct (release_spec _ _ _ Hf1) as (s2 & E & Hs2). rewrite (bind_Ret _ _ _ _ _ E).
    destruct (same_refs_file _ _ _ _ Hs2 Hf1) as (f2 & Hf2 & Hsh). injection Hsh as Hino _ _ _.
    destruct Hs2 as (Ei & Et & Eo & Ed & Esh). apply held_shape in Esh.
    rewrite (bind_Ret _ _ _ _ _ (the_file_Ret _ _ _ Hf2)), Hino.
    assert (held s !! p = Some (f_inode f, f_ref_count f)) as Hh by (unfold held; by rewrite lookup_fmap, Hf).
    destruct (cnt_inodes _ _ Hs p _ _ Hh) as (Hn & i & Hi & _).
    destruct (inodes_ok_drop _ _ _ _ _ _ Hh Hi (cnt_inodes _ _ Hs)) as [Hi1 _].
    rewrite (proj2 (Z.eqb_neq (f_inode f) 0)) by done.
    assert (inodes s2 !! f_inode f = Some i) as Hi2 by (by rewrite Ei).
    rewrite (bind_Ret _ _ _ _ _ (inode_put_spec s2 _ i Hn Hi2 Hi1)). unfold free_file, modify. cbn. rewrite Ei.
    assert (delete p (held s2) = delete p (held s)) as Eh2.
    { rewrite Esh. unfold held. cbn. by rewrite fmap_insert, delete_insert_eq. }
    eexists. split; [done|]. split; [|split].
    + eapply (counted_free c s _ p f i); try done; cbn. unfold held. cbn. by rewrite fmap_delete.
    + done.
    + split; [unfold held; cbn; by rewrite fmap_delete | by exists i].
  - rewrite (proj2 (Z.eqb_neq _ 0)) by lia. exists s1. split; [done|]. split; [|done].
    eapply counted_ext; [apply (counted_ref c s p f (-1)); [done..|lia]|]. credits.
Qed.

(** ** Descriptor tables *)

Lemma free_slot_Some l i : free_slot l = Some i → l !! i = Some 0 ∧ ∀ j x, (j < i)%nat → l !! j = Some x → x ≠ 0.
Proof.
  unfold free_slot. intros ((i' & x) & (Hi & <- & Hj)%list_find_Some & ->)%fmap_Some. split; [done|].
  intros j x Hlt Hx ->. by eapply (Hj j 0).
Qed.

Lemma free_slot_None l : free_slot l = None → ∀ x, x ∈ l → x ≠ 0.
Proof. unfold free_slot. intros H%fmap_None%list_find_None x Hx ->. rewrite Forall_forall in H. by eapply (H 0). Qed.

(** Descriptor [fd] of the table [k] is the file [p]. *)
Definition slot (s : vfs) (k fd p : Z) : Prop :=
  k ≠ 0 ∧ 0 ≤ fd < MAX_FILES_PER_PROCESS ∧ ∃ t, tables s !! k = Some t ∧ fds t !! Z.to_nat fd = Some p.

Definition is_table (s : vfs) (k : Z) : Prop := k = 0 ∨ is_Some (tables s !! k).

Lemma slot_live s k fd p : settled s → slot s k fd p → p ≠ 0 → ∃ f, filps s !! p = Some f ∧ f_ref_count f = refs s p.
Proof.
  intros Hs (_ & _ & t & Ht & Hi) Hp. pose proof (refs_table _ _ _ _ _ Ht Hi).
  destruct (counted_live _ _ p Hs Hp) as (f & Hf & Hr & _); [lia|]. exists f. split; [done | lia].
Qed.

Lemma current_file_spec c s k fd :
  counted c s → is_table s k → ∃ p, current_file k fd s = Ret (p, s) ∧ (p = 0 ∨ slot s k fd p) ∧ ∀ q, slot s k fd q → q = p.
Proof.
  intros Hs Hk. unfold current_file. destruct ((k =? 0) || (fd <? 0) || (64 <=? fd)) eqn:Hb.
  { exists 0. split_and!; [done | by left |]. intros q (Hk0 & Hfd & _). zbool. }
  assert (k ≠ 0 ∧ 0 ≤ fd < 64) as [Hk0 Hfd] by zbool.
  destruct Hk as [|[t Ht]]; [done|]. rewrite (bind_Ret _ _ _ _ _ (the_table_Ret _ _ _ Ht)).
  destruct (aget_Some (fds t) fd) as [p Hp]; [rewrite (cnt_tables _ _ Hs k t Ht); lia|]. rewrite Hp.
  apply aget_lookup in Hp; [|lia]. exists p. split_and!; [done | right; split_and!; [done | lia | lia | by exists t] |].
  intros q (_ & _ & t' & Ht' & Hq). by simplify_eq.
Qed.

Lemma fd_table_alloc_spec c s k t p :
  counted c s → k ≠ 0 → p ≠ 0 → tables s !! k = Some t →
  ∃ fd s', fd_table_alloc k p s = Ret (fd, s') ∧
    match free_slot (fds t) with
    | Some i =>
        fd = Z.of_nat i ∧ s' = with_tables (<[k := {| fds := <[i := p]> (fds t); fd_count := u32 (fd_count t + 1) |}]> (tables s)) s ∧
        counted (λ q, c q - one q p) s'
    | None => fd = -1 ∧ s' = s
    end.
Proof.
  intros Hs Hk Hp Ht. unfold fd_table_alloc. rewrite (proj2 (Z.eqb_neq k 0)), (proj2 (Z.eqb_neq p 0)) by done. cbn [orb].
  rewrite (bind_Ret _ _ _ _ _ (the_table_Ret _ _ _ Ht)). destruct (free_slot (fds t)) as [i|] eqn:Hi; [|by eexists _, _].
  unfold set_table. rewrite bind_modify. eexists _, _. split; [done|]. split_and!; [done..|].
  apply free_slot_Some in Hi as [Hi _]. eapply counted_ext; [apply (counted_slot c s k t i 0 p); done|]. credits.
Qed.

(** Closing a descriptor: the slot is cleared and the file loses one reference. *)
Definition closed (s s' : vfs) (k fd p : Z) (count : Z → Z) : Prop :=
  ∃ t f, tables s !! k = Some t ∧ filps s !! p = Some f ∧
    tables s' = <[k := {| fds := <[Z.to_nat fd := 0]> (fds t); fd_count := count (fd_count t) |}]> (tables s) ∧
    dropped s s' p f.

Lemma put_clear_spec s k fd p (h : Z → Z) :
  settled s → slot s k fd p → p ≠ 0 →
  ∃ s', (_ ← file_put p; t ← the_table k; set_table k {| fds := <[Z.to_nat fd := 0]> (fds t); fd_count := h (fd_count t) |}) s = Ret (tt, s') ∧
    settled s' ∧ open_files s' = open_files s ∧ device_list s' = device_list s ∧ closed s s' k fd p h.
Proof.
  intros Hs Hsl Hp. destruct (slot_live _ _ _ _ Hs Hsl Hp) as (f & Hf & _). destruct Hsl as (Hk & Hfd & t & Ht & Hi).
  destruct (file_put_spec _ _ _ _ Hs Hp Hf) as (s1 & E & Hs1 & (Et & Eo & Ed) & Eh). rewrite (bind_Ret _ _ _ _ _ E).
  assert (tables s1 !! k = Some t) as Ht1 by (by rewrite Et). rewrite (bind_Ret _ _ _ _ _ (the_table_Ret _ _ _ Ht1)).
  eexists. split; [done|]. split_and!; [|done|done|].
  - eapply counted_ext; [apply (counted_slot _ s1 k t (Z.to_nat fd) p 0 _ Hs1 Ht1 Hi)|]. credits.
  - exists t, f. split_and!; [done..| |done]. cbn. by rewrite Et.
Qed.

Lemma fd_table_free_spec s k fd :
  settled s → is_table s k →
  ∃ r s', fd_table_free k fd s = Ret (r, s') ∧ settled s' ∧ open_files s' = open_files s ∧ device_list s' = device_list s ∧
    ((r = -1 ∧ s' = s ∧ ∀ p, slot s k fd p → p = 0) ∨ (r = 0 ∧ ∃ p, p ≠ 0 ∧ slot s k fd p ∧ closed s s' k fd p (λ n, u32 (n - 1)))).
Proof.
  intros Hs Hk. destruct (current_file_spec _ _ _ fd Hs Hk) as (p & E & Hp & Hu). revert E. unfold fd_table_free, current_file.
  destruct ((k =? 0) || (fd <? 0) || (64 <=? fd)) eqn:Hb.
  { intros [= <-]. eexists _, _. split; [done|]. split_and!; [done..|]. by left. }
  intros E. apply bind_Ret_inv in E as (t & s1 & Et & E). rewrite (bind_Ret _ _ _ _ _ Et), (bind_Ret _ _ _ _ _ E).
  destruct (Z.eqb_spec p 0) as [->|Hp0].
  - eexists _, _. split; [done|]. split_and!; [done..|]. by left.
  - destruct Hp as [|Hsl]; [done|]. destruct (put_clear_spec s k fd p (λ n, u32 (n - 1)) Hs Hsl Hp0) as (s' & E' & Hs' & Eo & Ed & Hc).
    apply bind_Ret_inv in E' as ([] & s2 & E1 & E'). rewrite (bind_Ret _ _ _ _ _ E1).
    apply bind_Ret_inv in E' as (t2 & s3 & E2 & E'). rewrite (bind_Ret _ _ _ _ _ E2), (bind_Ret _ _ _ _ _ E').
    exists 0, s'. split; [done|]. split_and!; [done..|]. right. split; [done|]. by exists p.
Qed.

(** ** Duplicating descriptors *)

Definition safe {A} (m : M vfs A) (s : vfs) : Prop :=
  ∃ r s', m s = Ret (r, s') ∧ settled s' ∧ open_files s' = open_files s.

Lemma settled_frame s s' :
  settled s → held s' = held s → inodes s' = inodes s → tables s' = tables s → open_files s' = open_files s → settled s'.
Proof. apply counted_frame. Qed.

Lemma safe_ret {A} (a : A) s : settled s → safe (mret a) s.
Proof. intros Hs. by exists a, s. Qed.

Lemma safe_errno e s : settled s → safe (set_errno e) s.
Proof. intros Hs. eexists _, _. split; [done|]. split; [by eapply settled_frame|done]. Qed.

Lemma safe_bind {A B} (m : M vfs A) (k : A → M vfs B) s a s' :
  m s = Ret (a, s') → open_files s' = open_files s → safe (k a) s' → safe (m ≫= k) s.
Proof.
  intros E Eo (r & s2 & E2 & H2 & Eo2). exists r, s2. rewrite (bind_Ret _ _ _ _ _ E). split_and!; [done..|congruence].
Qed.

Lemma put_slot_spec c s k t fd x p :
  counted c s → tables s !! k = Some t → 0 ≤ fd < 64 → fds t !! Z.to_nat fd = Some x →
  ∃ s', put_slot k fd p s = Ret (tt, s') ∧ counted (λ q, c q + one q x - one q p) s' ∧
    s' = with_tables (<[k := {| fds := <[Z.to_nat fd := p]> (fds t); fd_count := fd_count t |}]> (tables s)) s.
Proof.
  intros Hs Ht Hfd Hx. unfold put_slot. rewrite (bind_Ret _ _ _ _ _ (the_table_Ret _ _ _ Ht)).
  rewrite aset_Some by (rewrite (cnt_tables _ _ Hs k t Ht); lia). rewrite bind_deref.
  eexists. split; [done|]. split; [|done]. apply (counted_slot c s k t _ x p _ Hs Ht Hx).
Qed.

(** A reference is taken and stored in a free slot. *)
Lemma get_put_slot_spec s k fd p t :
  settled s → tables s !! k = Some t → 0 ≤ fd < 64 → fds t !! Z.to_nat fd = Some 0 → p ≠ 0 → is_Some (filps s !! p) →
  ∃ s' f, (_ ← file_get p; put_slot k fd p) s = Ret (tt, s') ∧ settled s' ∧ open_files s' = open_files s ∧
    filps s !! p = Some f ∧ filps s' = <[p := with_f_ref (f_ref_count f + 1) f]> (filps s) ∧
    tables s' = <[k := {| fds := <[Z.to_nat fd := p]> (fds t); fd_count := fd_count t |}]> (tables s).
Proof.
  intros Hs Ht Hfd H0 Hp [f Hf].
  destruct (file_get_spec _ _ _ _ Hs Hp Hf ltac:(lia)) as (s1 & E & Hs1 & (Et & Eo & Ed) & _ & Ef). rewrite (bind_Ret _ _ _ _ _ E).
  rewrite <- Et in Ht. destruct (put_slot_spec _ _ _ _ _ _ p Hs1 Ht Hfd H0) as (s2 & E2 & Hs2 & ->).
  eexists _, f. split; [exact E2|]. split_and!; [|done|done|done|by cbn; rewrite Et]. eapply counted_ext; [exact Hs2|]. credits.
Qed.

Lemma dup_spec s k oldfd :
  settled s → is_table s k →
  ∃ r s', sys_dup k oldfd s = Ret (r, s') ∧ settled s' ∧ open_files s' = open_files s ∧
    ((r = -1 ∧ errno s' = EBADF ∧ ∀ p, slot s k oldfd p → p = 0) ∨
     ∃ p t f, slot s k oldfd p ∧ p ≠ 0 ∧ tables s !! k = Some t ∧ filps s !! p = Some f ∧
       match free_slot (fds t) with
       | None => r = -1 ∧ errno s' = EMFILE ∧ tables s' = tables s ∧ held s' = held s
       | Some i => r = Z.of_nat i ∧ held s' = <[p := (f_inode f, f_ref_count f + 1)]> (held s) ∧
           tables s' = <[k := {| fds := <[i := p]> (fds t); fd_count := u32 (fd_count t + 1) |}]> (tables s)
       end).
Proof.
  intros Hs Hk. destruct (current_file_spec _ _ _ oldfd Hs Hk) as (p & E & Hp & Hu). unfold sys_dup. rewrite (bind_Ret _ _ _ _ _ E).
  destruct (Z.eqb_spec p 0) as [->|Hp0].
  { eexists _, _. split; [done|]. split_and!; [by eapply settled_frame | done |]. by left. }
  destruct Hp as [|Hsl]; [done|]. destruct (slot_live _ _ _ _ Hs Hsl Hp0) as (f & Hf & Hr).
  destruct (file_get_spec _ _ _ _ Hs Hp0 Hf ltac:(lia)) as (s1 & E1 & Hs1 & (Et & Eo & Ed) & _ & Ef). rewrite (bind_Ret _ _ _ _ _ E1).
  pose proof Hsl as (Hk0 & Hfd & t & Ht & Hi). assert (tables s1 !! k = Some t) as Ht1 by (by rewrite Et).
  assert (held s1 = <[p := (f_inode f, f_ref_count f + 1)]> (held s)) as Eh by (unfold held; by rewrite Ef, fmap_insert).
  destruct (fd_table_alloc_spec _ _ _ _ p Hs1 Hk0 Hp0 Ht1) as (fd & s2 & E2 & H2). rewrite (bind_Ret _ _ _ _ _ E2).
  destruct (free_slot (fds t)) as [i|] eqn:Hfree; [destruct H2 as (-> & Es2 & Hs2)|destruct H2 as (-> & ->)].
  - rewrite (proj2 (Z.ltb_ge _ 0)) by lia. eexists _, s2. split; [done|].
    split_and!; [eapply counted_ext; [exact Hs2 | credits] | by rewrite Es2 |]. right. exists p, t, f. rewrite Hfree, Es2.
    split_and!; [done..|]. cbn. by rewrite Et.
  - cbn [Z.ltb Z.compare]. assert (filps s1 !! p = Some (with_f_ref (f_ref_count f + 1) f)) as Hf1 by (rewrite Ef; apply lookup_insert_eq).
    destruct (file_put_spec _ _ _ _ Hs1 Hp0 Hf1) as (s3 & E3 & Hs3 & (Et3 & Eo3 & _) & Eh3%dropped_held). rewrite (bind_Ret _ _ _ _ _ E3).
    eexists _, _. split; [done|]. split_and!; [| cbn; congruence |].
    + eapply settled_frame; [eapply counted_ext; [exact Hs3|credits]|done..].
    + right. exists p, t, f. rewrite Hfree. split_and!; [done..| | ]; [cbn; congruence|].
      pose proof (counted_live _ _ p Hs Hp0) as Hl. destruct Hl as (f' & Hf' & Hr' & Hpos); [pose proof (refs_table _ _ _ _ _ Ht Hi); lia|].
      change (held s3 = held s). rewrite Eh3, Eh. cbn. simplify_eq. rewrite (proj2 (Z.eqb_neq _ 1)) by lia.
      rewrite insert_insert_eq. apply insert_id. unfold held. rewrite lookup_fmap, Hf. cbn. do 2 f_equal. lia.
Qed.

(** [newfd] is made free, whether it was open or not. *)
Lemma clear_slot_spec s k newfd :
  settled s → is_Some (tables s !! k) → k ≠ 0 → 0 ≤ newfd < 64 →
  ∃ s', (old ← current_file k newfd; if old =? 0 then mret 0 else fd_table_free k newfd) s = Ret (0, s') ∧
    settled s' ∧ open_files s' = open_files s ∧ slot s' k newfd 0 ∧ ∀ fd q, fd ≠ newfd → slot s k fd q → slot s' k fd q.
Proof.
  intros Hs Hkt Hk Hn. destruct (current_file_spec _ _ k newfd Hs (or_intror Hkt)) as (old & E & Hold & Hu). rewrite (bind_Ret _ _ _ _ _ E).
  pose proof Hkt as [t Ht]. destruct (lookup_lt_is_Some_2 (fds t) (Z.to_nat newfd)) as [x Hx]; [pose proof (cnt_tables _ _ Hs k t Ht); lia|].
  assert (slot s k newfd old) as Hsl.
  { assert (slot s k newfd x) as Hsl by (split_and!; [done | lia | lia | by exists t]). by rewrite <- (Hu _ Hsl). }
  destruct (Z.eqb_spec old 0) as [->|Ho]; [by exists s|].
  destruct (fd_table_free_spec s k newfd Hs (or_intror Hkt)) as (r & s' & E' & Hs' & Eo & _ & [(_ & _ & Hz)|(-> & p & Hp & _ & Hc)]).
  { by specialize (Hz _ Hsl). }
  exists s'. split_and!; [done..| |].
  - destruct Hc as (t' & f & Ht' & _ & Et & _). simplify_eq. split_and!; [done | lia | lia |].
    rewrite Et, lookup_insert_eq. eexists. split; [done|]. cbn. apply list_lookup_insert_eq. by eapply lookup_lt_Some.
  - intros fd q Hne (_ & Hfd & t1 & Ht1 & Hq). destruct Hc as (t' & f & Ht' & _ & Et & _). simplify_eq.
    split_and!; [done | lia | lia |]. rewrite Et, lookup_insert_eq. eexists. split; [done|]. cbn. rewrite list_lookup_insert_ne by lia. done.
Qed.

Lemma dup2_spec s k oldfd newfd :
  settled s → is_table s k →
  ∃ r s', sys_dup2 k oldfd newfd s = Ret (r, s') ∧ settled s' ∧ open_files s' = open_files s ∧
    ((r = -1 ∧ errno s' = EBADF ∧ ((∀ p, slot s k oldfd p → p = 0) ∨ ¬ 0 ≤ newfd < 64)) ∨
     (r = newfd ∧ ∃ p, p ≠ 0 ∧ slot s k oldfd p ∧ slot s' k newfd p ∧ ∀ fd q, fd ≠ newfd → slot s k fd q → slot s' k fd q)).
Proof.
  intros Hs Hk. destruct (current_file_spec _ _ _ oldfd Hs Hk) as (p & E & Hp & Hu). unfold sys_dup2. rewrite (bind_Ret _ _ _ _ _ E).
  destruct (Z.eqb_spec p 0) as [->|Hp0].
  { eexists _, _. split; [done|]. split_and!; [by eapply settled_frame | done |]. left. split_and!; [done..|by left]. }
  destruct Hp as [|Hsl]; [done|]. destruct ((newfd <? 0) || (64 <=? newfd)) eqn:Hb.
  { eexists _, _. split; [done|]. split_and!; [by eapply settled_frame | done |]. left. split_and!; [done..|]. right. zbool. }
  assert (0 ≤ newfd < 64) as Hn by zbool. destruct (Z.eqb_spec oldfd newfd) as [->|Hne].
  { eexists _, _. split; [done|]. split_and!; [done..|]. right. split; [done|]. by exists p. }
  destruct (clear_slot_spec s k newfd Hs) as (s1 & E1 & Hs1 & Eo1 & (Hk0 & _ & t1 & Ht1 & Hz) & Hkeep); [by destruct Hsl as (_ & _ & t & -> & _) | apply Hsl | done |].
  apply bind_Ret_inv in E1 as (old & s0 & E0 & E1). rewrite (bind_Ret _ _ _ _ _ E0), (bind_Ret _ _ _ _ _ E1).
  pose proof (Hkeep _ _ Hne Hsl) as Hsl1.
  destruct (current_file_spec _ _ k oldfd Hs1 (or_intror (ex_intro _ _ Ht1))) as (p' & E2 & _ & Hu1). rewrite <- (Hu1 _ Hsl1) in E2. rewrite (bind_Ret _ _ _ _ _ E2).
  destruct (slot_live _ _ _ _ Hs1 Hsl1 Hp0) as (f & Hf & _).
  destruct (get_put_slot_spec s1 k newfd p t1 Hs1 Ht1 Hn Hz Hp0 ltac:(eauto)) as (s2 & f2 & E3 & Hs2 & Eo2 & _ & _ & Et2).
  apply bind_Ret_inv in E3 as (q & s3 & E3 & E4). rewrite (bind_Ret _ _ _ _ _ E3), (bind_Ret _ _ _ _ _ E4).
  eexists _, s2. split; [done|]. split_and!; [done | congruence |]. right. split; [done|]. exists p. split_and!; [done | done | |].
  - split_and!; [done | lia | lia |]. rewrite Et2, lookup_insert_eq. eexists. split; [done|]. cbn. apply list_lookup_insert_eq. by eapply lookup_lt_Some.
  - intros fd x Hfdn Hx. apply Hkeep in Hx; [|done]. destruct Hx as (_ & Hfd & t & Ht & Hx). simplify_eq.
    split_and!; [done | lia | lia |]. rewrite Et2, lookup_insert_eq. eexists. split; [done|]. cbn. rewrite list_lookup_insert_ne by lia. done.
Qed.

(** ** Closing everything *)

Lemma destroy_step_spec s k t i :
  settled s → k ≠ 0 → tables s !! k = Some t → 0 ≤ i < 64 →
  ∃ s' n, destroy_step k i s = Ret (tt, s') ∧ settled s' ∧ open_files s' = open_files s ∧
    tables s' = <[k := {| fds := <[Z.to_nat i := 0]> (fds t); fd_count := n |}]> (tables s).
Proof.
  intros Hs Hk Ht Hi. unfold destroy_step. rewrite (bind_Ret _ _ _ _ _ (the_table_Ret _ _ _ Ht)).
  destruct (aget_Some (fds t) i) as [p Hp]; [rewrite (cnt_tables _ _ Hs k t Ht); lia|]. rewrite Hp, bind_deref.
  apply aget_lookup in Hp; [|lia]. destruct (Z.eqb_spec p 0) as [->|Hp0].
  - exists s, (fd_count t). split_and!; [done..|]. rewrite (list_insert_id _ _ _ Hp). symmetry. apply insert_id. by destruct t.
  - destruct (put_clear_spec s k i p (λ n, n) Hs) as (s' & E & Hs' & Eo & _ & (t' & f & Ht' & _ & Et & _)); [by split_and!; [| lia | lia | exists t] | done |].
    simplify_eq. by eexists s', _.
Qed.

Lemma fd_table_destroy_spec s k :
  settled s → is_table s k →
  ∃ s', fd_table_destroy k s = Ret (tt, s') ∧ settled s' ∧ open_files s' = open_files s ∧
    tables s' = if k =? 0 then tables s else delete k (tables s).
Proof.
  intros Hs Hk. unfold fd_table_destroy. destruct (Z.eqb_spec k 0) as [->|Hk0]; [by exists s|].
  destruct Hk as [|[t0 Ht0]]; [done|].
  destruct (for_up_inv (λ j st, settled st ∧ open_files st = open_files s ∧ ∃ t, tables st = <[k := t]> (tables s) ∧
    ∀ i, (i < Z.to_nat j)%nat → fds t !! i = Some 0) (destroy_step k) (Z.to_nat 64) 0 s) as (s1 & E & Hs1 & Eo & t & Et & Hz).
  - split_and!; [done..|]. exists t0. split; [by rewrite insert_id | intros; lia].
  - intros j st Hj (Hst & Eo & t & Et & Hz). assert (tables st !! k = Some t) as Ht by (rewrite Et; apply lookup_insert_eq).
    destruct (destroy_step_spec st k t j Hst Hk0 Ht ltac:(lia)) as (st' & n & E & Hst' & Eo' & Et'). exists st'.
    split_and!; [done | done | congruence |]. eexists. split; [rewrite Et', Et, insert_insert_eq; done|]. cbn. intros i Hi.
    pose proof (cnt_tables _ _ Hst _ _ Ht). destruct (decide (i = Z.to_nat j)) as [->|]; [apply list_lookup_insert_eq; lia|].
    rewrite list_lookup_insert_ne by done. apply Hz. lia.
  - rewrite (bind_Ret _ _ _ _ _ E). assert (tables s1 !! k = Some t) as Ht by (rewrite Et; apply lookup_insert_eq).
    eexists. split; [done|]. split_and!; [|done|cbn; by rewrite Et, delete_insert_eq].
    apply (counted_drop_table _ _ _ _ Hs1 Ht). intros x [i Hi]%list_elem_of_lookup.
    pose proof (lookup_lt_Some _ _ _ Hi). pose proof (cnt_tables _ _ Hs1 _ _ Ht). rewrite Hz in Hi by lia. by simplify_eq.
Qed.

Lemma fd_table_create_spec s mem :
  settled s → mem = 0 ∨ tables s !! mem = None → Z.of_nat (size (tables s)) + 1 < 2 ^ 24 →
  safe (fd_table_create mem) s.
Proof.
  intros Hs Hm Hsz. unfold fd_table_create. destruct (Z.eqb_spec mem 0); [by apply safe_ret|]. destruct Hm as [|Hm]; [done|].
  eexists _, _. split; [done|]. split; [|done]. apply counted_new_table; [done..| |done]. intros x [-> _]%elem_of_replicate. done.
Qed.

(** ** Opening *)

(** A lookup may allocate an inode; what it finds, if anything, is an inode in use or
    a new one. *)
Record finds (look : M vfs Z) (s s1 : vfs) (n : Z) : Prop := {
  fd_run : look s = Ret (n, s1);
  fd_filps : filps s1 = filps s;
  fd_quiet : quiet s s1;
  fd_inodes : inodes s ⊆ inodes s1;
  fd_found : n = 0 ∨ ∃ i, inodes s1 !! n = Some i ∧ 0 ≤ i_ref_count i < 2 ^ 32 - 1;
}.

Lemma settled_found look s s1 n : settled s → finds look s s1 n → settled s1.
Proof.
  intros Hs [_ Ef (Et & Eo & _) Hi _]. destruct Hs as [H1 H2 H3 H4 H5]. split; unfold held, refs; rewrite ?Ef, ?Et, ?Eo; try done.
  intros p k r Hp. destruct (H2 p k r Hp) as (Hk & i & Hk' & Hle). split; [done|]. exists i. split; [|done]. by eapply lookup_weaken.
Qed.

Lemma counted_new_file s s' p n i f :
  settled s → p ≠ 0 → n ≠ 0 → filps s !! p = None → inodes s !! n = Some i → 0 ≤ i_ref_count i → f_inode f = n → f_ref_count f = 1 →
  filps s' = <[p := f]> (filps s) → inodes s' = <[n := with_i_ref (i_ref_count i + 1) i]> (inodes s) → quiet s s' →
  counted (λ q, one q p) s'.
Proof.
  intros Hs Hp Hn Hfp Hi Hr Hfi Hfr Ef Ei (Et & Eo & _).
  assert (held s' = <[p := (n, 1)]> (held s)) as Eh by (unfold held; by rewrite Ef, fmap_insert, Hfi, Hfr).
  assert (held s !! p = None) as Hh by (unfold held; by rewrite lookup_fmap, Hfp).
  split.
  - intros q Hq. pose proof (cnt_files _ _ Hs q Hq) as H. rewrite Eh. unfold refs in *. rewrite Et, Eo. unfold one.
    destruct (decide (q = p)) as [->|Hqp]; [rewrite Hh in H; rewrite lookup_insert_eq; lia|].
    rewrite lookup_insert_ne by done. case_match; [case_match|]; lia.
  - rewrite Eh, Ei. by apply inodes_ok_add; [.. | exact (cnt_inodes _ _ Hs)].
  - rewrite Et. exact (cnt_tables _ _ Hs).
  - rewrite Eo. exact (cnt_open _ _ Hs).
  - rewrite Et. exact (cnt_size _ _ Hs).
Qed.

(** Freeing a file without giving back its inode. *)
Lemma counted_forget c s p n :
  counted c s → p ≠ 0 → held s !! p = Some (n, 1) → counted (λ q, c q - one q p) (with_filps (delete p (filps s)) s).
Proof.
  intros Hs Hp Hh. assert (held (with_filps (delete p (filps s)) s) = delete p (held s)) as Eh by (unfold held; cbn; by rewrite fmap_delete).
  split.
  - intros q Hq. pose proof (cnt_files _ _ Hs q Hq) as H. rewrite Eh. unfold refs in *. cbn. unfold one.
    destruct (decide (q = p)) as [->|Hqp]; [rewrite Hh in H; rewrite lookup_delete_eq; lia|].
    rewrite lookup_delete_ne by done. case_match; [case_match|]; lia.
  - rewrite Eh. intros q k r [Hpq Hq]%lookup_delete_Some. destruct (cnt_inodes _ _ Hs q k r Hq) as (Hk & i & Hi & Hle).
    split; [done|]. exists i. split; [done|]. rewrite (msum_delete _ _ _ _ Hh). pose proof (of_inode_nonneg k _ _ _ Hh). lia.
  - exact (cnt_tables _ _ Hs).
  - exact (cnt_open _ _ Hs).
  - exact (cnt_size _ _ Hs).
Qed.

(** The file that opening the inode [n] makes. *)
Definition opened (s s1 s' : vfs) (n fmem flags : Z) : Prop :=
  n ≠ 0 ∧ fmem ≠ 0 ∧ ∃ i f, inodes s1 !! n = Some i ∧ inodes s' = <[n := with_i_ref (i_ref_count i + 1) i]> (inodes s1) ∧
    filps s' !! fmem = Some f ∧ shape f = (n, i_f_op i, u32 flags, 1) ∧ held s' = <[fmem := (n, 1)]> (held s).

Lemma open_call_spec (s : vfs) p n o :
  is_Some (filps s !! p) →
  ∃ r s', match (if o =? 0 then None else op_open o) with Some op => op n p | None => mret 0 end s = Ret (r, s') ∧ same_refs s s'.
Proof.
  intros Hp. destruct (o =? 0); [by exists 0, s|]. destruct (op_open o) as [op|] eqn:Ho; [|by exists 0, s].
  by apply (op_open_frame o).
Qed.

Definition new_file (n flags : Z) (i : vfs_inode) : vfs_file :=
  {| f_inode := n; f_op := i_f_op i; f_flags := u32 flags; f_pos := 0; f_ref_count := 1; f_private_data := i_private_data i |}.

Lemma make_file_spec s n i fmem flags :
  settled s → n ≠ 0 → inodes s !! n = Some i → 0 ≤ i_ref_count i < 2 ^ 32 - 1 → fmem ≠ 0 → filps s !! fmem = None →
  ∃ r s4, (_ ← set_file fmem (new_file n flags i); _ ← inode_get n;
      match (if i_f_op i =? 0 then None else op_open (i_f_op i)) with Some op => op n fmem | None => mret 0 end) s = Ret (r, s4) ∧
    counted (λ q, one q fmem) s4 ∧ quiet s s4 ∧ inodes s4 = <[n := with_i_ref (i_ref_count i + 1) i]> (inodes s) ∧
    held s4 = <[fmem := (n, 1)]> (held s) ∧ ∃ f, filps s4 !! fmem = Some f ∧ shape f = (n, i_f_op i, u32 flags, 1).
Proof.
  intros Hs Hn0 Hi Hir Hm0 Hm. unfold set_file. rewrite bind_modify. set (s2 := with_filps _ s).
  assert (inode_get n s2 = Ret (n, with_inodes (<[n := with_i_ref (i_ref_count i + 1) i]> (inodes s)) s2)) as Eg.
  { unfold inode_get. rewrite (proj2 (Z.eqb_neq n 0)) by done. rewrite (bind_Ret _ _ _ _ _ (the_inode_Ret s2 _ _ Hi)), u32_small by lia. done. }
  rewrite (bind_Ret _ _ _ _ _ Eg). set (s3 := with_inodes _ s2).
  assert (counted (λ q, one q fmem) s3) as Hs3 by (apply (counted_new_file s s3 fmem n i (new_file n flags i)); done || lia).
  assert (held s3 = <[fmem := (n, 1)]> (held s)) as Eh3 by (unfold held; cbn; by rewrite fmap_insert).
  destruct (open_call_spec s3 fmem n (i_f_op i)) as (r & s4 & E4 & Hs4); [cbn; rewrite lookup_insert_eq; eauto|].
  pose proof (same_refs_file _ _ fmem _ Hs4 (lookup_insert_eq _ _ _)) as (f & Hf & Hsh).
  destruct Hs4 as (Ei4 & Et4 & Eo4 & Ed4 & Esh). apply held_shape in Esh.
  pose proof (counted_frame _ _ s4 Hs3 Esh Ei4 Et4 Eo4) as Hs4. exists r, s4. split_and!; [done..| congruence |]. by exists f.
Qed.

Lemma vfs_open_spec look s s1 n fmem flags :
  settled s → finds look s s1 n → fmem = 0 ∨ filps s !! fmem = None →
  ∃ fd s', vfs_open look fmem flags s = Ret (fd, s') ∧ settled s' ∧ tables s' = tables s ∧ device_list s' = device_list s ∧
    ((fd < 0 ∧ open_files s' = open_files s ∧ held s' = held s) ∨
     (∃ i, free_slot (open_files s) = Some i ∧ fd = Z.of_nat i ∧ open_files s' = <[i := fmem]> (open_files s) ∧ opened s s1 s' n fmem flags)).
Proof.
  intros Hs Hl Hm. pose proof (settled_found _ _ _ _ Hs Hl) as Hs1. destruct Hl as [El Ef (Et & Eo & Ed) Hsub Hn].
  assert (held s1 = held s) as Eh1 by (unfold held; by rewrite Ef). unfold vfs_open. rewrite (bind_Ret _ _ _ _ _ El).
  destruct (Z.eqb_spec n 0) as [->|Hn0]; [eexists _, _; split; [done|]; split_and!; [done..|]; by left|].
  destruct Hn as [|(i & Hi & Hir)]; [done|]. rewrite (bind_Ret _ _ _ _ _ (the_inode_Ret _ _ _ Hi)).
  destruct (Z.eqb_spec fmem 0) as [->|Hm0]; [eexists _, _; split; [done|]; split_and!; [done..|]; by left|].
  destruct Hm as [|Hm]; [done|]. rewrite <- Ef in Hm.
  destruct (make_file_spec s1 n i fmem flags Hs1 Hn0 Hi Hir Hm0 Hm) as (r & s4 & E & Hs4 & (Et4 & Eo4 & Ed4) & Ei4 & Eh4 & f & Hf & Hsh).
  apply bind_Ret_inv in E as ([] & s2 & E2 & E). rewrite (bind_Ret _ _ _ _ _ E2).
  apply bind_Ret_inv in E as (n' & s3 & E3 & E). rewrite (bind_Ret _ _ _ _ _ E3), (bind_Ret _ _ _ _ _ E).
  assert (∀ s5, same_refs s4 s5 → ∃ s', (_ ← free_file fmem; mret tt) s5 = Ret (tt, s') ∧ s' = with_filps (delete fmem (filps s5)) s5 ∧
    settled s' ∧ tables s' = tables s ∧ device_list s' = device_list s ∧ open_files s' = open_files s ∧ held s' = held s) as Hfail.
  { intros s5 (Ei5 & Et5 & Eo5 & Ed5 & Esh). apply held_shape in Esh. eexists. split; [done|]. split; [done|].
    pose proof (counted_frame _ _ s5 Hs4 Esh Ei5 Et5 Eo5) as Hs5. split_and!; [|cbn; congruence..|].
    - eapply counted_ext; [eapply (counted_forget _ s5 fmem n); [done.. | by rewrite Esh, Eh4, lookup_insert_eq]|]. credits.
    - unfold held. cbn. rewrite fmap_delete. fold (held s5). rewrite Esh, Eh4, Eh1. apply delete_insert_id.
      change (held s !! fmem = None). rewrite <- Eh1. unfold held. by rewrite lookup_fmap, Hm. }
  destruct (Z.ltb_spec r 0); [|rewrite bind_get].
  { destruct (Hfail s4 ltac:(done)) as (s' & E' & -> & H'). destruct H' as (H1 & H2 & H3 & H4 & H5). unfold free_file. rewrite bind_modify.
    eexists _, _. split; [done|]. split_and!; [done..|]. by left. }
  rewrite Eo4, Eo. destruct (free_slot (open_files s)) as [k|] eqn:Hk.
  - rewrite bind_modify. eexists _, _. split; [done|]. pose proof (free_slot_Some _ _ Hk) as [Hk0 _]. split_and!; [| cbn; congruence.. |].
    + rewrite <- Eo, <- Eo4. eapply counted_ext; [apply (counted_open_slot _ s4 k 0 fmem Hs4); by rewrite Eo4, Eo|]. credits.
    + right. exists k. split_and!; [done..|]. split_and!; [done..|]. exists i, f. rewrite <- Eh1. by split_and!.
  - destruct (release_spec s4 fmem f Hf) as (s5 & E5 & Hs5). rewrite (bind_Ret _ _ _ _ _ E5).
    destruct (Hfail s5 Hs5) as (s' & E' & -> & H1 & H2 & H3 & H4 & H5). unfold free_file. rewrite bind_modify.
    eexists _, _. split; [done|]. split_and!; [done..|]. by left.
Qed.

Lemma vfs_close_spec c s fd p f :
  counted c s → 0 ≤ fd < 64 → open_files s !! Z.to_nat fd = Some p → p ≠ 0 → filps s !! p = Some f →
  ∃ s', vfs_close fd s = Ret (0, s') ∧ counted c s' ∧ tables s' = tables s ∧ device_list s' = device_list s ∧
    open_files s' = <[Z.to_nat fd := 0]> (open_files s) ∧
    dropped s s' p f.
Proof.
  intros Hs Hfd Hp Hp0 Hf. unfold vfs_close. rewrite (proj2 (Z.ltb_ge fd 0)), (proj2 (Z.leb_gt _ fd)) by lia. cbn [orb].
  rewrite bind_get. unfold aget. rewrite (proj2 (Z.leb_le 0 fd)), Hp by lia. rewrite bind_deref.
  rewrite (proj2 (Z.eqb_neq p 0)), bind_modify by done. pose proof (counted_open_slot _ _ _ _ 0 Hs Hp) as Hs1.
  destruct (file_put_spec _ _ _ _ Hs1 Hp0 Hf) as (s2 & E & Hs2 & (Et & Eo & Ed) & Eh). rewrite (bind_Ret _ _ _ _ _ E).
  exists s2. split_and!; [done | | done..]. eapply counted_ext; [exact Hs2|]. credits.
Qed.

Lemma vfs_close_safe s fd : settled s → ∃ r s', vfs_close fd s = Ret (r, s') ∧ settled s' ∧ tables s' = tables s.
Proof.
  intros Hs. destruct (decide (0 ≤ fd < 64)) as [Hfd|Hfd].
  - destruct (lookup_lt_is_Some_2 (open_files s) (Z.to_nat fd)) as [p Hp]; [pose proof (cnt_open _ _ Hs); lia|].
    destruct (decide (p = 0)) as [->|Hp0].
    + unfold vfs_close. rewrite (proj2 (Z.ltb_ge fd 0)), (proj2 (Z.leb_gt _ fd)) by lia. cbn [orb].
      rewrite bind_get. unfold aget. rewrite (proj2 (Z.leb_le 0 fd)), Hp by lia. rewrite bind_deref. by eexists _, s.
    + destruct (counted_live _ _ p Hs Hp0) as (f & Hf & _).
      { unfold refs. pose proof (occ_lookup _ _ _ Hp). pose proof (msum_nonneg (λ t, occ p (fds t)) (tables s) ltac:(intros; apply occ_bounds)). lia. }
      destruct (vfs_close_spec _ _ _ _ _ Hs Hfd Hp Hp0 Hf) as (s' & E & Hs' & Et & _). by exists 0, s'.
  - exists (- EBADF), s. split; [|done]. unfold vfs_close. destruct (Z.ltb_spec fd 0); [done|]. by rewrite (proj2 (Z.leb_le 64 fd)) by lia.
Qed.

Lemma vfs_open_file_spec look s s1 n fmem flags :
  settled s → finds look s s1 n → fmem = 0 ∨ filps s !! fmem = None →
  ∃ p s', vfs_open_file look fmem flags s = Ret (p, s') ∧ quiet s s' ∧
    ((p = 0 ∧ settled s' ∧ held s' = held s) ∨ (p = fmem ∧ counted (λ q, one q fmem) s' ∧ opened s s1 s' n fmem flags)).
Proof.
  intros Hs Hl Hm. destruct (vfs_open_spec look s s1 n fmem flags Hs Hl Hm) as (fd & s2 & E & Hs2 & Et & Ed & Hcase).
  unfold vfs_open_file. rewrite (bind_Ret _ _ _ _ _ E). destruct Hcase as [(Hneg & Eo & Eh)|(k & Hk & -> & Eo & Hop)].
  { rewrite (proj2 (Z.ltb_lt fd 0)) by done. eexists _, _. split; [done|]. split; [done|]. by left. }
  rewrite (proj2 (Z.ltb_ge _ 0)) by lia. pose proof (free_slot_Some _ _ Hk) as [Hk0 _].
  pose proof (lookup_lt_Some _ _ _ Hk0). pose proof (cnt_open _ _ Hs). destruct Hop as (Hn & Hm0 & i & f & Hi & Ei & Hf & Hsh & Eh).
  assert (open_files s2 !! k = Some fmem) as Hk2 by (rewrite Eo; apply list_lookup_insert_eq; lia).
  assert (vfs_state_get_file (Z.of_nat k) s2 = Ret (fmem, s2)) as Eg.
  { unfold vfs_state_get_file. rewrite (proj2 (Z.ltb_ge _ 0)), (proj2 (Z.leb_gt _ _)) by lia. cbn [orb]. rewrite bind_get.
    unfold aget. rewrite (proj2 (Z.leb_le 0 _)), Nat2Z.id, Hk2 by lia. done. }
  rewrite (bind_Ret _ _ _ _ _ Eg), (proj2 (Z.eqb_neq fmem 0)) by done.
  destruct (file_get_spec _ _ _ _ Hs2 Hm0 Hf ltac:(lia)) as (s3 & E3 & Hs3 & (Et3 & Eo3 & Ed3) & Ei3 & Ef3). rewrite (bind_Ret _ _ _ _ _ E3).
  injection Hsh as Hfi Hfo Hfl Hfr.
  assert (filps s3 !! fmem = Some (with_f_ref 2 f)) as Hf3 by (by rewrite Ef3, lookup_insert_eq, Hfr).
  rewrite <- Eo3 in Hk2. rewrite <- (Nat2Z.id k) in Hk2.
  destruct (vfs_close_spec _ _ (Z.of_nat k) _ _ Hs3 ltac:(lia) Hk2 Hm0 Hf3) as (s4 & E4 & Hs4 & Et4 & Ed4 & Eo4 & Hd). rewrite (bind_Ret _ _ _ _ _ E4).
  exists fmem, s4. split; [done|]. split.
  { split_and!; [congruence | | congruence]. rewrite Eo4, Eo3, Eo, Nat2Z.id, list_insert_insert_eq. by apply list_insert_id. }
  right. split_and!; [done | eapply counted_ext; [exact Hs4 | credits] |]. unfold dropped in Hd. cbn in Hd. destruct Hd as [Ef4 Ei4].
  split_and!; [done..|]. exists i, (with_f_ref 1 f). split_and!; [done | congruence | by rewrite Ef4, lookup_insert_eq | |].
  - unfold shape. cbn. by rewrite Hfi, Hfo, Hfl.
  - unfold held. rewrite Ef4, Ef3, insert_insert_eq, fmap_insert. fold (held s2). rewrite Eh, insert_insert_eq. cbn. by rewrite Hfi.
Qed.

Lemma sys_open_spec path_len look s s1 n fmem k flags :
  settled s → finds look s s1 n → fmem = 0 ∨ filps s !! fmem = None → is_table s k →
  ∃ r s', sys_open path_len look fmem k flags s = Ret (r, s') ∧ settled s' ∧ open_files s' = open_files s ∧ device_list s' = device_list s ∧
    ((r < 0 ∧ held s' = held s ∧ tables s' = tables s) ∨
     (∃ t i, tables s !! k = Some t ∧ free_slot (fds t) = Some i ∧ r = Z.of_nat i ∧ opened s s1 s' n fmem flags ∧
       tables s' = <[k := {| fds := <[i := fmem]> (fds t); fd_count := u32 (fd_count t + 1) |}]> (tables s))).
Proof.
  intros Hs Hl Hm Hk. unfold sys_open. destruct (4096 <=? path_len); [by eexists _, s; split; [done|]; split_and!; [..|left]|].
  destruct (Z.eqb_spec k 0) as [->|Hk0]; [by eexists _, s; split; [done|]; split_and!; [..|left]|]. destruct Hk as [|[t Ht]]; [done|].
  destruct (vfs_open_file_spec look s s1 n fmem flags Hs Hl Hm) as (p & s2 & E & (Et & Eo & Ed) & Hcase). rewrite (bind_Ret _ _ _ _ _ E).
  destruct Hcase as [(-> & Hs2 & Eh)|(-> & Hs2 & Hop)]; [by eexists _, s2; split; [done|]; split_and!; [..|left]|].
  pose proof Hop as (Hn & Hm0 & i & f & Hi & Ei & Hf & Hsh & Eh). rewrite (proj2 (Z.eqb_neq fmem 0)) by done.
  assert (tables s2 !! k = Some t) as Ht2 by (by rewrite Et).
  destruct (fd_table_alloc_spec _ _ _ _ fmem Hs2 Hk0 Hm0 Ht2) as (fd & s3 & E3 & H3). rewrite (bind_Ret _ _ _ _ _ E3).
  destruct (free_slot (fds t)) as [j|] eqn:Hj; [destruct H3 as (-> & -> & Hs3)|destruct H3 as (-> & ->)].
  - rewrite (proj2 (Z.ltb_ge _ 0)) by lia. eexists _, _. split; [done|]. split_and!; [eapply counted_ext; [exact Hs3 | credits] | done..|].
    right. exists t, j. split_and!; [done..|]. cbn. by rewrite Et.
  - cbn [Z.ltb Z.compare]. destruct (file_put_spec _ _ _ _ Hs2 Hm0 Hf) as (s4 & E4 & Hs4 & (Et4 & Eo4 & Ed4) & Hd). rewrite (bind_Ret _ _ _ _ _ E4).
    eexists _, _. split; [done|]. split_and!; [eapply counted_ext; [exact Hs4 | credits] | congruence..|]. left. split_and!; [done | | congruence].
    apply dropped_held in Hd. injection Hsh as _ _ _ Hr. rewrite Hr in Hd. cbn in Hd. rewrite Hd, Eh. apply delete_insert_id.
    destruct Hm as [|Hm]; [done|]. unfold held. by rewrite lookup_fmap, Hm.
Qed.
End Counting.
