(* ===== verification/FilesProps.v ===== *)
(** * System calls on files

    What the calls of several processes do to the shared files, call by call and in
    any order, with the descriptors they return. *)

From S2P Require Import Prelude Bytes Errno Files FilesSpec.

#[local] Open Scope Z_scope.

Section Calls.
Context {ops : FileOps}.

(** ** The remaining calls *)

Lemma fcntl_safe s k fd cmd arg :
  settled s → is_table s k → cmd ≠ 0 ∨ 0 ≤ i32 arg → safe (sys_fcntl k fd cmd arg) s.
Proof.
  intros Hs Hk Harg. destruct (current_file_spec _ _ _ fd Hs Hk) as (p & E & Hp & _). unfold sys_fcntl.
  apply (safe_bind _ _ _ _ _ E); [done|]. destruct (Z.eqb_spec p 0) as [->|Hp0]; [by apply safe_errno|]. destruct Hp as [|Hsl]; [done|].
  destruct (slot_live _ _ _ _ Hs Hsl Hp0) as (f & Hf & _). destruct (Z.eqb_spec cmd 0) as [->|Hc].
  - destruct Harg as [|Harg]; [done|]. destruct Hsl as (Hk0 & Hfd & t & Ht & Hi). pose proof (cnt_tables _ _ Hs k t Ht) as Hlen.
    set (from := i32 arg) in *.
    assert (∀ j, from ≤ j < from + Z.of_nat (Z.to_nat (64 - from)) → ∃ x, fds t !! Z.to_nat j = Some x ∧
      dupfd_step k p j s = (if x =? 0 then _ ← file_get p; _ ← put_slot k j p; mret (Some j) else mret None) s) as Hstep.
    { intros j Hj. destruct (lookup_lt_is_Some_2 (fds t) (Z.to_nat j)) as [x Hx]; [lia|]. exists x. split; [done|]. unfold dupfd_step.
      rewrite (bind_Ret _ _ _ _ _ (the_table_Ret _ _ _ Ht)). unfold aget. rewrite (proj2 (Z.leb_le 0 j)), Hx by lia. done. }
    destruct (for_ret_first (λ j, default 1 (fds t !! Z.to_nat j) =? 0) (dupfd_step k p) (Z.to_nat (64 - from)) from s) as [(j & Hj & Hh & _ & Er)|[_ Er]].
    + intros j Hj Hh. destruct (Hstep j Hj) as (x & Hx & ->). rewrite Hx in Hh. cbn in Hh. by rewrite Hh.
    + intros j Hj Hh s'. destruct (Hstep j Hj) as (x & Hx & ->). rewrite Hx in Hh. cbn in Hh. rewrite Hh.
      intros (? & ? & _ & (? & ? & _ & [=])%bind_Ret_inv)%bind_Ret_inv.
    + destruct (Hstep j Hj) as (x & Hx & E'). rewrite Hx in Hh. cbn in Hh. rewrite Hh in E'. apply Z.eqb_eq in Hh as ->.
      destruct (get_put_slot_spec s k j p t Hs Ht ltac:(lia) Hx Hp0 ltac:(eauto)) as (s' & f' & E2 & Hs' & Eo & _).
      apply bind_Ret_inv in E2 as (q & s1 & E1 & E2). rewrite (bind_Ret _ _ _ _ _ E1), (bind_Ret _ _ _ _ _ E2) in E'.
      rewrite E' in Er. apply (safe_bind _ _ _ _ _ Er); [done|]. by apply safe_ret.
    + apply (safe_bind _ _ _ _ _ Er); [done|]. by apply safe_errno.
  - destruct ((cmd =? 1) || (cmd =? 2)); [by apply safe_ret|].
    destruct (cmd =? 3); [by apply (safe_bind _ _ _ _ _ (the_file_Ret _ _ _ Hf)); [|apply safe_ret]|].
    destruct (cmd =? 4); [|by apply safe_errno]. apply (safe_bind _ _ _ _ _ (the_file_Ret _ _ _ Hf)); [done|].
    eexists _, _. split; [done|]. split; [|done]. eapply settled_frame; [exact Hs | | done..].
    unfold held. cbn. rewrite fmap_insert. apply insert_id. by rewrite lookup_fmap, Hf.
Qed.

Lemma same_refs_settled s s' : settled s → same_refs s s' → settled s' ∧ open_files s' = open_files s.
Proof. intros Hs (Ei & Et & Eo & _ & Esh%held_shape). split; [by eapply settled_frame | done]. Qed.

Lemma file_read_safe s p buf count : settled s → p = 0 ∨ is_Some (filps s !! p) → safe (vfs_file_read p buf count) s.
Proof.
  intros Hs Hp. unfold vfs_file_read. destruct (Z.eqb_spec p 0); [by apply safe_ret|]. destruct buf; [|by apply safe_ret]. cbn [orb negb].
  destruct Hp as [|[f Hf]]; [done|]. apply (safe_bind _ _ _ _ _ (the_file_Ret _ _ _ Hf)); [done|]. case_match; [by apply safe_ret|].
  destruct (f_op f =? 0); [by apply safe_ret|]. destruct (op_read (f_op f)) as [op|] eqn:Ho; [|by apply safe_ret].
  destruct (op_read_frame _ _ p count s Ho ltac:(eauto)) as (r & s' & E & Hs'). exists r, s'. split; [done|]. by apply same_refs_settled.
Qed.

Lemma file_write_safe s p buf : settled s → p = 0 ∨ is_Some (filps s !! p) → safe (vfs_file_write p buf) s.
Proof.
  intros Hs Hp. unfold vfs_file_write. destruct buf as [b|]; [|by apply safe_ret]. destruct (Z.eqb_spec p 0); [by apply safe_ret|].
  destruct Hp as [|[f Hf]]; [done|]. apply (safe_bind _ _ _ _ _ (the_file_Ret _ _ _ Hf)); [done|]. case_match; [by apply safe_ret|].
  destruct (f_op f =? 0); [by apply safe_ret|]. destruct (op_write (f_op f)) as [op|] eqn:Ho; [|by apply safe_ret].
  destruct (op_write_frame _ _ p b s Ho ltac:(eauto)) as (r & s' & E & Hs'). exists r, s'. split; [done|]. by apply same_refs_settled.
Qed.

Lemma current_file_live s k fd :
  settled s → is_table s k → ∃ p, current_file k fd s = Ret (p, s) ∧ (p = 0 ∨ is_Some (filps s !! p)).
Proof.
  intros Hs Hk. destruct (current_file_spec _ _ _ fd Hs Hk) as (p & E & Hp & _). exists p. split; [done|].
  destruct Hp as [|Hsl]; [by left|]. destruct (decide (p = 0)); [by left|]. right. destruct (slot_live _ _ _ _ Hs Hsl) as (f & Hf & _); eauto.
Qed.

(** A descriptor of the global table. *)
Lemma open_file_live s fd :
  settled s → 0 ≤ fd < 64 → ∃ p, aget (open_files s) fd = Some p ∧ (p = 0 ∨ ∃ f i, filps s !! p = Some f ∧ inodes s !! f_inode f = Some i).
Proof.
  intros Hs Hfd. destruct (aget_Some (open_files s) fd) as [p Hp]; [rewrite (cnt_open _ _ Hs); lia|]. exists p. split; [done|].
  destruct (decide (p = 0)) as [|Hp0]; [by left|]. right. apply aget_lookup in Hp; [|lia]. destruct (counted_live _ _ p Hs Hp0) as (f & Hf & _).
  { unfold refs. pose proof (occ_lookup _ _ _ Hp). pose proof (msum_nonneg (λ t, occ p (fds t)) (tables s) ltac:(intros; apply occ_bounds)). lia. }
  assert (held s !! p = Some (f_inode f, f_ref_count f)) as Hh by (unfold held; by rewrite lookup_fmap, Hf).
  destruct (cnt_inodes _ _ Hs _ _ _ Hh) as (_ & i & Hi & _). by exists f, i.
Qed.

Lemma read_safe s k fd buf count : settled s → is_table s k → safe (sys_read k fd buf count) s.
Proof.
  intros Hs Hk. unfold sys_read. case_match; [by apply safe_ret|]. destruct (current_file_live s k fd Hs Hk) as (p & E & Hp).
  apply (safe_bind _ _ _ _ _ E); [done|]. case_match; [by apply safe_ret | by apply file_read_safe].
Qed.

Lemma write_safe s k fd buf : settled s → is_table s k → safe (sys_write k fd buf) s.
Proof.
  intros Hs Hk. unfold sys_write. destruct buf as [b|]; [|by apply safe_ret]. destruct (Z.ltb_spec fd 0); [by apply safe_ret|]. cbn [orb].
  case_match; [by apply safe_ret|]. destruct (Z.eqb_spec k 0) as [->|].
  - unfold vfs_write. rewrite (proj2 (Z.ltb_ge fd 0)) by done. cbn [orb]. destruct (Z.leb_spec 64 fd); [by apply safe_ret|].
    destruct (open_file_live s fd Hs) as (p & Hp & Hlive); [lia|].
    apply (safe_bind _ _ _ s s eq_refl); [done|]. rewrite Hp. apply (safe_bind _ _ _ _ _ (deref_Some _ _)); [done|].
    case_match; [by apply safe_ret | apply file_write_safe; [done|]]. destruct Hlive as [|(f & i & Hf & _)]; [by left | right; eauto].
  - destruct (current_file_live s k fd Hs Hk) as (p & E & Hp).
    apply (safe_bind _ _ _ _ _ E); [done|]. case_match; [by apply safe_ret | by apply file_write_safe].
Qed.

Lemma lseek_safe s fd offset whence : settled s → safe (sys_lseek fd offset whence) s.
Proof.
  intros Hs. unfold sys_lseek, vfs_lseek. destruct (Z.ltb_spec fd 0); [by apply safe_ret|]. cbn [orb]. destruct (Z.leb_spec 64 fd); [by apply safe_ret|].
  destruct (open_file_live s fd Hs) as (p & Hp & Hlive); [lia|]. apply (safe_bind _ _ _ s s eq_refl); [done|]. rewrite Hp.
  apply (safe_bind _ _ _ _ _ (deref_Some _ _)); [done|]. destruct (Z.eqb_spec p 0); [by apply safe_ret|].
  destruct Hlive as [|(f & i & Hf & Hi)]; [done|]. apply (safe_bind _ _ _ _ _ (the_file_Ret _ _ _ Hf)); [done|].
  assert (∃ o, (if whence =? 0 then mret (Some offset) else if whence =? 1 then mret (Some (i32 (f_pos f + offset)))
    else if whence =? 2 then if f_inode f =? 0 then mret None else i ← the_inode (f_inode f); mret (Some (i32 (i_size i + offset))) else mret None) s
    = Ret (o, s)) as [o Ho].
  { repeat (case_match; [by eexists|]). case_match; [|by eexists]. case_match; [by eexists|]. rewrite (bind_Ret _ _ _ _ _ (the_inode_Ret _ _ _ Hi)). by eexists. }
  apply (safe_bind _ _ _ _ _ Ho); [done|]. destruct o as [np|]; [|by apply safe_ret]. destruct (np <? 0); [by apply safe_ret|].
  eexists _, _. split; [done|]. split; [|done]. eapply settled_frame; [exact Hs | | done..].
  unfold held. cbn. rewrite fmap_insert. apply insert_id. by rewrite lookup_fmap, Hf.
Qed.

(** ** Sequences of calls

    [Open] to [Lseek] are the system calls, [NewTable] and [DestroyTable] make and release
    the table of a process, [VfsOpen] and [VfsClose] are the kernel's own use of files.
    Several processes may pass the same table, as a parent and its child do after
    [do_fork], which copies the pointer. *)
Inductive call :=
  | Open (path_len : Z) (look : M vfs Z) (fmem table flags : Z)
  | Close (table fd : Z)
  | Dup (table fd : Z)
  | Dup2 (table oldfd newfd : Z)
  | Fcntl (table fd cmd arg : Z)
  | ReadFile (table fd : Z) (buf : bool) (count : Z)
  | WriteFile (table fd : Z) (buf : option (list Z))
  | Lseek (fd offset whence : Z)
  | NewTable (mem : Z)
  | DestroyTable (table : Z)
  | VfsOpen (look : M vfs Z) (fmem flags : Z)
  | VfsClose (fd : Z).

Definition run (c : call) : M vfs Z :=
  match c with
  | Open path_len look fmem table flags => sys_open path_len look fmem table flags
  | Close table fd => sys_close table fd
  | Dup table fd => sys_dup table fd
  | Dup2 table oldfd newfd => sys_dup2 table oldfd newfd
  | Fcntl table fd cmd arg => sys_fcntl table fd cmd arg
  | ReadFile table fd buf count => r ← sys_read table fd buf count; mret r.1
  | WriteFile table fd buf => sys_write table fd buf
  | Lseek fd offset whence => sys_lseek fd offset whence
  | NewTable mem => fd_table_create mem
  | DestroyTable table => _ ← fd_table_destroy table; mret 0
  | VfsOpen look fmem flags => vfs_open look fmem flags
  | VfsClose fd => vfs_close fd
  end.

(** The path is one of a file on the disk, or of none: [vfs_lookup] makes a new inode for
    it, in memory that is free. *)
Definition disk_lookup (look : M vfs Z) (s : vfs) : Prop :=
  ∃ entry imem dmem fops, look = lookup_fat32 entry imem dmem fops ∧ (imem = 0 ∨ inodes s !! imem = None).

Lemma disk_lookup_finds look s : disk_lookup look s → ∃ s1 n, finds look s s1 n.
Proof.
  intros (entry & imem & dmem & fops & -> & Hm). unfold lookup_fat32. destruct entry as [[size data]|]; [|exists s, 0; split; [done..|by left]].
  destruct (Z.eqb_spec imem 0) as [->|Hi]; [exists s, 0; split; [done..|by left]|]. destruct Hm as [|Hm]; [done|].
  eexists _, (if dmem then imem else 0). split; [reflexivity | done | done | by apply insert_subseteq |].
  destruct dmem; [right|by left]. eexists. cbn. by rewrite lookup_insert_eq.
Qed.

(** A process passes an allocated table, [kmalloc] returns memory that is free, paths are
    those of the disk, and [F_DUPFD] is not given a negative number. *)
Definition allowed (c : call) (s : vfs) : Prop :=
  match c with
  | Open _ look fmem table _ => is_table s table ∧ (fmem = 0 ∨ filps s !! fmem = None) ∧ disk_lookup look s
  | Close table _ | Dup table _ | Dup2 table _ _ | ReadFile table _ _ _ | WriteFile table _ _ | DestroyTable table => is_table s table
  | Fcntl table _ cmd arg => is_table s table ∧ (cmd ≠ 0 ∨ 0 ≤ i32 arg)
  | Lseek _ _ _ | VfsClose _ => True
  | NewTable mem => (mem = 0 ∨ tables s !! mem = None) ∧ Z.of_nat (size (tables s)) + 1 < 2 ^ 24
  | VfsOpen look fmem _ => (fmem = 0 ∨ filps s !! fmem = None) ∧ disk_lookup look s
  end.

Inductive reach (P : call → Prop) (s : vfs) : vfs → Prop :=
  | reach_refl : reach P s s
  | reach_step s1 s2 c r : reach P s s1 → P c → allowed c s1 → run c s1 = Ret (r, s2) → reach P s s2.

(** The kernel's own calls change the global table, the others do not. *)
Definition syscall (c : call) : Prop := match c with VfsOpen _ _ _ | VfsClose _ => False | _ => True end.

Lemma call_safe c s :
  settled s → allowed c s → ∃ r s', run c s = Ret (r, s') ∧ settled s' ∧ (syscall c → open_files s' = open_files s).
Proof.
  intros Hs. assert (∀ m : M vfs Z, safe m s → ∃ r s', m s = Ret (r, s') ∧ settled s' ∧ (syscall c → open_files s' = open_files s)) as Hsafe.
  { intros m (r & s' & E & Hs' & Eo). by exists r, s'. }
  destruct c; cbn [run allowed].
  - intros (Hk & Hm & (s1 & n & Hl)%disk_lookup_finds). destruct (sys_open_spec path_len look s s1 n fmem table flags Hs Hl Hm Hk) as (r & s' & E & Hs' & Eo & _). by exists r, s'.
  - intros Hk. apply Hsafe. unfold sys_close. case_match; [by apply safe_ret|]. case_match; [by apply safe_ret|].
    destruct (fd_table_free_spec s table fd Hs Hk) as (r & s' & E & Hs' & Eo & _). by exists r, s'.
  - intros Hk. apply Hsafe. destruct (dup_spec s table fd Hs Hk) as (r & s' & E & Hs' & Eo & _). by exists r, s'.
  - intros Hk. apply Hsafe. destruct (dup2_spec s table oldfd newfd Hs Hk) as (r & s' & E & Hs' & Eo & _). by exists r, s'.
  - intros [Hk Harg]. by apply Hsafe, fcntl_safe.
  - intros Hk. apply Hsafe. destruct (read_safe s table fd buf count Hs Hk) as (r & s' & E & Hs' & Eo).
    apply (safe_bind _ _ _ _ _ E); [done|]. by apply safe_ret.
  - intros Hk. by apply Hsafe, write_safe.
  - intros _. by apply Hsafe, lseek_safe.
  - intros [Hm Hsz]. by apply Hsafe, fd_table_create_spec.
  - intros Hk. destruct (fd_table_destroy_spec s table Hs Hk) as (s' & E & Hs' & Eo & _). exists 0, s'. by rewrite (bind_Ret _ _ _ _ _ E).
  - intros (Hm & (s1 & n & Hl)%disk_lookup_finds). destruct (vfs_open_spec look s s1 n fmem flags Hs Hl Hm) as (r & s' & E & Hs' & _).
    exists r, s'. by split_and!; [..|intros []].
  - intros _. destruct (vfs_close_safe s fd Hs) as (r & s' & E & Hs' & _). exists r, s'. by split_and!; [..|intros []].
Qed.

Lemma reach_settled P s s' : settled s → reach P s s' → settled s'.
Proof.
  intros Hs. induction 1 as [|s1 s2 c r _ IH _ Ha E]; [done|]. destruct (call_safe c s1 IH Ha) as (r' & s2' & E' & Hs2 & _).
  rewrite E in E'. by injection E' as <- <-.
Qed.

(** C11: whatever sequence of calls the processes and the kernel make on files of the
    disk, for which every lookup makes an inode of its own, and on their tables, every
    next call returns, so that no file, inode or table is used after it is freed.  At
    any moment each open descriptor refers to an allocated file whose reference count
    is the number of slots that point to it, and whose inode is allocated; and a file
    no slot points to any more has been freed.  Three things are not among the calls
    because they break this: opening a device again after its last close (see
    [device_reopen_dangles]), [F_DUPFD] with a negative number, and [fd_table_copy],
    which nothing calls (see [fd_table_copy_dangles]). *)
Theorem files_never_dangle P s s' :
  settled s → reach P s s' →
  (∀ c, allowed c s' → ∃ r s'', run c s' = Ret (r, s'')) ∧
  (∀ k fd p, slot s' k fd p → p ≠ 0 →
     ∃ f i, filps s' !! p = Some f ∧ f_ref_count f = refs s' p ∧ inodes s' !! f_inode f = Some i) ∧
  (∀ p, p ≠ 0 → refs s' p = 0 → filps s' !! p = None).
Proof.
  intros Hs Hr. apply (reach_settled _ _ _ Hs) in Hr as Hs'. split_and!.
  - intros c Ha. destruct (call_safe c s' Hs' Ha) as (r & s'' & E & _). eauto.
  - intros k fd p Hsl Hp. destruct (slot_live _ _ _ _ Hs' Hsl Hp) as (f & Hf & Hr'). exists f.
    assert (held s' !! p = Some (f_inode f, f_ref_count f)) as Hh by (unfold held; by rewrite lookup_fmap, Hf).
    destruct (cnt_inodes _ _ Hs' _ _ _ Hh) as (_ & i & Hi & _). by exists i.
  - intros p Hp H0. pose proof (cnt_files _ _ Hs' p Hp) as H. unfold held in H. rewrite lookup_fmap in H.
    destruct (filps s' !! p); [cbn in H; lia | done].
Qed.

(** ** Opening and closing *)

Lemma slot_unique s k fd p q : slot s k fd p → slot s k fd q → p = q.
Proof. intros (_ & _ & t & Ht & Hp) (_ & _ & t' & Ht' & Hq). by simplify_eq. Qed.

Lemma sys_close_eq s k fd : k ≠ 0 → 0 ≤ fd → sys_close k fd s = fd_table_free k fd s.
Proof. intros Hk Hfd. unfold sys_close. by rewrite (proj2 (Z.ltb_ge fd 0)), (proj2 (Z.eqb_neq k 0)). Qed.

Lemma open_close_spec path_len look s s1 n i fmem k t flags r s2 :
  settled s → finds look s s1 n → inodes s1 !! n = Some i → fmem = 0 ∨ filps s !! fmem = None →
  k ≠ 0 → tables s !! k = Some t → 0 ≤ fd_count t < 2 ^ 32 →
  sys_open path_len look fmem k flags s = Ret (r, s2) → 0 ≤ r →
  slot s2 k r fmem ∧ open_files s2 = open_files s ∧ device_list s2 = device_list s ∧
  ∃ s3, sys_close k r s2 = Ret (0, s3) ∧ settled s3 ∧ held s3 = held s ∧ tables s3 = tables s ∧ open_files s3 = open_files s ∧
    device_list s3 = device_list s ∧ inodes s3 = if i_ref_count i =? 0 then delete n (inodes s1) else inodes s1.
Proof.
  intros Hs Hl Hi Hm Hk Ht Hcnt Eopen Hr.
  destruct (sys_open_spec path_len look s s1 n fmem k flags Hs Hl Hm (or_intror (ex_intro _ _ Ht))) as (r' & s2' & E & Hs2 & Eo & Ed & Hc).
  rewrite Eopen in E. injection E as <- <-. destruct Hc as [(? & _)|(t' & j & Ht' & Hj & -> & Hop & Et)]; [lia|]. simplify_eq.
  destruct Hop as (Hn & Hm0 & i' & f & Hi' & Ei & Hf & Hsh & Eh). simplify_eq. injection Hsh as Hfi _ _ Hfr.
  pose proof (free_slot_Some _ _ Hj) as [Hj0 _]. pose proof (lookup_lt_Some _ _ _ Hj0). pose proof (cnt_tables _ _ Hs _ _ Ht).
  assert (slot s2 k (Z.of_nat j) fmem) as Hsl.
  { split_and!; [done | lia | lia |]. rewrite Et, lookup_insert_eq. eexists. split; [done|]. cbn. rewrite Nat2Z.id. apply list_lookup_insert_eq. lia. }
  split_and!; [done..|]. rewrite sys_close_eq by done.
  destruct (fd_table_free_spec s2 k (Z.of_nat j) Hs2) as (r & s3 & E & Hs3 & Eo3 & Ed3 & Hc3); [right; rewrite Et, lookup_insert_eq; eauto|].
  destruct Hc3 as [(_ & _ & Hz)|(-> & p & Hp & Hslp & t2 & f2 & Ht2 & Hf2 & Et3 & Hd)]; [by specialize (Hz _ Hsl)|].
  rewrite (slot_unique _ _ _ _ _ Hslp Hsl) in *. rewrite Et, lookup_insert_eq in Ht2. simplify_eq. unfold dropped in Hd. rewrite Hfr in Hd.
  cbn in Hd. destruct Hd as (Eh3 & i2 & Hi2 & Ei3). rewrite Ei, lookup_insert_eq in Hi2. injection Hi2 as <-. cbn in Ei3.
  exists s3. split_and!; [done | done | | | congruence | congruence |].
  - rewrite Eh3, Eh. apply delete_insert_id. destruct Hm as [|Hm]; [done|]. unfold held. by rewrite lookup_fmap, Hm.
  - rewrite Et3, Et, insert_insert_eq. apply insert_id. rewrite Ht. f_equal. cbn. rewrite Nat2Z.id, list_insert_insert_eq, (list_insert_id _ _ _ Hj0).
    unfold u32. rewrite Zminus_mod_idemp_l. rewrite Z.mod_small by lia. destruct t as [l c]. cbn. f_equal. lia.
  - rewrite Ei3, Ei. replace (i_ref_count i + 1 - 1) with (i_ref_count i) by lia. destruct (i_ref_count i =? 0); [by rewrite delete_insert_eq|].
    rewrite insert_insert_eq. apply insert_id. rewrite Hi. by destruct i.
Qed.

(** C12: opening a file of the disk, for which the lookup makes a new inode, and closing
    the descriptor again leaves no file object, inode or descriptor behind: the open
    files, the inodes, the tables and the global table are what they were.  (The dentry
    of the lookup is not part of the model; nothing frees it.) *)
Theorem open_close_roundtrip path_len file_size fat_entry imem fops s fmem k t flags r s2 :
  settled s → imem ≠ 0 → inodes s !! imem = None →
  fmem = 0 ∨ filps s !! fmem = None → k ≠ 0 → tables s !! k = Some t → 0 ≤ fd_count t < 2 ^ 32 →
  sys_open path_len (lookup_fat32 (Some (file_size, fat_entry)) imem true fops) fmem k flags s = Ret (r, s2) → 0 ≤ r →
  slot s2 k r fmem ∧
  ∃ s3, sys_close k r s2 = Ret (0, s3) ∧ held s3 = held s ∧ inodes s3 = inodes s ∧ tables s3 = tables s ∧ open_files s3 = open_files s.
Proof.
  intros Hs Hi0 Hn Hm Hk Ht Hcnt E Hr. set (i := {| i_size := file_size; i_ref_count := 0; i_f_op := fops; i_private_data := fat_entry |}).
  assert (finds (lookup_fat32 (Some (file_size, fat_entry)) imem true fops) s (with_inodes (<[imem := i]> (inodes s)) s) imem) as Hl.
  { unfold lookup_fat32. rewrite (proj2 (Z.eqb_neq imem 0)) by done. split; [done | done | done | by apply insert_subseteq |].
    right. exists i. cbn. by rewrite lookup_insert_eq. }
  assert (inodes (with_inodes (<[imem := i]> (inodes s)) s) !! imem = Some i) as Hi by (cbn; apply lookup_insert_eq).
  destruct (open_close_spec _ _ _ _ _ _ _ _ _ _ _ _ Hs Hl Hi Hm Hk Ht Hcnt E Hr) as (Hsl & _ & _ & s3 & E3 & _ & Eh & Et & Eo & _ & Ei3).
  split; [done|]. exists s3. split_and!; [done..| |done|done]. rewrite Ei3. cbn. by apply delete_insert_id.
Qed.


(** ** Duplicates *)

(** C13: [dup] returns the lowest descriptor that is free, for the same file, and the file
    stays open when the old descriptor is closed.  When the table is full, [dup] fails
    with [EMFILE] and changes neither the files nor the table. *)
Theorem sys_dup_correct s k oldfd p t :
  settled s → slot s k oldfd p → p ≠ 0 → tables s !! k = Some t →
  match free_slot (fds t) with
  | None => ∃ s1, sys_dup k oldfd s = Ret (-1, s1) ∧ errno s1 = EMFILE ∧ tables s1 = tables s ∧ held s1 = held s
  | Some i =>
      (∀ j x, (j < i)%nat → fds t !! j = Some x → x ≠ 0) ∧
      ∃ s1 s2 f, sys_dup k oldfd s = Ret (Z.of_nat i, s1) ∧ slot s1 k oldfd p ∧ slot s1 k (Z.of_nat i) p ∧
        sys_close k oldfd s1 = Ret (0, s2) ∧ slot s2 k (Z.of_nat i) p ∧ filps s2 !! p = Some f ∧ f_ref_count f = refs s p
  end.
Proof.
  intros Hs Hsl Hp Ht. pose proof Hsl as (Hk & Hfd & t' & Ht' & Hold). simplify_eq.
  destruct (dup_spec s k oldfd Hs (or_intror (ex_intro _ _ Ht))) as (r & s1 & E & Hs1 & _ & [(_ & _ & Hz)|(p' & t' & f & Hsl' & _ & Ht' & Hf & Hc)]); [by specialize (Hz _ Hsl)|].
  rewrite (slot_unique _ _ _ _ _ Hsl' Hsl) in *. simplify_eq. destruct (free_slot (fds t)) as [i|] eqn:Hi; [|destruct Hc as (-> & ? & ? & ?); by exists s1].
  destruct Hc as (-> & Eh & Et). destruct (free_slot_Some _ _ Hi) as [Hi0 Hlow]. split; [done|].
  pose proof (lookup_lt_Some _ _ _ Hi0). pose proof (cnt_tables _ _ Hs _ _ Ht). destruct (slot_live _ _ _ _ Hs Hsl Hp) as (f' & Hf' & Hr). simplify_eq.
  assert (slot s1 k (Z.of_nat i) p) as Hsl1.
  { split_and!; [done | lia | lia |]. rewrite Et, lookup_insert_eq. eexists. split; [done|]. cbn. rewrite Nat2Z.id. apply list_lookup_insert_eq. lia. }
  assert (Z.to_nat oldfd ≠ i) as Hne by (intros <-; simplify_eq).
  assert (slot s1 k oldfd p) as Hsl1'.
  { split_and!; [done | lia | lia |]. rewrite Et, lookup_insert_eq. eexists. split; [done|]. cbn. by rewrite list_lookup_insert_ne. }
  destruct (fd_table_free_spec s1 k oldfd Hs1) as (r & s2 & E2 & Hs2 & _ & _ & Hc2); [right; rewrite Et, lookup_insert_eq; eauto|].
  destruct Hc2 as [(_ & _ & Hz)|(-> & q & _ & Hslq & t2 & f2 & Ht2 & Hf2 & Et2 & Hd)]; [by specialize (Hz _ Hsl1')|].
  rewrite (slot_unique _ _ _ _ _ Hslq Hsl1') in *.
  assert (held s1 !! p = Some (f_inode f2, f_ref_count f2)) as Hh by (unfold held; by rewrite lookup_fmap, Hf2).
  rewrite Eh, lookup_insert_eq in Hh. injection Hh as _ Hr2.
  destruct (counted_live _ _ p Hs Hp) as (f3 & Hf3 & _ & Hpos); [pose proof (refs_table _ _ _ _ _ Ht Hold); lia|]. simplify_eq.
  unfold dropped in Hd. rewrite (proj2 (Z.eqb_neq (f_ref_count f2) 1)) in Hd by lia. destruct Hd as [Ef2 _].
  exists s1, s2, (with_f_ref (f_ref_count f2 - 1) f2). rewrite sys_close_eq by lia. split_and!; [done..| | |cbn; lia].
  - split_and!; [done | lia | lia |]. rewrite Et2, lookup_insert_eq. eexists. split; [done|]. cbn. rewrite list_lookup_insert_ne by lia.
    destruct Hsl1 as (_ & _ & t1 & Ht1 & Hp1). by simplify_eq.
  - rewrite Ef2. apply lookup_insert_eq.
Qed.

(** [sys_lseek] never works for a descriptor of a process: it looks the number up in
    the kernel's global table, in which the system calls leave nothing, and so fails
    whatever the process has open. *)
Theorem sys_lseek_always_fails s s' fd offset whence :
  settled s → open_files s = replicate (Z.to_nat VFS_MAX_OPEN_FILES) 0 → reach syscall s s' →
  sys_lseek fd offset whence s' = Ret (if (fd <? 0) || (VFS_MAX_OPEN_FILES <=? fd) then - EINVAL else - EBADF, s').
Proof.
  intros Hs Ho Hr. assert (settled s' ∧ open_files s' = open_files s) as [_ Eo].
  { induction Hr as [|s1 s2 c r _ [IH Eo] Hc Ha E]; [done|]. destruct (call_safe c s1 IH Ha) as (r' & s2' & E' & Hs2 & Eo2).
    rewrite E in E'. injection E' as <- <-. split; [done|]. by rewrite Eo2. }
  unfold sys_lseek, vfs_lseek. destruct ((fd <? 0) || (64 <=? fd)) eqn:Hb; [done|]. rewrite bind_get, Eo, Ho. unfold aget.
  assert (0 ≤ fd < 64) as Hfd by zbool. rewrite (proj2 (Z.leb_le 0 fd)), lookup_replicate_2 by lia. done.
Qed.

(** ** Copying a table *)

Lemma counted_copy s k mem t :
  settled s → tables s !! k = Some t → tables s !! mem = None → Z.of_nat (size (tables s)) + 1 < 2 ^ 24 →
  counted (λ q, - occ q (fds t)) (with_tables (<[mem := {| fds := fds t; fd_count := fd_count t |}]> (tables s)) s).
Proof.
  intros Hs Ht Hm Hsz. split.
  - intros p Hp. pose proof (cnt_files _ _ Hs p Hp) as H. unfold held, refs in *. cbn.
    rewrite (msum_fresh _ _ _ _ Hm). cbn. case_match; [case_match|]; lia.
  - exact (cnt_inodes _ _ Hs).
  - cbn. intros k' t' [[-> <-]|[_ Ht']]%lookup_insert_Some; cbn; by eapply cnt_tables.
  - exact (cnt_open _ _ Hs).
  - cbn. rewrite map_size_insert_None by done. lia.
Qed.

Lemma current_file_run s k fd t p :
  k ≠ 0 → 0 ≤ fd < 64 → tables s !! k = Some t → fds t !! Z.to_nat fd = Some p → current_file k fd s = Ret (p, s).
Proof.
  intros Hk Hfd Ht Hp. unfold current_file. rewrite (proj2 (Z.eqb_neq k 0)), (proj2 (Z.ltb_ge fd 0)), (proj2 (Z.leb_gt _ fd)) by lia. cbn [orb].
  rewrite (bind_Ret _ _ _ _ _ (the_table_Ret _ _ _ Ht)). unfold aget. by rewrite (proj2 (Z.leb_le 0 fd)), Hp by lia.
Qed.

Lemma fd_table_free_run s k fd t p :
  k ≠ 0 → 0 ≤ fd < 64 → tables s !! k = Some t → fds t !! Z.to_nat fd = Some p → p ≠ 0 →
  fd_table_free k fd s = (_ ← file_put p; t ← the_table k;
    _ ← set_table k {| fds := <[Z.to_nat fd := 0]> (fds t); fd_count := u32 (fd_count t - 1) |}; mret 0) s.
Proof.
  intros Hk Hfd Ht Hp Hp0. unfold fd_table_free.
  rewrite (proj2 (Z.eqb_neq k 0)), (proj2 (Z.ltb_ge fd 0)), (proj2 (Z.leb_gt _ fd)) by lia. cbn [orb].
  rewrite (bind_Ret _ _ _ _ _ (the_table_Ret _ _ _ Ht)). unfold aget. rewrite (proj2 (Z.leb_le 0 fd)), Hp by lia.
  by rewrite bind_deref, (proj2 (Z.eqb_neq p 0)).
Qed.

(** [fd_table_copy], which is meant for fork and which nothing calls, makes descriptors
    dangle.  The copy takes no references, so when the only descriptor of a file is closed
    in the copy, the descriptor in the old table refers to a freed file: its next [read] or
    [close] is a use after free. *)
Theorem fd_table_copy_dangles s k fd p mem count :
  settled s → slot s k fd p → p ≠ 0 → refs s p = 1 → mem ≠ 0 → tables s !! mem = None →
  Z.of_nat (size (tables s)) + 1 < 2 ^ 24 → count ≠ 0 →
  ∃ s1 s2, fd_table_copy k mem s = Ret (mem, s1) ∧ sys_close mem fd s1 = Ret (0, s2) ∧
    slot s2 k fd p ∧ sys_read k fd true count s2 = Undef ∧ sys_close k fd s2 = Undef.
Proof.
  intros Hs Hsl Hp Hr Hm Hmt Hsz Hcnt. destruct (slot_live _ _ _ _ Hs Hsl Hp) as (f & Hf & Hfr). destruct Hsl as (Hk & Hfd & t & Ht & Hi).
  assert (k ≠ mem) as Hkm by congruence. pose proof (counted_copy s k mem t Hs Ht Hmt Hsz) as Hs1. set (s1 := with_tables _ s) in Hs1.
  assert (fd_table_copy k mem s = Ret (mem, s1)) as Ecopy.
  { unfold fd_table_copy, fd_table_create. rewrite (proj2 (Z.eqb_neq k 0)), (proj2 (Z.eqb_neq mem 0)) by done. unfold set_table.
    rewrite bind_assoc, bind_modify, bind_mret, (proj2 (Z.eqb_neq mem 0)) by done.
    erewrite bind_Ret; [|apply the_table_Ret; cbn; by rewrite lookup_insert_ne]. rewrite bind_modify, mret_eq. unfold s1, with_tables. cbn. by rewrite insert_insert_eq. }
  assert (tables s1 !! mem = Some {| fds := fds t; fd_count := fd_count t |}) as Htm by apply lookup_insert_eq.
  destruct (file_put_spec _ s1 p f Hs1 Hp Hf) as (s2 & E2 & Hs2 & (Et2 & _ & _) & Hd). unfold dropped in Hd. rewrite Hfr, Hr in Hd. cbn in Hd.
  destruct Hd as [Eh2 _]. assert (filps s2 !! p = None) as Hdead.
  { assert (held s2 !! p = None) as H by (rewrite Eh2; apply lookup_delete_eq). unfold held in H. rewrite lookup_fmap in H. by destruct (filps s2 !! p). }
  exists s1. eexists. split; [done|]. rewrite sys_close_eq, (fd_table_free_run _ _ _ _ _ Hm Hfd Htm Hi Hp) by lia.
  rewrite (bind_Ret _ _ _ _ _ E2). erewrite bind_Ret; [|apply the_table_Ret; by rewrite Et2]. unfold set_table. rewrite bind_modify. split; [done|].
  match goal with |- slot ?x _ _ _ ∧ _ => set (s3 := x) end.
  assert (tables s3 !! k = Some t) as Ht3 by (cbn; rewrite lookup_insert_ne by done; rewrite Et2; cbn; by rewrite lookup_insert_ne).
  assert (the_file p s3 = Undef) as Hundef by (unfold the_file; rewrite bind_get; cbn; by rewrite Hdead).
  split_and!; [by split_and!; [| lia | lia | exists t] | |].
  - unfold sys_read. rewrite (proj2 (Z.ltb_ge fd 0)), (proj2 (Z.eqb_neq count 0)) by lia. cbn [orb negb].
    rewrite (bind_Ret _ _ _ _ _ (current_file_run _ _ _ _ _ Hk Hfd Ht3 Hi)), (proj2 (Z.eqb_neq p 0)) by done.
    unfold vfs_file_read. rewrite (proj2 (Z.eqb_neq p 0)) by done. by apply bind_Undef.
  - rewrite sys_close_eq, (fd_table_free_run _ _ _ _ _ Hk Hfd Ht3 Hi Hp) by lia. apply bind_Undef. unfold file_put.
    rewrite (proj2 (Z.eqb_neq p 0)) by done. by apply bind_Undef.
Qed.
End Calls.

(** ** A small system

    One device, [null], whose inode is at 8, and one process, whose table is at 16. *)

Module Small.
#[local] Existing Instance device_ops.

Definition null : list Z := [110; 117; 108; 108].

Definition boot : vfs := {|
  inodes := {[ 8 := {| i_size := 0; i_ref_count := 0; i_f_op := dev_null_fops; i_private_data := 0 |} ]};
  filps := ∅;
  tables := {[ 16 := {| fds := replicate 64 0; fd_count := 0 |} ]};
  open_files := replicate 64 0;
  device_list := [(null, 8)];
  errno := 0;
  drv := ∅;
|}.

(** The process opens [/null], reading and writing. *)
Definition start : vfs := match sys_open 0 (devfs_lookup null true) 32 16 2 boot with Ret (_, s) => s | _ => boot end.

Lemma settled_boot : settled boot.
Proof.
  assert (settled (with_tables ∅ boot)) as H.
  { split; [|done..]. intros p Hp. unfold held, refs. cbn [filps tables open_files with_tables boot].
    rewrite lookup_fmap, lookup_empty. cbn [fmap option_fmap option_map]. unfold msum. rewrite map_fold_empty.
    rewrite occ_none; [done|]. intros x [-> _]%elem_of_replicate. done. }
  apply (counted_new_table _ _ 16 {| fds := replicate 64 0; fd_count := 0 |}) in H; [exact H | done | done | | done].
  intros x [-> _]%elem_of_replicate. done.
Qed.

Lemma finds_null : finds (devfs_lookup null true) boot boot 8.
Proof. split; [done..|]. right. eexists. by split_and!. Qed.

Lemma settled_start : settled start.
Proof.
  destruct (sys_open_spec 0 (devfs_lookup null true) boot boot 8 32 16 2 settled_boot finds_null) as (r & s' & E & Hs' & _).
  - by right.
  - right. by eexists.
  - unfold start. by rewrite E.
Qed.

Lemma slot_start : slot start 16 0 32.
Proof. split_and!; [done | done | done |]. eexists. by split; [vm_compute; reflexivity|]. Qed.

(** A file of the disk: the lookup makes its inode, at 24. *)
Definition lookup_file : M vfs Z := lookup_fat32 (Some (5, 56)) 24 true dev_zero_fops.

Definition with_file : vfs := match sys_open 0 lookup_file 32 16 0 boot with Ret (_, s) => s | _ => boot end.

Lemma disk_lookup_file s : inodes s !! 24 = None → disk_lookup lookup_file s.
Proof. intros H. eexists _, _, _, _. split; [reflexivity | by right]. Qed.
End Small.

Import Small.
#[local] Existing Instance device_ops.

Lemma files_never_dangle_witness :
  (∃ r s', run (ReadFile 16 0 true 4) with_file = Ret (r, s')) ∧
  ∃ f i, filps with_file !! 32 = Some f ∧ f_ref_count f = refs with_file 32 ∧ inodes with_file !! f_inode f = Some i.
Proof.
  destruct (files_never_dangle (λ _, True) boot with_file settled_boot) as (H & Hslot & _).
  - apply (reach_step _ _ boot _ (Open 0 lookup_file 32 16 0) 0); [constructor | done | | vm_compute; reflexivity].
    split_and!; [right; by eexists | by right | by apply disk_lookup_file].
  - split; [apply H; right; vm_compute; by eexists|]. apply (Hslot 16 0 32); [|done].
    split_and!; [done | done | done |]. eexists. by split; [vm_compute; reflexivity|].
Defined.

Lemma open_close_roundtrip_witness :
  sys_open 0 lookup_file 32 16 0 boot = Ret (0, with_file) ∧ ∃ s3, sys_close 16 0 with_file = Ret (0, s3) ∧ inodes s3 = inodes boot.
Proof.
  split; [vm_compute; reflexivity|].
  destruct (open_close_roundtrip 0 5 56 24 dev_zero_fops boot 32 16
    {| fds := replicate 64 0; fd_count := 0 |} 0 0 with_file settled_boot) as (_ & s3 & E & _ & Ei & _).
  - done.
  - reflexivity.
  - by right.
  - done.
  - reflexivity.
  - done.
  - vm_compute. reflexivity.
  - done.
  - by exists s3.
Defined.


Lemma sys_dup_correct_witness : ∃ s1, sys_dup 16 0 start = Ret (1, s1).
Proof.
  destruct (sys_dup_correct start 16 0 32 {| fds := 32 :: replicate 63 0; fd_count := 1 |} settled_start slot_start) as (_ & s1 & s2 & f & E & _).
  - done.
  - vm_compute. reflexivity.
  - exists s1. exact E.
Defined.

Lemma sys_lseek_always_fails_witness : sys_lseek 0 0 0 with_file = Ret (- EBADF, with_file).
Proof.
  rewrite (sys_lseek_always_fails boot with_file 0 0 0 settled_boot).
  - reflexivity.
  - reflexivity.
  - apply (reach_step _ _ boot _ (Open 0 lookup_file 32 16 0) 0); [constructor | done | | vm_compute; reflexivity].
    split_and!; [right; by eexists | by right | by apply disk_lookup_file].
Defined.

Lemma fd_table_copy_dangles_witness :
  ∃ s1 s2, fd_table_copy 16 48 start = Ret (48, s1) ∧ sys_close 48 0 s1 = Ret (0, s2) ∧ sys_read 16 0 true 4 s2 = Undef.
Proof.
  destruct (fd_table_copy_dangles start 16 0 32 48 4 settled_start slot_start) as (s1 & s2 & E1 & E2 & _ & E3 & _).
  - done.
  - vm_compute. reflexivity.
  - done.
  - vm_compute. reflexivity.
  - vm_compute. reflexivity.
  - done.
  - by exists s1, s2.
Defined.
