(* ===== verification/Pipe.v ===== *)
(** * Anonymous pipes (kernel/ipc/pipe.c, include/pipe.h)

    The ring buffer of a pipe, its read and write operations, and the life
    cycle of the pipe object.  The state is the store of live pipe objects (by
    address) and the [errno] of the current process.  [kmalloc]'s result is an
    argument of [pipe_create]; [kfree] removes the object from the store, so a
    later access to it is [Undef].  A caller's buffer is a list, [None] is the
    null pointer; a store beyond the buffer is [Undef]. *)

From S2P Require Import Prelude.

#[local] Open Scope Z_scope.

Abbreviation PIPE_BUF := 4096%Z (only parsing).
Definition EAGAIN : Z := 11.
Definition EINVAL : Z := 22.
Definition EPIPE : Z := 32.

Record pipe := {
  buffer : list Z;
  read_pos : Z;
  write_pos : Z;
  size : Z;
  readers : Z;
  writers : Z;
}.

Record pipe_st := { pipes : gmap Z pipe; errno : Z }.

Definition set_errno (e : Z) : M pipe_st Z :=
  _ ← modify (λ s, {| pipes := pipes s; errno := e |}); mret (-1).

Definition put_pipe (a : Z) (p : pipe) : M pipe_st unit :=
  modify (λ s, {| pipes := <[a := p]> (pipes s); errno := errno s |}).

Definition load_pipe (a : Z) : M pipe_st pipe :=
  s ← get; deref (pipes s !! a).

(** ** Life cycle *)

Definition new_pipe : pipe :=
  {| buffer := replicate (Z.to_nat PIPE_BUF) 0; read_pos := 0; write_pos := 0; size := 0;
     readers := 1; writers := 1 |}.

Definition pipe_create (kmalloc_ptr : Z) : M pipe_st Z :=
  if kmalloc_ptr =? 0 then mret 0
  else _ ← put_pipe kmalloc_ptr new_pipe; mret kmalloc_ptr.

Definition pipe_destroy (a : Z) : M pipe_st unit :=
  if a =? 0 then mret tt
  else
    _ ← load_pipe a;
    modify (λ s, {| pipes := delete a (pipes s); errno := errno s |}).

(** ** Reading and writing *)

Fixpoint pipe_read_loop (n : nat) (bytes_read : Z) (p : pipe) (buf : list Z)
  : option (pipe * list Z) :=
  match n with
  | O => Some (p, buf)
  | S n' =>
      c ← aget (buffer p) (read_pos p);
      buf' ← aset buf bytes_read c;
      pipe_read_loop n' (bytes_read + 1)
        {| buffer := buffer p; read_pos := u32 (read_pos p + 1) mod PIPE_BUF;
           write_pos := write_pos p; size := u32 (size p - 1);
           readers := readers p; writers := writers p |} buf'
  end.

Definition pipe_read (a : Z) (buf : option (list Z)) (count : Z)
  : M pipe_st (Z * option (list Z)) :=
  match buf with
  | Some b =>
      if a =? 0 then r ← set_errno EINVAL; mret (r, buf)
      else
        p ← load_pipe a;
        if (size p =? 0) && (writers p =? 0) then mret (0, buf)
        else if size p =? 0 then r ← set_errno EAGAIN; mret (r, buf)
        else
          let to_read := if count <? size p then count else size p in
          res ← deref (pipe_read_loop (Z.to_nat to_read) 0 p b);
          _ ← put_pipe a res.1;
          mret (to_read, Some res.2)
  | None => r ← set_errno EINVAL; mret (r, buf)
  end.

Fixpoint pipe_write_loop (n : nat) (bytes_written : Z) (p : pipe) (buf : list Z) : option pipe :=
  match n with
  | O => Some p
  | S n' =>
      c ← aget buf bytes_written;
      b ← aset (buffer p) (write_pos p) c;
      pipe_write_loop n' (bytes_written + 1)
        {| buffer := b; read_pos := read_pos p;
           write_pos := u32 (write_pos p + 1) mod PIPE_BUF; size := u32 (size p + 1);
           readers := readers p; writers := writers p |} buf
  end.

Definition pipe_write (a : Z) (buf : option (list Z)) (count : Z) : M pipe_st Z :=
  match buf with
  | Some b =>
      if a =? 0 then set_errno EINVAL
      else
        p ← load_pipe a;
        if readers p =? 0 then set_errno EPIPE
        else if PIPE_BUF <=? size p then set_errno EAGAIN
        else
          let space := u32 (PIPE_BUF - size p) in
          let to_write := if count <? space then count else space in
          p' ← deref (pipe_write_loop (Z.to_nat to_write) 0 p b);
          _ ← put_pipe a p';
          mret to_write
  | None => set_errno EINVAL
  end.

(** ** Closing *)

Definition with_ends (r w : Z) (p : pipe) : pipe :=
  {| buffer := buffer p; read_pos := read_pos p; write_pos := write_pos p;
     size := size p; readers := r; writers := w |}.

Definition pipe_close_read (a : Z) : M pipe_st unit :=
  if a =? 0 then mret tt
  else
    p ← load_pipe a;
    let p := if 0 <? readers p then with_ends (readers p - 1) (writers p) p else p in
    _ ← put_pipe a p;
    if (readers p =? 0) && (writers p =? 0) then pipe_destroy a else mret tt.

Definition pipe_close_write (a : Z) : M pipe_st unit :=
  if a =? 0 then mret tt
  else
    p ← load_pipe a;
    let p := if 0 <? writers p then with_ends (readers p) (writers p - 1) p else p in
    _ ← put_pipe a p;
    if (readers p =? 0) && (writers p =? 0) then pipe_destroy a else mret tt.

(** ** The pipe as a queue of bytes *)

Record pipe_wf (p : pipe) : Prop := {
  pw_len : length (buffer p) = Z.to_nat PIPE_BUF;
  pw_read : 0 ≤ read_pos p < PIPE_BUF;
  pw_size : 0 ≤ size p ≤ PIPE_BUF;
  pw_write : write_pos p = (read_pos p + size p) mod PIPE_BUF;
}.

Definition contents (p : pipe) : list Z :=
  (λ k, buffer p !!! Z.to_nat ((read_pos p + k) mod PIPE_BUF)) <$> seqZ 0 (size p).

Lemma length_contents p : length (contents p) = Z.to_nat (size p).
Proof. unfold contents. by rewrite length_fmap, length_seqZ. Qed.

Definition advance (p : pipe) : pipe :=
  {| buffer := buffer p; read_pos := u32 (read_pos p + 1) mod PIPE_BUF;
     write_pos := write_pos p; size := u32 (size p - 1);
     readers := readers p; writers := writers p |}.

Definition append (c : Z) (p : pipe) : pipe :=
  {| buffer := <[Z.to_nat (write_pos p) := c]> (buffer p); read_pos := read_pos p;
     write_pos := u32 (write_pos p + 1) mod PIPE_BUF; size := u32 (size p + 1);
     readers := readers p; writers := writers p |}.

Lemma advance_spec p :
  pipe_wf p → 0 < size p →
  pipe_wf (advance p) ∧
  aget (buffer p) (read_pos p) = Some (buffer p !!! Z.to_nat (read_pos p)) ∧
  contents p = (buffer p !!! Z.to_nat (read_pos p)) :: contents (advance p).
Proof.
  intros [Hl Hr Hs Hw] Hpos. split_and!.
  - split; simpl; rewrite ?u32_small by lia; try done; try dlia.
  - unfold aget. rewrite (proj2 (Z.leb_le _ _)) by lia.
    apply list_lookup_lookup_total_lt. lia.
  - unfold contents. simpl. rewrite !u32_small by lia.
    replace (size p) with (Z.succ (size p - 1)) at 1 by lia. rewrite seqZ_cons by lia.
    rewrite fmap_cons. f_equal.
    + do 2 f_equal. dlia.
    + change (Z.succ 0) with (1 + 0). rewrite <- (fmap_add_seqZ 1). rewrite <- list_fmap_compose.
      replace (Z.pred (Z.succ (size p - 1))) with (size p - 1) by lia.
      apply list_fmap_ext. intros _ k _. simpl. do 2 f_equal.
      rewrite Z.add_mod_idemp_l by done. f_equal. lia.
Qed.

Lemma append_spec c p :
  pipe_wf p → size p < PIPE_BUF →
  pipe_wf (append c p) ∧
  aset (buffer p) (write_pos p) c = Some (buffer (append c p)) ∧
  contents (append c p) = contents p ++ [c].
Proof.
  intros [Hl Hr Hs Hw] Hsp. split_and!.
  - split; simpl; rewrite ?u32_small by dlia; try done; try dlia.
    by rewrite length_insert.
  - apply aset_Some. rewrite Hl. dlia.
  - unfold contents. simpl. rewrite (u32_small (size p + 1)) by lia.
    rewrite seqZ_app by lia. rewrite fmap_app. f_equal.
    + apply list_fmap_ext. intros i k Hk%lookup_seqZ.
      rewrite list_lookup_total_insert_ne; [done|]. rewrite Hw. dlia.
    + rewrite Z.add_0_l, seqZ_cons, seqZ_nil by lia. cbn [fmap list_fmap].
      rewrite <- Hw, list_lookup_total_insert_eq; [done|]. rewrite Hl, Hw. dlia.
Qed.

(** ** The two loops *)

Lemma pipe_read_loop_spec n : ∀ k p buf,
  pipe_wf p → Z.of_nat n ≤ size p → 0 ≤ k → k + Z.of_nat n ≤ Z.of_nat (length buf) →
  ∃ p', pipe_read_loop n k p buf =
          Some (p', take (Z.to_nat k) buf ++ take n (contents p) ++ drop (Z.to_nat k + n) buf) ∧
        pipe_wf p' ∧ contents p' = drop n (contents p) ∧
        readers p' = readers p ∧ writers p' = writers p.
Proof.
  induction n as [|n IH]; intros k p buf Hwf Hn Hk Hlen.
  - exists p. split_and!; try done. cbn [pipe_read_loop]. do 2 f_equal.
    rewrite take_0, app_nil_l, Nat.add_0_r. by rewrite take_drop.
  - destruct (advance_spec p Hwf ltac:(lia)) as (Hwf' & Hget & Hcont).
    cbn [pipe_read_loop]. rewrite Hget. cbn [mbind option_bind].
    set (c := buffer p !!! _) in *.
    rewrite aset_Some by lia. cbn [mbind option_bind]. fold (advance p).
    destruct (IH (k + 1) (advance p) (<[Z.to_nat k := c]> buf)) as (p' & E & Hwf'' & Hc & Hrw);
      try done; try lia.
    { simpl. destruct Hwf as [_ _ Hs _]. rewrite u32_small by lia. lia. }
    { rewrite length_insert. lia. }
    exists p'. rewrite Hcont. split_and!; try apply Hrw; try done. rewrite E. do 2 f_equal.
    rewrite drop_insert_lt by lia.
    replace (Z.to_nat (k + 1)) with (S (Z.to_nat k)) by lia.
    rewrite (take_S_r _ _ c) by (apply list_lookup_insert_eq; lia).
    rewrite take_insert_ge by lia. cbn [take app].
    rewrite <- app_assoc. do 3 f_equal. by rewrite Nat.add_succ_r.
Qed.

Lemma pipe_write_loop_spec n : ∀ k p buf,
  pipe_wf p → size p + Z.of_nat n ≤ PIPE_BUF → 0 ≤ k → k + Z.of_nat n ≤ Z.of_nat (length buf) →
  ∃ p', pipe_write_loop n k p buf = Some p' ∧ pipe_wf p' ∧
        contents p' = contents p ++ take n (drop (Z.to_nat k) buf) ∧
        readers p' = readers p ∧ writers p' = writers p.
Proof.
  induction n as [|n IH]; intros k p buf Hwf Hn Hk Hlen.
  - exists p. split_and!; try done. by rewrite take_0, app_nil_r.
  - destruct (lookup_lt_is_Some_2 buf (Z.to_nat k)) as [c Hc]; [lia|].
    destruct (append_spec c p Hwf ltac:(lia)) as (Hwf' & Hset & Hcont).
    cbn [pipe_write_loop].
    assert (aget buf k = Some c) as ->.
    { unfold aget. by rewrite (proj2 (Z.leb_le _ _)) by lia. }
    cbn [mbind option_bind]. rewrite Hset. cbn [mbind option_bind]. fold (append c p).
    destruct (IH (k + 1) (append c p) buf) as (p' & E & Hwf'' & Hc' & Hrw); try done; try lia.
    { simpl. destruct Hwf as [_ _ Hs _]. rewrite u32_small by lia. lia. }
    exists p'. split_and!; try apply Hrw; try done.
    rewrite Hc', Hcont, <- app_assoc.
    rewrite (drop_S buf c (Z.to_nat k)) by done.
    by replace (Z.to_nat (k + 1)) with (S (Z.to_nat k)) by lia.
Qed.

(** ** The operations on every branch *)

Definition at_pipe (s : pipe_st) (a : Z) (p : pipe) : Prop :=
  a ≠ 0 ∧ pipes s !! a = Some p ∧ pipe_wf p.

Lemma load_pipe_live s a p : at_pipe s a p → load_pipe a s = Ret (p, s).
Proof. intros (_ & H & _). unfold load_pipe, get, mbind, M_bind. by rewrite H. Qed.

(** What a read of [n] bytes returns, as a function of the queued bytes. *)
Lemma pipe_read_data s a p b count :
  at_pipe s a p → 0 < size p → 0 ≤ count →
  Z.min count (size p) ≤ Z.of_nat (length b) →
  let n := Z.to_nat (Z.min count (size p)) in
  ∃ p', pipe_read a (Some b) count s =
          Ret ((Z.of_nat n, Some (take n (contents p) ++ drop n b)),
               {| pipes := <[a := p']> (pipes s); errno := errno s |}) ∧
        pipe_wf p' ∧ contents p' = drop n (contents p) ∧
        readers p' = readers p ∧ writers p' = writers p.
Proof.
  intros Hp Hs Hc Hb. pose proof Hp as (Ha & Hlk & Hwf). unfold pipe_read.
  rewrite (proj2 (Z.eqb_neq a 0)) by done.
  rewrite (bind_Ret _ _ _ _ _ (load_pipe_live s a p Hp)).
  rewrite (proj2 (Z.eqb_neq (size p) 0)) by lia. cbn [andb].
  replace (if count <? size p then count else size p) with (Z.min count (size p)) by zbool.
  set (m := Z.min count (size p)) in *.
  destruct (pipe_read_loop_spec (Z.to_nat m) 0 p b Hwf) as (p' & E & Hrest); try lia.
  exists p'. split; [|done]. rewrite E. rewrite bind_deref.
  cbn [fst snd Z.to_nat take app Nat.add]. unfold put_pipe, modify, mbind, M_bind.
  rewrite mret_eq. rewrite Z2Nat.id by lia. done.
Qed.

Lemma pipe_write_data s a p b count :
  at_pipe s a p → readers p ≠ 0 → size p < PIPE_BUF → 0 ≤ count →
  Z.min count (PIPE_BUF - size p) ≤ Z.of_nat (length b) →
  let n := Z.to_nat (Z.min count (PIPE_BUF - size p)) in
  ∃ p', pipe_write a (Some b) count s =
          Ret (Z.of_nat n, {| pipes := <[a := p']> (pipes s); errno := errno s |}) ∧
        pipe_wf p' ∧ contents p' = contents p ++ take n b ∧
        readers p' = readers p ∧ writers p' = writers p.
Proof.
  intros Hp Hr Hs Hc Hb. pose proof Hp as (Ha & Hlk & Hwf). unfold pipe_write.
  rewrite (proj2 (Z.eqb_neq a 0)) by done.
  rewrite (bind_Ret _ _ _ _ _ (load_pipe_live s a p Hp)).
  rewrite (proj2 (Z.eqb_neq (readers p) 0)), (proj2 (Z.leb_gt PIPE_BUF (size p))) by done.
  pose proof (pw_size p Hwf) as Hsz. rewrite (u32_small (PIPE_BUF - size p))
    by lia.
  replace (if count <? PIPE_BUF - size p then count else PIPE_BUF - size p)
    with (Z.min count (PIPE_BUF - size p)) by zbool.
  set (m := Z.min count (PIPE_BUF - size p)) in *.
  destruct (pipe_write_loop_spec (Z.to_nat m) 0 p b Hwf) as (p' & E & Hrest); try lia.
  exists p'. split; [|done]. cbv zeta. rewrite E. rewrite bind_deref.
  unfold put_pipe, modify, mbind, M_bind. rewrite mret_eq. rewrite Z2Nat.id by lia. done.
Qed.

(** [pipe_read] on every branch.  A null pipe or buffer is EINVAL; an empty
    pipe is end of file when no writer is left and EAGAIN otherwise; a
    non-empty pipe delivers the first [min count size] queued bytes to the
    front of the caller's buffer, leaves the rest of that buffer alone and
    removes exactly those bytes from the queue. *)
Theorem pipe_read_correct s a p b count :
  at_pipe s a p → 0 ≤ count → Z.min count (size p) ≤ Z.of_nat (length b) →
  pipe_read 0 (Some b) count s = Ret ((-1, Some b), {| pipes := pipes s; errno := EINVAL |}) ∧
  pipe_read a None count s = Ret ((-1, None), {| pipes := pipes s; errno := EINVAL |}) ∧
  if decide (contents p = []) then
    pipe_read a (Some b) count s =
      if writers p =? 0 then Ret ((0, Some b), s)
      else Ret ((-1, Some b), {| pipes := pipes s; errno := EAGAIN |})
  else
    let n := Z.to_nat (Z.min count (size p)) in
    ∃ p', pipe_read a (Some b) count s =
            Ret ((Z.of_nat n, Some (take n (contents p) ++ drop n b)),
                 {| pipes := <[a := p']> (pipes s); errno := errno s |}) ∧
          pipe_wf p' ∧ contents p' = drop n (contents p) ∧
          readers p' = readers p ∧ writers p' = writers p.
Proof.
  intros Hp Hc Hb. split_and!; [done | done |].
  pose proof (length_contents p) as Hlen. pose proof Hp as (Ha & _ & Hwf).
  pose proof (pw_size p Hwf). destruct (decide (contents p = [])) as [E|E].
  - rewrite E in Hlen. simpl in Hlen. assert (size p = 0) as Hs by lia.
    unfold pipe_read. rewrite (proj2 (Z.eqb_neq a 0)) by done.
    rewrite (bind_Ret _ _ _ _ _ (load_pipe_live s a p Hp)). rewrite Hs. cbn [Z.eqb andb].
    by destruct (writers p =? 0).
  - apply pipe_read_data; try done.
    destruct (decide (size p = 0)) as [Hz|]; [|lia].
    rewrite Hz in Hlen. by apply nil_length_inv in Hlen.
Qed.

(** [pipe_write] on every branch.  A null pipe or buffer is EINVAL, no
    reader is EPIPE, a full pipe is EAGAIN; otherwise the first
    [min count space] bytes of the buffer, and nothing else, are appended to
    the queue and their number is returned. *)
Theorem pipe_write_correct s a p b count :
  at_pipe s a p → 0 ≤ count → Z.min count (PIPE_BUF - size p) ≤ Z.of_nat (length b) →
  pipe_write 0 (Some b) count s = Ret (-1, {| pipes := pipes s; errno := EINVAL |}) ∧
  pipe_write a None count s = Ret (-1, {| pipes := pipes s; errno := EINVAL |}) ∧
  if readers p =? 0 then
    pipe_write a (Some b) count s = Ret (-1, {| pipes := pipes s; errno := EPIPE |})
  else if decide (length (contents p) = Z.to_nat PIPE_BUF) then
    pipe_write a (Some b) count s = Ret (-1, {| pipes := pipes s; errno := EAGAIN |})
  else
    let n := Z.to_nat (Z.min count (PIPE_BUF - size p)) in
    ∃ p', pipe_write a (Some b) count s =
            Ret (Z.of_nat n, {| pipes := <[a := p']> (pipes s); errno := errno s |}) ∧
          pipe_wf p' ∧ contents p' = contents p ++ take n b ∧
          readers p' = readers p ∧ writers p' = writers p.
Proof.
  intros Hp Hc Hb. split_and!; [done | done |].
  pose proof Hp as (Ha & _ & Hwf). pose proof (pw_size p Hwf). rewrite length_contents.
  destruct (Z.eqb_spec (readers p) 0) as [Hr|Hr].
  { unfold pipe_write. rewrite (proj2 (Z.eqb_neq a 0)) by done.
    rewrite (bind_Ret _ _ _ _ _ (load_pipe_live s a p Hp)). by rewrite Hr. }
  destruct (decide _) as [E|E].
  - unfold pipe_write. rewrite (proj2 (Z.eqb_neq a 0)) by done.
    rewrite (bind_Ret _ _ _ _ _ (load_pipe_live s a p Hp)).
    rewrite (proj2 (Z.eqb_neq (readers p) 0)) by done.
    by rewrite (proj2 (Z.leb_le PIPE_BUF (size p))) by lia.
  - apply pipe_write_data; try done. lia.
Qed.

(** ** Traces of reads and writes *)

Inductive io := IORead (buf : list Z) (count : Z) | IOWrite (data : list Z) (count : Z).

Definition io_ok (o : io) : Prop :=
  match o with IORead b n | IOWrite b n => 0 ≤ n ≤ Z.of_nat (length b) end.

(** Run a sequence of calls on one pipe, collecting the bytes the pipe
    accepted and the bytes it delivered. *)
Fixpoint io_run (a : Z) (ops : list io) : M pipe_st (list Z * list Z) :=
  match ops with
  | [] => mret ([], [])
  | IORead b n :: ops =>
      r ← pipe_read a (Some b) n;
      x ← io_run a ops;
      mret (x.1, take (Z.to_nat r.1) (default [] r.2) ++ x.2)
  | IOWrite b n :: ops =>
      r ← pipe_write a (Some b) n;
      x ← io_run a ops;
      mret (take (Z.to_nat r) b ++ x.1, x.2)
  end.

Lemma at_pipe_put s a p p' :
  at_pipe s a p → pipe_wf p' →
  at_pipe {| pipes := <[a := p']> (pipes s); errno := errno s |} a p'.
Proof. intros (Ha & _ & _) Hwf. split_and!; [done | simpl; apply lookup_insert_eq | done]. Qed.

Lemma pipe_read_step s a p b n :
  at_pipe s a p → 0 ≤ n ≤ Z.of_nat (length b) →
  ∃ r b' s' p', pipe_read a (Some b) n s = Ret ((r, Some b'), s') ∧ at_pipe s' a p' ∧
    contents p = take (Z.to_nat r) b' ++ contents p'.
Proof.
  intros Hp Hn. pose proof Hp as (Ha & Hlk & Hwf). pose proof (pw_size p Hwf).
  destruct (decide (size p = 0)) as [Hz|Hz].
  - unfold pipe_read. rewrite (proj2 (Z.eqb_neq a 0)) by done.
    rewrite (bind_Ret _ _ _ _ _ (load_pipe_live s a p Hp)). rewrite Hz. cbn [Z.eqb andb].
    destruct (writers p =? 0).
    + exists 0, b, s, p. done.
    + exists (-1), b, {| pipes := pipes s; errno := EAGAIN |}, p. done.
  - destruct (pipe_read_data s a p b n Hp ltac:(lia) ltac:(lia) ltac:(lia))
      as (p' & E & Hwf' & Hc & _).
    eexists _, _, _, p'. split; [exact E|]. split; [by eapply at_pipe_put|].
    rewrite Hc, Nat2Z.id. rewrite take_app_le
      by (rewrite length_take, length_contents; lia).
    rewrite take_take, Nat.min_id. symmetry. apply take_drop.
Qed.

Lemma pipe_write_step s a p b n :
  at_pipe s a p → 0 ≤ n ≤ Z.of_nat (length b) →
  ∃ r s' p', pipe_write a (Some b) n s = Ret (r, s') ∧ at_pipe s' a p' ∧
    contents p' = contents p ++ take (Z.to_nat r) b.
Proof.
  intros Hp Hn. pose proof Hp as (Ha & Hlk & Hwf).
  destruct (decide (readers p = 0)) as [Hr|Hr];
    [|destruct (decide (size p < PIPE_BUF)) as [Hs|Hs]].
  - exists (-1), {| pipes := pipes s; errno := EPIPE |}, p. unfold pipe_write.
    rewrite (proj2 (Z.eqb_neq a 0)) by done.
    rewrite (bind_Ret _ _ _ _ _ (load_pipe_live s a p Hp)). rewrite Hr, app_nil_r. done.
  - destruct (pipe_write_data s a p b n Hp Hr Hs ltac:(lia) ltac:(lia)) as (p' & E & Hwf' & Hc & _).
    eexists _, _, p'. split; [exact E|]. split; [by eapply at_pipe_put|].
    by rewrite Hc, Nat2Z.id.
  - exists (-1), {| pipes := pipes s; errno := EAGAIN |}, p. unfold pipe_write.
    rewrite (proj2 (Z.eqb_neq a 0)) by done.
    rewrite (bind_Ret _ _ _ _ _ (load_pipe_live s a p Hp)).
    rewrite (proj2 (Z.eqb_neq (readers p) 0)), (proj2 (Z.leb_le PIPE_BUF (size p))), app_nil_r by lia.
    done.
Qed.

(** C37: A pipe is a lossless FIFO.  For every sequence of reads and writes, with
    any counts that fit the callers' buffers, every call returns and the bytes
    delivered so far followed by the bytes still queued are the bytes queued
    at the start followed by the bytes accepted: nothing is lost, duplicated
    or reordered, across any number of wrap-arounds of the ring buffer. *)
Theorem pipe_fifo a ops s p :
  at_pipe s a p → Forall io_ok ops →
  ∃ accepted delivered s' p',
    io_run a ops s = Ret ((accepted, delivered), s') ∧ at_pipe s' a p' ∧
    contents p ++ accepted = delivered ++ contents p'.
Proof.
  revert s p. induction ops as [|[b n|b n] ops IH]; intros s p Hp Hok.
  - exists [], [], s, p. by rewrite app_nil_r.
  - apply Forall_cons in Hok as [Hn Hok]. cbn [io_run].
    destruct (pipe_read_step s a p b n Hp Hn) as (r & b' & s1 & p1 & E & Hp1 & Hc).
    destruct (IH s1 p1 Hp1 Hok) as (acc & del & s2 & p2 & E2 & Hp2 & Hf).
    eexists acc, _, s2, p2. split.
    + rewrite (bind_Ret _ _ _ _ _ E), (bind_Ret _ _ _ _ _ E2). apply mret_eq.
    + split; [done|]. simpl. by rewrite Hc, <- !app_assoc, Hf.
  - apply Forall_cons in Hok as [Hn Hok]. cbn [io_run].
    destruct (pipe_write_step s a p b n Hp Hn) as (r & s1 & p1 & E & Hp1 & Hc).
    destruct (IH s1 p1 Hp1 Hok) as (acc & del & s2 & p2 & E2 & Hp2 & Hf).
    eexists _, del, s2, p2. split.
    + rewrite (bind_Ret _ _ _ _ _ E), (bind_Ret _ _ _ _ _ E2). apply mret_eq.
    + split; [done|]. simpl. by rewrite app_assoc, <- Hc.
Qed.

(** ** Closing *)

Inductive pipe_end := ReadEnd | WriteEnd.

#[export] Instance pipe_end_eq_dec : EqDecision pipe_end.
Proof. solve_decision. Defined.

Fixpoint close_run (a : Z) (es : list pipe_end) : M pipe_st unit :=
  match es with
  | [] => mret tt
  | ReadEnd :: es => _ ← pipe_close_read a; close_run a es
  | WriteEnd :: es => _ ← pipe_close_write a; close_run a es
  end.

Definition ends_of (e : pipe_end) (es : list pipe_end) : Z :=
  Z.of_nat (length (filter (eq e) es)).

Lemma ends_of_nil es : ends_of ReadEnd es = 0 → ends_of WriteEnd es = 0 → es = [].
Proof.
  destruct es as [|[] es]; [done | |]; unfold ends_of; rewrite !filter_cons;
    repeat case_decide; simpl; lia || done.
Qed.

Lemma ends_of_cons e e' es :
  ends_of e (e' :: es) = (if decide (e = e') then 1 else 0) + ends_of e es.
Proof. unfold ends_of. rewrite filter_cons. case_decide; simpl; lia. Qed.

(** One close of an open end: the count goes down and the object is freed
    when both counts are zero. *)
Definition close_end (e : pipe_end) (a : Z) : M pipe_st unit :=
  match e with ReadEnd => pipe_close_read a | WriteEnd => pipe_close_write a end.

Definition drop_end (e : pipe_end) (p : pipe) : pipe :=
  match e with
  | ReadEnd => with_ends (readers p - 1) (writers p) p
  | WriteEnd => with_ends (readers p) (writers p - 1) p
  end.

Definition count_of (e : pipe_end) (p : pipe) : Z :=
  match e with ReadEnd => readers p | WriteEnd => writers p end.

Lemma close_end_step e a p s :
  a ≠ 0 → pipes s !! a = Some p → 0 < count_of e p →
  close_end e a s = Ret (tt, {| errno := errno s; pipes :=
    if (readers (drop_end e p) =? 0) && (writers (drop_end e p) =? 0) then delete a (pipes s)
    else <[a := drop_end e p]> (pipes s) |}).
Proof.
  intros Ha Hp Hc.
  assert (load_pipe a s = Ret (p, s)) as Hload
    by (unfold load_pipe, get, mbind, M_bind; by rewrite Hp).
  unfold close_end.
  destruct e; unfold pipe_close_read, pipe_close_write, pipe_destroy, count_of in *;
    rewrite (proj2 (Z.eqb_neq a 0)), (bind_Ret _ _ _ _ _ Hload) by done;
    rewrite (proj2 (Z.ltb_lt 0 _) Hc); cbv zeta; cbn [readers writers with_ends drop_end];
    unfold put_pipe, modify, load_pipe, get, mbind, M_bind; cbn [pipes errno];
    case_match; cbn [pipes errno]; rewrite ?lookup_insert_eq; try done;
    cbn; by rewrite delete_insert_eq.
Qed.

Lemma close_run_cons e es a s : close_run a (e :: es) s = (close_end e a ≫= λ _, close_run a es) s.
Proof. by destruct e. Qed.

(** Life cycle of a pipe.  Closing any of the open ends, in any order,
    never touches a dead object; the object is freed by the close that
    removes the last end of the last kind and stays allocated, with its
    queued bytes, before that. *)
Theorem pipe_close_lifecycle a p es s :
  a ≠ 0 → pipes s !! a = Some p → 0 < readers p + writers p →
  ends_of ReadEnd es ≤ readers p → ends_of WriteEnd es ≤ writers p →
  close_run a es s = Ret (tt, {| errno := errno s; pipes :=
    if decide (ends_of ReadEnd es = readers p ∧ ends_of WriteEnd es = writers p)
    then delete a (pipes s)
    else <[a := with_ends (readers p - ends_of ReadEnd es)
                          (writers p - ends_of WriteEnd es) p]> (pipes s) |}).
Proof.
  revert p s. induction es as [|e es IH]; intros p s Ha Hp Hrw Hr Hw.
  - rewrite decide_False by (unfold ends_of; simpl; lia). cbn [close_run]. rewrite mret_eq.
    unfold ends_of. simpl. rewrite !Z.sub_0_r. rewrite insert_id by (rewrite Hp; by destruct p).
    by destruct s.
  - assert (∀ f l, 0 ≤ ends_of f l) as Hnn by (unfold ends_of; lia).
    pose proof (Hnn ReadEnd es). pose proof (Hnn WriteEnd es).
    rewrite !ends_of_cons in *. rewrite close_run_cons.
    assert (0 < count_of e p) as Hc by (destruct e; simpl in *; lia).
    rewrite (bind_Ret _ _ _ _ _ (close_end_step e a p s Ha Hp Hc)).
    destruct ((readers (drop_end e p) =? 0) && (writers (drop_end e p) =? 0)) eqn:Hz.
    + apply andb_true_iff in Hz as [Hz1%Z.eqb_eq Hz2%Z.eqb_eq].
      assert (es = []) as -> by (apply ends_of_nil; destruct e; simpl in *; lia).
      rewrite decide_True by (destruct e; unfold ends_of in *; simpl in *; lia). done.
    + apply andb_false_iff in Hz as Hz. rewrite !Z.eqb_neq in Hz.
      rewrite (IH (drop_end e p)); cbn [pipes errno]; rewrite ?lookup_insert_eq;
        try done; try (destruct e; simpl in *; lia).
      do 3 f_equal. rewrite delete_insert_eq, insert_insert_eq.
      destruct e; simpl in *; repeat case_decide; try lia; try done; unfold with_ends; simpl;
        do 2 f_equal; lia.
Qed.

(** ** Instances *)

(** A pipe with three queued bytes whose ring buffer wraps after the first. *)
Definition demo_pipe : pipe :=
  {| buffer := [8; 9] ++ replicate 4093 0 ++ [7]; read_pos := 4095; write_pos := 2; size := 3;
     readers := 1; writers := 1 |}.

Definition demo_st : pipe_st := {| pipes := {[ 0x1000 := demo_pipe ]}; errno := 0 |}.

Lemma demo_at : at_pipe demo_st 0x1000 demo_pipe.
Proof. split_and!; [done | done |]. by split; vm_compute. Qed.

Lemma pipe_read_correct_witness :
  pipe_read 0 (Some [0; 0]) 2 demo_st =
    Ret ((-1, Some [0; 0]), {| pipes := pipes demo_st; errno := EINVAL |}) ∧
  pipe_read 0x1000 None 2 demo_st = Ret ((-1, None), {| pipes := pipes demo_st; errno := EINVAL |}) ∧
  if decide (contents demo_pipe = []) then
    pipe_read 0x1000 (Some [0; 0]) 2 demo_st =
      if writers demo_pipe =? 0 then Ret ((0, Some [0; 0]), demo_st)
      else Ret ((-1, Some [0; 0]), {| pipes := pipes demo_st; errno := EAGAIN |})
  else
    let n := Z.to_nat (Z.min 2 (size demo_pipe)) in
    ∃ p', pipe_read 0x1000 (Some [0; 0]) 2 demo_st =
            Ret ((Z.of_nat n, Some (take n (contents demo_pipe) ++ drop n [0; 0])),
                 {| pipes := <[0x1000 := p']> (pipes demo_st); errno := errno demo_st |}) ∧
          pipe_wf p' ∧ contents p' = drop n (contents demo_pipe) ∧
          readers p' = readers demo_pipe ∧ writers p' = writers demo_pipe.
Proof.
  apply (pipe_read_correct demo_st 0x1000 demo_pipe [0; 0] 2);
    [exact demo_at | lia | vm_compute; discriminate].
Defined.

Lemma pipe_write_correct_witness :
  pipe_write 0 (Some [4; 5]) 2 demo_st = Ret (-1, {| pipes := pipes demo_st; errno := EINVAL |}) ∧
  pipe_write 0x1000 None 2 demo_st = Ret (-1, {| pipes := pipes demo_st; errno := EINVAL |}) ∧
  if readers demo_pipe =? 0 then
    pipe_write 0x1000 (Some [4; 5]) 2 demo_st =
      Ret (-1, {| pipes := pipes demo_st; errno := EPIPE |})
  else if decide (length (contents demo_pipe) = Z.to_nat PIPE_BUF) then
    pipe_write 0x1000 (Some [4; 5]) 2 demo_st =
      Ret (-1, {| pipes := pipes demo_st; errno := EAGAIN |})
  else
    let n := Z.to_nat (Z.min 2 (PIPE_BUF - size demo_pipe)) in
    ∃ p', pipe_write 0x1000 (Some [4; 5]) 2 demo_st =
            Ret (Z.of_nat n, {| pipes := <[0x1000 := p']> (pipes demo_st); errno := errno demo_st |}) ∧
          pipe_wf p' ∧ contents p' = contents demo_pipe ++ take n [4; 5] ∧
          readers p' = readers demo_pipe ∧ writers p' = writers demo_pipe.
Proof.
  apply (pipe_write_correct demo_st 0x1000 demo_pipe [4; 5] 2);
    [exact demo_at | lia | vm_compute; discriminate].
Defined.

Lemma pipe_fifo_witness :
  ∃ accepted delivered s' p',
    io_run 0x1000 [IOWrite [1; 2] 2; IORead [0; 0; 0; 0] 4] demo_st =
      Ret ((accepted, delivered), s') ∧ at_pipe s' 0x1000 p' ∧
    contents demo_pipe ++ accepted = delivered ++ contents p'.
Proof.
  apply (pipe_fifo 0x1000 [IOWrite [1; 2] 2; IORead [0; 0; 0; 0] 4] demo_st demo_pipe);
    [exact demo_at | repeat constructor; simpl; lia].
Defined.

Lemma pipe_close_lifecycle_witness :
  close_run 0x1000 [WriteEnd; ReadEnd] demo_st =
  Ret (tt, {| errno := errno demo_st; pipes :=
    if decide (ends_of ReadEnd [WriteEnd; ReadEnd] = readers demo_pipe ∧
               ends_of WriteEnd [WriteEnd; ReadEnd] = writers demo_pipe)
    then delete 0x1000 (pipes demo_st)
    else <[0x1000 := with_ends (readers demo_pipe - ends_of ReadEnd [WriteEnd; ReadEnd])
            (writers demo_pipe - ends_of WriteEnd [WriteEnd; ReadEnd]) demo_pipe]> (pipes demo_st) |}).
Proof.
  apply (pipe_close_lifecycle 0x1000 demo_pipe [WriteEnd; ReadEnd] demo_st);
    [done | reflexivity | reflexivity | vm_compute; discriminate ..].
Defined.
