(* ===== verification/Kmalloc.v ===== *)
(** * Kernel heap (kernel/mm/kmalloc.c, include/mm/kmalloc.h)

    The first-fit allocator over a doubly linked list of blocks.  The block
    headers live in the memory they describe: the state holds the bytes of the
    heap window, and every header field is loaded from and stored to them.
    [sizeof(struct heap_block)] is 20, with the fields [magic], [size],
    [allocated], [next] and [prev] at offsets 0, 4, 8, 12 and 16.

    The heap grows page by page with frames from [pmm_alloc_frame] that
    [vmm_map_page] maps; it sees the two through the interface [PageSource].
    The list loops run with as much fuel as the heap has room for headers. *)

From S2P Require Import Prelude Mem Strings.

#[local] Open Scope Z_scope.

Definition HEAP_MAGIC : Z := 0x12345678.
Abbreviation HEAP_MIN_SIZE := 16%Z (only parsing).
Abbreviation HEAP_MAX_SIZE := (1024 * 1024)%Z (only parsing).
Definition PAGE_SIZE : Z := 4096.
Definition sizeof_heap_block : Z := 20.

(** [ALIGN_UP(addr, align)] for a power of two [align], on [uint32_t]. *)
Definition ALIGN_UP (addr align : Z) : Z :=
  Z.land (u32 (addr + align - 1)) (u32 (Z.lnot (align - 1))).

(** What the heap relies on: a source of frames and a way to map one.  Mapping
    may stop in [panic()] when no frame is left for a page table.  A mapped address
    stays mapped while the heap grows. *)
Class PageSource (P : Type) := {
  ps_ok : P → Prop;
  ps_virt : Z → Prop;       (* the pages that may be mapped *)
  ps_mapped : P → Z → Prop; (* the addresses that are mapped *)
  alloc_frame : M P Z;
  map_page : Z → Z → M P unit;
  alloc_frame_ok p :
    ps_ok p → ∃ a p', alloc_frame p = Ret (a, p') ∧ ps_ok p' ∧ 0 ≤ a < 2 ^ 32 ∧ ∀ w, ps_mapped p w → ps_mapped p' w;
  map_page_ok p v a :
    ps_ok p → ps_virt v → 0 ≤ a < 2 ^ 32 →
    map_page v a p = Panic ∨
    ∃ p', map_page v a p = Ret (tt, p') ∧ ps_ok p' ∧ ∀ w, ps_mapped p w ∨ w / PAGE_SIZE = v / PAGE_SIZE → ps_mapped p' w;
}.

Section Heap.
Context {P : Type} `{!PageSource P}.
(** The bytes of the physical frames at the time they are mapped. *)
Context (frame_byte : Z → Z).

Record heap := {
  hmem : mem;
  pages : P;
  heap_start : Z;
  heap_end : Z;
  heap_max : Z;
  heap_first : Z;
}.

Definition with_mem (m : mem) (s : heap) : heap :=
  {| hmem := m; pages := pages s; heap_start := heap_start s; heap_end := heap_end s;
     heap_max := heap_max s; heap_first := heap_first s |}.
Definition with_pages (p : P) (s : heap) : heap :=
  {| hmem := hmem s; pages := p; heap_start := heap_start s; heap_end := heap_end s;
     heap_max := heap_max s; heap_first := heap_first s |}.
Definition with_end (e : Z) (s : heap) : heap :=
  {| hmem := hmem s; pages := pages s; heap_start := heap_start s; heap_end := e;
     heap_max := heap_max s; heap_first := heap_first s |}.
Definition with_first (b : Z) (s : heap) : heap :=
  {| hmem := hmem s; pages := pages s; heap_start := heap_start s; heap_end := heap_end s;
     heap_max := heap_max s; heap_first := b |}.

Definition hm {A} (c : M mem A) : M heap A := zoom hmem with_mem c.
Definition hp {A} (c : M P A) : M heap A := zoom pages with_pages c.

(** Header fields. *)
Definition get_magic (b : Z) : M heap Z := hm (load32 b).
Definition get_size (b : Z) : M heap Z := hm (load32 (b + 4)).
Definition get_allocated (b : Z) : M heap bool :=
  v ← hm (load32 (b + 8)); mret (negb (v =? 0)).
Definition get_next (b : Z) : M heap Z := hm (load32 (b + 12)).
Definition get_prev (b : Z) : M heap Z := hm (load32 (b + 16)).
Definition set_magic (b v : Z) : M heap unit := hm (store32 b v).
Definition set_size (b v : Z) : M heap unit := hm (store32 (b + 4) v).
Definition set_allocated (b : Z) (v : bool) : M heap unit :=
  hm (store32 (b + 8) (if v then 1 else 0)).
Definition set_next (b v : Z) : M heap unit := hm (store32 (b + 12) v).
Definition set_prev (b v : Z) : M heap unit := hm (store32 (b + 16) v).

Definition list_fuel : M heap nat :=
  s ← get; mret (S (Z.to_nat ((heap_end s - heap_start s) / sizeof_heap_block))).

(** The bytes of the frame at [phys] appear at the page at [virt].  A mapping
    is always made for the whole page that contains the address. *)
Fixpoint add_page (n : nat) (virt phys : Z) (m : mem) : mem :=
  match n with
  | O => m
  | S n => <[virt + Z.of_nat n := u8 (frame_byte (phys + Z.of_nat n))]> (add_page n virt phys m)
  end.

(** ** Growing the heap *)

(** The page loop of [expand_heap]; [false]: out of physical memory. *)
Fixpoint expand_pages (n : nat) (i : Z) : M heap bool :=
  match n with
  | O => mret true
  | S n =>
      phys ← hp alloc_frame;
      if phys =? 0 then mret false
      else
        s ← get;
        let virt := u32 (heap_end s + i * PAGE_SIZE) in
        _ ← hp (map_page virt phys);
        _ ← modify (λ s, with_mem (add_page (Z.to_nat PAGE_SIZE) (virt / PAGE_SIZE * PAGE_SIZE)
                                     phys (hmem s)) s);
        expand_pages n (i + 1)
  end.

(** [while (last->next) last = last->next;] *)
Fixpoint last_block (fuel : nat) (last : Z) : M heap Z :=
  match fuel with
  | O => undef
  | S fuel =>
      n ← get_next last;
      if n =? 0 then mret last else last_block fuel n
  end.

Definition expand_heap (size : Z) : M heap Z :=
  let size := ALIGN_UP (u32 (size + sizeof_heap_block)) PAGE_SIZE in
  s ← get;
  if heap_max s <? u32 (heap_end s + size) then mret 0
  else
    ok ← expand_pages (Z.to_nat (size / PAGE_SIZE)) 0;
    if negb ok then mret 0
    else
      let block := heap_end s in
      _ ← set_magic block HEAP_MAGIC;
      _ ← set_size block size;
      _ ← set_allocated block false;
      _ ← set_next block 0;
      _ ← set_prev block 0;
      _ ← (if heap_first s =? 0 then modify (with_first block)
           else
             fuel ← list_fuel;
             last ← last_block fuel (heap_first s);
             _ ← set_next last block;
             set_prev block last);
      _ ← modify (with_end (u32 (heap_end s + size)));
      mret block.

(** ** Splitting and merging *)

Definition split_block (block size : Z) : M heap unit :=
  bsize ← get_size block;
  if bsize <? u32 (size + sizeof_heap_block + HEAP_MIN_SIZE) then mret tt
  else
    let new_block := u32 (block + size) in
    _ ← set_magic new_block HEAP_MAGIC;
    bsize ← get_size block;
    _ ← set_size new_block (u32 (bsize - size));
    _ ← set_allocated new_block false;
    bnext ← get_next block;
    _ ← set_next new_block bnext;
    _ ← set_prev new_block block;
    bnext ← get_next block;
    _ ← (if negb (bnext =? 0) then set_prev bnext new_block else mret tt);
    _ ← set_next block new_block;
    set_size block size.

(** The loop that merges [block] with the free blocks after it. *)
Fixpoint merge_next (fuel : nat) (block : Z) : M heap unit :=
  match fuel with
  | O => undef
  | S fuel =>
      next ← get_next block;
      if next =? 0 then mret tt
      else
        a ← get_allocated next;
        if a : bool then mret tt
        else
          magic ← get_magic next;
          if negb (magic =? HEAP_MAGIC) then mret tt
          else
            bsize ← get_size block;
            nsize ← get_size next;
            _ ← set_size block (u32 (bsize + nsize));
            nn ← get_next next;
            _ ← set_next block nn;
            nn ← get_next next;
            _ ← (if negb (nn =? 0) then set_prev nn block else mret tt);
            merge_next fuel block
  end.

Fixpoint merge_loop (fuel : nat) (block : Z) : M heap unit :=
  match fuel with
  | O => undef
  | S fuel =>
      if block =? 0 then mret tt
      else
        a ← get_allocated block;
        if a : bool then mret tt
        else
          nfuel ← list_fuel;
          _ ← merge_next nfuel block;
          prev ← get_prev block;
          if prev =? 0 then mret tt
          else
            pa ← get_allocated prev;
            if pa : bool then mret tt else merge_loop fuel prev
  end.

Definition merge_blocks (block : Z) : M heap unit := fuel ← list_fuel; merge_loop fuel block.

(** ** Interface of the heap *)

Definition kmalloc_init (start size : Z) : M heap unit :=
  _ ← modify (λ s, {| hmem := hmem s; pages := pages s; heap_start := start; heap_end := start;
                      heap_max := u32 (start + size); heap_first := 0 |});
  _ ← expand_heap (PAGE_SIZE * 16);
  mret tt.

(** The first-fit search: the address of a free block of at least [size]
    bytes, 0 if there is none. *)
Fixpoint find_block (fuel : nat) (block size : Z) : M heap Z :=
  match fuel with
  | O => undef
  | S fuel =>
      if block =? 0 then mret 0
      else
        a ← get_allocated block;
        if negb a then
          bsize ← get_size block;
          if size <=? bsize then mret block
          else n ← get_next block; find_block fuel n size
        else n ← get_next block; find_block fuel n size
  end.

Definition kmalloc (size : Z) : M heap Z :=
  if size =? 0 then mret 0
  else
    let size := u32 (ALIGN_UP size 8 + sizeof_heap_block) in
    if HEAP_MAX_SIZE <? size then mret 0
    else
      s ← get;
      fuel ← list_fuel;
      block ← find_block fuel (heap_first s) size;
      if negb (block =? 0) then
        _ ← set_allocated block true;
        _ ← split_block block size;
        mret (u32 (block + sizeof_heap_block))
      else
        block ← expand_heap size;
        if negb (block =? 0) then
          _ ← set_allocated block true;
          mret (u32 (block + sizeof_heap_block))
        else mret 0.

Definition kzalloc (size : Z) : M heap Z :=
  ptr ← kmalloc size;
  _ ← (if negb (ptr =? 0) then hm (memset ptr 0 size) else mret 0);
  mret ptr.

Definition kmalloc_aligned (size align : Z) : M heap Z :=
  if (align =? 0) || negb (Z.land align (u32 (align - 1)) =? 0) then mret 0
  else
    let total_size := u32 (size + align + sizeof_heap_block) in
    ptr ← kmalloc total_size;
    if ptr =? 0 then mret 0 else mret (ALIGN_UP ptr align).

Definition kfree (ptr : Z) : M heap unit :=
  if ptr =? 0 then mret tt
  else
    let block := u32 (ptr - sizeof_heap_block) in
    magic ← get_magic block;
    if negb (magic =? HEAP_MAGIC) then mret tt
    else
      a ← get_allocated block;
      if negb a then mret tt
      else
        _ ← set_allocated block false;
        merge_blocks block.

Definition kmalloc_get_size (ptr : Z) : M heap Z :=
  if ptr =? 0 then mret 0
  else
    let block := u32 (ptr - sizeof_heap_block) in
    magic ← get_magic block;
    if negb (magic =? HEAP_MAGIC) then mret 0
    else bsize ← get_size block; mret (u32 (bsize - sizeof_heap_block)).

Definition krealloc (ptr new_size : Z) : M heap Z :=
  if ptr =? 0 then kmalloc new_size
  else if new_size =? 0 then _ ← kfree ptr; mret 0
  else
    old_size ← kmalloc_get_size ptr;
    if new_size <=? old_size then mret ptr
    else
      new_ptr ← kmalloc new_size;
      if new_ptr =? 0 then mret 0
      else
        _ ← hm (memcpy new_ptr ptr old_size);
        _ ← kfree ptr;
        mret new_ptr.

Record heap_stats := {
  total_size : Z;
  used_size : Z;
  free_size : Z;
  num_blocks : Z;
  num_free_blocks : Z;
}.

Fixpoint stats_loop (fuel : nat) (block : Z) (st : heap_stats) : M heap heap_stats :=
  match fuel with
  | O => undef
  | S fuel =>
      if block =? 0 then mret st
      else
        a ← get_allocated block;
        bsize ← get_size block;
        n ← get_next block;
        stats_loop fuel n
          (if a : bool then
             {| total_size := total_size st; used_size := u32 (used_size st + bsize);
                free_size := free_size st; num_blocks := u32 (num_blocks st + 1);
                num_free_blocks := num_free_blocks st |}
           else
             {| total_size := total_size st; used_size := used_size st;
                free_size := u32 (free_size st + bsize); num_blocks := u32 (num_blocks st + 1);
                num_free_blocks := u32 (num_free_blocks st + 1) |})
  end.

Definition kmalloc_get_stats : M heap heap_stats :=
  s ← get;
  fuel ← list_fuel;
  stats_loop fuel (heap_first s)
    {| total_size := u32 (heap_end s - heap_start s); used_size := 0; free_size := 0;
       num_blocks := 0; num_free_blocks := 0 |}.

Fixpoint verify_loop (fuel : nat) (block count : Z) : M heap bool :=
  match fuel with
  | O => undef
  | S fuel =>
      if block =? 0 then mret true
      else
        magic ← get_magic block;
        if negb (magic =? HEAP_MAGIC) then mret false
        else
          bsize ← get_size block;
          if bsize <? sizeof_heap_block then mret false
          else
            n ← get_next block;
            bad ← (if negb (n =? 0) then p ← get_prev n; mret (negb (p =? block)) else mret false);
            if bad : bool then mret false
            else if 10000 <? count + 1 then mret false
            else verify_loop fuel n (count + 1)
  end.

(** [verify_loop] returns after at most 10001 blocks. *)
Definition kmalloc_verify_heap : M heap bool :=
  s ← get; verify_loop (Z.to_nat 10002) (heap_first s) 0.

End Heap.
