(* ===== verification/HeapSpec.v ===== *)
(** * Correctness of the kernel heap

    The abstract heap is the list of the blocks in address order, each with
    its size and whether it is allocated; [seg] says that the headers in
    memory are the doubly linked list of such a sequence of adjacent blocks.
    The operations of [Kmalloc.v] are shown to act on this list, to keep the
    list well formed and to leave the payload of every live block alone. *)

From S2P Require Import Prelude Mem Strings Kmalloc.

#[local] Open Scope Z_scope.

(** ** Headers in memory *)

Record hdr (m : mem) (a sz : Z) (al : bool) (nx pv : Z) : Prop := {
  hdr_mapped : mapped m a 20;
  hdr_magic : word m a = HEAP_MAGIC;
  hdr_size : word m (a + 4) = sz;
  hdr_alloc : word m (a + 8) = if al then 1 else 0;
  hdr_next : word m (a + 12) = nx;
  hdr_prev : word m (a + 16) = pv;
}.

Lemma hdr_ext m m' a sz al nx pv :
  (∀ x, a ≤ x < a + 20 → m' !! x = m !! x) → hdr m a sz al nx pv → hdr m' a sz al nx pv.
Proof.
  intros Hx [Hm ? ? ? ? ?]. split; [intros x Hr; rewrite Hx by lia; apply Hm; lia |..];
    rewrite (word_ext m m') by (intros; apply Hx; lia); done.
Qed.

(** Blocks, with their size and allocation flag. *)
Abbreviation block := (Z * bool)%type.

Fixpoint tot (l : list block) : Z :=
  match l with [] => 0 | b :: l => b.1 + tot l end.

(** The headers of the adjacent blocks [l] from address [a] on: the first one
    points back to [pv], the last one forward to [nx]. *)
Fixpoint seg (m : mem) (pv a : Z) (l : list block) (nx : Z) : Prop :=
  match l with
  | [] => True
  | b :: l' =>
      20 ≤ b.1 ∧ hdr m a b.1 b.2 (match l' with [] => nx | _ => a + b.1 end) pv ∧
      seg m a (a + b.1) l' nx
  end.

(** The address of the last block of [l], [pv] when there is none. *)
Fixpoint last_addr (pv a : Z) (l : list block) : Z :=
  match l with [] => pv | b :: l' => last_addr a (a + b.1) l' end.

Lemma tot_app l1 l2 : tot (l1 ++ l2) = tot l1 + tot l2.
Proof. induction l1 as [|b l1 IH]; simpl; lia. Qed.

Lemma seg_app m pv a l1 l2 nx :
  seg m pv a (l1 ++ l2) nx ↔
  seg m pv a l1 (match l2 with [] => nx | _ => a + tot l1 end) ∧
  seg m (last_addr pv a l1) (a + tot l1) l2 nx.
Proof.
  revert pv a. induction l1 as [|b l1 IH]; intros pv a; simpl.
  - rewrite Z.add_0_r. tauto.
  - rewrite IH. replace (a + b.1 + tot l1) with (a + (b.1 + tot l1)) by lia.
    destruct l1 as [|b' l1]; simpl; [|tauto]. destruct l2 as [|b2 l2]; simpl.
    + tauto.
    + replace (a + (b.1 + 0)) with (a + b.1) by lia. tauto.
Qed.

Lemma tot_nonneg m pv a l nx : seg m pv a l nx → 0 ≤ tot l.
Proof.
  revert pv a. induction l as [|b l IH]; intros pv a; simpl; [lia|].
  intros (Hb & _ & Hl). specialize (IH _ _ Hl). lia.
Qed.

Lemma seg_ext m m' pv a l nx :
  seg m pv a l nx → (∀ x, a ≤ x < a + tot l → m' !! x = m !! x) → seg m' pv a l nx.
Proof.
  revert pv a. induction l as [|b l IH]; intros pv a; simpl; [done|].
  intros (Hb & Hh & Hl) Hx. pose proof (tot_nonneg _ _ _ _ _ Hl). split_and!; [done | |].
  - eapply hdr_ext; [|done]. intros x Hr. apply Hx. lia.
  - apply IH; [done|]. intros x Hr. apply Hx. lia.
Qed.

(** Only the first header holds [pv], only the last one [nx]. *)
Lemma seg_set_prev m m' pv pv' a b l nx :
  seg m pv a (b :: l) nx →
  hdr m' a b.1 b.2 (match l with [] => nx | _ => a + b.1 end) pv' →
  (∀ x, a + 20 ≤ x < a + tot (b :: l) → m' !! x = m !! x) →
  seg m' pv' a (b :: l) nx.
Proof.
  simpl. intros (Hb & Hh & Hl) Hh' Hx. split_and!; [done | done |].
  eapply seg_ext; [done|]. intros x Hr. apply Hx. lia.
Qed.

Lemma last_addr_app pv a l b : last_addr pv a (l ++ [b]) = a + tot l.
Proof.
  revert pv a. induction l as [|c l IH]; intros pv a; simpl; [lia|]. rewrite IH. lia.
Qed.

(** ** Header accesses of the code *)

Section Spec.
Context {P : Type} `{!PageSource P}.
Implicit Types s : (heap (P:=P)).

Lemma with_mem_same s : with_mem (hmem s) s = s.
Proof. by destruct s. Qed.

Lemma hm_load s a :
  mapped (hmem s) a 4 → hm (load32 a) s = Ret (word (hmem s) a, s).
Proof.
  intros H. unfold hm. rewrite (zoom_Ret _ _ _ _ (word (hmem s) a) (hmem s)) by (by apply load32_eq).
  by rewrite with_mem_same.
Qed.

Lemma hm_store s a v :
  mapped (hmem s) a 4 →
  hm (store32 a v) s = Ret (tt, with_mem (write32 (hmem s) a v) s).
Proof.
  intros H. unfold hm. by rewrite (zoom_Ret _ _ _ _ tt (write32 (hmem s) a v)) by (by apply store32_eq).
Qed.

Lemma get_allocated_hdr s a sz al nx pv :
  hdr (hmem s) a sz al nx pv → get_allocated a s = Ret (al, s).
Proof.
  intros [Hm _ _ Ha _ _]. unfold get_allocated.
  rewrite (bind_Ret _ _ _ _ _ (hm_load s (a + 8) ltac:(eapply mapped_sub; [exact Hm | lia | lia]))).
  rewrite Ha. by destruct al.
Qed.

Lemma get_size_hdr s a sz al nx pv :
  hdr (hmem s) a sz al nx pv → get_size a s = Ret (sz, s).
Proof.
  intros [Hm _ <- _ _ _]. apply hm_load. eapply mapped_sub; [exact Hm | lia | lia].
Qed.

Lemma get_next_hdr s a sz al nx pv :
  hdr (hmem s) a sz al nx pv → get_next a s = Ret (nx, s).
Proof.
  intros [Hm _ _ _ <- _]. apply hm_load. eapply mapped_sub; [exact Hm | lia | lia].
Qed.

Lemma get_prev_hdr s a sz al nx pv :
  hdr (hmem s) a sz al nx pv → get_prev a s = Ret (pv, s).
Proof.
  intros [Hm _ _ _ _ <-]. apply hm_load. eapply mapped_sub; [exact Hm | lia | lia].
Qed.

Lemma get_magic_hdr s a sz al nx pv :
  hdr (hmem s) a sz al nx pv → get_magic a s = Ret (HEAP_MAGIC, s).
Proof.
  intros [Hm <- _ _ _ _]. apply hm_load. eapply mapped_sub; [exact Hm | lia | lia].
Qed.

(** ** The invariant *)

Record heap_inv (s : heap (P:=P)) (bl : list block) : Prop := {
  hi_start : 0 < heap_start s;
  hi_end : heap_end s = heap_start s + tot bl;
  hi_max : heap_end s ≤ heap_max s ≤ 2 ^ 32 - 2 ^ 21;
  hi_page : (heap_start s mod PAGE_SIZE = 0) ∧ (heap_end s mod PAGE_SIZE = 0);
  hi_mapped : mapped (hmem s) (heap_start s) (tot bl);
  hi_bytes : bytes_ok (hmem s);
  hi_seg : seg (hmem s) 0 (heap_start s) bl 0;
  hi_first : heap_first s = match bl with [] => 0 | _ => heap_start s end;
  hi_pages : ps_ok (pages s);
  hi_virt : ∀ v, heap_start s ≤ v < heap_max s → ps_virt v;
  hi_backed : ∀ v, heap_start s ≤ v < heap_end s → ps_mapped (pages s) v;
}.

(** No two free blocks are adjacent. *)
Fixpoint coalesced (bl : list block) : Prop :=
  match bl with
  | b :: ((c :: _) as l) => (b.2 = true ∨ c.2 = true) ∧ coalesced l
  | _ => True
  end.

(** The payloads of the allocated blocks, as address and length. *)
Fixpoint live (a : Z) (bl : list block) : list (Z * Z) :=
  match bl with
  | [] => []
  | b :: l => (if b.2 then [(a + 20, b.1 - 20)] else []) ++ live (a + b.1) l
  end.

(** ** Zippers *)

Lemma seg_zip m pv a l1 b l2 nx :
  seg m pv a (l1 ++ b :: l2) nx ↔
  seg m pv a l1 (a + tot l1) ∧ 20 ≤ b.1 ∧
  hdr m (a + tot l1) b.1 b.2 (match l2 with [] => nx | _ => a + tot l1 + b.1 end) (last_addr pv a l1) ∧
  seg m (a + tot l1) (a + tot l1 + b.1) l2 nx.
Proof. rewrite seg_app. simpl. tauto. Qed.

Lemma seg_length m pv a l nx : seg m pv a l nx → 20 * Z.of_nat (length l) ≤ tot l.
Proof.
  revert pv a. induction l as [|b l IH]; intros pv a; simpl; [lia|].
  intros (Hb & _ & Hl). specialize (IH _ _ Hl). lia.
Qed.

Lemma heap_inv_mem s bl bl' m' :
  heap_inv s bl → tot bl' = tot bl → (bl' = [] ↔ bl = []) →
  (∀ a n, mapped (hmem s) a n → mapped m' a n) → bytes_ok m' →
  seg m' 0 (heap_start s) bl' 0 → heap_inv (with_mem m' s) bl'.
Proof.
  intros [H1 H2 H3 H4 H5 H6 H7 H8 H9] Ht He Hm Hb Hs. split; simpl; try done.
  - lia.
  - rewrite Ht. by apply Hm.
  - rewrite H8. destruct bl, bl'; try done; naive_solver.
Qed.

Lemma list_fuel_eq {A} (k : nat → M heap A) s bl :
  heap_inv s bl → ∃ fuel, (length bl < fuel)%nat ∧ (list_fuel ≫= k) s = k fuel s.
Proof.
  intros [_ He _ _ _ _ Hs _ _]. eexists. split; [|reflexivity].
  apply seg_length in Hs. rewrite He. unfold sizeof_heap_block.
  replace (heap_start s + tot bl - heap_start s) with (tot bl) by lia.
  assert (Z.of_nat (length bl) ≤ tot bl / 20) by (apply Z.div_le_lower_bound; lia). lia.
Qed.

(** ** The first-fit search *)

Fixpoint first_fit (a : Z) (l : list block) (n : Z) : Z :=
  match l with
  | [] => 0
  | b :: l => if negb b.2 && (n <=? b.1) then a else first_fit (a + b.1) l n
  end.

Definition fits (n : Z) (b : block) : Prop := b.2 = false ∧ n ≤ b.1.

Lemma find_block_spec n l : ∀ fuel s pv a,
  seg (hmem s) pv a l 0 → 0 < a → (length l < fuel)%nat →
  find_block fuel (match l with [] => 0 | _ => a end) n s = Ret (first_fit a l n, s).
Proof.
  induction l as [|b l IH]; intros [|fuel] s pv a Hs Ha Hf; simpl in Hf; try lia;
    cbn [find_block first_fit]; [done|].
  simpl in Hs. destruct Hs as (Hb & Hh & Hl). rewrite (proj2 (Z.eqb_neq a 0)) by lia.
  rewrite (bind_Ret _ _ _ _ _ (get_allocated_hdr _ _ _ _ _ _ Hh)).
  assert ((get_next a ≫= λ x, find_block fuel x n) s = Ret (first_fit (a + b.1) l n, s)) as Hnext.
  { rewrite (bind_Ret _ _ _ _ _ (get_next_hdr _ _ _ _ _ _ Hh)).
    rewrite <- (IH fuel s a (a + b.1)) by (done || lia). by destruct l. }
  destruct (b.2); cbn [negb andb]; [done|].
  rewrite (bind_Ret _ _ _ _ _ (get_size_hdr _ _ _ _ _ _ Hh)). by destruct (n <=? b.1).
Qed.

Lemma first_fit_cases a l n :
  (∃ l1 b l2, l = l1 ++ b :: l2 ∧ first_fit a l n = a + tot l1 ∧ fits n b ∧ Forall (λ c, ¬ fits n c) l1)
  ∨ (first_fit a l n = 0 ∧ Forall (λ c, ¬ fits n c) l).
Proof.
  revert a. induction l as [|b l IH]; intros a; simpl; [by right|].
  destruct (b.2) eqn:Eb; cbn [negb andb].
  2: destruct (Z.leb_spec n b.1).
  2:{ left. exists [], b, l. split_and!; [done | simpl; lia | done | constructor]. }
  all: assert (¬ fits n b) as Hno by (unfold fits; rewrite Eb; lia || naive_solver);
    destruct (IH (a + b.1)) as [(l1 & c & l2 & -> & E & Hf & Hl1)|[E Hl]].
  1,3: left; exists (b :: l1), c, l2; split_and!; [done | simpl; lia | done | by constructor].
  all: right; split; [done | by constructor].
Qed.

(** ** Symbolic execution of header accesses *)

Lemma bind_load {A} a (k : Z → M heap A) s :
  mapped (hmem s) a 4 → (hm (load32 a) ≫= k) s = k (word (hmem s) a) s.
Proof. intros H. by rewrite (bind_Ret _ _ _ _ _ (hm_load s a H)). Qed.

Lemma bind_store {A} a v (k : unit → M heap A) s :
  mapped (hmem s) a 4 →
  (hm (store32 a v) ≫= k) s = k tt (with_mem (write32 (hmem s) a v) s).
Proof. intros H. by rewrite (bind_Ret _ _ _ _ _ (hm_store s a v H)). Qed.

Lemma with_mem_mem m m' s : with_mem m (with_mem m' s) = with_mem m s.
Proof. done. Qed.

Lemma hmem_with_mem m s : hmem (with_mem m s) = m.
Proof. done. Qed.

End Spec.

(** The range of an access is part of the mapped range [Hm]. *)
Ltac in_range Hm :=
  rewrite ?hmem_with_mem; repeat apply mapped_write32; eapply mapped_sub; [exact Hm | lia | lia].

(** Run the next header access. *)
Ltac hstep Hm :=
  first [rewrite bind_load by in_range Hm | rewrite bind_store by in_range Hm
        | rewrite hm_store by in_range Hm];
  rewrite ?with_mem_mem, ?hmem_with_mem.

(** Read words of a memory after some word writes. *)
Ltac hword :=
  repeat first [rewrite word_write32_eq by lia | rewrite word_write32_ne by lia].

(** A byte outside the written words. *)
Ltac hbyte := cbn [fst snd] in *; repeat rewrite lookup_write32_ne by lia; done.

Section Spec.
Context {P : Type} `{!PageSource P}.
Implicit Types s : (heap (P:=P)).

Lemma tot_zip_bounds s l1 b l2 :
  heap_inv s (l1 ++ b :: l2) →
  let x := heap_start s + tot l1 in
  0 < heap_start s ≤ x ∧ 20 ≤ b.1 ∧ x + b.1 + tot l2 = heap_end s ∧ 0 ≤ tot l2 ∧
  tot (l1 ++ b :: l2) = tot l1 + b.1 + tot l2 ∧ heap_end s ≤ 2 ^ 32 - 2 ^ 21 ∧
  (match l2 with [] => True | _ => 20 ≤ tot l2 end) ∧ 0 ≤ tot l1.
Proof.
  intros Hi x. destruct Hi as [H1 H2 H3 _ _ _ Hs _ _].
  apply seg_zip in Hs as (Hs1 & Hb & Hh & Hs2). apply tot_nonneg in Hs1.
  assert (match l2 with [] => True | _ => 20 ≤ tot l2 end).
  { destruct l2 as [|c l2]; [done|]. simpl in Hs2 |- *. destruct Hs2 as (? & _ & Hs2).
    apply tot_nonneg in Hs2. lia. }
  apply tot_nonneg in Hs2. rewrite tot_app in *. simpl in *. split_and!; try lia; done.
Qed.

End Spec.

(** Everything known about the block at [x] of a well-formed heap. *)
Ltac open_block Hi x :=
  let Hbd := fresh "Hbd" in let Hs := fresh "Hs" in
  pose proof (tot_zip_bounds _ _ _ _ Hi) as Hbd; cbv zeta in Hbd; fold x in Hbd;
  cbn [fst snd] in Hbd; destruct Hbd as (?Hst & ?Hsz & ?Hend & ?Htl2 & Ht & ?Hmax & ?Hl2 & ?Htl1);
  pose proof (hi_mapped _ _ Hi) as Hm; rewrite Ht in Hm;
  pose proof (hi_seg _ _ Hi) as Hs; apply seg_zip in Hs as (Hs1 & _ & Hh & Hs2);
  fold x in Hh, Hs1, Hs2; cbn [fst snd] in Hh, Hs2.

Section Spec.
Context {P : Type} `{!PageSource P}.
Implicit Types s : (heap (P:=P)).

Lemma set_allocated_spec s l1 bs al al' l2 :
  heap_inv s (l1 ++ (bs, al) :: l2) →
  let x := heap_start s + tot l1 in
  ∃ m', set_allocated x al' s = Ret (tt, with_mem m' s) ∧
    heap_inv (with_mem m' s) (l1 ++ (bs, al') :: l2) ∧ same_outside x 20 (hmem s) m'.
Proof.
  intros Hi x. open_block Hi x.
  exists (write32 (hmem s) (x + 8) (if al' then 1 else 0)). split_and!.
  - unfold set_allocated. apply hm_store. in_range Hm.
  - eapply heap_inv_mem; [exact Hi | | | | |].
    + rewrite !tot_app. done.
    + by destruct l1.
    + intros. by apply mapped_write32.
    + apply bytes_ok_write32, Hi.
    + apply seg_zip. fold x. split_and!; cbn [fst snd].
      * eapply seg_ext; [done|]. intros y Hy. hbyte.
      * done.
      * destruct Hh; destruct al'; split; hword; try done; by apply mapped_write32.
      * eapply seg_ext; [done|]. intros y Hy. hbyte.
  - intros y Hy. hbyte.
Qed.

(** Two adjacent headers in the extent of one block make two blocks of it. *)
Lemma split_rebuild s l1 bs al l2 n m' :
  heap_inv s (l1 ++ (bs, al) :: l2) → 20 ≤ n → n + 20 ≤ bs →
  let x := heap_start s + tot l1 in
  (∀ a k, mapped (hmem s) a k → mapped m' a k) → bytes_ok m' →
  same_outside x (bs + 20) (hmem s) m' →
  hdr m' x n al (x + n) (last_addr 0 (heap_start s) l1) →
  hdr m' (x + n) (bs - n) false (match l2 with [] => 0 | _ => x + bs end) x →
  seg m' (x + n) (x + bs) l2 0 →
  heap_inv (with_mem m' s) (l1 ++ [(n, al); (bs - n, false)] ++ l2).
Proof.
  intros Hi Hn Hbs x Hm' Hb' Hso Hhx Hhn Hsl. open_block Hi x.
  eapply heap_inv_mem; [exact Hi | | | done | done |].
  - rewrite Ht, tot_app. simpl. lia.
  - by destruct l1.
  - simpl. apply seg_zip. fold x. cbn [fst snd]. split_and!; [|lia|done|].
    + eapply seg_ext; [done|]. intros y Hy. apply Hso. lia.
    + cbn [seg fst snd]. replace (x + n + (bs - n)) with (x + bs) by lia. by split_and!; [lia| |].
Qed.

Lemma split_block_spec s l1 bs al l2 n :
  heap_inv s (l1 ++ (bs, al) :: l2) → 20 ≤ n ≤ bs →
  let x := heap_start s + tot l1 in
  ∃ m', split_block x n s = Ret (tt, with_mem m' s) ∧
    heap_inv (with_mem m' s)
      (l1 ++ (if bs <? n + 36 then [(bs, al)] else [(n, al); (bs - n, false)]) ++ l2) ∧
    same_outside x (bs + 20) (hmem s) m'.
Proof.
  intros Hi Hn x. open_block Hi x. unfold split_block.
  rewrite (bind_Ret _ _ _ _ _ (get_size_hdr _ _ _ _ _ _ Hh)).
  unfold sizeof_heap_block. rewrite (u32_small (n + 20 + 16)) by lia.
  replace (n + 20 + 16) with (n + 36) by lia.
  destruct (Z.ltb_spec bs (n + 36)) as [Hlt|Hge].
  { exists (hmem s). rewrite with_mem_same. by split_and!. }
  rewrite (u32_small (x + n)) by lia. cbv zeta.
  unfold set_magic, get_size, set_size, set_allocated, get_next, set_next, set_prev.
  destruct Hh as [Hhm Hh1 Hh2 Hh3 Hh4 Hh5].
  repeat hstep Hm. hword. rewrite Hh4, Hh2, (u32_small (bs - n)) by lia.
  assert (0 ≤ HEAP_MAGIC < 2 ^ 32) as Hmagic by (unfold HEAP_MAGIC; lia).
  destruct l2 as [|[b2 al2] l2]; [|rewrite (proj2 (Z.eqb_neq (x + bs) 0)) by lia]; cbn [negb Z.eqb].
  - cbn [tot] in *. rewrite bind_mret. repeat hstep Hm.
    eexists. split; [reflexivity|]. split; [|intros y Hy; hbyte].
    apply (split_rebuild s l1 bs al _ n); [done | lia | lia | intros; by repeat apply mapped_write32 | repeat apply bytes_ok_write32; apply Hi
                | intros y Hy; hbyte | | | done].
    + split; hword; try done; by repeat apply mapped_write32.
    + split; hword; try done. repeat apply mapped_write32. eapply mapped_sub; [exact Hm | lia | lia].
  - cbn [seg fst snd tot] in *. destruct Hs2 as (Hb2 & Hh2' & Hs2).
    destruct Hh2' as [Hnm Hn1 Hn2 Hn3 Hn4 Hn5]. apply tot_nonneg in Hs2 as Htl.
    repeat hstep Hm.
    eexists. split; [reflexivity|]. split; [|intros y Hy; hbyte].
    apply (split_rebuild s l1 bs al _ n); [done | lia | lia | intros; by repeat apply mapped_write32 | repeat apply bytes_ok_write32; apply Hi
                | intros y Hy; hbyte | | |].
    + split; hword; try done; by repeat apply mapped_write32.
    + split; hword; try done. repeat apply mapped_write32. eapply mapped_sub; [exact Hm | lia | lia].
    + split_and!; [done | |].
      * split; hword; try done. by repeat apply mapped_write32.
      * eapply seg_ext; [done|]. intros y Hy. hbyte.
Qed.

(** ** Merging *)

Lemma merge_rebuild s l1 bs b2 l2 m' :
  heap_inv s (l1 ++ (bs, false) :: (b2, false) :: l2) →
  let x := heap_start s + tot l1 in
  (∀ a k, mapped (hmem s) a k → mapped m' a k) → bytes_ok m' →
  same_outside x (bs + b2 + 20) (hmem s) m' →
  hdr m' x (bs + b2) false (match l2 with [] => 0 | _ => x + bs + b2 end)
    (last_addr 0 (heap_start s) l1) →
  seg m' x (x + bs + b2) l2 0 →
  heap_inv (with_mem m' s) (l1 ++ (bs + b2, false) :: l2).
Proof.
  intros Hi x Hm' Hb' Hso Hhx Hsl. open_block Hi x.
  cbn [seg tot fst snd] in *. destruct Hs2 as (Hb2 & _ & _).
  eapply heap_inv_mem; [exact Hi | | | done | done |].
  - rewrite Ht, tot_app. simpl. lia.
  - by destruct l1.
  - apply seg_zip. fold x. cbn [fst snd]. rewrite Z.add_assoc. split_and!; [|lia|done|done].
    eapply seg_ext; [done|]. intros y Hy. apply Hso. lia.
Qed.

(** One iteration of the loop: the free block after [x] is taken in. *)
Lemma merge_step s l1 bs b2 l2 fuel :
  heap_inv s (l1 ++ (bs, false) :: (b2, false) :: l2) →
  let x := heap_start s + tot l1 in
  ∃ m', merge_next (S fuel) x s = merge_next fuel x (with_mem m' s) ∧
    heap_inv (with_mem m' s) (l1 ++ (bs + b2, false) :: l2) ∧
    same_outside x (bs + b2 + 20) (hmem s) m'.
Proof.
  intros Hi x. open_block Hi x. cbn [seg tot fst snd] in *. destruct Hs2 as (Hb2 & Hh2 & Hs2).
  apply tot_nonneg in Hs2 as Htl. cbn [merge_next].
  rewrite (bind_Ret _ _ _ _ _ (get_next_hdr _ _ _ _ _ _ Hh)).
  rewrite (proj2 (Z.eqb_neq (x + bs) 0)) by lia.
  rewrite (bind_Ret _ _ _ _ _ (get_allocated_hdr _ _ _ _ _ _ Hh2)).
  rewrite (bind_Ret _ _ _ _ _ (get_magic_hdr _ _ _ _ _ _ Hh2)). rewrite Z.eqb_refl. cbn [negb].
  rewrite (bind_Ret _ _ _ _ _ (get_size_hdr _ _ _ _ _ _ Hh)).
  rewrite (bind_Ret _ _ _ _ _ (get_size_hdr _ _ _ _ _ _ Hh2)). rewrite (u32_small (bs + b2)) by lia.
  destruct Hh as [Hhm Hh_1 Hh_2 Hh_3 Hh_4 Hh_5]. destruct Hh2 as [Hnm Hn1 Hn2 Hn3 Hn4 Hn5].
  unfold set_size, get_next, set_next, set_prev. repeat hstep Hm. hword. rewrite Hn4.
  destruct l2 as [|[b3 al3] l2]; [|rewrite (proj2 (Z.eqb_neq (x + bs + b2) 0)) by lia]; cbn [negb Z.eqb].
  - rewrite bind_mret. eexists. split; [reflexivity|].
    split; [|intros y Hy; hbyte]. cbn [tot] in *.
    apply (merge_rebuild s l1 bs b2 []); [done | intros; by repeat apply mapped_write32
      | repeat apply bytes_ok_write32; apply Hi | intros y Hy; hbyte | | done].
    split; hword; try done; by repeat apply mapped_write32.
  - cbn [seg fst snd tot] in *. destruct Hs2 as (Hb3 & [Hrm Hr1 Hr2 Hr3 Hr4 Hr5] & Hs2).
    apply tot_nonneg in Hs2 as Htl'. repeat hstep Hm.
    eexists. split; [reflexivity|]. split; [|intros y Hy; hbyte].
    apply (merge_rebuild s l1 bs b2 ((b3, al3) :: l2)); [done | intros; by repeat apply mapped_write32
      | repeat apply bytes_ok_write32; apply Hi | intros y Hy; hbyte | |].
    + split; hword; try done; by repeat apply mapped_write32.
    + fold x. cbn [seg fst snd]. split_and!; [done | |].
      * split; hword; try done. by repeat apply mapped_write32.
      * eapply seg_ext; [done|]. intros y Hy. hbyte.
Qed.

(** The free blocks at the front of [l2] join a block of size [bs]. *)
Fixpoint absorb (bs : Z) (l2 : list block) : Z * list block :=
  match l2 with
  | (b2, false) :: l2' => absorb (bs + b2) l2'
  | _ => (bs, l2)
  end.

Lemma merge_next_spec l2 : ∀ fuel s l1 bs,
  heap_inv s (l1 ++ (bs, false) :: l2) → (length l2 < fuel)%nat →
  let x := heap_start s + tot l1 in
  ∃ m', merge_next fuel x s = Ret (tt, with_mem m' s) ∧
    heap_inv (with_mem m' s) (l1 ++ ((absorb bs l2).1, false) :: (absorb bs l2).2) ∧
    same_outside x ((absorb bs l2).1 + 20) (hmem s) m' ∧ bs ≤ (absorb bs l2).1.
Proof.
  induction l2 as [|[b2 al2] l2 IH]; intros [|fuel] s l1 bs Hi Hf x; simpl in Hf; try lia.
  - open_block Hi x. cbn [merge_next]. rewrite (bind_Ret _ _ _ _ _ (get_next_hdr _ _ _ _ _ _ Hh)).
    exists (hmem s). rewrite with_mem_same. by split_and!.
  - destruct al2.
    + open_block Hi x. cbn [merge_next seg tot fst snd] in *. destruct Hs2 as (Hb2 & Hh2 & _).
      rewrite (bind_Ret _ _ _ _ _ (get_next_hdr _ _ _ _ _ _ Hh)).
      rewrite (proj2 (Z.eqb_neq (x + bs) 0)) by lia.
      rewrite (bind_Ret _ _ _ _ _ (get_allocated_hdr _ _ _ _ _ _ Hh2)).
      exists (hmem s). rewrite with_mem_same. by split_and!.
    + destruct (merge_step s l1 bs b2 l2 fuel Hi) as (m1 & E1 & Hi1 & Hso1). fold x in E1, Hso1.
      destruct (IH fuel (with_mem m1 s) l1 (bs + b2) Hi1 ltac:(lia)) as (m2 & E2 & Hi2 & Hso2 & Hle).
      cbn [heap_start with_mem] in *. fold x in E2, Hso2.
      open_block Hi x. cbn [seg tot fst snd] in *. destruct Hs2 as (Hb2 & _ & _).
      exists m2. cbn [absorb]. split_and!; [by rewrite E1, E2 | done | | lia].
      intros y Hy. rewrite Hso2 by done. apply Hso1. lia.
Qed.

(** ** Live payloads *)

Definition sizes_ok (l : list block) : Prop := Forall (λ b, 20 ≤ b.1) l.

Lemma seg_sizes_ok m pv a l nx : seg m pv a l nx → sizes_ok l.
Proof.
  revert pv a. induction l as [|b l IH]; intros pv a; simpl; [constructor|].
  intros (Hb & _ & Hl). constructor; [done | by eapply IH].
Qed.

Lemma live_app a l1 l2 : live a (l1 ++ l2) = live a l1 ++ live (a + tot l1) l2.
Proof.
  revert a. induction l1 as [|b l1 IH]; intros a; simpl; [by rewrite Z.add_0_r|].
  rewrite IH, <- app_assoc. do 2 f_equal. f_equal. lia.
Qed.

Lemma sizes_ok_tot l : sizes_ok l → 0 ≤ tot l.
Proof. induction 1; simpl in *; lia. Qed.

Lemma live_range l : ∀ a p k,
  sizes_ok l → (p, k) ∈ live a l → a + 20 ≤ p ∧ p + k ≤ a + tot l.
Proof.
  induction l as [|b l IH]; intros a p k Hok; simpl; [set_solver|].
  apply Forall_cons in Hok as [Hb Hok]. pose proof (sizes_ok_tot l Hok). intros [Hin|Hin]%elem_of_app.
  - destruct (b.2); [|set_solver]. apply list_elem_of_singleton in Hin as [= -> ->]. lia.
  - apply IH in Hin; [lia | done].
Qed.

(** The bytes of the payloads of [bl] are the same in [m] and [m']. *)
Definition live_kept (a : Z) (bl : list block) (m m' : mem) : Prop :=
  ∀ p k y, (p, k) ∈ live a bl → p ≤ y < p + k → m' !! y = m !! y.

(** A change of one free block and the header behind it keeps them. *)
Lemma live_kept_middle a l1 mid l2 m m' :
  sizes_ok (l1 ++ mid ++ l2) → live (a + tot l1) mid = [] →
  same_outside (a + tot l1) (tot mid + 20) m m' → live_kept a (l1 ++ mid ++ l2) m m'.
Proof.
  intros [Hok1 [Hokm Hok2]%Forall_app]%Forall_app Hmid Hso p k y Hin Hy. apply Hso.
  pose proof (sizes_ok_tot mid Hokm).
  rewrite !live_app, Hmid in Hin. simpl in Hin. apply elem_of_app in Hin as [Hin|Hin].
  - apply live_range in Hin; [lia | done].
  - apply live_range in Hin; [lia | done].
Qed.

(** Two pieces of memory that do not overlap; a list of them. *)
Definition apart (x y : Z * Z) : Prop := x.1 + x.2 ≤ y.1 ∨ y.1 + y.2 ≤ x.1.
Fixpoint all_apart (l : list (Z * Z)) : Prop := match l with [] => True | x :: l => Forall (apart x) l ∧ all_apart l end.

#[export] Instance all_apart_proper : Proper ((≡ₚ) ==> iff) all_apart.
Proof.
  assert (∀ l l', l ≡ₚ l' → all_apart l → all_apart l') as H; [|intros l l' E; by split; apply H].
  induction 1 as [|x l l' Hp IH|x y l|l l' l'' _ IH1 _ IH2]; cbn; [done | intros [H1 H2]; split; [by eapply Permutation_Forall in H1 | auto] | | auto].
  rewrite !Forall_cons. unfold apart. intuition.
Qed.

Lemma live_apart a bl : sizes_ok bl → all_apart (live a bl).
Proof.
  revert a. induction bl as [|[n al] bl IH]; intros a; [done|]. intros [Hn Hok]%Forall_cons. cbn [live fst snd] in *.
  destruct al; cbn [app]; [|by apply IH]. split; [|by apply IH]. apply Forall_forall. intros [q k] Hin. apply live_range in Hin; [|done].
  left. cbn. lia.
Qed.

Lemma live_kept_trans a bl bl' m m' m'' :
  live a bl' = live a bl → live_kept a bl m m' → live_kept a bl' m' m'' → live_kept a bl m m''.
Proof. intros E H1 H2 p k y Hin Hy. rewrite (H2 p k y), (H1 p k y); try done. by rewrite E. Qed.

Lemma absorb_app bs l2 :
  ∃ fr, l2 = fr ++ (absorb bs l2).2 ∧ (absorb bs l2).1 = bs + tot fr ∧ ∀ a, live a fr = [].
Proof.
  revert bs. induction l2 as [|[b2 [|]] l2 IH]; intros bs.
  - exists []. split_and!; [done | simpl; lia | done].
  - exists []. split_and!; [done | simpl; lia | done].
  - cbn [absorb]. destruct (IH (bs + b2)) as (fr & E1 & E2 & E3).
    exists ((b2, false) :: fr). split_and!; [simpl; by rewrite <- E1 | simpl; lia |].
    intros a. simpl. apply E3.
Qed.

Lemma absorb_live a bs l2 :
  live a (((absorb bs l2).1, false) :: (absorb bs l2).2) = live a ((bs, false) :: l2).
Proof.
  destruct (absorb_app bs l2) as (fr & E1 & E2 & E3).
  transitivity (live a ((bs, false) :: fr ++ (absorb bs l2).2)); [|by rewrite <- E1].
  simpl. rewrite live_app, E3, E2. simpl. f_equal. lia.
Qed.

(** Merging with the free neighbours on both sides; [l1r] are the blocks before
    the block, nearest first. *)
Fixpoint merged (l1r : list block) (bs : Z) (l2 : list block) : list block :=
  let r := absorb bs l2 in
  match l1r with
  | (b1, false) :: l1r' => merged l1r' b1 ((r.1, false) :: r.2)
  | _ => rev l1r ++ (r.1, false) :: r.2
  end.

Lemma merged_live a l1r : ∀ bs l2,
  live a (merged l1r bs l2) = live a (rev l1r ++ (bs, false) :: l2).
Proof.
  induction l1r as [|[b1 [|]] l1r IH]; intros bs l2; cbn [merged].
  - apply absorb_live.
  - rewrite !live_app. f_equal. apply absorb_live.
  - rewrite IH. cbn [rev]. rewrite <- app_assoc. cbn [app]. rewrite !live_app. f_equal.
    apply (absorb_live _ bs l2).
Qed.

Lemma absorb_kept s l1 bs l2 m' :
  heap_inv s (l1 ++ (bs, false) :: l2) →
  same_outside (heap_start s + tot l1) ((absorb bs l2).1 + 20) (hmem s) m' →
  live_kept (heap_start s) (l1 ++ (bs, false) :: l2) (hmem s) m'.
Proof.
  intros Hi Hso. destruct (absorb_app bs l2) as (fr & E1 & E2 & E3).
  pose proof (seg_sizes_ok _ _ _ _ _ (hi_seg _ _ Hi)) as Hok.
  rewrite E1 in Hok |- *. change ((bs, false) :: fr ++ ?l) with (((bs, false) :: fr) ++ l) in *.
  apply live_kept_middle; [done | simpl; apply E3 |]. simpl. by rewrite <- E2.
Qed.

(** The part of [merge_loop] that merges forward. *)
Lemma merge_forward s l1 bs l2 fuel :
  heap_inv s (l1 ++ (bs, false) :: l2) →
  let x := heap_start s + tot l1 in
  let r := absorb bs l2 in
  ∃ m', heap_inv (with_mem m' s) (l1 ++ (r.1, false) :: r.2) ∧
    live_kept (heap_start s) (l1 ++ (bs, false) :: l2) (hmem s) m' ∧
    merge_loop (S fuel) x s =
      (prev ← get_prev x;
       if prev =? 0 then mret tt
       else
         pa ← get_allocated prev;
         if pa : bool then mret tt else merge_loop fuel prev) (with_mem m' s).
Proof.
  intros Hi x r. open_block Hi x. cbn [merge_loop]. rewrite (proj2 (Z.eqb_neq x 0)) by lia.
  rewrite (bind_Ret _ _ _ _ _ (get_allocated_hdr _ _ _ _ _ _ Hh)).
  edestruct (list_fuel_eq (A:=unit)) as (nf & Hnf & ->); [exact Hi|].
  rewrite length_app in Hnf. simpl in Hnf.
  destruct (merge_next_spec l2 nf s l1 bs Hi ltac:(lia)) as (m1 & E1 & Hi1 & Hso1 & _).
  fold x in E1, Hso1. exists m1. split_and!; [done | by apply absorb_kept |].
  by rewrite (bind_Ret _ _ _ _ _ E1).
Qed.

Lemma merge_loop_spec l1r : ∀ fuel s bs l2,
  heap_inv s (rev l1r ++ (bs, false) :: l2) → (length l1r < fuel)%nat →
  let x := heap_start s + tot (rev l1r) in
  ∃ m', merge_loop fuel x s = Ret (tt, with_mem m' s) ∧
    heap_inv (with_mem m' s) (merged l1r bs l2) ∧
    live_kept (heap_start s) (rev l1r ++ (bs, false) :: l2) (hmem s) m'.
Proof.
  induction l1r as [|[b1 al1] l1r IH]; intros [|fuel] s bs l2 Hi Hf x; simpl in Hf; try lia;
    destruct (merge_forward s _ bs l2 fuel Hi) as (m1 & Hi1 & Hk1 & E1); fold x in E1; rewrite E1;
    cbn [merged]; pose proof (hi_seg _ _ Hi1) as Hs; apply seg_zip in Hs as (Hs1 & _ & Hh & Hs2);
    cbn [heap_start with_mem fst snd] in Hh, Hs1; fold x in Hh;
    rewrite (bind_Ret _ _ _ _ _ (get_prev_hdr _ _ _ _ _ _ Hh)).
  - exists m1. done.
  - cbn [rev] in *. rewrite last_addr_app.
    pose proof (hi_start _ _ Hi). apply seg_app in Hs1 as [Hs1 Hb1].
    apply tot_nonneg in Hs1. rewrite (proj2 (Z.eqb_neq _ 0)) by lia.
    cbn [seg fst snd] in Hb1. destruct Hb1 as (_ & Hh1 & _).
    rewrite (bind_Ret _ _ _ _ _ (get_allocated_hdr (with_mem m1 s) _ _ _ _ _ Hh1)).
    destruct al1; [exists m1; done|].
    rewrite <- app_assoc in Hi1. simpl in Hi1.
    destruct (IH fuel (with_mem m1 s) b1 _ Hi1 ltac:(lia)) as (m2 & E2 & Hi2 & Hk2).
    exists m2. split_and!; [done | done |].
    eapply live_kept_trans; [|exact Hk1|exact Hk2].
    rewrite <- app_assoc. cbn [app]. rewrite !live_app. f_equal. apply (absorb_live _ bs l2).
Qed.

(** ** Coalescing *)

Definition head_used (l : list block) : Prop := match l with [] => True | b :: _ => b.2 = true end.

Lemma coalesced_cons b l :
  coalesced (b :: l) ↔ coalesced l ∧ (b.2 = true ∨ head_used l).
Proof. destruct l as [|c l]; simpl; naive_solver. Qed.

Lemma coalesced_app l1 l2 :
  coalesced (l1 ++ l2) ↔
  coalesced l1 ∧ coalesced l2 ∧ (head_used (rev l1) ∨ head_used l2).
Proof.
  induction l1 as [|b l1 IH]; [simpl; naive_solver|].
  cbn [app rev]. rewrite !coalesced_cons, IH. destruct l1 as [|c l1].
  - simpl. naive_solver.
  - assert (head_used (rev (c :: l1) ++ [b]) ↔ head_used (rev (c :: l1))) as ->.
    { simpl. by destruct (rev l1). }
    simpl. naive_solver.
Qed.

Lemma absorb_head bs l2 : head_used (absorb bs l2).2.
Proof. revert bs. induction l2 as [|[b2 [|]] l2 IH]; intros bs; simpl; auto. Qed.

Lemma absorb_used bs l2 : head_used l2 → absorb bs l2 = (bs, l2).
Proof. destruct l2 as [|[b2 []] l2]; simpl; naive_solver. Qed.

Lemma absorb_coalesced bs l2 : coalesced l2 → coalesced (absorb bs l2).2.
Proof.
  destruct (absorb_app bs l2) as (fr & E & _). rewrite E at 1. rewrite coalesced_app. tauto.
Qed.

Lemma merged_coalesced l1r : ∀ bs l2,
  coalesced (rev l1r) → coalesced l2 → coalesced (merged l1r bs l2).
Proof.
  induction l1r as [|[b1 [|]] l1r IH]; intros bs l2 H1 H2; cbn [merged].
  - cbn [rev app]. apply coalesced_cons. split; [by apply absorb_coalesced | right; apply absorb_head].
  - apply coalesced_app. split; [done|].
    rewrite coalesced_cons, rev_involutive. split_and!;
      [by apply absorb_coalesced | right; apply absorb_head | by left].
  - apply IH.
    + cbn [rev] in H1. by apply coalesced_app in H1 as [? _].
    + apply coalesced_cons. split; [by apply absorb_coalesced | right; apply absorb_head].
Qed.

(** ** Releasing a block *)

Lemma merge_blocks_spec s l1 bs l2 :
  heap_inv s (l1 ++ (bs, false) :: l2) →
  let x := heap_start s + tot l1 in
  ∃ m', merge_blocks x s = Ret (tt, with_mem m' s) ∧
    heap_inv (with_mem m' s) (merged (rev l1) bs l2) ∧
    live_kept (heap_start s) (l1 ++ (bs, false) :: l2) (hmem s) m'.
Proof.
  intros Hi x. unfold merge_blocks.
  edestruct (list_fuel_eq (A:=unit)) as (fuel & Hf & ->); [exact Hi|].
  rewrite length_app in Hf.
  pose proof (merge_loop_spec (rev l1) fuel s bs l2) as H. rewrite !rev_involutive, length_rev in H.
  apply H; [done | lia].
Qed.

Lemma kfree_spec s l1 n l2 :
  heap_inv s (l1 ++ (n, true) :: l2) →
  ∃ m', kfree (heap_start s + tot l1 + 20) s = Ret (tt, with_mem m' s) ∧
    heap_inv (with_mem m' s) (merged (rev l1) n l2) ∧
    live_kept (heap_start s) (merged (rev l1) n l2) (hmem s) m'.
Proof.
  intros Hi. set (x := heap_start s + tot l1). open_block Hi x. unfold kfree, sizeof_heap_block.
  rewrite (proj2 (Z.eqb_neq (x + 20) 0)) by lia.
  replace (u32 (x + 20 - 20)) with x by (rewrite u32_small; lia).
  rewrite (bind_Ret _ _ _ _ _ (get_magic_hdr _ _ _ _ _ _ Hh)), Z.eqb_refl. cbn [negb].
  rewrite (bind_Ret _ _ _ _ _ (get_allocated_hdr _ _ _ _ _ _ Hh)). cbn [negb].
  destruct (set_allocated_spec s l1 n true false l2 Hi) as (m1 & E1 & Hi1 & Hso1). fold x in E1, Hso1.
  rewrite (bind_Ret _ _ _ _ _ E1).
  destruct (merge_blocks_spec (with_mem m1 s) l1 n l2 Hi1) as (m2 & E2 & Hi2 & Hk2).
  exists m2. split_and!; [exact E2 | exact Hi2 |].
  cbn [heap_start with_mem hmem] in *. intros q k y Hin Hy.
  rewrite merged_live, rev_involutive in Hin.
  rewrite (Hk2 q k y) by done. apply Hso1. rewrite live_app in Hin.
  pose proof (seg_sizes_ok _ _ _ _ _ Hs1). pose proof (seg_sizes_ok _ _ _ _ _ Hs2).
  cbn [live fst snd app] in Hin. fold x in Hin.
  apply elem_of_app in Hin as [Hin|Hin]; apply live_range in Hin; (done || lia).
Qed.

Lemma kfree_live_block s l1 n l2 :
  heap_inv s (l1 ++ (n, true) :: l2) → coalesced (l1 ++ (n, true) :: l2) →
  let p := heap_start s + tot l1 + 20 in
  ∃ s' bl', kfree p s = Ret (tt, s') ∧ heap_inv s' bl' ∧ coalesced bl' ∧
    live (heap_start s) (l1 ++ (n, true) :: l2) ≡ₚ (p, n - 20) :: live (heap_start s) bl' ∧
    live_kept (heap_start s) bl' (hmem s) (hmem s').
Proof.
  intros Hi Hco p. destruct (kfree_spec s l1 n l2 Hi) as (m & E & Hi' & Hk).
  exists (with_mem m s), (merged (rev l1) n l2). split_and!; [exact E | exact Hi' | | | exact Hk].
  - apply coalesced_app in Hco as (? & Hco2 & _). apply coalesced_cons in Hco2 as [? _].
    apply merged_coalesced; [by rewrite rev_involutive | done].
  - rewrite merged_live, rev_involutive, !live_app. cbn [live fst snd app]. symmetry.
    apply Permutation_middle.
Qed.

(** C2: [kfree] releases exactly the block its argument was allocated from.
    The payloads of all other live blocks keep their place and their bytes,
    the heap stays well formed and no two free blocks become adjacent. *)
Theorem kfree_correct s l1 n l2 :
  heap_inv s (l1 ++ (n, true) :: l2) → coalesced (l1 ++ (n, true) :: l2) →
  let p := heap_start s + tot l1 + 20 in
  ∃ s' bl', kfree p s = Ret (tt, s') ∧ heap_inv s' bl' ∧ coalesced bl' ∧
    live (heap_start s) (l1 ++ (n, true) :: l2) ≡ₚ (p, n - 20) :: live (heap_start s) bl' ∧
    live_kept (heap_start s) bl' (hmem s) (hmem s').
Proof. apply kfree_live_block. Qed.

(** [kfree] rejects what it must not release: a null pointer, an address
    without the magic number in front of it, and a block that is already
    free (a double free).  The heap does not change. *)
Theorem kfree_rejects s bl :
  heap_inv s bl →
  kfree 0 s = Ret (tt, s) ∧
  (∀ l1 n l2, bl = l1 ++ (n, false) :: l2 →
     kfree (heap_start s + tot l1 + 20) s = Ret (tt, s)) ∧
  (∀ p, 20 < p < 2 ^ 32 → mapped (hmem s) (p - 20) 4 → word (hmem s) (p - 20) ≠ HEAP_MAGIC →
     kfree p s = Ret (tt, s)).
Proof.
  intros Hi. split_and!; [done | |].
  - intros l1 n l2 ->. set (x := heap_start s + tot l1). open_block Hi x.
    unfold kfree, sizeof_heap_block. rewrite (proj2 (Z.eqb_neq (x + 20) 0)) by lia.
    replace (u32 (x + 20 - 20)) with x by (rewrite u32_small; lia).
    rewrite (bind_Ret _ _ _ _ _ (get_magic_hdr _ _ _ _ _ _ Hh)), Z.eqb_refl. cbn [negb].
    by rewrite (bind_Ret _ _ _ _ _ (get_allocated_hdr _ _ _ _ _ _ Hh)).
  - intros p Hp Hm Hw. unfold kfree, sizeof_heap_block, get_magic.
    rewrite (proj2 (Z.eqb_neq p 0)) by lia. rewrite (u32_small (p - 20)) by lia. cbv zeta.
    rewrite bind_load by done. by rewrite (proj2 (Z.eqb_neq _ HEAP_MAGIC)) by done.
Qed.

End Spec.

(** ** Growing the heap *)

Section Grow.
Context {P : Type} `{!PageSource P} (frame_byte : Z → Z).
Implicit Types s : (heap (P:=P)).

Lemma lookup_add_page n virt phys (m : mem) y :
  add_page frame_byte n virt phys m !! y =
  if decide (virt ≤ y < virt + Z.of_nat n) then Some (u8 (frame_byte (phys + (y - virt)))) else m !! y.
Proof.
  induction n as [|n IH]; cbn [add_page]; [by rewrite decide_False by lia|].
  destruct (decide (y = virt + Z.of_nat n)) as [->|Hne].
  - rewrite lookup_insert_eq, decide_True by lia. do 3 f_equal. lia.
  - rewrite lookup_insert_ne, IH by done. by repeat case_decide; try lia.
Qed.

Lemma bytes_ok_add_page n virt phys m :
  bytes_ok m → bytes_ok (add_page frame_byte n virt phys m).
Proof. intros H. induction n as [|n IH]; cbn [add_page]; [done | by apply bytes_ok_insert]. Qed.

(** The pages behind the heap that have been mapped. *)
Definition backed (s : heap (P:=P)) (k : Z) : Prop := ∀ v, heap_end s ≤ v < heap_end s + k → ps_mapped (pages s) v.

(** [s'] is [s] with [k] more bytes mapped at the end of the heap. *)
Definition grown (k : Z) (s s' : heap (P:=P)) : Prop :=
  heap_start s' = heap_start s ∧ heap_end s' = heap_end s ∧ heap_max s' = heap_max s ∧
  heap_first s' = heap_first s ∧ ps_ok (pages s') ∧ bytes_ok (hmem s') ∧
  (∀ y, y < heap_end s → hmem s' !! y = hmem s !! y) ∧ mapped (hmem s') (heap_end s) k ∧
  (∀ v, ps_mapped (pages s) v → ps_mapped (pages s') v) ∧ backed s' k.

(** [q] is the state of the page source after [i] pages were taken for [v] on. *)
Inductive takes (v : Z) (p : P) : nat → P → Prop :=
  | takes_none : takes v p 0 p
  | takes_page i q q1 q2 a :
      takes v p i q → alloc_frame q = Ret (a, q1) → a ≠ 0 → map_page (v + Z.of_nat i * PAGE_SIZE) a q1 = Ret (tt, q2) → takes v p (S i) q2.

(** There is no frame for one of the next [k] pages. *)
Definition no_frame (v : Z) (p : P) (k : Z) : Prop := ∃ i q q', Z.of_nat i < k ∧ takes v p i q ∧ alloc_frame q = Ret (0, q').

Lemma expand_pages_spec p0 n : ∀ i s,
  0 < heap_end s → heap_end s mod PAGE_SIZE = 0 → 0 ≤ i →
  heap_end s + (i + Z.of_nat n) * PAGE_SIZE < 2 ^ 32 →
  (∀ v, heap_end s ≤ v < heap_end s + (i + Z.of_nat n) * PAGE_SIZE → ps_virt v) →
  ps_ok (pages s) → bytes_ok (hmem s) → mapped (hmem s) (heap_end s) (i * PAGE_SIZE) → backed s (i * PAGE_SIZE) →
  takes (heap_end s) p0 (Z.to_nat i) (pages s) →
  expand_pages frame_byte n i s = Panic ∨
  ∃ b s', expand_pages frame_byte n i s = Ret (b, s') ∧ (b = false → no_frame (heap_end s) p0 (i + Z.of_nat n)) ∧
    grown (if b : bool then (i + Z.of_nat n) * PAGE_SIZE else i * PAGE_SIZE) s s'.
Proof.
  induction n as [|n IH]; intros i s Hpos Hal Hi Hfit Hv Hps Hb Hm Hbk Htk.
  - right. exists true, s. split; [done|]. split; [done|]. rewrite Z.add_0_r. by split_and!.
  - cbn [expand_pages]. destruct (alloc_frame_ok (pages s) Hps) as (a & p1 & Ea & Hp1 & Har & Hma).
    rewrite (bind_Ret (hp alloc_frame) _ s a (with_pages p1 s))
      by (unfold hp; by rewrite (zoom_Ret _ _ _ _ a p1)).
    destruct (Z.eqb_spec a 0) as [->|Ha].
    { right. exists false, (with_pages p1 s). split; [done|]. split; [intros _; exists (Z.to_nat i), (pages s), p1; split_and!; [lia | done | done]|].
      split_and!; try done. intros v Hr. by apply Hma, Hbk. }
    rewrite (bind_Ret get _ _ _ _ eq_refl). cbn [heap_end with_pages].
    unfold PAGE_SIZE in *. rewrite (u32_small (heap_end s + i * 4096)) by lia. cbv zeta.
    replace ((heap_end s + i * 4096) / 4096 * 4096) with (heap_end s + i * 4096) by dlia.
    destruct (map_page_ok p1 (heap_end s + i * 4096) a Hp1 ltac:(apply Hv; lia) Har) as [Em|(p2 & Em & Hp2 & Hmm)].
    { left. unfold mbind at 1, M_bind at 1, hp, zoom. cbn [pages with_pages]. by rewrite Em. }
    rewrite (bind_Ret (hp (map_page _ a)) _ (with_pages p1 s) tt (with_pages p2 s))
      by (unfold hp; by rewrite (zoom_Ret _ _ _ _ tt p2)).
    set (m1 := add_page frame_byte (Z.to_nat 4096) (heap_end s + i * 4096) a (hmem s)).
    rewrite bind_modify. cbn [hmem with_pages]. fold m1.
    destruct (IH (i + 1) (with_mem m1 (with_pages p2 s))) as [Ep|(b & s' & Es & Hnf & Hg)];
      cbn [heap_end hmem pages with_mem with_pages]; try done; try lia.
    + intros v Hr. apply Hv. lia.
    + apply bytes_ok_add_page, Hb.
    + intros y Hy. unfold m1. rewrite lookup_add_page. case_decide; [eauto|]. apply Hm. lia.
    + intros v Hr. cbn [heap_end pages with_mem with_pages] in *. apply Hmm. destruct (decide (v < heap_end s + i * 4096)); [left; apply Hma, Hbk; lia | right; unfold PAGE_SIZE; dlia].
    + replace (Z.to_nat (i + 1)) with (S (Z.to_nat i)) by lia. eapply takes_page; [exact Htk | exact Ea | done|]. unfold PAGE_SIZE. by rewrite Z2Nat.id.
    + by left.
    + right. exists b, s'. split; [done|]. split; [replace (i + Z.of_nat (S n)) with (i + 1 + Z.of_nat n) by lia; exact Hnf|]. destruct Hg as (G1 & G2 & G3 & G4 & G5 & G6 & G7 & G8 & G9 & G10).
      cbn [heap_start heap_end heap_max heap_first hmem with_mem with_pages] in *.
      split_and!; try done.
      * intros y Hy. rewrite G7 by done. unfold m1. rewrite lookup_add_page.
        by rewrite decide_False by lia.
      * destruct b; [|eapply mapped_sub; [exact G8 | lia | lia]].
        by replace (i + Z.of_nat (S n)) with (i + 1 + Z.of_nat n) by lia.
      * intros v Hr. apply G9. cbn. apply Hmm. left. by apply Hma.
      * intros v Hr. apply G10. destruct b; lia.
Qed.

Lemma align_up_eq k x :
  0 ≤ k ≤ 31 → 0 ≤ x → x + 2 ^ k - 1 < 2 ^ 32 →
  ALIGN_UP x (2 ^ k) = (x + 2 ^ k - 1) / 2 ^ k * 2 ^ k.
Proof.
  intros Hk Hx Hb. assert (0 < 2 ^ k) by (apply Z.pow_pos_nonneg; lia).
  unfold ALIGN_UP. rewrite (u32_small (x + 2 ^ k - 1)) by lia. apply land_align; lia.
Qed.

Lemma last_block_spec l : ∀ fuel s pv a,
  seg (hmem s) pv a l 0 → l ≠ [] → 0 < a → (length l < fuel)%nat →
  last_block fuel a s = Ret (last_addr pv a l, s).
Proof.
  induction l as [|b l IH]; intros [|fuel] s pv a Hs Hne Ha Hf; simpl in Hf; try lia; [done|].
  cbn [last_block last_addr]. simpl in Hs. destruct Hs as (Hb & Hh & Hl).
  rewrite (bind_Ret _ _ _ _ _ (get_next_hdr _ _ _ _ _ _ Hh)). destruct l as [|c l]; [done|].
  rewrite (proj2 (Z.eqb_neq (a + b.1) 0)) by lia. apply (IH fuel s a); (done || lia).
Qed.

(** More mapped bytes behind the heap do not concern its blocks. *)
Lemma grown_inv k s s' bl :
  heap_inv s bl → grown k s s' → heap_inv s' bl ∧ live_kept (heap_start s) bl (hmem s) (hmem s').
Proof.
  intros Hi (G1 & G2 & G3 & G4 & G5 & G6 & G7 & G8 & G9 & _). destruct (Hi) as [H1 H2 H3 H4 H5 H6 H7 H8 H9 H10 H11].
  split.
  - split; rewrite ?G1, ?G2, ?G3, ?G4; try done.
    + intros y Hy. rewrite G7 by lia. apply H5. lia.
    + eapply seg_ext; [done|]. intros y Hy. apply G7. lia.
    + intros v Hr. by apply G9, H11.
  - intros p k' y Hin Hy. apply G7. apply live_range in Hin; [lia|]. by eapply seg_sizes_ok.
Qed.

(** The header of the new block, stored behind the heap. *)
Lemma new_header_spec s bl sz k :
  heap_inv s bl → mapped (hmem s) (heap_end s) k → 20 ≤ k → 0 ≤ sz < 2 ^ 32 →
  let b := heap_end s in
  ∃ m', (∀ A (c : M heap A),
      (_ ← set_magic b HEAP_MAGIC; _ ← set_size b sz; _ ← set_allocated b false;
       _ ← set_next b 0; _ ← set_prev b 0; c) s = c (with_mem m' s)) ∧
    hdr m' b sz false 0 0 ∧ same_outside b 20 (hmem s) m' ∧ bytes_ok m' ∧
    (∀ a n, mapped (hmem s) a n → mapped m' a n).
Proof.
  intros Hi Hm Hk Hsz b. unfold set_magic, set_size, set_allocated, set_next, set_prev.
  assert (0 ≤ HEAP_MAGIC < 2 ^ 32) by (unfold HEAP_MAGIC; lia). fold b in Hm.
  eexists. split_and!.
  - intros A c. repeat hstep Hm. reflexivity.
  - split; hword; try done. repeat apply mapped_write32. eapply mapped_sub; [exact Hm | lia | lia].
  - intros y Hy. hbyte.
  - repeat apply bytes_ok_write32; apply Hi.
  - intros. by repeat apply mapped_write32.
Qed.

(** The end of [expand_heap]: the new block joins the list. *)
Definition link_block (first e sz : Z) : M (heap (P:=P)) Z :=
  _ ← (if first =? 0 then modify (with_first e)
       else
         fuel ← list_fuel;
         last ← last_block fuel first;
         _ ← set_next last e;
         set_prev e last);
  _ ← modify (with_end (u32 (e + sz)));
  mret e.

Lemma extend_inv s bl sz m' :
  heap_inv s bl → 0 ≤ sz → sz mod PAGE_SIZE = 0 → heap_end s + sz ≤ heap_max s →
  (∀ a n, mapped (hmem s) a n → mapped m' a n) → mapped m' (heap_end s) sz → bytes_ok m' → backed s sz →
  seg m' 0 (heap_start s) (bl ++ [(sz, false)]) 0 →
  heap_inv {| hmem := m'; pages := pages s; heap_start := heap_start s;
              heap_end := heap_end s + sz; heap_max := heap_max s;
              heap_first := heap_start s |} (bl ++ [(sz, false)]).
Proof.
  intros Hi Hsz Hal Hmax Hm Hme Hb Hbk Hs. destruct (Hi) as [H1 H2 H3 [H4 H4'] H5 H6 H7 H8 H9 H10 H11].
  pose proof (tot_nonneg _ _ _ _ _ H7) as Ht.
  split; simpl; try done; rewrite ?tot_app; simpl; try lia.
  - split; [done|]. unfold PAGE_SIZE in *. dlia.
  - rewrite Z.add_0_r. apply mapped_app; [done | by apply Hm |]. by rewrite <- H2.
  - by destruct bl.
  - intros v Hr. destruct (decide (v < heap_end s)); [apply H11 | apply Hbk]; lia.
Qed.

Lemma link_empty s sz :
  heap_inv s [] → hdr (hmem s) (heap_end s) sz false 0 0 → 20 ≤ sz →
  mapped (hmem s) (heap_end s) sz → sz mod PAGE_SIZE = 0 → heap_end s + sz ≤ heap_max s → backed s sz →
  ∃ s', link_block (heap_first s) (heap_end s) sz s = Ret (heap_end s, s') ∧
    heap_inv s' [(sz, false)] ∧ heap_start s' = heap_start s.
Proof.
  intros Hi Hh Hsz Hme Hal Hmax Hbk. destruct (Hi) as [H1 H2 H3 _ _ H6 _ H8 _]. simpl in H2, H8.
  rewrite Z.add_0_r in H2. unfold link_block. rewrite (u32_small (_ + _)) by lia.
  rewrite H8. cbn [Z.eqb]. rewrite !bind_modify, H2. eexists. split; [reflexivity|].
  split; [|done]. rewrite H2 in *. rewrite <- H2 at 1.
  apply (extend_inv s [] sz (hmem s)); rewrite ?H2; try done. lia.
Qed.

Lemma link_last s bl bs al sz :
  heap_inv s (bl ++ [(bs, al)]) → hdr (hmem s) (heap_end s) sz false 0 0 → 20 ≤ sz →
  mapped (hmem s) (heap_end s) sz → sz mod PAGE_SIZE = 0 → heap_end s + sz ≤ heap_max s → backed s sz →
  ∃ s', link_block (heap_first s) (heap_end s) sz s = Ret (heap_end s, s') ∧
    heap_inv s' ((bl ++ [(bs, al)]) ++ [(sz, false)]) ∧ heap_start s' = heap_start s ∧
    live_kept (heap_start s) (bl ++ [(bs, al)]) (hmem s) (hmem s').
Proof.
  intros Hi Hnew Hsz Hme Hal Hmax Hbk. set (x := heap_start s + tot bl). open_block Hi x.
  cbn [tot] in *. set (e := heap_end s) in *.
  assert (mapped (hmem s) (heap_start s) (tot bl + bs + sz)) as Hma.
  { apply mapped_app; [lia | by rewrite Z.add_0_r in Hm |].
    by replace (heap_start s + (tot bl + bs)) with e by lia. }
  pose proof (hi_max _ _ Hi). unfold link_block. rewrite (u32_small (e + sz)) by lia.
  assert (heap_first s = heap_start s) as Hfirst by (rewrite (hi_first _ _ Hi); by destruct bl).
  rewrite Hfirst.
  rewrite (proj2 (Z.eqb_neq (heap_start s) 0)) by lia.
  assert (last_addr 0 (heap_start s) (bl ++ [(bs, al)]) = x) as Hlast by apply last_addr_app.
  set (m' := write32 (write32 (hmem s) (x + 12) e) (e + 16) x).
  erewrite (bind_Ret _ _ s tt (with_mem m' s)).
  2:{ edestruct (list_fuel_eq (A:=unit)) as (fuel & Hf & ->); [exact Hi|].
      rewrite (bind_Ret _ _ _ _ _ (last_block_spec (bl ++ [(bs, al)]) fuel s 0 (heap_start s)
        (hi_seg _ _ Hi) ltac:(by destruct bl) ltac:(lia) Hf)).
      rewrite Hlast. unfold set_next, set_prev. repeat hstep Hma. done. }
  rewrite bind_modify. eexists. split; [reflexivity|]. split_and!; [|done|].
  - unfold with_end, with_mem. cbn [hmem pages heap_start heap_end heap_max heap_first].
    rewrite Hfirst. apply (extend_inv s (bl ++ [(bs, al)]) sz m'); try done; [lia | | | |].
    + intros. by repeat apply mapped_write32.
    + by repeat apply mapped_write32.
    + repeat apply bytes_ok_write32; apply Hi.
    + rewrite <- app_assoc. cbn [app]. apply seg_zip. fold x. cbn [fst snd].
      replace (x + bs) with e by lia. destruct Hh, Hnew. split_and!; [|done| |].
      * eapply seg_ext; [done|]. intros y Hy. unfold m'. hbyte.
      * split; unfold m'; hword; try done; by repeat apply mapped_write32.
      * cbn [seg fst snd]. split_and!; [done | | done].
        split; unfold m'; hword; try done; by repeat apply mapped_write32.
  - intros p k y Hin Hy. cbn [hmem with_end with_mem]. unfold m'.
    pose proof (seg_sizes_ok _ _ _ _ _ Hs1). rewrite live_app in Hin.
    apply elem_of_app in Hin as [Hin|Hin]; [apply live_range in Hin; [hbyte | done]|].
    fold x in Hin. destruct al; simpl in Hin; [|set_solver].
    apply list_elem_of_singleton in Hin as [= -> ->]. hbyte.
Qed.

(** The new block, from its header to its link. *)
Lemma new_block_linked s bl sz :
  heap_inv s bl → mapped (hmem s) (heap_end s) sz → 20 ≤ sz → sz mod PAGE_SIZE = 0 →
  heap_end s + sz ≤ heap_max s → backed s sz →
  let b := heap_end s in
  ∃ s', (_ ← set_magic b HEAP_MAGIC; _ ← set_size b sz; _ ← set_allocated b false;
         _ ← set_next b 0; _ ← set_prev b 0; link_block (heap_first s) b sz) s = Ret (b, s') ∧
    heap_inv s' (bl ++ [(sz, false)]) ∧ heap_start s' = heap_start s ∧
    live_kept (heap_start s) bl (hmem s) (hmem s').
Proof.
  intros Hi Hm Hsz Hal Hmax Hbk b. pose proof (hi_max _ _ Hi). pose proof (hi_start _ _ Hi).
  pose proof (hi_end _ _ Hi). pose proof (tot_nonneg _ _ _ _ _ (hi_seg _ _ Hi)).
  destruct (new_header_spec s bl sz sz Hi Hm Hsz ltac:(lia)) as (m & E & Hh & Hso & Hb & Hmm).
  rewrite E. fold b in Hh, Hso.
  assert (heap_inv (with_mem m s) bl ∧ live_kept (heap_start s) bl (hmem s) m) as [Hi1 Hk1].
  { apply (grown_inv sz s (with_mem m s) bl Hi). split_and!; try done; [apply Hi | | by apply Hmm].
    intros y Hy. apply Hso. unfold b. lia. }
  change (heap_first s) with (heap_first (with_mem m s)).
  change b with (heap_end (with_mem m s)) in *.
  destruct bl as [|[bs al] bl _] using rev_ind.
  - destruct (link_empty (with_mem m s) sz) as (s' & E' & Hi' & Hst); try done; [by apply Hmm|].
    exists s'. split_and!; try done. intros p k y Hin. by apply elem_of_nil in Hin.
  - destruct (link_last (with_mem m s) bl bs al sz) as (s' & E' & Hi' & Hst & Hk'); try done; [by apply Hmm|].
    exists s'. split_and!; try done. eapply live_kept_trans; [done | exact Hk1 | exact Hk'].
Qed.

(** Growing the heap by a block for [n] bytes: out of room or frames it leaves
    the blocks alone, otherwise a free block of at least [n + 20] bytes is
    appended. *)
(** The bytes that the heap grows by for a block of [n] bytes, and when it cannot. *)
Definition growth (n : Z) : Z := (n + 20 + PAGE_SIZE - 1) / PAGE_SIZE * PAGE_SIZE.
Definition cannot_grow (s : heap (P:=P)) (n : Z) : Prop :=
  heap_max s < heap_end s + growth n ∨ no_frame (heap_end s) (pages s) (growth n / PAGE_SIZE).

Lemma expand_heap_spec s bl n :
  heap_inv s bl → 0 ≤ n ≤ HEAP_MAX_SIZE →
  expand_heap frame_byte n s = Panic ∨
  ∃ r s', expand_heap frame_byte n s = Ret (r, s') ∧ heap_start s' = heap_start s ∧
    live_kept (heap_start s) bl (hmem s) (hmem s') ∧
    ((r = 0 ∧ cannot_grow s n ∧ heap_inv s' bl) ∨
     (∃ sz, r = heap_end s ∧ n + 20 ≤ sz ∧ heap_inv s' (bl ++ [(sz, false)]))).
Proof.
  intros Hi Hn. remember (expand_heap frame_byte n s) as res eqn:Er.
  unfold expand_heap, sizeof_heap_block in Er.
  rewrite (u32_small (n + 20)) in Er by lia. change PAGE_SIZE with (2 ^ 12) in Er.
  rewrite (align_up_eq 12) in Er by lia. set (sz := (n + 20 + 2 ^ 12 - 1) / 2 ^ 12 * 2 ^ 12) in Er.
  assert (n + 20 ≤ sz ∧ sz mod 4096 = 0 ∧ sz ≤ 2 ^ 20 + 8192) as (Hsz & Hmod & Hsz') by (unfold sz; dlia).
  destruct (Hi) as [H1 H2 H3 [_ H4] _ H6 H7 _ H9]. pose proof (tot_nonneg _ _ _ _ _ H7).
  cbv zeta in Er. rewrite bind_get in Er. rewrite (u32_small (heap_end s + sz)) in Er by lia.
  destruct (Z.ltb_spec (heap_max s) (heap_end s + sz)).
  { right. exists 0, s. split_and!; try done. left. split_and!; [done | by left | done]. }
  destruct (expand_pages_spec (pages s) (Z.to_nat (sz / 2 ^ 12)) 0 s) as [Ep|(b & s1 & E1 & Hnf & Hg)];
    try done; try (unfold PAGE_SIZE; dlia).
  { unfold PAGE_SIZE. intros v Hv. apply (hi_virt _ _ Hi). dlia. }
  { unfold PAGE_SIZE. intros y Hy. lia. }
  { unfold PAGE_SIZE. intros y Hy. lia. }
  { constructor. }
  { left. rewrite Er. unfold mbind, M_bind. by rewrite Ep. }
  rewrite (bind_Ret _ _ _ _ _ E1) in Er. right.
  destruct (grown_inv _ _ _ _ Hi Hg) as [Hi1 Hk1]. destruct Hg as (G1 & G2 & G3 & G4 & _ & _ & _ & G8 & _ & G10).
  destruct b; cbn [negb] in Er.
  2:{ exists 0, s1. split_and!; try done. left. split_and!; [done | right | done]. specialize (Hnf eq_refl).
      rewrite Z2Nat.id in Hnf by dlia. exact Hnf. }
  assert (mapped (hmem s1) (heap_end s1) sz) as Hme.
  { rewrite G2. eapply mapped_sub; [exact G8 | lia | unfold PAGE_SIZE; dlia]. }
  assert (backed s1 sz) as Hbk by (intros v Hr; apply G10; unfold PAGE_SIZE; dlia).
  destruct (new_block_linked s1 bl sz Hi1 Hme ltac:(lia) Hmod ltac:(lia) Hbk) as (s2 & E2 & Hi2 & Hst2 & Hk2).
  exists (heap_end s), s2. rewrite G1 in *. rewrite G2, G4 in E2. split_and!; [| done | |].
  - rewrite Er, <- E2. unfold link_block. rewrite (u32_small (heap_end s + sz)) by lia. done.
  - eapply live_kept_trans; [done | exact Hk1 | exact Hk2].
  - right. exists sz. done.
Qed.

(** ** Allocation *)

(** The size of the block that serves a request for [n] bytes. *)
Definition request (n : Z) : Z := u32 (ALIGN_UP n 8 + sizeof_heap_block).

(** Without overflow: [n] rounded up to a multiple of 8, and the header. *)
Definition need (n : Z) : Z := (n + 7) / 8 * 8 + 20.

Lemma request_need n : 1 ≤ n ≤ 2 ^ 32 - 32 → request n = need n.
Proof.
  intros Hn. unfold request, need, sizeof_heap_block.
  pose proof (align_up_eq 3 n ltac:(lia) ltac:(lia) ltac:(lia)) as E. change (2 ^ 3) with 8 in E. rewrite E.
  replace (n + 8 - 1) with (n + 7) by lia. apply u32_small. dlia.
Qed.

Lemma request_bounds n :
  1 ≤ n ≤ 2 ^ 32 - 32 → 20 ≤ request n ∧ (request n ≤ HEAP_MAX_SIZE → n + 20 ≤ request n).
Proof.
  intros Hn. unfold request, sizeof_heap_block.
  pose proof (align_up_eq 3 n ltac:(lia) ltac:(lia) ltac:(lia)) as E. change (2 ^ 3) with 8 in E.
  rewrite E. rewrite u32_small by dlia. dlia.
Qed.

(** A block that is taken for a request: kept whole or split. *)
Definition taken (bs n : Z) : list block :=
  if bs <? n + 36 then [(bs, true)] else [(n, true); (bs - n, false)].

Lemma live_taken a bs n :
  n ≤ bs → ∃ k, n - 20 ≤ k ∧ k + 20 ≤ bs ∧ live a (taken bs n) = [(a + 20, k)].
Proof.
  intros Hn. unfold taken. destruct (Z.ltb_spec bs (n + 36)); simpl.
  - exists (bs - 20). split_and!; [lia | lia | done].
  - exists (n - 20). split_and!; [lia | lia | done].
Qed.

Lemma tot_taken bs n : tot (taken bs n) = bs.
Proof. unfold taken. destruct (bs <? n + 36); simpl; lia. Qed.

(** The branch of [kmalloc] that reuses a free block. *)
Lemma take_block_spec s l1 bs l2 n :
  heap_inv s (l1 ++ (bs, false) :: l2) → 20 ≤ n ≤ bs →
  let x := heap_start s + tot l1 in
  ∃ m', (_ ← set_allocated x true; _ ← split_block x n; mret (u32 (x + sizeof_heap_block))) s =
          Ret (x + 20, with_mem m' s) ∧
    heap_inv (with_mem m' s) (l1 ++ taken bs n ++ l2) ∧
    live_kept (heap_start s) (l1 ++ (bs, false) :: l2) (hmem s) m'.
Proof.
  intros Hi Hn x. open_block Hi x.
  destruct (set_allocated_spec s l1 bs false true l2 Hi) as (m1 & E1 & Hi1 & Hso1).
  destruct (split_block_spec (with_mem m1 s) l1 bs true l2 n Hi1 Hn) as (m2 & E2 & Hi2 & Hso2).
  cbn [heap_start with_mem] in *. fold x in E1, E2, Hso1, Hso2.
  exists m2. split_and!; [| exact Hi2 |].
  - rewrite (bind_Ret _ _ _ _ _ E1), (bind_Ret _ _ _ _ _ E2). unfold sizeof_heap_block.
    rewrite u32_small by lia. done.
  - change ((bs, false) :: l2) with ([(bs, false)] ++ l2).
    apply live_kept_middle; [eapply seg_sizes_ok, (hi_seg _ _ Hi) | done |].
    fold x. simpl. intros y Hy. rewrite Hso2 by lia. apply Hso1. lia.
Qed.

(** [kmalloc] with the search resolved. *)
Lemma kmalloc_search s bl n :
  heap_inv s bl → n ≠ 0 → request n ≤ HEAP_MAX_SIZE →
  kmalloc frame_byte n s =
  (if negb (first_fit (heap_start s) bl (request n) =? 0) then
     _ ← set_allocated (first_fit (heap_start s) bl (request n)) true;
     _ ← split_block (first_fit (heap_start s) bl (request n)) (request n);
     mret (u32 (first_fit (heap_start s) bl (request n) + sizeof_heap_block))
   else
     block ← expand_heap frame_byte (request n);
     if negb (block =? 0) then
       _ ← set_allocated block true;
       mret (u32 (block + sizeof_heap_block))
     else mret 0) s.
Proof.
  intros Hi Hn Hreq. unfold kmalloc. rewrite (proj2 (Z.eqb_neq n 0)) by done.
  fold (request n). rewrite (proj2 (Z.ltb_ge HEAP_MAX_SIZE (request n))) by done. cbv zeta.
  rewrite bind_get. edestruct (list_fuel_eq (A:=Z)) as (fuel & Hf & ->); [exact Hi|].
  pose proof (find_block_spec (request n) bl fuel s 0 (heap_start s) (hi_seg _ _ Hi)
    (hi_start _ _ Hi) Hf) as E. rewrite <- (hi_first _ _ Hi) in E.
  by rewrite (bind_Ret _ _ _ _ _ E).
Qed.

(** When a free block fits, the first one is used and no page is requested. *)
Lemma kmalloc_reuse s l1 bs l2 n :
  heap_inv s (l1 ++ (bs, false) :: l2) → n ≠ 0 → 20 ≤ request n ≤ HEAP_MAX_SIZE → request n ≤ bs →
  Forall (λ c, ¬ fits (request n) c) l1 →
  ∃ m', kmalloc frame_byte n s = Ret (heap_start s + tot l1 + 20, with_mem m' s) ∧
    heap_inv (with_mem m' s) (l1 ++ taken bs (request n) ++ l2) ∧
    live_kept (heap_start s) (l1 ++ (bs, false) :: l2) (hmem s) m'.
Proof.
  intros Hi Hn Hreq Hfit Hno. rewrite (kmalloc_search s _ n Hi) by (done || lia).
  assert (∀ l a, Forall (λ c, ¬ fits (request n) c) l →
    first_fit a (l ++ (bs, false) :: l2) (request n) = a + tot l) as Hff.
  { induction l as [|b l IH]; intros a Hl; simpl.
    - rewrite (proj2 (Z.leb_le _ _)) by done. lia.
    - apply Forall_cons in Hl as [Hb Hl]. rewrite IH by done.
      unfold fits in Hb. destruct (b.2), (Z.leb_spec (request n) b.1); simpl; try lia; naive_solver. }
  rewrite !Hff by done. set (x := heap_start s + tot l1). open_block Hi x.
  rewrite (proj2 (Z.eqb_neq x 0)) by lia. cbn [negb].
  apply take_block_spec; [done | lia].
Qed.

(** The payload [(p, k)] overlaps no payload of [bl]. *)
Definition fresh (a : Z) (bl : list block) (p k : Z) : Prop :=
  ∀ q j, (q, j) ∈ live a bl → q + j ≤ p ∨ p + k ≤ q.

(** A block added between [l1] and [l2] is fresh for both. *)
Lemma fresh_middle a l1 b l2 p k :
  sizes_ok l1 → sizes_ok l2 → b.2 = false → a + tot l1 ≤ p → p + k ≤ a + tot l1 + b.1 + 20 →
  fresh a (l1 ++ b :: l2) p k.
Proof.
  intros H1 H2 Hb Hp Hk q j Hin. rewrite live_app in Hin. simpl in Hin. rewrite Hb in Hin.
  simpl in Hin. apply elem_of_app in Hin as [Hin|Hin]; apply live_range in Hin; try done; lia.
Qed.

Lemma taken_coalesced l1 bs l2 n :
  coalesced (l1 ++ (bs, false) :: l2) → coalesced (l1 ++ taken bs n ++ l2).
Proof.
  intros (H1 & [H2 H3]%coalesced_cons & _)%coalesced_app. apply coalesced_app.
  unfold taken. destruct (bs <? n + 36); cbn [app]; rewrite !coalesced_cons; cbn [snd] in *.
  - split_and!; [done | done | by left | by right].
  - destruct H3 as [|H3]; [done|]. split_and!; [done | done | by right | by left | by right].
Qed.

Lemma coalesced_snoc_used l n : coalesced l → coalesced (l ++ [(n, true)]).
Proof. intros H. apply coalesced_app. split_and!; [done | done | by right]. Qed.

Lemma kmalloc_grow s bl n :
  heap_inv s bl → 1 ≤ n ≤ 2 ^ 32 - 32 → request n ≤ HEAP_MAX_SIZE →
  Forall (λ c, ¬ fits (request n) c) bl →
  kmalloc frame_byte n s = Panic ∨
  ∃ p s', kmalloc frame_byte n s = Ret (p, s') ∧ heap_start s' = heap_start s ∧
    live_kept (heap_start s) bl (hmem s) (hmem s') ∧
    ((p = 0 ∧ cannot_grow s (request n) ∧ heap_inv s' bl) ∨
     (∃ sz, p = heap_start s + tot bl + 20 ∧ request n ≤ sz ∧ heap_inv s' (bl ++ [(sz, true)]))).
Proof.
  intros Hi Hn Hreq Hno. destruct (request_bounds n Hn) as [Hlow _].
  rewrite (kmalloc_search s bl n Hi) by (done || lia).
  destruct (first_fit_cases (heap_start s) bl (request n)) as [(l1 & b & l2 & -> & _ & Hf & _)|[-> _]].
  { apply Forall_app in Hno as [_ Hno]. apply Forall_cons in Hno as [Hno _]. done. }
  cbn [Z.eqb negb].
  destruct (expand_heap_spec s bl (request n) Hi ltac:(lia)) as [Ep|(r & s1 & E1 & Hst1 & Hk1 & Hr)].
  { left. unfold mbind, M_bind. by rewrite Ep. }
  right. rewrite (bind_Ret _ _ _ _ _ E1). destruct Hr as [(-> & Hcg & Hi1)|(sz & -> & Hsz & Hi1)].
  { exists 0, s1. split_and!; try done. by left. }
  destruct (Hi) as [H1 H2 H3 _ _ _ H7 _ _]. apply tot_nonneg in H7 as Ht.
  rewrite (proj2 (Z.eqb_neq (heap_end s) 0)) by lia. cbn [negb].
  destruct (set_allocated_spec s1 bl sz false true [] Hi1) as (m2 & E2 & Hi2 & Hso2).
  rewrite Hst1, <- H2 in E2, Hso2. rewrite (bind_Ret _ _ _ _ _ E2).
  unfold sizeof_heap_block. rewrite (u32_small (heap_end s + 20)) by lia.
  exists (heap_end s + 20), (with_mem m2 s1). split_and!; [done | done | |].
  - eapply live_kept_trans; [done | exact Hk1 |]. intros p k y Hin Hy. apply Hso2.
    apply live_range in Hin; [lia | by eapply seg_sizes_ok].
  - right. exists sz. split_and!; [by rewrite H2 | lia | done].
Qed.

(** No free block is large enough for [n] bytes. *)
Definition no_room (bl : list block) (n : Z) : Prop := Forall (λ b, ¬ fits (need n) b) bl.

Lemma kmalloc_spec s bl n :
  heap_inv s bl → coalesced bl → 1 ≤ n ≤ 2 ^ 32 - 32 →
  (kmalloc frame_byte n s = Panic ∧ no_room bl n) ∨
  ∃ p s' bl', kmalloc frame_byte n s = Ret (p, s') ∧
    heap_inv s' bl' ∧ coalesced bl' ∧ heap_start s' = heap_start s ∧
    live_kept (heap_start s) bl (hmem s) (hmem s') ∧
    ((p = 0 ∧ bl' = bl ∧ (HEAP_MAX_SIZE < need n ∨ no_room bl n ∧ cannot_grow s (need n))) ∨
     (∃ k, p ≠ 0 ∧ n ≤ k ∧ fresh (heap_start s) bl p k ∧
           live (heap_start s) bl' ≡ₚ (p, k) :: live (heap_start s) bl)).
Proof.
  intros Hi Hco Hn. destruct (request_bounds n Hn) as [Hlow Hbig]. unfold no_room. rewrite <- (request_need n Hn).
  destruct (decide (request n ≤ HEAP_MAX_SIZE)) as [Hreq|Hreq].
  2:{ right. exists 0, s, bl. split_and!; try done; [|left; split_and!; [done | done | left; lia]].
      unfold kmalloc. rewrite (proj2 (Z.eqb_neq n 0)) by lia. fold (request n).
      rewrite (proj2 (Z.ltb_lt HEAP_MAX_SIZE (request n))) by lia. done. }
  pose proof (hi_start _ _ Hi). pose proof (seg_sizes_ok _ _ _ _ _ (hi_seg _ _ Hi)) as Hok.
  destruct (first_fit_cases (heap_start s) bl (request n))
    as [(l1 & [bs al] & l2 & -> & _ & [Hal Hfit] & Hno)|[_ Hno]].
  - cbn [fst snd] in *. subst al. right.
    destruct (kmalloc_reuse s l1 bs l2 n) as (m' & E & Hi' & Hk); try done; try lia.
    apply Forall_app in Hok as [Hok1 [Hb Hok2]%Forall_cons]. cbn [fst] in Hb.
    pose proof (sizes_ok_tot l1 Hok1).
    destruct (live_taken (heap_start s + tot l1) bs (request n) Hfit) as (k & Hk1 & Hk2 & Hl).
    eexists _, _, (l1 ++ taken bs (request n) ++ l2).
    split_and!; [exact E | done | by apply taken_coalesced | done | done |].
    right. exists k. split_and!; [lia | lia | |].
    + apply fresh_middle; cbn [fst snd]; (done || lia).
    + rewrite !live_app, Hl, tot_taken. cbn [live fst snd app]. symmetry. apply Permutation_middle.
  - pose proof (sizes_ok_tot bl Hok).
    destruct (kmalloc_grow s bl n Hi Hn Hreq Hno) as [Ep|(p & s' & E & Hst & Hk & Hr)]; [by left; split|].
    right. destruct Hr as [(-> & Hcg & Hi')|(sz & -> & Hsz & Hi')].
    + exists 0, s', bl. split_and!; try done. left. split_and!; [done | done | by right].
    + eexists _, s', (bl ++ [(sz, true)]).
      split_and!; [exact E | done | by apply coalesced_snoc_used | done | done |].
      right. exists (sz - 20). split_and!; [lia | lia | |].
      * intros q j Hin. left. apply live_range in Hin; [lia | done].
      * rewrite live_app. simpl. symmetry. apply Permutation_cons_append.
Qed.

(** C1: [kmalloc] hands out memory of its own.  For every request of 1 to [2^32 - 32]
    bytes and every well-formed heap the heap stays well formed and coalesced, and the
    bytes of every live block stay as they are.  A result other than null is the address
    of at least [n] bytes that overlap no live block and now are one more live block.
    The result is null only if the request exceeds the limit of 1 MB or no free block is
    large enough and the heap cannot grow, because it would exceed its end or a page gets
    no frame; the panic of the page allocator is reached only if no free block is large
    enough.  Then the live blocks are as before.  (Larger requests wrap around:
    [kmalloc_overflow_corrupts].) *)
Theorem kmalloc_correct s bl n :
  heap_inv s bl → coalesced bl → 1 ≤ n ≤ 2 ^ 32 - 32 →
  (kmalloc frame_byte n s = Panic ∧ no_room bl n) ∨
  ∃ p s' bl', kmalloc frame_byte n s = Ret (p, s') ∧
    heap_inv s' bl' ∧ coalesced bl' ∧ heap_start s' = heap_start s ∧
    live_kept (heap_start s) bl (hmem s) (hmem s') ∧
    ((p = 0 ∧ bl' = bl ∧ (HEAP_MAX_SIZE < need n ∨ no_room bl n ∧ cannot_grow s (need n))) ∨
     (∃ k, p ≠ 0 ∧ n ≤ k ∧ fresh (heap_start s) bl p k ∧
           live (heap_start s) bl' ≡ₚ (p, k) :: live (heap_start s) bl)).
Proof. apply kmalloc_spec. Qed.

(** Releasing the part that was taken from a free block restores the block. *)
Lemma merged_taken l1 bs l2 n :
  coalesced (l1 ++ (bs, false) :: l2) →
  ∃ n' l2', taken bs n ++ l2 = (n', true) :: l2' ∧ merged (rev l1) n' l2' = l1 ++ (bs, false) :: l2.
Proof.
  intros (_ & [_ Hh]%coalesced_cons & Hj)%coalesced_app. cbn [snd] in Hh.
  assert (head_used l2) as Hl2 by (destruct Hh; done).
  assert (head_used (rev l1)) as Hl1 by (destruct Hj as [|Hj]; [done | by simpl in Hj]).
  assert (merged (rev l1) bs l2 = l1 ++ (bs, false) :: l2) as Hm.
  { pose proof (absorb_used bs l2 Hl2) as Ha.
    destruct (rev l1) as [|[b1 [|]] r] eqn:Er; cbn [merged]; rewrite ?Ha; [| |done].
    - by rewrite <- (rev_involutive l1), Er.
    - by rewrite <- Er, rev_involutive. }
  unfold taken. destruct (bs <? n + 36); [by exists bs, l2|].
  exists n, ((bs - n, false) :: l2). split; [done|]. rewrite <- Hm.
  destruct (rev l1) as [|[b1 [|]] r]; cbn [merged absorb];
    by replace (n + (bs - n)) with bs by lia.
Qed.

(** Allocating and releasing again restores the block structure: when a
    free block serves the request, [kfree] of the result gives back exactly
    the list of blocks from before the call. *)
Theorem kmalloc_kfree_roundtrip s l1 bs l2 n :
  heap_inv s (l1 ++ (bs, false) :: l2) → coalesced (l1 ++ (bs, false) :: l2) →
  1 ≤ n ≤ 2 ^ 32 - 32 → request n ≤ HEAP_MAX_SIZE → request n ≤ bs →
  Forall (λ c, ¬ fits (request n) c) l1 →
  ∃ p s1 s2, kmalloc frame_byte n s = Ret (p, s1) ∧ kfree p s1 = Ret (tt, s2) ∧
    heap_inv s2 (l1 ++ (bs, false) :: l2).
Proof.
  intros Hi Hco Hn Hreq Hfit Hno. destruct (request_bounds n Hn) as [Hlow _].
  destruct (kmalloc_reuse s l1 bs l2 n) as (m1 & E1 & Hi1 & _); try done; try lia.
  destruct (merged_taken l1 bs l2 (request n) Hco) as (n' & l2' & Et & Em). rewrite Et in Hi1.
  destruct (kfree_spec _ l1 n' l2' Hi1) as (m2 & E2 & Hi2 & _). rewrite Em in Hi2.
  eexists _, _, _. split_and!; [exact E1 | exact E2 | exact Hi2].
Qed.

(** ** Initialisation *)

Lemma kmalloc_init_spec s start sz :
  0 < start → start mod PAGE_SIZE = 0 → 0 ≤ sz → start + sz ≤ 2 ^ 32 - 2 ^ 21 →
  (∀ v, start ≤ v < start + sz → ps_virt v) → ps_ok (pages s) → bytes_ok (hmem s) →
  kmalloc_init frame_byte start sz s = Panic ∨
  ∃ s' bl, kmalloc_init frame_byte start sz s = Ret (tt, s') ∧ heap_inv s' bl ∧
    heap_start s' = start ∧ (bl = [] ∨ ∃ n, bl = [(n, false)] ∧ 16 * PAGE_SIZE + 20 ≤ n).
Proof.
  intros Hst Hal Hsz Hmax Hv Hps Hb. unfold kmalloc_init. rewrite bind_modify.
  set (s1 := {| hmem := _ |}).
  assert (heap_inv s1 []) as Hi.
  { split; simpl; try done; try lia; rewrite ?u32_small by lia; try lia; [intros y Hy; lia | done]. }
  destruct (expand_heap_spec s1 [] (PAGE_SIZE * 16) Hi) as [Ep|(r & s2 & E & Hst2 & _ & Hr)].
  { unfold PAGE_SIZE. lia. }
  { left. unfold mbind, M_bind. by rewrite Ep. }
  right. rewrite (bind_Ret _ _ _ _ _ E). destruct Hr as [(_ & _ & Hi2)|(n & _ & Hn & Hi2)].
  - exists s2, []. split_and!; [done | done | done | by left].
  - exists s2, [(n, false)]. split_and!; [done | done | done |].
    right. exists n. split; [done|]. unfold PAGE_SIZE in *. lia.
Qed.

(** [kmalloc_init] on a page-aligned window that stays below the top two
    megabytes of the address space: unless the page allocator panics, it
    leaves a well-formed heap that is one free block of 17 pages, or has no
    block when there was no memory for it. *)
Theorem kmalloc_init_correct s start sz :
  0 < start → start mod PAGE_SIZE = 0 → 0 ≤ sz → start + sz ≤ 2 ^ 32 - 2 ^ 21 →
  (∀ v, start ≤ v < start + sz → ps_virt v) → ps_ok (pages s) → bytes_ok (hmem s) →
  kmalloc_init frame_byte start sz s = Panic ∨
  ∃ s' bl, kmalloc_init frame_byte start sz s = Ret (tt, s') ∧ heap_inv s' bl ∧
    heap_start s' = start ∧ (bl = [] ∨ ∃ n, bl = [(n, false)] ∧ 16 * PAGE_SIZE + 20 ≤ n).
Proof. apply kmalloc_init_spec. Qed.

(** ** Reallocation *)

Lemma live_split a bl p k :
  (p, k) ∈ live a bl → ∃ l1 l2, bl = l1 ++ (k + 20, true) :: l2 ∧ p = a + tot l1 + 20.
Proof.
  revert a. induction bl as [|[b al] bl IH]; intros a; simpl; [set_solver|].
  intros [Hin|Hin]%elem_of_app.
  - destruct al; [|set_solver]. apply list_elem_of_singleton in Hin as [= -> ->].
    exists [], bl. split; [simpl; do 2 f_equal; lia | simpl; lia].
  - destruct (IH _ Hin) as (l1 & l2 & -> & ->). exists ((b, al) :: l1), l2.
    split; [done | simpl; lia].
Qed.

(** Writing inside a live payload does not disturb the heap. *)
Lemma payload_write s bl p k m' :
  heap_inv s bl → (p, k) ∈ live (heap_start s) bl → same_outside p k (hmem s) m' → bytes_ok m' →
  (∀ a n, mapped (hmem s) a n → mapped m' a n) → heap_inv (with_mem m' s) bl.
Proof.
  intros Hi Hin Hso Hb Hm. destruct (live_split _ _ _ _ Hin) as (l1 & l2 & -> & ->).
  eapply heap_inv_mem; [exact Hi | done | done | done | done |].
  pose proof (hi_seg _ _ Hi) as Hs. apply seg_zip in Hs as (Hs1 & Hb1 & Hh & Hs2).
  cbn [fst snd] in *. apply seg_zip. cbn [fst snd]. split_and!; [|done| |].
  - eapply seg_ext; [done|]. intros y Hy. apply Hso. lia.
  - eapply hdr_ext; [|done]. intros y Hy. apply Hso. lia.
  - eapply seg_ext; [done|]. intros y Hy. apply Hso. lia.
Qed.

Lemma get_size_spec s l1 n l2 :
  heap_inv s (l1 ++ (n, true) :: l2) →
  kmalloc_get_size (heap_start s + tot l1 + 20) s = Ret (n - 20, s).
Proof.
  intros Hi. set (x := heap_start s + tot l1). open_block Hi x.
  unfold kmalloc_get_size, sizeof_heap_block. rewrite (proj2 (Z.eqb_neq (x + 20) 0)) by lia.
  replace (u32 (x + 20 - 20)) with x by (rewrite u32_small; lia).
  rewrite (bind_Ret _ _ _ _ _ (get_magic_hdr _ _ _ _ _ _ Hh)), Z.eqb_refl. cbn [negb].
  rewrite (bind_Ret _ _ _ _ _ (get_size_hdr _ _ _ _ _ _ Hh)). rewrite u32_small by lia. done.
Qed.

Lemma live_mapped s bl p k :
  heap_inv s bl → (p, k) ∈ live (heap_start s) bl → mapped (hmem s) p k ∧ 0 < p ∧ p + k < 2 ^ 32.
Proof.
  intros Hi Hin. pose proof (seg_sizes_ok _ _ _ _ _ (hi_seg _ _ Hi)) as Hok.
  apply live_range in Hin; [|done]. destruct Hi as [H1 H2 H3 _ H5 _ _ _ _].
  split_and!; [|lia|lia]. eapply mapped_sub; [exact H5 | lia | lia].
Qed.

(** Copying one live payload into another one. *)
Lemma copy_payload s bl p n q k :
  heap_inv s bl → (p, n) ∈ live (heap_start s) bl → (q, k) ∈ live (heap_start s) bl →
  0 ≤ n ≤ k → (p + n ≤ q ∨ q + k ≤ p) →
  ∃ m', hm (memcpy q p n) s = Ret (q, with_mem m' s) ∧ heap_inv (with_mem m' s) bl ∧
    same_outside q n (hmem s) m' ∧ (∀ i, 0 ≤ i < n → m' !! (q + i) = hmem s !! (p + i)).
Proof.
  intros Hi Hp Hq Hn Hdis.
  destruct (live_mapped s bl p n Hi Hp) as [Hmp _]. destruct (live_mapped s bl q k Hi Hq) as [Hmq _].
  pose proof (length_peek (hmem s) p (Z.to_nat n)) as Hlen.
  destruct (memcpy_spec q p (peek (hmem s) p (Z.to_nat n)) (hmem s)) as (m' & E & Hb & Hso & Hok);
    rewrite ?Hlen, ?Z2Nat.id in * by lia.
  - eapply mapped_sub; [exact Hmq | lia | lia].
  - apply bytes_at_peek. by rewrite Z2Nat.id by lia.
  - apply Hi.
  - lia.
  - assert (∀ i, 0 ≤ i < n → m' !! (q + i) = hmem s !! (p + i)) as Hcopy.
    { intros i Hr. destruct (Hmp (p + i)) as [c Ec]; [lia|]. rewrite Ec.
      pose proof (Hb (Z.to_nat i) c) as Hb'. rewrite lookup_peek in Hb' by lia.
      rewrite Z2Nat.id in Hb' by lia. apply Hb'. by rewrite lookup_total_alt, Ec. }
    exists m'. split_and!; [| |done|done].
    + unfold hm. by rewrite (zoom_Ret _ _ _ _ q m' E).
    + eapply payload_write; [exact Hi | exact Hq | intros y Hy; apply Hso; lia | done |].
      intros a j Hj y Hy. destruct (decide (q ≤ y < q + n)) as [Hin|Hout].
      * replace y with (q + (y - q)) by lia. rewrite Hcopy by lia. apply Hmp. lia.
      * rewrite Hso by lia. by apply Hj.
Qed.

(** The end of [krealloc]: copy the old payload and release the old block. *)
Lemma realloc_finish s s1 bl bl1 p n q k others :
  heap_inv s bl → heap_inv s1 bl1 → heap_start s1 = heap_start s →
  live (heap_start s) bl ≡ₚ (p, n - 20) :: others →
  live_kept (heap_start s) bl (hmem s) (hmem s1) → fresh (heap_start s) bl q k →
  live (heap_start s) bl1 ≡ₚ (q, k) :: live (heap_start s) bl → 20 ≤ n → n - 20 ≤ k → q ≠ 0 →
  ∃ r s' bl', (_ ← hm (memcpy q p (n - 20)); _ ← kfree p; mret q) s1 = Ret (r, s') ∧ heap_inv s' bl' ∧
    r = q ∧ live (heap_start s) bl' ≡ₚ (q, k) :: others ∧
    (∀ i, 0 ≤ i < n - 20 → hmem s' !! (q + i) = hmem s !! (p + i)) ∧
    (∀ a j y, (a, j) ∈ others → a ≤ y < a + j → hmem s' !! y = hmem s !! y).
Proof.
  intros Hi Hi1 Hst Hperm Hk1 Hfresh Hperm1 Hn Hk Hq0.
  assert ((p, n - 20) ∈ live (heap_start s) bl) as Hp by (rewrite Hperm; by left).
  destruct (copy_payload s1 bl1 p (n - 20) q k Hi1) as (m2 & E2 & Hi2 & Hso2 & Hcopy);
    rewrite ?Hst, ?Hperm1; [by right | by left | lia | by apply Hfresh |].
  rewrite (bind_Ret _ _ _ _ _ E2).
  destruct (live_split (heap_start s) bl1 p (n - 20)) as (l1 & l2 & -> & Epx).
  { rewrite Hperm1. by right. }
  replace (n - 20 + 20) with n in * by lia.
  destruct (kfree_spec (with_mem m2 s1) l1 n l2 Hi2) as (m3 & E3 & Hi3 & Hk3).
  cbn [heap_start with_mem hmem] in *. rewrite Hst in *. rewrite <- Epx in E3.
  rewrite (bind_Ret _ _ _ _ _ E3).
  assert (live (heap_start s) (merged (rev l1) n l2) ≡ₚ (q, k) :: others) as Hlive.
  { apply (Permutation_cons_inv (a:=(p, n - 20))).
    rewrite merged_live, rev_involutive, live_app. cbn [live fst snd app].
    rewrite Permutation_swap, <- Hperm, <- Hperm1, live_app. cbn [live fst snd app].
    rewrite Epx. apply Permutation_middle. }
  exists q, (with_mem m3 (with_mem m2 s1)), (merged (rev l1) n l2). split_and!; try done.
  - intros i Hir. cbn [hmem with_mem].
    rewrite (Hk3 q k), Hcopy by (try done; try lia; rewrite Hlive; by left).
    apply (Hk1 p (n - 20)); [done | lia].
  - intros a j y Hin Hy. cbn [hmem with_mem].
    rewrite (Hk3 a j) by (try done; rewrite Hlive; by right).
    assert ((a, j) ∈ live (heap_start s) bl) as Ha by (rewrite Hperm; by right).
    rewrite Hso2 by (destruct (Hfresh a j Ha); lia). by apply (Hk1 a j).
Qed.

(** [krealloc] of a live block.  It keeps the block when it is large
    enough; otherwise, unless the page allocator panics, it either returns
    NULL and leaves every live block as it was, or returns a new block of at
    least [new_size] bytes that begins with all bytes of the old one, releases
    the old block and keeps the other live blocks and their bytes. *)
Theorem krealloc_correct s l1 n l2 new_size :
  let bl := l1 ++ (n, true) :: l2 in
  let others := live (heap_start s) (l1 ++ (n, false) :: l2) in
  let p := heap_start s + tot l1 + 20 in
  heap_inv s bl → coalesced bl → 1 ≤ new_size ≤ 2 ^ 32 - 32 →
  if new_size <=? n - 20 then krealloc frame_byte p new_size s = Ret (p, s)
  else
    krealloc frame_byte p new_size s = Panic ∨
    ∃ r s' bl', krealloc frame_byte p new_size s = Ret (r, s') ∧ heap_inv s' bl' ∧
      ((r = 0 ∧ bl' = bl ∧ live_kept (heap_start s) bl (hmem s) (hmem s')) ∨
       (∃ k, r ≠ 0 ∧ new_size ≤ k ∧ live (heap_start s) bl' ≡ₚ (r, k) :: others ∧
         (∀ i, 0 ≤ i < n - 20 → hmem s' !! (r + i) = hmem s !! (p + i)) ∧
         (∀ a j y, (a, j) ∈ others → a ≤ y < a + j → hmem s' !! y = hmem s !! y))).
Proof.
  intros bl others p Hi Hco Hn.
  assert (live (heap_start s) bl ≡ₚ (p, n - 20) :: others) as Hperm.
  { unfold bl, others. rewrite !live_app. cbn [live fst snd app]. symmetry. apply Permutation_middle. }
  assert (krealloc frame_byte p new_size s =
    (if new_size <=? n - 20 then mret p
     else new_ptr ← kmalloc frame_byte new_size;
       if new_ptr =? 0 then mret 0
       else _ ← hm (memcpy new_ptr p (n - 20)); _ ← kfree p; mret new_ptr) s) as ->.
  { unfold krealloc. pose proof (live_mapped s bl p (n - 20) Hi) as Hp.
    rewrite Hperm in Hp. destruct Hp as (_ & Hp & _); [by left|].
    rewrite (proj2 (Z.eqb_neq p 0)), (proj2 (Z.eqb_neq new_size 0)) by lia.
    by rewrite (bind_Ret _ _ _ _ _ (get_size_spec s l1 n l2 Hi)). }
  destruct (Z.leb_spec new_size (n - 20)) as [|Hbig]; [done|].
  destruct (kmalloc_spec s bl new_size Hi Hco Hn)
    as [[Ep _]|(q & s1 & bl1 & E1 & Hi1 & _ & Hst1 & Hk1 & Hr)].
  { left. unfold mbind, M_bind. by rewrite Ep. }
  right. rewrite (bind_Ret _ _ _ _ _ E1).
  destruct Hr as [(-> & -> & _)|(k & Hq0 & Hk & Hfresh & Hperm1)].
  { exists 0, s1, bl. split_and!; try done. left. done. }
  rewrite (proj2 (Z.eqb_neq q 0)) by done.
  pose proof (tot_zip_bounds _ _ _ _ Hi) as (_ & Hn20 & _). cbn [fst] in Hn20.
  destruct (realloc_finish s s1 bl bl1 p n q k others) as (r & s' & bl' & E & Hi' & -> & H');
    try done; [lia|].
  exists q, s', bl'. split_and!; [done | done |]. right. exists k. split_and!; try done; apply H'.
Qed.

End Grow.

(** ** Arithmetic overflow *)

Section Overflow.
Context {P : Type} `{!PageSource P} (frame_byte : Z → Z).
Implicit Types s : (heap (P:=P)).

Lemma request_wraps n : 2 ^ 32 - 23 ≤ n ≤ 2 ^ 32 - 16 → request n = 4.
Proof.
  intros Hn. unfold request, sizeof_heap_block.
  pose proof (align_up_eq 3 n ltac:(lia) ltac:(lia) ltac:(lia)) as E. change (2 ^ 3) with 8 in E.
  rewrite E. unfold u32. dlia.
Qed.

(** Splitting off 4 bytes writes the new header over the old one. *)
Lemma split_four s bs al l2 :
  heap_inv s ((bs, al) :: l2) → 40 ≤ bs →
  ∃ m', split_block (heap_start s) 4 s = Ret (tt, with_mem m' s) ∧
    word m' (heap_start s) = HEAP_MAGIC ∧ word m' (heap_start s + 4) = 4 ∧
    (∀ a n, mapped (hmem s) a n → mapped m' a n).
Proof.
  intros Hi Hbs. set (x := heap_start s). pose proof (hi_mapped _ _ Hi) as Hm.
  pose proof (hi_start _ _ Hi). pose proof (hi_end _ _ Hi). pose proof (hi_max _ _ Hi).
  pose proof (hi_seg _ _ Hi) as Hs. cbn [seg tot fst snd] in *. destruct Hs as (_ & Hh & Hs2).
  apply tot_nonneg in Hs2. fold x in Hh, Hm. unfold split_block.
  rewrite (bind_Ret _ _ _ _ _ (get_size_hdr _ _ _ _ _ _ Hh)).
  change (u32 (4 + sizeof_heap_block + HEAP_MIN_SIZE)) with 40.
  rewrite (proj2 (Z.ltb_ge bs 40)) by lia. rewrite (u32_small (x + 4)) by lia. cbv zeta.
  assert (0 ≤ HEAP_MAGIC < 2 ^ 32) by (unfold HEAP_MAGIC; lia).
  unfold set_magic, get_size, set_size, set_allocated, get_next, set_next, set_prev.
  replace (x + 4 + 8) with (x + 12) by lia. repeat hstep Hm. hword. cbn [negb Z.eqb].
  rewrite bind_mret. repeat hstep Hm.
  eexists. split; [reflexivity|]. hword. destruct Hh as [_ Hmagic _ _ _ _].
  split_and!; [done | done |]. intros. by repeat apply mapped_write32.
Qed.

(** A request close to 4 GB wraps around: rounding it up and adding the
    header leaves a block size of 4 bytes.  [kmalloc] reports success, and the
    header it writes for the rest of the block overlaps the header of the
    block it hands out, so that the heap no longer verifies.  This happens on
    every heap whose first block is free, so directly after
    [kmalloc_init]. *)
Theorem kmalloc_overflow_corrupts s bs l2 n :
  heap_inv s ((bs, false) :: l2) → 40 ≤ bs → 2 ^ 32 - 23 ≤ n ≤ 2 ^ 32 - 16 →
  ∃ s', kmalloc frame_byte n s = Ret (heap_start s + 20, s') ∧
    kmalloc_verify_heap s' = Ret (false, s').
Proof.
  intros Hi Hbs Hn. pose proof (request_wraps n Hn) as Hreq. pose proof (hi_start _ _ Hi) as Hst.
  rewrite (kmalloc_search frame_byte s _ n Hi) by (rewrite ?Hreq; lia).
  rewrite Hreq. cbn [first_fit fst snd negb andb]. rewrite (proj2 (Z.leb_le 4 bs)) by lia.
  rewrite (proj2 (Z.eqb_neq (heap_start s) 0)) by lia. cbn [negb].
  destruct (set_allocated_spec s [] bs false true l2 Hi) as (m1 & E1 & Hi1 & _).
  cbn [tot app] in E1, Hi1. rewrite Z.add_0_r in E1. rewrite (bind_Ret _ _ _ _ _ E1).
  destruct (split_four (with_mem m1 s) bs true l2 Hi1 Hbs) as (m2 & E2 & Hw1 & Hw2 & Hm2).
  cbn [heap_start with_mem] in *. rewrite (bind_Ret _ _ _ _ _ E2).
  pose proof (hi_max _ _ Hi). pose proof (hi_end _ _ Hi). pose proof (hi_seg _ _ Hi) as Hs.
  cbn [seg tot fst snd] in *. destruct Hs as (_ & _ & Hs2). apply tot_nonneg in Hs2.
  unfold sizeof_heap_block. rewrite (u32_small (heap_start s + 20)) by lia.
  eexists. split; [reflexivity|]. rewrite with_mem_mem.
  assert (mapped m2 (heap_start s) 20) as Hm.
  { apply Hm2. eapply mapped_sub; [exact (hi_mapped _ _ Hi1) | cbn; lia | cbn; lia]. }
  unfold kmalloc_verify_heap. rewrite bind_get. change (Z.to_nat 10002) with (S (Z.to_nat 10001)).
  cbn [verify_loop heap_first with_mem]. rewrite (hi_first _ _ Hi).
  rewrite (proj2 (Z.eqb_neq (heap_start s) 0)) by lia. unfold get_magic, get_size.
  rewrite bind_load by (eapply mapped_sub; [exact Hm | lia | lia]). rewrite hmem_with_mem, Hw1, Z.eqb_refl.
  cbn [negb]. rewrite bind_load by (eapply mapped_sub; [exact Hm | lia | lia]).
  rewrite hmem_with_mem, Hw2. done.
Qed.

(** [kmalloc_aligned] returns a multiple of the alignment with [size] bytes
    that belong to the block it allocates and to no other live block. *)
Theorem kmalloc_aligned_correct s bl size k :
  heap_inv s bl → coalesced bl → 1 ≤ size → 0 ≤ k ≤ 31 → size + 2 ^ k + 20 ≤ 2 ^ 32 - 32 →
  kmalloc_aligned frame_byte size (2 ^ k) s = Panic ∨
  ∃ q s' bl', kmalloc_aligned frame_byte size (2 ^ k) s = Ret (q, s') ∧ heap_inv s' bl' ∧
    ((q = 0 ∧ bl' = bl) ∨
     (∃ p n, q mod 2 ^ k = 0 ∧ p ≤ q ∧ q + size ≤ p + n ∧ fresh (heap_start s) bl p n ∧
             live (heap_start s) bl' ≡ₚ (p, n) :: live (heap_start s) bl)).
Proof.
  intros Hi Hco Hsz Hk Hfit. assert (0 < 2 ^ k) as Hpow by (apply Z.pow_pos_nonneg; lia).
  assert (Z.land (2 ^ k) (u32 (2 ^ k - 1)) = 0) as Hland.
  { rewrite u32_small by lia. replace (2 ^ k - 1) with (Z.ones k) by (rewrite Z.ones_equiv; lia).
    rewrite Z.land_ones by lia. apply Z.mod_same. lia. }
  remember (kmalloc_aligned frame_byte size (2 ^ k) s) as res eqn:Er. unfold kmalloc_aligned in Er.
  rewrite (proj2 (Z.eqb_neq (2 ^ k) 0)), Hland in Er by lia. cbn [Z.eqb negb orb] in Er.
  unfold sizeof_heap_block in Er. rewrite (u32_small (size + 2 ^ k + 20)) in Er by lia. cbv zeta in Er.
  destruct (kmalloc_spec frame_byte s bl (size + 2 ^ k + 20) Hi Hco ltac:(lia))
    as [[Ep _]|(p & s1 & bl1 & E1 & Hi1 & _ & Hst & _ & Hr)].
  { left. rewrite Er. unfold mbind, M_bind. by rewrite Ep. }
  right. rewrite (bind_Ret _ _ _ _ _ E1) in Er. destruct Hr as [(-> & -> & _)|(n & Hp & Hn & Hfresh & Hperm)].
  { exists 0, s1, bl. split_and!; [done | done | by left]. }
  rewrite (proj2 (Z.eqb_neq p 0)) in Er by done.
  destruct (live_mapped s1 bl1 p n Hi1) as (_ & Hp0 & Hpn); [rewrite Hst, Hperm; by left|].
  rewrite align_up_eq in Er by lia. eexists _, s1, bl1. split_and!; [exact Er | done |].
  right. exists p, n. pose proof (Z.div_mod (p + 2 ^ k - 1) (2 ^ k) ltac:(lia)) as Hdm.
  pose proof (Z.mod_pos_bound (p + 2 ^ k - 1) (2 ^ k) Hpow).
  split_and!; [apply Z.mod_mul; lia | lia | lia | done | done].
Qed.

End Overflow.

(** ** Statistics and verification *)

Section Inspect.
Context {P : Type} `{!PageSource P}.
Implicit Types s : (heap (P:=P)).

Fixpoint sum_sizes (want : bool) (l : list block) : Z :=
  match l with
  | [] => 0
  | b :: l => (if Bool.eqb b.2 want then b.1 else 0) + sum_sizes want l
  end.

Definition count_free (l : list block) : Z := Z.of_nat (length (filter (λ b : block, b.2 = false) l)).

Lemma sum_sizes_bounds want l : sizes_ok l → 0 ≤ sum_sizes want l ≤ tot l.
Proof.
  induction 1 as [|b l Hb _ IH]; simpl; [lia|]. destruct (Bool.eqb b.2 want); lia.
Qed.

Lemma stats_loop_spec l : ∀ fuel s pv a st,
  seg (hmem s) pv a l 0 → 0 < a → (length l < fuel)%nat →
  0 ≤ used_size st → 0 ≤ free_size st → 0 ≤ num_blocks st → 0 ≤ num_free_blocks st →
  used_size st + free_size st + tot l < 2 ^ 32 →
  num_blocks st + Z.of_nat (length l) < 2 ^ 32 → num_free_blocks st + Z.of_nat (length l) < 2 ^ 32 →
  stats_loop fuel (match l with [] => 0 | _ => a end) st s =
  Ret ({| total_size := total_size st; used_size := used_size st + sum_sizes true l;
          free_size := free_size st + sum_sizes false l;
          num_blocks := num_blocks st + Z.of_nat (length l);
          num_free_blocks := num_free_blocks st + count_free l |}, s).
Proof.
  induction l as [|b l IH]; intros [|fuel] s pv a st Hs Ha Hf H1 H2 H3 H4 H5 H6 H7; simpl in Hf; try lia;
    cbn [stats_loop].
  - destruct st. simpl. rewrite mret_eq. unfold count_free. simpl. rewrite !Z.add_0_r. done.
  - simpl in Hs. destruct Hs as (Hb & Hh & Hl). rewrite (proj2 (Z.eqb_neq a 0)) by lia.
    rewrite (bind_Ret _ _ _ _ _ (get_allocated_hdr _ _ _ _ _ _ Hh)).
    rewrite (bind_Ret _ _ _ _ _ (get_size_hdr _ _ _ _ _ _ Hh)).
    rewrite (bind_Ret _ _ _ _ _ (get_next_hdr _ _ _ _ _ _ Hh)).
    apply tot_nonneg in Hl as Ht. simpl tot in H5. simpl length in *.
    replace (match l with [] => 0 | _ => a + b.1 end) with
      (match l with [] => 0 | _ :: _ => a + b.1 end) by (by destruct l).
    unfold count_free. rewrite filter_cons.
    destruct (b.2) eqn:Eb; rewrite !u32_small by lia;
      (rewrite (IH fuel s a (a + b.1)); [|done|lia|lia|simpl; lia ..]);
      cbn [total_size used_size free_size num_blocks num_free_blocks sum_sizes];
      rewrite Eb; simpl; unfold count_free; do 2 f_equal; f_equal; lia.
Qed.

(** The statistics are exact: the total is the extent of the heap, the used
    and free sizes are the sums over the allocated and the free blocks, which
    add up to the total, and the counters are the numbers of blocks. *)
Theorem kmalloc_get_stats_correct s bl :
  heap_inv s bl →
  kmalloc_get_stats s =
    Ret ({| total_size := tot bl; used_size := sum_sizes true bl; free_size := sum_sizes false bl;
            num_blocks := Z.of_nat (length bl); num_free_blocks := count_free bl |}, s) ∧
  sum_sizes true bl + sum_sizes false bl = tot bl.
Proof.
  intros Hi. destruct (Hi) as [H1 H2 H3 _ _ _ H7 H8 _]. split.
  - unfold kmalloc_get_stats. rewrite bind_get.
    edestruct (list_fuel_eq (A:=heap_stats)) as (fuel & Hf & ->); [exact Hi|].
    apply tot_nonneg in H7 as Ht. pose proof (seg_length _ _ _ _ _ H7).
    rewrite H8. rewrite (stats_loop_spec bl fuel s 0); simpl; try done; try lia.
    rewrite u32_small by lia. do 3 f_equal. lia.
  - clear. induction bl as [|b bl IH]; simpl; [done|]. destruct (b.2); simpl; lia.
Qed.

Lemma verify_loop_spec l : ∀ fuel s pv a count,
  seg (hmem s) pv a l 0 → 0 < a → 0 ≤ count → count + Z.of_nat (length l) ≤ 10000 →
  (length l < fuel)%nat →
  verify_loop fuel (match l with [] => 0 | _ => a end) count s = Ret (true, s).
Proof.
  induction l as [|b l IH]; intros [|fuel] s pv a count Hs Ha Hc Hlen Hf; simpl in Hf; try lia;
    cbn [verify_loop]; [done|].
  simpl in Hs. destruct Hs as (Hb & Hh & Hl). rewrite (proj2 (Z.eqb_neq a 0)) by lia.
  rewrite (bind_Ret _ _ _ _ _ (get_magic_hdr _ _ _ _ _ _ Hh)), Z.eqb_refl. cbn [negb].
  rewrite (bind_Ret _ _ _ _ _ (get_size_hdr _ _ _ _ _ _ Hh)).
  rewrite (proj2 (Z.ltb_ge b.1 sizeof_heap_block)) by (unfold sizeof_heap_block; lia).
  rewrite (bind_Ret _ _ _ _ _ (get_next_hdr _ _ _ _ _ _ Hh)). simpl length in Hlen.
  assert (∀ bad, bad = false → (if bad : bool then mret false
    else if 10000 <? count + 1 then mret false
    else verify_loop fuel (match l with [] => 0 | _ => a + b.1 end) (count + 1)) s = Ret (true, s)) as Hrest.
  { intros bad ->. rewrite (proj2 (Z.ltb_ge 10000 (count + 1))) by lia.
    apply (IH fuel s a); (done || lia). }
  destruct l as [|c l]; cbn [Z.eqb negb].
  - rewrite bind_mret. exact (Hrest false eq_refl).
  - rewrite (proj2 (Z.eqb_neq (a + b.1) 0)) by lia. cbn [negb].
    simpl in Hl. destruct Hl as (_ & Hh2 & _).
    erewrite bind_Ret by (rewrite (bind_Ret _ _ _ _ _ (get_prev_hdr _ _ _ _ _ _ Hh2)); reflexivity).
    apply Hrest. by rewrite Z.eqb_refl.
Qed.

(** [kmalloc_verify_heap] accepts every well-formed heap of at most 10000
    blocks, the number its loop is limited to. *)
Theorem verify_heap_accepts s bl :
  heap_inv s bl → Z.of_nat (length bl) ≤ 10000 → kmalloc_verify_heap s = Ret (true, s).
Proof.
  intros Hi Hlen. unfold kmalloc_verify_heap. rewrite bind_get, (hi_first _ _ Hi).
  apply (verify_loop_spec bl _ s 0); [apply Hi | apply Hi | lia ..].
Qed.

End Inspect.

(** ** A concrete heap *)

(** A page source that hands out frames in sequence. *)
#[export, program] Instance sequential_pages : PageSource Z := {|
  ps_ok := λ n, 0 ≤ n < 2 ^ 32;
  ps_virt := λ _, True;
  ps_mapped := λ _ _, True;
  alloc_frame := λ n, Ret (n, u32 (n + PAGE_SIZE));
  map_page := λ _ _ n, Ret (tt, n);
|}.
Next Obligation. intros n Hn. cbn beta in *. do 2 eexists. split_and!; [reflexivity | | | | | done]; unfold u32; dlia. Qed.
Next Obligation. eauto. Qed.

Definition zero_frames (_ : Z) : Z := 0.

Definition demo_start : Z := 0x200000.

(** One page with an allocated block of 100 bytes and the rest free. *)
Definition demo_mem : mem :=
  let m := add_page zero_frames (Z.to_nat 4096) demo_start 0 ∅ in
  let hdr m a sz al nx pv :=
    write32 (write32 (write32 (write32 (write32 m a HEAP_MAGIC) (a + 4) sz) (a + 8) al) (a + 12) nx)
      (a + 16) pv in
  hdr (hdr m demo_start 100 1 (demo_start + 100) 0) (demo_start + 100) 3996 0 0 demo_start.

Definition demo_heap : heap (P:=Z) :=
  {| hmem := demo_mem; pages := 0x300000; heap_start := demo_start;
     heap_end := demo_start + 4096; heap_max := demo_start + 0x100000;
     heap_first := demo_start |}.

Definition demo_blocks : list block := [(100, true); (3996, false)].

Lemma demo_heap_mapped : mapped demo_mem demo_start 4096.
Proof.
  unfold demo_mem. cbv zeta. do 10 apply mapped_write32.
  intros y Hy. rewrite lookup_add_page, decide_True by lia. eauto.
Qed.

Lemma demo_bytes : bytes_ok demo_mem.
Proof.
  unfold demo_mem. cbv zeta. do 10 apply bytes_ok_write32. apply bytes_ok_add_page.
  apply map_Forall_empty.
Qed.

Lemma demo_inv : heap_inv demo_heap demo_blocks.
Proof.
  split; cbn [demo_heap hmem pages heap_start heap_end heap_max heap_first].
  - vm_compute; reflexivity.
  - reflexivity.
  - vm_compute; split; discriminate.
  - vm_compute; split; reflexivity.
  - exact demo_heap_mapped.
  - exact demo_bytes.
  - cbn [seg demo_blocks fst snd]. unfold demo_start.
    assert (0 ≤ HEAP_MAGIC < 2 ^ 32) by (unfold HEAP_MAGIC; lia). pose proof demo_heap_mapped as Hm.
    split; [lia|]; split; [|split; [lia|]; split; [|exact I]];
      (split; [eapply mapped_sub; [exact Hm | unfold demo_start; lia ..] | ..]);
      unfold demo_mem, demo_start; cbv zeta; hword; reflexivity.
  - reflexivity.
  - cbn. lia.
  - intros v _. exact I.
  - intros v _. exact I.
Qed.

Lemma demo_coalesced : coalesced demo_blocks.
Proof. split; [by left | exact I]. Qed.

Lemma kmalloc_correct_witness :
  ∃ p s' bl' k, kmalloc zero_frames 64 demo_heap = Ret (p, s') ∧ heap_inv s' bl' ∧ p ≠ 0 ∧ 64 ≤ k ∧
    live (heap_start demo_heap) bl' ≡ₚ (p, k) :: live (heap_start demo_heap) demo_blocks.
Proof.
  assert (¬ no_room demo_blocks 64) as Hroom.
  { intros H. refine (Forall_lookup_1 _ _ 1 (3996, false) H eq_refl _). split; [reflexivity | vm_compute; discriminate]. }
  destruct (kmalloc_correct zero_frames demo_heap demo_blocks 64 demo_inv demo_coalesced ltac:(lia))
    as [[_ Hno]|(p & s' & bl' & E & Hi & _ & _ & _ & [(_ & _ & [Hbig|[Hno _]])|(k & Hp & Hk & _ & Hl)])].
  - destruct (Hroom Hno).
  - exfalso. by vm_compute in Hbig.
  - destruct (Hroom Hno).
  - exists p, s', bl', k. split_and!; assumption.
Defined.

Lemma kfree_correct_witness :
  ∃ s' bl', kfree (demo_start + 20) demo_heap = Ret (tt, s') ∧ heap_inv s' bl' ∧ coalesced bl' ∧
    live demo_start demo_blocks ≡ₚ (demo_start + 20, 80) :: live demo_start bl' ∧
    live_kept demo_start bl' (hmem demo_heap) (hmem s').
Proof.
  apply (kfree_correct demo_heap [] 100 [(3996, false)]); [exact demo_inv | exact demo_coalesced].
Defined.

Lemma kfree_rejects_witness :
  kfree 0 demo_heap = Ret (tt, demo_heap) ∧
  (∀ l1 n l2, demo_blocks = l1 ++ (n, false) :: l2 →
     kfree (heap_start demo_heap + tot l1 + 20) demo_heap = Ret (tt, demo_heap)) ∧
  (∀ p, 20 < p < 2 ^ 32 → mapped (hmem demo_heap) (p - 20) 4 →
     word (hmem demo_heap) (p - 20) ≠ HEAP_MAGIC → kfree p demo_heap = Ret (tt, demo_heap)).
Proof. apply (kfree_rejects demo_heap demo_blocks). exact demo_inv. Defined.

Lemma kmalloc_kfree_roundtrip_witness :
  ∃ p s1 s2, kmalloc zero_frames 64 demo_heap = Ret (p, s1) ∧ kfree p s1 = Ret (tt, s2) ∧
    heap_inv s2 demo_blocks.
Proof.
  apply (kmalloc_kfree_roundtrip zero_frames demo_heap [(100, true)] 3996 [] 64);
    [exact demo_inv | exact demo_coalesced | lia | vm_compute; discriminate | vm_compute; discriminate |].
  repeat constructor. intros []; done.
Defined.

Lemma kmalloc_init_correct_witness :
  kmalloc_init zero_frames 0x200000 0x1000000 demo_heap = Panic ∨
  ∃ s' bl, kmalloc_init zero_frames 0x200000 0x1000000 demo_heap = Ret (tt, s') ∧ heap_inv s' bl ∧
    heap_start s' = 0x200000 ∧ (bl = [] ∨ ∃ n, bl = [(n, false)] ∧ 16 * PAGE_SIZE + 20 ≤ n).
Proof.
  apply (kmalloc_init_correct zero_frames demo_heap 0x200000 0x1000000);
    [lia | reflexivity | lia | lia | intros v _; exact I | cbn; lia | apply demo_inv].
Defined.

Lemma krealloc_correct_witness :
  if 200 <=? 100 - 20 then krealloc zero_frames (demo_start + 20) 200 demo_heap = Ret (demo_start + 20, demo_heap)
  else
    krealloc zero_frames (demo_start + 20) 200 demo_heap = Panic ∨
    ∃ r s' bl', krealloc zero_frames (demo_start + 20) 200 demo_heap = Ret (r, s') ∧ heap_inv s' bl' ∧
      ((r = 0 ∧ bl' = demo_blocks ∧ live_kept demo_start demo_blocks (hmem demo_heap) (hmem s')) ∨
       (∃ k, r ≠ 0 ∧ 200 ≤ k ∧ live demo_start bl' ≡ₚ [(r, k)] ∧
         (∀ i, 0 ≤ i < 100 - 20 → hmem s' !! (r + i) = hmem demo_heap !! (demo_start + 20 + i)) ∧
         (∀ a j y, (a, j) ∈ [] → a ≤ y < a + j → hmem s' !! y = hmem demo_heap !! y))).
Proof.
  apply (krealloc_correct zero_frames demo_heap [] 100 [(3996, false)] 200);
    [exact demo_inv | exact demo_coalesced | lia].
Defined.

Lemma kmalloc_get_stats_correct_witness :
  kmalloc_get_stats demo_heap =
    Ret ({| total_size := 4096; used_size := 100; free_size := 3996;
            num_blocks := 2; num_free_blocks := 1 |}, demo_heap) ∧
  sum_sizes true demo_blocks + sum_sizes false demo_blocks = tot demo_blocks.
Proof. apply (kmalloc_get_stats_correct demo_heap demo_blocks). exact demo_inv. Defined.

Lemma verify_heap_accepts_witness : kmalloc_verify_heap demo_heap = Ret (true, demo_heap).
Proof. apply (verify_heap_accepts demo_heap demo_blocks); [exact demo_inv | simpl; lia]. Defined.

(** The same page with a single free block. *)
Definition fresh_mem : mem :=
  let m := add_page zero_frames (Z.to_nat 4096) demo_start 0 ∅ in
  write32 (write32 (write32 (write32 (write32 m demo_start HEAP_MAGIC) (demo_start + 4) 4096)
    (demo_start + 8) 0) (demo_start + 12) 0) (demo_start + 16) 0.

Definition fresh_heap : heap (P:=Z) :=
  {| hmem := fresh_mem; pages := 0x300000; heap_start := demo_start;
     heap_end := demo_start + 4096; heap_max := demo_start + 0x100000;
     heap_first := demo_start |}.

Lemma fresh_mapped : mapped fresh_mem demo_start 4096.
Proof.
  unfold fresh_mem. cbv zeta. do 5 apply mapped_write32.
  intros y Hy. rewrite lookup_add_page, decide_True by lia. eauto.
Qed.

Lemma fresh_inv : heap_inv fresh_heap [(4096, false)].
Proof.
  split; cbn [fresh_heap hmem pages heap_start heap_end heap_max heap_first].
  - vm_compute; reflexivity.
  - reflexivity.
  - vm_compute; split; discriminate.
  - vm_compute; split; reflexivity.
  - exact fresh_mapped.
  - unfold fresh_mem. cbv zeta. do 5 apply bytes_ok_write32. apply bytes_ok_add_page.
    apply map_Forall_empty.
  - cbn [seg fst snd]. assert (0 ≤ HEAP_MAGIC < 2 ^ 32) by (unfold HEAP_MAGIC; lia).
    split; [lia|]; split; [|exact I].
    split; [eapply mapped_sub; [exact fresh_mapped | unfold demo_start; lia ..] | ..];
      unfold fresh_mem, demo_start; cbv zeta; hword; reflexivity.
  - reflexivity.
  - cbn; lia.
  - intros v _. exact I.
  - intros v _. exact I.
Qed.

Lemma kmalloc_overflow_corrupts_witness :
  ∃ s', kmalloc zero_frames 0xFFFFFFF0 fresh_heap = Ret (heap_start fresh_heap + 20, s') ∧
    kmalloc_verify_heap s' = Ret (false, s').
Proof.
  apply (kmalloc_overflow_corrupts zero_frames fresh_heap 4096 [] 0xFFFFFFF0); [exact fresh_inv | lia | lia].
Defined.

Lemma kmalloc_aligned_correct_witness :
  kmalloc_aligned zero_frames 100 (2 ^ 6) demo_heap = Panic ∨
  ∃ q s' bl', kmalloc_aligned zero_frames 100 (2 ^ 6) demo_heap = Ret (q, s') ∧ heap_inv s' bl' ∧
    ((q = 0 ∧ bl' = demo_blocks) ∨
     (∃ p n, q mod 2 ^ 6 = 0 ∧ p ≤ q ∧ q + 100 ≤ p + n ∧
             fresh (heap_start demo_heap) demo_blocks p n ∧
             live (heap_start demo_heap) bl' ≡ₚ (p, n) :: live (heap_start demo_heap) demo_blocks)).
Proof.
  apply (kmalloc_aligned_correct zero_frames demo_heap demo_blocks 100 6);
    [exact demo_inv | exact demo_coalesced | lia ..].
Defined.
