(* ===== verification/KernelHeap.v ===== *)
(** * The memory stack: heap over page tables over frames

    Three components that were verified one against the interface of the next are
    put together: the kernel heap (kernel/mm/kmalloc.c) grows by frames that
    kernel/mm/vmm.c maps, and the page tables this needs come from the frame
    allocator (kernel/mm/pmm.c). *)

From S2P Require Import Prelude Bits Pmm Vmm VmmSpec VmmSpace Mem Kmalloc HeapSpec.

#[local] Open Scope Z_scope.

Abbreviation PAGE_FLAGS_KERNEL := (Z.lor PAGE_PRESENT PAGE_WRITE)%Z (only parsing).

Section Stack.
Context {P : Type} `{!FrameSource P}.

(** The interface that the heap asks for, discharged by the page tables. *)
#[export, program] Instance vm_pages : PageSource (vm (P := P)) := {|
  ps_ok := vm_ok;
  ps_virt := λ v, 0 ≤ v < 2 ^ 32 ∧ plain_page v;
  ps_mapped := λ s v, 0 ≤ v < 2 ^ 32 ∧ is_Some (space s (v / 4096));
  alloc_frame := on_frames fs_alloc;
  map_page := λ v a, vmm_map_page v a PAGE_FLAGS_KERNEL;
|}.
Next Obligation.
  intros s Hok. destruct (fs_alloc_ok _ (vo_frames _ Hok)) as (a & p & E & Hp & Hk & Ha).
  exists a, (with_frames p s). split_and!; [by apply zoom_Ret | by apply with_frames_ok | | | done];
    destruct (decide (a = 0)) as [->|Hne]; try lia; destruct (Ha Hne) as (_ & ? & _); lia.
Qed.
Next Obligation.
  intros s v a Hok [Hv Hpl] Ha. destruct (map_page_spec s v a PAGE_FLAGS_KERNEL Hok Hv Hpl Ha) as [(s' & E & Hm & _)|(E & _)]; [right|by left].
  exists s'. split_and!; [done | apply Hm |]. intros w Hw. unfold PAGE_SIZE in Hw. assert (0 ≤ w < 2 ^ 32) as Hw' by (destruct Hw as [[? _]|Hw]; [done | dlia]).
  split; [done|]. rewrite (md_space _ _ _ _ _ Hm) by dlia. destruct (Z.eqb_spec (w / 4096) (v / 4096)) as [|Hne]; [by eexists|]. destruct Hw as [[_ ?]|?]; done.
Qed.

(** The heap before its initialisation; [m] is the memory at its window. *)
Definition no_heap (m : mem) (s : vm (P := P)) : heap (P := vm (P := P)) :=
  {| hmem := m; pages := s; heap_start := 0; heap_end := 0; heap_max := 0; heap_first := 0 |}.





(** Without the recursive entry, the first look at a page table faults. *)
Lemma map_page_faults s virt phys flags :
  boot_ok s → pte_is_present (pde_at s 1023) = false → 0 ≤ virt < 2 ^ 32 →
  vmm_map_page virt phys flags s = Undef.
Proof.
  intros Hok Hp Hv. unfold vmm_map_page. cbv zeta. unfold load, translate. unfold mbind, M_bind, get. cbv zeta.
  rewrite pd_index_eq. destruct (dir_address (virt / 4096 / 1024)) as (_ & Ha & _); [dlia|]. rewrite Ha.
  assert (mapping s (1023 * 1024 + 1023) = None) as Hm by (rewrite mapping_eq; change ((1023 * 1024 + 1023) / 1024) with 1023; by rewrite Hp).
  destruct (tlb s !! (1023 * 1024 + 1023)) as [f|] eqn:E.
  - rewrite (bo_tlb _ Hok _ _ E) in Hm. done.
  - unfold mapping in Hm. by rewrite Hm.
Qed.

(** The order of start-up matters: in the state that the entry code leaves, where
    the last directory entry is still absent, the initialisation of the heap faults
    on its first page unless [vmm_init] ran before. *)
Theorem heap_needs_vmm_init frame_byte start size m a p s :
  boot_ok s → pte_is_present (pde_at s 1023) = false →
  fs_alloc (frames s) = Ret (a, p) → a ≠ 0 →
  0 < start → 0x20000 ≤ size → start + size < 2 ^ 32 →
  kmalloc_init frame_byte start size (no_heap m s) = Undef.
Proof.
  intros Hok Hp Ha Hne H0 Hs Hend. unfold kmalloc_init, no_heap. rewrite bind_modify.
  cbn [hmem pages]. unfold expand_heap. cbv zeta.
  change (ALIGN_UP (u32 (PAGE_SIZE * 16 + sizeof_heap_block)) PAGE_SIZE) with 69632.
  change (Z.to_nat (69632 / PAGE_SIZE)) with (S 16).
  rewrite !(u32_small (start + size)) by lia. unfold mbind, M_bind, get. cbn [heap_max heap_end].
  rewrite u32_small by lia. rewrite (proj2 (Z.ltb_ge _ _)) by lia. cbn [expand_pages].
  unfold mbind, M_bind, hp, zoom. cbn [pages alloc_frame vm_pages].
  unfold on_frames, zoom. cbn [frames]. rewrite Ha. rewrite (proj2 (Z.eqb_neq a 0)) by done.
  unfold get. cbn [pages with_pages map_page vm_pages heap_end].
  rewrite map_page_faults; [done | | done | unfold u32; dlia].
  destruct (fs_alloc_ok _ (bo_frames _ Hok)) as (a' & p' & E & Hp' & Hk & _). rewrite Ha in E. injection E as <- <-.
  destruct Hok as [H1 H2 H3 H4 H5 H6 H7 H8]. split; try done; [|by apply Hk].
  intros i Hi Hpi. destruct (H4 i Hi Hpi). split; [done | by apply Hk].
Qed.
End Stack.



Lemma heap_needs_vmm_init_witness :
  kmalloc_init zero_frames 0x300000 0x1000000 (no_heap ∅ boot_vm) = Undef.
Proof.
  eapply (heap_needs_vmm_init zero_frames 0x300000 0x1000000 ∅ 0x10000 _ boot_vm);
    [exact boot_vm_ok | reflexivity | vm_compute; reflexivity | lia | lia | lia | lia].
Defined.
