(* ===== verification/ListHead.v ===== *)
(** * Circular doubly linked lists (include/list.h)

    The nodes are by address; every operation is the sequence of assignments of the
    source, which matters because the neighbours it writes to may be one and the same
    node.  [ring m h l] says that the list with head [h] holds the nodes [l]; the
    operations refine the operations on [l]. *)

From S2P Require Import Prelude.

#[local] Open Scope Z_scope.

Record list_head := { next : Z; prev : Z }.

Abbreviation links := (gmap Z list_head).

Definition load (p : Z) : M links list_head := m ← get; deref (m !! p).
Definition set_next (p v : Z) : M links unit := n ← load p; modify <[p := {| next := v; prev := prev n |}]>.
Definition set_prev (p v : Z) : M links unit := n ← load p; modify <[p := {| next := next n; prev := v |}]>.

Definition INIT_LIST_HEAD (list : Z) : M links unit := _ ← set_next list list; set_prev list list.

Definition list_add_between (new prev next : Z) : M links unit :=
  _ ← set_prev next new;
  _ ← set_next new next;
  _ ← set_prev new prev;
  set_next prev new.

Definition list_add (new head : Z) : M links unit := h ← load head; list_add_between new head (next h).
Definition list_add_tail (new head : Z) : M links unit := h ← load head; list_add_between new (prev h) head.

Definition list_del_between (prev next : Z) : M links unit := _ ← set_prev next prev; set_next prev next.

Definition list_del (entry : Z) : M links unit :=
  e ← load entry;
  _ ← list_del_between (prev e) (next e);
  _ ← set_next entry 0;
  set_prev entry 0.

Definition list_del_init (entry : Z) : M links unit :=
  e ← load entry;
  _ ← list_del_between (prev e) (next e);
  INIT_LIST_HEAD entry.

Definition list_replace (old new : Z) : M links unit :=
  o ← load old;
  _ ← set_next new (next o);
  n ← load new;
  _ ← set_prev (next n) new;
  o ← load old;
  _ ← set_prev new (prev o);
  n ← load new;
  set_next (prev n) new.

Definition list_move (list head : Z) : M links unit :=
  e ← load list;
  _ ← list_del_between (prev e) (next e);
  list_add list head.

Definition list_move_tail (list head : Z) : M links unit :=
  e ← load list;
  _ ← list_del_between (prev e) (next e);
  list_add_tail list head.

Definition list_empty (head : Z) : M links bool := h ← load head; mret (next h =? head).
Definition list_is_last (list head : Z) : M links bool := e ← load list; mret (next e =? head).

Definition list_splice_between (list before after : Z) : M links unit :=
  l ← load list;
  let first := next l in
  let last := prev l in
  _ ← set_prev first before;
  _ ← set_next before first;
  _ ← set_next last after;
  set_prev after last.

Definition list_splice (list head : Z) : M links unit :=
  e ← list_empty list;
  if negb e then h ← load head; list_splice_between list head (next h) else mret tt.

(** [list_for_each] with a body that records the position: forwards and backwards. *)
Fixpoint list_walk (fuel : nat) (pos head : Z) : M links (list Z) :=
  match fuel with
  | O => undef
  | S fuel => if pos =? head then mret [] else n ← load pos; r ← list_walk fuel (next n) head; mret (pos :: r)
  end.

Fixpoint list_walk_prev (fuel : nat) (pos head : Z) : M links (list Z) :=
  match fuel with
  | O => undef
  | S fuel => if pos =? head then mret [] else n ← load pos; r ← list_walk_prev fuel (prev n) head; mret (pos :: r)
  end.

Definition list_for_each (head : Z) : M links (list Z) := m ← get; h ← load head; list_walk (S (size m)) (next h) head.
Definition list_for_each_prev (head : Z) : M links (list Z) := m ← get; h ← load head; list_walk_prev (S (size m)) (prev h) head.

(** ** Links as two functions *)

Definition nx (m : links) (a : Z) : option Z := next <$> m !! a.
Definition pv (m : links) (a : Z) : option Z := prev <$> m !! a.

(** Every assignment changes one of them at one place. *)
Lemma set_next_spec m p v :
  is_Some (m !! p) →
  ∃ m', set_next p v m = Ret (tt, m') ∧ (∀ a, nx m' a = if a =? p then Some v else nx m a) ∧ (∀ a, pv m' a = pv m a) ∧ dom m' = dom m.
Proof.
  intros [n Hn]. eexists. split; [unfold set_next, load; by rewrite bind_assoc, bind_get, Hn|]. unfold nx, pv.
  split_and!; [intros a | intros a | by apply dom_insert_lookup_L]; [destruct (Z.eqb_spec a p) as [->|]|destruct (decide (a = p)) as [->|]];
    by rewrite ?lookup_insert_eq, ?lookup_insert_ne, ?Hn by done.
Qed.

Lemma set_prev_spec m p v :
  is_Some (m !! p) →
  ∃ m', set_prev p v m = Ret (tt, m') ∧ (∀ a, nx m' a = nx m a) ∧ (∀ a, pv m' a = if a =? p then Some v else pv m a) ∧ dom m' = dom m.
Proof.
  intros [n Hn]. eexists. split; [unfold set_prev, load; by rewrite bind_assoc, bind_get, Hn|]. unfold nx, pv.
  split_and!; [intros a | intros a | by apply dom_insert_lookup_L]; [destruct (decide (a = p)) as [->|]|destruct (Z.eqb_spec a p) as [->|]];
    by rewrite ?lookup_insert_eq, ?lookup_insert_ne, ?Hn by done.
Qed.

Lemma nx_is_Some m a : is_Some (nx m a) ↔ is_Some (m !! a).
Proof. unfold nx. by rewrite fmap_is_Some. Qed.

Lemma load_eq m p a b : nx m p = Some a → pv m p = Some b → load p m = Ret ({| next := a; prev := b |}, m).
Proof. unfold nx, pv, load. rewrite bind_get. destruct (m !! p) as [[]|]; [|done]. by intros [= ->] [= ->]. Qed.

Lemma lookup_links m m' a : nx m' a = nx m a → pv m' a = pv m a → m' !! a = m !! a.
Proof. unfold nx, pv. destruct (m' !! a) as [[]|], (m !! a) as [[]|]; cbn; congruence. Qed.

(** One assignment: its run, and the links after it. *)
Ltac assign :=
  let m' := fresh "m" in let E := fresh "E" in let Hn := fresh "Hn" in let Hp := fresh "Hp" in let Hd := fresh "Hd" in
  match goal with
  | |- ∃ _, mbind _ (set_next ?p ?v) ?m = _ ∧ _ =>
      destruct (set_next_spec m p v) as (m' & E & Hn & Hp & Hd); [by (apply elem_of_dom; congruence) | rewrite (bind_Ret _ _ _ _ _ E); clear E]
  | |- ∃ _, mbind _ (set_prev ?p ?v) ?m = _ ∧ _ =>
      destruct (set_prev_spec m p v) as (m' & E & Hn & Hp & Hd); [by (apply elem_of_dom; congruence) | rewrite (bind_Ret _ _ _ _ _ E); clear E]
  | |- ∃ _, set_next ?p ?v ?m = _ ∧ _ =>
      destruct (set_next_spec m p v) as (m' & E & Hn & Hp & Hd); [by (apply elem_of_dom; congruence) | eexists; split; [exact E | clear E]]
  | |- ∃ _, set_prev ?p ?v ?m = _ ∧ _ =>
      destruct (set_prev_spec m p v) as (m' & E & Hn & Hp & Hd); [by (apply elem_of_dom; congruence) | eexists; split; [exact E | clear E]]
  end.

(** The links after a sequence of assignments. *)
Ltac follow :=
  repeat match goal with
  | H : ∀ a, nx ?m a = _ |- context [nx ?m ?x] => rewrite (H x)
  | H : ∀ a, pv ?m a = _ |- context [pv ?m ?x] => rewrite (H x)
  end;
  repeat match goal with |- context [?x =? ?y] => destruct (Z.eqb_spec x y) end; try congruence.

(** ** Lists *)

(** Every node of a sequence is linked with its successor, in both directions. *)
Fixpoint linked (m : links) (s : list Z) : Prop :=
  match s with
  | x :: ((y :: _) as r) => (nx m x = Some y ∧ pv m y = Some x) ∧ linked m r
  | _ => True
  end.

Definition ring (m : links) (h : Z) (l : list Z) : Prop := NoDup (h :: l) ∧ linked m (h :: l ++ [h]).

Lemma linked_app m s1 x s2 : linked m (s1 ++ x :: s2) ↔ linked m (s1 ++ [x]) ∧ linked m (x :: s2).
Proof.
  induction s1 as [|a [|b s1] IH]; [cbn; tauto | cbn; tauto|].
  cbn in IH |- *. rewrite IH. tauto.
Qed.

Lemma linked_ext m m' x s a :
  last (x :: s) = Some a → NoDup (x :: s) → (∀ y, y ∈ x :: s → y ≠ a → nx m' y = nx m y) → (∀ y, y ∈ s → pv m' y = pv m y) →
  linked m (x :: s) → linked m' (x :: s).
Proof.
  revert x. induction s as [|y s IH]; intros x Ha Hd Hn Hp Hl; [done|]. destruct Hl as [[H1 H2] Hl]. apply NoDup_cons in Hd as [Hx Hd].
  rewrite last_cons_cons in Ha. split.
  - rewrite Hn, Hp by (left || (intros ->; apply Hx; by eapply last_Some_elem_of)). done.
  - apply IH; try done; intros z Hz; [intros Hza; apply Hn; [by right | done] | apply Hp; by right].
Qed.

(** The neighbours of a gap in the list. *)
Definition left_of (h : Z) (l1 : list Z) : Z := List.last l1 h.
Definition right_of (h : Z) (l2 : list Z) : Z := hd h l2.

Lemma left_split h l1 : ∃ s, h :: l1 = s ++ [left_of h l1].
Proof.
  unfold left_of. destruct l1 as [|a l1 _] using rev_ind; [by exists []|]. exists (h :: l1). by rewrite List.last_last.
Qed.

Lemma right_split h l2 : ∃ s, l2 ++ [h] = right_of h l2 :: s.
Proof. destruct l2 as [|b l2]; [by exists [] | by exists (l2 ++ [h])]. Qed.

(** A list around a gap: what lies before it, the pair, and what lies after it. *)
Lemma ring_gap m h l1 l2 :
  linked m (h :: (l1 ++ l2) ++ [h]) ↔
  linked m (h :: l1) ∧ (nx m (left_of h l1) = Some (right_of h l2) ∧ pv m (right_of h l2) = Some (left_of h l1)) ∧ linked m (l2 ++ [h]).
Proof.
  destruct (left_split h l1) as [s1 E1], (right_split h l2) as [s2 E2].
  rewrite <- app_assoc, E2. change (h :: l1 ++ right_of h l2 :: s2) with ((h :: l1) ++ right_of h l2 :: s2). rewrite E1, <- app_assoc. cbn [app].
  rewrite linked_app. cbn [linked]. tauto.
Qed.

(** A change of the two links at a gap keeps both sides. *)
Lemma sides_ext m m' h l1 l2 a b :
  NoDup (h :: l1 ++ l2) → a = left_of h l1 → b = right_of h l2 →
  (∀ x, x ∈ h :: l1 ++ l2 → x ≠ a → nx m' x = nx m x) → (∀ x, x ∈ h :: l1 ++ l2 → x ≠ b → pv m' x = pv m x) →
  linked m (h :: l1) → linked m (l2 ++ [h]) → linked m' (h :: l1) ∧ linked m' (l2 ++ [h]).
Proof.
  intros Hd -> -> Hn Hp H1 H2. destruct (left_split h l1) as [s1 E1]. apply NoDup_cons in Hd as [Hh Hd]. apply NoDup_app in Hd as (Hd1 & Hdis & Hd2). split.
  - apply (linked_ext m m' h l1 (left_of h l1)); [by rewrite E1, last_snoc | constructor; [set_solver | done] | | | done].
    + intros y Hy. apply Hn. set_solver.
    + intros y Hy. apply Hp; [set_solver|]. intros ->. destruct l2 as [|b l2]; cbn in Hy; [set_solver|]. apply (Hdis b); [done | left].
  - destruct (right_split h l2) as [s2 E2]. assert (NoDup (l2 ++ [h])) as Hd3.
    { apply NoDup_app. split_and!; [done | | apply NoDup_singleton]. intros x Hx ->%list_elem_of_singleton. set_solver. }
    rewrite E2 in *. apply (linked_ext m m' _ s2 h); [by rewrite <- E2, last_snoc | done | | | done].
    + intros y Hy Hyh. rewrite <- E2 in Hy. apply elem_of_app in Hy as [Hy|Hy]; [|set_solver]. apply Hn; [set_solver|]. intros ->.
      assert (left_of h l1 ∈ h :: l1) as Hl by (rewrite E1; set_solver). apply elem_of_cons in Hl as [Hl|Hl]; [done | by apply (Hdis _ Hl)].
    + intros y Hy. apply Hp; [assert (y ∈ l2 ++ [h]) by (rewrite E2; by right); set_solver|]. intros ->. by apply NoDup_cons in Hd3 as [? _].
Qed.

(** A list around one of its nodes. *)
Lemma ring_at m h l1 x l2 :
  linked m (h :: (l1 ++ x :: l2) ++ [h]) ↔
  linked m (h :: l1) ∧ (nx m (left_of h l1) = Some x ∧ pv m x = Some (left_of h l1)) ∧
  (nx m x = Some (right_of h l2) ∧ pv m (right_of h l2) = Some x) ∧ linked m (l2 ++ [h]).
Proof.
  destruct (left_split h l1) as [s1 E1], (right_split h l2) as [s2 E2].
  rewrite <- app_assoc. cbn [app]. rewrite E2. change (h :: l1 ++ x :: right_of h l2 :: s2) with ((h :: l1) ++ x :: right_of h l2 :: s2).
  rewrite E1, <- app_assoc. cbn [app]. rewrite linked_app. cbn [linked]. tauto.
Qed.

Lemma left_in h l1 : left_of h l1 ∈ h :: l1.
Proof. destruct (left_split h l1) as [s ->]. set_solver. Qed.
Lemma right_in h l2 : right_of h l2 ∈ h :: l2.
Proof. destruct l2; cbn; set_solver. Qed.

Lemma linked_dom m s x : linked m s → x ∈ s → (1 < length s)%nat → x ∈ dom m.
Proof.
  intros Hl Hx Hs. apply elem_of_dom. apply nx_is_Some. revert Hl Hx Hs. induction s as [|a [|b s] IH]; cbn [length]; [set_solver | lia|].
  intros [[Ha Hb] Hl] [->|Hx]%elem_of_cons _; [by eexists|]. destruct s as [|c s].
  - apply list_elem_of_singleton in Hx as ->. unfold nx. unfold pv in Hb. destruct (m !! b); [by eexists | done].
  - apply IH; [done | done | cbn; lia].
Qed.

Lemma ring_dom m h l x : ring m h l → x ∈ h :: l → x ∈ dom m.
Proof. intros [_ Hl] Hx. eapply linked_dom; [exact Hl | set_solver | cbn; rewrite length_app; cbn; lia]. Qed.

(** What happens elsewhere does not matter. *)
Lemma ring_frame m m' h l : (∀ x, x ∈ h :: l → m' !! x = m !! x) → ring m h l → ring m' h l.
Proof.
  intros Hf [Hd Hl]. split; [done|]. assert (∀ x, x ∈ h :: l ++ [h] → m' !! x = m !! x) as Hf' by (intros x Hx; apply Hf; set_solver).
  clear Hf Hd. revert Hf' Hl. generalize (h :: l ++ [h]). intros s. induction s as [|a [|b s] IH]; [done|done|]. intros Hf [[H1 H2] H3].
  split; [unfold nx, pv in *; by rewrite !Hf by set_solver | apply IH; [|done]; intros x Hx; apply Hf; by right].
Qed.

(** The run of [f] from [m] ends with the list of [h] holding [l], and has changed none but the nodes [t]. *)
Definition makes (f : M links unit) (m : links) (h : Z) (l t : list Z) : Prop :=
  ∃ m', f m = Ret (tt, m') ∧ ring m' h l ∧ dom m' = dom m ∧ ∀ x, x ∉ t → m' !! x = m !! x.

Lemma add_between_makes m h l1 l2 new :
  ring m h (l1 ++ l2) → new ∉ h :: l1 ++ l2 → new ∈ dom m →
  makes (list_add_between new (left_of h l1) (right_of h l2)) m h (l1 ++ new :: l2) (new :: h :: l1 ++ l2).
Proof.
  intros [Hd Hl] Hnew Hm. pose proof (left_in h l1) as Ha. pose proof (right_in h l2) as Hb.
  assert (left_of h l1 ∈ dom m) by (eapply ring_dom; [by split | set_solver]). assert (right_of h l2 ∈ dom m) by (eapply ring_dom; [by split | set_solver]).
  assert (left_of h l1 ≠ new) by set_solver. assert (right_of h l2 ≠ new) by set_solver.
  unfold makes, list_add_between. do 4 assign. apply ring_gap in Hl as (Hl1 & _ & Hl2).
  set (a := left_of h l1) in *. set (b := right_of h l2) in *.
  split_and!; [|congruence | intros x Hx; assert (x ≠ new ∧ x ≠ a ∧ x ≠ b) as (? & ? & ?) by (clear - Hx Ha Hb; set_solver); apply lookup_links; follow].
  assert (∀ x, x ∈ h :: l1 ++ l2 → x ≠ new) as Hne by (clear - Hnew; set_solver).
  destruct (sides_ext m m3 h l1 l2 a b Hd) as [Hs1 Hs2]; [done | done | intros x Hx%Hne Hxa; follow | intros x Hx%Hne Hxb; follow | done | done|].
  split; [rewrite <- (Permutation_middle l1 l2 new), Permutation_swap; by constructor|].
  apply ring_at. fold a b. split_and!; [done | follow | follow | follow | follow | done].
Qed.

(** Unlinking: the neighbours are joined; [entry] keeps its own links until the caller sets them. *)
Lemma del_between_run m h l1 x l2 :
  ring m h (l1 ++ x :: l2) →
  ∃ m', list_del_between (left_of h l1) (right_of h l2) m = Ret (tt, m') ∧ ring m' h (l1 ++ l2) ∧ dom m' = dom m ∧
    ∀ y, y ∉ h :: l1 ++ l2 → m' !! y = m !! y.
Proof.
  intros Hr. pose proof Hr as [Hd Hl]. pose proof (left_in h l1) as Ha. pose proof (right_in h l2) as Hb.
  assert (left_of h l1 ∈ dom m) by (eapply ring_dom; [done | set_solver]). assert (right_of h l2 ∈ dom m) by (eapply ring_dom; [done | set_solver]).
  assert (NoDup (h :: l1 ++ l2)) as Hd' by (rewrite <- (Permutation_middle l1 l2 x), Permutation_swap in Hd; by apply NoDup_cons in Hd as [_ ?]).
  unfold list_del_between. do 2 assign. apply ring_at in Hl as (Hl1 & _ & _ & Hl2).
  set (a := left_of h l1) in *. set (b := right_of h l2) in *.
  split_and!; [|congruence | intros y Hy; assert (y ≠ a ∧ y ≠ b) as [? ?] by (clear - Hy Ha Hb; set_solver); apply lookup_links; follow].
  split; [done|]. destruct (sides_ext m m1 h l1 l2 a b Hd') as [Hs1 Hs2]; [done | done | intros y Hy Hya; follow | intros y Hy Hyb; follow | done | done|].
  apply ring_gap. fold a b. split_and!; [done | follow | follow | done].
Qed.

Lemma node_load m h l1 x l2 :
  ring m h (l1 ++ x :: l2) → load x m = Ret ({| next := right_of h l2; prev := left_of h l1 |}, m).
Proof. intros [_ Hl]. apply ring_at in Hl as (_ & [? ?] & [? ?] & _). by apply load_eq. Qed.

Lemma load_head m h l : ring m h l → load h m = Ret ({| next := right_of h l; prev := left_of h l |}, m).
Proof.
  intros [_ Hl]. apply load_eq.
  - by apply (ring_gap m h [] l) in Hl as (_ & [? ?] & _).
  - rewrite <- (app_nil_r l) in Hl. by apply ring_gap in Hl as (_ & [? ?] & _).
Qed.

Lemma ring_mid m h l1 x l2 : ring m h (l1 ++ x :: l2) → x ∈ dom m ∧ x ∉ h :: l1 ++ l2.
Proof.
  intros Hr. split; [eapply ring_dom; [done | set_solver]|].
  destruct Hr as [Hd _]. rewrite <- (Permutation_middle l1 l2 x), Permutation_swap in Hd. by apply NoDup_cons in Hd as [? _].
Qed.

(** ** The operations *)

Lemma list_add_makes m h l new :
  ring m h l → new ∉ h :: l → new ∈ dom m → makes (list_add new h) m h (new :: l) (new :: h :: l).
Proof.
  intros Hr Hn Hm. unfold makes, list_add. rewrite (bind_Ret _ _ _ _ _ (load_head _ _ _ Hr)). by apply (add_between_makes m h [] l new).
Qed.

Lemma list_add_tail_makes m h l new :
  ring m h l → new ∉ h :: l → new ∈ dom m → makes (list_add_tail new h) m h (l ++ [new]) (new :: h :: l).
Proof.
  intros Hr Hn Hm. unfold makes, list_add_tail. rewrite (bind_Ret _ _ _ _ _ (load_head _ _ _ Hr)).
  pose proof (add_between_makes m h l [] new) as Ha. rewrite (app_nil_r l) in Ha. by apply Ha.
Qed.

(** [list_add_tail] at a node of the list inserts before it. *)
Lemma list_add_before_makes m h l1 p l2 new :
  ring m h (l1 ++ p :: l2) → new ∉ h :: l1 ++ p :: l2 → new ∈ dom m →
  makes (list_add_tail new p) m h (l1 ++ new :: p :: l2) (new :: h :: l1 ++ p :: l2).
Proof.
  intros Hr Hn Hm. unfold makes, list_add_tail. rewrite (bind_Ret _ _ _ _ _ (node_load _ _ _ _ _ Hr)). by apply (add_between_makes m h l1 (p :: l2) new).
Qed.

Lemma list_del_makes m h l1 x l2 :
  ring m h (l1 ++ x :: l2) →
  ∃ m', list_del x m = Ret (tt, m') ∧ ring m' h (l1 ++ l2) ∧ m' !! x = Some {| next := 0; prev := 0 |} ∧ dom m' = dom m ∧
    ∀ y, y ∉ h :: l1 ++ x :: l2 → m' !! y = m !! y.
Proof.
  intros Hr. destruct (ring_mid m h l1 x l2 Hr) as [? Hx].
  unfold list_del. rewrite (bind_Ret _ _ _ _ _ (node_load _ _ _ _ _ Hr)). cbn [next prev].
  destruct (del_between_run m h l1 x l2 Hr) as (m1 & E1 & Hr1 & Hd1 & Hf1). rewrite (bind_Ret _ _ _ _ _ E1). do 2 assign.
  assert (∀ y, y ≠ x → m2 !! y = m1 !! y) as Hf by (intros y Hy; apply lookup_links; follow). split_and!.
  - apply (ring_frame m1); [|done]. intros y Hy. apply Hf. set_solver.
  - assert (nx m2 x = Some 0) as H1 by follow. assert (pv m2 x = Some 0) as H2 by follow. unfold nx, pv in H1, H2. destruct (m2 !! x) as [[]|]; cbn in *; congruence.
  - congruence.
  - intros y Hy. rewrite Hf by set_solver. apply Hf1. set_solver.
Qed.

Lemma INIT_LIST_HEAD_makes m x : x ∈ dom m → makes (INIT_LIST_HEAD x) m x [] [x].
Proof.
  intros Hx. unfold makes, INIT_LIST_HEAD. do 2 assign. split_and!; [|congruence | intros y Hy; apply lookup_links; follow; set_solver].
  split; [apply NoDup_singleton|]. cbn. split_and!; [follow | follow | done].
Qed.

Lemma list_del_init_makes m h l1 x l2 :
  ring m h (l1 ++ x :: l2) →
  ∃ m', list_del_init x m = Ret (tt, m') ∧ ring m' h (l1 ++ l2) ∧ ring m' x [] ∧ dom m' = dom m ∧ ∀ y, y ∉ h :: l1 ++ x :: l2 → m' !! y = m !! y.
Proof.
  intros Hr. destruct (ring_mid m h l1 x l2 Hr) as [? Hx].
  unfold list_del_init. rewrite (bind_Ret _ _ _ _ _ (node_load _ _ _ _ _ Hr)). cbn [next prev].
  destruct (del_between_run m h l1 x l2 Hr) as (m1 & E1 & Hr1 & Hd1 & Hf1). rewrite (bind_Ret _ _ _ _ _ E1).
  destruct (INIT_LIST_HEAD_makes m1 x) as (m2 & E2 & Hr2 & Hd2 & Hf2); [congruence|]. exists m2. split_and!; [done | | done | congruence|].
  - apply (ring_frame m1); [|done]. intros y Hy. apply Hf2. set_solver.
  - intros y Hy. rewrite Hf2 by set_solver. apply Hf1. set_solver.
Qed.

Lemma list_replace_makes m h l1 x l2 new :
  ring m h (l1 ++ x :: l2) → new ∉ h :: l1 ++ x :: l2 → new ∈ dom m →
  makes (list_replace x new) m h (l1 ++ new :: l2) (new :: h :: l1 ++ l2).
Proof.
  intros Hr Hn Hm. pose proof Hr as [Hd Hl]. pose proof (left_in h l1) as Ha. pose proof (right_in h l2) as Hb.
  assert (left_of h l1 ∈ dom m) by (eapply ring_dom; [done | set_solver]). assert (right_of h l2 ∈ dom m) by (eapply ring_dom; [done | set_solver]).
  rewrite <- (Permutation_middle l1 l2 x), Permutation_swap in Hd. apply NoDup_cons in Hd as [Hx Hd].
  apply ring_at in Hl as (Hl1 & [Hax Hxa] & [Hxb Hbx] & Hl2). set (a := left_of h l1) in *. set (b := right_of h l2) in *.
  assert (a ≠ new) by set_solver. assert (b ≠ new) by set_solver. assert (x ≠ new) by set_solver. assert (x ≠ b) by set_solver. assert (x ≠ a) by set_solver.
  unfold makes, list_replace. rewrite (bind_Ret _ _ _ _ _ (load_eq m x b a Hxb Hxa)). cbn [next]. assign.
  apply elem_of_dom in Hm as [[nn np] Hm]. assert (pv m new = Some np) by (unfold pv; by rewrite Hm). assert (new ∈ dom m) by (apply elem_of_dom; by eexists).
  rewrite (bind_Ret _ _ _ _ _ (load_eq m0 new b np ltac:(follow) ltac:(follow))). cbn [next]. assign.
  rewrite (bind_Ret _ _ _ _ _ (load_eq m1 x b a ltac:(follow) ltac:(follow))). cbn [prev]. assign.
  rewrite (bind_Ret _ _ _ _ _ (load_eq m2 new b a ltac:(follow) ltac:(follow))). cbn [prev]. assign.
  split_and!; [|congruence | intros y Hy; assert (y ≠ new ∧ y ≠ a ∧ y ≠ b) as (? & ? & ?) by (clear - Hy Ha Hb; set_solver); apply lookup_links; follow].
  assert (∀ y, y ∈ h :: l1 ++ l2 → y ≠ new) as Hne by (clear - Hn; set_solver).
  destruct (sides_ext m m3 h l1 l2 a b Hd) as [Hs1 Hs2]; [done | done | intros y Hy%Hne Hya; follow | intros y Hy%Hne Hyb; follow | done | done|].
  split; [rewrite <- (Permutation_middle l1 l2 new), Permutation_swap; constructor; [clear - Hn; set_solver | done]|].
  apply ring_at. fold a b. split_and!; [done | follow | follow | follow | follow | done].
Qed.

Lemma list_move_makes (tail : bool) m h l1 x l2 h' l' :
  ring m h (l1 ++ x :: l2) → ring m h' l' → (∀ y, y ∈ h' :: l' → y ∉ h :: l1 ++ x :: l2) →
  ∃ m', (if tail then list_move_tail x h' else list_move x h') m = Ret (tt, m') ∧ ring m' h (l1 ++ l2) ∧
    ring m' h' (if tail then l' ++ [x] else x :: l') ∧ dom m' = dom m ∧ ∀ y, y ∉ h :: l1 ++ x :: l2 → y ∉ h' :: l' → m' !! y = m !! y.
Proof.
  intros Hr Hr' Hdis. destruct (ring_mid m h l1 x l2 Hr) as [? Hx].
  destruct (del_between_run m h l1 x l2 Hr) as (m1 & E1 & Hr1 & Hd1 & Hf1).
  assert (ring m1 h' l') as Hr1' by (apply (ring_frame m); [|done]; intros y Hy; apply Hf1; specialize (Hdis y Hy); set_solver).
  assert (x ∉ h' :: l') as Hx' by (intros Hy; apply (Hdis x Hy); set_solver).
  assert (makes (if tail then list_add_tail x h' else list_add x h') m1 h' (if tail then l' ++ [x] else x :: l') (x :: h' :: l')) as (m2 & E2 & Hr2 & Hd2 & Hf2).
  { destruct tail; [apply list_add_tail_makes | apply list_add_makes]; congruence || done. }
  exists m2. split_and!; [| | done | congruence |].
  - destruct tail; unfold list_move_tail, list_move; rewrite (bind_Ret _ _ _ _ _ (node_load _ _ _ _ _ Hr)); cbn [next prev]; by rewrite (bind_Ret _ _ _ _ _ E1).
  - apply (ring_frame m1); [|done]. intros y Hy. apply Hf2. intros [->|Hy']%elem_of_cons; [done|]. apply (Hdis y Hy'). set_solver.
  - intros y Hy Hy'. rewrite Hf2 by set_solver. apply Hf1. set_solver.
Qed.

Lemma linked_app_l m s1 s2 : linked m (s1 ++ s2) → linked m s1.
Proof. destruct s2 as [|x s2]; [by rewrite app_nil_r|]. intros [H _]%linked_app. revert H. induction s1 as [|a [|b s1] IH]; [done | done|]. intros [? ?]. split; [done|]. by apply IH. Qed.

(** The inside of a list, between its first and its last node. *)
Lemma ring_inner m h f s :
  ring m h (f :: s) → ∃ s', f :: s = s' ++ [left_of h (f :: s)] ∧ linked m (f :: s) ∧ NoDup (f :: s).
Proof.
  intros [Hd [_ Hl]]. apply NoDup_cons in Hd as [_ Hd]. change (linked m ((f :: s) ++ [h])) in Hl. apply linked_app_l in Hl.
  destruct (left_split h (f :: s)) as [[|x s'] E]; cbn [app] in E; injection E as E1 E2; [done|]. by exists s'.
Qed.

Lemma list_splice_makes m h l h' l' :
  ring m h l → ring m h' l' → (∀ y, y ∈ h' :: l' → y ∉ h :: l) → makes (list_splice h' h) m h (l' ++ l) (h :: l ++ l').
Proof.
  intros Hr Hr' Hdis. unfold makes, list_splice, list_empty. pose proof (load_head _ _ _ Hr') as El'.
  rewrite bind_assoc, (bind_Ret _ _ _ _ _ El'). cbn [next prev]. rewrite (bind_Ret _ _ m _ _ eq_refl).
  destruct l' as [|f s]; [cbn; rewrite Z.eqb_refl; by exists m|]. destruct (ring_inner _ _ _ _ Hr') as (s' & Es & Hl' & Hd').
  assert (f ≠ h') by (destruct Hr' as [Hx _]; apply NoDup_cons in Hx as [Hx _]; set_solver).
  cbn [right_of hd] in El' |- *. rewrite (proj2 (Z.eqb_neq f h')) by done. cbn [negb]. rewrite (bind_Ret _ _ _ _ _ (load_head _ _ _ Hr)).
  unfold list_splice_between. cbn [next]. rewrite (bind_Ret _ _ _ _ _ El'). cbn [next prev]. set (e := left_of h' (f :: s)) in *. set (b := right_of h l) in *.
  assert (e ∈ f :: s) as He by (rewrite Es; set_solver). assert (b ∈ h :: l) as Hb by apply right_in.
  assert (∀ y, y ∈ f :: s → y ∈ dom m ∧ y ∉ h :: l) as Hin by (intros y Hy; split; [eapply ring_dom; [exact Hr' | by right] | apply Hdis; by right]).
  assert (∀ y, y ∈ h :: l → y ∈ dom m) as Hin' by (intros y Hy; exact (ring_dom m h l y Hr Hy)).
  destruct (Hin e He) as [? Heh], (Hin f ltac:(left)) as [? Hfh]. pose proof (Hin' b Hb). pose proof (Hin' h ltac:(left)).
  assert (∀ y z, y ∉ h :: l → z ∈ h :: l → y ≠ z) as Hyz by congruence.
  pose proof (Hyz _ h Heh ltac:(left)). pose proof (Hyz _ h Hfh ltac:(left)). pose proof (Hyz _ _ Heh Hb). pose proof (Hyz _ _ Hfh Hb). clear El' Hyz.
  destruct Hr as [Hdl Hl]. do 4 assign. apply (ring_gap m h [] l) in Hl as (_ & _ & Hl). destruct (right_split h l) as [s2 E2].
  assert (∀ y, y ∈ l ++ [h] → y ≠ e ∧ y ≠ f) as Hne by (clear - Heh Hfh; set_solver).
  assert (∀ y, y ∈ f :: s → y ≠ h ∧ y ≠ b) as Hne' by (clear - Hin Hb; intros y [_ Hy]%Hin; set_solver).
  split_and!; [|congruence|].
  - split.
    { change (NoDup ([h] ++ (f :: s) ++ l)). rewrite (Permutation_app_comm (f :: s)). cbn. change (NoDup ((h :: l) ++ (f :: s))). apply NoDup_app.
      split_and!; [done | intros y Hy Hy'; by apply (Hin y Hy') | done]. }
    rewrite <- app_assoc, Es, <- app_assoc, E2. fold b. cbn [app]. change (h :: s' ++ e :: b :: s2) with ((h :: s') ++ e :: b :: s2). rewrite linked_app. cbn [app]. rewrite <- Es.
    cbn [linked]. fold (linked m3 (f :: s)) (linked m3 (b :: s2)). split_and!; [follow | follow | | follow | follow |].
    + apply (linked_ext m m3 f s e); [by rewrite Es, last_snoc | done | intros y Hy ?; destruct (Hne' y Hy); follow | intros y Hy | done].
      destruct (Hne' y ltac:(by right)). assert (y ≠ f) by (apply NoDup_cons in Hd' as [? _]; set_solver). follow.
    + rewrite E2 in Hl. fold b in Hl. assert (NoDup (b :: s2)) as Hdb.
      { unfold b. rewrite <- E2, <- Permutation_cons_append. done. }
      apply (linked_ext m m3 b s2 h); [unfold b; by rewrite <- E2, last_snoc | done | intros y Hy ? | intros y Hy | done].
      * destruct (Hne y); [by rewrite E2|]. follow.
      * destruct (Hne y); [rewrite E2; by right|]. assert (y ≠ b) by (apply NoDup_cons in Hdb as [? _]; set_solver). follow.
  - intros y Hy. assert (y ≠ h ∧ y ≠ b ∧ y ≠ e ∧ y ≠ f) as (? & ? & ? & ?) by (clear - Hy Hb He; set_solver). apply lookup_links; follow.
Qed.

(** ** Traversal *)

Lemma list_walk_spec m h l fuel :
  h ∉ l → linked m (l ++ [h]) → (length l < fuel)%nat → list_walk fuel (right_of h l) h m = Ret (l, m).
Proof.
  revert fuel. induction l as [|x l IH]; intros [|fuel] Hh Hl Hf; cbn [length] in Hf; try lia; cbn [list_walk right_of hd]; [by rewrite Z.eqb_refl|].
  rewrite (proj2 (Z.eqb_neq x h)) by set_solver. assert (nx m x = Some (right_of h l)) as Hx by (destruct l; apply Hl).
  assert (is_Some (pv m x)) as [p Hp] by (unfold nx in Hx; unfold pv; destruct (m !! x); [by eexists | done]).
  rewrite (bind_Ret _ _ _ _ _ (load_eq _ _ _ _ Hx Hp)). cbn [next]. erewrite bind_Ret; [done|]. apply IH; [set_solver | | lia].
  destruct l; [done | apply Hl].
Qed.

Lemma list_walk_prev_spec m h l fuel :
  h ∉ l → linked m (h :: l) → (length l < fuel)%nat → list_walk_prev fuel (left_of h l) h m = Ret (rev l, m).
Proof.
  revert fuel. induction l as [|x l IH] using rev_ind; intros [|fuel] Hh Hl Hf; rewrite ?length_app in Hf; cbn [length] in Hf; try lia;
    cbn [list_walk_prev]; [unfold left_of; cbn; by rewrite Z.eqb_refl|].
  unfold left_of. rewrite List.last_last, (proj2 (Z.eqb_neq x h)) by set_solver. destruct (left_split h l) as [s E].
  change (h :: l ++ [x]) with ((h :: l) ++ [x]) in Hl. rewrite E, <- app_assoc in Hl. cbn [app] in Hl. apply linked_app in Hl as [Hl [[_ Hx] _]]. rewrite <- E in Hl.
  assert (is_Some (nx m x)) as [n Hn] by (unfold pv in Hx; unfold nx; destruct (m !! x); [by eexists | done]).
  rewrite (bind_Ret _ _ _ _ _ (load_eq _ _ _ _ Hn Hx)). cbn [prev]. rewrite rev_unit. erewrite bind_Ret; [done|]. apply IH; [set_solver | done | lia].
Qed.

Lemma ring_size m h l : ring m h l → (length l < size m)%nat.
Proof.
  intros Hr. pose proof Hr as [Hd _]. rewrite <- size_dom. change (length (h :: l) ≤ size (dom m))%nat.
  rewrite <- (size_list_to_set (C := gset Z) _ Hd). apply subseteq_size. intros x Hx%elem_of_list_to_set. by eapply ring_dom.
Qed.

(** traversals end: on a list that holds [l], [list_for_each] visits exactly [l], in order, [list_for_each_prev] visits it in
    reverse order, neither changes a link, and [list_empty] and [list_is_last] say what they should. *)
Theorem list_for_each_correct m h l :
  ring m h l →
  list_for_each h m = Ret (l, m) ∧ list_for_each_prev h m = Ret (rev l, m) ∧ list_empty h m = Ret (bool_decide (l = []), m) ∧
  ∀ l1 x l2, l = l1 ++ x :: l2 → list_is_last x h m = Ret (bool_decide (l2 = []), m).
Proof.
  intros Hr. pose proof (ring_size m h l Hr). pose proof Hr as [Hd Hl]. apply NoDup_cons in Hd as [Hh Hd]. split_and!.
  - unfold list_for_each. rewrite bind_get, (bind_Ret _ _ _ _ _ (load_head _ _ _ Hr)). apply list_walk_spec; [done | | lia]. by apply (ring_gap m h [] l) in Hl as (_ & _ & ?).
  - unfold list_for_each_prev. rewrite bind_get, (bind_Ret _ _ _ _ _ (load_head _ _ _ Hr)). apply list_walk_prev_spec; [done | | lia].
    rewrite <- (app_nil_r l) in Hl. by apply ring_gap in Hl as (? & _ & _).
  - unfold list_empty. rewrite (bind_Ret _ _ _ _ _ (load_head _ _ _ Hr)). destruct l as [|x l]; cbn; [by rewrite Z.eqb_refl|].
    by rewrite (proj2 (Z.eqb_neq x h)) by set_solver.
  - intros l1 x l2 ->. unfold list_is_last. rewrite (bind_Ret _ _ _ _ _ (node_load _ _ _ _ _ Hr)). destruct l2 as [|y l2]; cbn; [by rewrite Z.eqb_refl|].
    by rewrite (proj2 (Z.eqb_neq y h)) by set_solver.
Qed.

(** ** The list operations refine those on sequences *)

(** C36: on a list that holds [l1 ++ x :: l2] and for a node [new] outside it: [list_add], [list_add_tail], [list_add_tail] at the node
    [x] (insertion before it), [list_del], [list_del_init] and [list_replace] run without a fault, leave the list with exactly the
    expected sequence of nodes, and write to no node outside the list but [new]; also when head, neighbours and node coincide. *)
Theorem list_ops_refine m h l1 x l2 new :
  ring m h (l1 ++ x :: l2) → new ∉ h :: l1 ++ x :: l2 → new ∈ dom m →
  let t := new :: h :: l1 ++ x :: l2 in
  makes (list_add new h) m h (new :: l1 ++ x :: l2) t ∧ makes (list_add_tail new h) m h (l1 ++ x :: l2 ++ [new]) t ∧
  makes (list_add_tail new x) m h (l1 ++ new :: x :: l2) t ∧ makes (list_del x) m h (l1 ++ l2) t ∧
  makes (list_del_init x) m h (l1 ++ l2) t ∧ makes (list_replace x new) m h (l1 ++ new :: l2) t.
Proof.
  intros Hr Hn Hm t. split_and!.
  - by apply list_add_makes.
  - change (l1 ++ x :: l2 ++ [new]) with (l1 ++ (x :: l2) ++ [new]). rewrite app_assoc. by apply list_add_tail_makes.
  - by apply list_add_before_makes.
  - destruct (list_del_makes m h l1 x l2 Hr) as (m' & E & Hr' & _ & Hd & Hf). exists m'. split_and!; [done | done | done |]. intros y Hy. apply Hf. set_solver.
  - destruct (list_del_init_makes m h l1 x l2 Hr) as (m' & E & Hr' & _ & Hd & Hf). exists m'. split_and!; [done | done | done |]. intros y Hy. apply Hf. set_solver.
  - destruct (list_replace_makes m h l1 x l2 new Hr Hn Hm) as (m' & E & Hr' & Hd & Hf). exists m'. split_and!; [done | done | done |]. intros y Hy. apply Hf. set_solver.
Qed.

(** between two disjoint lists [list_move] and [list_move_tail] take the node out of the one and put it first or last in the
    other, and [list_splice] puts the whole sequence of the one in front of the other's. *)
Theorem list_move_splice_refine m h l1 x l2 h' l' :
  ring m h (l1 ++ x :: l2) → ring m h' l' → (∀ y, y ∈ h' :: l' → y ∉ h :: l1 ++ x :: l2) →
  (∃ m', list_move x h' m = Ret (tt, m') ∧ ring m' h (l1 ++ l2) ∧ ring m' h' (x :: l')) ∧
  (∃ m', list_move_tail x h' m = Ret (tt, m') ∧ ring m' h (l1 ++ l2) ∧ ring m' h' (l' ++ [x])) ∧
  (∃ m', list_splice h' h m = Ret (tt, m') ∧ ring m' h (l' ++ l1 ++ x :: l2)).
Proof.
  intros Hr Hr' Hdis. split_and!.
  - destruct (list_move_makes false m h l1 x l2 h' l' Hr Hr' Hdis) as (m' & ? & ? & ? & _). by exists m'.
  - destruct (list_move_makes true m h l1 x l2 h' l' Hr Hr' Hdis) as (m' & ? & ? & ? & _). by exists m'.
  - destruct (list_splice_makes m h _ h' l' Hr Hr' Hdis) as (m' & ? & ? & _). by exists m'.
Qed.

(** ** Examples *)

Definition demo_links : links :=
  <[1 := {| next := 2; prev := 3 |}]> (<[2 := {| next := 3; prev := 1 |}]> (<[3 := {| next := 1; prev := 2 |}]>
  (<[4 := {| next := 4; prev := 4 |}]> (<[5 := {| next := 6; prev := 6 |}]> (<[6 := {| next := 5; prev := 5 |}]> ∅))))).

Lemma demo_rings : ring demo_links 1 ([2] ++ 3 :: []) ∧ ring demo_links 5 [6].
Proof. split; (split; [repeat constructor; set_solver | by vm_compute]). Qed.

Lemma list_for_each_correct_witness : list_for_each 1 demo_links = Ret ([2; 3], demo_links).
Proof. apply (list_for_each_correct demo_links 1 [2; 3]). apply demo_rings. Defined.

Lemma list_ops_refine_witness : makes (list_replace 3 4) demo_links 1 [2; 4] [4; 1; 2; 3].
Proof. apply (list_ops_refine demo_links 1 [2] 3 [] 4); [apply demo_rings | set_solver | apply elem_of_dom; by eexists]. Defined.

Lemma list_move_splice_refine_witness : ∃ m', list_splice 5 1 demo_links = Ret (tt, m') ∧ ring m' 1 [6; 2; 3].
Proof. apply (list_move_splice_refine demo_links 1 [2] 3 [] 5 [6]); [apply demo_rings | apply demo_rings | set_solver]. Defined.
