(* ===== verification/Mqueue.v ===== *)
(** * Message queues (kernel/ipc/mqueue.c, include/ipc/mqueue.h)

    Queues and messages are by address, and their [list_head] members are nodes of the
    lists of ListHead.v at their offsets, so that the global list of queues and the
    lists of messages are the linked structures of the source.  The result of [kmalloc]
    and the links it finds in the new block are arguments of the functions that call
    it; a freed block is no longer in the state.  Buffers of the caller are lists of
    bytes, [None] for a null pointer. *)

From stdpp Require Import functions sorting.
From S2P Require Import Prelude Errno ListHead.

#[local] Open Scope Z_scope.

Abbreviation MQ_MAX_QUEUES := 64%Z (only parsing).
Abbreviation MQ_MAX_MESSAGES := 32%Z (only parsing).
Abbreviation MQ_MAX_MSG_SIZE := 8192%Z (only parsing).
Abbreviation MQ_PRIO_MAX := 32768%Z (only parsing).
Abbreviation MQ_FLAG_NONBLOCK := 1%Z (only parsing).
Definition O_CREAT : Z := 0x40.
Definition O_EXCL : Z := 0x80.
Definition O_NONBLOCK : Z := 0x800.

(** The member [list] of a message is the node at its address. *)
Record mq_message := { priority : Z; size : Z; data : list Z }.

Record mq_attr := { mq_flags : Z; mq_maxmsg : Z; mq_msgsize : Z; mq_curmsgs : Z }.

Record mqueue := {
  name : list Z;
  flags : Z;
  attr : mq_attr;
  refcount : Z;
  total_sent : Z;
  total_recv : Z;
}.

(** The members of type [list_head] of the queue at [q]. *)
Definition messages (q : Z) : Z := q + 84.
Definition wait_send (q : Z) : Z := q + 92.
Definition wait_recv (q : Z) : Z := q + 100.
Definition list_of (q : Z) : Z := q + 128.
Definition sizeof_mqueue : Z := 136.
Definition sizeof_mq_message : Z := 16.

Record mqueue_manager := { queue_count : Z; total_messages : Z; total_bytes : Z }.

Record mqst := {
  ln : links;
  msgs : gmap Z mq_message;
  mqs : gmap Z mqueue;
  mgr : mqueue_manager;
}.

Definition with_ln (l : links) (s : mqst) : mqst := {| ln := l; msgs := msgs s; mqs := mqs s; mgr := mgr s |}.
Definition with_msgs (m : gmap Z mq_message) (s : mqst) : mqst := {| ln := ln s; msgs := m; mqs := mqs s; mgr := mgr s |}.
Definition with_mqs (q : gmap Z mqueue) (s : mqst) : mqst := {| ln := ln s; msgs := msgs s; mqs := q; mgr := mgr s |}.
Definition with_mgr (g : mqueue_manager) (s : mqst) : mqst := {| ln := ln s; msgs := msgs s; mqs := mqs s; mgr := g |}.

Definition with_refcount (v : Z) (q : mqueue) : mqueue :=
  {| name := name q; flags := flags q; attr := attr q; refcount := v; total_sent := total_sent q; total_recv := total_recv q |}.
Definition with_flags (f af : Z) (q : mqueue) : mqueue :=
  {| name := name q; flags := f;
     attr := {| mq_flags := af; mq_maxmsg := mq_maxmsg (attr q); mq_msgsize := mq_msgsize (attr q); mq_curmsgs := mq_curmsgs (attr q) |};
     refcount := refcount q; total_sent := total_sent q; total_recv := total_recv q |}.

(** [mq->attr.mq_curmsgs = cur] and the two counters. *)
Definition with_traffic (cur sent recv : Z) (q : mqueue) : mqueue :=
  {| name := name q; flags := flags q;
     attr := {| mq_flags := mq_flags (attr q); mq_maxmsg := mq_maxmsg (attr q); mq_msgsize := mq_msgsize (attr q); mq_curmsgs := cur |};
     refcount := refcount q; total_sent := sent; total_recv := recv |}.

Definition on_links {A} (f : M links A) : M mqst A := zoom ln with_ln f.
Definition queue (q : Z) : M mqst mqueue := s ← get; deref (mqs s !! q).
Definition set_queue (q : Z) (r : mqueue) : M mqst unit := modify (λ s, with_mqs (<[q := r]> (mqs s)) s).
Definition message (p : Z) : M mqst mq_message := s ← get; deref (msgs s !! p).

(** [kfree] of a message, and of a queue with its four nodes. *)
Definition kfree_message (p : Z) : M mqst unit :=
  _ ← message p; modify (λ s, with_ln (delete p (ln s)) (with_msgs (delete p (msgs s)) s)).
Definition nodes_of_queue (q : Z) : list Z := [messages q; wait_send q; wait_recv q; list_of q].
Definition kfree_queue (q : Z) : M mqst unit :=
  _ ← queue q; modify (λ s, with_ln (foldr delete (ln s) (nodes_of_queue q)) (with_mqs (delete q (mqs s)) s)).

Section Queues.

(** The address of [g_mqueue_manager.queues]. *)
Variable queues : Z.

Definition mqueue_init : M mqst unit :=
  _ ← on_links (INIT_LIST_HEAD queues);
  modify (with_mgr {| queue_count := 0; total_messages := 0; total_bytes := 0 |}).

Fixpoint find_loop (fuel : nat) (pos : Z) (nm : list Z) : M mqst Z :=
  match fuel with
  | O => undef
  | S fuel =>
      if pos =? queues then mret 0
      else
        let mq := pos - list_of 0 in
        q ← queue mq;
        if bool_decide (name q = nm) then mret mq
        else n ← on_links (load pos); find_loop fuel (next n) nm
  end.

Definition mqueue_find (nm : list Z) : M mqst Z :=
  s ← get; h ← on_links (load queues); find_loop (S (base.size (ln s))) (next h) nm.

(** The attributes of a new queue. *)
Definition new_attr (fl : Z) (at_ : option mq_attr) : mq_attr :=
  match at_ with
  | Some a =>
      {| mq_flags := mq_flags a;
         mq_maxmsg := if (mq_maxmsg a =? 0) || (MQ_MAX_MESSAGES <? mq_maxmsg a) then MQ_MAX_MESSAGES else mq_maxmsg a;
         mq_msgsize := if (mq_msgsize a =? 0) || (MQ_MAX_MSG_SIZE <? mq_msgsize a) then MQ_MAX_MSG_SIZE else mq_msgsize a;
         mq_curmsgs := mq_curmsgs a |}
  | None => {| mq_flags := fl; mq_maxmsg := MQ_MAX_MESSAGES; mq_msgsize := MQ_MAX_MSG_SIZE; mq_curmsgs := 0 |}
  end.

Definition new_queue (nm : list Z) (oflag : Z) (at_ : option mq_attr) : mqueue :=
  let fl := if negb (Z.land oflag O_NONBLOCK =? 0) then MQ_FLAG_NONBLOCK else 0 in
  {| name := take 63 nm; flags := fl; attr := new_attr fl at_; refcount := 1; total_sent := 0; total_recv := 0 |}.

(** The new block holds four nodes, with the links [junk]. *)
Definition mq_open (nm : option (list Z)) (oflag : Z) (at_ : option mq_attr) (mem : Z) (junk : list_head) : M mqst Z :=
  match nm with
  | None => mret 0
  | Some nm =>
      if negb (hd 0 nm =? 47) then mret 0
      else
        mq ← mqueue_find nm;
        if negb (mq =? 0) then
          if negb (Z.land oflag O_CREAT =? 0) && negb (Z.land oflag O_EXCL =? 0) then mret 0
          else q ← queue mq; _ ← set_queue mq (with_refcount (u32 (refcount q + 1)) q); mret mq
        else if Z.land oflag O_CREAT =? 0 then mret 0
        else
          s ← get;
          if MQ_MAX_QUEUES <=? queue_count (mgr s) then mret 0
          else if mem =? 0 then mret 0
          else
            _ ← modify (λ s, with_ln (foldr (λ n, <[n := junk]>) (ln s) (nodes_of_queue mem)) s);
            _ ← set_queue mem (new_queue nm oflag at_);
            _ ← on_links (INIT_LIST_HEAD (messages mem));
            _ ← on_links (INIT_LIST_HEAD (wait_send mem));
            _ ← on_links (INIT_LIST_HEAD (wait_recv mem));
            _ ← on_links (INIT_LIST_HEAD (list_of mem));
            _ ← on_links (list_add_tail (list_of mem) queues);
            _ ← modify (λ s, with_mgr {| queue_count := u32 (queue_count (mgr s) + 1); total_messages := total_messages (mgr s);
                                         total_bytes := total_bytes (mgr s) |} s);
            mret mem
  end.

Definition mq_close (mq : Z) : M mqst Z :=
  if mq =? 0 then mret (- EINVAL)
  else
    q ← queue mq;
    _ ← (if 0 <? refcount q then set_queue mq (with_refcount (refcount q - 1) q) else mret tt);
    mret 0.

(** [list_for_each_entry_safe] with the body of [mq_unlink]. *)
Fixpoint free_loop (fuel : nat) (pos tmp head : Z) : M mqst unit :=
  match fuel with
  | O => undef
  | S fuel =>
      if pos =? head then mret tt
      else
        _ ← on_links (list_del pos);
        _ ← kfree_message pos;
        n ← on_links (load tmp);
        free_loop fuel tmp (next n) head
  end.

Definition mq_unlink (nm : list Z) : M mqst Z :=
  mq ← mqueue_find nm;
  if mq =? 0 then mret (- ENOENT)
  else
    q ← queue mq;
    if 0 <? refcount q then mret 0
    else
      s ← get;
      h ← on_links (load (messages mq));
      first ← on_links (load (next h));
      _ ← free_loop (S (base.size (ln s))) (next h) (next first) (messages mq);
      _ ← on_links (list_del (list_of mq));
      _ ← modify (λ s, with_mgr {| queue_count := u32 (queue_count (mgr s) - 1); total_messages := total_messages (mgr s);
                                   total_bytes := total_bytes (mgr s) |} s);
      _ ← kfree_queue mq;
      mret 0.

(** The loop of [mq_send]: the value of [inserted]. *)
Fixpoint send_loop (fuel : nat) (pos head msg msg_prio : Z) : M mqst bool :=
  match fuel with
  | O => undef
  | S fuel =>
      if pos =? head then mret false
      else
        m ← message pos;
        if priority m <? msg_prio then _ ← on_links (list_add_tail msg pos); mret true
        else n ← on_links (load pos); send_loop fuel (next n) head msg msg_prio
  end.

Definition mq_send (mq : Z) (msg_ptr : option (list Z)) (msg_len msg_prio mem : Z) (junk : list_head) : M mqst Z :=
  match msg_ptr with
  | None => mret (- EINVAL)
  | Some buf =>
      if mq =? 0 then mret (- EINVAL)
      else
        q ← queue mq;
        if mq_msgsize (attr q) <? msg_len then mret (- EMSGSIZE)
        else if MQ_PRIO_MAX <=? msg_prio then mret (- EINVAL)
        else if mq_maxmsg (attr q) <=? mq_curmsgs (attr q) then
          if negb (Z.land (flags q) MQ_FLAG_NONBLOCK =? 0) then mret (- EAGAIN) else mret (- EAGAIN)
        else if mem =? 0 then mret (- ENOMEM)
        else if Z.of_nat (length buf) <? msg_len then undef
        else
          _ ← modify (λ s, with_ln (<[mem := junk]> (ln s)) s);
          _ ← modify (λ s, with_msgs (<[mem := {| priority := msg_prio; size := msg_len; data := take (Z.to_nat msg_len) buf |}]> (msgs s)) s);
          _ ← on_links (INIT_LIST_HEAD mem);
          s ← get;
          h ← on_links (load (messages mq));
          inserted ← send_loop (S (base.size (ln s))) (next h) (messages mq) mem msg_prio;
          _ ← (if inserted : bool then mret tt else on_links (list_add_tail mem (messages mq)));
          q ← queue mq;
          _ ← set_queue mq (with_traffic (u32 (mq_curmsgs (attr q) + 1)) (u64 (total_sent q + 1)) (total_recv q) q);
          _ ← modify (λ s, with_mgr {| queue_count := queue_count (mgr s); total_messages := u64 (total_messages (mgr s) + 1);
                                       total_bytes := u64 (total_bytes (mgr s) + msg_len) |} s);
          mret 0
  end.

(** The result, the buffer after the call, and [*msg_prio] if it is written. *)
Definition mq_receive (mq : Z) (msg_ptr : option (list Z)) (msg_len : Z) (want_prio : bool) : M mqst (Z * option (list Z) * option Z) :=
  match msg_ptr with
  | None => mret (- EINVAL, None, None)
  | Some buf =>
      if mq =? 0 then mret (- EINVAL, Some buf, None)
      else
        q ← queue mq;
        if msg_len <? mq_msgsize (attr q) then mret (- EMSGSIZE, Some buf, None)
        else if mq_curmsgs (attr q) =? 0 then
          if negb (Z.land (flags q) MQ_FLAG_NONBLOCK =? 0) then mret (- EAGAIN, Some buf, None) else mret (- EAGAIN, Some buf, None)
        else
          h ← on_links (load (messages mq));
          let p := next h in
          m ← message p;
          let copy_len := if size m <? msg_len then size m else msg_len in
          if (Z.of_nat (length buf) <? copy_len) || (Z.of_nat (length (data m)) <? copy_len) then undef
          else
            let buf := take (Z.to_nat copy_len) (data m) ++ drop (Z.to_nat copy_len) buf in
            let prio := if want_prio then Some (priority m) else None in
            let ret := i32 (size m) in
            _ ← on_links (list_del p);
            _ ← kfree_message p;
            q ← queue mq;
            _ ← set_queue mq (with_traffic (u32 (mq_curmsgs (attr q) - 1)) (total_sent q) (u64 (total_recv q + 1)) q);
            _ ← modify (λ s, with_mgr {| queue_count := queue_count (mgr s); total_messages := u64 (total_messages (mgr s) - 1);
                                         total_bytes := u64 (total_bytes (mgr s) - copy_len) |} s);
            mret (ret, Some buf, prio)
  end.

(** [want] is whether [attr] is not null. *)
Definition mq_getattr (mq : Z) (want : bool) : M mqst (Z * option mq_attr) :=
  if (mq =? 0) || negb want then mret (- EINVAL, None) else q ← queue mq; mret (0, Some (attr q)).

Definition mq_setattr (mq : Z) (newattr : option mq_attr) (want_old : bool) : M mqst (Z * option mq_attr) :=
  match newattr with
  | None => mret (- EINVAL, None)
  | Some a =>
      if mq =? 0 then mret (- EINVAL, None)
      else
        q ← queue mq;
        let old := if want_old then Some (attr q) else None in
        _ ← set_queue mq (with_flags (if negb (Z.land (mq_flags a) MQ_FLAG_NONBLOCK =? 0) then MQ_FLAG_NONBLOCK else 0) (mq_flags a) q);
        mret (0, old)
  end.

(** The descriptor of a queue is its address, as an [int]. *)
Definition sys_mq_open (nm : option (list Z)) (oflag : Z) (at_ : option mq_attr) (mem : Z) (junk : list_head) : M mqst Z :=
  mq ← mq_open nm oflag at_ mem junk; if mq =? 0 then mret (-1) else mret (i32 mq).
Definition sys_mq_close (mqdes : Z) : M mqst Z := mq_close (u32 mqdes).
Definition sys_mq_unlink (nm : list Z) : M mqst Z := mq_unlink nm.
Definition sys_mq_send (mqdes : Z) := mq_send (u32 mqdes).
Definition sys_mq_receive (mqdes : Z) := mq_receive (u32 mqdes).
Definition sys_mq_getattr (mqdes : Z) := mq_getattr (u32 mqdes).
Definition sys_mq_setattr (mqdes : Z) := mq_setattr (u32 mqdes).

End Queues.
