(* ===== verification/MqueueSpec.v ===== *)
(** * Message queues: what they promise

    [mq_ok] is the invariant of the message queue system: the global list links the
    queues, every queue's list links its messages, all nodes are distinct, messages are
    in order of descending priority, and the counters are exact.  Every operation keeps
    it; sending is insertion by priority, receiving takes the first. *)

From stdpp Require Import functions sorting.
From S2P Require Import Prelude Errno ListHead Mqueue.

#[local] Open Scope Z_scope.

(** ** Sums over the queues *)

Definition total_of {A} (f : A → Z) (C : Z → A) (qs : list Z) : Z := foldr (λ q a, f (C q) + a) 0 qs.

Lemma total_of_update {A} (f : A → Z) (C : Z → A) qs q c :
  NoDup qs → q ∈ qs → total_of f (<[q := c]> C) qs = total_of f C qs - f (C q) + f c.
Proof.
  assert (∀ qs, q ∉ qs → total_of f (<[q := c]> C) qs = total_of f C qs) as Hout.
  { intros l. induction l as [|x l IH]; intros Hq; [done|]. cbn. rewrite fn_lookup_insert_ne by set_solver. unfold total_of in IH. rewrite IH by set_solver. done. }
  induction qs as [|x qs IH]; [set_solver|]. intros [Hx Hd]%NoDup_cons [->|Hq]%elem_of_cons; cbn [total_of foldr].
  - rewrite fn_lookup_insert. fold (total_of f (<[x := c]> C) qs) (total_of f C qs). rewrite Hout by done. lia.
  - rewrite fn_lookup_insert_ne by set_solver. fold (total_of f (<[q := c]> C) qs) (total_of f C qs). rewrite IH by done. lia.
Qed.

Lemma total_of_app {A} (f : A → Z) (C : Z → A) l1 l2 : total_of f C (l1 ++ l2) = total_of f C l1 + total_of f C l2.
Proof. induction l1 as [|x l1 IH]; [done|]. cbn [app total_of foldr]. fold (total_of f C (l1 ++ l2)) (total_of f C l1). lia. Qed.

Lemma total_of_ext {A} (f : A → Z) (C D : Z → A) qs : (∀ q, q ∈ qs → C q = D q) → total_of f C qs = total_of f D qs.
Proof.
  induction qs as [|x qs IH]; intros H; [done|]. cbn. rewrite (H x) by left. f_equal. apply IH. intros q Hq. apply H. by right.
Qed.

Lemma update_same {A} (C : Z → A) q c : C q = c → pointwise_relation Z eq (<[q := c]> C) C.
Proof. intros <- x. destruct (decide (x = q)) as [->|]; [by rewrite fn_lookup_insert | by rewrite fn_lookup_insert_ne]. Qed.

Lemma update_twice {A} (C : Z → A) q c c' : pointwise_relation Z eq (<[q := c']> (<[q := c]> C)) (<[q := c']> C).
Proof. intros x. destruct (decide (x = q)) as [->|]; [by rewrite !fn_lookup_insert | by rewrite !fn_lookup_insert_ne]. Qed.

(** ** The invariant *)

(** The messages of a queue with their addresses. *)
Abbreviation contents := (list (Z * mq_message)).

Definition before (a b : Z * mq_message) : Prop := priority (snd b) ≤ priority (snd a).

Record queue_ok (s : mqst) (q : Z) (r : mqueue) (c : contents) : Prop := {
  qo_ring : ring (ln s) (messages q) c.*1;
  qo_store : ∀ p m, (p, m) ∈ c → msgs s !! p = Some m;
  qo_fits : ∀ e, e ∈ c → size (snd e) = Z.of_nat (length (data (snd e))) ∧ size (snd e) ≤ mq_msgsize (attr r) ∧ 0 ≤ priority (snd e) < MQ_PRIO_MAX;
  qo_sorted : StronglySorted before c;
  qo_cur : mq_curmsgs (attr r) = Z.of_nat (length c) ∧ mq_curmsgs (attr r) ≤ mq_maxmsg (attr r) ∧ 0 < mq_maxmsg (attr r) ≤ MQ_MAX_MESSAGES;
  qo_size : 0 < mq_msgsize (attr r) ≤ MQ_MAX_MSG_SIZE;
}.

Definition nodes (q : Z) (c : contents) : list Z := nodes_of_queue q ++ c.*1.
Definition bytes (c : contents) : Z := foldr (λ e a, size (snd e) + a) 0 c.
Definition count_of (c : contents) : Z := Z.of_nat (length c).

Section Spec.
Variable queues : Z.

(** [lost] are the messages, and their bytes, that [mq_unlink] has freed without
    taking them off the counters. *)
Record mq_ok (s : mqst) (qs : list Z) (C : Z → contents) (lost : Z * Z) : Prop := {
  ok_list : ring (ln s) queues (list_of <$> qs);
  ok_qs : NoDup qs ∧ 0 ∉ qs;
  ok_head : ∀ q, q ∈ qs → queues ∉ nodes q (C q);
  ok_nodup : ∀ q, q ∈ qs → NoDup (nodes q (C q));
  ok_disjoint : ∀ q q' x, q ∈ qs → q' ∈ qs → q ≠ q' → x ∈ nodes q (C q) → x ∉ nodes q' (C q');
  ok_dom : ∀ q, q ∈ qs ↔ is_Some (mqs s !! q);
  ok_each : ∀ q r, mqs s !! q = Some r → queue_ok s q r (C q);
  ok_names : ∀ q q' r r', mqs s !! q = Some r → mqs s !! q' = Some r' → name r = name r' → q = q';
  ok_count : queue_count (mgr s) = Z.of_nat (length qs) ∧ Z.of_nat (length qs) ≤ MQ_MAX_QUEUES;
  ok_messages : total_messages (mgr s) = u64 (total_of count_of C qs + fst lost);
  ok_bytes : total_bytes (mgr s) = u64 (total_of bytes C qs + snd lost);
}.

(** An address outside every node of the system. *)
Definition unused (qs : list Z) (C : Z → contents) (x : Z) : Prop := x ≠ queues ∧ ∀ q, q ∈ qs → x ∉ nodes q (C q).

Lemma queue_ok_frame s s' q r c :
  (∀ x, x ∈ messages q :: c.*1 → ln s' !! x = ln s !! x) → (∀ x, x ∈ c.*1 → msgs s' !! x = msgs s !! x) →
  queue_ok s q r c → queue_ok s' q r c.
Proof.
  intros Hl Hm [H1 H2 H3 H4 H5 H6]. split; [by eapply ring_frame | | done..]. intros p m Hp. rewrite Hm; [by apply H2|]. by apply (list_elem_of_fmap_2 fst _ (p, m)).
Qed.

Lemma messages_node q c x : x ∈ messages q :: c.*1 → x ∈ nodes q c.
Proof. unfold nodes, nodes_of_queue. set_solver. Qed.
Lemma list_of_node q c : list_of q ∈ nodes q c.
Proof. unfold nodes, nodes_of_queue. set_solver. Qed.

Lemma list_of_fresh q c : NoDup (nodes q c) → list_of q ∉ messages q :: c.*1.
Proof. unfold nodes, nodes_of_queue, list_of, messages. intros Hd. rewrite elem_of_cons. intros [?|Hx]; [lia|]. apply NoDup_app in Hd as (_ & Hd & _). apply (Hd (q + 128)); [set_solver | done]. Qed.

(** The one queue [q] changes, from [r] and [C q] to [r'] and [c']. *)
Lemma mq_ok_update s s' qs C lost q r r' c' :
  mq_ok s qs C lost → mqs s !! q = Some r → mqs s' = <[q := r']> (mqs s) → name r' = name r → queue_ok s' q r' c' →
  (∀ x, x ∈ c'.*1 → x ∈ (C q).*1 ∨ unused qs C x) →
  (∀ x, x ∉ messages q :: (C q).*1 → x ∉ c'.*1 → ln s' !! x = ln s !! x ∧ msgs s' !! x = msgs s !! x) →
  mgr s' = {| queue_count := queue_count (mgr s); total_messages := u64 (total_messages (mgr s) - count_of (C q) + count_of c');
              total_bytes := u64 (total_bytes (mgr s) - bytes (C q) + bytes c') |} →
  mq_ok s' qs (<[q := c']> C) lost.
Proof.
  intros Hok Hr Hq Hname Hq' Hnew Hf Hg. pose proof Hok as [O1 [O2 O2'] O3 O4 O5 O6 O7 O8 [O9 O9'] O10 O11].
  assert (q ∈ qs) as Hin by (apply O6; by eexists).
  assert (∀ x, x ∈ nodes q c' → x ∈ nodes q (C q) ∨ unused qs C x) as Hnodes.
  { intros x [Hx|Hx]%elem_of_app; [left; apply elem_of_app; by left|]. destruct (Hnew x Hx); [left; apply elem_of_app; by right | by right]. }
  assert (∀ p x, p ∈ qs → p ≠ q → x ∈ nodes p (C p) → ln s' !! x = ln s !! x ∧ msgs s' !! x = msgs s !! x) as Hother.
  { intros p x Hp Hpq Hx. apply Hf; intros Hx'.
    - apply (O5 q p x); [done | done | congruence | by apply messages_node | done].
    - destruct (Hnew x Hx') as [Hx''|[_ Hu]]; [|by apply (Hu p)]. apply (O5 q p x); [done | done | congruence | apply elem_of_app; by right | done]. }
  assert (NoDup (nodes q c')) as Hnd.
  { apply NoDup_app. split_and!.
    - specialize (O4 q Hin). apply NoDup_app in O4. tauto.
    - intros x Hx Hx'. destruct (Hnew x Hx') as [Hx''|[_ Hu]].
      + specialize (O4 q Hin). apply NoDup_app in O4 as (_ & Hd & _). by apply (Hd x).
      + apply (Hu q Hin). apply elem_of_app. by left.
    - destruct (qo_ring _ _ _ _ Hq') as [Hd _]. by apply NoDup_cons in Hd as [_ ?]. }
  split; rewrite ?Hg, ?Hq; cbn [queue_count total_messages total_bytes].
  - apply (ring_frame (ln s)); [|done]. intros x [->|(p & -> & Hp)%list_elem_of_fmap]%elem_of_cons.
    + apply Hf; intros Hx; [apply (O3 q Hin); by apply messages_node|]. destruct (Hnew _ Hx) as [Hx'|[Hu _]]; [|done]. apply (O3 q Hin). apply elem_of_app. by right.
    + destruct (decide (p = q)) as [->|Hpq]; [|eapply Hother; [exact Hp | done | apply list_of_node]].
      apply Hf; intros Hx; [by apply (list_of_fresh q (C q)); [apply O4 | ] | apply (list_of_fresh q c' Hnd); by right].
  - done.
  - intros p Hp. destruct (decide (p = q)) as [->|Hpq]; [|rewrite fn_lookup_insert_ne by done; by apply O3].
    rewrite fn_lookup_insert. intros [Hx|[Hx _]]%Hnodes; [by apply (O3 q) | done].
  - intros p Hp. destruct (decide (p = q)) as [->|Hpq]; [by rewrite fn_lookup_insert | rewrite fn_lookup_insert_ne by done; by apply O4].
  - intros p p' x Hp Hp' Hne. destruct (decide (p = q)) as [->|Hpq], (decide (p' = q)) as [->|Hpq'];
      rewrite ?fn_lookup_insert, ?fn_lookup_insert_ne by done; [done | | | by apply O5].
    + intros [Hx|[_ Hu]]%Hnodes; [by apply (O5 q p') | by apply Hu].
    + intros Hx [Hx'|[_ Hu]]%Hnodes; [by apply (O5 p q x) | by apply (Hu p)].
  - intros p. rewrite O6, lookup_insert_is_Some'. split; [by right | intros [<-|?]; [by eexists | done]].
  - intros p rp [[<- <-]|[Hpq Hp]]%lookup_insert_Some; [by rewrite fn_lookup_insert|]. rewrite fn_lookup_insert_ne by done.
    assert (p ∈ qs) by (apply O6; by eexists).
    apply (queue_ok_frame s); [intros x Hx; apply (Hother p); [done | done | by apply messages_node] | intros x Hx; apply (Hother p); [done | done | apply elem_of_app; by right] | by apply O7].
  - intros p p' rp rp' [[<- <-]|[_ Hp]]%lookup_insert_Some [[<- <-]|[_ Hp']]%lookup_insert_Some E; [done | | | by eapply O8].
    + apply (O8 q p' r rp'); congruence.
    + apply (O8 p q rp r); congruence.
  - done.
  - rewrite total_of_update, O10 by done. unfold Z.sub. rewrite <- !Z.add_assoc, u64_add_l. f_equal. lia.
  - rewrite total_of_update, O11 by done. unfold Z.sub. rewrite <- !Z.add_assoc, u64_add_l. f_equal. lia.
Qed.

(** ** Looking up a name *)

Lemma on_links_same {A} (f : M links A) s a : f (ln s) = Ret (a, ln s) → on_links f s = Ret (a, s).
Proof. intros H. unfold on_links. rewrite (zoom_Ret _ _ _ _ _ _ H). by destruct s. Qed.

Lemma on_links_run {A} (f : M links A) s a l : f (ln s) = Ret (a, l) → on_links f s = Ret (a, with_ln l s).
Proof. intros H. unfold on_links. by rewrite (zoom_Ret _ _ _ _ _ _ H). Qed.

Lemma queue_run s q r : mqs s !! q = Some r → queue q s = Ret (r, s).
Proof. intros H. unfold queue. by rewrite bind_get, H. Qed.

Lemma message_run s p m : msgs s !! p = Some m → message p s = Ret (m, s).
Proof. intros H. unfold message. by rewrite bind_get, H. Qed.

(** [q] is the queue named [nm], or 0 if there is none. *)
Definition named (s : mqst) (nm : list Z) (q : Z) : Prop :=
  (∃ r, mqs s !! q = Some r ∧ name r = nm) ∨ (q = 0 ∧ ∀ p r, mqs s !! p = Some r → name r ≠ nm).

Lemma find_loop_run s nm l fuel :
  queues ∉ list_of <$> l → linked (ln s) ((list_of <$> l) ++ [queues]) → (∀ q, q ∈ l → is_Some (mqs s !! q)) → (length l < fuel)%nat →
  ∃ q, find_loop queues fuel (right_of queues (list_of <$> l)) nm s = Ret (q, s) ∧
    ((∃ r, mqs s !! q = Some r ∧ name r = nm) ∨ (q = 0 ∧ ∀ p r, p ∈ l → mqs s !! p = Some r → name r ≠ nm)).
Proof.
  revert fuel. induction l as [|x l IH]; intros [|fuel] Hh Hl Hs Hf; cbn [length] in Hf; try lia; cbn [find_loop fmap list_fmap right_of hd].
  { rewrite Z.eqb_refl. exists 0. split; [done|]. right. split; [done|]. set_solver. }
  cbn [fmap list_fmap] in Hh, Hl. rewrite (proj2 (Z.eqb_neq _ _)) by set_solver. replace (list_of x - list_of 0) with x by (unfold list_of; lia).
  destruct (Hs x) as [r Hr]; [left|]. rewrite (bind_Ret _ _ _ _ _ (queue_run _ _ _ Hr)). case_bool_decide as Hn; [exists x; split; [done|]; left; by exists r|].
  change (linked (ln s) (list_of x :: (list_of <$> l) ++ [queues])) in Hl.
  assert (nx (ln s) (list_of x) = Some (right_of queues (list_of <$> l)) ∧ linked (ln s) ((list_of <$> l) ++ [queues])) as [Hx Hl'].
  { destruct (right_split queues (list_of <$> l)) as [s2 E2]. rewrite E2 in Hl |- *. destruct Hl as [[? _] ?]. done. }
  assert (is_Some (pv (ln s) (list_of x))) as [v Hv] by (unfold nx in Hx; unfold pv; destruct (ln s !! _); [by eexists | done]).
  rewrite (bind_Ret _ _ _ _ _ (on_links_same _ _ _ (load_eq _ _ _ _ Hx Hv))). cbn [next].
  destruct (IH fuel) as (q & E & Hq); [set_solver | done | intros q Hq; apply Hs; by right | lia|]. exists q. split; [exact E|].
  destruct Hq as [?|[-> Hq]]; [by left | right; split; [done|]]. intros p rp [->|Hp]%elem_of_cons Hrp; [congruence | by apply (Hq p)].
Qed.

Lemma mqueue_find_run s qs C lost nm : mq_ok s qs C lost → ∃ q, mqueue_find queues nm s = Ret (q, s) ∧ named s nm q.
Proof.
  intros Hok. pose proof Hok as [O1 _ O3 _ _ O6 _ _ _ _ _]. unfold mqueue_find.
  rewrite bind_get, (bind_Ret _ _ _ _ _ (on_links_same _ _ _ (load_head _ _ _ O1))). cbn [next].
  pose proof (ring_size _ _ _ O1) as Hsz. rewrite length_fmap in Hsz. destruct O1 as [Hd Hl]. apply NoDup_cons in Hd as [Hh _].
  apply (ring_gap _ queues []) in Hl as (_ & _ & Hl).
  destruct (find_loop_run s nm qs (S (base.size (ln s)))) as (q & E & Hq); [done | done | intros q Hq; by apply O6 | lia|].
  exists q. split; [exact E|]. destruct Hq as [?|[-> Hq]]; [by left | right; split; [done|]]. intros p r Hr. apply (Hq p r); [|done]. apply O6. by eexists.
Qed.

(** ** Sending *)

(** Insertion by descending priority, behind those of equal priority. *)
Fixpoint insert_prio (e : Z * mq_message) (c : contents) : contents :=
  match c with
  | [] => [e]
  | x :: r => if priority (snd x) <? priority (snd e) then e :: c else x :: insert_prio e r
  end.

Lemma insert_prio_perm e c : insert_prio e c ≡ₚ e :: c.
Proof. induction c as [|x c IH]; [done|]. cbn. case_match; [done|]. rewrite IH. apply Permutation_swap. Qed.

Lemma insert_prio_sorted e c : StronglySorted before c → StronglySorted before (insert_prio e c).
Proof.
  induction c as [|x c IH]; intros Hs; [repeat constructor|]. cbn. apply StronglySorted_inv in Hs as [Hs Hx]. destruct (Z.ltb_spec (priority (snd x)) (priority (snd e))).
  - constructor; [by constructor|]. constructor; [unfold before; lia|]. eapply Forall_impl; [exact Hx|]. unfold before. intros y Hy. cbn in *. lia.
  - constructor; [by apply IH|]. rewrite insert_prio_perm. constructor; [done | exact Hx].
Qed.

(** The rest of [mq_send]'s list code from one position of the loop. *)
Definition insert_from (fuel : nat) (pos head msg prio : Z) : M mqst unit :=
  inserted ← send_loop fuel pos head msg prio; if inserted : bool then mret tt else on_links (list_add_tail msg head).

Lemma insert_from_run s h (c1 c2 : contents) p m fuel :
  ring (ln s) h (c1.*1 ++ c2.*1) → p ∉ h :: c1.*1 ++ c2.*1 → p ∈ dom (ln s) → (∀ a x, (a, x) ∈ c2 → msgs s !! a = Some x) → (length c2 < fuel)%nat →
  ∃ l, insert_from fuel (right_of h c2.*1) h p (priority m) s = Ret (tt, with_ln l s) ∧ ring l h (c1.*1 ++ (insert_prio (p, m) c2).*1) ∧
    ∀ x, x ∉ p :: h :: c1.*1 ++ c2.*1 → l !! x = ln s !! x.
Proof.
  revert c1 fuel. induction c2 as [|[a x] c2 IH]; intros c1 [|fuel] Hr Hp Hd Hm Hf; cbn [length] in Hf; try lia; unfold insert_from; cbn [send_loop fmap list_fmap right_of hd fst].
  { cbn [fmap list_fmap] in *. rewrite Z.eqb_refl, (bind_Ret _ _ s _ _ eq_refl). rewrite app_nil_r in Hr, Hp |- *.
    destruct (list_add_tail_makes (ln s) h c1.*1 p Hr Hp Hd) as (l & E & Hr' & _ & Hf'). exists l. split_and!; [by apply on_links_run | done | done]. }
  cbn [fmap list_fmap fst] in Hr, Hp. rewrite (proj2 (Z.eqb_neq a h)) by (destruct Hr as [[Hx _]%NoDup_cons _]; set_solver).
  rewrite !bind_assoc, (bind_Ret _ _ _ _ _ (message_run _ _ _ (Hm a x ltac:(left)))). cbn [insert_prio snd]. destruct (Z.ltb_spec (priority x) (priority m)).
  - destruct (list_add_before_makes (ln s) h c1.*1 a c2.*1 p Hr Hp Hd) as (l & E & Hr' & _ & Hf'). exists l.
    rewrite !bind_assoc, (bind_Ret _ _ _ _ _ (on_links_run _ _ _ _ E)). split_and!; [done | done | done].
  - rewrite !bind_assoc, (bind_Ret _ _ _ _ _ (on_links_same _ _ _ (node_load _ _ _ _ _ Hr))). cbn [next].
    destruct (IH (c1 ++ [(a, x)]) fuel) as (l & E & Hr' & Hf'); rewrite ?fmap_app, <- ?app_assoc; cbn [fmap list_fmap fst app]; [done | done | done | | lia|].
    { intros a' x' Hin. apply Hm. by right. }
    exists l. rewrite fmap_app, <- app_assoc in Hr', Hf'. split_and!; [exact E | exact Hr' | exact Hf'].
Qed.

Lemma bytes_perm c c' : c ≡ₚ c' → bytes c = bytes c'.
Proof. unfold bytes. induction 1 as [| |x y l|]; cbn [foldr]; lia. Qed.

Lemma not_in_queue qs C q p : unused qs C p → q ∈ qs → p ∉ messages q :: (C q).*1.
Proof. intros [_ Hu] Hq Hp. apply (Hu q Hq). by apply messages_node. Qed.

Definition new_message (buf : list Z) (len prio : Z) : mq_message := {| priority := prio; size := len; data := take (Z.to_nat len) buf |}.

(** What the code before the counters leaves. *)
Lemma send_links s qs C lost q r p m junk :
  mq_ok s qs C lost → mqs s !! q = Some r → unused qs C p →
  let s1 := with_msgs (<[p := m]> (msgs s)) (with_ln (<[p := junk]> (ln s)) s) in
  ∃ l l', on_links (INIT_LIST_HEAD p) s1 = Ret (tt, with_ln l s1) ∧ load (messages q) l = Ret ({| next := right_of (messages q) (C q).*1; prev := left_of (messages q) (C q).*1 |}, l) ∧
    insert_from (S (base.size l)) (right_of (messages q) (C q).*1) (messages q) p (priority m) (with_ln l s1) = Ret (tt, with_ln l' s1) ∧
    ring l' (messages q) (insert_prio (p, m) (C q)).*1 ∧ ∀ x, x ∉ messages q :: (C q).*1 → x ≠ p → l' !! x = ln s !! x.
Proof.
  intros Hok Hr Hu s1. assert (q ∈ qs) as Hq by (apply (ok_dom _ _ _ _ Hok); by eexists). pose proof (not_in_queue _ _ _ _ Hu Hq) as Hp.
  pose proof (ok_each _ _ _ _ Hok q r Hr) as [Q1 Q2 _ _ _ _].
  destruct (INIT_LIST_HEAD_makes (ln s1) p) as (l & E & _ & Hd & Hf); [apply elem_of_dom; cbn; rewrite lookup_insert_eq; by eexists|].
  assert (ring l (messages q) (C q).*1) as Hring.
  { apply (ring_frame (ln s)); [|done]. intros x Hx. rewrite Hf by set_solver. cbn. rewrite lookup_insert_ne by set_solver. done. }
  destruct (insert_from_run (with_ln l s1) (messages q) [] (C q) p m (S (base.size l))) as (l' & E' & Hr' & Hf').
  - exact Hring.
  - exact Hp.
  - cbn [ln with_ln]. rewrite Hd. cbn. apply elem_of_dom. rewrite lookup_insert_eq. by eexists.
  - intros a x Hin. cbn. rewrite lookup_insert_ne; [by apply Q2|]. intros ->. apply Hp. right. by apply (list_elem_of_fmap_2 fst _ (a, x)).
  - pose proof (ring_size _ _ _ Hring) as Hsz. rewrite length_fmap in Hsz. cbn. lia.
  - exists l, l'. split_and!; [by apply on_links_run | by apply load_head | exact E' | done|].
    intros x Hx Hxp. rewrite Hf' by set_solver. cbn. rewrite Hf by set_solver. cbn. by rewrite lookup_insert_ne.
Qed.

Lemma mq_send_run s qs C lost q r buf len prio p junk :
  mq_ok s qs C lost → mqs s !! q = Some r → 0 ≤ len ≤ mq_msgsize (attr r) → len ≤ Z.of_nat (length buf) → 0 ≤ prio < MQ_PRIO_MAX →
  mq_curmsgs (attr r) < mq_maxmsg (attr r) → unused qs C p → p ≠ 0 →
  ∃ s', mq_send q (Some buf) len prio p junk s = Ret (0, s') ∧
    mqs s' = <[q := with_traffic (mq_curmsgs (attr r) + 1) (u64 (total_sent r + 1)) (total_recv r) r]> (mqs s) ∧
    mq_ok s' qs (<[q := insert_prio (p, new_message buf len prio) (C q)]> C) lost.
Proof.
  intros Hok Hr Hlen Hbuf Hprio Hroom Hu Hp. assert (q ∈ qs) as Hq by (apply (ok_dom _ _ _ _ Hok); by eexists).
  assert (q ≠ 0) as Hq0 by (intros ->; apply (ok_qs _ _ _ _ Hok); done).
  set (m := new_message buf len prio). destruct (send_links s qs C lost q r p m junk Hok Hr Hu) as (l & l' & E1 & E2 & E3 & Hring & Hf).
  pose proof (ok_each _ _ _ _ Hok q r Hr) as Hqo. pose proof Hqo as [Q1 Q2 Q3 Q4 (Q5 & Q5' & Q5'') Q6].
  pose proof (not_in_queue _ _ _ _ Hu Hq) as Hnp.
  eexists. split; [|split].
  - unfold mq_send. rewrite (proj2 (Z.eqb_neq q 0) Hq0), (bind_Ret _ _ _ _ _ (queue_run _ _ _ Hr)).
    rewrite (proj2 (Z.ltb_ge _ _)), (proj2 (Z.leb_gt _ _)), (proj2 (Z.leb_gt _ _)), (proj2 (Z.eqb_neq p 0) Hp), (proj2 (Z.ltb_ge _ _)) by lia.
    rewrite !bind_modify. fold m. unfold new_message in m. fold m.
    rewrite (bind_Ret _ _ _ _ _ E1), bind_get, (bind_Ret _ _ _ _ _ (on_links_same _ (with_ln l _) _ E2)). cbn [next ln with_ln].
    rewrite <- bind_assoc. rewrite (bind_Ret _ _ _ _ _ E3).
    erewrite bind_Ret; [|apply queue_run; exact Hr].
    unfold set_queue. rewrite !bind_modify. cbn -[u32 u64]. reflexivity.
  - cbn. by rewrite u32_small by lia.
  - assert (∀ e, e ∈ insert_prio (p, m) (C q) ↔ e = (p, m) ∨ e ∈ C q) as Hin by (intros e; rewrite insert_prio_perm; apply elem_of_cons).
    assert (∀ x, x ∈ (insert_prio (p, m) (C q)).*1 ↔ x = p ∨ x ∈ (C q).*1) as Hin1 by (intros x; rewrite insert_prio_perm; apply elem_of_cons).
    eapply mq_ok_update; [exact Hok | exact Hr | reflexivity | done | | | |].
    + split; cbn -[u32]; rewrite ?u32_small by lia.
      * exact Hring.
      * intros a x [[= -> ->]|Hx]%Hin; [by rewrite lookup_insert_eq|]. rewrite lookup_insert_ne; [by apply Q2|].
        intros ->. apply Hnp. right. by apply (list_elem_of_fmap_2 fst _ (a, x)).
      * intros e [->|He]%Hin; [|by apply Q3]. cbn. rewrite length_take. lia.
      * by apply insert_prio_sorted.
      * rewrite (Permutation_length (insert_prio_perm (p, m) (C q))). cbn [length]. lia.
      * exact Q6.
    + intros x [->|Hx]%Hin1; [by right | by left].
    + intros x Hx Hx'. cbn. split; [apply Hf; [done | set_solver] | rewrite lookup_insert_ne; [done | set_solver]].
    + cbn -[u64]. unfold count_of. rewrite (Permutation_length (insert_prio_perm (p, m) (C q))), (bytes_perm _ _ (insert_prio_perm (p, m) (C q))).
      cbn [bytes foldr length snd]. fold (bytes (C q)). change (size m) with len. f_equal; apply (f_equal u64); lia.
Qed.

(** ** Receiving *)

(** Taking a message out of the list of its queue, and freeing it. *)
Lemma take_message s h p m c :
  ring (ln s) h (p :: c) → msgs s !! p = Some m →
  ∃ l, on_links (list_del p) s = Ret (tt, with_ln l s) ∧
    kfree_message p (with_ln l s) = Ret (tt, with_ln (delete p l) (with_msgs (delete p (msgs s)) s)) ∧
    ring (delete p l) h c ∧ (p ∉ h :: c) ∧ (∀ x, (x ∉ h :: p :: c) → (delete p l) !! x = ln s !! x).
Proof.
  intros Hr Hm. destruct (list_del_makes (ln s) h [] p c Hr) as (l & E & Hr' & _ & Hd & Hf).
  assert (p ∉ h :: c) as Hp by (apply (ring_mid _ _ [] _ _ Hr)). exists l. split_and!; [by apply on_links_run | | | done |].
  - unfold kfree_message. by rewrite (bind_Ret _ _ _ _ _ (message_run (with_ln l s) p m Hm)).
  - apply (ring_frame l); [|done]. intros x Hx. apply lookup_delete_ne. intros ->. done.
  - intros x Hx. rewrite lookup_delete_ne by set_solver. apply Hf. set_solver.
Qed.

Lemma mq_receive_run s qs C lost q r p m c buf len want :
  mq_ok s qs C lost → mqs s !! q = Some r → C q = (p, m) :: c → mq_msgsize (attr r) ≤ len ≤ Z.of_nat (length buf) →
  ∃ s', mq_receive q (Some buf) len want s =
      Ret (size m, Some (data m ++ drop (length (data m)) buf), if want then Some (priority m) else None, s') ∧
    mqs s' = <[q := with_traffic (mq_curmsgs (attr r) - 1) (total_sent r) (u64 (total_recv r + 1)) r]> (mqs s) ∧
    mq_ok s' qs (<[q := c]> C) lost.
Proof.
  intros Hok Hr HC Hlen. assert (q ∈ qs) as Hq by (apply (ok_dom _ _ _ _ Hok); by eexists).
  assert (q ≠ 0) as Hq0 by (intros ->; apply (ok_qs _ _ _ _ Hok); done).
  pose proof (ok_each _ _ _ _ Hok q r Hr) as Hqo. rewrite HC in Hqo.
  pose proof Hqo as [Q1 Q2 Q3 Q4 (Q5 & Q5' & Q5'') Q6]. destruct (Q3 (p, m) ltac:(left)) as (Hm1 & Hm2 & Hm3). cbn [snd length] in *.
  destruct (take_message s (messages q) p m c.*1 Q1 (Q2 p m ltac:(left))) as (l & E1 & E2 & Hring & Hp & Hf).
  eexists. split; [|split].
  - unfold mq_receive. rewrite (proj2 (Z.eqb_neq q 0) Hq0), (bind_Ret _ _ _ _ _ (queue_run _ _ _ Hr)).
    rewrite (proj2 (Z.ltb_ge _ _)), (proj2 (Z.eqb_neq _ _)) by lia. rewrite (bind_Ret _ _ _ _ _ (on_links_same _ _ _ (load_head _ _ _ Q1))).
    cbn [next fmap list_fmap right_of hd fst]. rewrite (bind_Ret _ _ _ _ _ (message_run _ _ _ (Q2 p m ltac:(left)))).
    assert ((if size m <? len then size m else len) = size m) as -> by (destruct (Z.ltb_spec (size m) len); lia).
    rewrite !(proj2 (Z.ltb_ge _ _)) by lia. cbn [orb]. rewrite (bind_Ret _ _ _ _ _ E1), (bind_Ret _ _ _ _ _ E2).
    erewrite bind_Ret; [|apply queue_run; exact Hr]. unfold set_queue. rewrite !bind_modify.
    rewrite i32_small by lia. replace (Z.to_nat (size m)) with (length (data m)) by lia. rewrite take_ge by lia. cbn -[u32 u64]. reflexivity.
  - cbn. by rewrite u32_small by lia.
  - eapply mq_ok_update; [exact Hok | exact Hr | reflexivity | done | | | |]; rewrite ?HC.
    + split; cbn -[u32]; rewrite ?u32_small by lia.
      * exact Hring.
      * intros a x Hx. rewrite lookup_delete_ne; [apply Q2; by right|]. intros ->. apply Hp. right. by apply (list_elem_of_fmap_2 fst _ (a, x)).
      * intros e He. apply Q3. by right.
      * by apply StronglySorted_inv in Q4 as [? _].
      * lia.
      * exact Q6.
    + intros x Hx. left. by right.
    + intros x Hx Hx'. cbn [fmap list_fmap fst] in Hx. cbn. split; [by apply Hf | apply lookup_delete_ne; set_solver].
    + cbn -[u64]. unfold count_of. cbn [bytes foldr length snd]. fold (bytes c). f_equal; apply (f_equal u64); lia.
Qed.

(** ** Opening and closing *)

#[export] Instance mq_ok_proper s qs : Proper (pointwise_relation Z eq ==> eq ==> iff) (mq_ok s qs).
Proof.
  assert (∀ C D lost, pointwise_relation Z eq C D → mq_ok s qs C lost → mq_ok s qs D lost) as H.
  { intros C D lost E [O1 O2 O3 O4 O5 O6 O7 O8 O9 O10 O11]. split; try done.
    - intros q Hq. rewrite <- (E q). by apply O3.
    - intros q Hq. rewrite <- (E q). by apply O4.
    - intros q q' x. rewrite <- (E q), <- (E q'). apply O5.
    - intros q r Hr. rewrite <- (E q). by apply O7.
    - rewrite O10. do 2 f_equal. apply total_of_ext. intros q _. apply E.
    - rewrite O11. do 2 f_equal. apply total_of_ext. intros q _. apply E. }
  intros C D E lost _ <-. split; apply H; [done | by symmetry].
Qed.

(** A queue's record changes, but not its name, limits or messages. *)
Lemma mq_ok_record s qs C lost q r r' :
  mq_ok s qs C lost → mqs s !! q = Some r → name r' = name r → mq_maxmsg (attr r') = mq_maxmsg (attr r) →
  mq_msgsize (attr r') = mq_msgsize (attr r) → mq_curmsgs (attr r') = mq_curmsgs (attr r) → mq_ok (with_mqs (<[q := r']> (mqs s)) s) qs C lost.
Proof.
  intros Hok Hr Hn H1 H2 H3. rewrite <- (update_same C q (C q) eq_refl).
  eapply mq_ok_update; [exact Hok | exact Hr | reflexivity | done | | by left | done |].
  - destruct (ok_each _ _ _ _ Hok q r Hr) as [Q1 Q2 Q3 Q4 Q5 Q6]. split; rewrite ?H1, ?H2, ?H3; try done.
  - cbn. pose proof (ok_messages _ _ _ _ Hok) as E1. pose proof (ok_bytes _ _ _ _ Hok) as E2. destruct (mgr s) as [a b c]. cbn in *.
    f_equal; rewrite Z.sub_add; subst; unfold u64; by rewrite Zmod_mod.
Qed.

(** A new block of [n] bytes. *)
Definition fresh_block (qs : list Z) (C : Z → contents) (p n : Z) : Prop := ∀ x, p ≤ x < p + n → unused qs C x.

Lemma block_nodes q x : x ∈ nodes_of_queue q → q ≤ x < q + sizeof_mqueue.
Proof. unfold nodes_of_queue, messages, wait_send, wait_recv, list_of, sizeof_mqueue. set_unfold. lia. Qed.

Lemma nodes_of_queue_nodup q : NoDup (nodes_of_queue q).
Proof. unfold nodes_of_queue, messages, wait_send, wait_recv, list_of. repeat constructor; set_unfold; lia. Qed.

Lemma junk_lookup (l : links) ns junk x : foldr (λ n, <[n := junk]>) l ns !! x = if bool_decide (x ∈ ns) then Some junk else l !! x.
Proof.
  induction ns as [|n ns IH]; [done|]. cbn [foldr]. destruct (decide (x = n)) as [->|Hne]; [rewrite lookup_insert_eq, bool_decide_eq_true_2; set_solver|].
  rewrite lookup_insert_ne, IH by done. repeat case_bool_decide; set_solver.
Qed.

(** The initialisation of the nodes of a new queue, and its entry into the global list. *)
Lemma open_links (l : links) qs mem junk :
  ring l queues (list_of <$> qs) → (∀ x, x ∈ nodes_of_queue mem → x ∉ queues :: (list_of <$> qs)) →
  ∃ l1 l2 l3 l4 l5, INIT_LIST_HEAD (messages mem) (foldr (λ n, <[n := junk]>) l (nodes_of_queue mem)) = Ret (tt, l1) ∧
    INIT_LIST_HEAD (wait_send mem) l1 = Ret (tt, l2) ∧ INIT_LIST_HEAD (wait_recv mem) l2 = Ret (tt, l3) ∧
    INIT_LIST_HEAD (list_of mem) l3 = Ret (tt, l4) ∧ list_add_tail (list_of mem) queues l4 = Ret (tt, l5) ∧
    ring l5 queues (list_of <$> qs ++ [mem]) ∧ ring l5 (messages mem) [] ∧ ∀ x, x ∉ nodes_of_queue mem → x ∉ queues :: (list_of <$> qs) → l5 !! x = l !! x.
Proof.
  intros Hr Hdis. set (l0 := foldr _ _ _). assert (∀ x, x ∈ nodes_of_queue mem → x ∈ dom l0) as Hdom.
  { intros x Hx. apply elem_of_dom. unfold l0. rewrite junk_lookup, bool_decide_eq_true_2 by done. by eexists. }
  assert (messages mem ∈ nodes_of_queue mem ∧ wait_send mem ∈ nodes_of_queue mem ∧ wait_recv mem ∈ nodes_of_queue mem ∧ list_of mem ∈ nodes_of_queue mem) as (N1 & N2 & N3 & N4)
    by (unfold nodes_of_queue; set_solver).
  destruct (INIT_LIST_HEAD_makes l0 (messages mem)) as (l1 & E1 & R1 & D1 & F1); [by apply Hdom|].
  destruct (INIT_LIST_HEAD_makes l1 (wait_send mem)) as (l2 & E2 & R2 & D2 & F2); [rewrite D1; by apply Hdom|].
  destruct (INIT_LIST_HEAD_makes l2 (wait_recv mem)) as (l3 & E3 & R3 & D3 & F3); [rewrite D2, D1; by apply Hdom|].
  destruct (INIT_LIST_HEAD_makes l3 (list_of mem)) as (l4 & E4 & R4 & D4 & F4); [rewrite D3, D2, D1; by apply Hdom|].
  assert (∀ x, x ∉ nodes_of_queue mem → l4 !! x = l !! x) as F.
  { intros x Hx. rewrite F4, F3, F2, F1 by (intros ->%list_elem_of_singleton; done). unfold l0. by rewrite junk_lookup, bool_decide_eq_false_2. }
  assert (ring l4 queues (list_of <$> qs)) as Hr4 by (apply (ring_frame l); [|done]; intros x Hx; apply F; intros Hx'; by apply (Hdis x)).
  destruct (list_add_tail_makes l4 queues (list_of <$> qs) (list_of mem)) as (l5 & E5 & R5 & D5 & F5); [done | by apply Hdis | rewrite D4, D3, D2, D1; by apply Hdom|].
  exists l1, l2, l3, l4, l5. split_and!; try done.
  - by rewrite fmap_app.
  - apply (ring_frame l1); [|done]. intros x ->%list_elem_of_singleton. pose proof (Hdis _ N1) as Hm.
    assert (messages mem ≠ wait_send mem ∧ messages mem ≠ wait_recv mem ∧ messages mem ≠ list_of mem) as (? & ? & ?) by (unfold messages, wait_send, wait_recv, list_of; lia).
    rewrite F5, F4, F3, F2 by (rewrite ?list_elem_of_singleton; try done; intros [?|?]%elem_of_cons; done). done.
  - intros x Hx Hx'. rewrite F5; [by apply F|]. intros [->|?]%elem_of_cons; done.
Qed.

(** A queue is added to the system. *)
Lemma mq_ok_add s s' qs C lost mem r :
  mq_ok s qs C lost → mem ≠ 0 → fresh_block qs C mem sizeof_mqueue → mqs s' = <[mem := r]> (mqs s) → msgs s' = msgs s →
  (∀ p rp, mqs s !! p = Some rp → name rp ≠ name r) → queue_ok s' mem r [] → Z.of_nat (length qs) < MQ_MAX_QUEUES →
  ring (ln s') queues (list_of <$> qs ++ [mem]) →
  (∀ x, x ∉ nodes_of_queue mem → x ∉ queues :: (list_of <$> qs) → ln s' !! x = ln s !! x) →
  mgr s' = {| queue_count := queue_count (mgr s) + 1; total_messages := total_messages (mgr s); total_bytes := total_bytes (mgr s) |} →
  mq_ok s' (qs ++ [mem]) (<[mem := []]> C) lost.
Proof.
  intros Hok Hm Hfresh Hq Hmsgs Hname Hqo Hroom Hring Hf Hg. pose proof Hok as [O1 [O2 O2'] O3 O4 O5 O6 O7 O8 [O9 O9'] O10 O11].
  assert (∀ x, x ∈ nodes_of_queue mem → unused qs C x) as Hu by (intros x Hx; apply Hfresh; by apply block_nodes).
  assert (mem ∉ qs) as Hnew.
  { intros Hin. destruct (Hu (messages mem)) as [_ Hx]; [unfold nodes_of_queue; set_solver|]. apply (Hx mem Hin). apply messages_node. left. }
  assert (∀ q, q ∈ qs → (<[mem := []]> C : Z → contents) q = C q) as HC by (intros q Hin; apply fn_lookup_insert_ne; congruence).
  assert (∀ q, q ∈ qs ++ [mem] → q ∈ qs ∨ q = mem) as Hsplit by (intros q; set_solver).
  assert (nodes mem [] = nodes_of_queue mem) as Hnil by apply app_nil_r.
  split; rewrite ?Hq, ?Hg; cbn [queue_count total_messages total_bytes].
  - done.
  - split; [apply NoDup_app; split_and!; [done | intros x Hx ->%list_elem_of_singleton; done | apply NoDup_singleton] | set_solver].
  - intros q [Hin| ->]%Hsplit; [rewrite HC by done; by apply O3|]. rewrite fn_lookup_insert, Hnil. intros Hx. by destruct (Hu _ Hx).
  - intros q [Hin| ->]%Hsplit; [rewrite HC by done; by apply O4|]. rewrite fn_lookup_insert, Hnil. apply nodes_of_queue_nodup.
  - intros q q' x [Hin| ->]%Hsplit [Hin'| ->]%Hsplit Hne; rewrite ?(HC _ Hin), ?(HC _ Hin'), ?fn_lookup_insert, ?Hnil; [by apply O5 | | | done].
    + intros Hx Hx'. by apply (proj2 (Hu x Hx') q).
    + intros Hx Hx'. by apply (proj2 (Hu x Hx) q').
  - intros q. rewrite lookup_insert_is_Some', elem_of_app, list_elem_of_singleton, O6. naive_solver.
  - intros q rq [[<- <-]|[Hne Hrq]]%lookup_insert_Some; [by rewrite fn_lookup_insert|]. rewrite fn_lookup_insert_ne by done.
    assert (q ∈ qs) as Hin by (apply O6; by eexists). apply (queue_ok_frame s); [|by rewrite Hmsgs | by apply O7].
    intros x Hx. apply messages_node in Hx as Hx'. apply Hf; [intros Hx''; by apply (proj2 (Hu x Hx'') q)|].
    intros [->|(p & -> & Hp)%list_elem_of_fmap]%elem_of_cons; [by apply (O3 q)|]. destruct (decide (p = q)) as [->|Hpq].
    + by apply (list_of_fresh q (C q)); [apply O4|].
    + apply (O5 p q (list_of p)); [done | done | done | apply list_of_node | done].
  - intros p p' rp rp' [[<- <-]|[_ Hp]]%lookup_insert_Some [[<- <-]|[_ Hp']]%lookup_insert_Some E; [done | | | by eapply O8].
    + by destruct (Hname _ _ Hp').
    + by destruct (Hname _ _ Hp).
  - rewrite length_app. cbn. lia.
  - rewrite total_of_app, (total_of_ext _ _ C qs HC), O10. cbn [total_of foldr]. rewrite fn_lookup_insert. apply (f_equal u64). unfold count_of. cbn. lia.
  - rewrite total_of_app, (total_of_ext _ _ C qs HC), O11. cbn [total_of foldr]. rewrite fn_lookup_insert. apply (f_equal u64). unfold count_of. cbn. lia.
Qed.

Definition valid_attr (a : mq_attr) : Prop := 0 ≤ mq_maxmsg a ∧ 0 ≤ mq_msgsize a ∧ mq_curmsgs a = 0.

Lemma new_attr_ok fl at_ :
  (∀ a, at_ = Some a → valid_attr a) → let a := new_attr fl at_ in
  mq_curmsgs a = 0 ∧ 0 < mq_maxmsg a ≤ MQ_MAX_MESSAGES ∧ 0 < mq_msgsize a ≤ MQ_MAX_MSG_SIZE.
Proof.
  intros H. destruct at_ as [a|]; cbn; [|lia]. destruct (H a eq_refl) as (H1 & H2 & H3).
  split_and!; [done|..]; repeat case_match; zbool; lia.
Qed.

(** The run of [mq_open] when it creates a queue. *)
Lemma mq_open_creates s qs C lost nm oflag at_ mem junk :
  mq_ok s qs C lost → hd 0 nm = 47 → (∀ p r, mqs s !! p = Some r → name r ≠ nm) →
  Z.land oflag O_CREAT ≠ 0 → queue_count (mgr s) < MQ_MAX_QUEUES → mem ≠ 0 → fresh_block qs C mem sizeof_mqueue →
  ∃ l, mq_open queues (Some nm) oflag at_ mem junk s = Ret (mem, {| ln := l; msgs := msgs s; mqs := <[mem := new_queue nm oflag at_]> (mqs s);
      mgr := {| queue_count := queue_count (mgr s) + 1; total_messages := total_messages (mgr s); total_bytes := total_bytes (mgr s) |} |}) ∧
    ring l queues (list_of <$> qs ++ [mem]) ∧ ring l (messages mem) [] ∧
    (∀ x, x ∉ nodes_of_queue mem → x ∉ queues :: (list_of <$> qs) → l !! x = ln s !! x).
Proof.
  intros Hok Hhd Hname Hcreat Hroom Hmem Hfresh. destruct (mqueue_find_run s qs C lost nm Hok) as (q & Ef & [(r & Hr & Hn)|[-> _]]); [by destruct (Hname q r)|].
  assert (∀ x, x ∈ nodes_of_queue mem → unused qs C x) as Hu by (intros x Hx; apply Hfresh; by apply block_nodes).
  destruct (open_links (ln s) qs mem junk (ok_list _ _ _ _ Hok)) as (l1 & l2 & l3 & l4 & l5 & E1 & E2 & E3 & E4 & E5 & R1 & R2 & Hf).
  { intros x [Hx Hx']%Hu [->|(p & -> & Hp)%list_elem_of_fmap]%elem_of_cons; [done|]. apply (Hx' p Hp). apply list_of_node. }
  pose proof (ok_count _ _ _ _ Hok) as [Hc1 Hc2]. exists l5. split_and!; [|done..].
  unfold mq_open. rewrite Hhd, Z.eqb_refl. cbn [negb]. rewrite (bind_Ret _ _ _ _ _ Ef). rewrite Z.eqb_refl. cbn [negb].
  rewrite (proj2 (Z.eqb_neq _ _) Hcreat), bind_get, (proj2 (Z.leb_gt _ _)), (proj2 (Z.eqb_neq mem 0) Hmem) by lia.
  unfold set_queue. rewrite !bind_modify.
  erewrite bind_Ret; [|apply on_links_run; exact E1]. erewrite bind_Ret; [|apply on_links_run; exact E2].
  erewrite bind_Ret; [|apply on_links_run; exact E3]. erewrite bind_Ret; [|apply on_links_run; exact E4].
  erewrite bind_Ret; [|apply on_links_run; exact E5]. rewrite bind_modify.
  cbn -[u32 new_queue]. rewrite u32_small by lia. reflexivity.
Qed.

Lemma mq_open_new s qs C lost nm oflag at_ mem junk :
  mq_ok s qs C lost → hd 0 nm = 47 → (length nm < 64)%nat → (∀ a, at_ = Some a → valid_attr a) → (∀ p r, mqs s !! p = Some r → name r ≠ nm) →
  Z.land oflag O_CREAT ≠ 0 → queue_count (mgr s) < MQ_MAX_QUEUES → mem ≠ 0 → fresh_block qs C mem sizeof_mqueue →
  ∃ s', mq_open queues (Some nm) oflag at_ mem junk s = Ret (mem, s') ∧ mqs s' = <[mem := new_queue nm oflag at_]> (mqs s) ∧
    mq_ok s' (qs ++ [mem]) (<[mem := []]> C) lost.
Proof.
  intros Hok Hhd Hlen Hat Hname Hcreat Hroom Hmem Hfresh.
  destruct (mq_open_creates s qs C lost nm oflag at_ mem junk Hok Hhd Hname Hcreat Hroom Hmem Hfresh) as (l & E & R1 & R2 & Hf).
  eexists. split; [exact E | split; [done|]]. pose proof (ok_count _ _ _ _ Hok) as [Hc1 Hc2].
  destruct (new_attr_ok (flags (new_queue nm oflag at_)) at_ Hat) as (A1 & A2 & A3).
  eapply mq_ok_add; [exact Hok | done | done | reflexivity | done | | | lia | exact R1 | exact Hf | done].
  - cbn. by rewrite take_ge by lia.
  - split; [exact R2 | set_solver | set_solver | constructor | | done].
    change (attr (new_queue nm oflag at_)) with (new_attr (flags (new_queue nm oflag at_)) at_). cbn [length]. lia.
Qed.

(** ** Unlinking *)

(** The node behind the first one. *)
Lemma ring_second l h c : ring l h c → ∃ n, load (right_of h c) l = Ret (n, l) ∧ next n = right_of h (tail c).
Proof.
  intros Hr. destruct c as [|p c]; eexists; (split; [apply (load_head _ _ _ Hr) || apply (node_load _ _ [] _ _ Hr) | reflexivity]).
Qed.

Lemma fmap_tail {A B} (f : A → B) l : tail (f <$> l) = f <$> tail l.
Proof. by destruct l. Qed.

(** The loop that frees the messages of a queue. *)
Lemma free_loop_run s h (c : contents) fuel :
  ring (ln s) h c.*1 → (∀ p m, (p, m) ∈ c → msgs s !! p = Some m) → (length c < fuel)%nat →
  ∃ l ms, free_loop fuel (right_of h c.*1) (right_of h (tail c).*1) h s = Ret (tt, with_ln l (with_msgs ms s)) ∧ ring l h [] ∧
    (∀ x, x ∉ h :: c.*1 → l !! x = ln s !! x) ∧ (∀ x, x ∉ c.*1 → ms !! x = msgs s !! x) ∧ (∀ x, x ∈ c.*1 → l !! x = None ∧ ms !! x = None).
Proof.
  revert s fuel. induction c as [|[p m] c IH]; intros s [|fuel] Hr Hm Hf; cbn [length] in Hf; try lia; cbn [free_loop fmap list_fmap right_of hd fst tail].
  { rewrite Z.eqb_refl. exists (ln s), (msgs s). destruct s. split_and!; [done | done | done | done | set_solver]. }
  cbn [fmap list_fmap fst] in Hr. destruct (take_message s h p m c.*1 Hr (Hm p m ltac:(left))) as (l & E1 & E2 & Hr' & Hp & Hfr).
  rewrite (proj2 (Z.eqb_neq p h)), (bind_Ret _ _ _ _ _ E1), (bind_Ret _ _ _ _ _ E2) by set_solver.
  set (s1 := with_ln (delete p l) (with_msgs (delete p (msgs s)) s)).
  destruct (ring_second (ln s1) h c.*1 Hr') as (n & En & Hn). rewrite fmap_tail in Hn. unfold right_of in En at 1. rewrite (bind_Ret _ _ _ _ _ (on_links_same _ s1 _ En)), Hn.
  destruct (IH s1 fuel) as (l' & ms & E & Hr2 & Hf2 & Hm2 & Hx2); [done | | lia|].
  { intros a x Hin. cbn. rewrite lookup_delete_ne; [apply Hm; by right|]. intros ->. apply Hp. right. by apply (list_elem_of_fmap_2 fst _ (a, x)). }
  exists l', ms. split_and!; [exact E | done | | |].
  - intros x Hx. rewrite Hf2 by set_solver. apply Hfr. set_solver.
  - intros x Hx. rewrite Hm2 by set_solver. apply lookup_delete_ne. set_solver.
  - intros x [->|Hx]%elem_of_cons; [|by apply Hx2]. rewrite (Hf2 p Hp), Hm2 by set_solver. cbn. by rewrite !lookup_delete_eq.
Qed.

Lemma delete_lookup (l : links) ns x : foldr delete l ns !! x = if bool_decide (x ∈ ns) then None else l !! x.
Proof.
  induction ns as [|n ns IH]; [done|]. cbn [foldr]. destruct (decide (x = n)) as [->|Hne]; [rewrite lookup_delete_eq, bool_decide_eq_true_2; set_solver|].
  rewrite lookup_delete_ne, IH by done. repeat case_bool_decide; set_solver.
Qed.

(** A queue is removed from the system. *)
Lemma mq_ok_remove s s' l1 q l2 C a b :
  mq_ok s (l1 ++ q :: l2) C (a, b) → mqs s' = delete q (mqs s) → ring (ln s') queues (list_of <$> l1 ++ l2) →
  (∀ x, x ∉ nodes q (C q) → x ∉ queues :: (list_of <$> l1 ++ l2) → ln s' !! x = ln s !! x) →
  (∀ x, x ∉ (C q).*1 → msgs s' !! x = msgs s !! x) →
  mgr s' = {| queue_count := queue_count (mgr s) - 1; total_messages := total_messages (mgr s); total_bytes := total_bytes (mgr s) |} →
  mq_ok s' (l1 ++ l2) C (a + count_of (C q), b + bytes (C q)).
Proof.
  intros Hok Hq Hring Hf Hm Hg. pose proof Hok as [O1 [O2 O2'] O3 O4 O5 O6 O7 O8 [O9 O9'] O10 O11].
  assert (∀ x, x ∈ l1 ++ l2 → x ∈ l1 ++ q :: l2 ∧ x ≠ q) as Hin.
  { intros x Hx. split; [set_solver|]. intros ->. rewrite <- Permutation_middle in O2. by apply NoDup_cons in O2 as [? _]. }
  assert (∀ {A} (f : A → Z) D, total_of f D (l1 ++ q :: l2) = total_of f D (l1 ++ l2) + f (D q)) as Htot.
  { intros A f D. rewrite !total_of_app. cbn [total_of foldr]. fold (total_of f D l2). lia. }
  split; rewrite ?Hq, ?Hg; cbn [queue_count total_messages total_bytes fst snd].
  - done.
  - split; [rewrite <- Permutation_middle in O2; by apply NoDup_cons in O2 as [_ ?] | set_solver].
  - intros x Hx. apply O3. by apply Hin.
  - intros x Hx. apply O4. by apply Hin.
  - intros x x' y Hx Hx'. apply O5; by apply Hin.
  - intros x. rewrite lookup_delete_is_Some, <- O6. split; [intros [? ?]%Hin; by split|]. intros [Hne Hx]. set_solver.
  - intros x r [Hne Hr]%lookup_delete_Some. assert (x ∈ l1 ++ q :: l2) as Hx by (apply O6; by eexists).
    assert (q ∈ l1 ++ q :: l2) as Hqin by set_solver.
    apply (queue_ok_frame s); [| |by apply O7].
    + intros y Hy'. pose proof (messages_node _ _ _ Hy') as Hy. apply Hf; [by apply (O5 x q y)|]. intros [->|(p & -> & Hp)%list_elem_of_fmap]%elem_of_cons; [by apply (O3 x)|].
      destruct (decide (p = x)) as [->|Hpx].
      * by apply (list_of_fresh x (C x)); [apply O4|].
      * apply (O5 p x (list_of p)); [by apply Hin | done | done | apply list_of_node | done].
    + intros y Hy. apply Hm. intros Hy'. apply (O5 x q y); [done | done | done | apply elem_of_app; by right | apply elem_of_app; by right].
  - intros x x' r r' [_ Hr]%lookup_delete_Some [_ Hr']%lookup_delete_Some. by eapply O8.
  - rewrite length_app in *. cbn [length] in *. lia.
  - rewrite O10, Htot. apply (f_equal u64). cbn. lia.
  - rewrite O11, Htot. apply (f_equal u64). cbn. lia.
Qed.

(** The links and messages after [mq_unlink] has freed the messages, taken the queue
    out of the global list, and freed it. *)
Lemma unlink_links s l1 q l2 C lost r :
  mq_ok s (l1 ++ q :: l2) C lost → mqs s !! q = Some r →
  ∃ l ms l', free_loop (S (base.size (ln s))) (right_of (messages q) (C q).*1) (right_of (messages q) (tail (C q)).*1) (messages q) s = Ret (tt, with_ln l (with_msgs ms s)) ∧
    list_del (list_of q) l = Ret (tt, l') ∧ let L := foldr delete l' (nodes_of_queue q) in
    ring L queues (list_of <$> l1 ++ l2) ∧ (∀ x, x ∉ nodes q (C q) → x ∉ queues :: (list_of <$> l1 ++ l2) → L !! x = ln s !! x) ∧
    (∀ x, x ∉ (C q).*1 → ms !! x = msgs s !! x) ∧ (∀ x, x ∈ nodes q (C q) → L !! x = None) ∧ (∀ x, x ∈ (C q).*1 → ms !! x = None).
Proof.
  intros Hok Hr. pose proof Hok as [O1 _ O3 O4 O5 O6 O7 _ _ _ _]. pose proof (O7 q r Hr) as [Q1 Q2 _ _ _ _].
  assert (list_of <$> l1 ++ q :: l2 = (list_of <$> l1) ++ list_of q :: (list_of <$> l2)) as Hfm by by rewrite fmap_app.
  pose proof (ring_size _ _ _ Q1) as Hsz. rewrite length_fmap in Hsz.
  destruct (free_loop_run s (messages q) (C q) (S (base.size (ln s)))) as (l & ms & E1 & R1 & F1 & G1 & X1); [done | done | lia|].
  assert (q ∈ l1 ++ q :: l2) as Hq by set_solver.
  assert (∀ x, x ∈ queues :: (list_of <$> l1 ++ q :: l2) → x ≠ list_of q → x ∉ nodes q (C q)) as Hglob.
  { intros x [->|(p & -> & Hp)%list_elem_of_fmap]%elem_of_cons Hne Hx; [by apply (O3 q Hq)|]. 
    apply (O5 p q (list_of p)); [done | done | congruence | apply list_of_node | done]. }
  assert (∀ x, x ∈ queues :: (list_of <$> l1 ++ q :: l2) → x ∉ messages q :: (C q).*1) as Hglob'.
  { intros x Hx Hx'. destruct (decide (x = list_of q)) as [->|Hne]; [by apply (list_of_fresh q (C q) (O4 q Hq)) | by apply (Hglob x Hx Hne), messages_node]. }
  assert (ring l queues ((list_of <$> l1) ++ list_of q :: (list_of <$> l2))) as R2.
  { rewrite <- Hfm. apply (ring_frame (ln s)); [|done]. intros x Hx. apply F1. by apply Hglob'. }
  destruct (ring_mid _ _ _ _ _ R2) as [_ Hout]. destruct (list_del_makes l queues _ _ _ R2) as (l' & E2 & R3 & _ & D3 & F3).
  rewrite <- Hfm in F3. rewrite <- fmap_app in R3, Hout.
  assert (∀ x, x ∈ queues :: (list_of <$> l1 ++ l2) → x ∈ queues :: (list_of <$> l1 ++ q :: l2) ∧ x ≠ list_of q) as Hsub.
  { intros x Hx. split; [|congruence]. rewrite Hfm. rewrite fmap_app in Hx. clear - Hx. set_solver. }
  assert (∀ x, x ∈ (C q).*1 → l !! x = None ∧ l' !! x = None) as Hgone.
  { intros x Hx. destruct (X1 x Hx) as [Hl _]. split; [done|]. apply not_elem_of_dom. rewrite D3. by apply not_elem_of_dom. }
  exists l, ms, l'. cbn zeta. split_and!; [exact E1 | done | | | | |].
  - apply (ring_frame l'); [|done]. intros x [Hx Hne]%Hsub. rewrite delete_lookup, bool_decide_eq_false_2; [done|]. intros Hx'. apply (Hglob x Hx Hne). apply elem_of_app. by left.
  - intros x Hx Hx'. rewrite delete_lookup, bool_decide_eq_false_2 by (intros ?; apply Hx, elem_of_app; by left).
    rewrite F3; [apply F1; intros ?; by apply Hx, messages_node|]. rewrite Hfm. rewrite fmap_app in Hx'. assert (x ≠ list_of q) as Hxq by (intros ->; apply Hx, list_of_node). clear - Hx' Hxq. set_solver.
  - exact G1.
  - intros x [Hx|Hx]%elem_of_app; rewrite delete_lookup; case_bool_decide; try done. by apply Hgone.
  - intros x Hx. by apply X1.
Qed.

Lemma mq_unlink_run s qs C a b q r :
  mq_ok s qs C (a, b) → mqs s !! q = Some r → refcount r = 0 →
  ∃ s' qs', mq_unlink queues (name r) s = Ret (0, s') ∧ mqs s' = delete q (mqs s) ∧ qs ≡ₚ q :: qs' ∧ sublist qs' qs ∧
    mq_ok s' qs' C (a + count_of (C q), b + bytes (C q)) ∧
    (∀ x, x ∈ nodes q (C q) → ln s' !! x = None) ∧ (∀ x, x ∈ (C q).*1 → msgs s' !! x = None).
Proof.
  intros Hok Hr Href. pose proof (ok_each _ _ _ _ Hok q r Hr) as [Q1 _ _ _ _ _]. pose proof (ok_count _ _ _ _ Hok) as [Hc1 Hc2].
  assert (q ∈ qs) as Hq by (apply (ok_dom _ _ _ _ Hok); by eexists). assert (q ≠ 0) as Hq0 by (intros ->; by apply (ok_qs _ _ _ _ Hok)).
  destruct (mqueue_find_run s qs C (a, b) (name r) Hok) as (q' & Ef & Hn).
  assert (q' = q) as -> by (destruct Hn as [(r' & Hr' & Hn)|[_ Hn]]; [by apply (ok_names _ _ _ _ Hok q' q r' r) | by destruct (Hn q r)]). clear Hn.
  apply list_elem_of_split in Hq as (l1 & l2 & ->). rewrite length_app in Hc1, Hc2. cbn [length] in Hc1, Hc2.
  destruct (unlink_links s l1 q l2 C (a, b) r Hok Hr) as (l & ms & l' & E1 & E2 & R3 & F3 & F4 & X3 & X4).
  eexists _, (l1 ++ l2). split_and!.
  - unfold mq_unlink. rewrite (bind_Ret _ _ _ _ _ Ef), (proj2 (Z.eqb_neq q 0) Hq0), (bind_Ret _ _ _ _ _ (queue_run _ _ _ Hr)), Href. cbn [Z.ltb Z.compare].
    rewrite bind_get, (bind_Ret _ _ _ _ _ (on_links_same _ _ _ (load_head _ _ _ Q1))). cbn [next].
    destruct (ring_second _ _ _ Q1) as (n & En & Hn). rewrite fmap_tail in Hn.
    rewrite (bind_Ret _ _ _ _ _ (on_links_same _ _ _ En)), Hn, (bind_Ret _ _ _ _ _ E1).
    erewrite bind_Ret; [|apply on_links_run; exact E2]. rewrite bind_modify.
    unfold kfree_queue. rewrite !bind_assoc. erewrite bind_Ret; [|apply queue_run; exact Hr]. rewrite bind_modify. reflexivity.
  - done.
  - by rewrite <- Permutation_middle.
  - apply sublist_app; [done|]. by apply sublist_cons.
  - eapply mq_ok_remove; [exact Hok | reflexivity | exact R3 | exact F3 | exact F4 |]. cbn -[u32]. rewrite u32_small by lia. done.
  - exact X3.
  - exact X4.
Qed.

End Spec.
