(* ===== verification/MqueueProps.v ===== *)
(** * Message queues: theorems

    Every operation keeps the invariant of MqueueSpec.v and does what the interface
    says, on every branch; what is sent is delivered by priority and in order. *)

From stdpp Require Import functions sorting.
From S2P Require Import Prelude Errno ListHead Mqueue MqueueSpec.

#[local] Open Scope Z_scope.

Section Props.
Variable queues : Z.
Abbreviation mq_ok := (mq_ok queues).
Abbreviation unused := (unused queues).

(** [mq_send], on every branch: a message that is too long, a priority out of range, a full queue and a failed allocation are
    refused with their error and change nothing; otherwise the message is inserted behind all messages of at least its priority, the
    other queues are as before, and the invariant holds again with exact counters. *)
Theorem mq_send_correct s qs C lost q r buf len prio p junk :
  mq_ok s qs C lost → mqs s !! q = Some r → 0 ≤ len ≤ Z.of_nat (length buf) → 0 ≤ prio → unused qs C p →
  let refused e := mq_send q (Some buf) len prio p junk s = Ret (- e, s) in
  if mq_msgsize (attr r) <? len then refused EMSGSIZE
  else if MQ_PRIO_MAX <=? prio then refused EINVAL
  else if mq_maxmsg (attr r) <=? Z.of_nat (length (C q)) then refused EAGAIN
  else if p =? 0 then refused ENOMEM
  else
    ∃ s', mq_send q (Some buf) len prio p junk s = Ret (0, s') ∧
      mqs s' = <[q := with_traffic (mq_curmsgs (attr r) + 1) (u64 (total_sent r + 1)) (total_recv r) r]> (mqs s) ∧
      mq_ok s' qs (<[q := insert_prio (p, new_message buf len prio) (C q)]> C) lost.
Proof.
  intros Hok Hr Hlen Hprio Hu refused. assert (q ≠ 0) as Hq0 by (intros ->; apply (ok_qs _ _ _ _ _ Hok), (ok_dom _ _ _ _ _ Hok); by eexists).
  destruct (ok_each _ _ _ _ _ Hok q r Hr) as [_ _ _ _ (Hcur & _) _]. rewrite <- Hcur. unfold refused.
  destruct (Z.ltb_spec (mq_msgsize (attr r)) len) as [H1|H1];
    [|destruct (Z.leb_spec MQ_PRIO_MAX prio) as [H2|H2];
      [|destruct (Z.leb_spec (mq_maxmsg (attr r)) (mq_curmsgs (attr r))) as [H3|H3]; [|destruct (Z.eqb_spec p 0) as [H4|H4]]]].
  5: apply (mq_send_run queues); done || lia.
  all: unfold mq_send; rewrite (proj2 (Z.eqb_neq q 0) Hq0), (bind_Ret _ _ _ _ _ (queue_run _ _ _ Hr)).
  - by rewrite (proj2 (Z.ltb_lt _ _)) by lia.
  - by rewrite (proj2 (Z.ltb_ge _ _)), (proj2 (Z.leb_le _ _)) by lia.
  - rewrite (proj2 (Z.ltb_ge _ _)), (proj2 (Z.leb_gt _ _)), (proj2 (Z.leb_le _ _)) by lia. by destruct (negb _).
  - rewrite (proj2 (Z.ltb_ge _ _)), (proj2 (Z.leb_gt _ _)), (proj2 (Z.leb_gt _ _)), H4 by lia. done.
Qed.

(** [mq_receive], on every branch: a buffer shorter than the queue's message size and an empty queue are refused with their error
    and change nothing; otherwise the first message, whose priority no other message of the queue exceeds, is copied to the front of
    the buffer, its size and priority are reported, and it is gone from the queue. *)
Theorem mq_receive_correct s qs C lost q r buf len want :
  mq_ok s qs C lost → mqs s !! q = Some r → 0 ≤ len ≤ Z.of_nat (length buf) →
  let refused e := mq_receive q (Some buf) len want s = Ret (- e, Some buf, None, s) in
  if len <? mq_msgsize (attr r) then refused EMSGSIZE
  else
    match C q with
    | [] => refused EAGAIN
    | (p, m) :: c =>
        Forall (λ e, priority (snd e) ≤ priority m) c ∧
        ∃ s', mq_receive q (Some buf) len want s =
            Ret (Z.of_nat (length (data m)), Some (data m ++ drop (length (data m)) buf), if want then Some (priority m) else None, s') ∧
          mqs s' = <[q := with_traffic (mq_curmsgs (attr r) - 1) (total_sent r) (u64 (total_recv r + 1)) r]> (mqs s) ∧
          mq_ok s' qs (<[q := c]> C) lost
    end.
Proof.
  intros Hok Hr Hlen refused. assert (q ≠ 0) as Hq0 by (intros ->; apply (ok_qs _ _ _ _ _ Hok), (ok_dom _ _ _ _ _ Hok); by eexists).
  pose proof (ok_each _ _ _ _ _ Hok q r Hr) as [_ _ Hfit Hsort (Hcur & _) _]. unfold refused. destruct (Z.ltb_spec len (mq_msgsize (attr r))) as [H1|H1].
  { unfold mq_receive. rewrite (proj2 (Z.eqb_neq q 0) Hq0), (bind_Ret _ _ _ _ _ (queue_run _ _ _ Hr)). by rewrite (proj2 (Z.ltb_lt _ _)) by lia. }
  destruct (C q) as [|[p m] c] eqn:HC.
  - unfold mq_receive. rewrite (proj2 (Z.eqb_neq q 0) Hq0), (bind_Ret _ _ _ _ _ (queue_run _ _ _ Hr)).
    rewrite (proj2 (Z.ltb_ge _ _)), Hcur, (proj2 (Z.eqb_eq _ 0)) by done. by destruct (negb _).
  - apply StronglySorted_inv in Hsort as [_ Hs]. split; [exact Hs|]. destruct (Hfit (p, m) ltac:(left)) as [Hsz _]. cbn [snd] in Hsz. rewrite <- Hsz.
    apply (mq_receive_run queues s qs C lost q r p m c buf len want); [done | done | done | lia].
Qed.

(** [mq_open] finds the queue of that name and takes a reference to it, unless exclusive creation is asked for; otherwise, if
    creation is asked for and there is room and memory, it enters a new, empty queue with sane limits; in all other cases it returns
    NULL and changes nothing.  Names stay unique. *)
Theorem mq_open_correct s qs C lost nm oflag at_ mem junk q :
  mq_ok s qs C lost → hd 0 nm = 47 → (length nm < 64)%nat → (∀ a, at_ = Some a → valid_attr a) → fresh_block queues qs C mem sizeof_mqueue →
  named s nm q →
  let creat := negb (Z.land oflag O_CREAT =? 0) in
  let excl := negb (Z.land oflag O_EXCL =? 0) in
  ∃ res s', mq_open queues (Some nm) oflag at_ mem junk s = Ret (res, s') ∧
    match mqs s !! q with
    | Some r =>
        if creat && excl then res = 0 ∧ s' = s
        else res = q ∧ mqs s' = <[q := with_refcount (u32 (refcount r + 1)) r]> (mqs s) ∧ mq_ok s' qs C lost
    | None =>
        if creat && (queue_count (mgr s) <? MQ_MAX_QUEUES) && negb (mem =? 0)
        then res = mem ∧ mqs s' = <[mem := new_queue nm oflag at_]> (mqs s) ∧ mq_ok s' (qs ++ [mem]) (<[mem := []]> C) lost
        else res = 0 ∧ s' = s
    end.
Proof.
  intros Hok Hhd Hlen Hat Hfresh Hn creat excl. assert (mqs s !! 0 = None) as H0.
  { apply eq_None_not_Some. intros Hx%(ok_dom _ _ _ _ _ Hok). by apply (ok_qs _ _ _ _ _ Hok). }
  destruct (mqueue_find_run queues s qs C lost nm Hok) as (q' & Ef & Hn').
  destruct Hn as [(r & Hr & Hnm)|[-> Hnone]].
  - assert (q' = q) as -> by (destruct Hn' as [(r' & Hr' & Hn')|[_ Hn']]; [apply (ok_names _ _ _ _ _ Hok q' q r' r); congruence | by destruct (Hn' q r)]).
    assert (q ≠ 0) as Hq0 by (intros ->; congruence). rewrite Hr. unfold mq_open. rewrite Hhd, Z.eqb_refl. cbn [negb].
    rewrite (bind_Ret _ _ _ _ _ Ef), (proj2 (Z.eqb_neq q 0) Hq0). cbn [negb]. fold creat excl. destruct (creat && excl); [by exists 0, s|].
    rewrite (bind_Ret _ _ _ _ _ (queue_run _ _ _ Hr)). eexists q, _. split; [reflexivity|]. split_and!; [done | done|]. by eapply mq_ok_record.
  - assert (q' = 0) as -> by (destruct Hn' as [(r' & Hr' & Hn')|[? _]]; [by destruct (Hnone q' r') | done]). rewrite H0.
    destruct (creat && (queue_count (mgr s) <? MQ_MAX_QUEUES) && negb (mem =? 0)) eqn:Hc.
    + apply andb_prop in Hc as [[Hc1 Hc2%Z.ltb_lt]%andb_prop Hc3%negb_true_iff%Z.eqb_neq]. apply negb_true_iff, Z.eqb_neq in Hc1.
      destruct (mq_open_new queues s qs C lost nm oflag at_ mem junk) as (s' & E & H1 & H2); try done. by exists mem, s'.
    + exists 0, s. split; [|done]. unfold mq_open. rewrite Hhd, Z.eqb_refl. cbn [negb]. rewrite (bind_Ret _ _ _ _ _ Ef). cbn [Z.eqb negb].
      unfold creat in Hc. destruct (Z.land oflag O_CREAT =? 0); [done|]. cbn [negb andb] in Hc. rewrite bind_get.
      destruct (Z.leb_spec MQ_MAX_QUEUES (queue_count (mgr s))); [done|]. rewrite (proj2 (Z.ltb_lt _ _)) in Hc by lia. destruct (mem =? 0); done.
Qed.

(** [mq_close] drops a reference, never below zero; [mq_unlink] of a name that is not there fails with ENOENT, of a queue that is
    still referenced reports success and does nothing, and of any other queue removes it and frees it with all its messages, after
    which no node of it is left in any list.  The messages freed that way stay in the manager's [total_messages] and [total_bytes]
    (the last component of the invariant). *)
Theorem mq_close_unlink_correct s qs C a b q r :
  mq_ok s qs C (a, b) → mqs s !! q = Some r → 0 ≤ refcount r →
  (∃ s', mq_close q s = Ret (0, s') ∧ (mqs s' !! q = Some (with_refcount (Z.max 0 (refcount r - 1)) r)) ∧ mq_ok s' qs C (a, b)) ∧
  (∀ nm, (∀ p rp, mqs s !! p = Some rp → name rp ≠ nm) → mq_unlink queues nm s = Ret (- ENOENT, s)) ∧
  (if 0 <? refcount r then mq_unlink queues (name r) s = Ret (0, s)
   else ∃ s' qs', mq_unlink queues (name r) s = Ret (0, s') ∧ mqs s' = delete q (mqs s) ∧ qs ≡ₚ q :: qs' ∧
     mq_ok s' qs' C (a + count_of (C q), b + bytes (C q)) ∧ (∀ x, x ∈ nodes q (C q) → ln s' !! x = None) ∧ (∀ x, x ∈ (C q).*1 → msgs s' !! x = None)).
Proof.
  intros Hok Hr Href. assert (q ≠ 0) as Hq0 by (intros ->; apply (ok_qs _ _ _ _ _ Hok), (ok_dom _ _ _ _ _ Hok); by eexists). split_and!.
  - unfold mq_close. rewrite (proj2 (Z.eqb_neq q 0) Hq0), (bind_Ret _ _ _ _ _ (queue_run _ _ _ Hr)). destruct (Z.ltb_spec 0 (refcount r)).
    + eexists. split; [reflexivity|]. cbn. rewrite lookup_insert_eq. split; [do 2 f_equal; lia | by eapply mq_ok_record].
    + exists s. split_and!; [done | | done]. rewrite Hr. f_equal. replace (Z.max 0 (refcount r - 1)) with (refcount r) by lia. by destruct r.
  - intros nm Hnm. destruct (mqueue_find_run queues s qs C (a, b) nm Hok) as (q' & Ef & [(r' & Hr' & Hn')|[-> _]]); [by destruct (Hnm q' r')|].
    unfold mq_unlink. by rewrite (bind_Ret _ _ _ _ _ Ef).
  - destruct (Z.ltb_spec 0 (refcount r)).
    + destruct (mqueue_find_run queues s qs C (a, b) (name r) Hok) as (q' & Ef & Hn').
      assert (q' = q) as -> by (destruct Hn' as [(r' & Hr' & Hn')|[_ Hn']]; [by apply (ok_names _ _ _ _ _ Hok q' q r' r) | by destruct (Hn' q r)]).
      unfold mq_unlink. rewrite (bind_Ret _ _ _ _ _ Ef), (proj2 (Z.eqb_neq q 0) Hq0), (bind_Ret _ _ _ _ _ (queue_run _ _ _ Hr)).
      by rewrite (proj2 (Z.ltb_lt _ _)) by lia.
    + destruct (mq_unlink_run queues s qs C a b q r) as (s' & qs' & ? & ? & ? & _ & ? & ? & ?); [done | done | lia|]. by exists s', qs'.
Qed.

(** ** Delivery *)

(** Messages with the blocks they are stored in: address, contents, priority. *)
Abbreviation item := (Z * list Z * Z)%type.

Definition stored (e : item) : Z * mq_message :=
  let '(p, d, k) := e in (p, {| priority := k; size := Z.of_nat (length d); data := d |}).

Fixpoint send_all (q : Z) (junk : list_head) (es : list item) : M mqst (list Z) :=
  match es with
  | [] => mret []
  | (p, d, k) :: es => r ← mq_send q (Some d) (Z.of_nat (length d)) k p junk; rs ← send_all q junk es; mret (r :: rs)
  end.

Fixpoint receive_all (n : nat) (q : Z) (buf : list Z) : M mqst (list (Z * option (list Z) * option Z)) :=
  match n with
  | O => mret []
  | S n => r ← mq_receive q (Some buf) (Z.of_nat (length buf)) true; rs ← receive_all n q buf; mret (r :: rs)
  end.

Definition delivered (buf : list Z) (e : Z * mq_message) : Z * option (list Z) * option Z :=
  (Z.of_nat (length (data (snd e))), Some (data (snd e) ++ drop (length (data (snd e))) buf), Some (priority (snd e))).

Definition arrange (c : contents) (es : list item) : contents := foldl (λ c e, insert_prio (stored e) c) c es.

Lemma insert_prio_filter k e c :
  StronglySorted before c →
  filter (λ x, priority (snd x) = k) (insert_prio e c) = filter (λ x, priority (snd x) = k) c ++ filter (λ x, priority (snd x) = k) [e].
Proof.
  induction c as [|x c IH]; intros Hs; [done|]. apply StronglySorted_inv in Hs as [Hs Hx]. cbn [insert_prio].
  destruct (Z.ltb_spec (priority (snd x)) (priority (snd e))) as [Hlt|Hge].
  - rewrite (filter_cons _ e). destruct (decide (priority (snd e) = k)) as [<-|Hne].
    + rewrite (filter_none _ (x :: c)); [by rewrite filter_cons_True|]. intros y [->|Hy]%elem_of_cons; [lia|].
      pose proof (proj1 (Forall_forall _ _) Hx y Hy) as Hb. unfold before in Hb. lia.
    + by rewrite (filter_cons_False _ e), filter_nil, app_nil_r.
  - rewrite !(filter_cons _ x). rewrite (IH Hs). by case_decide.
Qed.

Lemma arrange_spec c es :
  StronglySorted before c →
  arrange c es ≡ₚ c ++ (stored <$> es) ∧ StronglySorted before (arrange c es) ∧
  ∀ k, filter (λ x, priority (snd x) = k) (arrange c es) = filter (λ x, priority (snd x) = k) (c ++ (stored <$> es)).
Proof.
  revert c. induction es as [|e es IH]; intros c Hs; [cbn; by rewrite app_nil_r|]. unfold arrange. cbn [foldl fmap list_fmap]. fold (arrange (insert_prio (stored e) c) es).
  destruct (IH (insert_prio (stored e) c)) as (H1 & H2 & H3); [by apply insert_prio_sorted|]. split_and!; [|done|].
  - rewrite H1, insert_prio_perm. solve_Permutation.
  - intros k. rewrite H3, !filter_app, insert_prio_filter, <- app_assoc by done. f_equal. rewrite <- filter_app. done.
Qed.

Lemma unused_update qs C q p x m : unused qs C x → q ∈ qs → x ≠ p → unused qs (<[q := insert_prio (p, m) (C q)]> C) x.
Proof.
  intros [H1 H2] Hq Hne. split; [done|]. intros y Hy. destruct (decide (y = q)) as [->|]; [|rewrite fn_lookup_insert_ne by done; by apply H2].
  rewrite fn_lookup_insert. specialize (H2 q Hq). unfold nodes in *. rewrite insert_prio_perm. cbn. set_solver.
Qed.

Lemma send_all_run s qs C lost q r junk es :
  mq_ok s qs C lost → mqs s !! q = Some r → NoDup (fst ∘ fst <$> es) →
  (∀ p d k, (p, d, k) ∈ es → unused qs C p ∧ p ≠ 0 ∧ Z.of_nat (length d) ≤ mq_msgsize (attr r) ∧ 0 ≤ k < MQ_PRIO_MAX) →
  Z.of_nat (length (C q) + length es) ≤ mq_maxmsg (attr r) →
  ∃ s' r', send_all q junk es s = Ret (replicate (length es) 0, s') ∧ mqs s' !! q = Some r' ∧ mq_msgsize (attr r') = mq_msgsize (attr r) ∧
    mq_ok s' qs (<[q := arrange (C q) es]> C) lost.
Proof.
  revert s C r. induction es as [|[[p d] k] es IH]; intros s C r Hok Hr Hnd Hes Hroom.
  { exists s, r. split_and!; [done | done | done|]. cbn. by rewrite (update_same C q (C q) eq_refl). }
  assert (q ∈ qs) as Hq by (apply (ok_dom _ _ _ _ _ Hok); by eexists). cbn [fmap list_fmap length] in *. apply NoDup_cons in Hnd as [Hp Hnd].
  destruct (Hes p d k ltac:(left)) as (Hu & Hp0 & Hlen & Hk). destruct (ok_each _ _ _ _ _ Hok q r Hr) as [_ _ _ _ (Hcur & _) _].
  destruct (mq_send_run queues s qs C lost q r d (Z.of_nat (length d)) k p junk) as (s1 & E1 & Hm1 & Hok1); try done; try lia.
  set (r1 := with_traffic _ _ _ r) in Hm1. assert (mqs s1 !! q = Some r1) as Hr1 by by rewrite Hm1, lookup_insert_eq.
  assert (new_message d (Z.of_nat (length d)) k = snd (stored (p, d, k))) as Hnew by (unfold new_message; rewrite Nat2Z.id, take_ge by lia; done).
  rewrite Hnew in Hok1. change (p, snd (stored (p, d, k))) with (stored (p, d, k)) in Hok1.
  destruct (IH s1 _ r1 Hok1 Hr1 Hnd) as (s2 & r2 & E2 & Hr2 & Hz2 & Hok2).
  { intros p' d' k' Hin. destruct (Hes p' d' k' ltac:(by right)) as (? & ? & ? & ?). split_and!; [|done|done|lia|lia].
    apply unused_update; [done | done|]. intros ->. apply Hp. by apply (list_elem_of_fmap_2 (fst ∘ fst) _ (p, d', k')). }
  { rewrite fn_lookup_insert, (Permutation_length (insert_prio_perm _ _)). cbn [length mq_maxmsg attr r1 with_traffic]. lia. }
  exists s2, r2. split_and!; [|done | done|].
  - cbn [send_all]. rewrite (bind_Ret _ _ _ _ _ E1), (bind_Ret _ _ _ _ _ E2). done.
  - by rewrite fn_lookup_insert, update_twice in Hok2.
Qed.

Lemma receive_all_run s qs C lost q r buf :
  mq_ok s qs C lost → mqs s !! q = Some r → mq_msgsize (attr r) ≤ Z.of_nat (length buf) →
  ∃ s', receive_all (length (C q)) q buf s = Ret (delivered buf <$> C q, s') ∧ mq_ok s' qs (<[q := []]> C) lost.
Proof.
  remember (C q) as c eqn:HC. revert s C r HC. induction c as [|[p m] c IH]; intros s C r HC Hok Hr Hbuf.
  { exists s. split; [done|]. by rewrite (update_same C q [] (eq_sym HC)). }
  destruct (mq_receive_run queues s qs C lost q r p m c buf (Z.of_nat (length buf)) true) as (s1 & E1 & Hm1 & Hok1); [done | done | done | lia|].
  destruct (ok_each _ _ _ _ _ Hok q r Hr) as [_ _ Hfit _ _ _]. rewrite <- HC in Hfit. destruct (Hfit (p, m) ltac:(left)) as [Hsz _]. cbn [snd] in Hsz.
  destruct (IH s1 (<[q := c]> C) (with_traffic (mq_curmsgs (attr r) - 1) (total_sent r) (u64 (total_recv r + 1)) r)) as (s2 & E2 & Hok2); [by rewrite fn_lookup_insert | done | by rewrite Hm1, lookup_insert_eq | done|].
  exists s2. split.
  - cbn [length receive_all]. rewrite (bind_Ret _ _ _ _ _ E1), (bind_Ret _ _ _ _ _ E2). cbn [fmap list_fmap]. unfold delivered at 2. cbn [snd]. rewrite Hsz. done.
  - by rewrite update_twice in Hok2.
Qed.

(** C32: end to end: a batch of messages sent to an empty queue and then received is delivered completely and unchanged, in order of
    descending priority, and among equal priorities in the order they were sent; the queue is empty again. *)
Theorem mq_delivery s qs C lost q r junk es buf :
  mq_ok s qs C lost → mqs s !! q = Some r → C q = [] → NoDup (fst ∘ fst <$> es) →
  (∀ p d k, (p, d, k) ∈ es → unused qs C p ∧ p ≠ 0 ∧ Z.of_nat (length d) ≤ mq_msgsize (attr r) ∧ 0 ≤ k < MQ_PRIO_MAX) →
  Z.of_nat (length es) ≤ mq_maxmsg (attr r) → mq_msgsize (attr r) ≤ Z.of_nat (length buf) →
  ∃ s1 s2 out, send_all q junk es s = Ret (replicate (length es) 0, s1) ∧ receive_all (length es) q buf s1 = Ret (delivered buf <$> out, s2) ∧
    out ≡ₚ stored <$> es ∧ StronglySorted before out ∧
    (∀ k, filter (λ x, priority (snd x) = k) out = filter (λ x, priority (snd x) = k) (stored <$> es)) ∧ mq_ok s2 qs C lost.
Proof.
  intros Hok Hr HC Hnd Hes Hlen Hbuf. destruct (send_all_run s qs C lost q r junk es Hok Hr Hnd Hes) as (s1 & r1 & E1 & Hr1 & Hz1 & Hok1); [rewrite HC; cbn; lia|].
  destruct (arrange_spec [] es) as (H1 & H2 & H3); [constructor|]. rewrite HC in Hok1.
  destruct (receive_all_run s1 qs _ lost q r1 buf Hok1 Hr1) as (s2 & E2 & Hok2); [congruence|]. rewrite fn_lookup_insert in E2.
  assert (length (arrange [] es) = length es) as Hl by (rewrite (Permutation_length H1); apply length_fmap). rewrite Hl in E2.
  exists s1, s2, (arrange [] es). split_and!; [done | exact E2 | done | done | done|].
  by rewrite update_twice, (update_same C q [] HC) in Hok2.
Qed.

(** [mq_open] takes the number of messages of a new queue from the caller's attributes.  With a number other than zero there, the
    new queue is empty and not known to be: receiving from it takes the head of its list for a message (undefined behaviour). *)
Theorem mq_open_trusts_curmsgs s qs C lost nm oflag at_ mem junk buf len want :
  mq_ok s qs C lost → hd 0 nm = 47 → (∀ p r, mqs s !! p = Some r → name r ≠ nm) → Z.land oflag O_CREAT ≠ 0 →
  queue_count (mgr s) < MQ_MAX_QUEUES → mem ≠ 0 → fresh_block queues qs C mem sizeof_mqueue → msgs s !! messages mem = None →
  mq_curmsgs at_ ≠ 0 → MQ_MAX_MSG_SIZE ≤ len →
  ∃ s', mq_open queues (Some nm) oflag (Some at_) mem junk s = Ret (mem, s') ∧ ring (ln s') (messages mem) [] ∧
    mq_receive mem (Some buf) len want s' = Undef.
Proof.
  intros Hok Hhd Hname Hcreat Hroom Hmem Hfresh Hnone Hcur Hlen.
  destruct (mq_open_creates queues s qs C lost nm oflag (Some at_) mem junk Hok Hhd Hname Hcreat Hroom Hmem Hfresh) as (l & E & _ & R & _).
  set (s' := {| ln := l |}) in E. exists s'. split_and!; [exact E | exact R|]. unfold mq_receive. rewrite (proj2 (Z.eqb_neq mem 0) Hmem).
  rewrite (bind_Ret _ _ _ _ _ (queue_run s' mem (new_queue nm oflag (Some at_)) ltac:(apply lookup_insert_eq))).
  set (r := new_queue _ _ _). assert (mq_msgsize (attr r) ≤ MQ_MAX_MSG_SIZE) by (cbn; case_match eqn:Hc; [done|]; zbool; apply orb_false_iff in Hc as [_ ?%Z.ltb_ge]; lia).
  rewrite (proj2 (Z.ltb_ge _ _)) by lia. replace (mq_curmsgs (attr r)) with (mq_curmsgs at_) by done. rewrite (proj2 (Z.eqb_neq _ _) Hcur).
  rewrite (bind_Ret _ _ _ _ _ (on_links_same _ s' _ (load_head _ _ _ R))). cbn [next right_of hd].
  apply bind_Undef. unfold message. rewrite bind_get. change (msgs s') with (msgs s). by rewrite Hnone.
Qed.

End Props.

(** ** Examples *)

(** The system with one empty queue, "/q", at 0x2000. *)
Definition demo_attr : mq_attr := {| mq_flags := 0; mq_maxmsg := 4; mq_msgsize := 8; mq_curmsgs := 0 |}.
Definition demo_queue : mqueue := new_queue [47; 113] 0 (Some demo_attr).
Definition demo_mq : mqst :=
  {| ln := <[0x1000 := {| next := 0x2080; prev := 0x2080 |}]> (<[0x2080 := {| next := 0x1000; prev := 0x1000 |}]>
           (<[0x2054 := {| next := 0x2054; prev := 0x2054 |}]> ∅));
     msgs := ∅; mqs := {[ 0x2000 := demo_queue ]};
     mgr := {| queue_count := 1; total_messages := 0; total_bytes := 0 |} |}.
Definition no_messages : Z → contents := λ _, [].

Lemma demo_only q r : mqs demo_mq !! q = Some r → q = 0x2000 ∧ r = demo_queue.
Proof. cbn [mqs demo_mq]. intros [<- <-]%lookup_singleton_Some. done. Qed.

Lemma demo_mq_ok : mq_ok 0x1000 demo_mq [0x2000] no_messages (0, 0).
Proof.
  pose proof demo_only as Hq.
  split; cbn [ln mqs msgs mgr demo_mq].
  - split; [repeat constructor; cbn; set_unfold; unfold list_of; lia | by vm_compute].
  - split; [apply NoDup_singleton | set_solver].
  - intros q ->%list_elem_of_singleton. unfold nodes, nodes_of_queue, messages, wait_send, wait_recv, list_of. cbn. set_unfold. lia.
  - intros q _. apply nodes_of_queue_nodup.
  - intros q q' x ->%list_elem_of_singleton ->%list_elem_of_singleton. done.
  - intros q. rewrite list_elem_of_singleton, lookup_singleton_is_Some. done.
  - intros q r [-> ->]%Hq. split; cbn; [split; [apply NoDup_singleton | by vm_compute] | set_solver | set_solver | constructor | lia | lia].
  - intros q q' r r' [-> _]%Hq [-> _]%Hq. done.
  - done.
  - done.
  - done.
Qed.

Definition no_links : list_head := {| next := 0; prev := 0 |}.

Lemma demo_unused p : 0x3000 ≤ p → unused 0x1000 [0x2000] no_messages p.
Proof.
  intros Hp. split; [lia|]. intros q ->%list_elem_of_singleton. unfold nodes, nodes_of_queue, messages, wait_send, wait_recv, list_of. cbn. set_unfold. lia.
Qed.

Lemma mq_send_correct_witness :
  (∃ s', mq_send 0x2000 (Some [1; 2; 3]) 3 7 0x3000 no_links demo_mq = Ret (0, s')) ∧
  mq_send 0x2000 (Some [1; 2; 3; 4; 5; 6; 7; 8; 9]) 9 7 0x3000 no_links demo_mq = Ret (- EMSGSIZE, demo_mq).
Proof.
  split.
  - destruct (mq_send_correct 0x1000 demo_mq [0x2000] no_messages (0, 0) 0x2000 demo_queue [1; 2; 3] 3 7 0x3000 no_links demo_mq_ok eq_refl ltac:(cbn; lia) ltac:(lia) ltac:(apply demo_unused; lia)) as (s' & E & _).
    by exists s'.
  - exact (mq_send_correct 0x1000 demo_mq [0x2000] no_messages (0, 0) 0x2000 demo_queue [1; 2; 3; 4; 5; 6; 7; 8; 9] 9 7 0x3000 no_links demo_mq_ok eq_refl ltac:(cbn; lia) ltac:(lia) ltac:(apply demo_unused; lia)).
Defined.

Lemma mq_receive_correct_witness : mq_receive 0x2000 (Some (replicate 8 0)) 8 true demo_mq = Ret (- EAGAIN, Some (replicate 8 0), None, demo_mq).
Proof.
  exact (mq_receive_correct 0x1000 demo_mq [0x2000] no_messages (0, 0) 0x2000 demo_queue (replicate 8 0) 8 true demo_mq_ok eq_refl ltac:(cbn; lia)).
Defined.

Lemma mq_open_correct_witness :
  ∃ s', mq_open 0x1000 (Some [47; 114]) O_CREAT (Some demo_attr) 0x3000 no_links demo_mq = Ret (0x3000, s') ∧ mq_ok 0x1000 s' [0x2000; 0x3000] (<[0x3000 := []]> no_messages) (0, 0).
Proof.
  destruct (mq_open_correct 0x1000 demo_mq [0x2000] no_messages (0, 0) [47; 114] O_CREAT (Some demo_attr) 0x3000 no_links 0 demo_mq_ok eq_refl ltac:(cbn; lia)
    ltac:(intros a [= <-]; unfold valid_attr; cbn; lia) ltac:(intros x Hx; apply demo_unused; lia)
    ltac:(right; split; [done|]; by intros p r [_ ->]%demo_only)) as (res & s' & E & -> & _ & Hok).
  exists s'. split; [exact E | exact Hok].
Defined.

Lemma mq_close_unlink_correct_witness : ∃ s', mq_close 0x2000 demo_mq = Ret (0, s') ∧ mq_ok 0x1000 s' [0x2000] no_messages (0, 0).
Proof.
  destruct (mq_close_unlink_correct 0x1000 demo_mq [0x2000] no_messages 0 0 0x2000 demo_queue demo_mq_ok eq_refl ltac:(done)) as [(s' & E & _ & Hok) _].
  exists s'. split; [exact E | exact Hok].
Defined.

(** Priorities 1, 5, 1, 5 are delivered as the second, fourth, first and third message. *)
Lemma mq_delivery_witness :
  ∃ s1 s2 out, send_all 0x2000 no_links [(0x3000, [10], 1); (0x3100, [11], 5); (0x3200, [12], 1); (0x3300, [13], 5)] demo_mq = Ret (replicate 4 0, s1) ∧
    receive_all 4 0x2000 (replicate 8 0) s1 = Ret (delivered (replicate 8 0) <$> out, s2) ∧ StronglySorted before out.
Proof.
  destruct (mq_delivery 0x1000 demo_mq [0x2000] no_messages (0, 0) 0x2000 demo_queue no_links [(0x3000, [10], 1); (0x3100, [11], 5); (0x3200, [12], 1); (0x3300, [13], 5)] (replicate 8 0))
    as (s1 & s2 & out & E1 & E2 & _ & Hs & _); [exact demo_mq_ok | reflexivity | reflexivity | repeat constructor; set_solver | | cbn; lia | cbn; lia | exists s1, s2, out; split_and!; [exact E1 | exact E2 | exact Hs]].
  intros p d k Hin. repeat (apply elem_of_cons in Hin as [[= -> -> ->]|Hin]; [split_and!; [apply demo_unused; lia | lia | cbn; lia | lia | lia]|]). set_solver.
Defined.

Lemma mq_open_trusts_curmsgs_witness :
  ∃ s', mq_open 0x1000 (Some [47; 114]) O_CREAT (Some {| mq_flags := 0; mq_maxmsg := 4; mq_msgsize := 8; mq_curmsgs := 1 |}) 0x3000 no_links demo_mq = Ret (0x3000, s') ∧
    mq_receive 0x3000 (Some (replicate (Z.to_nat 8192) 0)) 8192 true s' = Undef.
Proof.
  destruct (mq_open_trusts_curmsgs 0x1000 demo_mq [0x2000] no_messages (0, 0) [47; 114] O_CREAT {| mq_flags := 0; mq_maxmsg := 4; mq_msgsize := 8; mq_curmsgs := 1 |} 0x3000 no_links
    (replicate (Z.to_nat 8192) 0) 8192 true demo_mq_ok eq_refl ltac:(by intros p r [_ ->]%demo_only) ltac:(done) ltac:(done) ltac:(done) ltac:(intros x Hx; apply demo_unused; lia) eq_refl ltac:(done)
    ltac:(lia)) as (s' & E & _ & Hu).
  exists s'. split; [exact E | exact Hu].
Defined.
