(* ===== verification/ProcList.v ===== *)
(** * Processes and queues of processes

    The process control block of include/process/process.h with the fields the
    schedulers and the synchronisation primitives use, the table of processes
    by address, and the doubly linked FIFO queues that the schedulers thread
    through the fields [next] and [prev].  A process that is not in the table
    is a dangling pointer: using it is [Undef]. *)

From S2P Require Import Prelude.

#[local] Open Scope Z_scope.

Inductive process_state := NEW | READY | RUNNING | BLOCKED | TERMINATED.

#[export] Instance process_state_eq_dec : EqDecision process_state.
Proof. solve_decision. Defined.

Record process := {
  pid : Z;
  state : process_state;
  priority : Z;
  preempt_count : Z;
  page_dir : option Z;   (* physical address of the directory; None is NULL *)
  kernel_stack : Z;
  time_slice : Z;
  time_used : Z;
  time_slice_remaining : Z;
  mlfq_level : Z;
  wait_time : Z;
  boost_count : Z;
  next : Z;
  prev : Z;
  next_waiting : Z;
}.

Definition set_state (v : process_state) (p : process) : process :=
  {| pid := pid p; state := v; priority := priority p; preempt_count := preempt_count p;
     page_dir := page_dir p; kernel_stack := kernel_stack p; time_slice := time_slice p; time_used := time_used p;
     time_slice_remaining := time_slice_remaining p; mlfq_level := mlfq_level p; wait_time :=
     wait_time p; boost_count := boost_count p; next := next p; prev := prev p; next_waiting :=
     next_waiting p |}.
Definition set_priority (v : Z) (p : process) : process :=
  {| pid := pid p; state := state p; priority := v; preempt_count := preempt_count p;
     page_dir := page_dir p; kernel_stack := kernel_stack p; time_slice := time_slice p; time_used := time_used p;
     time_slice_remaining := time_slice_remaining p; mlfq_level := mlfq_level p; wait_time :=
     wait_time p; boost_count := boost_count p; next := next p; prev := prev p; next_waiting :=
     next_waiting p |}.
Definition set_preempt_count (v : Z) (p : process) : process :=
  {| pid := pid p; state := state p; priority := priority p; preempt_count := v; page_dir := page_dir p; kernel_stack := kernel_stack p; time_slice := time_slice p; time_used := time_used p; time_slice_remaining :=
     time_slice_remaining p; mlfq_level := mlfq_level p; wait_time := wait_time p; boost_count
     := boost_count p; next := next p; prev := prev p; next_waiting := next_waiting p |}.
Definition set_time_slice (v : Z) (p : process) : process :=
  {| pid := pid p; state := state p; priority := priority p; preempt_count := preempt_count
     p; page_dir := page_dir p; kernel_stack := kernel_stack p; time_slice := v; time_used := time_used p; time_slice_remaining
     := time_slice_remaining p; mlfq_level := mlfq_level p; wait_time := wait_time p;
     boost_count := boost_count p; next := next p; prev := prev p; next_waiting := next_waiting
     p |}.
Definition set_time_used (v : Z) (p : process) : process :=
  {| pid := pid p; state := state p; priority := priority p; preempt_count := preempt_count
     p; page_dir := page_dir p; kernel_stack := kernel_stack p; time_slice := time_slice p; time_used := v;
     time_slice_remaining := time_slice_remaining p; mlfq_level := mlfq_level p; wait_time :=
     wait_time p; boost_count := boost_count p; next := next p; prev := prev p; next_waiting :=
     next_waiting p |}.
Definition set_time_slice_remaining (v : Z) (p : process) : process :=
  {| pid := pid p; state := state p; priority := priority p; preempt_count := preempt_count
     p; page_dir := page_dir p; kernel_stack := kernel_stack p; time_slice := time_slice p; time_used := time_used p;
     time_slice_remaining := v; mlfq_level := mlfq_level p; wait_time := wait_time p;
     boost_count := boost_count p; next := next p; prev := prev p; next_waiting := next_waiting
     p |}.
Definition set_mlfq_level (v : Z) (p : process) : process :=
  {| pid := pid p; state := state p; priority := priority p; preempt_count := preempt_count
     p; page_dir := page_dir p; kernel_stack := kernel_stack p; time_slice := time_slice p; time_used := time_used p;
     time_slice_remaining := time_slice_remaining p; mlfq_level := v; wait_time := wait_time p;
     boost_count := boost_count p; next := next p; prev := prev p; next_waiting := next_waiting
     p |}.
Definition set_wait_time (v : Z) (p : process) : process :=
  {| pid := pid p; state := state p; priority := priority p; preempt_count := preempt_count
     p; page_dir := page_dir p; kernel_stack := kernel_stack p; time_slice := time_slice p; time_used := time_used p;
     time_slice_remaining := time_slice_remaining p; mlfq_level := mlfq_level p; wait_time :=
     v; boost_count := boost_count p; next := next p; prev := prev p; next_waiting :=
     next_waiting p |}.
Definition set_boost_count (v : Z) (p : process) : process :=
  {| pid := pid p; state := state p; priority := priority p; preempt_count := preempt_count
     p; page_dir := page_dir p; kernel_stack := kernel_stack p; time_slice := time_slice p; time_used := time_used p;
     time_slice_remaining := time_slice_remaining p; mlfq_level := mlfq_level p; wait_time :=
     wait_time p; boost_count := v; next := next p; prev := prev p; next_waiting :=
     next_waiting p |}.
Definition set_next (v : Z) (p : process) : process :=
  {| pid := pid p; state := state p; priority := priority p; preempt_count := preempt_count
     p; page_dir := page_dir p; kernel_stack := kernel_stack p; time_slice := time_slice p; time_used := time_used p;
     time_slice_remaining := time_slice_remaining p; mlfq_level := mlfq_level p; wait_time :=
     wait_time p; boost_count := boost_count p; next := v; prev := prev p; next_waiting :=
     next_waiting p |}.
Definition set_prev (v : Z) (p : process) : process :=
  {| pid := pid p; state := state p; priority := priority p; preempt_count := preempt_count
     p; page_dir := page_dir p; kernel_stack := kernel_stack p; time_slice := time_slice p; time_used := time_used p;
     time_slice_remaining := time_slice_remaining p; mlfq_level := mlfq_level p; wait_time :=
     wait_time p; boost_count := boost_count p; next := next p; prev := v; next_waiting :=
     next_waiting p |}.
Definition set_next_waiting (v : Z) (p : process) : process :=
  {| pid := pid p; state := state p; priority := priority p; preempt_count := preempt_count
     p; page_dir := page_dir p; kernel_stack := kernel_stack p; time_slice := time_slice p; time_used := time_used p;
     time_slice_remaining := time_slice_remaining p; mlfq_level := mlfq_level p; wait_time :=
     wait_time p; boost_count := boost_count p; next := next p; prev := prev p; next_waiting :=
     v |}.

Abbreviation procs := (gmap Z process).

Definition load_proc (a : Z) : M procs process := t ← get; deref (t !! a).

(** [a->f = v] *)
Definition upd_proc (a : Z) (f : process → process) : M procs unit :=
  p ← load_proc a; modify (λ t, <[a := f p]> t).

(** ** FIFO queues *)

Record queue := { head : Z; tail : Z; count : Z }.

Definition empty_queue : queue := {| head := 0; tail := 0; count := 0 |}.

(** The link code the schedulers share: append at the tail. *)
Definition push_back (q : queue) (a : Z) : M procs queue :=
  _ ← upd_proc a (set_next 0);
  _ ← upd_proc a (set_prev (tail q));
  if negb (tail q =? 0) then
    _ ← upd_proc (tail q) (set_next a);
    mret {| head := head q; tail := a; count := u32 (count q + 1) |}
  else mret {| head := a; tail := a; count := u32 (count q + 1) |}.

(** Unlink from wherever the node is. *)
Definition unlink (q : queue) (a : Z) : M procs queue :=
  p ← load_proc a;
  h ← (if negb (prev p =? 0) then
         _ ← upd_proc (prev p) (set_next (next p)); mret (head q)
       else mret (next p));
  p ← load_proc a;
  t ← (if negb (next p =? 0) then
         _ ← upd_proc (next p) (set_prev (prev p)); mret (tail q)
       else mret (prev p));
  _ ← upd_proc a (set_next 0);
  _ ← upd_proc a (set_prev 0);
  mret {| head := h; tail := t; count := if 0 <? count q then count q - 1 else count q |}.

(** ** Queues as lists *)

(** The processes [l] are linked in this order, between [pv] and [nx]. *)
Fixpoint chain (t : procs) (pv : Z) (l : list Z) (nx : Z) : Prop :=
  match l with
  | [] => True
  | a :: l' =>
      a ≠ 0 ∧ (∃ p, t !! a = Some p ∧ prev p = pv ∧ next p = hd nx l') ∧ chain t a l' nx
  end.

Record queue_ok (t : procs) (q : queue) (l : list Z) : Prop := {
  q_head : head q = hd 0 l;
  q_tail : tail q = List.last l 0;
  q_count : count q = Z.of_nat (length l);
  q_nodup : NoDup l;
  q_chain : chain t 0 l 0;
}.

Lemma last_cons {A} (l : list A) a d : List.last (a :: l) d = List.last l a.
Proof.
  revert a d. induction l as [|b l IH]; intros a d; [done|].
  change (List.last (a :: b :: l) d) with (List.last (b :: l) d). by rewrite !IH.
Qed.

Lemma chain_app t pv l1 l2 nx :
  chain t pv (l1 ++ l2) nx ↔ chain t pv l1 (hd nx l2) ∧ chain t (List.last l1 pv) l2 nx.
Proof.
  revert pv. induction l1 as [|a l1 IH]; intros pv; [simpl; tauto|].
  cbn [app chain]. rewrite IH. replace (hd nx (l1 ++ l2)) with (hd (hd nx l2) l1) by (by destruct l1).
  rewrite last_cons. tauto.
Qed.

(** Only the links of the members matter. *)
Lemma chain_ext t t' pv l nx :
  (∀ a, a ∈ l → (λ p, (prev p, next p)) <$> t' !! a = (λ p, (prev p, next p)) <$> t !! a) →
  chain t pv l nx → chain t' pv l nx.
Proof.
  revert pv. induction l as [|a l IH]; intros pv H; [done|]. cbn [chain].
  intros (Ha & (p & Hp & Hpv & Hnx) & Hl). split_and!; [done | |].
  - specialize (H a ltac:(by left)). rewrite Hp in H. simpl in H.
    destruct (t' !! a) as [p'|]; [|done]. injection H as H1 H2. exists p'. split_and!; congruence.
  - apply IH; [|done]. intros b Hb. apply H. by right.
Qed.

Lemma chain_member t pv l nx a : chain t pv l nx → a ∈ l → a ≠ 0 ∧ is_Some (t !! a).
Proof.
  revert pv. induction l as [|b l IH]; intros pv; [set_solver|].
  intros (Hb & (p & Hp & _) & Hl) [->|Hin]%elem_of_cons; [eauto | by eapply IH].
Qed.

(** What does not concern the links. *)
Definition strip (p : process) : process := set_next 0 (set_prev 0 p).

Definition same_data (t t' : procs) : Prop := ∀ b, strip <$> t' !! b = strip <$> t !! b.

Lemma same_data_trans t t' t'' : same_data t t' → same_data t' t'' → same_data t t''.
Proof. intros H1 H2 b. by rewrite H2, H1. Qed.

Lemma same_data_Some t t' b p :
  same_data t t' → t !! b = Some p → ∃ p', t' !! b = Some p' ∧ strip p' = strip p.
Proof.
  intros H Hb. specialize (H b). rewrite Hb in H. destruct (t' !! b) as [p'|]; [|done].
  apply (inj Some) in H. eauto.
Qed.

Lemma same_data_is_Some t t' b : same_data t t' → is_Some (t !! b) → is_Some (t' !! b).
Proof. intros H [p Hp]. destruct (same_data_Some t t' b p H Hp) as (p' & -> & _). eauto. Qed.

Lemma load_proc_eq t a p : t !! a = Some p → load_proc a t = Ret (p, t).
Proof. intros H. unfold load_proc, get, mbind, M_bind. by rewrite H. Qed.

Lemma upd_proc_eq t a p f : t !! a = Some p → upd_proc a f t = Ret (tt, <[a := f p]> t).
Proof. intros H. unfold upd_proc. by rewrite (bind_Ret _ _ _ _ _ (load_proc_eq t a p H)). Qed.

Lemma same_data_insert t a p p' : t !! a = Some p → strip p' = strip p → same_data t (<[a := p']> t).
Proof.
  intros Hp Hs b. destruct (decide (a = b)) as [->|Hne].
  - rewrite lookup_insert_eq, Hp. simpl. by rewrite Hs.
  - by rewrite lookup_insert_ne.
Qed.

(** ** Appending *)

Lemma push_back_spec t q l a :
  queue_ok t q l → a ∉ l → a ≠ 0 → is_Some (t !! a) → Z.of_nat (length l) + 1 < 2 ^ 32 →
  ∃ q' t', push_back q a t = Ret (q', t') ∧ queue_ok t' q' (l ++ [a]) ∧ same_data t t' ∧
    ∀ b, b ∉ a :: l → t' !! b = t !! b.
Proof.
  intros [Hh Ht Hc Hnd Hch] Ha Ha0 [p Hp] Hlen. unfold push_back.
  rewrite (bind_Ret _ _ _ _ _ (upd_proc_eq t a p _ Hp)).
  rewrite (bind_Ret _ _ _ _ _ (upd_proc_eq _ a (set_next 0 p) _ (lookup_insert_eq _ _ _))).
  rewrite insert_insert_eq. set (p1 := set_prev (tail q) (set_next 0 p)).
  assert (NoDup (l ++ [a])) as Hnd' by (apply NoDup_app; split_and!; [done | set_solver | apply NoDup_singleton]).
  assert (same_data t (<[a := p1]> t)) as Hsd by (eapply same_data_insert; [exact Hp | by destruct p]).
  rewrite Hc, (u32_small (Z.of_nat (length l) + 1)) by lia.
  destruct l as [|z l _] using rev_ind.
  - simpl in Ht. rewrite Ht. cbn [Z.eqb negb]. eexists _, _. split; [reflexivity|].
    split_and!; [|done|].
    + split; simpl; try done. split_and!; [done | | done]. exists p1.
      rewrite lookup_insert_eq. unfold p1. rewrite Ht. by destruct p.
    + intros b Hb. apply lookup_insert_ne. set_solver.
  - rewrite last_last in Ht. rewrite Ht.
    apply chain_app in Hch as [Hch1 Hch2]. cbn [chain hd] in Hch1, Hch2.
    destruct Hch2 as (Hz0 & (pz & Hpz & Hpv & Hnx) & _).
    assert (z ≠ a) as Hza by set_solver.
    rewrite (proj2 (Z.eqb_neq z 0)) by done. cbn [negb].
    rewrite (bind_Ret _ _ _ _ _ (upd_proc_eq _ z pz _ ltac:(by rewrite lookup_insert_ne))).
    eexists _, _. split; [reflexivity|]. split_and!.
    + split; cbn [head tail count]; try done.
      * rewrite Hh. by destruct l.
      * by rewrite last_last.
      * rewrite !length_app. simpl. lia.
      * rewrite <- app_assoc. apply chain_app. cbn [app hd chain]. split.
        { eapply chain_ext; [|exact Hch1]. intros b Hb.
          apply NoDup_app in Hnd as (_ & Hnz & _).
          rewrite !lookup_insert_ne; [done | set_solver..]. }
        split_and!; try done.
        { exists (set_next a pz). rewrite lookup_insert_eq. split_and!; [done | by destruct pz | by destruct pz]. }
        exists p1. rewrite lookup_insert_ne, lookup_insert_eq by done. unfold p1. rewrite Ht. by destruct p.
    + eapply same_data_trans; [exact Hsd|]. eapply same_data_insert; [by rewrite lookup_insert_ne|].
      by destruct pz.
    + intros b Hb. rewrite !lookup_insert_ne; [done | set_solver..].
Qed.

(** ** Removing *)

(** The node before the removed one. *)
Lemma unlink_left t l1 a l2 p :
  chain t 0 (l1 ++ a :: l2) 0 → NoDup (l1 ++ a :: l2) → t !! a = Some p →
  ∃ t', (∀ (q : queue), (if negb (prev p =? 0) then
             _ ← upd_proc (prev p) (set_next (next p)); mret (head q)
           else mret (next p) : M procs Z) t =
          Ret (if decide (l1 = []) then hd 0 l2 else head q, t')) ∧
    t' !! a = Some p ∧ same_data t t' ∧ (∀ b, b ∉ l1 → t' !! b = t !! b) ∧
    chain t' 0 l1 (hd 0 l2).
Proof.
  intros (Hc1 & Ha0 & (p' & Hp' & Hpv & Hnx) & Hc2)%chain_app Hnd Hp.
  rewrite Hp in Hp'. injection Hp' as <-. apply NoDup_app in Hnd as (Hnd1 & Hdis & _).
  assert (a ∉ l1) as Hal1 by (intros Hin; by apply (Hdis a Hin); left).
  destruct l1 as [|y l1 _] using rev_ind.
  - exists t. simpl in Hpv. rewrite Hpv, Hnx. split_and!; try done.
  - rewrite last_last in Hpv. rewrite Hpv, Hnx. cbn [hd] in Hc1.
    apply chain_app in Hc1 as [Hc1 (Hy0 & (py & Hpy & Hypv & Hynx) & _)]. cbn [hd] in *.
    rewrite (proj2 (Z.eqb_neq y 0)) by done. cbn [negb].
    apply NoDup_app in Hnd1 as (_ & Hny & _).
    exists (<[y := set_next (hd 0 l2) py]> t). split_and!.
    + intros q. rewrite (bind_Ret _ _ _ _ _ (upd_proc_eq t y py _ Hpy)).
      rewrite decide_False by (by destruct l1). done.
    + rewrite lookup_insert_ne by set_solver. done.
    + eapply same_data_insert; [done | by destruct py].
    + intros b Hb. rewrite lookup_insert_ne by set_solver. done.
    + apply chain_app. cbn [chain hd]. split.
      * eapply chain_ext; [|exact Hc1]. intros b Hb. rewrite lookup_insert_ne by set_solver. done.
      * split_and!; try done. exists (set_next (hd 0 l2) py). rewrite lookup_insert_eq.
        by destruct py.
Qed.

(** The node after it. *)
Lemma unlink_right t l1 a l2 p :
  chain t a l2 0 → NoDup (a :: l2) → prev p = List.last l1 0 → next p = hd 0 l2 → t !! a = Some p →
  ∃ t', (∀ (q : queue), (if negb (next p =? 0) then
             _ ← upd_proc (next p) (set_prev (prev p)); mret (tail q)
           else mret (prev p) : M procs Z) t =
          Ret (if decide (l2 = []) then List.last l1 0 else tail q, t')) ∧
    t' !! a = Some p ∧ same_data t t' ∧ (∀ b, b ∉ l2 → t' !! b = t !! b) ∧
    chain t' (List.last l1 0) l2 0.
Proof.
  intros Hc2 [Hal2 Hnd]%NoDup_cons Hpv Hnx Hp. destruct l2 as [|z l2].
  - exists t. rewrite Hnx, Hpv. split_and!; try done.
  - cbn [hd] in Hnx. cbn [chain] in Hc2. destruct Hc2 as (Hz0 & (pz & Hpz & Hzpv & Hznx) & Hc2).
    rewrite Hnx, (proj2 (Z.eqb_neq z 0)) by done. cbn [negb].
    apply NoDup_cons in Hnd as [Hzl2 _].
    exists (<[z := set_prev (prev p) pz]> t). split_and!.
    + intros q. rewrite (bind_Ret _ _ _ _ _ (upd_proc_eq t z pz _ Hpz)). by rewrite decide_False.
    + rewrite lookup_insert_ne by set_solver. done.
    + eapply same_data_insert; [done | by destruct pz].
    + intros b Hb. rewrite lookup_insert_ne by set_solver. done.
    + cbn [chain]. split_and!; [done | |].
      * exists (set_prev (prev p) pz). rewrite lookup_insert_eq, Hpv. by destruct pz.
      * eapply chain_ext; [|exact Hc2]. intros b Hb. rewrite lookup_insert_ne by set_solver. done.
Qed.

Lemma unlink_spec t q l1 a l2 :
  queue_ok t q (l1 ++ a :: l2) →
  ∃ q' t', unlink q a t = Ret (q', t') ∧ queue_ok t' q' (l1 ++ l2) ∧ same_data t t' ∧
    ∀ b, b ∉ l1 ++ a :: l2 → t' !! b = t !! b.
Proof.
  intros [Hh Ht Hc Hnd Hch]. pose proof Hch as (Hc1 & Ha0 & (p & Hp & Hpv & Hnx) & Hc2)%chain_app.
  cbn [hd] in Hc1. unfold unlink. rewrite (bind_Ret _ _ _ _ _ (load_proc_eq t a p Hp)).
  destruct (unlink_left t l1 a l2 p Hch Hnd Hp) as (t1 & E1 & Hp1 & Hs1 & Ho1 & Hch1).
  rewrite (bind_Ret _ _ _ _ _ (E1 q)), (bind_Ret _ _ _ _ _ (load_proc_eq t1 a p Hp1)).
  pose proof Hnd as (_ & Hdis & Hnd2)%NoDup_app.
  destruct (unlink_right t1 l1 a l2 p) as (t2 & E2 & Hp2 & Hs2 & Ho2 & Hch2); try done.
  { eapply chain_ext; [|exact Hc2]. intros b Hb. rewrite Ho1; [done|].
    intros Hin. apply (Hdis b Hin). by right. }
  rewrite (bind_Ret _ _ _ _ _ (E2 q)), (bind_Ret _ _ _ _ _ (upd_proc_eq t2 a p _ Hp2)).
  rewrite (bind_Ret _ _ _ _ _ (upd_proc_eq _ a (set_next 0 p) _ (lookup_insert_eq _ _ _))).
  rewrite insert_insert_eq. apply NoDup_cons in Hnd2 as [Hal2 Hnd2].
  assert (a ∉ l1) as Hal1 by (intros Hin; by apply (Hdis a Hin); left).
  eexists _, _. split; [reflexivity|]. split_and!.
  - split; cbn [head tail count].
    + rewrite Hh. destruct l1 as [|y l1]; [by rewrite decide_True | by rewrite decide_False].
    + rewrite Ht. destruct l2 as [|z l2]; [by rewrite decide_True, app_nil_r by done|].
      rewrite decide_False by done. destruct l2 as [|z' l2 _] using rev_ind.
      * change (l1 ++ [a; z]) with (l1 ++ [a] ++ [z]). by rewrite app_assoc, !last_last.
      * rewrite app_comm_cons, (app_assoc l1), last_last. by rewrite app_comm_cons, app_assoc, last_last.
    + rewrite Hc, !length_app. simpl. rewrite (proj2 (Z.ltb_lt _ _)) by lia. lia.
    + apply NoDup_app. split_and!; [by apply NoDup_app in Hnd as [? _] | | done].
      intros b Hb Hb2. apply (Hdis b Hb). by right.
    + apply chain_app. split.
      * eapply chain_ext; [|exact Hch1]. intros b Hb. rewrite lookup_insert_ne by set_solver.
        rewrite Ho2; [done|]. intros Hin. apply (Hdis b Hb). by right.
      * eapply chain_ext; [|exact Hch2]. intros b Hb. rewrite lookup_insert_ne by set_solver. done.
  - eapply same_data_trans; [exact Hs1|]. eapply same_data_trans; [exact Hs2|].
    eapply same_data_insert; [exact Hp2 | by destruct p].
  - intros b Hb. rewrite lookup_insert_ne, Ho2, Ho1 by set_solver. done.
Qed.

(** A change that keeps the links of the members keeps the queue. *)
Lemma queue_ok_ext t t' q l :
  (∀ a, a ∈ l → (λ p, (prev p, next p)) <$> t' !! a = (λ p, (prev p, next p)) <$> t !! a) →
  queue_ok t q l → queue_ok t' q l.
Proof. intros H []. split; try done. by eapply chain_ext. Qed.

Lemma empty_queue_ok t : queue_ok t empty_queue [].
Proof. by split; try done; constructor. Qed.

(** ** Arrays of queues

    The schedulers keep an array of queues and file a process under the index
    that one of its fields holds. *)

Section Queues.
Context (idx : process → Z) (idx_strip : ∀ p p', strip p = strip p' → idx p = idx p').
Implicit Types (t : procs) (qs : list queue) (ls : list (list Z)).

Record queues_ok t qs ls : Prop := {
  qs_len : length qs = length ls;
  qs_each : ∀ i q l, qs !! i = Some q → ls !! i = Some l →
              queue_ok t q l ∧ ∀ a, a ∈ l → ∃ p, t !! a = Some p ∧ idx p = Z.of_nat i;
}.

Lemma queues_index t qs ls i l :
  queues_ok t qs ls → ls !! i = Some l → ∃ q, qs !! i = Some q ∧ queue_ok t q l.
Proof.
  intros [Hlen He] Hl. destruct (lookup_lt_is_Some_2 qs i) as [q Hq].
  { rewrite Hlen. by eapply lookup_lt_Some. }
  exists q. split; [done|]. by destruct (He i q l Hq Hl).
Qed.

Lemma queues_member t qs ls i l a :
  queues_ok t qs ls → ls !! i = Some l → a ∈ l → a ≠ 0 ∧ ∃ p, t !! a = Some p ∧ idx p = Z.of_nat i.
Proof.
  intros Hok Hl Ha. destruct (queues_index t qs ls i l Hok Hl) as (q & Hq & Hqok).
  split; [by eapply chain_member; [apply (q_chain _ _ _ Hqok)|]|].
  destruct Hok as [_ He]. by apply (He i q l Hq Hl).
Qed.

Lemma queues_disjoint t qs ls i j l l' a :
  queues_ok t qs ls → ls !! i = Some l → ls !! j = Some l' → a ∈ l → a ∈ l' → i = j.
Proof.
  intros Hok Hi Hj Ha Ha'. destruct (queues_member t qs ls i l a Hok Hi Ha) as (_ & p & Hp & Hpi).
  destruct (queues_member t qs ls j l' a Hok Hj Ha') as (_ & p' & Hp' & Hpj). simplify_eq. lia.
Qed.

(** A process that is not queued may change in any way. *)
Lemma queues_upd t qs ls a p : queues_ok t qs ls → a ∉ concat ls → queues_ok (<[a := p]> t) qs ls.
Proof.
  intros [Hlen He] Ha. split; [done|]. intros i q l Hq Hl. destruct (He i q l Hq Hl) as [Hqok Hm].
  assert (∀ b, b ∈ l → <[a := p]> t !! b = t !! b) as Hne.
  { intros b Hb. apply lookup_insert_ne. intros <-. apply Ha. by eapply elem_of_concat. }
  split.
  - eapply queue_ok_ext; [|exact Hqok]. intros b Hb. by rewrite Hne.
  - intros b Hb. rewrite Hne by done. by apply Hm.
Qed.

(** Replacing one queue, with a table that agrees on the members of the others. *)
Lemma queues_set t t' qs ls i l q' l' :
  queues_ok t qs ls → ls !! i = Some l → queue_ok t' q' l' →
  (∀ a, a ∈ l' → ∃ p, t' !! a = Some p ∧ idx p = Z.of_nat i) →
  (∀ j l2 b, j ≠ i → ls !! j = Some l2 → b ∈ l2 → t' !! b = t !! b) →
  queues_ok t' (<[i := q']> qs) (<[i := l']> ls).
Proof.
  intros [Hlen He] Hl Hq' Hm Hoth. split; [by rewrite !length_insert|].
  intros j qj lj [(<- & <- & Hj)|(Hne & Hj)]%list_lookup_insert_Some
    [(E & <- & Hj')|(Hne' & Hj')]%list_lookup_insert_Some; try done.
  destruct (He j qj lj Hj Hj') as (Hqj & Hlj). split.
  - eapply queue_ok_ext; [|exact Hqj]. intros b Hb. by rewrite (Hoth j lj b).
  - intros b Hb. destruct (Hlj b Hb) as (p & Hp & Hpl). exists p. by rewrite (Hoth j lj b).
Qed.

(** A change that keeps links and index. *)
Lemma queues_keep t qs ls a p p' :
  queues_ok t qs ls → t !! a = Some p → next p' = next p → prev p' = prev p → idx p' = idx p →
  queues_ok (<[a := p']> t) qs ls.
Proof.
  intros [Hlen He] Hp Hn Hv Hi. split; [done|]. intros i q l Hq Hl. destruct (He i q l Hq Hl) as [Hqok Hm]. split.
  - eapply queue_ok_ext; [|exact Hqok]. intros b _. destruct (decide (a = b)) as [<-|].
    + rewrite lookup_insert_eq, Hp. cbn. by rewrite Hn, Hv.
    + by rewrite lookup_insert_ne.
  - intros b Hb. destruct (Hm b Hb) as (pb & Hpb & Hib). destruct (decide (a = b)) as [<-|].
    + exists p'. rewrite lookup_insert_eq. split; [done|]. congruence.
    + exists pb. by rewrite lookup_insert_ne.
Qed.

Lemma queues_push t qs ls i q l a p :
  queues_ok t qs ls → qs !! i = Some q → ls !! i = Some l → a ∉ concat ls → a ≠ 0 →
  t !! a = Some p → idx p = Z.of_nat i → Z.of_nat (length l) + 1 < 2 ^ 32 →
  ∃ q' t', push_back q a t = Ret (q', t') ∧ queues_ok t' (<[i := q']> qs) (<[i := l ++ [a]]> ls) ∧
    same_data t t'.
Proof.
  intros Hok Hq Hl Ha Ha0 Hp Hpi Hlen. pose proof Hok as [_ He]. destruct (He i q l Hq Hl) as [Hqok Hm].
  assert (a ∉ l) as Hal by (intros Hin; apply Ha; by eapply elem_of_concat).
  destruct (push_back_spec t q l a) as (q' & t' & E & Hq' & Hsd & Hoth); try done.
  exists q', t'. split_and!; [done | | done]. eapply queues_set; try done.
  - intros b Hb. assert (∃ pb, t !! b = Some pb ∧ idx pb = Z.of_nat i) as (pb & Hpb & Hib).
    { apply elem_of_app in Hb as [Hb| ->%list_elem_of_singleton]; [by apply Hm | by exists p]. }
    destruct (same_data_Some _ t' b pb Hsd Hpb) as (pb' & Hpb' & Hsb).
    exists pb'. split; [done|]. by rewrite (idx_strip _ _ Hsb).
  - intros j l2 b Hj Hl2 Hb. apply Hoth. intros [->|Hbl]%elem_of_cons.
    + apply Ha. by eapply elem_of_concat.
    + apply Hj. by eapply queues_disjoint.
Qed.

Lemma queues_unlink t qs ls i q l1 a l2 :
  queues_ok t qs ls → qs !! i = Some q → ls !! i = Some (l1 ++ a :: l2) →
  ∃ q' t', unlink q a t = Ret (q', t') ∧ queues_ok t' (<[i := q']> qs) (<[i := l1 ++ l2]> ls) ∧
    queue_ok t' q' (l1 ++ l2) ∧ same_data t t'.
Proof.
  intros Hok Hq Hl. pose proof Hok as [_ He]. destruct (He i q _ Hq Hl) as [Hqok Hm].
  destruct (unlink_spec t q l1 a l2 Hqok) as (q' & t' & E & Hq' & Hsd & Hoth).
  exists q', t'. split_and!; [done | | done | done]. eapply queues_set; try done.
  - intros b Hb. destruct (Hm b) as (pb & Hpb & Hib); [set_solver|].
    destruct (same_data_Some _ t' b pb Hsd Hpb) as (pb' & Hpb' & Hsb).
    exists pb'. split; [done|]. by rewrite (idx_strip _ _ Hsb).
  - intros j l3 b Hj Hl3 Hb. apply Hoth. intros Hb'. apply Hj. by eapply queues_disjoint.
Qed.
End Queues.
