(* ===== verification/Signal.v ===== *)
(** * Signals (kernel/process/signal.c)

    The processes are the elements of the kernel's list, in its order; a pointer to a
    process is its position there.  The bitmaps have bit [sig - 1] for signal [sig].
    The handler of a signal is the address of a function, [SIG_DFL] or [SIG_IGN]. *)

From S2P Require Import Prelude Bits Errno ProcList.

#[local] Open Scope Z_scope.

Abbreviation NSIG := 32%Z (only parsing).
Abbreviation SIGKILL := 9%Z (only parsing).
Abbreviation SIGSTOP := 19%Z (only parsing).
Abbreviation SIG_DFL := 0%Z (only parsing).
Abbreviation SIG_IGN := 1%Z (only parsing).
Abbreviation SIG_ERR := 0xFFFFFFFF%Z (only parsing).
Abbreviation SA_RESTART := 0x10000000%Z (only parsing).
Abbreviation EINTR := 4%Z (only parsing).
Abbreviation EFAULT := 14%Z (only parsing).

(** The fields of [struct process] that signals use. *)
Record sigproc := {
  sp_pid : Z;
  sp_state : process_state;
  pending_signals : Z;
  blocked_signals : Z;
  signal_handlers : list Z;
  signal_flags : list Z;
  exit_code : Z;
  sp_errno : Z;
}.

Record sigs := { process_list : list sigproc; current : option nat }.

Definition with_state (st : process_state) (p : sigproc) : sigproc :=
  {| sp_pid := sp_pid p; sp_state := st; pending_signals := pending_signals p; blocked_signals := blocked_signals p;
     signal_handlers := signal_handlers p; signal_flags := signal_flags p; exit_code := exit_code p; sp_errno := sp_errno p |}.
Definition with_pending (b : Z) (p : sigproc) : sigproc :=
  {| sp_pid := sp_pid p; sp_state := sp_state p; pending_signals := b; blocked_signals := blocked_signals p;
     signal_handlers := signal_handlers p; signal_flags := signal_flags p; exit_code := exit_code p; sp_errno := sp_errno p |}.
Definition with_blocked (b : Z) (p : sigproc) : sigproc :=
  {| sp_pid := sp_pid p; sp_state := sp_state p; pending_signals := pending_signals p; blocked_signals := b;
     signal_handlers := signal_handlers p; signal_flags := signal_flags p; exit_code := exit_code p; sp_errno := sp_errno p |}.
Definition with_handlers (h f : list Z) (p : sigproc) : sigproc :=
  {| sp_pid := sp_pid p; sp_state := sp_state p; pending_signals := pending_signals p; blocked_signals := blocked_signals p;
     signal_handlers := h; signal_flags := f; exit_code := exit_code p; sp_errno := sp_errno p |}.
Definition with_exit_code (c : Z) (p : sigproc) : sigproc :=
  {| sp_pid := sp_pid p; sp_state := sp_state p; pending_signals := pending_signals p; blocked_signals := blocked_signals p;
     signal_handlers := signal_handlers p; signal_flags := signal_flags p; exit_code := c; sp_errno := sp_errno p |}.
Definition with_sp_errno (e : Z) (p : sigproc) : sigproc :=
  {| sp_pid := sp_pid p; sp_state := sp_state p; pending_signals := pending_signals p; blocked_signals := blocked_signals p;
     signal_handlers := signal_handlers p; signal_flags := signal_flags p; exit_code := exit_code p; sp_errno := e |}.

Definition load_proc (i : nat) : M sigs sigproc := s ← get; deref (process_list s !! i).
Definition store_proc (i : nat) (p : sigproc) : M sigs unit :=
  modify (λ s, {| process_list := <[i := p]> (process_list s); current := current s |}).

(** Run on one process a computation on its fields. *)
Definition on_proc {A} (i : nat) (m : M sigproc A) : M sigs A := λ s,
  match process_list s !! i with
  | Some p =>
      match m p with
      | Ret (a, p') => Ret (a, {| process_list := <[i := p']> (process_list s); current := current s |})
      | Panic => Panic
      | Undef => Undef
      end
  | None => Undef
  end.

(** ** Actions *)

Inductive sig_default_action := SIG_ACT_TERM | SIG_ACT_IGN | SIG_ACT_CORE | SIG_ACT_STOP | SIG_ACT_CONT.

#[export] Instance action_inhabited : Inhabited sig_default_action := populate SIG_ACT_IGN.

Definition default_actions : list sig_default_action :=
  [SIG_ACT_IGN; SIG_ACT_TERM; SIG_ACT_TERM; SIG_ACT_CORE; SIG_ACT_CORE; SIG_ACT_CORE; SIG_ACT_CORE; SIG_ACT_CORE; SIG_ACT_CORE;
   SIG_ACT_TERM; SIG_ACT_TERM; SIG_ACT_CORE; SIG_ACT_TERM; SIG_ACT_TERM; SIG_ACT_TERM; SIG_ACT_TERM; SIG_ACT_TERM; SIG_ACT_IGN;
   SIG_ACT_CONT; SIG_ACT_STOP; SIG_ACT_STOP; SIG_ACT_STOP; SIG_ACT_STOP; SIG_ACT_IGN; SIG_ACT_CORE; SIG_ACT_CORE; SIG_ACT_TERM;
   SIG_ACT_TERM; SIG_ACT_IGN; SIG_ACT_TERM; SIG_ACT_TERM; SIG_ACT_CORE].

Definition init_process_signals (p : sigproc) : sigproc :=
  with_handlers (replicate 32 SIG_DFL) (replicate 32 0) (with_blocked 0 (with_pending 0 p)).

Definition do_signal_action (sig : Z) : M sigproc unit :=
  action ← deref (aget default_actions sig);
  match action with
  | SIG_ACT_TERM | SIG_ACT_CORE => _ ← modify (with_state TERMINATED); modify (with_exit_code sig)
  | SIG_ACT_STOP => modify (with_state BLOCKED)
  | SIG_ACT_CONT => p ← get; if bool_decide (sp_state p = BLOCKED) then modify (with_state READY) else mret tt
  | SIG_ACT_IGN => mret tt
  end.

(** ** Sending *)

Definition mask_of (sig : Z) : Z := u32 (Z.shiftl 1 (sig - 1)).

Definition send_signal_to_process (sig : Z) : M sigproc Z :=
  if (sig <? 1) || (NSIG <=? sig) then mret (-1)
  else
    _ ← modify (λ p, with_pending (Z.lor (pending_signals p) (mask_of sig)) p);
    p ← get;
    _ ← (if bool_decide (sp_state p = BLOCKED) then
           if Z.land (blocked_signals p) (mask_of sig) =? 0 then modify (with_state READY) else mret tt
         else mret tt);
    mret 0.

(** The first process of the list with the number. *)
Definition process_find_by_pid (s : sigs) (pid : Z) : option nat := fst <$> list_find (λ p, sp_pid p = pid) (process_list s).

Definition send_signal (pid sig : Z) : M sigs Z :=
  if (sig <? 1) || (NSIG <=? sig) then mret (-1)
  else
    s ← get;
    match process_find_by_pid s pid with
    | None => mret (-1)
    | Some target => on_proc target (send_signal_to_process sig)
    end.

Definition signal_pending (p : sigproc) : bool :=
  negb (Z.land (pending_signals p) (u32 (Z.lnot (blocked_signals p))) =? 0).

(** ** Delivery *)

(** One iteration; [Some] leaves the loop. *)
Definition deliver (pending sig : Z) : M sigproc (option unit) :=
  if Z.land pending (mask_of sig) =? 0 then mret None
  else
    _ ← modify (λ p, with_pending (Z.land (pending_signals p) (u32 (Z.lnot (mask_of sig)))) p);
    p ← get;
    handler ← deref (aget (signal_handlers p) (sig - 1));
    if handler =? SIG_IGN then mret None
    else if handler =? SIG_DFL then
      _ ← do_signal_action sig;
      p ← get;
      if bool_decide (sp_state p = TERMINATED) then mret (Some tt) else mret None
    else if (sig =? SIGKILL) || (sig =? SIGSTOP) then _ ← do_signal_action sig; mret None
    else mret None.

Definition handle_signals : M sigproc unit :=
  p ← get;
  let pending := Z.land (pending_signals p) (u32 (Z.lnot (blocked_signals p))) in
  if pending =? 0 then mret tt
  else _ ← for_ret (Z.to_nat (NSIG - 1)) 1 (deliver pending); mret tt.

(** ** System calls *)

Definition sig_errno (error_code : Z) : M sigs Z :=
  s ← get;
  match current s with
  | Some i => _ ← on_proc i (modify (with_sp_errno error_code)); mret (-1)
  | None => mret (-1)
  end.

Definition sys_kill (pid sig : Z) : M sigs Z :=
  if (sig <? 0) || (NSIG <=? sig) then sig_errno EINVAL
  else if sig =? 0 then
    s ← get;
    match process_find_by_pid s pid with Some _ => mret 0 | None => sig_errno ESRCH end
  else
    r ← send_signal pid sig;
    if r <? 0 then sig_errno ESRCH else mret 0.

(** [act] is the new handler and its flags, [None] for a null pointer; the result has the
    old ones for a caller that asks for them. *)
Definition sys_sigaction (signum : Z) (act : option (Z * Z)) : M sigs (Z * (Z * Z)) :=
  s ← get;
  match current s with
  | None => r ← sig_errno EFAULT; mret (r, (0, 0))
  | Some i =>
      if (signum <? 1) || (NSIG <=? signum) || (signum =? SIGKILL) || (signum =? SIGSTOP) then
        r ← sig_errno EINVAL; mret (r, (0, 0))
      else
        p ← load_proc i;
        h ← deref (aget (signal_handlers p) (signum - 1));
        f ← deref (aget (signal_flags p) (signum - 1));
        match act with
        | None => mret (0, (h, f))
        | Some (sa_handler, sa_flags) =>
            hs ← deref (aset (signal_handlers p) (signum - 1) sa_handler);
            fs ← deref (aset (signal_flags p) (signum - 1) (u32 sa_flags));
            _ ← store_proc i (with_handlers hs fs p);
            mret (0, (h, f))
        end
  end.

Definition sys_signal (signum handler : Z) : M sigs Z :=
  '(r, (h, _)) ← sys_sigaction signum (Some (handler, SA_RESTART));
  if r <? 0 then mret SIG_ERR else mret h.

(** The result has the old mask; [set] is the first word of the new one. *)
Definition sys_sigprocmask (how : Z) (set : option Z) : M sigs (Z * Z) :=
  s ← get;
  match current s with
  | None => r ← sig_errno EFAULT; mret (r, 0)
  | Some i =>
      p ← load_proc i;
      let old := blocked_signals p in
      match set with
      | None => mret (0, old)
      | Some set =>
          let new_mask := Z.land set (u32 (Z.lnot (Z.lor (mask_of SIGKILL) (mask_of SIGSTOP)))) in
          if how =? 0 then _ ← store_proc i (with_blocked (Z.lor old new_mask) p); mret (0, old)
          else if how =? 1 then _ ← store_proc i (with_blocked (Z.land old (u32 (Z.lnot new_mask))) p); mret (0, old)
          else if how =? 2 then _ ← store_proc i (with_blocked new_mask p); mret (0, old)
          else r ← sig_errno EINVAL; mret (r, old)
      end
  end.

(** [schedule] is [scheduler_schedule], from the switch away from the process to the
    switch back to it. *)
Definition sys_pause (schedule : M sigs unit) : M sigs Z :=
  s ← get;
  match current s with
  | None => sig_errno EFAULT
  | Some i => _ ← on_proc i (modify (with_state BLOCKED)); _ ← schedule; sig_errno EINTR
  end.

(** ** Signals as sets *)

(** Signal [sig] is in the bitmap. *)
Definition has (w sig : Z) : bool := Z.testbit w (sig - 1).

Lemma mask_land w sig : 1 ≤ sig ≤ 32 → (Z.land w (mask_of sig) =? 0) = negb (has w sig).
Proof. intros Hs. unfold has, mask_of. rewrite <- (mask_test w (sig - 1)) by lia. by rewrite negb_involutive. Qed.

Lemma has_add w sig k : 1 ≤ sig ≤ 32 → 1 ≤ k ≤ 32 → has (Z.lor w (mask_of sig)) k = has w k || (k =? sig).
Proof.
  intros Hs Hk. unfold has, mask_of. rewrite Z.lor_spec, testbit_u32, testbit_one by lia. f_equal.
  apply eq_true_iff_eq. rewrite !Z.eqb_eq. lia.
Qed.

Lemma has_minus w v k : 1 ≤ k ≤ 32 → has (Z.land w (u32 (Z.lnot v))) k = has w k && negb (has v k).
Proof. intros Hk. unfold has. by rewrite Z.land_spec, testbit_u32, Z.lnot_spec by lia. Qed.

Lemma has_mask sig k : 1 ≤ sig ≤ 32 → 1 ≤ k ≤ 32 → has (mask_of sig) k = (k =? sig).
Proof.
  intros Hs Hk. unfold has, mask_of. rewrite testbit_u32, testbit_one by lia. apply eq_true_iff_eq. rewrite !Z.eqb_eq. lia.
Qed.

(** ** What delivery means *)

Definition signals : list Z := seqZ 1 31.

Definition waiting (p : sigproc) (sig : Z) : bool := has (pending_signals p) sig && negb (has (blocked_signals p) sig).

(** The default action applies unless the signal is ignored or caught. *)
Definition action_of (p : sigproc) (sig : Z) : sig_default_action :=
  if signal_handlers p !!! Z.to_nat (sig - 1) =? SIG_DFL then default_actions !!! Z.to_nat sig else SIG_ACT_IGN.

Definition fatal (p : sigproc) (sig : Z) : bool :=
  match action_of p sig with SIG_ACT_TERM | SIG_ACT_CORE => true | _ => false end.

(** What a signal that is not fatal does to the state. *)
Definition react (p : sigproc) (st : process_state) (sig : Z) : process_state :=
  match action_of p sig with
  | SIG_ACT_STOP => BLOCKED
  | SIG_ACT_CONT => if bool_decide (st = BLOCKED) then READY else st
  | _ => st
  end.

(** [SIGKILL] and [SIGSTOP] are neither blocked nor caught. *)
Record protected (p : sigproc) : Prop := {
  prot_handlers : length (signal_handlers p) = 32%nat;
  prot_flags : length (signal_flags p) = 32%nat;
  prot_unblocked sig : sig = SIGKILL ∨ sig = SIGSTOP → has (blocked_signals p) sig = false;
  prot_default sig : sig = SIGKILL ∨ sig = SIGSTOP → signal_handlers p !! Z.to_nat (sig - 1) = Some SIG_DFL;
}.

(** The deliveries of a list of signals, one after the other. *)
Fixpoint deliveries (l : list Z) (p : sigproc) : sigproc :=
  match l with
  | [] => p
  | sig :: l =>
      let p1 := with_pending (Z.land (pending_signals p) (u32 (Z.lnot (mask_of sig)))) p in
      if fatal p sig then with_exit_code sig (with_state TERMINATED p1)
      else deliveries l (with_state (react p (sp_state p) sig) p1)
  end.

Lemma with_state_id p : with_state (sp_state p) p = p.
Proof. by destruct p. Qed.

Lemma deliver_spec pending sig p :
  protected p → 1 ≤ sig ≤ 31 → has pending sig = true → sp_state p ≠ TERMINATED →
  let p1 := with_pending (Z.land (pending_signals p) (u32 (Z.lnot (mask_of sig)))) p in
  deliver pending sig p =
    if fatal p sig then Ret (Some tt, with_exit_code sig (with_state TERMINATED p1))
    else Ret (None, with_state (react p (sp_state p) sig) p1).
Proof.
  intros Hp Hsig Hin Hst p1. unfold deliver. rewrite mask_land, Hin by lia. cbn [negb].
  rewrite bind_modify, bind_get. fold p1. change (signal_handlers p1) with (signal_handlers p).
  destruct (lookup_lt_is_Some_2 (signal_handlers p) (Z.to_nat (sig - 1))) as [h Hh]; [rewrite (prot_handlers _ Hp); lia|].
  unfold aget. rewrite (proj2 (Z.leb_le 0 (sig - 1))), Hh by lia. rewrite bind_deref.
  assert (action_of p sig = if h =? SIG_DFL then default_actions !!! Z.to_nat sig else SIG_ACT_IGN) as Ha.
  { unfold action_of. by rewrite (list_lookup_total_correct _ _ _ Hh). }
  assert (h = SIG_DFL ∨ (sig =? SIGKILL) || (sig =? SIGSTOP) = false) as Hcase.
  { destruct ((sig =? SIGKILL) || (sig =? SIGSTOP)) eqn:E; [left | by right]. apply orb_true_iff in E as [E|E]; apply Z.eqb_eq in E.
    - pose proof (prot_default _ Hp sig (or_introl E)). congruence.
    - pose proof (prot_default _ Hp sig (or_intror E)). congruence. }
  unfold fatal, react. rewrite Ha. destruct (Z.eqb_spec h SIG_IGN) as [->|Hi]; [by cbn|].
  destruct (Z.eqb_spec h SIG_DFL) as [->|Hd]; [|destruct Hcase as [|Hcase]; [done|]; rewrite Hcase; by cbn].
  destruct (lookup_lt_is_Some_2 default_actions (Z.to_nat sig)) as [a Hact]; [cbn; lia|].
  rewrite (list_lookup_total_correct _ _ _ Hact). unfold do_signal_action, aget. rewrite (proj2 (Z.leb_le 0 sig)), Hact by lia.
  rewrite bind_assoc, bind_deref.
  destruct a.
  1,3,4: done.
  - rewrite bind_mret, bind_get. change (sp_state p1) with (sp_state p). by rewrite bool_decide_false.
  - rewrite bind_assoc, bind_get. change (sp_state p1) with (sp_state p). destruct (bool_decide (sp_state p = BLOCKED)); [done|].
    rewrite bind_mret, bind_get. change (sp_state p1) with (sp_state p). by rewrite bool_decide_false.
Qed.

Lemma protected_same p p' :
  protected p → signal_handlers p' = signal_handlers p → signal_flags p' = signal_flags p → blocked_signals p' = blocked_signals p → protected p'.
Proof. intros [H1 H2 H3 H4] E1 E2 E3. split; rewrite ?E1, ?E2, ?E3; assumption. Qed.

Lemma react_live p st sig : st ≠ TERMINATED → react p st sig ≠ TERMINATED.
Proof. intros Hst. unfold react. case_match; [done..|]. by case_bool_decide. Qed.

Definition waiting_in (pending : Z) (i : Z) (n : nat) : list Z := filter (λ sig, has pending sig = true) (seqZ i (Z.of_nat n)).

Lemma waiting_in_S pending i n :
  waiting_in pending i (S n) = if has pending i then i :: waiting_in pending (i + 1) n else waiting_in pending (i + 1) n.
Proof.
  unfold waiting_in. rewrite seqZ_cons by lia. replace (Z.pred (Z.of_nat (S n))) with (Z.of_nat n) by lia. rewrite filter_cons, <- Z.add_1_r.
  destruct (has pending i); [by rewrite decide_True | by rewrite decide_False].
Qed.

Lemma deliver_loop pending n : ∀ i p,
  protected p → 1 ≤ i → i + Z.of_nat n ≤ 32 → sp_state p ≠ TERMINATED →
  ∃ r, for_ret n i (deliver pending) p = Ret (r, deliveries (waiting_in pending i n) p).
Proof.
  induction n as [|n IH]; intros i p Hp Hi Hn Hst; [by exists None|]. cbn [for_ret]. rewrite waiting_in_S.
  destruct (has pending i) eqn:Hin; cbn [deliveries].
  - unfold mbind, M_bind. rewrite (deliver_spec pending i p Hp ltac:(lia) Hin Hst). destruct (fatal p i); [by exists (Some tt)|].
    apply IH; [by eapply protected_same | lia | lia | by apply react_live].
  - unfold mbind, M_bind, deliver at 1. rewrite mask_land, Hin by lia. cbn. by apply IH; [|lia..|].
Qed.

Definition clear_all (l : list Z) (w : Z) : Z := fold_left (λ w sig, Z.land w (u32 (Z.lnot (mask_of sig)))) l w.

Lemma has_clear_all l w k : Forall (λ sig, 1 ≤ sig ≤ 31) l → 1 ≤ k ≤ 31 → has (clear_all l w) k = has w k && negb (bool_decide (k ∈ l)).
Proof.
  intros Hl Hk. revert w. induction Hl as [|sig l Hsig _ IH]; intros w; cbn [clear_all fold_left].
  - rewrite bool_decide_false by apply not_elem_of_nil. by rewrite andb_true_r.
  - fold (clear_all l (Z.land w (u32 (Z.lnot (mask_of sig))))). rewrite IH, has_minus, has_mask by lia. rewrite <- andb_assoc, <- negb_orb. do 2 f_equal.
    apply eq_true_iff_eq. rewrite orb_true_iff, Z.eqb_eq, !bool_decide_eq_true, elem_of_cons. done.
Qed.

Lemma deliveries_spec l : ∀ p,
  match List.find (fatal p) l with
  | None => deliveries l p = with_state (fold_left (react p) l (sp_state p)) (with_pending (clear_all l (pending_signals p)) p)
  | Some sig => ∃ l1 l2, l = l1 ++ sig :: l2 ∧
      deliveries l p = with_exit_code sig (with_state TERMINATED (with_pending (clear_all (l1 ++ [sig]) (pending_signals p)) p))
  end.
Proof.
  induction l as [|sig l IH]; intros p; cbn [List.find deliveries]; [by destruct p|].
  destruct (fatal p sig) eqn:Hf; [by exists [], l|].
  specialize (IH (with_state (react p (sp_state p) sig) (with_pending (Z.land (pending_signals p) (u32 (Z.lnot (mask_of sig)))) p))).
  change (List.find (fatal (with_state _ _)) l) with (List.find (fatal p) l) in IH. destruct (List.find (fatal p) l) as [sig'|].
  - destruct IH as (l1 & l2 & -> & ->). by exists (sig :: l1), l2.
  - rewrite IH. done.
Qed.

(** The signals in front of one that is delivered have smaller numbers, the others greater ones. *)
Lemma waiting_in_split pending n : ∀ i l1 sig l2,
  waiting_in pending i n = l1 ++ sig :: l2 → (∀ k, k ∈ l1 → i ≤ k < sig) ∧ (∀ k, k ∈ l2 → sig < k) ∧ i ≤ sig < i + Z.of_nat n.
Proof.
  induction n as [|n IH]; intros i l1 sig l2 E; [by destruct l1|]. rewrite waiting_in_S in E.
  assert (∀ k, k ∈ waiting_in pending (i + 1) n → i < k) as Hgt.
  { intros k [_ Hk%elem_of_seqZ]%list_elem_of_filter. lia. }
  destruct (has pending i).
  - destruct l1 as [|j l1]; injection E as -> E; [subst; split_and!; [set_solver | done | lia | lia]|].
    destruct (IH _ _ _ _ E) as (H1 & H2 & H3). split_and!; [|done|lia|lia]. intros k [->|Hk]%elem_of_cons; [lia|]. specialize (H1 k Hk). lia.
  - destruct (IH _ _ _ _ E) as (H1 & H2 & H3). split_and!; [|done|lia|lia]. intros k Hk. specialize (H1 k Hk). lia.
Qed.

(** The signals that wait, in order. *)
Definition waiting_signals (p : sigproc) : list Z := filter (λ sig, waiting p sig = true) signals.

Lemma waiting_signals_eq p : waiting_signals p = waiting_in (Z.land (pending_signals p) (u32 (Z.lnot (blocked_signals p)))) 1 31.
Proof.
  unfold waiting_signals, waiting_in, signals, waiting. apply filter_agree. intros k Hk%elem_of_seqZ.
  by rewrite has_minus by lia.
Qed.

Lemma elem_of_waiting p k : k ∈ waiting_signals p ↔ 1 ≤ k ≤ 31 ∧ waiting p k = true.
Proof. unfold waiting_signals, signals. rewrite list_elem_of_filter, elem_of_seqZ. intuition lia. Qed.

Lemma handle_signals_eq p :
  protected p → sp_state p ≠ TERMINATED → handle_signals p = Ret (tt, deliveries (waiting_signals p) p).
Proof.
  intros Hp Hst. unfold handle_signals. rewrite bind_get, waiting_signals_eq. destruct (Z.eqb_spec (Z.land (pending_signals p) (u32 (Z.lnot (blocked_signals p)))) 0) as [->|Hne].
  - assert (waiting_in 0 1 31 = []) as -> by done. done.
  - destruct (deliver_loop (Z.land (pending_signals p) (u32 (Z.lnot (blocked_signals p)))) 31 1 p Hp ltac:(lia) ltac:(lia) Hst) as [r E].
    by rewrite (bind_Ret _ _ _ _ _ E).
Qed.

(** delivery handles the signals that wait and are not blocked in ascending order.  If
    one of them ends the process, the first such one does and is the exit code; the
    ones in front of it and itself are taken from the pending signals, the others
    stay.  Otherwise all of them are taken, blocked ones stay, and stopping and
    continuing act on the state in turn. *)
Theorem handle_signals_correct p :
  protected p → sp_state p ≠ TERMINATED →
  ∃ p', handle_signals p = Ret (tt, p') ∧ blocked_signals p' = blocked_signals p ∧ signal_handlers p' = signal_handlers p ∧
    match List.find (fatal p) (waiting_signals p) with
    | Some sig => sp_state p' = TERMINATED ∧ exit_code p' = sig ∧
        ∀ k, 1 ≤ k ≤ 31 → has (pending_signals p') k = has (pending_signals p) k && negb (waiting p k && (k <=? sig))
    | None => sp_state p' = fold_left (react p) (waiting_signals p) (sp_state p) ∧ exit_code p' = exit_code p ∧
        ∀ k, 1 ≤ k ≤ 31 → has (pending_signals p') k = has (pending_signals p) k && has (blocked_signals p) k
    end.
Proof.
  intros Hp Hst. exists (deliveries (waiting_signals p) p). rewrite (handle_signals_eq p Hp Hst). split; [done|].
  pose proof (deliveries_spec (waiting_signals p) p) as Hd. assert (Forall (λ sig, 1 ≤ sig ≤ 31) (waiting_signals p)) as Hl.
  { apply Forall_forall. intros k Hk%elem_of_waiting. lia. }
  destruct (List.find (fatal p) (waiting_signals p)) as [sig|].
  - destruct Hd as (l1 & l2 & El & ->). split_and!; [done..|]. intros k Hk. cbn.
    rewrite has_clear_all; [|rewrite El, cons_middle, app_assoc in Hl; by apply Forall_app in Hl as [? _] | done]. do 2 f_equal.
    apply eq_true_iff_eq. rewrite bool_decide_eq_true, andb_true_iff, Z.leb_le.
    pose proof (waiting_in_split _ _ _ _ _ _ (eq_trans (eq_sym (waiting_signals_eq p)) El)) as (H1 & H2 & _).
    assert (waiting p k = true ↔ k ∈ l1 ++ sig :: l2) as -> by (rewrite <- El, elem_of_waiting; intuition).
    rewrite !elem_of_app, !elem_of_cons, elem_of_nil. split.
    + intros [Hk1|[->|[]]]; [specialize (H1 k Hk1); split; [by left | lia] | split; [by right; left | lia]].
    + intros [[Hk1|[->|Hk2]] Hle]; [by left | by right; left | specialize (H2 k Hk2); lia].
  - rewrite Hd. split_and!; [done..|]. intros k Hk. cbn. rewrite has_clear_all by done.
    destruct (bool_decide_reflect (k ∈ waiting_signals p)) as [Hw|Hw]; rewrite elem_of_waiting in Hw; unfold waiting in Hw;
      destruct (has (pending_signals p) k), (has (blocked_signals p) k); cbn in *; intuition congruence.
Qed.

(** ** Any sequence of calls *)

Inductive sig_call :=
  | Kill (pid sig : Z)
  | Sigaction (signum : Z) (act : option (Z * Z))
  | SetHandler (signum handler : Z)
  | Sigprocmask (how : Z) (set : option Z)
  | Deliver (i : nat)
  | Switch (i : nat).

Definition run_sig (c : sig_call) : M sigs unit :=
  match c with
  | Kill pid sig => _ ← sys_kill pid sig; mret tt
  | Sigaction signum act => _ ← sys_sigaction signum act; mret tt
  | SetHandler signum handler => _ ← sys_signal signum handler; mret tt
  | Sigprocmask how set => _ ← sys_sigprocmask how set; mret tt
  | Deliver i => on_proc i handle_signals
  | Switch i => modify (λ s, {| process_list := process_list s; current := Some i |})
  end.

(** Signals are delivered to a process that has not ended, and one of the list runs. *)
Definition sig_allowed (c : sig_call) (s : sigs) : Prop :=
  match c with
  | Deliver i => ∃ p, process_list s !! i = Some p ∧ sp_state p ≠ TERMINATED
  | Switch i => (i < length (process_list s))%nat
  | _ => True
  end.

Record sigs_ok (s : sigs) : Prop := {
  sok_procs i p : process_list s !! i = Some p → protected p;
  sok_current i : current s = Some i → (i < length (process_list s))%nat;
}.

Inductive sig_reach (s : sigs) : sigs → Prop :=
  | sig_refl : sig_reach s s
  | sig_step s1 s2 c : sig_reach s s1 → sig_allowed c s1 → run_sig c s1 = Ret (tt, s2) → sig_reach s s2.

(** A computation that returns in a state that is well formed, with as many processes. *)
Definition keeps {A} (m : M sigs A) (s : sigs) : Prop :=
  ∃ a s', m s = Ret (a, s') ∧ sigs_ok s' ∧ length (process_list s') = length (process_list s).

Lemma keeps_bind {A B} (m : M sigs A) (k : A → M sigs B) s :
  keeps m s → (∀ a s', m s = Ret (a, s') → sigs_ok s' → keeps (k a) s') → keeps (m ≫= k) s.
Proof.
  intros (a & s' & E & Hs & Hl) Hk. destruct (Hk a s' E Hs) as (b & s2 & E2 & Hs2 & Hl2). exists b, s2.
  rewrite (bind_Ret _ _ _ _ _ E). split_and!; [done..|congruence].
Qed.

Lemma keeps_ret {A} (a : A) s : sigs_ok s → keeps (mret a) s.
Proof. intros Hs. by exists a, s. Qed.

Lemma keeps_insert s i p p' :
  sigs_ok s → process_list s !! i = Some p → protected p' → sigs_ok {| process_list := <[i := p']> (process_list s); current := current s |}.
Proof.
  intros [H1 H2] Hi Hp. split; cbn.
  - intros j q Hj. destruct (decide (i = j)) as [->|]; [rewrite list_lookup_insert_eq in Hj by (by eapply lookup_lt_Some) | rewrite list_lookup_insert_ne in Hj by done; by eapply H1].
    by simplify_eq.
  - intros j Hj. rewrite length_insert. by apply H2.
Qed.

Lemma keeps_on_proc {A} i (m : M sigproc A) s p a p' :
  sigs_ok s → process_list s !! i = Some p → m p = Ret (a, p') → protected p' → keeps (on_proc i m) s.
Proof.
  intros Hs Hi E Hp. exists a. eexists. unfold on_proc. rewrite Hi, E. split; [done|]. split; [by eapply keeps_insert | apply length_insert].
Qed.

Lemma keeps_errno e s : sigs_ok s → keeps (sig_errno e) s.
Proof.
  intros Hs. unfold sig_errno. exists (-1). rewrite bind_get. destruct (current s) as [i|] eqn:Hc; [|by exists s].
  destruct (lookup_lt_is_Some_2 _ _ (sok_current _ Hs i Hc)) as [p Hp]. eexists. unfold mbind, M_bind, on_proc. rewrite Hp.
  split; [done|]. split; [|apply length_insert]. eapply keeps_insert; [done..|]. eapply protected_same; [by eapply sok_procs|done..].
Qed.

Lemma send_spec p sig :
  protected p → 1 ≤ sig ≤ 31 →
  ∃ p', send_signal_to_process sig p = Ret (0, p') ∧ protected p' ∧ signal_handlers p' = signal_handlers p ∧ blocked_signals p' = blocked_signals p ∧
    pending_signals p' = Z.lor (pending_signals p) (mask_of sig) ∧
    sp_state p' = (if bool_decide (sp_state p = BLOCKED) && negb (has (blocked_signals p) sig) then READY else sp_state p).
Proof.
  intros Hp Hs. unfold send_signal_to_process. rewrite (proj2 (Z.ltb_ge sig 1)), (proj2 (Z.leb_gt _ sig)) by lia. cbn [orb].
  rewrite bind_modify, bind_get. cbn [sp_state with_pending blocked_signals]. rewrite mask_land by lia.
  destruct (bool_decide (sp_state p = BLOCKED)); [destruct (has (blocked_signals p) sig)|]; cbn [negb andb]; unfold mbind, M_bind, mret, M_ret, modify;
    (eexists; split; [done|]; split_and!; [by eapply protected_same | done..]).
Qed.

Lemma find_by_pid_Some s pid i : process_find_by_pid s pid = Some i → ∃ p, process_list s !! i = Some p ∧ sp_pid p = pid.
Proof. unfold process_find_by_pid. intros ((j & p) & (Hp & Hpid & _)%list_find_Some & ->)%fmap_Some. by exists p. Qed.

Lemma kill_keeps s pid sig : sigs_ok s → keeps (sys_kill pid sig) s.
Proof.
  intros Hs. unfold sys_kill. destruct ((sig <? 0) || (32 <=? sig)) eqn:Hb; [by apply keeps_errno|].
  destruct (Z.eqb_spec sig 0).
  - apply keeps_bind; [by exists s, s|]. intros ? ? [= <- <-] _. case_match; [by apply keeps_ret | by apply keeps_errno].
  - assert (1 ≤ sig ≤ 31) as Hsig by zbool. apply keeps_bind.
    + unfold send_signal. rewrite (proj2 (Z.ltb_ge sig 1)), (proj2 (Z.leb_gt _ sig)) by lia. cbn [orb].
      apply keeps_bind; [by exists s, s|]. intros ? ? [= <- <-] _. destruct (process_find_by_pid s pid) as [i|] eqn:Hi; [|by apply keeps_ret].
      apply find_by_pid_Some in Hi as (p & Hp & _). destruct (send_spec p sig (sok_procs _ Hs _ _ Hp) Hsig) as (p' & E & Hp' & _).
      by eapply keeps_on_proc.
    + intros r s' _ Hs'. case_match; [by apply keeps_errno | by apply keeps_ret].
Qed.

Lemma set_handler_protected p signum h f :
  protected p → 1 ≤ signum ≤ 31 → signum ≠ SIGKILL → signum ≠ SIGSTOP →
  protected (with_handlers (<[Z.to_nat (signum - 1) := h]> (signal_handlers p)) (<[Z.to_nat (signum - 1) := f]> (signal_flags p)) p).
Proof.
  intros [H1 H2 H3 H4] Hs Hk Ht. split; cbn; [by rewrite length_insert..|done|].
  intros sig Hsig. rewrite list_lookup_insert_ne by lia. by apply H4.
Qed.

Lemma sigaction_keeps s signum act : sigs_ok s → keeps (sys_sigaction signum act) s.
Proof.
  intros Hs. unfold sys_sigaction. apply keeps_bind; [by exists s, s|]. intros ? ? [= <- <-] _. destruct (current s) as [i|] eqn:Hc.
  2: { apply keeps_bind; [by apply keeps_errno|]. intros; by apply keeps_ret. }
  case_match eqn:Hb. { apply keeps_bind; [by apply keeps_errno|]. intros; by apply keeps_ret. }
  assert (1 ≤ signum ≤ 31 ∧ signum ≠ SIGKILL ∧ signum ≠ SIGSTOP) as (Hr & Hk & Ht) by zbool.
  destruct (lookup_lt_is_Some_2 _ _ (sok_current _ Hs i Hc)) as [p Hp]. pose proof (sok_procs _ Hs _ _ Hp) as Hpr.
  apply keeps_bind; [exists p, s; unfold load_proc; rewrite bind_get, Hp; by split_and!|].
  intros p0 s0. unfold load_proc. rewrite bind_get, Hp. intros [= <- <-] _.
  destruct (aget_Some (signal_handlers p) (signum - 1)) as [h Hh]; [rewrite (prot_handlers _ Hpr); lia|].
  destruct (aget_Some (signal_flags p) (signum - 1)) as [f Hf]; [rewrite (prot_flags _ Hpr); lia|].
  rewrite Hh, Hf. apply keeps_bind; [by exists h, s|]. intros ? ? [= <- <-] _. apply keeps_bind; [by exists f, s|]. intros ? ? [= <- <-] _.
  destruct act as [[ha fa]|]; [|by apply keeps_ret].
  rewrite !aset_Some by (rewrite ?(prot_handlers _ Hpr), ?(prot_flags _ Hpr); lia).
  eexists _, _. split; [done|]. cbn. split; [|apply length_insert]. eapply keeps_insert; [done..|]. by apply set_handler_protected.
Qed.

Lemma sigprocmask_keeps s how set : sigs_ok s → keeps (sys_sigprocmask how set) s.
Proof.
  intros Hs. unfold sys_sigprocmask. apply keeps_bind; [by exists s, s|]. intros ? ? [= <- <-] _. destruct (current s) as [i|] eqn:Hc.
  2: { apply keeps_bind; [by apply keeps_errno|]. intros; by apply keeps_ret. }
  destruct (lookup_lt_is_Some_2 _ _ (sok_current _ Hs i Hc)) as [p Hp]. pose proof (sok_procs _ Hs _ _ Hp) as Hpr.
  apply keeps_bind; [exists p, s; unfold load_proc; rewrite bind_get, Hp; by split_and!|].
  intros p0 s0. unfold load_proc. rewrite bind_get, Hp. intros [= <- <-] _. destruct set as [w|]; [|by apply keeps_ret].
  assert (∀ sig, sig = SIGKILL ∨ sig = SIGSTOP → has (Z.land w (u32 (Z.lnot (Z.lor (mask_of SIGKILL) (mask_of SIGSTOP))))) sig = false) as Hnew.
  { intros sig Hsig. rewrite has_minus, has_add, has_mask by lia. destruct Hsig as [-> | ->]; cbn; apply andb_false_r. }
  assert (∀ b, (∀ sig, sig = SIGKILL ∨ sig = SIGSTOP → has b sig = false) → keeps (_ ← store_proc i (with_blocked b p); mret (0, blocked_signals p)) s) as Hset.
  { intros b Hb. eexists _, _. split; [done|]. cbn. split; [|apply length_insert]. eapply keeps_insert; [done..|]. destruct Hpr. by split. }
  repeat case_match; [apply Hset.. |].
  - intros sig Hsig. unfold has. rewrite Z.lor_spec. fold (has (blocked_signals p) sig). rewrite (prot_unblocked _ Hpr sig Hsig).
    by apply Hnew.
  - intros sig Hsig. rewrite has_minus by lia. by rewrite (prot_unblocked _ Hpr sig Hsig).
  - done.
  - apply keeps_bind; [by apply keeps_errno|]. intros; by apply keeps_ret.
Qed.

Lemma deliveries_protected l : ∀ p, protected p → protected (deliveries l p).
Proof.
  induction l as [|sig l IH]; intros p Hp; cbn; [done|]. destruct (fatal p sig); [by eapply protected_same|].
  apply IH. by eapply protected_same.
Qed.

Lemma run_sig_keeps c s : sigs_ok s → sig_allowed c s → keeps (run_sig c) s.
Proof.
  intros Hs. destruct c; cbn [run_sig sig_allowed]; intros Ha.
  - apply keeps_bind; [by apply kill_keeps|]. intros; by apply keeps_ret.
  - apply keeps_bind; [by apply sigaction_keeps|]. intros; by apply keeps_ret.
  - apply keeps_bind; [|intros; by apply keeps_ret]. apply keeps_bind; [by apply sigaction_keeps|]. intros [r [h f]] s' _ Hs'. case_match; by apply keeps_ret.
  - apply keeps_bind; [by apply sigprocmask_keeps|]. intros; by apply keeps_ret.
  - destruct Ha as (p & Hp & Hst). pose proof (sok_procs _ Hs _ _ Hp) as Hpr.
    eapply keeps_on_proc; [done..|by apply handle_signals_eq | by apply deliveries_protected].
  - eexists _, _. split; [done|]. split; [|done]. destruct Hs. split; cbn; [done|]. by intros j [= <-].
Qed.

Lemma sig_reach_ok s s' : sigs_ok s → sig_reach s s' → sigs_ok s'.
Proof.
  intros Hs. induction 1 as [|s1 s2 c _ IH Ha E]; [done|]. destruct (run_sig_keeps c s1 IH Ha) as ([] & s2' & E' & Hs2 & _).
  rewrite E in E'. by injection E' as <-.
Qed.

Lemma find_fatal p : protected p → waiting p SIGKILL = true → ∃ sig, List.find (fatal p) (waiting_signals p) = Some sig ∧ sig ≤ 9.
Proof.
  intros Hp Hw. assert (fatal p SIGKILL = true) as Hf.
  { unfold fatal, action_of. by rewrite (list_lookup_total_correct _ _ _ (prot_default _ Hp SIGKILL (or_introl eq_refl))). }
  assert (SIGKILL ∈ waiting_signals p) as Hin by (by apply elem_of_waiting). rewrite waiting_signals_eq in *.
  apply list_elem_of_split in Hin as (l1 & l2 & El). destruct (waiting_in_split _ _ _ _ _ _ El) as (H1 & _ & _). rewrite El, find_app.
  cbn [List.find]. rewrite Hf. destruct (List.find (fatal p) l1) as [sig|] eqn:E; [|by exists 9]. exists sig. split; [done|].
  apply List.find_some in E as [Hsig%list_elem_of_In _]. specialize (H1 _ Hsig). lia.
Qed.

(** C26: no process can protect itself from [SIGKILL].  After any sequence of calls that
    set handlers and masks, send signals and deliver them, a [SIGKILL] sent to a process
    ends it at the next delivery. *)
Theorem sigkill_terminates s s' pid i p :
  sigs_ok s → sig_reach s s' → process_find_by_pid s' pid = Some i → process_list s' !! i = Some p → sp_state p ≠ TERMINATED →
  ∃ s1 s2 p', sys_kill pid SIGKILL s' = Ret (0, s1) ∧ on_proc i handle_signals s1 = Ret (tt, s2) ∧
    process_list s2 !! i = Some p' ∧ sp_state p' = TERMINATED ∧ exit_code p' ≤ SIGKILL.
Proof.
  intros Hs Hr Hfind Hp Hst. pose proof (sok_procs _ (sig_reach_ok _ _ Hs Hr) _ _ Hp) as Hpr. pose proof (lookup_lt_Some _ _ _ Hp) as Hlt.
  destruct (send_spec p SIGKILL Hpr ltac:(lia)) as (p1 & E1 & Hpr1 & _ & Eb & Ep & Es).
  exists {| process_list := <[i := p1]> (process_list s'); current := current s' |}. do 2 eexists. split.
  { unfold sys_kill, send_signal.
    rewrite (proj2 (Z.ltb_ge SIGKILL 0)), (proj2 (Z.ltb_ge SIGKILL 1)), (proj2 (Z.leb_gt NSIG SIGKILL)), (proj2 (Z.eqb_neq SIGKILL 0)) by lia.
    cbn [orb]. rewrite bind_assoc, bind_get, Hfind.
    erewrite bind_Ret; [|unfold on_proc; rewrite Hp, E1; reflexivity]. done. }
  assert (sp_state p1 ≠ TERMINATED) as Hst1 by (rewrite Es; by destruct (bool_decide (sp_state p = BLOCKED) && _)).
  assert (waiting p1 SIGKILL = true) as Hw.
  { unfold waiting. rewrite Ep, Eb, has_add, (prot_unblocked _ Hpr) by (lia || by left). by rewrite orb_true_r. }
  unfold on_proc. cbn [process_list]. rewrite list_lookup_insert_eq by done. rewrite (handle_signals_eq _ Hpr1 Hst1). split; [done|].
  cbn [process_list]. rewrite list_lookup_insert_eq by (by rewrite length_insert). split; [done|].
  destruct (find_fatal _ Hpr1 Hw) as (sig & Hsig & Hle). pose proof (deliveries_spec (waiting_signals p1) p1) as Hd. rewrite Hsig in Hd.
  destruct Hd as (l1 & l2 & _ & ->). done.
Qed.

(** A stopped process is in the state of a blocked one: any signal that it does not block
    makes it ready, also one that it ignores. *)
Lemma stopped_woken_by_any_signal p sig :
  protected p → sp_state p = BLOCKED → 1 ≤ sig ≤ 31 → has (blocked_signals p) sig = false →
  ∃ p', send_signal_to_process sig p = Ret (0, p') ∧ sp_state p' = READY.
Proof.
  intros Hp Hst Hsig Hb. destruct (send_spec p sig Hp Hsig) as (p' & E & _ & _ & _ & _ & Es). exists p'. split; [done|].
  by rewrite Es, bool_decide_true, Hb.
Qed.

(** ** Two processes *)

Definition proc0 (pid : Z) : sigproc :=
  init_process_signals {| sp_pid := pid; sp_state := RUNNING; pending_signals := 0; blocked_signals := 0; signal_handlers := [];
                          signal_flags := []; exit_code := 0; sp_errno := 0 |}.

Definition two_procs : sigs := {| process_list := [proc0 7; proc0 8]; current := Some 0%nat |}.

Lemma protected_init p : protected (init_process_signals p).
Proof. split; cbn; [done | done | by intros sig [-> | ->] | by intros sig [-> | ->]]. Qed.

Lemma two_procs_ok : sigs_ok two_procs.
Proof.
  split; cbn; [|by intros i [= <-]; lia]. intros [|[|i]] p Hp; [| |done]; injection Hp as <-; apply protected_init.
Qed.

(** [SIGHUP] is blocked, [SIGTSTP] waits, and [SIGTERM] is caught. *)
Definition busy : sigproc :=
  with_handlers (<[14%nat := 0x8048000]> (replicate 32 0)) (replicate 32 0) (with_blocked 1 (with_pending 0x84001 (proc0 7))).

Lemma handle_signals_correct_witness : ∃ p', handle_signals busy = Ret (tt, p') ∧ sp_state p' = BLOCKED ∧ has (pending_signals p') 1 = true.
Proof.
  destruct (handle_signals_correct busy) as (p' & E & _ & _ & H).
  - split; cbn; [done | done | by intros sig [-> | ->] | by intros sig [-> | ->]].
  - done.
  - replace (List.find (fatal busy) (waiting_signals busy)) with (@None Z) in H by (vm_compute; reflexivity).
    destruct H as (Hst & _ & Hk). exists p'. split; [exact E|]. split; [rewrite Hst; vm_compute; reflexivity|]. rewrite Hk by lia. vm_compute. reflexivity.
Defined.

(** The state after a call. *)
Definition after (c : sig_call) (s : sigs) : sigs := match run_sig c s with Ret (_, s') => s' | _ => s end.

(** The second process catches [SIGTERM] and blocks all signals. *)
Definition second : sigs := after (Switch 1) two_procs.
Definition catching : sigs := after (SetHandler 15 0x8048000) second.
Definition defiant : sigs := after (Sigprocmask 2 (Some 0xFFFFFFFF)) catching.

Lemma sigkill_terminates_witness :
  ∃ s1 s2 p', sys_kill 8 SIGKILL defiant = Ret (0, s1) ∧ on_proc 1 handle_signals s1 = Ret (tt, s2) ∧ process_list s2 !! 1%nat = Some p' ∧ sp_state p' = TERMINATED.
Proof.
  destruct (sigkill_terminates two_procs defiant 8 1 (default (proc0 8) (process_list defiant !! 1%nat)) two_procs_ok) as (s1 & s2 & p' & E1 & E2 & Hp & Hst & _).
  - apply (sig_step _ catching _ (Sigprocmask 2 (Some 0xFFFFFFFF))); [|done|vm_compute; reflexivity].
    apply (sig_step _ second _ (SetHandler 15 0x8048000)); [|done|vm_compute; reflexivity].
    apply (sig_step _ two_procs _ (Switch 1)); [constructor | cbn; lia | vm_compute; reflexivity].
  - vm_compute. reflexivity.
  - vm_compute. reflexivity.
  - vm_compute. discriminate.
  - by exists s1, s2, p'.
Defined.
