(* ===== verification/RtSched.v ===== *)
(** * Real-time scheduler (kernel/process/rt_sched.c, include/process/rt_sched.h)

    One hundred FIFO queues, each a list of include/list.h, with a bitmap of the
    non-empty ones.  The node of a process is its fields [next] and [prev], at the
    offset [off]; the heads of the queues are an array at [queue].  The fields [rt_time]
    and [rt_throttled], which the code only clears, are left out. *)

From S2P Require Import Prelude Bits ListHead.

#[local] Open Scope Z_scope.

Abbreviation MAX_RT_PRIO := 100%Z (only parsing).
Abbreviation RR_TIMESLICE := 100%Z (only parsing).

Inductive sched_policy := SCHED_NORMAL | SCHED_FIFO | SCHED_RR | SCHED_BATCH | SCHED_IDLE.

#[export] Instance sched_policy_eq_dec : EqDecision sched_policy.
Proof. solve_decision. Defined.

(** The fields of [struct process] that the scheduler uses, but for the links. *)
Record rt_process := { policy : sched_policy; rt_priority : Z; slice_left : Z }.

(** [g_rt_rq] but for the heads of the queues. *)
Record rt_rq := { bitmap : list Z; nr_running : Z; rt_nr_running : Z; highest_prio : Z }.

Record rt := { rt_links : links; rt_procs : gmap Z rt_process; g_rt_rq : rt_rq }.

Definition with_links (l : links) (s : rt) : rt := {| rt_links := l; rt_procs := rt_procs s; g_rt_rq := g_rt_rq s |}.
Definition with_procs (p : gmap Z rt_process) (s : rt) : rt := {| rt_links := rt_links s; rt_procs := p; g_rt_rq := g_rt_rq s |}.
Definition with_rq (q : rt_rq) (s : rt) : rt := {| rt_links := rt_links s; rt_procs := rt_procs s; g_rt_rq := q |}.
Definition with_bitmap (bm : list Z) (q : rt_rq) : rt_rq :=
  {| bitmap := bm; nr_running := nr_running q; rt_nr_running := rt_nr_running q; highest_prio := highest_prio q |}.
Definition with_counts (n r : Z) (q : rt_rq) : rt_rq := {| bitmap := bitmap q; nr_running := n; rt_nr_running := r; highest_prio := highest_prio q |}.
Definition with_highest (h : Z) (q : rt_rq) : rt_rq :=
  {| bitmap := bitmap q; nr_running := nr_running q; rt_nr_running := rt_nr_running q; highest_prio := h |}.

Definition on_links {A} (f : M links A) : M rt A := zoom rt_links with_links f.
Definition proc (p : Z) : M rt rt_process := s ← get; deref (rt_procs s !! p).
Definition set_proc (p : Z) (r : rt_process) : M rt unit := modify (λ s, with_procs (<[p := r]> (rt_procs s)) s).
Definition set_rq (f : rt_rq → rt_rq) : M rt unit := modify (λ s, with_rq (f (g_rt_rq s)) s).

(** ** The bitmap *)

Definition set_bit (nr : Z) (addr : list Z) : option (list Z) :=
  w ← aget addr (nr / 32); aset addr (nr / 32) (Z.lor w (u32 (Z.shiftl 1 (nr mod 32)))).

Definition clear_bit (nr : Z) (addr : list Z) : option (list Z) :=
  w ← aget addr (nr / 32); aset addr (nr / 32) (Z.land w (u32 (Z.lnot (Z.shiftl 1 (nr mod 32))))).

Definition find_first_bit (addr : list Z) (size : Z) : M rt Z :=
  found ← for_ret (Z.to_nat ((size + 31) / 32)) 0 (λ i,
    w ← deref (aget addr i);
    if w =? 0 then mret None
    else for_ret 32 0 (λ j, mret (if negb (Z.land w (u32 (Z.shiftl 1 j)) =? 0) then Some (i * 32 + j) else None)));
  mret (default size found).

Definition rt_find_highest_prio (addr : list Z) : M rt Z :=
  idx ← find_first_bit addr MAX_RT_PRIO; mret (if idx <? MAX_RT_PRIO then idx else MAX_RT_PRIO).

Definition rt_prio_valid (prio : Z) : bool := (0 <=? prio) && (prio <=? 99).

Section RtSched.
Context (off queue : Z).

(** [(struct list_head * )&proc->next] and [&g_rt_rq.active.queue[prio]] *)
Definition node (p : Z) : Z := p + off.
Definition queue_at (prio : Z) : Z := queue + 8 * prio.

Definition rt_sched_init : M rt unit :=
  _ ← set_rq (λ _, {| bitmap := replicate 4 0; nr_running := 0; rt_nr_running := 0; highest_prio := 0 |});
  _ ← for_up (Z.to_nat MAX_RT_PRIO) 0 (λ i, on_links (INIT_LIST_HEAD (queue_at i)));
  _ ← for_up 4 0 (λ i, s ← get; bm ← deref (aset (bitmap (g_rt_rq s)) i 0); set_rq (with_bitmap bm));
  set_rq (λ q, with_highest MAX_RT_PRIO (with_counts 0 0 q)).

Definition rt_enqueue_task (p : Z) : M rt unit :=
  if p =? 0 then mret tt
  else
    r ← proc p;
    let prio := i32 (rt_priority r) in
    if negb (rt_prio_valid prio) then mret tt
    else
      _ ← on_links (list_add_tail (node p) (queue_at prio));
      s ← get;
      bm ← deref (set_bit prio (bitmap (g_rt_rq s)));
      _ ← set_rq (with_bitmap bm);
      _ ← set_rq (λ q, with_counts (u32 (nr_running q + 1)) (u32 (rt_nr_running q + 1)) q);
      set_rq (λ q, if prio <? highest_prio q then with_highest prio q else q).

Definition rt_dequeue_task (p : Z) : M rt unit :=
  if p =? 0 then mret tt
  else
    r ← proc p;
    let prio := i32 (rt_priority r) in
    if negb (rt_prio_valid prio) then mret tt
    else
      _ ← on_links (list_del (node p));
      e ← on_links (list_empty (queue_at prio));
      _ ← (if e : bool then s ← get; bm ← deref (clear_bit prio (bitmap (g_rt_rq s))); set_rq (with_bitmap bm) else mret tt);
      _ ← set_rq (λ q, with_counts (if 0 <? nr_running q then nr_running q - 1 else nr_running q)
                                   (if 0 <? rt_nr_running q then rt_nr_running q - 1 else rt_nr_running q) q);
      s ← get;
      h ← rt_find_highest_prio (bitmap (g_rt_rq s));
      set_rq (with_highest h).

(** 0 is the null pointer. *)
Definition rt_pick_next_task : M rt Z :=
  s ← get;
  if rt_nr_running (g_rt_rq s) =? 0 then mret 0
  else
    let prio := highest_prio (g_rt_rq s) in
    if MAX_RT_PRIO <=? prio then mret 0
    else
      e ← on_links (list_empty (queue_at prio));
      if e : bool then mret 0 else h ← on_links (load (queue_at prio)); mret (next h - off).

Definition rt_scheduler_tick (p : Z) : M rt unit :=
  if p =? 0 then mret tt
  else
    r ← proc p;
    if bool_decide (policy r ≠ SCHED_RR) then mret tt
    else
      let left := if 0 <? slice_left r then slice_left r - 1 else slice_left r in
      _ ← set_proc p {| policy := policy r; rt_priority := rt_priority r; slice_left := left |};
      if left =? 0 then
        _ ← on_links (list_del (node p));
        _ ← on_links (list_add_tail (node p) (queue_at (i32 (rt_priority r))));
        set_proc p {| policy := policy r; rt_priority := rt_priority r; slice_left := RR_TIMESLICE |}
      else mret tt.

Definition rt_check_preempt_curr (curr wakeup : Z) : M rt Z :=
  if (curr =? 0) || (wakeup =? 0) then mret 0
  else c ← proc curr; w ← proc wakeup; mret (if rt_priority w <? rt_priority c then 1 else 0).

Definition rt_set_priority (p rt_prio : Z) : M rt Z :=
  if p =? 0 then mret (-1)
  else if negb (rt_prio_valid rt_prio) then mret (-1)
  else r ← proc p; _ ← set_proc p {| policy := policy r; rt_priority := rt_prio; slice_left := slice_left r |}; mret 0.

Definition rt_get_priority (p : Z) : M rt Z := if p =? 0 then mret (-1) else r ← proc p; mret (i32 (rt_priority r)).
End RtSched.
