(* ===== verification/RtSpec.v ===== *)
(** * Real-time scheduler: correctness

    The run queue refines one hundred lists of processes.  Enqueueing appends to the
    list of the priority, picking takes the head of the first list that is not empty,
    and a process of the round-robin policy goes to the end of its list when its time
    slice ends, so that the processes of the first list take turns. *)

From S2P Require Import Prelude Bits ListHead RtSched.

#[local] Open Scope Z_scope.

(** ** The first list that is not empty *)

Fixpoint top (ls : list (list Z)) : Z :=
  match ls with
  | [] :: ls => 1 + top ls
  | _ => 0
  end.

Definition filled (ls : list (list Z)) (i : Z) : bool := match ls !! Z.to_nat i with Some (_ :: _) => true | _ => false end.

Lemma top_bounds ls : 0 ≤ top ls ≤ Z.of_nat (length ls).
Proof. induction ls as [|[|p l] ls IH]; cbn [top length]; lia. Qed.

Lemma top_filled ls i : 0 ≤ i < Z.of_nat (length ls) → filled ls i = true → top ls ≤ i.
Proof.
  revert i. induction ls as [|[|p l] ls IH]; intros i Hi Hf; cbn [top length] in *; [lia| |lia].
  destruct (decide (i = 0)) as [->|]; [done|]. specialize (IH (i - 1) ltac:(lia)). unfold filled in *.
  replace (Z.to_nat i) with (S (Z.to_nat (i - 1))) in Hf by lia. specialize (IH Hf). lia.
Qed.

Lemma top_lookup ls : top ls < Z.of_nat (length ls) → ∃ p l, ls !! Z.to_nat (top ls) = Some (p :: l).
Proof.
  induction ls as [|[|p l] ls IH]; cbn [top length]; intros Hlt; [lia| |by eauto].
  pose proof (top_bounds ls). destruct IH as (p & l & E); [lia|]. exists p, l. by replace (Z.to_nat (1 + top ls)) with (S (Z.to_nat (top ls))) by lia.
Qed.

Lemma top_unique ls k :
  0 ≤ k ≤ Z.of_nat (length ls) → (∀ i, 0 ≤ i < k → filled ls i = false) → (k < Z.of_nat (length ls) → filled ls k = true) → top ls = k.
Proof.
  intros Hk Hlow Hhit. pose proof (top_bounds ls). destruct (Z.lt_trichotomy (top ls) k) as [Hlt|[->|Hgt]]; [|done|].
  - destruct (top_lookup ls) as (p & l & E); [lia|]. specialize (Hlow (top ls) ltac:(lia)). unfold filled in Hlow. by rewrite E in Hlow.
  - pose proof (top_filled ls k ltac:(lia) (Hhit ltac:(lia))). lia.
Qed.

(** ** Searching the bitmap *)

Lemma first_bit_spec addr size s :
  0 ≤ size → (size + 31) / 32 = Z.of_nat (length addr) →
  ∃ v, find_first_bit addr size s = Ret (v, s) ∧
    ((0 ≤ v < 32 * Z.of_nat (length addr) ∧ bit addr v = true ∧ ∀ k, 0 ≤ k < v → bit addr k = false) ∨
     (v = size ∧ ∀ k, 0 ≤ k < 32 * Z.of_nat (length addr) → bit addr k = false)).
Proof.
  intros Hsz Hlen. unfold find_first_bit.
  set (Q := λ (i : Z) (o : option Z), match o with
    | Some v => i * 32 ≤ v < i * 32 + 32 ∧ bit addr v = true ∧ ∀ k, i * 32 ≤ k < v → bit addr k = false
    | None => ∀ k, i * 32 ≤ k < i * 32 + 32 → bit addr k = false end).
  match goal with |- ∃ v, (for_ret ?n 0 ?body ≫= _) s = _ ∧ _ => destruct (for_ret_rel Q body n 0 s) as (res & E & Hres) end.
  - intros i Hi. destruct (aget_Some addr i) as [w Hw]; [lia|]. rewrite Hw. run.
    assert (∀ k, i * 32 ≤ k < i * 32 + 32 → bit addr k = Z.testbit w (k - i * 32)) as Hbit.
    { intros k Hk. unfold bit. replace (k / 32) with i by dlia. replace (k mod 32) with (k - i * 32) by dlia.
      by rewrite (list_lookup_total_correct _ _ _ (aget_lookup _ _ _ Hw ltac:(lia))). }
    destruct (Z.eqb_spec w 0) as [->|Hw0].
    { exists None. split; [done|]. intros k Hk. rewrite Hbit by done. apply Z.bits_0. }
    destruct (for_ret_rel (λ j o, o = if Z.testbit w j then Some (i * 32 + j) else None)
      (λ j, mret (if negb (Z.land w (u32 (Z.shiftl 1 j)) =? 0) then Some (i * 32 + j) else None)) 32 0 s) as (o & E & Ho).
    { intros j Hj. eexists. split; [done|]. by rewrite mask_test by lia. }
    exists o. split; [done|]. destruct o as [v|]; cbn [Q].
    + destruct Ho as (j & Hj & Hv & Hlow). destruct (Z.testbit w j) eqn:Ht; [|done]. injection Hv as ->. split_and!; [lia | lia | |].
      * rewrite Hbit by lia. by replace (i * 32 + j - i * 32) with j by lia.
      * intros k Hk. rewrite Hbit by lia. specialize (Hlow (k - i * 32) ltac:(lia)). by destruct (Z.testbit w (k - i * 32)).
    + intros k Hk. rewrite Hbit by lia. specialize (Ho (k - i * 32) ltac:(lia)). by destruct (Z.testbit w (k - i * 32)).
  - rewrite (bind_Ret _ _ _ _ _ E). eexists. split; [done|]. rewrite Hlen in Hres. destruct res as [v|]; cbn [default from_option id].
    + left. destruct Hres as (i & Hi & (Hv & Hb & Hlow) & Hnone). split_and!; [lia | lia | done |]. intros k Hk.
      destruct (decide (i * 32 ≤ k)); [apply Hlow; lia|]. apply (Hnone (k / 32)); dlia.
    + right. split; [done|]. intros k Hk. apply (Hres (k / 32)); dlia.
Qed.

Section bitmap.
Context (addr : list Z) (k : Z) (Hlen : length addr = 4%nat) (Hw : Forall (λ w, 0 ≤ w < 2 ^ 32) addr) (Hk : 0 ≤ k < 100).

Lemma word_of_bit : ∃ w, aget addr (k / 32) = Some w ∧ addr !!! Z.to_nat (k / 32) = w ∧ 0 ≤ w < 2 ^ 32.
Proof.
  destruct (aget_Some addr (k / 32)) as [w E]; [dlia|]. exists w. split; [done|]. pose proof (aget_lookup _ _ _ E ltac:(dlia)) as El.
  split; [by apply list_lookup_total_correct | exact (Forall_lookup_1 _ _ _ _ Hw El)].
Qed.

Lemma set_bit_spec :
  ∃ a, set_bit k addr = Some a ∧ length a = 4%nat ∧ Forall (λ w, 0 ≤ w < 2 ^ 32) a ∧ ∀ i, 0 ≤ i → bit a i = (i =? k) || bit addr i.
Proof.
  destruct word_of_bit as (w & E & Et & Hwb). unfold set_bit. rewrite E. cbn. rewrite aset_Some by dlia. eexists. split; [done|].
  rewrite length_insert. split_and!; [done | apply Forall_insert; auto with words |]. intros i Hi. rewrite <- Et. apply bit_set; dlia.
Qed.

Lemma clear_bit_spec :
  ∃ a, clear_bit k addr = Some a ∧ length a = 4%nat ∧ Forall (λ w, 0 ≤ w < 2 ^ 32) a ∧ ∀ i, 0 ≤ i → bit a i = negb (i =? k) && bit addr i.
Proof.
  destruct word_of_bit as (w & E & Et & Hwb). unfold clear_bit. rewrite E. cbn. rewrite aset_Some by dlia. eexists. split; [done|].
  rewrite length_insert. split_and!; [done | apply Forall_insert; auto with words |]. intros i Hi. rewrite <- Et. apply bit_clear; dlia.
Qed.
End bitmap.

(** With bits for the lists that are not empty, the search gives the first of them. *)
Lemma find_highest_spec addr ls s :
  length addr = 4%nat → length ls = 100%nat → (∀ i, 0 ≤ i < 128 → bit addr i = filled ls i) → rt_find_highest_prio addr s = Ret (top ls, s).
Proof.
  intros Hlen Hls Hbits. destruct (first_bit_spec addr 100 s) as (v & E & Hv); [lia | by rewrite Hlen|].
  unfold rt_find_highest_prio. rewrite (bind_Ret _ _ _ _ _ E), mret_eq. do 2 f_equal. symmetry. rewrite Hlen in Hv.
  destruct Hv as [(Hv & Hb & Hlow)|[-> Hnone]].
  - assert (v < 100) as Hv1.
    { rewrite Hbits in Hb by lia. unfold filled in Hb. destruct (ls !! Z.to_nat v) eqn:El; [|done]. apply lookup_lt_Some in El. lia. }
    rewrite (proj2 (Z.ltb_lt v 100)) by done. apply top_unique; [lia | |].
    + intros i Hi. rewrite <- Hbits by lia. by apply Hlow.
    + intros _. by rewrite <- Hbits by lia.
  - apply top_unique; cbn; [lia | | lia]. intros i Hi. rewrite <- Hbits by lia. apply Hnone. lia.
Qed.

Section RtSpec.
Context (off queue : Z).
Abbreviation node := (node off).
Abbreviation queue_at := (queue_at queue).

(** The links and the processes hold the lists. *)
Record holds (m : links) (procs : gmap Z rt_process) (ls : list (list Z)) : Prop := {
  ho_len : length ls = 100%nat;
  ho_rings : ∀ i l, ls !! i = Some l → ring m (queue_at (Z.of_nat i)) (node <$> l);
  ho_apart : ∀ i l p j, ls !! i = Some l → p ∈ l → 0 ≤ j < 100 → node p ≠ queue_at j;
  ho_procs : ∀ i l p, ls !! i = Some l → p ∈ l → p ≠ 0 ∧ ∃ r, procs !! p = Some r ∧ rt_priority r = Z.of_nat i;
}.

(** Bitmap, counters and the highest priority agree with them. *)
Record rq_ok (q : rt_rq) (ls : list (list Z)) : Prop := {
  rq_words : length (bitmap q) = 4%nat ∧ Forall (λ w, 0 ≤ w < 2 ^ 32) (bitmap q);
  rq_bits : ∀ i, 0 ≤ i < 128 → bit (bitmap q) i = filled ls i;
  rq_count : nr_running q = Z.of_nat (length (concat ls)) ∧ rt_nr_running q = Z.of_nat (length (concat ls));
  rq_fits : Z.of_nat (length (concat ls)) < 2 ^ 32;
  rq_highest : highest_prio q = top ls;
}.

Definition rt_ok (s : rt) (ls : list (list Z)) : Prop := holds (rt_links s) (rt_procs s) ls ∧ rq_ok (g_rt_rq s) ls.

Definition queued (ls : list (list Z)) (p : Z) : Prop := ∃ i l, ls !! i = Some l ∧ p ∈ l.

Lemma filled_insert ls k l i :
  (k < length ls)%nat → 0 ≤ i → filled (<[k := l]> ls) i = if i =? Z.of_nat k then (match l with [] => false | _ => true end) else filled ls i.
Proof.
  intros Hk Hi. unfold filled. destruct (Z.eqb_spec i (Z.of_nat k)) as [->|Hne].
  - rewrite Nat2Z.id, list_lookup_insert_eq by done. by destruct l.
  - by rewrite list_lookup_insert_ne by lia.
Qed.

(** One list changes: its old and its new processes, and the links elsewhere. *)
Lemma holds_update m m' procs procs' ls k l l' :
  holds m procs ls → ls !! k = Some l → ring m' (queue_at (Z.of_nat k)) (node <$> l') →
  (∀ x, x ∉ queue_at (Z.of_nat k) :: (node <$> l ++ l') → m' !! x = m !! x) →
  (∀ p, p ∈ l' → p ∈ l ∨ (p ≠ 0 ∧ (∃ r, procs !! p = Some r ∧ rt_priority r = Z.of_nat k) ∧ ∀ j, 0 ≤ j < 100 → node p ≠ queue_at j)) →
  (∀ p r, procs !! p = Some r → ∃ r', procs' !! p = Some r' ∧ rt_priority r' = rt_priority r) →
  holds m' procs' (<[k := l']> ls).
Proof.
  intros [Hlen Hr Hap Hpr] Hk Hring Hf Hnew Hprocs. pose proof (lookup_lt_Some _ _ _ Hk) as Hlt.
  assert (∀ p, p ∈ l ++ l' → p ≠ 0 ∧ (∃ r, procs !! p = Some r ∧ rt_priority r = Z.of_nat k) ∧ ∀ j, 0 ≤ j < 100 → node p ≠ queue_at j) as Hmem.
  { intros p [Hp|[Hp|?]%Hnew]%elem_of_app; [| |done]; destruct (Hpr k l p Hk Hp); eauto. }
  split.
  - by rewrite length_insert.
  - intros i l0 Hi. destruct (decide (i = k)) as [->|Hne]; [rewrite list_lookup_insert_eq in Hi by done; by injection Hi as <-|].
    rewrite list_lookup_insert_ne in Hi by done. apply (ring_frame m); [|by apply Hr]. pose proof (lookup_lt_Some _ _ _ Hi) as Hilt.
    intros x Hx. apply Hf. intros [->|(p & -> & Hp)%list_elem_of_fmap]%elem_of_cons.
    + apply elem_of_cons in Hx as [E|(p & E & Hp)%list_elem_of_fmap]; [unfold RtSched.queue_at in E; lia|].
      by apply (Hap i l0 p (Z.of_nat k) Hi Hp ltac:(lia)).
    + destruct (Hmem p Hp) as (_ & (r & E1 & E2) & Hh). apply elem_of_cons in Hx as [E|(p' & E & Hp')%list_elem_of_fmap].
      * by apply (Hh (Z.of_nat i) ltac:(lia)).
      * assert (p = p') as <- by (unfold RtSched.node in E; lia). destruct (Hpr i l0 p Hi Hp') as (_ & r' & E3 & E4). rewrite E1 in E3. injection E3 as ->. lia.
  - intros i l0 p j Hi Hp. destruct (decide (i = k)) as [->|Hne]; [|rewrite list_lookup_insert_ne in Hi by done; by eapply Hap].
    rewrite list_lookup_insert_eq in Hi by done. injection Hi as <-. apply (Hmem p). apply elem_of_app. by right.
  - intros i l0 p Hi Hp. assert (p ≠ 0 ∧ ∃ r, procs !! p = Some r ∧ rt_priority r = Z.of_nat i) as (H0 & r & E1 & E2).
    { destruct (decide (i = k)) as [->|Hne]; [|rewrite list_lookup_insert_ne in Hi by done; by eapply Hpr].
      rewrite list_lookup_insert_eq in Hi by done. injection Hi as <-. destruct (Hmem p) as (? & ? & _); [|done]. apply elem_of_app. by right. }
    split; [done|]. destruct (Hprocs p r E1) as (r' & ? & ?). exists r'. split; [done | congruence].
Qed.

Lemma top_fill ls k l : (k < length ls)%nat → l ≠ [] → top (<[k := l]> ls) = if Z.of_nat k <? top ls then Z.of_nat k else top ls.
Proof.
  intros Hk Hl. pose proof (top_bounds ls). pose proof (top_filled ls) as Hf.
  apply top_unique; rewrite ?length_insert.
  - destruct (Z.ltb_spec (Z.of_nat k) (top ls)); lia.
  - intros i Hi. rewrite filled_insert by lia. destruct (Z.eqb_spec i (Z.of_nat k)), (Z.ltb_spec (Z.of_nat k) (top ls)); try lia;
      (destruct (filled ls i) eqn:E; [|done]; specialize (Hf i ltac:(lia) E); lia).
  - intros Hlt. destruct (Z.ltb_spec (Z.of_nat k) (top ls)) as [Hc|Hc].
    + rewrite filled_insert, Z.eqb_refl by lia. by destruct l.
    + rewrite filled_insert by lia. destruct (Z.eqb_spec (top ls) (Z.of_nat k)); [by destruct l|].
      destruct (top_lookup ls) as (p & l0 & E); [lia|]. unfold filled. by rewrite E.
Qed.

Lemma rt_enqueue_spec s ls p r k l :
  rt_ok s ls → p ≠ 0 → rt_procs s !! p = Some r → rt_priority r = Z.of_nat k → ls !! k = Some l → ¬ queued ls p →
  node p ∈ dom (rt_links s) → (∀ j, 0 ≤ j < 100 → node p ≠ queue_at j) → Z.of_nat (length (concat ls)) + 1 < 2 ^ 32 →
  ∃ s', rt_enqueue_task off queue p s = Ret (tt, s') ∧ rt_ok s' (<[k := l ++ [p]]> ls) ∧ rt_procs s' = rt_procs s ∧ dom (rt_links s') = dom (rt_links s).
Proof.
  intros [Hh [[Hb4 Hbw] Hbits [Hc1 Hc2] Hfit Hhi]] Hp Hpp Hprio Hl Hq Hdom Happ Hroom. pose proof (ho_len _ _ _ Hh) as Hlen.
  pose proof (lookup_lt_Some _ _ _ Hl) as Hk. assert (node p ∉ queue_at (Z.of_nat k) :: (node <$> l)) as Hnew.
  { intros [E|(p' & E & Hp')%list_elem_of_fmap]%elem_of_cons; [by apply (Happ (Z.of_nat k)); [lia|]|].
    assert (p = p') as <- by (unfold RtSched.node in E; lia). apply Hq. by exists k, l. }
  destruct (list_add_tail_makes _ _ _ _ (ho_rings _ _ _ Hh k l Hl) Hnew Hdom) as (m' & Em & Hring & Hdom' & Hf).
  destruct (set_bit_spec (bitmap (g_rt_rq s)) (Z.of_nat k) Hb4 Hbw ltac:(lia)) as (a & Ea & Ha4 & Haw & Habits).
  assert (i32 (rt_priority r) = Z.of_nat k) as Ei by (rewrite Hprio; apply i32_small; lia).
  unfold rt_enqueue_task. rewrite (proj2 (Z.eqb_neq p 0)) by done. unfold proc. run. rewrite Hpp. run. rewrite Ei. unfold rt_prio_valid.
  rewrite !(proj2 (Z.leb_le _ _)) by lia. cbn [andb negb].
  rewrite (bind_Ret _ _ _ _ _ (zoom_Ret rt_links with_links _ s _ _ Em)). run. cbn [g_rt_rq with_links]. rewrite Ea. unfold set_rq. run.
  eexists. split; [done|]. split; [|done]. pose proof (length_concat_insert ls k l (l ++ [p]) Hl) as Hcl. rewrite length_app in Hcl. cbn [length] in Hcl.
  split.
  - apply (holds_update (rt_links s) m' (rt_procs s) (rt_procs s) ls k l (l ++ [p]) Hh Hl).
    + by rewrite fmap_app.
    + intros x Hx. apply Hf. rewrite !fmap_app in Hx. set_solver.
    + intros q [?| ->%list_elem_of_singleton]%elem_of_app; [by left|]. right. split_and!; [done | by exists r | done].
    + eauto.
  - cbn. rewrite Hhi. split; destruct (Z.of_nat k <? top ls) eqn:Et; cbn; try done.
    all: try (intros i Hi; rewrite Habits, Hbits, filled_insert by lia; destruct (Z.eqb_spec i (Z.of_nat k)); [by destruct l | done]).
    all: try (rewrite Hc1, Hc2, !u32_small by lia; lia). all: try lia.
    all: rewrite top_fill by (done || by destruct l); by rewrite Et.
Qed.
Lemma rt_dequeue_spec s ls p k l1 l2 :
  rt_ok s ls → ls !! k = Some (l1 ++ p :: l2) →
  ∃ s', rt_dequeue_task off queue p s = Ret (tt, s') ∧ rt_ok s' (<[k := l1 ++ l2]> ls) ∧ rt_procs s' = rt_procs s ∧ dom (rt_links s') = dom (rt_links s).
Proof.
  intros [Hh [[Hb4 Hbw] Hbits [Hc1 Hc2] Hfit Hhi]] Hl. pose proof (ho_len _ _ _ Hh) as Hlen. pose proof (lookup_lt_Some _ _ _ Hl) as Hk.
  destruct (ho_procs _ _ _ Hh k _ p Hl) as (Hp & r & Hpp & Hprio); [set_solver|].
  pose proof (ho_rings _ _ _ Hh k _ Hl) as Hring. rewrite fmap_app, fmap_cons in Hring.
  destruct (list_del_makes _ _ _ _ _ Hring) as (m' & Em & Hring' & _ & Hdom' & Hf). rewrite <- fmap_app in Hring'.
  assert (i32 (rt_priority r) = Z.of_nat k) as Ei by (rewrite Hprio; apply i32_small; lia).
  assert (list_empty (queue_at (Z.of_nat k)) m' = Ret (bool_decide (l1 ++ l2 = []), m')) as Ee.
  { unfold list_empty. rewrite (bind_Ret _ _ _ _ _ (load_head _ _ _ Hring')), mret_eq. cbn [ListHead.next]. do 2 f_equal.
    destruct Hring' as [Hnd _]. destruct (l1 ++ l2) as [|q l]; cbn; [by rewrite Z.eqb_refl|]. apply Z.eqb_neq. intros E.
    apply NoDup_cons in Hnd as [Hnd _]. apply Hnd. rewrite fmap_cons, <- E. left. }
  pose proof (length_concat_insert ls k _ (l1 ++ l2) Hl) as Hcl. rewrite !length_app in Hcl. cbn [length] in Hcl.
  unfold rt_dequeue_task. rewrite (proj2 (Z.eqb_neq p 0)) by done. unfold proc. run. rewrite Hpp. run. rewrite Ei. unfold rt_prio_valid.
  rewrite !(proj2 (Z.leb_le _ _)) by lia. cbn [andb negb].
  rewrite (bind_Ret _ _ _ _ _ (zoom_Ret rt_links with_links _ s _ _ Em)).
  rewrite (bind_Ret _ _ _ _ _ (zoom_Ret rt_links with_links _ (with_links m' s) _ _ Ee)).
  assert (∃ a s1, (if bool_decide (l1 ++ l2 = []) then s ← get; bm ← deref (clear_bit (Z.of_nat k) (bitmap (g_rt_rq s))); set_rq (with_bitmap bm) else mret tt)
      (with_links m' (with_links m' s)) = Ret (tt, s1) ∧ s1 = with_rq (with_bitmap a (g_rt_rq s)) (with_links m' s) ∧
      length a = 4%nat ∧ Forall (λ w, 0 ≤ w < 2 ^ 32) a ∧ ∀ i, 0 ≤ i < 128 → bit a i = filled (<[k := l1 ++ l2]> ls) i) as (a & s1 & E1 & -> & Ha4 & Haw & Hab).
  { case_bool_decide as Hem.
    - destruct (clear_bit_spec (bitmap (g_rt_rq s)) (Z.of_nat k) Hb4 Hbw ltac:(lia)) as (a & Ea & Ha4 & Haw & Habits). exists a. run. cbn [g_rt_rq with_links].
      rewrite Ea. run. eexists. split_and!; [done | done | done | done |]. intros i Hi. rewrite Habits, Hbits, filled_insert, Hem by lia. by destruct (i =? _).
    - exists (bitmap (g_rt_rq s)). eexists. split_and!; [done | by destruct s as [? ? []] | done | done |]. intros i Hi. rewrite Hbits, filled_insert by lia.
      destruct (Z.eqb_spec i (Z.of_nat k)) as [->|]; [|done]. unfold filled. rewrite Nat2Z.id, Hl. by destruct l1, l2. }
  rewrite (bind_Ret _ _ _ _ _ E1). unfold set_rq. run. cbn [g_rt_rq with_rq bitmap with_bitmap with_counts].
  rewrite (bind_Ret _ _ _ _ _ (find_highest_spec a (<[k := l1 ++ l2]> ls) _ Ha4 ltac:(by rewrite length_insert) Hab)).
  eexists. split; [done|]. split; [|done]. split; cbn.
  - apply (holds_update (rt_links s) m' (rt_procs s) (rt_procs s) ls k _ (l1 ++ l2) Hh Hl Hring'); [|set_solver | eauto].
    intros x Hx. apply Hf. rewrite !fmap_app, fmap_cons in Hx. set_solver.
  - rewrite Hc1, Hc2. split; cbn; [done | done | rewrite (proj2 (Z.ltb_lt 0 _)) by lia; lia | lia | done].
Qed.

Lemma rt_pick_spec s ls :
  rt_ok s ls → rt_pick_next_task off queue s = Ret (default 0 (head (concat ls)), s).
Proof.
  intros [Hh [_ _ [_ Hc2] Hfit Hhi]]. pose proof (ho_len _ _ _ Hh) as Hlen. pose proof (top_bounds ls) as Htb.
  unfold rt_pick_next_task. run. rewrite Hc2, Hhi. cbv zeta.
  assert (∀ ls : list (list Z), top ls = Z.of_nat (length ls) → concat ls = []) as Hnone.
  { intros l. induction l as [|[|p l] ls' IH]; cbn [top length concat app]; [done | intros; apply IH; lia | lia]. }
  assert (∀ ls k p l, top ls = Z.of_nat k → ls !! k = Some (p :: l) → head (concat ls) = Some p) as Hsome.
  { intros l. induction l as [|[|q l] ls' IH]; intros k p l0 Ht Hk; cbn [top concat app] in *; [done| |].
    - destruct k as [|k]; [done|]. apply (IH k p l0); [lia | done].
    - destruct k; [by injection Hk as -> | lia]. }
  destruct (Z.leb_spec 100 (top ls)) as [Ht|Ht].
  { rewrite (Hnone ls) by lia. by destruct (_ =? 0). }
  destruct (top_lookup ls) as (p & l & E); [lia|]. rewrite (Hsome ls (Z.to_nat (top ls)) p l ltac:(lia) E).
  pose proof (length_concat_lookup ls _ _ E) as Hcl. cbn [length] in Hcl. rewrite (proj2 (Z.eqb_neq _ 0)) by lia.
  pose proof (ho_rings _ _ _ Hh _ _ E) as Hring. rewrite Z2Nat.id, fmap_cons in Hring by lia.
  assert (list_empty (queue_at (top ls)) (rt_links s) = Ret (false, rt_links s)) as Ee.
  { unfold list_empty. rewrite (bind_Ret _ _ _ _ _ (load_head _ _ _ Hring)), mret_eq. do 2 f_equal. cbn. apply Z.eqb_neq.
    apply (ho_apart _ _ _ Hh _ _ p (top ls) E); [set_solver | lia]. }
  rewrite (bind_Ret _ _ _ _ _ (zoom_Ret rt_links with_links _ s _ _ Ee)).
  rewrite (bind_Ret _ _ _ _ _ (zoom_Ret rt_links with_links _ (with_links (rt_links s) s) _ _ (load_head _ _ _ Hring))), mret_eq.
  cbn. unfold RtSched.node. do 2 f_equal; [lia | by destruct s].
Qed.
(** The process after a tick in which its slice has not ended, and with a new slice. *)
Definition with_slice (n : Z) (r : rt_process) : rt_process := {| policy := policy r; rt_priority := rt_priority r; slice_left := n |}.

Lemma procs_slice (procs : gmap Z rt_process) p r n :
  procs !! p = Some r → ∀ q x, procs !! q = Some x → ∃ x', <[p := with_slice n r]> procs !! q = Some x' ∧ rt_priority x' = rt_priority x.
Proof.
  intros Hp q x Hq. destruct (decide (p = q)) as [<-|]; [rewrite lookup_insert_eq | rewrite lookup_insert_ne by done; eauto].
  eexists. split; [done|]. cbn. congruence.
Qed.

Lemma rt_tick_fifo s p r : p ≠ 0 → rt_procs s !! p = Some r → policy r ≠ SCHED_RR → rt_scheduler_tick off queue p s = Ret (tt, s).
Proof.
  intros Hp Hr Hpol. unfold rt_scheduler_tick, proc. rewrite (proj2 (Z.eqb_neq p 0)) by done. run. rewrite Hr. run. by rewrite bool_decide_true.
Qed.

Lemma rt_tick_runs s ls p k l r :
  rt_ok s ls → ls !! k = Some l → p ∈ l → rt_procs s !! p = Some r → policy r = SCHED_RR → 1 < slice_left r →
  ∃ s', rt_scheduler_tick off queue p s = Ret (tt, s') ∧ rt_ok s' ls ∧ rt_procs s' = <[p := with_slice (slice_left r - 1) r]> (rt_procs s).
Proof.
  intros [Hh Hq] Hl Hp Hr Hpol Hs. destruct (ho_procs _ _ _ Hh k l p Hl Hp) as [H0 _]. unfold rt_scheduler_tick, proc, set_proc.
  rewrite (proj2 (Z.eqb_neq p 0)) by done. run. rewrite Hr. run. rewrite bool_decide_false by (intros ?; done).
  rewrite (proj2 (Z.ltb_lt 0 (slice_left r))), (proj2 (Z.eqb_neq (slice_left r - 1) 0)) by lia. run. eexists. split; [done|]. split; [|done].
  split; [|done]. pose proof (holds_update (rt_links s) (rt_links s) (rt_procs s) (<[p := with_slice (slice_left r - 1) r]> (rt_procs s)) ls k l l Hh Hl) as Hu.
  rewrite list_insert_id in Hu by done. apply Hu; [by eapply ho_rings | done | by left | by apply procs_slice].
Qed.

Lemma rt_tick_ends s ls p k l1 l2 r :
  rt_ok s ls → ls !! k = Some (l1 ++ p :: l2) → rt_procs s !! p = Some r → policy r = SCHED_RR → 0 ≤ slice_left r ≤ 1 →
  ∃ s', rt_scheduler_tick off queue p s = Ret (tt, s') ∧ rt_ok s' (<[k := (l1 ++ l2) ++ [p]]> ls) ∧ rt_procs s' = <[p := with_slice 100 r]> (rt_procs s).
Proof.
  intros [Hh Hq] Hl Hr Hpol Hs. pose proof (ho_len _ _ _ Hh) as Hlen. pose proof (lookup_lt_Some _ _ _ Hl) as Hk.
  destruct (ho_procs _ _ _ Hh k _ p Hl) as (H0 & r' & Hr' & Hprio); [set_solver|]. rewrite Hr in Hr'. injection Hr' as <-.
  pose proof (ho_rings _ _ _ Hh k _ Hl) as Hring. rewrite fmap_app, fmap_cons in Hring. destruct (ring_mid _ _ _ _ _ Hring) as [Hdom Hnew].
  destruct (list_del_makes _ _ _ _ _ Hring) as (m1 & E1 & Hring1 & _ & Hdom1 & Hf1). rewrite <- Hdom1 in Hdom.
  destruct (list_add_tail_makes _ _ _ _ Hring1 Hnew Hdom) as (m2 & E2 & Hring2 & Hdom2 & Hf2).
  assert (i32 (rt_priority r) = Z.of_nat k) as Ei by (rewrite Hprio; apply i32_small; lia).
  unfold rt_scheduler_tick, proc, set_proc. rewrite (proj2 (Z.eqb_neq p 0)) by done. run. rewrite Hr. run. rewrite bool_decide_false by (intros ?; done).
  cbv zeta. run. replace ((if 0 <? slice_left r then slice_left r - 1 else slice_left r) =? 0) with true
    by (symmetry; apply Z.eqb_eq; destruct (Z.ltb_spec 0 (slice_left r)); lia).
  set (s0 := with_procs _ s). rewrite (bind_Ret _ _ _ _ _ (zoom_Ret rt_links with_links _ s0 _ _ E1)), Ei.
  rewrite (bind_Ret _ _ _ _ _ (zoom_Ret rt_links with_links _ (with_links m1 s0) _ _ E2)). eexists. split; [done|]. cbn.
  rewrite insert_insert_eq. split; [|done]. rewrite <- fmap_app in *. split; cbn.
  - apply (holds_update (rt_links s) m2 (rt_procs s) _ ls k _ ((l1 ++ l2) ++ [p]) Hh Hl); [by rewrite fmap_app | | set_solver | by apply (procs_slice _ _ _ 100)].
    intros x Hx. rewrite !fmap_app, fmap_cons in Hx. rewrite Hf2, Hf1; [done | set_solver |]. rewrite fmap_app. set_solver.
  - destruct Hq as [Hw Hbits Hc Hfit Hhi]. pose proof (length_concat_insert ls k _ ((l1 ++ l2) ++ [p]) Hl) as Hcl.
    rewrite !length_app in Hcl. cbn [length] in Hcl. split; cbn; [done | | lia | lia |].
    + intros i Hi. rewrite Hbits, filled_insert by lia. destruct (Z.eqb_spec i (Z.of_nat k)) as [->|]; [|done]. unfold filled. rewrite Nat2Z.id, Hl. by destruct l1, l2.
    + rewrite top_fill by (done || by destruct l1, l2). pose proof (top_filled ls (Z.of_nat k) ltac:(lia)) as Ht. rewrite (proj2 (Z.ltb_ge _ _)); [done|].
      apply Ht. unfold filled. rewrite Nat2Z.id, Hl. by destruct l1.
Qed.

(** ** Ticks of the clock *)

(** At every tick the scheduler picks a process, which runs and is charged. *)
Fixpoint ticks (n : nat) : M rt (list Z) :=
  match n with
  | O => mret []
  | S n => p ← rt_pick_next_task off queue; _ ← rt_scheduler_tick off queue p; l ← ticks n; mret (p :: l)
  end.

Lemma pick_top s ls k p l : rt_ok s ls → top ls = Z.of_nat k → ls !! k = Some (p :: l) → rt_pick_next_task off queue s = Ret (p, s).
Proof.
  intros Hok Ht Hk. rewrite (rt_pick_spec s ls Hok). do 2 f_equal. clear Hok. revert k Ht Hk.
  induction ls as [|[|q l0] ls IH]; intros k Ht Hk; cbn [top concat app] in *; [done| |].
  - destruct k as [|k]; [done|]. apply (IH k); [lia | done].
  - destruct k; [by injection Hk as -> _ | lia].
Qed.

Lemma ticks_app n m s l1 s1 l2 s2 : ticks n s = Ret (l1, s1) → ticks m s1 = Ret (l2, s2) → ticks (n + m) s = Ret (l1 ++ l2, s2).
Proof.
  revert s l1. induction n as [|n IH]; intros s l1 E1 E2; cbn [ticks Nat.add] in *; [by injection E1 as <- <-|].
  apply bind_Ret_inv in E1 as (p & t & Ep & E1). rewrite (bind_Ret _ _ _ _ _ Ep). apply bind_Ret_inv in E1 as ([] & t' & Et & E1).
  rewrite (bind_Ret _ _ _ _ _ Et). apply bind_Ret_inv in E1 as (l & t'' & El & E1). rewrite mret_eq in E1. injection E1 as <- ->.
  by rewrite (bind_Ret _ _ _ _ _ (IH _ _ El E2)).
Qed.
(** A slice: the process at the front runs until its slice ends, and goes to the back. *)
Lemma slice_runs n s ls k p l r :
  rt_ok s ls → top ls = Z.of_nat k → ls !! k = Some (p :: l) → rt_procs s !! p = Some r → policy r = SCHED_RR → slice_left r = Z.of_nat (S n) →
  ∃ s', ticks (S n) s = Ret (replicate (S n) p, s') ∧ rt_ok s' (<[k := l ++ [p]]> ls) ∧ rt_procs s' = <[p := with_slice 100 r]> (rt_procs s).
Proof.
  revert s r. induction n as [|n IH]; intros s r Hok Ht Hk Hr Hpol Hs; cbn [ticks]; rewrite (bind_Ret _ _ _ _ _ (pick_top s ls k p l Hok Ht Hk)).
  - destruct (rt_tick_ends s ls p k [] l r Hok Hk Hr Hpol ltac:(lia)) as (s' & E & Hok' & Hp'). exists s'.
    by rewrite (bind_Ret _ _ _ _ _ E).
  - destruct (rt_tick_runs s ls p k (p :: l) r Hok Hk ltac:(left) Hr Hpol ltac:(lia)) as (s1 & E & Hok1 & Hp1). rewrite (bind_Ret _ _ _ _ _ E).
    destruct (IH s1 (with_slice (slice_left r - 1) r) Hok1 Ht Hk) as (s' & E' & Hok' & Hp'); [by rewrite Hp1, lookup_insert_eq | done | cbn; lia |].
    exists s'. rewrite (bind_Ret _ _ _ _ _ E'). split_and!; [done | done |]. by rewrite Hp', Hp1, insert_insert_eq.
Qed.

Lemma rounds todo : ∀ behind s ls k,
  rt_ok s ls → top ls = Z.of_nat k → ls !! k = Some (todo ++ behind) →
  (∀ p, p ∈ todo → ∃ r, rt_procs s !! p = Some r ∧ policy r = SCHED_RR ∧ slice_left r = 100) →
  ∃ s', ticks (100 * length todo) s = Ret (concat (replicate 100 <$> todo), s') ∧ rt_ok s' (<[k := behind ++ todo]> ls) ∧ rt_procs s' = rt_procs s.
Proof.
  induction todo as [|p todo IH]; intros behind s ls k Hok Ht Hk Hall.
  - exists s. rewrite app_nil_r, list_insert_id by done. done.
  - destruct (Hall p) as (r & Hr & Hpol & Hs); [left|]. pose proof (lookup_lt_Some _ _ _ Hk) as Hlt.
    destruct (slice_runs 99 s ls k p (todo ++ behind) r Hok Ht Hk Hr Hpol ltac:(lia)) as (s1 & E1 & Hok1 & Hp1).
    replace (with_slice 100 r) with r in Hp1 by (rewrite <- Hs; by destruct r). rewrite insert_id in Hp1 by done. rewrite <- app_assoc in Hok1.
    destruct (IH (behind ++ [p]) s1 _ k Hok1) as (s2 & E2 & Hok2 & Hp2).
    + rewrite top_fill by (done || by destruct todo, behind). by rewrite Ht, Z.ltb_irrefl.
    + by rewrite list_lookup_insert_eq.
    + intros q Hq. rewrite Hp1. apply Hall. by right.
    + exists s2. rewrite list_insert_insert_eq, <- app_assoc in Hok2. split_and!; [|done | congruence].
      replace (100 * length (p :: todo))%nat with (100 + 100 * length todo)%nat by (cbn [length]; lia). exact (ticks_app _ _ _ _ _ _ _ E1 E2).
Qed.

Lemma rt_init_spec s :
  (∀ i, 0 ≤ i < 100 → queue_at i ∈ dom (rt_links s)) →
  ∃ s', rt_sched_init queue s = Ret (tt, s') ∧ rt_ok s' (replicate 100 []) ∧ rt_procs s' = rt_procs s ∧ dom (rt_links s') = dom (rt_links s).
Proof.
  intros Hdom. set (q0 := {| bitmap := replicate 4 0; nr_running := 0; rt_nr_running := 0; highest_prio := 0 |}).
  destruct (for_up_inv (λ i t, g_rt_rq t = q0 ∧ rt_procs t = rt_procs s ∧ dom (rt_links t) = dom (rt_links s) ∧ ∀ j, 0 ≤ j < i → ring (rt_links t) (queue_at j) [])
    (λ i, on_links (INIT_LIST_HEAD (queue_at i))) (Z.to_nat 100) 0 (with_rq q0 s)) as (s1 & E1 & Hq1 & Hp1 & Hd1 & Hr1).
  { split_and!; try done. intros; lia. }
  { intros j t Hj (Hq & Hp & Hd & Hr). destruct (INIT_LIST_HEAD_makes (rt_links t) (queue_at j)) as (m' & Em & Hring & Hdm & Hf).
    { rewrite Hd. apply Hdom. lia. }
    exists (with_links m' t). split; [exact (zoom_Ret rt_links with_links _ t _ _ Em)|]. cbn. split_and!; [done | done | congruence|].
    intros j' Hj'. destruct (decide (j' = j)) as [->|]; [done|]. apply (ring_frame (rt_links t)); [|apply Hr; lia].
    intros x ->%list_elem_of_singleton. apply Hf. rewrite list_elem_of_singleton. unfold RtSched.queue_at. lia. }
  destruct (for_up_inv (λ i t, t = s1) (λ i, s ← get; bm ← deref (aset (bitmap (g_rt_rq s)) i 0); set_rq (with_bitmap bm)) 4 0 s1) as (s2 & E2 & ->); [done| |].
  { intros j t Hj ->. exists s1. split; [|done]. run. rewrite Hq1. cbn [bitmap q0]. rewrite aset_Some by (cbn; lia). run.
    unfold set_rq, modify, with_rq, with_bitmap. destruct s1 as [m1 p1 q1]. cbn in *. subst q1. do 4 f_equal. unfold q0. cbn.
    rewrite list_insert_id; [done|]. change [0; 0; 0; 0] with (replicate 4 0). apply lookup_replicate. split; [done | lia]. }
  exists (with_rq (with_highest 100 (with_counts 0 0 q0)) s1). split.
  { unfold rt_sched_init, set_rq. run. cbn [with_rq]. rewrite (bind_Ret _ _ _ _ _ E1), (bind_Ret _ _ _ _ _ E2). unfold modify. by rewrite Hq1. }
  split; [|done]. split.
  - assert (∀ i l, (replicate 100 [] : list (list Z)) !! i = Some l → l = [] ∧ (i < 100)%nat) as Hrep by (intros i l H%lookup_replicate; tauto).
    split; [done | | by intros i l p j [-> _]%Hrep ?%not_elem_of_nil | by intros i l p [-> _]%Hrep ?%not_elem_of_nil].
    intros i l [-> Hi]%Hrep. apply Hr1. lia.
  - split; [split; [done | by repeat constructor] | | done | done | done]. intros i Hi. unfold filled, bit. cbn [bitmap with_rq g_rt_rq with_highest with_counts q0].
    rewrite lookup_total_replicate_2 by dlia. rewrite Z.bits_0. destruct (replicate 100 [] !! Z.to_nat i) as [l|] eqn:E; [|done].
    apply lookup_replicate in E as [-> _]. done.
Qed.

(** C28: Real-time processes of the round-robin policy share the processor fairly, when a
    process is picked and charged at every tick, which [ticks] does and nothing in the
    kernel does yet.  If all the processes of the first list that is not empty, the one of
    the lowest number, have the policy [SCHED_RR] and full time slices of 100 ticks, then
    in as many ticks as their slices have together each of them runs for exactly one
    slice, in the order of the list, and the run queue and the processes are then as
    before. *)
Theorem rt_round_robin s ls k l :
  rt_ok s ls → top ls = Z.of_nat k → ls !! k = Some l →
  (∀ p, p ∈ l → ∃ r, rt_procs s !! p = Some r ∧ policy r = SCHED_RR ∧ slice_left r = RR_TIMESLICE) →
  ∃ s', ticks (100 * length l) s = Ret (concat (replicate 100 <$> l), s') ∧ rt_ok s' ls ∧ rt_procs s' = rt_procs s.
Proof.
  intros Hok Ht Hk Hall. destruct (rounds l [] s ls k Hok Ht ltac:(by rewrite app_nil_r) Hall) as (s' & E & Hok' & Hp').
  exists s'. cbn [app] in Hok'. by rewrite list_insert_id in Hok' by done.
Qed.

Lemma head_concat (ls : list (list Z)) q :
  head (concat ls) = Some q → ∃ k l, ls !! k = Some (q :: l) ∧ ∀ i l', (i < k)%nat → ls !! i = Some l' → l' = [].
Proof.
  induction ls as [|[|x l] ls IH]; intros H; [done| |].
  - destruct (IH H) as (k & l & Hk & Hlow). exists (S k), l. split; [done|]. intros [|i] l' Hi Hl'; [by injection Hl'|]. eapply Hlow; [|done]. lia.
  - injection H as ->. exists 0%nat, l. split; [done|]. intros. lia.
Qed.

(** C27: The real-time run queue is one hundred first-in-first-out lists.  Enqueueing a
    process appends it to the list of its priority; then the head of the first list that
    is not empty is picked, the process with the lowest number that has waited longest
    (the header says that the highest number comes first); and whichever process is
    dequeued, it is taken from its list, wherever it stands. *)
Theorem rt_queue_correct s ls p r k l :
  rt_ok s ls → p ≠ 0 → rt_procs s !! p = Some r → rt_priority r = Z.of_nat k → ls !! k = Some l → ¬ queued ls p →
  node p ∈ dom (rt_links s) → (∀ j, 0 ≤ j < 100 → node p ≠ queue_at j) → Z.of_nat (length (concat ls)) + 1 < 2 ^ 32 →
  let ls1 := <[k := l ++ [p]]> ls in
  ∃ s1, rt_enqueue_task off queue p s = Ret (tt, s1) ∧ rt_ok s1 ls1 ∧
    (∃ k0 q l0, rt_pick_next_task off queue s1 = Ret (q, s1) ∧ ls1 !! k0 = Some (q :: l0) ∧
       ∀ i l', (i < k0)%nat → ls1 !! i = Some l' → l' = []) ∧
    ∀ i l1 q l2, ls1 !! i = Some (l1 ++ q :: l2) →
      ∃ s2, rt_dequeue_task off queue q s1 = Ret (tt, s2) ∧ rt_ok s2 (<[i := l1 ++ l2]> ls1).
Proof.
  intros Hok Hp Hr Hprio Hl Hq Hdom Hap Hroom ls1.
  destruct (rt_enqueue_spec s ls p r k l Hok Hp Hr Hprio Hl Hq Hdom Hap Hroom) as (s1 & E1 & Hok1 & _). exists s1. split_and!; [done | done | |].
  - pose proof (rt_pick_spec s1 ls1 Hok1) as Ep. destruct (head (concat ls1)) as [q|] eqn:E.
    + destruct (head_concat ls1 q E) as (k0 & l0 & H1 & H2). by exists k0, q, l0.
    + assert (p ∈ concat ls1) as Hin.
      { apply (elem_of_concat ls1 k (l ++ [p])); [by eapply list_lookup_insert_eq, lookup_lt_Some | set_solver]. }
      destruct (concat ls1); [by apply not_elem_of_nil in Hin | done].
  - intros i l1 q l2 Hi. destruct (rt_dequeue_spec s1 ls1 q i l1 l2 Hok1 Hi) as (s2 & E2 & Hok2 & _). eauto.
Qed.
End RtSpec.

(** ** Two processes *)

Definition after {A} (f : M rt A) (s : rt) : rt := match f s with Ret (_, s') => s' | _ => s end.

Definition rr : rt_process := {| policy := SCHED_RR; rt_priority := 7; slice_left := 100 |}.
Definition two_nodes : list Z := [2004; 3004] ++ (queue_at 1000 <$> seqZ 0 100).

Definition start : rt :=
  {| rt_links := list_to_map ((λ a, (a, {| next := 0; prev := 0 |})) <$> two_nodes); rt_procs := <[2000 := rr]> (<[3000 := rr]> ∅);
     g_rt_rq := {| bitmap := replicate 4 0; nr_running := 0; rt_nr_running := 0; highest_prio := 0 |} |}.

Definition idle : rt := after (rt_sched_init 1000) start.
Definition one_queued : rt := after (rt_enqueue_task 4 1000 2000) idle.
Definition two_queued : rt := after (rt_enqueue_task 4 1000 3000) one_queued.

Lemma start_dom x : x ∈ two_nodes → x ∈ dom (rt_links start).
Proof.
  intros Hx. cbn [rt_links start]. rewrite dom_list_to_map_L. apply elem_of_list_to_set. rewrite <- list_fmap_compose.
  apply list_elem_of_fmap. by exists x.
Qed.

Lemma idle_ok : rt_ok 4 1000 idle (replicate 100 []) ∧ rt_procs idle = rt_procs start ∧ dom (rt_links idle) = dom (rt_links start).
Proof.
  destruct (rt_init_spec 4 1000 start) as (s & E & Hs).
  { intros i Hi. apply start_dom, elem_of_app. right. apply list_elem_of_fmap. exists i. split; [done|]. apply elem_of_seqZ. lia. }
  unfold idle, after. by rewrite E.
Qed.

Lemma far_from_heads p j : 1800 < p → 0 ≤ j < 100 → node 4 p ≠ queue_at 1000 j.
Proof. unfold node, queue_at. lia. Qed.

Lemma one_queued_ok :
  rt_ok 4 1000 one_queued (<[7%nat := [2000]]> (replicate 100 [])) ∧ rt_procs one_queued = rt_procs start ∧ dom (rt_links one_queued) = dom (rt_links start).
Proof.
  destruct idle_ok as (Hok & Hp & Hd).
  destruct (rt_enqueue_spec 4 1000 idle (replicate 100 []) 2000 rr 7 [] Hok) as (s & E & Hs & Hp' & Hd').
  - lia.
  - by rewrite Hp.
  - reflexivity.
  - reflexivity.
  - intros (i & l & [-> _]%lookup_replicate & Hl). by apply not_elem_of_nil in Hl.
  - rewrite Hd. apply start_dom, elem_of_app. left. left.
  - intros j. apply far_from_heads. lia.
  - reflexivity.
  - unfold one_queued, after. rewrite E. split_and!; [done | congruence | congruence].
Qed.

(** What enqueueing the second process needs. *)
Lemma second_fresh : ¬ queued (<[7%nat := [2000]]> (replicate 100 [])) 3000.
Proof.
  intros (i & l & Hi & Hl). destruct (decide (i = 7%nat)) as [->|Hne].
  - rewrite list_lookup_insert_eq in Hi by (rewrite length_replicate; lia). injection Hi as <-. apply list_elem_of_singleton in Hl. lia.
  - rewrite list_lookup_insert_ne in Hi by lia. apply lookup_replicate in Hi as [-> _]. by apply not_elem_of_nil in Hl.
Qed.

Lemma second_procs : rt_procs one_queued !! 3000 = Some rr.
Proof. destruct one_queued_ok as (_ & -> & _). reflexivity. Qed.

Lemma second_dom : node 4 3000 ∈ dom (rt_links one_queued).
Proof. destruct one_queued_ok as (_ & _ & ->). apply start_dom, elem_of_app. left. right. left. Qed.

Lemma rt_queue_correct_witness :
  ∃ s1 q k0 l0, rt_enqueue_task 4 1000 3000 one_queued = Ret (tt, s1) ∧ rt_pick_next_task 4 1000 s1 = Ret (q, s1) ∧
    <[7%nat := [2000] ++ [3000]]> (<[7%nat := [2000]]> (replicate 100 [])) !! k0 = Some (q :: l0).
Proof.
  destruct (rt_queue_correct 4 1000 one_queued (<[7%nat := [2000]]> (replicate 100 [])) 3000 rr 7 [2000] (proj1 one_queued_ok)
    ltac:(lia) second_procs eq_refl eq_refl second_fresh second_dom (λ j, far_from_heads 3000 j ltac:(lia)) eq_refl) as (s1 & E & _ & (k0 & q & l0 & Hpick & Hq & _) & _).
  exists s1, q, k0, l0. split; [exact E|]. split; [exact Hpick | exact Hq].
Defined.

Lemma two_queued_ok : rt_ok 4 1000 two_queued (<[7%nat := [2000; 3000]]> (replicate 100 [])) ∧ rt_procs two_queued = rt_procs start.
Proof.
  destruct (rt_enqueue_spec 4 1000 one_queued (<[7%nat := [2000]]> (replicate 100 [])) 3000 rr 7 [2000] (proj1 one_queued_ok)
    ltac:(lia) second_procs eq_refl eq_refl second_fresh second_dom (λ j, far_from_heads 3000 j ltac:(lia)) eq_refl) as (s & E & Hs & Hp' & _).
  unfold two_queued, after. rewrite E. rewrite list_insert_insert_eq in Hs. split; [exact Hs|]. rewrite Hp'. apply one_queued_ok.
Qed.

Lemma rt_round_robin_witness : ∃ s', ticks 4 1000 200 two_queued = Ret (replicate 100 2000 ++ replicate 100 3000, s') ∧ rt_procs s' = rt_procs start.
Proof.
  destruct two_queued_ok as (Hok & Hp).
  destruct (rt_round_robin 4 1000 two_queued (<[7%nat := [2000; 3000]]> (replicate 100 [])) 7 [2000; 3000] Hok) as (s' & E & _ & Hp').
  - reflexivity.
  - reflexivity.
  - intros p Hin. exists rr. rewrite Hp. split; [|split; reflexivity].
    apply elem_of_cons in Hin as [->|Hin]; [reflexivity|]. apply list_elem_of_singleton in Hin as ->. reflexivity.
  - exists s'. split; [exact E | congruence].
Defined.

(** Changing the priority of a process that is queued leaves its old list marked when it
    is dequeued: from then on nothing is picked, though another process is ready. *)
Definition stranded : rt :=
  after (rt_enqueue_task 4 1000 3000) (after (rt_set_priority 3000 9) (after (rt_dequeue_task 4 1000 2000) (after (rt_set_priority 2000 8) one_queued))).

Lemma rt_set_priority_strands : result (rt_pick_next_task 4 1000 stranded) = Some 0 ∧ rt_nr_running (g_rt_rq stranded) = 1.
Proof. split; vm_compute; reflexivity. Qed.
