(* ===== verification/Mlfq.v ===== *)
(** * Multi-level feedback queue (kernel/process/mlfq_sched.c)

    Five FIFO levels with exponentially growing time slices.  The state is the
    table of processes and the static variable [mlfq]; the tick counter that
    [timer_get_ticks] returns is an argument.  [uint64_t] and [uint32_t]
    counters wrap.  The scan of a queue is given one step more than there are
    processes, and the loop of [mlfq_boost_all] one step more than the queue
    counts. *)

From S2P Require Import Prelude ProcList.

#[local] Open Scope Z_scope.

Abbreviation MLFQ_LEVELS := 5%Z (only parsing).
Abbreviation MLFQ_BASE_QUANTUM := 100%Z (only parsing).
Abbreviation MLFQ_BOOST_INTERVAL := 1000%Z (only parsing).

Record mlfq_queue := { lq : queue; time_quantum : Z }.

Record mlfq := {
  levels : list mlfq_queue;
  boost_time : Z;
  boost_interval : Z;
  total_count : Z;
  total_switches : Z;
  level_changes : list Z;
  boosts : Z;
}.

Record mst := { mprocs : procs; ml : mlfq }.

Definition on_procs {A} (c : M procs A) : M mst A :=
  zoom mprocs (λ t s, {| mprocs := t; ml := ml s |}) c.

Definition upd_ml (f : mlfq → mlfq) : M mst unit :=
  modify (λ s, {| mprocs := mprocs s; ml := f (ml s) |}).

Definition with_levels (lv : list mlfq_queue) (m : mlfq) : mlfq :=
  {| levels := lv; boost_time := boost_time m; boost_interval := boost_interval m;
     total_count := total_count m; total_switches := total_switches m;
     level_changes := level_changes m; boosts := boosts m |}.
Definition with_total (n : Z) (m : mlfq) : mlfq :=
  {| levels := levels m; boost_time := boost_time m; boost_interval := boost_interval m;
     total_count := n; total_switches := total_switches m;
     level_changes := level_changes m; boosts := boosts m |}.
Definition with_changes (c : list Z) (m : mlfq) : mlfq :=
  {| levels := levels m; boost_time := boost_time m; boost_interval := boost_interval m;
     total_count := total_count m; total_switches := total_switches m;
     level_changes := c; boosts := boosts m |}.

Definition get_level (i : Z) : M mst mlfq_queue := s ← get; deref (aget (levels (ml s)) i).

Definition set_queue (i : Z) (q : queue) : M mst unit :=
  s ← get;
  lv ← deref (aget (levels (ml s)) i);
  ls ← deref (aset (levels (ml s)) i {| lq := q; time_quantum := time_quantum lv |});
  upd_ml (with_levels ls).

Definition mlfq_init (now : Z) : M mst unit :=
  upd_ml (λ _,
    {| levels := (λ i, {| lq := empty_queue; time_quantum := u32 (MLFQ_BASE_QUANTUM * Z.shiftl 1 i) |})
                   <$> seqZ 0 MLFQ_LEVELS;
       boost_time := now; boost_interval := MLFQ_BOOST_INTERVAL; total_count := 0;
       total_switches := 0; level_changes := replicate (Z.to_nat MLFQ_LEVELS) 0; boosts := 0 |}).

Definition mlfq_enqueue (proc : Z) : M mst unit :=
  if proc =? 0 then mret tt
  else
    p ← on_procs (load_proc proc);
    let level := mlfq_level p in
    let level := if level <? 0 then 0 else level in
    let level := if MLFQ_LEVELS <=? level then MLFQ_LEVELS - 1 else level in
    _ ← on_procs (upd_proc proc (set_mlfq_level level));
    lv ← get_level level;
    _ ← on_procs (upd_proc proc (set_time_slice (time_quantum lv)));
    _ ← on_procs (upd_proc proc (set_time_slice_remaining (time_quantum lv)));
    _ ← on_procs (upd_proc proc (set_time_used 0));
    q ← on_procs (push_back (lq lv) proc);
    _ ← set_queue level q;
    upd_ml (λ m, with_total (u32 (total_count m + 1)) m).

Definition mlfq_dequeue (proc : Z) : M mst unit :=
  if proc =? 0 then mret tt
  else
    p ← on_procs (load_proc proc);
    let level := mlfq_level p in
    if (level <? 0) || (MLFQ_LEVELS <=? level) then mret tt
    else
      lv ← get_level level;
      q ← on_procs (unlink (lq lv) proc);
      _ ← set_queue level q;
      upd_ml (λ m, with_total (if 0 <? total_count m then total_count m - 1 else total_count m) m).

(** The inner loop of [mlfq_pick_next]. *)
Fixpoint scan_queue (fuel : nat) (proc : Z) : M mst (option Z) :=
  match fuel with
  | O => undef
  | S fuel =>
      if proc =? 0 then mret None
      else
        p ← on_procs (load_proc proc);
        if bool_decide (state p = READY) || bool_decide (state p = RUNNING) then mret (Some proc)
        else scan_queue fuel (next p)
  end.

Definition pick_level (level : Z) : M mst (option Z) :=
  lv ← get_level level;
  if (0 <? count (lq lv)) && negb (head (lq lv) =? 0) then
    s ← get; scan_queue (S (size (mprocs s))) (head (lq lv))
  else mret None.

Definition mlfq_pick_next : M mst Z :=
  r ← for_ret (Z.to_nat MLFQ_LEVELS) 0 pick_level; mret (default 0 r).

(** The change of level in [mlfq_tick]. *)
Definition demote (proc old_level new_level : Z) : M mst unit :=
  _ ← on_procs (upd_proc proc (set_mlfq_level new_level));
  s ← get;
  c ← deref (aget (level_changes (ml s)) old_level);
  cs ← deref (aset (level_changes (ml s)) old_level (u64 (c + 1)));
  upd_ml (with_changes cs).

Definition mlfq_tick (proc : Z) : M mst unit :=
  if proc =? 0 then mret tt
  else
    p ← on_procs (load_proc proc);
    if negb (bool_decide (state p = RUNNING)) then mret tt
    else
      _ ← on_procs (upd_proc proc (set_time_used (u32 (time_used p + 1))));
      let rem := if 0 <? time_slice_remaining p then time_slice_remaining p - 1
                 else time_slice_remaining p in
      _ ← on_procs (upd_proc proc (set_time_slice_remaining rem));
      if rem =? 0 then
        let old_level := mlfq_level p in
        let new_level := i32 (old_level + 1) in
        let new_level := if MLFQ_LEVELS <=? new_level then MLFQ_LEVELS - 1 else new_level in
        _ ← (if negb (new_level =? old_level) then demote proc old_level new_level else mret tt);
        on_procs (upd_proc proc (set_time_slice_remaining 0))
      else mret tt.

Definition mlfq_yield (proc : Z) : M mst unit :=
  if proc =? 0 then mret tt
  else
    _ ← on_procs (upd_proc proc (set_time_slice_remaining 0));
    on_procs (upd_proc proc (set_time_used 0)).

(** [while (queue->count > 0 && queue->head)] of [mlfq_boost_all]. *)
Fixpoint boost_level (fuel : nat) (level : Z) : M mst unit :=
  match fuel with
  | O => undef
  | S fuel =>
      lv ← get_level level;
      if (0 <? count (lq lv)) && negb (head (lq lv) =? 0) then
        let proc := head (lq lv) in
        _ ← mlfq_dequeue proc;
        _ ← on_procs (upd_proc proc (set_mlfq_level 0));
        _ ← mlfq_enqueue proc;
        boost_level fuel level
      else mret tt
  end.

(** [for (level = MLFQ_LEVELS - 1; level > 0; level--)]. *)
Fixpoint boost_levels (n : nat) : M mst unit :=
  match n with
  | O => mret tt
  | S n' =>
      lv ← get_level (Z.of_nat n);
      _ ← boost_level (S (Z.to_nat (count (lq lv)))) (Z.of_nat n);
      boost_levels n'
  end.

Definition mlfq_boost_all (now : Z) : M mst unit :=
  s ← get;
  if u64 (now - boost_time (ml s)) <? boost_interval (ml s) then mret tt
  else
    _ ← upd_ml (λ m, {| levels := levels m; boost_time := now; boost_interval := boost_interval m;
                        total_count := total_count m; total_switches := total_switches m;
                        level_changes := level_changes m; boosts := u64 (boosts m + 1) |});
    boost_levels (Z.to_nat (MLFQ_LEVELS - 1)).

Definition mlfq_get_level_count (level : Z) : M mst Z :=
  if (level <? 0) || (MLFQ_LEVELS <=? level) then mret 0
  else lv ← get_level level; mret (count (lq lv)).

Definition mlfq_get_level_quantum (level : Z) : M mst Z :=
  if (level <? 0) || (MLFQ_LEVELS <=? level) then mret 0
  else lv ← get_level level; mret (time_quantum lv).

(** ** The queues as lists *)

Record mlfq_ok (s : mst) (ls : list (list Z)) : Prop := {
  mo_len : length (levels (ml s)) = Z.to_nat MLFQ_LEVELS;
  mo_lists : length ls = Z.to_nat MLFQ_LEVELS;
  mo_queues : queues_ok mlfq_level (mprocs s) (lq <$> levels (ml s)) ls;
  mo_quanta : ∀ i lv, levels (ml s) !! i = Some lv → time_quantum lv = MLFQ_BASE_QUANTUM * 2 ^ Z.of_nat i;
  mo_total : total_count (ml s) = Z.of_nat (length (concat ls));
  mo_small : Z.of_nat (length (concat ls)) < 2 ^ 32;
  mo_changes : length (level_changes (ml s)) = Z.to_nat MLFQ_LEVELS;
}.

Lemma on_procs_Ret {A} (c : M procs A) s a t :
  c (mprocs s) = Ret (a, t) → on_procs c s = Ret (a, {| mprocs := t; ml := ml s |}).
Proof. intros H. unfold on_procs, zoom. by rewrite H. Qed.

Lemma on_load s a p : mprocs s !! a = Some p → on_procs (load_proc a) s = Ret (p, s).
Proof. intros H. rewrite (on_procs_Ret _ _ _ _ (load_proc_eq _ _ _ H)). by destruct s. Qed.

Lemma on_upd s a p f :
  mprocs s !! a = Some p →
  on_procs (upd_proc a f) s = Ret (tt, {| mprocs := <[a := f p]> (mprocs s); ml := ml s |}).
Proof. intros H. apply on_procs_Ret. by apply upd_proc_eq. Qed.

Lemma get_level_eq s i lv :
  levels (ml s) !! i = Some lv → get_level (Z.of_nat i) s = Ret (lv, s).
Proof.
  intros H. unfold get_level. rewrite bind_get. unfold aget.
  rewrite (proj2 (Z.leb_le 0 _)), Nat2Z.id, H by lia. done.
Qed.

Lemma set_queue_eq s i lv q :
  levels (ml s) !! i = Some lv →
  set_queue (Z.of_nat i) q s =
    Ret (tt, {| mprocs := mprocs s;
                ml := with_levels (<[i := {| lq := q; time_quantum := time_quantum lv |}]> (levels (ml s)))
                                  (ml s) |}).
Proof.
  intros H. unfold set_queue. rewrite bind_get. unfold aget.
  rewrite (proj2 (Z.leb_le 0 _)), Nat2Z.id, H by lia.
  rewrite bind_deref.
  apply lookup_lt_Some in H. rewrite aset_Some by lia.
  rewrite bind_deref, Nat2Z.id. done.
Qed.

Lemma strip_level p p' : strip p = strip p' → mlfq_level p = mlfq_level p'.
Proof. intros H. by apply (f_equal mlfq_level) in H. Qed.

Section WithOk.
Context (s : mst) (ls : list (list Z)) (Hok : mlfq_ok s ls).

Lemma ok_index i l :
  ls !! i = Some l →
  (i < 5)%nat ∧ ∃ lv, levels (ml s) !! i = Some lv ∧ queue_ok (mprocs s) (lq lv) l ∧
    time_quantum lv = MLFQ_BASE_QUANTUM * 2 ^ Z.of_nat i.
Proof.
  intros H. split.
  - apply lookup_lt_Some in H. by rewrite (mo_lists _ _ Hok) in H.
  - destruct (queues_index _ _ _ _ i l (mo_queues _ _ Hok) H) as (q & Hq & Hqok).
    rewrite list_lookup_fmap in Hq. destruct (levels (ml s) !! i) as [lv|] eqn:Hlv; simplify_eq/=.
    exists lv. split_and!; [done | done | by eapply mo_quanta].
Qed.

Lemma ok_level i l a : ls !! i = Some l → a ∈ l → ∃ p, mprocs s !! a = Some p ∧ mlfq_level p = Z.of_nat i.
Proof. intros. by eapply queues_member; [apply Hok|..]. Qed.

Lemma ok_disjoint i j l l' a : ls !! i = Some l → ls !! j = Some l' → a ∈ l → a ∈ l' → i = j.
Proof. intros. by eapply queues_disjoint; [apply (mo_queues _ _ Hok)|..]. Qed.

Lemma ok_nonzero i l a : ls !! i = Some l → a ∈ l → a ≠ 0.
Proof. intros. by eapply queues_member; [apply (mo_queues _ _ Hok)|..]. Qed.

(** Replacing one queue. *)
Lemma mlfq_ok_set i lv q' ls' t' :
  levels (ml s) !! i = Some lv → length ls' = length ls →
  queues_ok mlfq_level t' (<[i := q']> (lq <$> levels (ml s))) ls' →
  Z.of_nat (length (concat ls')) < 2 ^ 32 →
  mlfq_ok {| mprocs := t';
             ml := with_total (Z.of_nat (length (concat ls')))
                     (with_levels (<[i := {| lq := q'; time_quantum := time_quantum lv |}]> (levels (ml s)))
                                  (ml s)) |} ls'.
Proof.
  intros Hlv Hl' Hq Hsm. destruct Hok as [H1 H2 H3 H4 H5 H6 H7].
  split; cbn; try done; [by rewrite length_insert | congruence | by rewrite list_fmap_insert |].
  intros j lvj [(<- & <- & Hj)|(Hne & Hj)]%list_lookup_insert_Some;
    [by apply (H4 i lv) | by apply H4].
Qed.
End WithOk.

(** A process that is not queued may change in any way. *)
Lemma mlfq_ok_upd s ls a p cs m :
  mlfq_ok s ls → a ∉ concat ls → length cs = Z.to_nat MLFQ_LEVELS → m = with_changes cs (ml s) →
  mlfq_ok {| mprocs := <[a := p]> (mprocs s); ml := m |} ls.
Proof. intros [H1 H2 H3 H4 H5 H6 H7] Ha Hcs ->. split; try done. by apply queues_upd. Qed.

(** ** Enqueue and dequeue are list operations *)

(** The level a process is filed under. *)
Definition clamp (l : Z) : Z := Z.max 0 (Z.min l 4).

(** What enqueueing does to the process itself. *)
Definition enqueued (p : process) : process :=
  let l := clamp (mlfq_level p) in
  let q := MLFQ_BASE_QUANTUM * 2 ^ l in
  set_time_used 0 (set_time_slice_remaining q (set_time_slice q (set_mlfq_level l p))).

(** Everything but the links and what MLFQ manages. *)
Definition core (p : process) : process :=
  set_time_used 0 (set_time_slice_remaining 0 (set_time_slice 0 (set_mlfq_level 0 (strip p)))).

Lemma strip_core p p' : strip p = strip p' → core p = core p'.
Proof. unfold core. by intros ->. Qed.

Lemma same_data_core t t' b : same_data t t' → core <$> t' !! b = core <$> t !! b.
Proof.
  intros H. specialize (H b). destruct (t' !! b), (t !! b); try done.
  apply (inj Some) in H. cbn. by rewrite (strip_core _ _ H).
Qed.

Lemma level_clamp l : (if MLFQ_LEVELS <=? (if l <? 0 then 0 else l) then MLFQ_LEVELS - 1
                       else (if l <? 0 then 0 else l)) = clamp l.
Proof. unfold clamp. zbool; lia. Qed.

(** The two operations in terms of the link code. *)
Definition slice_for (i tq : Z) (p : process) : process :=
  set_time_used 0 (set_time_slice_remaining tq (set_time_slice tq (set_mlfq_level i p))).

Lemma mlfq_enqueue_raw s a p i lv q' t' :
  mprocs s !! a = Some p → a ≠ 0 → clamp (mlfq_level p) = Z.of_nat i → levels (ml s) !! i = Some lv →
  push_back (lq lv) a (<[a := slice_for (Z.of_nat i) (time_quantum lv) p]> (mprocs s)) = Ret (q', t') →
  mlfq_enqueue a s =
    Ret (tt, {| mprocs := t';
                ml := with_total (u32 (total_count (ml s) + 1))
                        (with_levels (<[i := {| lq := q'; time_quantum := time_quantum lv |}]> (levels (ml s)))
                           (ml s)) |}).
Proof.
  intros Hp Ha0 Hi Hlv E. unfold mlfq_enqueue.
  rewrite (proj2 (Z.eqb_neq a 0)), (bind_Ret _ _ _ _ _ (on_load s a p Hp)) by done. cbv zeta.
  rewrite level_clamp, Hi, (bind_Ret _ _ _ _ _ (on_upd s a p _ Hp)).
  rewrite (bind_Ret _ _ _ _ _ (get_level_eq {| mprocs := _; ml := ml s |} i lv Hlv)).
  do 3 (rewrite (bind_Ret _ _ _ _ _ (on_upd _ a _ _ (lookup_insert_eq _ _ _))); cbn [mprocs ml];
        rewrite insert_insert_eq).
  rewrite (bind_Ret _ _ _ _ _ (on_procs_Ret _ {| mprocs := _; ml := ml s |} _ _ E)).
  by rewrite (bind_Ret _ _ _ _ _ (set_queue_eq {| mprocs := _; ml := ml s |} i lv _ Hlv)).
Qed.

Lemma mlfq_dequeue_raw s a p i lv q' t' :
  mprocs s !! a = Some p → a ≠ 0 → mlfq_level p = Z.of_nat i → (i < 5)%nat → levels (ml s) !! i = Some lv →
  unlink (lq lv) a (mprocs s) = Ret (q', t') →
  mlfq_dequeue a s =
    Ret (tt, {| mprocs := t';
                ml := with_total (if 0 <? total_count (ml s) then total_count (ml s) - 1 else total_count (ml s))
                        (with_levels (<[i := {| lq := q'; time_quantum := time_quantum lv |}]> (levels (ml s)))
                           (ml s)) |}).
Proof.
  intros Hp Ha0 Hi Hi5 Hlv E. unfold mlfq_dequeue.
  rewrite (proj2 (Z.eqb_neq a 0)), (bind_Ret _ _ _ _ _ (on_load s a p Hp)) by done. cbv zeta.
  rewrite Hi, (proj2 (Z.ltb_ge _ 0)), (proj2 (Z.leb_gt MLFQ_LEVELS _)) by lia.
  cbn [orb]. rewrite (bind_Ret _ _ _ _ _ (get_level_eq s i lv Hlv)).
  rewrite (bind_Ret _ _ _ _ _ (on_procs_Ret _ s _ _ E)).
  by rewrite (bind_Ret _ _ _ _ _ (set_queue_eq {| mprocs := _; ml := ml s |} i lv _ Hlv)).
Qed.

Lemma mlfq_enqueue_spec s ls a p i l :
  mlfq_ok s ls → mprocs s !! a = Some p → a ≠ 0 → a ∉ concat ls →
  Z.of_nat (length (concat ls)) + 1 < 2 ^ 32 →
  clamp (mlfq_level p) = Z.of_nat i → ls !! i = Some l →
  ∃ s', mlfq_enqueue a s = Ret (tt, s') ∧ mlfq_ok s' (<[i := l ++ [a]]> ls) ∧
    (∃ p', mprocs s' !! a = Some p' ∧ strip p' = strip (enqueued p)) ∧
    (∀ b, b ≠ a → strip <$> mprocs s' !! b = strip <$> mprocs s !! b) ∧
    ml s' = with_total (Z.of_nat (length (concat (<[i := l ++ [a]]> ls))))
              (with_levels (levels (ml s')) (ml s)).
Proof.
  intros Hok Hp Ha0 Ha Hlen Hi Hl. destruct (ok_index s ls Hok i l Hl) as (Hi5 & lv & Hlv & _ & Hqt).
  set (p1 := slice_for (Z.of_nat i) (time_quantum lv) p). set (t1 := <[a := p1]> (mprocs s)).
  pose proof (length_concat_lookup ls i l Hl). pose proof (length_concat_insert ls i l (l ++ [a]) Hl) as Hli.
  rewrite length_app in Hli. cbn [length] in Hli.
  destruct (queues_push mlfq_level strip_level t1 (lq <$> levels (ml s)) ls i (lq lv) l a p1)
    as (q' & t' & E & Hq' & Hsd); try done; try lia.
  { by apply queues_upd; [apply Hok|]. }
  { by rewrite list_lookup_fmap, Hlv. }
  { apply lookup_insert_eq. }
  rewrite (mlfq_enqueue_raw s a p i lv q' t' Hp Ha0 Hi Hlv E).
  destruct (same_data_Some t1 t' a p1) as (p' & Hp' & Hsp'); [done | apply lookup_insert_eq |].
  eexists. split; [reflexivity|]. cbn [mprocs ml levels with_total with_levels total_count].
  rewrite (mo_total _ _ Hok), u32_small by lia.
  replace (Z.of_nat (length (concat ls)) + 1) with (Z.of_nat (length (concat (<[i:=l ++ [a]]> ls)))) by lia.
  split_and!; [| |intros b Hb|done].
  - eapply mlfq_ok_set; try done; [apply length_insert | lia].
  - exists p'. split; [done|]. rewrite Hsp'. unfold p1, slice_for, enqueued. cbv zeta. by rewrite Hqt, Hi.
  - rewrite (Hsd b). unfold t1. by rewrite lookup_insert_ne.
Qed.

Lemma mlfq_dequeue_spec s ls a i l1 l2 :
  mlfq_ok s ls → ls !! i = Some (l1 ++ a :: l2) →
  ∃ s', mlfq_dequeue a s = Ret (tt, s') ∧ mlfq_ok s' (<[i := l1 ++ l2]> ls) ∧
    same_data (mprocs s) (mprocs s') ∧
    ml s' = with_total (Z.of_nat (length (concat (<[i := l1 ++ l2]> ls))))
              (with_levels (levels (ml s')) (ml s)).
Proof.
  intros Hok Hl. assert (a ∈ l1 ++ a :: l2) as Ha by set_solver.
  assert (a ≠ 0) as Ha0 by (by eapply ok_nonzero).
  destruct (ok_index s ls Hok i _ Hl) as (Hi5 & lv & Hlv & _ & Hqt).
  destruct (ok_level s ls Hok i _ a Hl Ha) as (p & Hp & Hpi).
  destruct (queues_unlink mlfq_level strip_level _ _ ls i (lq lv) l1 a l2 (mo_queues _ _ Hok))
    as (q' & t' & E & Hq' & _ & Hsd); [by rewrite list_lookup_fmap, Hlv | done |].
  rewrite (mlfq_dequeue_raw s a p i lv q' t' Hp Ha0 Hpi Hi5 Hlv E).
  eexists. split; [reflexivity|]. cbn [mprocs ml levels with_total with_levels total_count].
  pose proof (length_concat_insert ls i _ (l1 ++ l2) Hl) as Hli.
  rewrite !length_app in Hli. cbn [length] in Hli. pose proof (mo_small _ _ Hok).
  rewrite (mo_total _ _ Hok), (proj2 (Z.ltb_lt 0 _)) by lia.
  replace (Z.of_nat (length (concat ls)) - 1) with (Z.of_nat (length (concat (<[i:=l1 ++ l2]> ls)))) by lia.
  split_and!; [|done|done]. eapply mlfq_ok_set; try done; [apply length_insert | lia].
Qed.

(** ** Selection *)

Definition runnable (t : procs) (a : Z) : bool :=
  match t !! a with
  | Some p => bool_decide (state p = READY) || bool_decide (state p = RUNNING)
  | None => false
  end.

Lemma scan_queue_spec s pv l fuel :
  chain (mprocs s) pv l 0 → (length l < fuel)%nat →
  scan_queue fuel (hd 0 l) s = Ret (List.find (runnable (mprocs s)) l, s).
Proof.
  revert pv fuel. induction l as [|a l IH]; intros pv [|fuel] Hc Hf; cbn [length] in Hf; try lia; [done|].
  cbn [chain] in Hc. destruct Hc as (Ha & (p & Hp & _ & Hn) & Hc). cbn [scan_queue hd List.find].
  rewrite (proj2 (Z.eqb_neq a 0)), (bind_Ret _ _ _ _ _ (on_load s a p Hp)) by done.
  unfold runnable at 1. rewrite Hp. destruct (_ || _); [done|].
  rewrite Hn. apply (IH a); [done | lia].
Qed.

Lemma pick_level_spec s ls i l :
  mlfq_ok s ls → ls !! i = Some l →
  pick_level (Z.of_nat i) s = Ret (List.find (runnable (mprocs s)) l, s).
Proof.
  intros Hok Hl. destruct (ok_index s ls Hok i l Hl) as (_ & lv & Hlv & Hq & _).
  unfold pick_level. rewrite (bind_Ret _ _ _ _ _ (get_level_eq s i lv Hlv)).
  rewrite (q_count _ _ _ Hq), (q_head _ _ _ Hq). destruct l as [|a l]; [done|].
  assert (a ≠ 0) by (eapply (ok_nonzero s ls Hok i); [exact Hl | by left]).
  rewrite (proj2 (Z.ltb_lt _ _)), (proj2 (Z.eqb_neq (hd 0 (a :: l)) 0)) by (cbn; done || lia).
  cbn [andb negb]. rewrite bind_get. eapply scan_queue_spec; [apply (q_chain _ _ _ Hq)|].
  apply Nat.lt_succ_r, members_bound; [apply (q_nodup _ _ _ Hq)|].
  intros b Hb. by eapply chain_member; [apply (q_chain _ _ _ Hq)|].
Qed.

Lemma pick_levels_spec s ls i n :
  mlfq_ok s ls → (i + n = length ls)%nat →
  for_ret n (Z.of_nat i) pick_level s =
    Ret (List.find (runnable (mprocs s)) (concat (drop i ls)), s).
Proof.
  intros Hok. revert i. induction n as [|n IH]; intros i Hn.
  - by rewrite drop_ge by lia.
  - destruct (lookup_lt_is_Some_2 ls i) as [l Hl]; [lia|]. cbn [for_ret].
    rewrite (bind_Ret _ _ _ _ _ (pick_level_spec s ls i l Hok Hl)).
    rewrite (drop_S _ _ _ Hl). cbn [concat]. rewrite find_app.
    destruct (List.find _ l); [done|]. rewrite <- IH by lia. f_equal; lia.
Qed.

(** [mlfq_pick_next] terminates, changes nothing and returns the first runnable
    process in level order (highest level first, FIFO in a level), or null. *)
Lemma mlfq_pick_next_spec s ls :
  mlfq_ok s ls →
  mlfq_pick_next s = Ret (default 0 (List.find (runnable (mprocs s)) (concat ls)), s).
Proof.
  intros Hok. unfold mlfq_pick_next. change 0 with (Z.of_nat 0) at 1.
  rewrite (bind_Ret _ _ _ _ _ (pick_levels_spec s ls 0 _ Hok ltac:(by rewrite (mo_lists _ _ Hok)))).
  done.
Qed.

(** ** The global boost *)

Lemma enqueued_core p : core (enqueued p) = core p.
Proof. by destruct p. Qed.

Lemma boost_step s ls i a l l0 :
  mlfq_ok s ls → i ≠ 0%nat → ls !! i = Some (a :: l) → ls !! 0%nat = Some l0 →
  ∃ s1 s2 s3, mlfq_dequeue a s = Ret (tt, s1) ∧
    on_procs (upd_proc a (set_mlfq_level 0)) s1 = Ret (tt, s2) ∧
    mlfq_enqueue a s2 = Ret (tt, s3) ∧
    mlfq_ok s3 (<[0%nat := l0 ++ [a]]> (<[i := l]> ls)) ∧
    (∀ b, core <$> mprocs s3 !! b = core <$> mprocs s !! b) ∧
    (∀ b, b ≠ a → strip <$> mprocs s3 !! b = strip <$> mprocs s !! b).
Proof.
  intros Hok Hi Hl Hl0.
  destruct (mlfq_dequeue_spec s ls a i [] l Hok Hl) as (s1 & E1 & Hok1 & Hsd & _).
  destruct (ok_level s ls Hok i _ a Hl ltac:(by left)) as (p & Hp & _).
  destruct (same_data_Some _ _ a p Hsd Hp) as (p1 & Hp1 & Hs1).
  cbn [app] in Hok1. set (ls1 := <[i := l]> ls) in *.
  assert (ls1 !! 0%nat = Some l0) as Hl01 by (unfold ls1; by rewrite list_lookup_insert_ne).
  assert (a ∉ concat ls1) as Ha.
  { intros (j & lj & Hlj & Haj)%concat_elem_of.
    destruct (ok_index s ls Hok i _ Hl) as (_ & lv & _ & Hq & _).
    pose proof (q_nodup _ _ _ Hq) as [Hnd _]%NoDup_cons.
    unfold ls1 in Hlj. apply list_lookup_insert_Some in Hlj as [(_ & <- & _)|(Hne & Hlj)]; [done|].
    apply Hne. eapply (ok_disjoint s ls Hok); [exact Hl | exact Hlj | by left | done]. }
  set (s2 := {| mprocs := <[a := set_mlfq_level 0 p1]> (mprocs s1); ml := ml s1 |}).
  assert (mlfq_ok s2 ls1) as Hok2.
  { eapply mlfq_ok_upd; [done | done | apply (mo_changes _ _ Hok1)|]. by destruct (ml s1). }
  pose proof (length_concat_insert ls i _ l Hl) as Hli. cbn [length] in Hli. fold ls1 in Hli.
  pose proof (mo_small _ _ Hok).
  destruct (mlfq_enqueue_spec s2 ls1 a (set_mlfq_level 0 p1) 0 l0) as (s3 & E3 & Hok3 & (p3 & Hp3 & Hs3) & Hoth & _);
    try done; try lia.
  { apply lookup_insert_eq. }
  { eapply (ok_nonzero s ls Hok); [exact Hl | by left]. }
  assert (∀ b, b ≠ a → strip <$> mprocs s3 !! b = strip <$> mprocs s1 !! b) as Hoth1.
  { intros b Hb. rewrite (Hoth b Hb). f_equal. by apply lookup_insert_ne. }
  exists s1, s2, s3. split_and!; try done; [by apply on_upd | |intros b Hb; by rewrite Hoth1, (Hsd b)].
  intros b. rewrite <- (same_data_core _ _ b Hsd). destruct (decide (b = a)) as [->|Hne].
  - rewrite Hp3, Hp1. cbn. f_equal. rewrite (strip_core _ _ Hs3), enqueued_core. by destruct p1.
  - specialize (Hoth1 b Hne). destruct (mprocs s3 !! b), (mprocs s1 !! b); try done.
    apply (inj Some) in Hoth1. cbn. by rewrite (strip_core _ _ Hoth1).
Qed.

Lemma boost_level_spec l : ∀ s ls i l0 fuel,
  mlfq_ok s ls → i ≠ 0%nat → ls !! i = Some l → ls !! 0%nat = Some l0 → (length l < fuel)%nat →
  ∃ s', boost_level fuel (Z.of_nat i) s = Ret (tt, s') ∧
    mlfq_ok s' (<[0%nat := l0 ++ l]> (<[i := []]> ls)) ∧
    (∀ b, core <$> mprocs s' !! b = core <$> mprocs s !! b) ∧
    (∀ b, b ∉ l → strip <$> mprocs s' !! b = strip <$> mprocs s !! b).
Proof.
  induction l as [|a l IH]; intros s ls i l0 [|fuel] Hok Hi Hl Hl0 Hf; cbn [length] in Hf; try lia;
    cbn [boost_level]; destruct (ok_index s ls Hok i _ Hl) as (_ & lv & Hlv & Hq & _);
    rewrite (bind_Ret _ _ _ _ _ (get_level_eq s i lv Hlv)), (q_count _ _ _ Hq), (q_head _ _ _ Hq).
  - exists s. split_and!; [done | | done | done].
    by rewrite app_nil_r, !list_insert_id by (rewrite ?list_lookup_insert_ne; done).
  - assert (a ≠ 0) by (eapply (ok_nonzero s ls Hok i); [exact Hl | by left]).
    rewrite (proj2 (Z.ltb_lt _ _)), (proj2 (Z.eqb_neq (hd 0 (a :: l)) 0)) by (cbn; done || lia).
    cbn [andb negb hd]. cbv zeta.
    destruct (boost_step s ls i a l l0 Hok Hi Hl Hl0) as (s1 & s2 & s3 & E1 & E2 & E3 & Hok3 & Hc3 & Ho3).
    rewrite (bind_Ret _ _ _ _ _ E1), (bind_Ret _ _ _ _ _ E2), (bind_Ret _ _ _ _ _ E3).
    pose proof (lookup_lt_Some _ _ _ Hl). pose proof (lookup_lt_Some _ _ _ Hl0).
    destruct (IH s3 _ i (l0 ++ [a]) fuel Hok3 Hi) as (s' & E' & Hok' & Hc' & Ho'); [| |lia|].
    { rewrite list_lookup_insert_ne, list_lookup_insert_eq by done. done. }
    { rewrite list_lookup_insert_eq; [done|]. by rewrite length_insert. }
    exists s'. split_and!; [done | | intros b; by rewrite Hc', Hc3 | intros b Hb; rewrite Ho', Ho3; set_solver].
    rewrite (list_insert_insert_ne _ i 0), list_insert_insert_eq, (list_insert_insert_eq _ i) in Hok' by done.
    by rewrite <- app_assoc in Hok'.
Qed.

Lemma boost_levels_step s ls n l l0 :
  mlfq_ok s ls → ls !! S n = Some l → ls !! 0%nat = Some l0 →
  ∃ s', boost_levels (S n) s = boost_levels n s' ∧
    mlfq_ok s' (<[0%nat := l0 ++ l]> (<[S n := []]> ls)) ∧
    (∀ b, core <$> mprocs s' !! b = core <$> mprocs s !! b) ∧
    (∀ b, b ∉ l → strip <$> mprocs s' !! b = strip <$> mprocs s !! b).
Proof.
  intros Hok Hl Hl0. destruct (ok_index s ls Hok _ _ Hl) as (_ & lv & Hlv & Hq & _).
  cbn [boost_levels]. rewrite (bind_Ret _ _ _ _ _ (get_level_eq s (S n) lv Hlv)), (q_count _ _ _ Hq), Nat2Z.id.
  destruct (boost_level_spec l s ls (S n) l0 (S (length l))) as (s' & E & Hok' & Hc & Ho); try done; [lia|].
  exists s'. by rewrite (bind_Ret _ _ _ _ _ E).
Qed.

Definition boost_due (now : Z) (m : mlfq) : bool :=
  negb (u64 (now - boost_time m) <? boost_interval m).

Lemma mlfq_boost_all_spec s now l0 l1 l2 l3 l4 :
  mlfq_ok s [l0; l1; l2; l3; l4] → boost_due now (ml s) = true →
  ∃ s', mlfq_boost_all now s = Ret (tt, s') ∧
    mlfq_ok s' [l0 ++ l4 ++ l3 ++ l2 ++ l1; []; []; []; []] ∧
    (∀ b, core <$> mprocs s' !! b = core <$> mprocs s !! b) ∧
    (∀ b, b ∉ l4 ++ l3 ++ l2 ++ l1 → strip <$> mprocs s' !! b = strip <$> mprocs s !! b).
Proof.
  intros Hok Hdue%negb_true_iff. unfold mlfq_boost_all. rewrite bind_get, Hdue.
  unfold upd_ml. rewrite bind_modify. set (s0 := Build_mst _ _).
  assert (mlfq_ok s0 [l0; l1; l2; l3; l4]) as Hok0 by (by destruct Hok; split).
  change (Z.to_nat (MLFQ_LEVELS - 1)) with 4%nat.
  destruct (boost_levels_step s0 _ 3 l4 l0 Hok0) as (s1 & E1 & Hok1 & Hc1 & Ho1); try done.
  destruct (boost_levels_step s1 _ 2 l3 (l0 ++ l4) Hok1) as (s2 & E2 & Hok2 & Hc2 & Ho2); try done.
  destruct (boost_levels_step s2 _ 1 l2 ((l0 ++ l4) ++ l3) Hok2) as (s3 & E3 & Hok3 & Hc3 & Ho3); try done.
  destruct (boost_levels_step s3 _ 0 l1 (((l0 ++ l4) ++ l3) ++ l2) Hok3) as (s4 & E4 & Hok4 & Hc4 & Ho4); try done.
  exists s4. rewrite E1, E2, E3, E4. split_and!; [done | | |].
  - cbn in Hok4. by rewrite <- !app_assoc in Hok4.
  - intros b. by rewrite Hc4, Hc3, Hc2, Hc1.
  - intros b Hb. rewrite Ho4, Ho3, Ho2, Ho1; set_solver.
Qed.

Lemma mlfq_boost_all_early s now : boost_due now (ml s) = false → mlfq_boost_all now s = Ret (tt, s).
Proof. intros H%negb_false_iff. unfold mlfq_boost_all. by rewrite bind_get, H. Qed.

(** The periodic boost.  Before the interval has elapsed nothing changes;
    afterwards every queued process is on level 0, behind those already there
    and ordered from the lowest level up, with a fresh level-0 slice; no process
    is lost or duplicated, nothing but links and time accounting changes, and
    processes outside levels 1 to 4 keep theirs. *)
Theorem mlfq_boost_all_correct s now l0 l1 l2 l3 l4 :
  mlfq_ok s [l0; l1; l2; l3; l4] →
  if boost_due now (ml s)
  then ∃ s', mlfq_boost_all now s = Ret (tt, s') ∧
    mlfq_ok s' [l0 ++ l4 ++ l3 ++ l2 ++ l1; []; []; []; []] ∧
    (∀ b, core <$> mprocs s' !! b = core <$> mprocs s !! b) ∧
    (∀ b, b ∉ l4 ++ l3 ++ l2 ++ l1 → strip <$> mprocs s' !! b = strip <$> mprocs s !! b)
  else mlfq_boost_all now s = Ret (tt, s).
Proof.
  intros Hok. destruct (boost_due now (ml s)) eqn:Hd.
  - by apply mlfq_boost_all_spec.
  - by apply mlfq_boost_all_early.
Qed.

(** ** Time accounting *)

(** One tick on a running process. *)
Definition ticked (p : process) : process :=
  let p := set_time_used (u32 (time_used p + 1)) p in
  if time_slice_remaining p <=? 1
  then set_time_slice_remaining 0 (set_mlfq_level (Z.min (mlfq_level p + 1) 4) p)
  else set_time_slice_remaining (time_slice_remaining p - 1) p.

Lemma demote_eq s a p old new :
  mprocs s !! a = Some p → 0 ≤ old < MLFQ_LEVELS → length (level_changes (ml s)) = Z.to_nat MLFQ_LEVELS →
  ∃ cs, length cs = Z.to_nat MLFQ_LEVELS ∧
    demote a old new s =
      Ret (tt, {| mprocs := <[a := set_mlfq_level new p]> (mprocs s); ml := with_changes cs (ml s) |}).
Proof.
  intros Hp Hold Hcs. unfold demote.
  rewrite (bind_Ret _ _ _ _ _ (on_upd s a p _ Hp)), bind_get. cbn [ml].
  destruct (aget_Some (level_changes (ml s)) old) as [c Hc]; [lia|].
  rewrite Hc, bind_deref, aset_Some by lia.
  rewrite bind_deref.
  eexists. split; [|reflexivity]. by rewrite length_insert.
Qed.

Lemma mlfq_tick_spec s a p :
  a ≠ 0 → mprocs s !! a = Some p → state p = RUNNING → 0 ≤ mlfq_level p < MLFQ_LEVELS →
  0 ≤ time_slice_remaining p → length (level_changes (ml s)) = Z.to_nat MLFQ_LEVELS →
  ∃ cs, length cs = Z.to_nat MLFQ_LEVELS ∧
    mlfq_tick a s = Ret (tt, {| mprocs := <[a := ticked p]> (mprocs s); ml := with_changes cs (ml s) |}).
Proof.
  intros Ha Hp Hr Hl H0 Hcs. unfold mlfq_tick in *.
  rewrite (proj2 (Z.eqb_neq a 0)), (bind_Ret _ _ _ _ _ (on_load s a p Hp)), bool_decide_true by done.
  cbn [negb]. rewrite (bind_Ret _ _ _ _ _ (on_upd s a p _ Hp)). cbv zeta.
  rewrite (bind_Ret _ _ _ _ _ (on_upd _ a _ _ (lookup_insert_eq _ _ _))). cbn [mprocs ml].
  rewrite insert_insert_eq.
  assert (with_changes (level_changes (ml s)) (ml s) = ml s) as Hsame by (by destruct (ml s)).
  assert (i32 (mlfq_level p + 1) = mlfq_level p + 1) as Hi32.
  { unfold i32, sgn. rewrite Z.mod_small by lia. by rewrite (proj2 (Z.ltb_lt _ _)) by lia. }
  unfold ticked. cbv zeta. rewrite Hi32.
  change (time_slice_remaining (set_time_used _ p)) with (time_slice_remaining p).
  destruct (Z.leb_spec (time_slice_remaining p) 1) as [Hle|Hgt].
  - replace (if 0 <? time_slice_remaining p then time_slice_remaining p - 1 else time_slice_remaining p)
      with 0 by (zbool; lia). cbn [Z.eqb].
    destruct (Z.leb_spec 5 (mlfq_level p + 1)).
    + change (5 - 1) with 4. rewrite (proj2 (Z.eqb_eq 4 _)) by lia. cbn [negb]. rewrite bind_mret.
      exists (level_changes (ml s)). split; [done|]. rewrite Hsame.
      rewrite (on_upd _ a _ _ (lookup_insert_eq _ _ _)). cbn [mprocs ml]. rewrite insert_insert_eq.
      do 4 f_equal. assert (mlfq_level p = 4) by lia. destruct p; cbn in *; subst. done.
    + rewrite (proj2 (Z.eqb_neq _ _)) by lia. cbn [negb].
      set (s1 := Build_mst _ (ml s)).
      destruct (demote_eq s1 a (set_time_slice_remaining 0 (set_time_used (u32 (time_used p + 1)) p))
                  (mlfq_level p) (mlfq_level p + 1)) as (cs & Hlen & E); [apply lookup_insert_eq | done | done |].
      exists cs. split; [done|]. rewrite (bind_Ret _ _ _ _ _ E).
      rewrite (on_upd _ a _ _ (lookup_insert_eq _ _ _)). cbn [mprocs ml s1]. rewrite !insert_insert_eq.
      change (mlfq_level (set_time_used _ p)) with (mlfq_level p). rewrite Z.min_l by lia. by destruct p.
  - rewrite (proj2 (Z.ltb_lt 0 _)), (proj2 (Z.eqb_neq (_ - 1) 0)) by lia.
    exists (level_changes (ml s)). split; [done|]. rewrite Hsame. by destruct p.
Qed.

(** Queue operations refine list operations.  Enqueueing appends the process
    to the list of its (clamped) level and gives it that level's slice;
    dequeueing a queued process removes it from wherever it stands; everything
    else about every process is unchanged. *)
Theorem mlfq_queue_ops_refine s ls a :
  mlfq_ok s ls →
  (∀ p, mprocs s !! a = Some p → a ≠ 0 → a ∉ concat ls → Z.of_nat (length (concat ls)) + 1 < 2 ^ 32 →
     ∃ s', mlfq_enqueue a s = Ret (tt, s') ∧
       mlfq_ok s' (alter (λ l, l ++ [a]) (Z.to_nat (clamp (mlfq_level p))) ls) ∧
       strip <$> mprocs s' !! a = Some (strip (enqueued p)) ∧
       (∀ b, b ≠ a → strip <$> mprocs s' !! b = strip <$> mprocs s !! b)) ∧
  (∀ i l1 l2, ls !! i = Some (l1 ++ a :: l2) →
     ∃ s', mlfq_dequeue a s = Ret (tt, s') ∧ mlfq_ok s' (<[i := l1 ++ l2]> ls) ∧
       same_data (mprocs s) (mprocs s')).
Proof.
  intros Hok. split.
  - intros p Hp Ha0 Ha Hlen. assert (0 ≤ clamp (mlfq_level p) < 5) as Hc by (unfold clamp; lia).
    destruct (lookup_lt_is_Some_2 ls (Z.to_nat (clamp (mlfq_level p)))) as [l Hl].
    { rewrite (mo_lists _ _ Hok). lia. }
    destruct (mlfq_enqueue_spec s ls a p (Z.to_nat (clamp (mlfq_level p))) l)
      as (s' & E & Hok' & (p' & Hp' & Hs') & Hoth & _); try done; [lia|].
    exists s'. split_and!; [done | | by rewrite Hp', <- Hs' | done].
    by rewrite (alter_as_insert _ _ _ _ Hl).
  - intros i l1 l2 Hl. destruct (mlfq_dequeue_spec s ls a i l1 l2 Hok Hl) as (s' & E & Hok' & Hsd & _).
    by exists s'.
Qed.

(** [n] timer ticks while [a] is the running process. *)
Fixpoint ticks (n : nat) (a : Z) : M mst unit :=
  match n with
  | O => mret tt
  | S k => _ ← mlfq_tick a; ticks k a
  end.

Lemma ticks_spec n : ∀ s ls a p,
  mlfq_ok s ls → a ∉ concat ls → a ≠ 0 → mprocs s !! a = Some p → state p = RUNNING →
  0 ≤ mlfq_level p < MLFQ_LEVELS → Z.of_nat n ≤ time_slice_remaining p → 0 < time_slice_remaining p →
  ∃ s' p', ticks n a s = Ret (tt, s') ∧ mlfq_ok s' ls ∧ mprocs s' !! a = Some p' ∧
    state p' = RUNNING ∧ time_slice_remaining p' = time_slice_remaining p - Z.of_nat n ∧
    mlfq_level p' = (if Z.of_nat n =? time_slice_remaining p then Z.min (mlfq_level p + 1) 4
                     else mlfq_level p) ∧
    (∀ b, b ≠ a → mprocs s' !! b = mprocs s !! b).
Proof.
  induction n as [|n IH]; intros s ls a p Hok Ha Ha0 Hp Hr Hl Hn Hpos.
  - exists s, p. rewrite (proj2 (Z.eqb_neq _ _)) by lia. split_and!; try done. lia.
  - destruct (mlfq_tick_spec s a p) as (cs & Hcs & E); try done; [lia | apply (mo_changes _ _ Hok)|].
    set (s1 := Build_mst _ _) in E. cbn [ticks]. rewrite (bind_Ret _ _ _ _ _ E).
    assert (mlfq_ok s1 ls) as Hok1 by (by eapply mlfq_ok_upd).
    assert (mprocs s1 !! a = Some (ticked p)) as Hp1 by apply lookup_insert_eq.
    assert (∀ b, b ≠ a → mprocs s1 !! b = mprocs s !! b) as Hoth by (intros; by apply lookup_insert_ne).
    clearbody s1. unfold ticked in Hp1. cbv zeta in Hp1.
    change (time_slice_remaining (set_time_used _ p)) with (time_slice_remaining p) in Hp1.
    destruct (Z.leb_spec (time_slice_remaining p) 1).
    + assert (n = O) as -> by lia. assert (time_slice_remaining p = 1) as Hone by lia. rewrite Hone.
      exists s1. eexists. split_and!; try done.
    + destruct (IH s1 ls a _ Hok1 Ha Ha0 Hp1) as (s' & p' & E' & Hok' & Hp' & Hr' & Hrem & Hlev & Hoth');
        try done; try (cbn; lia).
      exists s', p'. split_and!; try done.
      * rewrite Hrem. cbn. lia.
      * rewrite Hlev. cbn. zbool; lia.
      * intros b Hb. by rewrite Hoth', Hoth.
Qed.

(** The feedback rule.  A running process that was given the slice of its
    level keeps its level for fewer ticks than the slice and is demoted by one
    level (down to the last) exactly when the slice is used up; the queues are
    not disturbed. *)
Theorem mlfq_slice_then_demotion s ls a p n :
  mlfq_ok s ls → a ∉ concat ls → a ≠ 0 → mprocs s !! a = Some p → state p = RUNNING →
  0 ≤ mlfq_level p < MLFQ_LEVELS →
  time_slice_remaining p = MLFQ_BASE_QUANTUM * 2 ^ mlfq_level p →
  Z.of_nat n ≤ MLFQ_BASE_QUANTUM * 2 ^ mlfq_level p →
  ∃ s' p', ticks n a s = Ret (tt, s') ∧ mlfq_ok s' ls ∧ mprocs s' !! a = Some p' ∧
    time_slice_remaining p' = MLFQ_BASE_QUANTUM * 2 ^ mlfq_level p - Z.of_nat n ∧
    mlfq_level p' = (if Z.of_nat n =? MLFQ_BASE_QUANTUM * 2 ^ mlfq_level p
                     then Z.min (mlfq_level p + 1) 4 else mlfq_level p).
Proof.
  intros Hok Ha Ha0 Hp Hr Hl Hrem Hn. assert (0 < 2 ^ mlfq_level p) by lia.
  rewrite <- Hrem in *.
  destruct (ticks_spec n s ls a p) as (s' & p' & E & Hok' & Hp' & _ & Hr' & Hlev & _); try done; [lia|].
  by exists s', p'.
Qed.

(** Initialisation gives five empty queues. *)
Lemma mlfq_init_spec s now :
  ∃ s', mlfq_init now s = Ret (tt, s') ∧ mlfq_ok s' [[]; []; []; []; []] ∧
    mprocs s' = mprocs s ∧ boost_time (ml s') = now.
Proof.
  eexists. split; [reflexivity|]. split_and!; try done. split; try done.
  - split; [done|]. intros i q l Hq Hl.
    do 5 (destruct i as [|i]; [simplify_eq/=; split; [apply empty_queue_ok | set_solver]|]). done.
  - intros i lv Hlv. by do 5 (destruct i as [|i]; [by simplify_eq/=|]).
Qed.

(** ** A concrete run queue *)

Definition demo_proc (n : Z) (st : process_state) (level rem : Z) : process :=
  {| pid := n; state := st; priority := 120; preempt_count := 0; page_dir := None; kernel_stack := 0x1000; time_slice := 100;
     time_used := 0; time_slice_remaining := rem; mlfq_level := level; wait_time := 0;
     boost_count := 0; next := 0; prev := 0; next_waiting := 0 |}.

(** Process 1 waits on level 0, process 2 (blocked) and 4 on level 2, process
    3 runs. *)
Definition demo_procs : procs :=
  <[1 := demo_proc 1 BLOCKED 0 100]>
  (<[2 := set_next 4 (demo_proc 2 BLOCKED 2 400)]>
  (<[3 := demo_proc 3 RUNNING 1 200]>
  (<[4 := set_prev 2 (demo_proc 4 READY 2 400)]> ∅))).

Definition demo_level (i : Z) : mlfq_queue :=
  {| lq := if i =? 0 then {| head := 1; tail := 1; count := 1 |}
           else if i =? 2 then {| head := 2; tail := 4; count := 2 |} else empty_queue;
     time_quantum := 100 * 2 ^ i |}.

Definition demo_mlfq : mst :=
  {| mprocs := demo_procs;
     ml := {| levels := demo_level <$> [0; 1; 2; 3; 4]; boost_time := 0; boost_interval := 1000;
              total_count := 3; total_switches := 0; level_changes := replicate 5 0; boosts := 0 |} |}.

Lemma demo_mlfq_ok : mlfq_ok demo_mlfq [[1]; []; [2; 4]; []; []].
Proof.
  split; try done.
  - split; [done|]. intros i q l Hq Hl.
    destruct i as [|[|[|[|[|i]]]]]; cbn in Hq, Hl; simplify_eq; try (split; [apply empty_queue_ok | set_solver]).
    + split; [split; try done; [apply NoDup_singleton|]|].
      * split_and!; [done | | done]. by eexists.
      * intros a ->%list_elem_of_singleton. by eexists.
    + split; [split; try done; [apply (bool_decide_unpack _); done|]|].
      * cbn [chain hd]. split_and!; try done; by eexists.
      * intros a [->|Ha]%elem_of_cons; [by eexists|]. apply list_elem_of_singleton in Ha as ->. by eexists.
  - intros i lv Hlv. by do 5 (destruct i as [|i]; [by simplify_eq/=|]).
Qed.

Lemma mlfq_boost_all_correct_witness :
  ∃ s', mlfq_boost_all 1500 demo_mlfq = Ret (tt, s') ∧ mlfq_ok s' [[1; 2; 4]; []; []; []; []] ∧
    (∀ b, core <$> mprocs s' !! b = core <$> demo_procs !! b).
Proof.
  destruct (mlfq_boost_all_correct demo_mlfq 1500 [1] [] [2; 4] [] [] demo_mlfq_ok) as (s' & E & Hok & Hc & _).
  exists s'. split; [exact E|]. split; [exact Hok | exact Hc].
Defined.

Lemma mlfq_queue_ops_refine_witness :
  (∃ s', mlfq_enqueue 3 demo_mlfq = Ret (tt, s') ∧ mlfq_ok s' [[1]; [3]; [2; 4]; []; []]) ∧
  (∃ s', mlfq_dequeue 2 demo_mlfq = Ret (tt, s') ∧ mlfq_ok s' [[1]; []; [4]; []; []]).
Proof.
  split.
  - destruct (mlfq_queue_ops_refine demo_mlfq _ 3 demo_mlfq_ok) as [He _].
    destruct (He (demo_proc 3 RUNNING 1 200)) as (s' & E & Hok & _);
      [reflexivity | lia | apply (bool_decide_unpack _); vm_compute; exact I | cbn; lia |].
    exists s'. split; [exact E | exact Hok].
  - destruct (mlfq_queue_ops_refine demo_mlfq _ 2 demo_mlfq_ok) as [_ Hd].
    destruct (Hd 2%nat [] [4]) as (s' & E & Hok & _); [done|].
    exists s'. split; [exact E | exact Hok].
Defined.

Lemma mlfq_slice_then_demotion_witness :
  ∃ s' p', ticks 200 3 demo_mlfq = Ret (tt, s') ∧ mprocs s' !! 3 = Some p' ∧ mlfq_level p' = 2.
Proof.
  destruct (mlfq_slice_then_demotion demo_mlfq _ 3 (demo_proc 3 RUNNING 1 200) 200 demo_mlfq_ok)
    as (s' & p' & E & _ & Hp & _ & Hl);
    [apply (bool_decide_unpack _); vm_compute; exact I | lia | reflexivity | reflexivity
    | cbn; lia | reflexivity | by vm_compute |].
  exists s', p'. split; [exact E|]. split; [exact Hp | exact Hl].
Defined.
