(* ===== verification/Scheduler.v ===== *)
(** * The scheduler (kernel/process/scheduler.c)

    The scheduler proper: run-queue insertion and removal, the scheduling
    decision under both policies, the timer tick, preemption control and the
    part of [context_switch] that decides whether control changes hands.

    The registers saved and restored by [context_switch_asm] are not part of the
    state: [context_switch] tells whether control was transferred, and the state
    is the one the next process starts with.  [irq_on] is the interrupt flag,
    [tss_esp0] what [tss_set_kernel_stack] was given last.  Ticks come from
    [timer_get_ticks] and are arguments. *)

From S2P Require Import Prelude ProcList Mlfq.

#[local] Open Scope Z_scope.

Abbreviation SCHED_POLICY_RR := 0%Z (only parsing).
Abbreviation SCHED_POLICY_MLFQ := 1%Z (only parsing).

Record sched := {
  run : mst;                 (* the processes and the MLFQ queues *)
  current_policy : Z;
  current : Z;
  idle_process : Z;
  ready : queue;             (* ready_queue_head, ready_queue_tail, ready_count *)
  switches : Z;              (* total_switches *)
  enabled : bool;
  scheduler_locked : Z;
  g_next_cr3 : Z;
  tss_esp0 : Z;
  irq_on : bool;
}.

Definition with_run (m : mst) (s : sched) : sched :=
  {| run := m; current_policy := current_policy s; current := current s;
     idle_process := idle_process s; ready := ready s; switches := switches s;
     enabled := enabled s; scheduler_locked := scheduler_locked s; g_next_cr3 := g_next_cr3 s;
     tss_esp0 := tss_esp0 s; irq_on := irq_on s |}.
Definition with_current (c : Z) (s : sched) : sched :=
  {| run := run s; current_policy := current_policy s; current := c;
     idle_process := idle_process s; ready := ready s; switches := switches s;
     enabled := enabled s; scheduler_locked := scheduler_locked s; g_next_cr3 := g_next_cr3 s;
     tss_esp0 := tss_esp0 s; irq_on := irq_on s |}.
Definition with_ready (q : queue) (s : sched) : sched :=
  {| run := run s; current_policy := current_policy s; current := current s;
     idle_process := idle_process s; ready := q; switches := switches s;
     enabled := enabled s; scheduler_locked := scheduler_locked s; g_next_cr3 := g_next_cr3 s;
     tss_esp0 := tss_esp0 s; irq_on := irq_on s |}.
Definition with_switches (n : Z) (s : sched) : sched :=
  {| run := run s; current_policy := current_policy s; current := current s;
     idle_process := idle_process s; ready := ready s; switches := n;
     enabled := enabled s; scheduler_locked := scheduler_locked s; g_next_cr3 := g_next_cr3 s;
     tss_esp0 := tss_esp0 s; irq_on := irq_on s |}.
Definition with_enabled (b : bool) (s : sched) : sched :=
  {| run := run s; current_policy := current_policy s; current := current s;
     idle_process := idle_process s; ready := ready s; switches := switches s;
     enabled := b; scheduler_locked := scheduler_locked s; g_next_cr3 := g_next_cr3 s;
     tss_esp0 := tss_esp0 s; irq_on := irq_on s |}.
Definition with_locked (n : Z) (s : sched) : sched :=
  {| run := run s; current_policy := current_policy s; current := current s;
     idle_process := idle_process s; ready := ready s; switches := switches s;
     enabled := enabled s; scheduler_locked := n; g_next_cr3 := g_next_cr3 s;
     tss_esp0 := tss_esp0 s; irq_on := irq_on s |}.
Definition with_cr3 (n : Z) (s : sched) : sched :=
  {| run := run s; current_policy := current_policy s; current := current s;
     idle_process := idle_process s; ready := ready s; switches := switches s;
     enabled := enabled s; scheduler_locked := scheduler_locked s; g_next_cr3 := n;
     tss_esp0 := tss_esp0 s; irq_on := irq_on s |}.
Definition with_tss (n : Z) (s : sched) : sched :=
  {| run := run s; current_policy := current_policy s; current := current s;
     idle_process := idle_process s; ready := ready s; switches := switches s;
     enabled := enabled s; scheduler_locked := scheduler_locked s; g_next_cr3 := g_next_cr3 s;
     tss_esp0 := n; irq_on := irq_on s |}.
Definition with_irq (b : bool) (s : sched) : sched :=
  {| run := run s; current_policy := current_policy s; current := current s;
     idle_process := idle_process s; ready := ready s; switches := switches s;
     enabled := enabled s; scheduler_locked := scheduler_locked s; g_next_cr3 := g_next_cr3 s;
     tss_esp0 := tss_esp0 s; irq_on := b |}.

Definition on_run {A} (c : M mst A) : M sched A := zoom run with_run c.
Definition on_table {A} (c : M procs A) : M sched A := on_run (on_procs c).

(** ** Preemption control *)

Definition preempt_disable : M sched unit :=
  s ← get;
  _ ← (if current s =? 0 then mret tt
       else p ← on_table (load_proc (current s));
            on_table (upd_proc (current s) (set_preempt_count (i32 (preempt_count p + 1)))));
  modify (with_locked 1).

Definition preempt_enable : M sched unit :=
  s ← get;
  if current s =? 0 then modify (with_locked 0)
  else
    p ← on_table (load_proc (current s));
    _ ← (if 0 <? preempt_count p
         then on_table (upd_proc (current s) (set_preempt_count (preempt_count p - 1)))
         else mret tt);
    p ← on_table (load_proc (current s));
    if preempt_count p =? 0 then modify (with_locked 0) else mret tt.

Definition preemptible : M sched bool :=
  s ← get;
  if current s =? 0 then mret true
  else
    p ← on_table (load_proc (current s));
    mret ((preempt_count p =? 0) && (scheduler_locked s =? 0)).

Definition scheduler_disable : M sched unit := preempt_disable.
Definition scheduler_enable_noschedule : M sched unit := preempt_enable.

(** ** The round-robin queue *)

(** The [else] branch of [scheduler_add_process]. *)
Definition rr_push (q : queue) (proc : Z) : M procs queue :=
  _ ← upd_proc proc (set_next 0);
  _ ← upd_proc proc (set_prev 0);
  if negb (tail q =? 0) then
    _ ← upd_proc (tail q) (set_next proc);
    _ ← upd_proc proc (set_prev (tail q));
    mret {| head := head q; tail := proc; count := u32 (count q + 1) |}
  else mret {| head := proc; tail := proc; count := u32 (count q + 1) |}.

Definition scheduler_add_process (proc : Z) : M sched unit :=
  if proc =? 0 then mret tt
  else
    _ ← on_table (upd_proc proc (set_state READY));
    s ← get;
    if current_policy s =? SCHED_POLICY_MLFQ then
      _ ← on_table (upd_proc proc (set_mlfq_level 0));
      on_run (mlfq_enqueue proc)
    else
      q ← on_table (rr_push (ready s) proc);
      modify (with_ready q).

Definition scheduler_remove_process (proc : Z) : M sched unit :=
  if proc =? 0 then mret tt
  else
    s ← get;
    q ← on_table (unlink (ready s) proc);
    modify (with_ready q).

Definition scheduler_pick_next : M sched Z :=
  s ← get;
  if head (ready s) =? 0 then mret (idle_process s)
  else
    let next := head (ready s) in
    _ ← scheduler_remove_process next;
    mret next.

(** ** Switching *)

Definition process_set_state (proc : Z) (st : process_state) : M sched unit :=
  if proc =? 0 then mret tt else on_table (upd_proc proc (set_state st)).

(** Whether control goes to [next]. *)
Definition context_switch (prev nxt : Z) : M sched bool :=
  if nxt =? 0 then panic
  else
    s ← get;
    if negb (scheduler_locked s =? 0) then mret false
    else
      p ← on_table (load_proc nxt);
      let next_cr3 := default 0 (page_dir p) in
      _ ← (match page_dir p with
           | Some _ => modify (with_tss (u32 (kernel_stack p + 4)))
           | None => mret tt
           end);
      _ ← modify (with_cr3 next_cr3);
      if (next_cr3 =? 0) && negb (pid p =? 1) then panic
      else mret true.

(** The beginning of [scheduler_schedule]: which process is to run. *)
Definition choose (now : Z) : M sched Z :=
  s ← get;
  next ← (if current_policy s =? SCHED_POLICY_MLFQ then
            _ ← on_run (mlfq_boost_all now); on_run mlfq_pick_next
          else scheduler_pick_next);
  mret (if next =? 0 then idle_process s else next).

(** The first decision, with no process to switch from. *)
Definition start_first (next : Z) : M sched unit :=
  _ ← process_set_state next RUNNING;
  _ ← on_table (upd_proc next (set_time_used 0));
  _ ← modify (with_current next);
  _ ← modify (λ s, with_switches (u64 (switches s + 1)) s);
  switched ← context_switch 0 next;
  if switched : bool then mret tt else panic.

(** Putting the running process back. *)
Definition requeue (prev : Z) : M sched unit :=
  s ← get;
  p ← on_table (load_proc prev);
  if bool_decide (state p = RUNNING) then
    _ ← process_set_state prev READY;
    _ ← on_table (upd_proc prev (set_time_used 0));
    if negb (prev =? idle_process s) then
      if current_policy s =? SCHED_POLICY_MLFQ then on_run (mlfq_enqueue prev)
      else scheduler_add_process prev
    else mret tt
  else mret tt.

(** Starting the chosen process. *)
Definition run_next (prev next : Z) : M sched unit :=
  _ ← process_set_state next RUNNING;
  _ ← on_table (upd_proc next (set_time_used 0));
  _ ← modify (with_current next);
  if negb (prev =? next) then
    _ ← modify (λ s, with_switches (u64 (switches s + 1)) s);
    _ ← context_switch prev next;
    mret tt
  else mret tt.

Definition switch_to (prev next : Z) : M sched unit :=
  _ ← requeue prev;
  s ← get;
  _ ← (if (current_policy s =? SCHED_POLICY_MLFQ) && negb (next =? idle_process s)
       then on_run (mlfq_dequeue next) else mret tt);
  run_next prev next.

Definition scheduler_schedule (now : Z) : M sched unit :=
  s ← get;
  if negb (enabled s) then mret tt
  else
    ok ← preemptible;
    if negb ok then mret tt
    else
      _ ← modify (with_irq false);
      let prev := current s in
      next ← choose now;
      if prev =? 0 then start_first next else switch_to prev next.

Definition scheduler_yield (now : Z) : M sched unit := scheduler_schedule now.

Definition scheduler_enable (now : Z) : M sched unit :=
  _ ← modify (with_enabled true);
  _ ← modify (with_current 0);
  scheduler_schedule now.

Definition scheduler_tick (now : Z) : M sched unit :=
  s ← get;
  if negb (enabled s) || (current s =? 0) then mret tt
  else
    ok ← preemptible;
    if negb ok then mret tt
    else
      if current_policy s =? SCHED_POLICY_MLFQ then
        _ ← on_run (mlfq_tick (current s));
        p ← on_table (load_proc (current s));
        if time_slice_remaining p =? 0 then scheduler_schedule now else mret tt
      else
        p ← on_table (load_proc (current s));
        _ ← on_table (upd_proc (current s) (set_time_used (u32 (time_used p + 1))));
        p ← on_table (load_proc (current s));
        if time_slice p <=? time_used p then scheduler_schedule now else mret tt.

Definition scheduler_get_current : M sched Z := gets current.

(** ** Round robin *)

Abbreviation tbl s := (mprocs (run s)).

Definition with_tbl (t : procs) (s : sched) : sched :=
  with_run {| mprocs := t; ml := ml (run s) |} s.

Lemma on_table_Ret {A} (c : M procs A) s a t :
  c (tbl s) = Ret (a, t) → on_table c s = Ret (a, with_tbl t s).
Proof. intros H. unfold on_table, on_run, on_procs, zoom. by rewrite H. Qed.

Lemma with_tbl_id s : with_tbl (tbl s) s = s.
Proof. by destruct s as [[] ? ? ? ? ? ? ? ? ? ?]. Qed.

Lemma table_load s a p : (tbl s) !! a = Some p → on_table (load_proc a) s = Ret (p, s).
Proof. intros H. rewrite (on_table_Ret _ _ _ _ (load_proc_eq _ _ _ H)). by rewrite with_tbl_id. Qed.

Lemma table_upd s a p f :
  (tbl s) !! a = Some p → on_table (upd_proc a f) s = Ret (tt, with_tbl (<[a := f p]> (tbl s)) s).
Proof. intros H. apply on_table_Ret. by apply upd_proc_eq. Qed.

Lemma rr_push_push_back t q a :
  is_Some (t !! a) → (tail q = 0 ∨ tail q ≠ a ∧ is_Some (t !! tail q)) →
  rr_push q a t = push_back q a t.
Proof.
  intros [p Hp] Ht. unfold rr_push, push_back.
  rewrite !(bind_Ret _ _ _ _ _ (upd_proc_eq t a p _ Hp)).
  rewrite !(bind_Ret _ _ _ _ _ (upd_proc_eq _ a _ _ (lookup_insert_eq _ _ _))), !insert_insert_eq.
  destruct (Z.eqb_spec (tail q) 0) as [->|Hne]; cbn [negb].
  - done.
  - destruct Ht as [|(Hta & pt & Hpt)]; [done|].
    do 2 (erewrite (bind_Ret (upd_proc (tail q) _)); [|apply upd_proc_eq; by rewrite lookup_insert_ne]).
    erewrite (bind_Ret (upd_proc a _)); [|apply upd_proc_eq; by rewrite lookup_insert_ne, lookup_insert_eq].
    rewrite (insert_insert_ne _ a (tail q)), insert_insert_eq by done. by destruct p.
Qed.

Lemma rr_push_spec t q l a :
  queue_ok t q l → a ∉ l → a ≠ 0 → is_Some (t !! a) → Z.of_nat (length l) + 1 < 2 ^ 32 →
  ∃ q' t', rr_push q a t = Ret (q', t') ∧ queue_ok t' q' (l ++ [a]) ∧ same_data t t' ∧
    ∀ b, b ∉ a :: l → t' !! b = t !! b.
Proof.
  intros Hq Ha Ha0 Hs Hlen. rewrite rr_push_push_back; [by apply push_back_spec | done |].
  rewrite (q_tail _ _ _ Hq). destruct l as [|z l _] using rev_ind; [by left|]. right.
  rewrite last_last. split; [set_solver|].
  by eapply chain_member; [apply (q_chain _ _ _ Hq)|set_solver].
Qed.

(** What a process needs to be switched to and to be preempted again. *)
Definition fit (p : process) : Prop :=
  preempt_count p = 0 ∧ (pid p = 1 ∨ default 0 (page_dir p) ≠ 0).

(** The ready queue is the list [l]. *)
Record rr_base (s : sched) (l : list Z) : Prop := {
  rr_policy : current_policy s = SCHED_POLICY_RR;
  rr_enabled : enabled s = true;
  rr_unlocked : scheduler_locked s = 0;
  rr_queue : queue_ok (tbl s) (ready s) l;
  rr_small : Z.of_nat (length l) + 1 < 2 ^ 32;
  rr_idle : idle_process s ≠ 0 ∧ (idle_process s ∉ l) ∧ is_Some ((tbl s) !! idle_process s);
  rr_fit : map_Forall (λ _, fit) (tbl s);
}.

(** ... and the current process is running and not queued. *)
Definition rr_ok (s : sched) (l : list Z) : Prop :=
  rr_base s l ∧ current s ≠ 0 ∧ (current s ∉ l) ∧
  ∃ p, (tbl s) !! current s = Some p ∧ state p = RUNNING.

Lemma fit_strip p p' : strip p' = strip p → fit p → fit p'.
Proof.
  unfold fit. intros H. apply (f_equal (λ p, (preempt_count p, pid p, page_dir p))) in H.
  cbn in H. by injection H as -> -> ->.
Qed.

Lemma fit_same_data t t' : same_data t t' → map_Forall (λ _, fit) t → map_Forall (λ _, fit) t'.
Proof.
  intros Hs Hf a p' Hp'. specialize (Hs a). rewrite Hp' in Hs.
  destruct (t !! a) as [p|] eqn:Hp; [|done]. apply (inj Some) in Hs.
  by eapply fit_strip; [|eapply Hf].
Qed.

(** A change that keeps the links of the queue and the fitness of everybody. *)
Lemma queue_ok_insert t q l a p p' :
  queue_ok t q l → t !! a = Some p → next p' = next p → prev p' = prev p →
  queue_ok (<[a := p']> t) q l.
Proof.
  intros Hq Hp Hn Hv. eapply queue_ok_ext; [|exact Hq]. intros b _.
  destruct (decide (a = b)) as [<-|]; [|by rewrite lookup_insert_ne].
  rewrite lookup_insert_eq, Hp. cbn. by rewrite Hn, Hv.
Qed.

Lemma fit_insert (t : procs) a p p' :
  map_Forall (λ _, fit) t → t !! a = Some p → (fit p → fit p') → map_Forall (λ _, fit) (<[a := p']> t).
Proof. intros Hf Hp Hfit. apply map_Forall_insert_2; [|done]. eauto. Qed.

Lemma rr_base_upd s l a p p' :
  rr_base s l → (tbl s) !! a = Some p → next p' = next p → prev p' = prev p → (fit p → fit p') →
  rr_base (with_tbl (<[a := p']> (tbl s)) s) l.
Proof.
  intros [H1 H2 H3 H4 H5 (H6 & H7 & H8) H9] Hp Hn Hv Hf. split; try done; cbn.
  - by eapply queue_ok_insert.
  - split_and!; try done. by apply lookup_insert_is_Some'; right.
  - by eapply fit_insert.
Qed.

Lemma choose_rr s l now :
  rr_base s l →
  ∃ s', choose now s = Ret (hd (idle_process s) l, s') ∧ rr_base s' (List.tl l) ∧
    same_data (tbl s) (tbl s') ∧ current s' = current s ∧ idle_process s' = idle_process s.
Proof.
  intros Hok. pose proof Hok as [H1 H2 H3 H4 H5 (H6 & H7 & H8) H9].
  unfold choose. rewrite bind_get, H1. cbn [Z.eqb ].
  destruct l as [|n l]; cbn [hd List.tl].
  - exists s. split; [|done]. assert (scheduler_pick_next s = Ret (idle_process s, s)) as Hpick.
    { unfold scheduler_pick_next. by rewrite bind_get, (q_head _ _ _ H4). }
    by rewrite (bind_Ret _ _ _ _ _ Hpick), (proj2 (Z.eqb_neq _ 0)).
  - destruct (chain_member _ _ _ _ n (q_chain _ _ _ H4)) as [Hn0 _]; [by left|].
    destruct (unlink_spec _ _ [] n l H4) as (q' & t' & E & Hq' & Hsd & _).
    assert (scheduler_pick_next s = Ret (n, with_ready q' (with_tbl t' s))) as Hpick.
    { unfold scheduler_pick_next. rewrite bind_get, (q_head _ _ _ H4). cbn [hd]. rewrite (proj2 (Z.eqb_neq n 0)) by done.
      unfold scheduler_remove_process. rewrite (proj2 (Z.eqb_neq n 0)) by done.
      erewrite bind_Ret; [reflexivity|]. rewrite bind_get.
      by rewrite (bind_Ret _ _ _ _ _ (on_table_Ret _ s _ _ E)). }
    rewrite (bind_Ret _ _ _ _ _ Hpick), (proj2 (Z.eqb_neq n 0)) by done.
    eexists. split; [reflexivity|]. split_and!; try done. cbn [length] in H5. split; try done; cbn.
    + lia.
    + split_and!; [done | set_solver | by eapply same_data_is_Some].
    + by eapply fit_same_data.
Qed.

(** The queue after the running process was put back. *)
Definition put_back (idle c : Z) (l : list Z) : list Z := if decide (c = idle) then l else l ++ [c].

Lemma requeue_rr s l p :
  rr_base s l → current s ≠ 0 → current s ∉ l → (tbl s) !! current s = Some p → state p = RUNNING →
  Z.of_nat (length l) + 2 < 2 ^ 32 →
  ∃ s', requeue (current s) s = Ret (tt, s') ∧ rr_base s' (put_back (idle_process s) (current s) l) ∧
    current s' = current s ∧ idle_process s' = idle_process s ∧
    (∀ a, is_Some ((tbl s) !! a) → is_Some ((tbl s') !! a)).
Proof.
  intros Hok Hc0 Hcl Hp Hr Hlen. unfold requeue. rewrite bind_get.
  rewrite (bind_Ret _ _ _ _ _ (table_load s _ p Hp)), bool_decide_true by done.
  unfold process_set_state at 1. rewrite (proj2 (Z.eqb_neq (current s) 0)) by done.
  rewrite (bind_Ret _ _ _ _ _ (table_upd s _ p _ Hp)).
  pose proof (rr_base_upd s l _ p (set_state READY p) Hok Hp eq_refl eq_refl id) as Hok1.
  set (s1 := with_tbl _ s) in *.
  assert ((tbl s1) !! current s = Some (set_state READY p)) as Hp1 by apply lookup_insert_eq.
  rewrite (bind_Ret _ _ _ _ _ (table_upd s1 _ _ _ Hp1)).
  pose proof (rr_base_upd s1 l _ _ (set_time_used 0 (set_state READY p)) Hok1 Hp1 eq_refl eq_refl id) as Hok2.
  set (s2 := with_tbl _ s1) in *. set (p2 := set_time_used 0 _) in *.
  assert ((tbl s2) !! current s = Some p2) as Hp2 by apply lookup_insert_eq.
  assert (∀ a, is_Some ((tbl s) !! a) → is_Some ((tbl s2) !! a)) as Hdom.
  { intros a Ha. do 2 (apply lookup_insert_is_Some'; right). done. }
  unfold put_back. destruct (Z.eqb_spec (current s) (idle_process s)) as [Hi|Hi]; cbn [negb].
  { rewrite decide_True by done. exists s2. split_and!; done. }
  rewrite decide_False by done. rewrite (rr_policy _ _ Hok).
  cbn [Z.eqb ]. unfold scheduler_add_process.
  rewrite (proj2 (Z.eqb_neq (current s) 0)) by done.
  rewrite (bind_Ret _ _ _ _ _ (table_upd s2 _ _ _ Hp2)).
  pose proof (rr_base_upd s2 l _ _ (set_state READY p2) Hok2 Hp2 eq_refl eq_refl id) as Hok3.
  set (s3 := with_tbl _ s2) in *. rewrite bind_get.
  replace (current_policy s3) with SCHED_POLICY_RR by (symmetry; apply Hok3).
  cbn [Z.eqb ].
  assert (is_Some ((tbl s3) !! current s)) as Hs3 by (cbn; rewrite lookup_insert_eq; eauto).
  destruct (rr_push_spec (tbl s3) (ready s3) l (current s)) as (q' & t' & E & Hq' & Hsd & _);
    try done; [apply Hok3 | lia |].
  rewrite (bind_Ret _ _ _ _ _ (on_table_Ret _ s3 _ _ E)).
  eexists. split; [reflexivity|]. destruct Hok3 as [G1 G2 G3 G4 G5 (G6 & G7 & G8) G9].
  split_and!; try done.
  - split; try done; cbn.
    + rewrite length_app. cbn. lia.
    + split_and!; [done | set_solver | by eapply same_data_is_Some].
    + by eapply fit_same_data.
  - intros a Ha. eapply (same_data_is_Some _ _ a Hsd). apply lookup_insert_is_Some'. right. by apply Hdom.
Qed.

Lemma context_switch_fit s prev nxt p :
  scheduler_locked s = 0 → nxt ≠ 0 → (tbl s) !! nxt = Some p → fit p →
  ∃ cr3 esp0, context_switch prev nxt s = Ret (true, with_cr3 cr3 (with_tss esp0 s)).
Proof.
  intros Hl Hn Hp [_ Hf]. unfold context_switch.
  rewrite (proj2 (Z.eqb_neq nxt 0)), bind_get, Hl by done. cbn [Z.eqb negb].
  rewrite (bind_Ret _ _ _ _ _ (table_load s nxt p Hp)). cbv zeta.
  assert ((default 0 (page_dir p) =? 0) && negb (pid p =? 1) = false) as Hc.
  { destruct Hf as [->|Hf]; [by destruct (_ =? 0)|]. by rewrite (proj2 (Z.eqb_neq _ 0)). }
  destruct (page_dir p) as [d|] eqn:Hd; rewrite Hc.
  - eexists _, _. reflexivity.
  - exists 0, (tss_esp0 s). by destruct s.
Qed.

Lemma run_next_fit s prv nxt p :
  scheduler_locked s = 0 → nxt ≠ 0 → (tbl s) !! nxt = Some p → fit p →
  ∃ cr3 esp0 n, run_next prv nxt s =
    Ret (tt, with_cr3 cr3 (with_tss esp0 (with_switches n (with_current nxt
           (with_tbl (<[nxt := set_time_used 0 (set_state RUNNING p)]> (tbl s)) s))))).
Proof.
  intros Hl Hn0 Hp Hf. unfold run_next, process_set_state. rewrite (proj2 (Z.eqb_neq nxt 0)) by done.
  rewrite (bind_Ret _ _ _ _ _ (table_upd s _ p _ Hp)).
  erewrite bind_Ret by (apply table_upd, lookup_insert_eq).
  rewrite bind_modify. cbn [mprocs run with_tbl with_run]. rewrite insert_insert_eq.
  set (p2 := set_time_used 0 _). destruct (negb (prv =? nxt)).
  - rewrite bind_modify. set (s3 := with_switches _ _).
    destruct (context_switch_fit s3 prv nxt p2) as (cr3 & esp0 & E); try done.
    { apply lookup_insert_eq. }
    rewrite (bind_Ret _ _ _ _ _ E). by eexists _, _, _.
  - by exists (g_next_cr3 s), (tss_esp0 s), (switches s).
Qed.

Lemma run_next_rr s l prv nxt p :
  rr_base s l → nxt ≠ 0 → nxt ∉ l → (tbl s) !! nxt = Some p →
  ∃ s', run_next prv nxt s = Ret (tt, s') ∧
    rr_ok s' l ∧ current s' = nxt ∧ idle_process s' = idle_process s.
Proof.
  intros Hok Hn0 Hnl Hp. destruct (run_next_fit s prv nxt p) as (cr3 & esp0 & n & E); try done.
  { apply Hok. } { by eapply (rr_fit _ _ Hok). }
  eexists. split; [exact E|]. split_and!; try done. split_and!; try done.
  - by destruct (rr_base_upd s l _ p (set_time_used 0 (set_state RUNNING p)) Hok Hp eq_refl eq_refl id); split.
  - eexists. split; [apply lookup_insert_eq | done].
Qed.

Lemma preemptible_fit s p :
  current s ≠ 0 → (tbl s) !! current s = Some p → fit p → scheduler_locked s = 0 →
  preemptible s = Ret (true, s).
Proof.
  intros Hc Hp [Hf _] Hl. unfold preemptible. rewrite bind_get, (proj2 (Z.eqb_neq _ 0)) by done.
  rewrite (bind_Ret _ _ _ _ _ (table_load s _ p Hp)), Hf, Hl. done.
Qed.

Lemma rr_schedule_spec s l now :
  rr_ok s l →
  ∃ s', scheduler_schedule now s = Ret (tt, s') ∧
    rr_ok s' (put_back (idle_process s) (current s) (List.tl l)) ∧
    current s' = hd (idle_process s) l ∧ idle_process s' = idle_process s.
Proof.
  intros (Hok & Hc0 & Hcl & p & Hp & Hr). pose proof Hok as [H1 H2 H3 H4 H5 (H6 & H7 & H8) H9].
  unfold scheduler_schedule. rewrite bind_get, H2. cbn [negb].
  rewrite (bind_Ret _ _ _ _ _ (preemptible_fit s p Hc0 Hp (H9 _ _ Hp) H3)). cbn [negb].
  rewrite bind_modify. cbv zeta. set (s0 := with_irq false s).
  assert (rr_base s0 l) as Hok0 by (by destruct Hok; split).
  destruct (choose_rr s0 l now Hok0) as (s1 & E1 & Hok1 & Hsd & Hc1 & Hi1).
  rewrite (bind_Ret _ _ _ _ _ E1), (proj2 (Z.eqb_neq _ 0)) by done. cbn [idle_process with_irq s0] in *.
  assert (Z.of_nat (length (List.tl l)) + 2 < 2 ^ 32) as Hlen by (destruct l; cbn in *; lia).
  destruct (same_data_Some _ _ _ p Hsd Hp) as (p1 & Hp1 & Hs1).
  cbn in Hc1, Hi1. rewrite <- Hc1 in Hp1.
  assert (state p1 = RUNNING) as Hr1 by (by apply (f_equal state) in Hs1; cbn in Hs1; rewrite Hs1).
  assert (hd (idle_process s) l ≠ 0 ∧ (hd (idle_process s) l ∉ put_back (idle_process s) (current s) (List.tl l))
          ∧ is_Some ((tbl s) !! hd (idle_process s) l)) as (Hn0 & Hnl & Hns).
  { unfold put_back. pose proof (q_nodup _ _ _ H4) as Hnd. destruct l as [|n l]; cbn in *.
    - split_and!; [done | | done]. destruct (decide _); set_solver.
    - destruct (chain_member _ _ _ _ n (q_chain _ _ _ H4)) as [? ?]; [by left|].
      apply NoDup_cons in Hnd as [??]. split_and!; [done | | done]. destruct (decide _); set_solver. }
  unfold switch_to. rewrite <- Hc1.
  destruct (requeue_rr s1 (List.tl l) p1) as (s2 & E2 & Hok2 & Hc2 & Hi2 & Hdom); try done.
  { by rewrite Hc1. } { rewrite Hc1. destruct l; set_solver. }
  rewrite (bind_Ret _ _ _ _ _ E2), bind_get, (rr_policy _ _ Hok2).
  cbn [Z.eqb andb]. rewrite bind_mret.
  rewrite Hi1, Hc1 in Hok2. rewrite Hc1.
  destruct (same_data_is_Some _ _ _ Hsd Hns) as [q Hq]. destruct (Hdom _ (ex_intro _ q Hq)) as [q2 Hq2].
  destruct (run_next_rr s2 _ (current s) _ q2 Hok2 Hn0 Hnl Hq2) as (s' & E' & Hok' & Hc' & Hi').
  exists s'. rewrite E'. split_and!; try done. by rewrite Hi', Hi2, Hi1.
Qed.

(** Successive calls of the scheduler, at the given times. *)
Fixpoint schedules (nows : list Z) : M sched unit :=
  match nows with
  | [] => mret tt
  | now :: nows' => _ ← scheduler_schedule now; schedules nows'
  end.

(** C35: Round robin is fair: with the processes [l] ready, the [k]-th of them
    runs after exactly [k+1] calls of the scheduler, whatever the clock says,
    and the processes that had their turn wait behind the others in the order
    in which they ran.  No call panics or touches a dangling process. *)
Theorem rr_fair s l k a nows :
  rr_ok s l → current s ≠ idle_process s → l !! k = Some a → length nows = S k →
  ∃ s', schedules nows s = Ret (tt, s') ∧ current s' = a ∧
    rr_ok s' (drop (S k) l ++ current s :: take k l).
Proof.
  revert s l k a. induction nows as [|now nows IH]; intros s l k a Hok Hi Hk Hlen; [done|]. cbn [length] in Hlen.
  destruct (rr_schedule_spec s l now Hok) as (s1 & E1 & Hok1 & Hc1 & Hi1).
  cbn [schedules]. rewrite (bind_Ret _ _ _ _ _ E1). destruct l as [|n l]; [done|]. cbn [hd List.tl] in *.
  unfold put_back in Hok1. rewrite decide_False in Hok1 by done.
  destruct k as [|k]; cbn [lookup list_lookup] in Hk.
  - destruct nows; [|done]. exists s1. split_and!; [done | congruence |]. cbn. rewrite drop_0. exact Hok1.
  - pose proof (lookup_lt_Some _ _ _ Hk). injection Hlen as Hlen.
    destruct (IH s1 (l ++ [current s]) k a) as (s' & E' & Hc' & Hok'); try done.
    + rewrite Hc1, Hi1. intros ->. destruct Hok as [Hb _]. apply (rr_idle _ _ Hb). by left.
    + by apply lookup_app_l_Some.
    + exists s'. split_and!; [done | done |]. rewrite drop_app_le, take_app_le, Hc1 in Hok' by lia.
      rewrite <- app_assoc in Hok'. exact Hok'.
Qed.

(** With nothing ready, the scheduler runs the idle process and keeps the
    preempted one queued; the next call gives the processor back to it. *)
Theorem rr_idle_returns s now1 now2 :
  rr_ok s [] → current s ≠ idle_process s →
  ∃ s1 s2, scheduler_schedule now1 s = Ret (tt, s1) ∧ current s1 = idle_process s ∧ rr_ok s1 [current s] ∧
    scheduler_schedule now2 s1 = Ret (tt, s2) ∧ current s2 = current s ∧ rr_ok s2 [].
Proof.
  intros Hok Hi. destruct (rr_schedule_spec s [] now1 Hok) as (s1 & E1 & Hok1 & Hc1 & Hi1).
  unfold put_back in Hok1. rewrite decide_False in Hok1 by done. cbn [List.tl hd app] in *.
  destruct (rr_schedule_spec s1 _ now2 Hok1) as (s2 & E2 & Hok2 & Hc2 & Hi2).
  exists s1, s2. unfold put_back in Hok2. rewrite decide_True in Hok2 by congruence. done.
Qed.

(** ** The feedback queues in use *)

Record mq_base (s : sched) (ls : list (list Z)) : Prop := {
  mq_policy : current_policy s = SCHED_POLICY_MLFQ;
  mq_enabled : enabled s = true;
  mq_unlocked : scheduler_locked s = 0;
  mq_queues : mlfq_ok (run s) ls;
  mq_small : Z.of_nat (length (concat ls)) + 1 < 2 ^ 32;
  mq_idle : idle_process s ≠ 0 ∧ (idle_process s ∉ concat ls) ∧ is_Some ((tbl s) !! idle_process s);
  mq_fit : map_Forall (λ _, fit) (tbl s);
}.

Definition mq_ok (s : sched) (ls : list (list Z)) : Prop :=
  mq_base s ls ∧ current s ≠ 0 ∧ (current s ∉ concat ls) ∧
  ∃ p, (tbl s) !! current s = Some p ∧ state p = RUNNING.

(** The process that runs next, and the queues once the running process was
    appended to its level and the next one taken out. *)
Definition mq_next (s : sched) (ls : list (list Z)) : Z :=
  default (idle_process s) (List.find (runnable (tbl s)) (concat ls)).

Definition mq_level (s : sched) : nat :=
  match (tbl s) !! current s with Some p => Z.to_nat (clamp (mlfq_level p)) | None => 0 end.

Definition mq_requeued (s : sched) (ls : list (list Z)) : list (list Z) :=
  if decide (current s = idle_process s) then ls
  else alter (λ l, l ++ [current s]) (mq_level s) ls.

Definition mq_after (s : sched) (ls : list (list Z)) : list (list Z) :=
  filter (λ a, a ≠ mq_next s ls) <$> mq_requeued s ls.

Lemma fit_core p p' : core p' = core p → fit p → fit p'.
Proof.
  unfold fit. intros H. apply (f_equal (λ p, (preempt_count p, pid p, page_dir p))) in H.
  cbn in H. by injection H as -> -> ->.
Qed.

Lemma fit_same_core (t t' : procs) :
  (∀ b, core <$> t' !! b = core <$> t !! b) → map_Forall (λ _, fit) t → map_Forall (λ _, fit) t'.
Proof.
  intros Hs Hf a p' Hp'. specialize (Hs a). rewrite Hp' in Hs.
  destruct (t !! a) as [p|] eqn:Hp; [|done]. apply (inj Some) in Hs.
  by eapply fit_core; [|eapply Hf].
Qed.

Lemma core_is_Some (t t' : procs) b :
  (∀ b, core <$> t' !! b = core <$> t !! b) → is_Some (t !! b) → is_Some (t' !! b).
Proof. intros H [p Hp]. specialize (H b). rewrite Hp in H. destruct (t' !! b); [eauto | done]. Qed.

Lemma enqueue_core s a p p' s' :
  (mprocs s) !! a = Some p → (mprocs s') !! a = Some p' → strip p' = strip (enqueued p) →
  (∀ b, b ≠ a → strip <$> (mprocs s') !! b = strip <$> (mprocs s) !! b) →
  ∀ b, core <$> (mprocs s') !! b = core <$> (mprocs s) !! b.
Proof.
  intros Hp Hp' Hs Hoth b. destruct (decide (b = a)) as [->|Hne].
  - rewrite Hp, Hp'. cbn. by rewrite (strip_core _ _ Hs), enqueued_core.
  - specialize (Hoth b Hne). destruct (mprocs s' !! b), (mprocs s !! b); try done.
    apply (inj Some) in Hoth. cbn. by rewrite (strip_core _ _ Hoth).
Qed.

Lemma filter_out_nodup (l1 l2 : list Z) a :
  NoDup (l1 ++ a :: l2) → filter (λ x, x ≠ a) (l1 ++ a :: l2) = l1 ++ l2.
Proof.
  intros (_ & Hd & [Hn _]%NoDup_cons)%NoDup_app. rewrite filter_app, filter_cons_False by (by intros []).
  f_equal; apply filter_all; [|set_solver]. intros x Hx ->. apply (Hd a Hx). by left.
Qed.

Lemma dequeue_filter s ls i l1 a l2 :
  mlfq_ok s ls → ls !! i = Some (l1 ++ a :: l2) →
  <[i := l1 ++ l2]> ls = (filter (λ x, x ≠ a) <$> ls : list (list Z)).
Proof.
  intros Hok Hl. apply list_eq. intros j. rewrite list_lookup_fmap.
  destruct (decide (i = j)) as [<-|Hne].
  - rewrite list_lookup_insert_eq, Hl by (by eapply lookup_lt_Some). cbn. f_equal. symmetry.
    apply filter_out_nodup. destruct (ok_index s ls Hok i _ Hl) as (_ & lv & _ & Hq & _).
    apply (q_nodup _ _ _ Hq).
  - rewrite list_lookup_insert_ne by done. destruct (ls !! j) as [l|] eqn:Hj; [|done]. cbn. f_equal.
    symmetry. apply filter_all. intros x Hx ->. apply Hne.
    eapply (ok_disjoint s ls Hok i j _ _ a); [exact Hl | exact Hj | set_solver | done].
Qed.

Lemma filter_fmap_id (ls : list (list Z)) a :
  a ∉ concat ls → (filter (λ x, x ≠ a) <$> ls) = ls.
Proof.
  induction ls as [|l ls IH]; intros Ha; [done|]. cbn in *. f_equal; [|apply IH; set_solver].
  apply filter_all. set_solver.
Qed.

Lemma on_run_Ret {A} (c : M mst A) s a m : c (run s) = Ret (a, m) → on_run c s = Ret (a, with_run m s).
Proof. intros H. unfold on_run, zoom. by rewrite H. Qed.

Lemma with_run_id s : with_run (run s) s = s.
Proof. by destruct s. Qed.

(** Changing a process that is not queued, links included. *)
Lemma mq_base_upd s ls a p p' :
  mq_base s ls → a ∉ concat ls → (tbl s) !! a = Some p → (fit p → fit p') →
  mq_base (with_tbl (<[a := p']> (tbl s)) s) ls.
Proof.
  intros [H1 H2 H3 H4 H5 (H6 & H7 & H8) H9] Ha Hp Hf. split; try done; cbn.
  - eapply mlfq_ok_upd; [done | done | apply (mo_changes _ _ H4) |]. by destruct (ml (run s)).
  - split_and!; try done. by apply lookup_insert_is_Some'; right.
  - by eapply fit_insert.
Qed.

Lemma requeue_mq s ls p :
  mq_base s ls → current s ≠ 0 → current s ∉ concat ls → (tbl s) !! current s = Some p → state p = RUNNING →
  ∃ s', requeue (current s) s = Ret (tt, s') ∧ s' = with_run (run s') s ∧
    mlfq_ok (run s') (mq_requeued s ls) ∧ map_Forall (λ _, fit) (tbl s') ∧
    (∀ a, is_Some ((tbl s) !! a) → is_Some ((tbl s') !! a)).
Proof.
  intros Hok Hc0 Hcl Hp Hr. unfold requeue. rewrite bind_get.
  rewrite (bind_Ret _ _ _ _ _ (table_load s _ p Hp)), bool_decide_true by done.
  unfold process_set_state at 1. rewrite (proj2 (Z.eqb_neq (current s) 0)) by done.
  rewrite (bind_Ret _ _ _ _ _ (table_upd s _ p _ Hp)).
  pose proof (mq_base_upd s ls _ p (set_state READY p) Hok Hcl Hp id) as Hok1.
  set (s1 := with_tbl _ s) in *.
  assert ((tbl s1) !! current s = Some (set_state READY p)) as Hp1 by apply lookup_insert_eq.
  rewrite (bind_Ret _ _ _ _ _ (table_upd s1 _ _ _ Hp1)).
  pose proof (mq_base_upd s1 ls _ _ (set_time_used 0 (set_state READY p)) Hok1 Hcl Hp1 id) as Hok2.
  set (s2 := with_tbl _ s1) in *. set (p2 := set_time_used 0 _) in *.
  assert ((tbl s2) !! current s = Some p2) as Hp2 by apply lookup_insert_eq.
  assert (∀ a, is_Some ((tbl s) !! a) → is_Some ((tbl s2) !! a)) as Hdom.
  { intros a Ha. do 2 (apply lookup_insert_is_Some'; right). done. }
  unfold mq_requeued. destruct (Z.eqb_spec (current s) (idle_process s)) as [Hi|Hi]; cbn [negb].
  { rewrite decide_True by done. exists s2. destruct Hok2. split_and!; done. }
  rewrite decide_False, (mq_policy _ _ Hok) by done. cbn [Z.eqb Pos.eqb].
  unfold mq_level. rewrite Hp. set (i := Z.to_nat (clamp (mlfq_level p))).
  destruct (lookup_lt_is_Some_2 ls i) as [l Hl].
  { rewrite (mo_lists _ _ (mq_queues _ _ Hok)). unfold i, clamp. lia. }
  destruct (mlfq_enqueue_spec (run s2) ls (current s) p2 i l) as (m & E & Hokm & (p' & Hp' & Hs') & Hoth & _);
    try done; [apply Hok2 | apply Hok2 | unfold i; cbn; unfold clamp; lia |].
  rewrite (on_run_Ret _ s2 _ _ E). rewrite (alter_as_insert _ _ _ _ Hl).
  pose proof (enqueue_core (run s2) _ _ _ m Hp2 Hp' Hs' Hoth) as Hcore.
  eexists. split; [reflexivity|]. split_and!; [done | done | |].
  - eapply (fit_same_core (tbl s2)); [exact Hcore | apply Hok2].
  - intros a Ha. eapply (core_is_Some (tbl s2)); [exact Hcore | by apply Hdom].
Qed.

Lemma run_next_mq s ls prv nxt p :
  mq_base s ls → nxt ≠ 0 → nxt ∉ concat ls → (tbl s) !! nxt = Some p →
  ∃ s', run_next prv nxt s = Ret (tt, s') ∧
    mq_ok s' ls ∧ current s' = nxt ∧ idle_process s' = idle_process s.
Proof.
  intros Hok Hn0 Hnl Hp. destruct (run_next_fit s prv nxt p) as (cr3 & esp0 & n & E); try done.
  { apply Hok. } { by eapply (mq_fit _ _ Hok). }
  eexists. split; [exact E|]. split_and!; try done. split_and!; try done.
  - by destruct (mq_base_upd s ls _ p (set_time_used 0 (set_state RUNNING p)) Hok Hnl Hp id); split.
  - eexists. split; [apply lookup_insert_eq | done].
Qed.

(** The queues after the boost, when it is due. *)
Definition boosted (ls : list (list Z)) : list (list Z) :=
  match ls with
  | [l0; l1; l2; l3; l4] => [l0 ++ l4 ++ l3 ++ l2 ++ l1; []; []; []; []]
  | _ => ls
  end.

Definition maybe_boosted (now : Z) (s : sched) (ls : list (list Z)) : list (list Z) :=
  if boost_due now (ml (run s)) then boosted ls else ls.

Lemma ok_five s ls : mlfq_ok s ls → ∃ l0 l1 l2 l3 l4, ls = [l0; l1; l2; l3; l4].
Proof.
  intros Hok. pose proof (mo_lists _ _ Hok) as H.
  do 5 (destruct ls as [|? ls]; [done|]). destruct ls; [|done]. eauto 6.
Qed.

Lemma runnable_core (t t' : procs) a :
  (∀ b, core <$> t' !! b = core <$> t !! b) → runnable t' a = runnable t a.
Proof.
  intros H. unfold runnable. specialize (H a). destruct (t' !! a), (t !! a); try done.
  apply (inj Some), (f_equal state) in H. cbn in H. by rewrite H.
Qed.

Lemma find_ext {A} (f g : A → bool) l : (∀ x, f x = g x) → List.find f l = List.find g l.
Proof. intros H. induction l as [|x l IH]; [done|]. cbn. by rewrite H, IH. Qed.

(** The boost of a scheduler state: same processes, same current process. *)
Lemma boost_mq s ls now :
  mq_ok s ls →
  ∃ m, mlfq_boost_all now (run s) = Ret (tt, m) ∧
    let s' := with_run m s in let ls' := maybe_boosted now s ls in
    mq_ok s' ls' ∧ length (concat ls') = length (concat ls) ∧ mq_next s' ls' = mq_next s ls' ∧
    mq_level s' = mq_level s.
Proof.
  intros (Hb & Hc0 & Hcl & p & Hp & Hr). unfold maybe_boosted.
  destruct (boost_due now (ml (run s))) eqn:Hdue.
  2: { exists (run s). split; [by apply mlfq_boost_all_early|]. cbv zeta. rewrite with_run_id.
       split_and!; try done. split_and!; try done. by exists p. }
  destruct (ok_five _ _ (mq_queues _ _ Hb)) as (l0 & l1 & l2 & l3 & l4 & ->).
  destruct (mlfq_boost_all_spec (run s) now l0 l1 l2 l3 l4) as (m & E & Hokm & Hcore & Hstrip);
    [apply Hb | done |].
  exists m. split; [done|]. cbv zeta. cbn [boosted concat] in *. rewrite !app_nil_r in *.
  destruct Hb as [H1 H2 H3 H4 H5 (H6 & H7 & H8) H9]. cbn [concat] in *. rewrite !app_nil_r in *.
  assert (strip <$> mprocs m !! current s = Some (strip p)) as Hsp by (rewrite Hstrip by set_solver; by rewrite Hp).
  destruct (mprocs m !! current s) as [p'|] eqn:Hp'; [|done]. apply (inj Some) in Hsp.
  split_and!; [split_and!; [|done|set_solver|]| | |].
  - split; cbn [run with_run current_policy enabled scheduler_locked idle_process concat];
      rewrite ?app_nil_r; try done.
    + rewrite !length_app in *. lia.
    + split_and!; [done | set_solver | by eapply core_is_Some].
    + by eapply fit_same_core.
  - exists p'. split; [done|]. apply (f_equal state) in Hsp. cbn in Hsp. congruence.
  - rewrite !length_app. lia.
  - unfold mq_next. cbn [idle_process with_run run]. f_equal. apply find_ext. intros a. by apply runnable_core.
  - unfold mq_level. cbn [current with_run run]. rewrite Hp', Hp.
    apply strip_level in Hsp. by rewrite Hsp.
Qed.

Lemma concat_requeued s ls a :
  mlfq_ok (run s) ls → a ∈ concat (mq_requeued s ls) ↔
    a ∈ concat ls ∨ a = current s ∧ current s ≠ idle_process s.
Proof.
  intros Hok. unfold mq_requeued. destruct (decide _) as [|Hne]; [tauto|].
  destruct (lookup_lt_is_Some_2 ls (mq_level s)) as [l Hl].
  { rewrite (mo_lists _ _ Hok). unfold mq_level, clamp. destruct (_ !! _); lia. }
  rewrite (alter_as_insert _ _ _ _ Hl). split.
  - intros (i & l' & Hl' & Ha)%concat_elem_of.
    apply list_lookup_insert_Some in Hl' as [(_ & <- & _)|(_ & Hl')]; [|left; by eapply elem_of_concat].
    apply elem_of_app in Ha as [Ha|Ha%list_elem_of_singleton]; [left; by eapply elem_of_concat | by right].
  - intros [(i & l' & Hl' & Ha)%concat_elem_of|[-> _]].
    + destruct (decide (mq_level s = i)) as [<-|].
      * eapply elem_of_concat; [apply list_lookup_insert_eq; by eapply lookup_lt_Some|]. set_solver.
      * eapply elem_of_concat; [by rewrite list_lookup_insert_ne|done].
    + eapply elem_of_concat; [apply list_lookup_insert_eq; by eapply lookup_lt_Some|]. set_solver.
Qed.

Lemma alter_out {A} (f : A → A) (ls : list A) i : ls !! i = None → alter f i ls = ls.
Proof. revert i. induction ls as [|x ls IH]; intros [|i] H; simplify_eq/=; f_equal; auto. Qed.

Lemma length_requeued s ls : (length (concat (mq_requeued s ls)) ≤ length (concat ls) + 1)%nat.
Proof.
  unfold mq_requeued. destruct (decide _); [lia|].
  destruct (ls !! mq_level s) as [l|] eqn:Hl.
  - rewrite (alter_as_insert _ _ _ _ Hl). pose proof (length_concat_insert ls _ l (l ++ [current s]) Hl).
    rewrite length_app in *. cbn in *. lia.
  - by rewrite alter_out, Nat.add_comm by done; apply le_S.
Qed.

(** Taking the chosen process out of the queues. *)
Lemma take_next_mq s ls nxt :
  mq_base s ls → (nxt = idle_process s ∨ nxt ∈ concat ls) →
  ∃ m, (if (current_policy s =? SCHED_POLICY_MLFQ) && negb (nxt =? idle_process s)
        then on_run (mlfq_dequeue nxt) else mret tt : M sched unit) s = Ret (tt, with_run m s) ∧
    mq_base (with_run m s) (filter (λ a, a ≠ nxt) <$> ls) ∧ same_data (tbl s) (mprocs m).
Proof.
  intros Hb Hn. rewrite (mq_policy _ _ Hb). cbn [Z.eqb Pos.eqb andb].
  pose proof Hb as [H1 H2 H3 H4 H5 (H6 & H7 & H8) H9].
  destruct (Z.eqb_spec nxt (idle_process s)) as [->|Hne]; cbn [negb].
  - exists (run s). rewrite with_run_id, filter_fmap_id by done. split_and!; done.
  - destruct Hn as [|(i & l & Hl & Ha)%concat_elem_of]; [done|].
    apply list_elem_of_split in Ha as (l1 & l2 & ->).
    destruct (mlfq_dequeue_spec (run s) ls nxt i l1 l2 H4 Hl) as (m & E & Hokm & Hsd & _).
    rewrite (dequeue_filter _ _ _ _ _ _ H4 Hl) in Hokm.
    exists m. split; [by apply on_run_Ret|]. split; [|done]. split; try done.
    + pose proof (length_concat_insert ls i _ (l1 ++ l2) Hl) as Hlen.
      rewrite (dequeue_filter _ _ _ _ _ _ H4 Hl), !length_app in Hlen. cbn in Hlen. lia.
    + split_and!; [done | | by eapply same_data_is_Some].
      intros (j & l' & Hl' & Ha)%concat_elem_of. rewrite list_lookup_fmap in Hl'.
      destruct (ls !! j) as [lj|] eqn:Hj; simplify_eq/=.
      apply list_elem_of_filter in Ha as [_ Ha]. apply H7. by eapply elem_of_concat.
    + by eapply fit_same_data.
Qed.

Lemma not_in_filtered (ls : list (list Z)) a : a ∉ concat (filter (λ x, x ≠ a) <$> ls).
Proof.
  induction ls as [|l ls IH]; cbn; [set_solver|]. intros [Ha|Ha]%elem_of_app; [|done].
  by apply list_elem_of_filter in Ha as [? _].
Qed.

Lemma mq_next_cases s ls :
  mlfq_ok (run s) ls →
  mq_next s ls = idle_process s ∧ List.find (runnable (tbl s)) (concat ls) = None ∨
  mq_next s ls ∈ concat ls ∧ List.find (runnable (tbl s)) (concat ls) = Some (mq_next s ls).
Proof.
  intros Hok. unfold mq_next. destruct (List.find _ _) as [a|] eqn:E; [right | by left].
  apply List.find_some in E as E'. split; [|done]. apply list_elem_of_In. apply E'.
Qed.

Lemma choose_mq s ls now :
  mq_ok s ls → let ls1 := maybe_boosted now s ls in
  ∃ m, choose now s = Ret (mq_next s ls1, with_run m s) ∧ mq_ok (with_run m s) ls1 ∧
    length (concat ls1) = length (concat ls) ∧ mq_next (with_run m s) ls1 = mq_next s ls1 ∧
    mq_level (with_run m s) = mq_level s.
Proof.
  intros Hok. destruct (boost_mq s ls now Hok) as (m & E & Hok1 & Hlen1 & Hnx & Hlv). cbv zeta in *.
  exists m. split; [|done]. unfold choose. rewrite bind_get, (mq_policy _ _ (proj1 Hok)).
  cbn [Z.eqb Pos.eqb]. pose proof (mq_queues _ _ (proj1 Hok1)) as Hq.
  erewrite bind_Ret; [|rewrite (bind_Ret _ _ _ _ _ (on_run_Ret _ s _ _ E));
    apply on_run_Ret, mlfq_pick_next_spec, Hq].
  rewrite <- Hnx. set (ls1 := maybe_boosted now s ls) in *. unfold mq_next.
  destruct (mq_next_cases (with_run m s) ls1 Hq) as [[_ Hf]|[Hin Hf]]; rewrite Hf; [done|].
  cbn [default]. apply concat_elem_of in Hin as (i & l & Hl & Ha).
  rewrite (proj2 (Z.eqb_neq _ 0)); [done|]. by eapply (ok_nonzero _ _ Hq).
Qed.

(** From the choice to the new process. *)
Lemma switch_to_mq s ls nxt :
  mq_ok s ls → Z.of_nat (length (concat ls)) + 2 < 2 ^ 32 →
  (nxt = idle_process s ∨ nxt ∈ concat ls) →
  ∃ s', switch_to (current s) nxt s = Ret (tt, s') ∧ current s' = nxt ∧
    mq_ok s' (filter (λ a, a ≠ nxt) <$> mq_requeued s ls) ∧ idle_process s' = idle_process s.
Proof.
  intros (Hb & Hc0 & Hcl & p & Hp & Hr) Hlen Hn. unfold switch_to.
  destruct (requeue_mq s ls p) as (s2 & E2 & Hs2 & Hok2 & Hf2 & Hdom2); try done.
  rewrite (bind_Ret _ _ _ _ _ E2), bind_get. destruct Hb as [H1 H2 H3 H4 H5 (H6 & H7 & H8) H9].
  pose proof (length_requeued s ls) as Hlr.
  assert (mq_base s2 (mq_requeued s ls)) as Hb2.
  { rewrite Hs2. split; try done; cbn [idle_process with_run run]; [lia|]. split_and!; [done | | by apply Hdom2].
    rewrite concat_requeued by done. naive_solver. }
  assert (nxt ≠ 0 ∧ is_Some ((tbl s) !! nxt)) as (Hn0 & Hns).
  { destruct Hn as [->|(i & l & Hl & Ha)%concat_elem_of]; [done|].
    split; [by eapply (ok_nonzero _ _ H4)|]. destruct (ok_level _ _ H4 i l nxt Hl Ha) as (q & -> & _). eauto. }
  destruct (take_next_mq s2 (mq_requeued s ls) nxt Hb2) as (m & E & Hb3 & Hsd).
  { destruct Hn as [->|Hn]; [left; by rewrite Hs2|right]. apply concat_requeued; [done | by left]. }
  rewrite (bind_Ret _ _ _ _ _ E).
  destruct (same_data_is_Some _ _ _ Hsd (Hdom2 _ Hns)) as [q Hq].
  destruct (run_next_mq _ _ (current s) nxt q Hb3 Hn0 (not_in_filtered _ _) Hq) as (s' & E' & Hok' & Hc' & Hi').
  exists s'. split_and!; try done. rewrite Hi', Hs2. done.
Qed.

(** A scheduling decision under the feedback policy, from a state in which the
    current process runs and is not in a queue.  The boost is applied
    when it is due; the process that runs next is the first runnable one in
    level order (the idle process if there is none); the preempted process is
    appended to the queue of its level, the chosen one leaves its queue; the
    state stays well formed, so that this holds of every later decision. *)
Theorem mlfq_schedule_correct s ls now :
  mq_ok s ls → Z.of_nat (length (concat ls)) + 2 < 2 ^ 32 →
  let ls1 := maybe_boosted now s ls in
  ∃ s', scheduler_schedule now s = Ret (tt, s') ∧ current s' = mq_next s ls1 ∧
    mq_ok s' (mq_after s ls1) ∧ idle_process s' = idle_process s.
Proof.
  intros Hok Hlen. cbv zeta. pose proof Hok as (Hb & Hc0 & Hcl & p & Hp & Hr).
  unfold scheduler_schedule. rewrite bind_get, (mq_enabled _ _ Hb). cbn [negb].
  rewrite (bind_Ret _ _ _ _ _ (preemptible_fit s p Hc0 Hp (mq_fit _ _ Hb _ _ Hp) (mq_unlocked _ _ Hb))).
  cbn [negb]. rewrite bind_modify. cbv zeta. set (s0 := with_irq false s).
  assert (mq_ok s0 ls) as Hok0 by (split_and!; [by destruct Hb; split | done | done | by exists p]).
  destruct (choose_mq s0 ls now Hok0) as (m & E & Hok1 & Hlen1 & Hnx & Hlv). cbv zeta in *.
  rewrite (bind_Ret _ _ _ _ _ E), (proj2 (Z.eqb_neq (current s) 0)) by done.
  set (ls1 := maybe_boosted now s ls). change (maybe_boosted now s0 ls) with ls1 in *.
  destruct (switch_to_mq (with_run m s0) ls1 (mq_next s0 ls1)) as (s' & E' & Hc' & Hok' & Hi'); try done.
  { by rewrite Hlen1. }
  { rewrite <- Hnx. destruct (mq_next_cases _ _ (mq_queues _ _ (proj1 Hok1))) as [[-> _]|[? _]]; [by left | by right]. }
  exists s'. split_and!; try done. unfold mq_requeued in Hok'. rewrite Hlv in Hok'. exact Hok'.
Qed.

(** ** Concrete states *)

Definition user_proc (n : Z) (st : process_state) (level nx pv : Z) : process :=
  {| pid := n; state := st; priority := 120; preempt_count := 0; page_dir := Some (0x100000 + n * 4096);
     kernel_stack := 0xC0200000; time_slice := 10; time_used := 0; time_slice_remaining := 10;
     mlfq_level := level; wait_time := 0; boost_count := 0; next := nx; prev := pv; next_waiting := 0 |}.

Definition kernel_idle : process := set_next 0 (demo_proc 1 READY 0 10).

Definition demo_sched (t : procs) (policy c : Z) (rq : queue) (q0 : queue) (en : bool) : sched :=
  {| run := {| mprocs := t;
               ml := {| levels := [ {| lq := q0; time_quantum := 100 |};
                                    {| lq := empty_queue; time_quantum := 200 |};
                                    {| lq := empty_queue; time_quantum := 400 |};
                                    {| lq := empty_queue; time_quantum := 800 |};
                                    {| lq := empty_queue; time_quantum := 1600 |} ];
                        boost_time := 0; boost_interval := 1000; total_count := count q0;
                        total_switches := 0; level_changes := replicate 5 0; boosts := 0 |} |};
     current_policy := policy; current := c; idle_process := 1; ready := rq; switches := 0;
     enabled := en; scheduler_locked := 0; g_next_cr3 := 0; tss_esp0 := 0; irq_on := true |}.

(** Process 1 is the idle thread, 2 runs, 3 and 4 are ready in this order. *)
Definition four_procs : procs :=
  <[1 := kernel_idle]> (<[2 := user_proc 2 RUNNING 0 0 0]>
  (<[3 := user_proc 3 READY 0 4 0]> (<[4 := user_proc 4 READY 0 0 3]> ∅))).

Definition queue_34 : queue := {| head := 3; tail := 4; count := 2 |}.

Lemma queue_34_ok : queue_ok four_procs queue_34 [3; 4].
Proof.
  split; try done; [apply (bool_decide_unpack _); done|].
  cbn [chain hd]. split_and!; try done; by eexists.
Qed.

Lemma four_procs_fit : map_Forall (λ _, fit) four_procs.
Proof.
  repeat apply map_Forall_insert_2; try apply map_Forall_empty;
    split; try done; first [by left | by right].
Qed.

Definition demo_rr : sched := demo_sched four_procs SCHED_POLICY_RR 2 queue_34 empty_queue true.

Lemma demo_rr_ok : rr_ok demo_rr [3; 4].
Proof.
  split_and!; [|done | apply (bool_decide_unpack _); done | by eexists].
  split; try done; [apply queue_34_ok | | apply four_procs_fit].
  split_and!; [done | apply (bool_decide_unpack _); done | by eexists].
Qed.

Lemma rr_fair_witness : ∃ s', schedules [17; 42] demo_rr = Ret (tt, s') ∧ current s' = 4 ∧ rr_ok s' [2; 3].
Proof. apply (rr_fair demo_rr [3; 4] 1 4 [17; 42] demo_rr_ok); [done | reflexivity | reflexivity]. Defined.

Definition two_procs : procs := <[1 := kernel_idle]> (<[2 := user_proc 2 RUNNING 0 0 0]> ∅).

Lemma rr_idle_returns_witness :
  ∃ s1 s2, scheduler_schedule 5 (demo_sched two_procs SCHED_POLICY_RR 2 empty_queue empty_queue true) = Ret (tt, s1) ∧
    current s1 = 1 ∧ scheduler_schedule 6 s1 = Ret (tt, s2) ∧ current s2 = 2.
Proof.
  destruct (rr_idle_returns (demo_sched two_procs SCHED_POLICY_RR 2 empty_queue empty_queue true) 5 6)
    as (s1 & s2 & E1 & H1 & _ & E2 & H2 & _); [|done|by exists s1, s2].
  split_and!; [|done | set_solver | by eexists]. split; try done.
  - apply empty_queue_ok.
  - split_and!; [done | set_solver | by eexists].
  - repeat apply map_Forall_insert_2; try apply map_Forall_empty; split; try done; first [by left | by right].
Defined.

(** The same processes under the feedback policy, 3 and 4 on level 0. *)
Definition demo_mq : sched := demo_sched four_procs SCHED_POLICY_MLFQ 2 empty_queue queue_34 true.

Lemma demo_mq_queues : mlfq_ok (run demo_mq) [[3; 4]; []; []; []; []].
Proof.
  split; try done.
  - split; [done|]. intros i q l Hq Hl.
    destruct i as [|[|[|[|[|i]]]]]; cbn in Hq, Hl; simplify_eq; try (split; [apply empty_queue_ok | set_solver]).
    split; [apply queue_34_ok|].
    intros a [->|Ha]%elem_of_cons; [by eexists|]. apply list_elem_of_singleton in Ha as ->. by eexists.
  - intros i lv Hlv. by do 5 (destruct i as [|i]; [by simplify_eq/=|]).
Qed.

Lemma mlfq_schedule_correct_witness :
  ∃ s', scheduler_schedule 7 demo_mq = Ret (tt, s') ∧ current s' = 3 ∧ mq_ok s' [[4; 2]; []; []; []; []].
Proof.
  destruct (mlfq_schedule_correct demo_mq [[3; 4]; []; []; []; []] 7) as (s' & E & Hc & Hok & _).
  - split_and!; [|done | apply (bool_decide_unpack _); done | by eexists].
    split; try done; [apply demo_mq_queues | | apply four_procs_fit].
    split_and!; [done | apply (bool_decide_unpack _); done | by eexists].
  - reflexivity.
  - exists s'. split_and!; [done | by rewrite Hc | exact Hok].
Defined.
