(* ===== verification/Starvation.v ===== *)
(** * The first process keeps the processor

    [scheduler_enable] starts the first process of the feedback queues without
    taking it out of its queue (only the later path of [scheduler_schedule] calls
    [mlfq_dequeue]).  From then on the process is at the head of level 0 while
    it runs.  This file shows what follows: whatever sequence of yields, timer
    ticks, preemption control and newly added processes comes next, every
    decision picks the same process again. *)

From S2P Require Import Prelude ProcList Mlfq Scheduler.

#[local] Open Scope Z_scope.

(** ** Queueing a process that is already the head *)

Lemma bounce_head t a b c p pb :
  t !! a = Some p → t !! b = Some pb → a ≠ 0 → b ≠ 0 → 0 < c → c + 1 < 2 ^ 32 →
  let q := {| head := a; tail := b; count := c |} in
  ∃ q1 t1 t2, push_back q a t = Ret (q1, t1) ∧ unlink q1 a t1 = Ret (q, t2) ∧
    same_data t t1 ∧ same_data t1 t2.
Proof.
  intros Hp Hb Ha0 Hb0 Hc Hc'. cbv zeta. unfold push_back. cbn [tail head count].
  rewrite (bind_Ret _ _ _ _ _ (upd_proc_eq t a p _ Hp)).
  rewrite (bind_Ret _ _ _ _ _ (upd_proc_eq _ a _ _ (lookup_insert_eq _ _ _))), insert_insert_eq.
  rewrite (proj2 (Z.eqb_neq b 0)), u32_small by (done || lia). cbn [negb].
  assert (∀ h tl, {| head := h; tail := tl; count := if 0 <? c + 1 then c + 1 - 1 else c + 1 |} =
                  {| head := h; tail := tl; count := c |}) as Hcount.
  { intros. f_equal. rewrite (proj2 (Z.ltb_lt _ _)) by lia. lia. }
  set (p1 := set_prev b (set_next 0 p)).
  assert (same_data t (<[a := p1]> t)) as Hsd by (eapply same_data_insert; [done | by destruct p]).
  destruct (decide (b = a)) as [->|Hne].
  - rewrite (bind_Ret _ _ _ _ _ (upd_proc_eq _ a _ _ (lookup_insert_eq _ _ _))), insert_insert_eq.
    set (t1 := <[a := set_next a p1]> t). eexists _, t1, _. split_and!; [reflexivity| | |].
    + unfold unlink. cbn [head tail count].
      rewrite (bind_Ret _ _ _ _ _ (load_proc_eq t1 a _ (lookup_insert_eq _ _ _))). cbn [prev next set_next p1 set_prev].
      rewrite (proj2 (Z.eqb_neq a 0)) by done. cbn [negb].
      erewrite bind_Ret; [|rewrite (bind_Ret _ _ _ _ _ (upd_proc_eq t1 a _ _ (lookup_insert_eq _ _ _))); reflexivity].
      rewrite (bind_Ret _ _ _ _ _ (load_proc_eq _ a _ (lookup_insert_eq _ _ _))). cbn [prev next set_next set_prev].
      rewrite (proj2 (Z.eqb_neq a 0)) by done. cbn [negb].
      erewrite bind_Ret; [|rewrite (bind_Ret _ _ _ _ _ (upd_proc_eq _ a _ _ (lookup_insert_eq _ _ _))); reflexivity].
      rewrite (bind_Ret _ _ _ _ _ (upd_proc_eq _ a _ _ (lookup_insert_eq _ _ _))).
      rewrite (bind_Ret _ _ _ _ _ (upd_proc_eq _ a _ _ (lookup_insert_eq _ _ _))).
      rewrite Hcount. reflexivity.
    + eapply same_data_insert; [exact Hp | by destruct p].
    + rewrite !insert_insert_eq. eapply (same_data_insert t1); [apply lookup_insert_eq | by destruct p].
  - erewrite bind_Ret; [|apply upd_proc_eq; by rewrite lookup_insert_ne].
    set (t1 := <[b := set_next a pb]> (<[a := p1]> t)).
    assert (t1 !! a = Some p1) as Ha1 by (unfold t1; by rewrite lookup_insert_ne, lookup_insert_eq).
    eexists _, t1, _. split_and!; [reflexivity| | |].
    + unfold unlink. cbn [head tail count].
      rewrite (bind_Ret _ _ _ _ _ (load_proc_eq t1 a _ Ha1)). cbn [prev next set_next p1 set_prev].
      rewrite (proj2 (Z.eqb_neq b 0)) by done. cbn [negb].
      erewrite bind_Ret; [|rewrite (bind_Ret _ _ _ _ _ (upd_proc_eq t1 b _ _ (lookup_insert_eq _ _ _))); reflexivity].
      erewrite bind_Ret; [|apply load_proc_eq; rewrite lookup_insert_ne by done; exact Ha1].
      cbn [prev next set_next p1 set_prev Z.eqb negb]. rewrite bind_mret.
      erewrite bind_Ret; [|apply upd_proc_eq; rewrite lookup_insert_ne by done; exact Ha1].
      rewrite (bind_Ret _ _ _ _ _ (upd_proc_eq _ a _ _ (lookup_insert_eq _ _ _))).
      rewrite Hcount. reflexivity.
    + eapply same_data_trans; [exact Hsd|]. eapply same_data_insert; [by rewrite lookup_insert_ne | by destruct pb].
    + rewrite insert_insert_eq.
      eapply same_data_trans; [|eapply same_data_insert; [by rewrite lookup_insert_ne | by destruct p]].
      eapply same_data_insert; [apply lookup_insert_eq | by destruct pb].
Qed.

Lemma bounce_empty t a p :
  t !! a = Some p → a ≠ 0 →
  ∃ q1 t1 t2, push_back empty_queue a t = Ret (q1, t1) ∧ unlink q1 a t1 = Ret (empty_queue, t2) ∧
    same_data t t1 ∧ same_data t1 t2.
Proof.
  intros Hp Ha.
  destruct (push_back_spec t empty_queue [] a (empty_queue_ok t)) as (q1 & t1 & E1 & Hq1 & Hs1 & _);
    [set_solver | done | eauto | done |].
  destruct (unlink_spec t1 q1 [] a [] Hq1) as (q2 & t2 & E2 & Hq2 & Hs2 & _).
  exists q1, t1, t2. split_and!; try done. rewrite E2. do 2 f_equal.
  destruct Hq2 as [Hh Ht Hc _ _]. destruct q2. cbn in *. by subst.
Qed.

(** A queue that a running process can enter and leave without changing it. *)
Definition bounces (t : procs) (a : Z) (q : queue) : Prop :=
  q = empty_queue ∨
  head q = a ∧ tail q ≠ 0 ∧ is_Some (t !! tail q) ∧ 0 < count q ∧ count q + 1 < 2 ^ 32.

Lemma bounce t a q p :
  t !! a = Some p → a ≠ 0 → bounces t a q →
  ∃ q1 t1 t2, push_back q a t = Ret (q1, t1) ∧ unlink q1 a t1 = Ret (q, t2) ∧
    same_data t t1 ∧ same_data t1 t2.
Proof.
  intros Hp Ha [->|(Hh & Ht & [pb Hb] & Hc & Hc')]; [by eapply bounce_empty|].
  destruct q as [h tl c]. cbn in *. subst h. by eapply bounce_head.
Qed.

Lemma same_data_insert_is_Some (t : procs) a p p' b : t !! a = Some p → is_Some (t !! b) → is_Some (<[a := p']> t !! b).
Proof. intros _ Hb. apply lookup_insert_is_Some'. by right. Qed.

Lemma bounces_upd t a q x p : bounces t a q → bounces (<[x := p]> t) a q.
Proof.
  intros [->|(? & ? & ? & ? & ?)]; [by left|right]. split_and!; try done.
  apply lookup_insert_is_Some'. by right.
Qed.

(** Enqueueing and at once dequeueing leaves the queues as they were. *)
Lemma enqueue_dequeue m a p i lv :
  mprocs m !! a = Some p → a ≠ 0 → mlfq_level p = Z.of_nat i → (i < 5)%nat →
  levels (ml m) !! i = Some lv → bounces (mprocs m) a (lq lv) →
  ∃ m1 m2 p2, mlfq_enqueue a m = Ret (tt, m1) ∧ mlfq_dequeue a m1 = Ret (tt, m2) ∧
    levels (ml m2) = levels (ml m) ∧ level_changes (ml m2) = level_changes (ml m) ∧
    mprocs m2 !! a = Some p2 ∧ strip p2 = strip (slice_for (Z.of_nat i) (time_quantum lv) p) ∧
    (∀ b, is_Some (mprocs m !! b) → is_Some (mprocs m2 !! b)).
Proof.
  intros Hp Ha Hi Hi5 Hlv Hb. set (p1 := slice_for (Z.of_nat i) (time_quantum lv) p).
  destruct (bounce (<[a := p1]> (mprocs m)) a (lq lv) p1) as (q1 & t1 & t2 & E1 & E2 & Hs1 & Hs2);
    [apply lookup_insert_eq | done | by apply bounces_upd |].
  assert (clamp (mlfq_level p) = Z.of_nat i) as Hcl by (rewrite Hi; unfold clamp; lia).
  pose proof (mlfq_enqueue_raw m a p i lv q1 t1 Hp Ha Hcl Hlv E1) as Henq.
  set (m1 := Build_mst _ _) in Henq.
  destruct (same_data_Some _ t1 a p1 Hs1) as (p1' & Hp1' & Hsp1); [apply lookup_insert_eq|].
  destruct (same_data_Some _ t2 a p1' Hs2 Hp1') as (p2 & Hp2 & Hsp2).
  assert (mlfq_level p1' = Z.of_nat i) as Hl1 by (by rewrite (strip_level _ _ Hsp1)).
  assert (i < length (levels (ml m)))%nat as Hil by (by eapply lookup_lt_Some).
  pose proof (mlfq_dequeue_raw m1 a p1' i {| lq := q1; time_quantum := time_quantum lv |} (lq lv) t2
                Hp1' Ha Hl1 Hi5 ltac:(by apply list_lookup_insert_eq) E2) as Hdeq.
  eexists m1, _, p2. split_and!; [done | exact Hdeq | | done | done | by rewrite Hsp2 |].
  - cbn. rewrite list_insert_insert_eq. rewrite (list_insert_id (levels (ml m)) i); [done|].
    rewrite Hlv. by destruct lv.
  - intros b Hbs. eapply same_data_is_Some, same_data_is_Some; [exact Hs2 | exact Hs1 |].
    apply lookup_insert_is_Some'. by right.
Qed.

(** ** The invariant *)

(** [a] runs and is the head of level 0, the other levels are empty; [n] is the
    number of processes level 0 claims to hold, [D] are the live processes. *)
Record stuck (D : gset Z) (a n : Z) (s : sched) : Prop := {
  st_enabled : enabled s = true;
  st_policy : current_policy s = SCHED_POLICY_MLFQ;
  st_current : current s = a;
  st_nonzero : a ≠ 0;
  st_idle : a ≠ idle_process s;
  st_level0 : ∃ lv, levels (ml (run s)) !! 0%nat = Some lv ∧ head (lq lv) = a ∧ tail (lq lv) ≠ 0 ∧
                tail (lq lv) ∈ D ∧ count (lq lv) = n;
  st_pos : 0 < n;
  st_others : ∀ i lv, levels (ml (run s)) !! S i = Some lv → lq lv = empty_queue;
  st_quanta : Forall (λ lv, 0 ≤ time_quantum lv) (levels (ml (run s)));
  st_len : length (levels (ml (run s))) = 5%nat;
  st_changes : length (level_changes (ml (run s))) = 5%nat;
  st_proc : ∃ p, (tbl s) !! a = Some p ∧ state p = RUNNING ∧ 0 ≤ mlfq_level p < 5 ∧ 0 ≤ time_slice_remaining p;
  st_live : ∀ x, x ∈ D → is_Some ((tbl s) !! x);
}.

Lemma boost_levels_empty m k :
  length (levels (ml m)) = 5%nat → (k < 5)%nat →
  (∀ i lv, levels (ml m) !! S i = Some lv → lq lv = empty_queue) →
  boost_levels k m = Ret (tt, m).
Proof.
  intros Hlen Hk He. induction k as [|k IH]; [done|]. cbn [boost_levels].
  destruct (lookup_lt_is_Some_2 (levels (ml m)) (S k)) as [lv Hlv]; [lia|].
  rewrite (bind_Ret _ _ _ _ _ (get_level_eq m (S k) lv Hlv)), (He k lv Hlv). cbn [count empty_queue].
  assert (boost_level 1 (Z.of_nat (S k)) m = Ret (tt, m)) as Hb.
  { cbn [boost_level]. by rewrite (bind_Ret _ _ _ _ _ (get_level_eq m (S k) lv Hlv)), (He k lv Hlv). }
  rewrite (bind_Ret _ _ _ _ _ Hb). apply IH. lia.
Qed.

Lemma boost_idle m now :
  length (levels (ml m)) = 5%nat → (∀ i lv, levels (ml m) !! S i = Some lv → lq lv = empty_queue) →
  ∃ m', mlfq_boost_all now m = Ret (tt, m') ∧ mprocs m' = mprocs m ∧
    levels (ml m') = levels (ml m) ∧ level_changes (ml m') = level_changes (ml m).
Proof.
  intros Hlen He. destruct (boost_due now (ml m)) eqn:Hd.
  - unfold mlfq_boost_all. apply negb_true_iff in Hd. rewrite bind_get, Hd. unfold upd_ml. rewrite bind_modify.
    rewrite boost_levels_empty; [by eexists | done | by vm_compute; lia | done].
  - exists m. by rewrite mlfq_boost_all_early.
Qed.

Lemma pick_head m a p lv :
  levels (ml m) !! 0%nat = Some lv → head (lq lv) = a → a ≠ 0 → 0 < count (lq lv) →
  mprocs m !! a = Some p → state p = READY ∨ state p = RUNNING → mlfq_pick_next m = Ret (a, m).
Proof.
  intros Hlv Hh Ha Hc Hp Hst. unfold mlfq_pick_next. change (Z.to_nat MLFQ_LEVELS) with 5%nat.
  cbn [for_ret]. assert (pick_level 0 m = Ret (Some a, m)) as E.
  { unfold pick_level. rewrite (bind_Ret _ _ _ _ _ (get_level_eq m 0 lv Hlv)), Hh.
    rewrite (proj2 (Z.ltb_lt _ _)), (proj2 (Z.eqb_neq a 0)) by done. cbn [andb negb]. rewrite bind_get.
    cbn [scan_queue]. rewrite (proj2 (Z.eqb_neq a 0)), (bind_Ret _ _ _ _ _ (on_load m a p Hp)) by done.
    by destruct Hst as [-> | ->]. }
  unfold mbind, M_bind at 1 2. by rewrite E.
Qed.

Lemma stuck_keep D a n s s' :
  stuck D a n s → enabled s' = enabled s → current_policy s' = current_policy s → current s' = a →
  idle_process s' = idle_process s → levels (ml (run s')) = levels (ml (run s)) →
  length (level_changes (ml (run s'))) = 5%nat →
  (∃ p, (tbl s') !! a = Some p ∧ state p = RUNNING ∧ 0 ≤ mlfq_level p < 5 ∧ 0 ≤ time_slice_remaining p) →
  (∀ x, is_Some ((tbl s) !! x) → is_Some ((tbl s') !! x)) →
  stuck D a n s'.
Proof. intros [] He Hpo Hc Hi Hl Hlc Hp Hd. split; rewrite ?He, ?Hpo, ?Hi, ?Hl; auto. Qed.

Lemma preemptible_eq s p : (tbl s) !! current s = Some p → ∃ b, preemptible s = Ret (b, s).
Proof.
  intros Hp. unfold preemptible. rewrite bind_get. destruct (_ =? 0); [by eexists|].
  rewrite (bind_Ret _ _ _ _ _ (table_load s _ p Hp)). by eexists.
Qed.

Lemma choose_stuck D a n s now :
  stuck D a n s →
  ∃ m, choose now s = Ret (a, with_run m s) ∧ mprocs m = tbl s ∧
    levels (ml m) = levels (ml (run s)) ∧ level_changes (ml m) = level_changes (ml (run s)).
Proof.
  intros []. destruct (boost_idle (run s) now) as (m & E & Hm & Hl & Hc); try done.
  destruct st_level1 as (lv & Hlv & Hh & Ht & HtD & Hn). destruct st_proc0 as (p & Hp & Hr & _).
  exists m. split_and!; try done. unfold choose. rewrite bind_get, st_policy0.
  cbn [Z.eqb Pos.eqb].
  erewrite bind_Ret; [|rewrite (bind_Ret _ _ _ _ _ (on_run_Ret _ s _ _ E)); apply on_run_Ret].
  2: { apply (pick_head m a p lv); rewrite ?Hl, ?Hm; try done; [lia | by right]. }
  by rewrite (proj2 (Z.eqb_neq a 0)).
Qed.

Lemma run_next_same s a p :
  a ≠ 0 → (tbl s) !! a = Some p →
  run_next a a s =
    Ret (tt, with_current a (with_tbl (<[a := set_time_used 0 (set_state RUNNING p)]> (tbl s)) s)).
Proof.
  intros Ha Hp. unfold run_next, process_set_state. rewrite (proj2 (Z.eqb_neq a 0)) by done.
  rewrite (bind_Ret _ _ _ _ _ (table_upd s _ p _ Hp)).
  erewrite bind_Ret by (apply table_upd, lookup_insert_eq).
  rewrite bind_modify, Z.eqb_refl. cbn [negb mprocs run with_tbl with_run]. by rewrite insert_insert_eq.
Qed.

(** The queue the running process goes through. *)
Lemma stuck_bounces D a n s p :
  stuck D a n s → n + 1 < 2 ^ 32 → (tbl s) !! a = Some p → 0 ≤ mlfq_level p < 5 →
  ∃ lv, levels (ml (run s)) !! Z.to_nat (mlfq_level p) = Some lv ∧ 0 ≤ time_quantum lv ∧
    bounces (tbl s) a (lq lv).
Proof.
  intros [] Hn Hp Hlev. destruct (lookup_lt_is_Some_2 (levels (ml (run s))) (Z.to_nat (mlfq_level p))) as [lv Hlv];
    [lia|].
  exists lv. split_and!; [done | exact (Forall_lookup_1 _ _ _ _ st_quanta0 Hlv)|].
  destruct (Z.to_nat (mlfq_level p)) as [|i]; [right | left; by eapply st_others0].
  destruct st_level1 as (lv' & Hlv' & ? & ? & ? & Hc). simplify_eq. by split_and!; auto.
Qed.

Lemma switch_to_self D a n s :
  stuck D a n s → n + 1 < 2 ^ 32 → ∃ s', switch_to a a s = Ret (tt, s') ∧ stuck D a n s'.
Proof.
  intros Hst Hn. pose proof (st_proc _ _ _ _ Hst) as (p & Hp & Hr & Hlev & Hrem).
  pose proof (st_nonzero _ _ _ _ Hst) as Ha0. unfold switch_to.
  destruct (stuck_bounces D a n s p Hst Hn Hp Hlev) as (lv & Hlv & Hq & Hb).
  set (p2 := set_time_used 0 (set_state READY p)). set (s2 := with_tbl (<[a := p2]> (tbl s)) s).
  destruct (enqueue_dequeue (run s2) a p2 (Z.to_nat (mlfq_level p)) lv)
    as (m1 & m2 & p3 & E1 & E2 & Hl2 & Hc2 & Hp3 & Hs3 & Hd); try done.
  { apply lookup_insert_eq. } { cbn. lia. } { lia. } { by apply bounces_upd. }
  assert (requeue a s = Ret (tt, with_run m1 s2)) as Erq.
  { unfold requeue. rewrite bind_get, (bind_Ret _ _ _ _ _ (table_load s a p Hp)), bool_decide_true by done.
    unfold process_set_state. rewrite (proj2 (Z.eqb_neq a 0)) by done.
    rewrite (bind_Ret _ _ _ _ _ (table_upd s _ p _ Hp)).
    erewrite bind_Ret by (apply table_upd, lookup_insert_eq).
    rewrite (proj2 (Z.eqb_neq a _)) by apply Hst. cbn [negb mprocs run with_tbl with_run].
    rewrite insert_insert_eq, (st_policy _ _ _ _ Hst). exact (on_run_Ret _ s2 _ _ E1). }
  rewrite (bind_Ret _ _ _ _ _ Erq), bind_get. cbn [current_policy idle_process with_run s2 with_tbl].
  rewrite (st_policy _ _ _ _ Hst), (proj2 (Z.eqb_neq a _)) by apply Hst.
  cbn [Z.eqb Pos.eqb andb negb].
  rewrite (bind_Ret _ _ _ _ _ (on_run_Ret _ (with_run m1 s2) _ _ E2)).
  erewrite run_next_same by (exact Ha0 || exact Hp3). eexists. split; [reflexivity|].
  eapply stuck_keep; try done; [cbn; rewrite Hc2; apply Hst | |].
  - eexists. split; [apply lookup_insert_eq|]. split; [done|].
    apply (f_equal (λ p, (mlfq_level p, time_slice_remaining p))) in Hs3. cbn in Hs3.
    injection Hs3 as Hs3 Hs4. cbn. rewrite Hs3, Hs4. lia.
  - intros x Hx. apply lookup_insert_is_Some'. right. apply Hd. apply lookup_insert_is_Some'. by right.
Qed.

(** A decision while [a] is stuck at the head picks [a]. *)
Lemma schedule_stuck D a n s now :
  stuck D a n s → n + 1 < 2 ^ 32 →
  ∃ s', scheduler_schedule now s = Ret (tt, s') ∧ stuck D a n s'.
Proof.
  intros Hst Hn. pose proof (st_proc _ _ _ _ Hst) as (p & Hp & Hproc).
  pose proof (st_current _ _ _ _ Hst) as Hcur.
  unfold scheduler_schedule. rewrite bind_get, (st_enabled _ _ _ _ Hst). cbn [negb].
  destruct (preemptible_eq s p) as [[|] Epre]; [by rewrite Hcur | |];
    rewrite (bind_Ret _ _ _ _ _ Epre); cbn [negb]; [|by exists s].
  rewrite bind_modify. cbv zeta. set (s0 := with_irq false s).
  assert (stuck D a n s0) as Hst0 by (eapply stuck_keep; try done; [apply Hst | by exists p]).
  destruct (choose_stuck D a n s0 now Hst0) as (m & E & Hm & Hlm & Hcm).
  rewrite (bind_Ret _ _ _ _ _ E), Hcur, (proj2 (Z.eqb_neq a 0)) by apply Hst.
  apply switch_to_self; [|done]. eapply stuck_keep; try done; cbn.
  - rewrite Hcm. apply Hst.
  - exists p. by rewrite Hm.
  - by rewrite Hm.
Qed.

(** ** What can happen after the start *)

Inductive event :=
  | Yield (now : Z)
  | Tick (now : Z)
  | Add (proc : Z)
  | PreemptOff
  | PreemptOn.

Definition handle (e : event) : M sched unit :=
  match e with
  | Yield now => scheduler_yield now
  | Tick now => scheduler_tick now
  | Add proc => scheduler_add_process proc
  | PreemptOff => scheduler_disable
  | PreemptOn => scheduler_enable_noschedule
  end.

Fixpoint handle_all (es : list event) : M sched unit :=
  match es with
  | [] => mret tt
  | e :: es' => _ ← handle e; handle_all es'
  end.

(** Only live processes other than [a] are added. *)
Definition legal (D : gset Z) (a : Z) (e : event) : Prop :=
  match e with Add x => x ∈ D ∧ x ≠ a ∧ x ≠ 0 | _ => True end.

Lemma ticked_running p :
  state p = RUNNING → 0 ≤ mlfq_level p < 5 → 0 ≤ time_slice_remaining p →
  state (ticked p) = RUNNING ∧ 0 ≤ mlfq_level (ticked p) < 5 ∧ 0 ≤ time_slice_remaining (ticked p).
Proof.
  intros Hr Hl Ht. unfold ticked. cbv zeta. destruct (Z.leb_spec (time_slice_remaining p) 1) as [H|H]; cbn in *; zbool;
    cbn in *; split_and!; try done; lia.
Qed.

Lemma tick_stuck D a n s now :
  stuck D a n s → n + 1 < 2 ^ 32 → ∃ s', scheduler_tick now s = Ret (tt, s') ∧ stuck D a n s'.
Proof.
  intros Hst Hn. pose proof (st_proc _ _ _ _ Hst) as (p & Hp & Hr & Hlev & Hrem).
  pose proof (st_current _ _ _ _ Hst) as Hcur. pose proof (st_nonzero _ _ _ _ Hst) as Ha0.
  unfold scheduler_tick. rewrite bind_get, (st_enabled _ _ _ _ Hst), Hcur, (proj2 (Z.eqb_neq a 0)) by done.
  cbn [negb orb]. destruct (preemptible_eq s p) as [[|] Epre]; [by rewrite Hcur | |];
    rewrite (bind_Ret _ _ _ _ _ Epre); cbn [negb]; [|by exists s].
  rewrite (st_policy _ _ _ _ Hst). cbn [Z.eqb Pos.eqb].
  destruct (mlfq_tick_spec (run s) a p) as (cs & Hcs & E); try done; [apply Hst|].
  rewrite (bind_Ret _ _ _ _ _ (on_run_Ret _ s _ _ E)). set (s1 := with_run _ s).
  assert ((tbl s1) !! a = Some (ticked p)) as Hp1 by apply lookup_insert_eq.
  rewrite (bind_Ret _ _ _ _ _ (table_load s1 a _ Hp1)).
  assert (stuck D a n s1) as Hst1.
  { eapply stuck_keep; try done.
    - exists (ticked p). split; [done | by apply ticked_running].
    - intros x Hx. apply lookup_insert_is_Some'. by right. }
  destruct (_ =? 0); [by apply schedule_stuck | by exists s1].
Qed.

Lemma push_back_behind t q x px pt :
  t !! x = Some px → t !! tail q = Some pt → tail q ≠ 0 →
  ∃ t', push_back q x t = Ret ({| head := head q; tail := x; count := u32 (count q + 1) |}, t') ∧ same_data t t'.
Proof.
  intros Hx Ht Ht0. unfold push_back. rewrite (bind_Ret _ _ _ _ _ (upd_proc_eq t x px _ Hx)).
  rewrite (bind_Ret _ _ _ _ _ (upd_proc_eq _ x _ _ (lookup_insert_eq _ _ _))), insert_insert_eq.
  rewrite (proj2 (Z.eqb_neq _ 0)) by done. cbn [negb].
  assert (same_data t (<[x := set_prev (tail q) (set_next 0 px)]> t)) as Hsd
    by (eapply same_data_insert; [exact Hx | by destruct px]).
  destruct (same_data_Some _ _ _ pt Hsd Ht) as (pt' & Hpt' & _).
  rewrite (bind_Ret _ _ _ _ _ (upd_proc_eq _ _ pt' _ Hpt')). eexists. split; [reflexivity|].
  eapply same_data_trans; [exact Hsd|]. eapply same_data_insert; [exact Hpt' | by destruct pt'].
Qed.

Lemma add_stuck D a n s x :
  stuck D a n s → n + 1 < 2 ^ 32 → x ∈ D → x ≠ a → x ≠ 0 →
  ∃ s', scheduler_add_process x s = Ret (tt, s') ∧ stuck D a (n + 1) s'.
Proof.
  intros Hst Hn HxD Hxa Hx0. pose proof Hst as [Hen Hpo Hcur Ha0 Hai (lv & Hlv & Hh & Ht & HtD & Hcn) Hpos Hoth Hqu
    Hlen Hlc (p & Hp & Hproc) Hlive].
  unfold scheduler_add_process. rewrite (proj2 (Z.eqb_neq x 0)) by done.
  destruct (Hlive x HxD) as [px Hpx]. rewrite (bind_Ret _ _ _ _ _ (table_upd s x px _ Hpx)), bind_get.
  cbn [current_policy with_tbl with_run]. rewrite Hpo. cbn [Z.eqb Pos.eqb].
  erewrite bind_Ret by (apply table_upd, lookup_insert_eq).
  cbn [mprocs run with_tbl with_run]. rewrite insert_insert_eq. set (p1 := set_mlfq_level 0 _).
  set (t1 := <[x := p1]> (tbl s)). set (p2 := slice_for 0 (time_quantum lv) p1).
  destruct (Hlive _ HtD) as [pt Hpt].
  assert (∀ y, is_Some ((tbl s) !! y) → is_Some (<[x := p2]> t1 !! y)) as Hd.
  { intros y Hy. do 2 (apply lookup_insert_is_Some'; right). done. }
  destruct (Hd (tail (lq lv)) (ex_intro _ pt Hpt)) as [pt' Hpt'].
  destruct (push_back_behind (<[x := p2]> t1) (lq lv) x p2 pt') as (t' & E & Hsd);
    [apply lookup_insert_eq | done | done |].
  match goal with |- context [on_run _ ?s1] => set (s1' := s1) end.
  pose proof (mlfq_enqueue_raw (run s1') x p1 0 lv _ t' (lookup_insert_eq _ _ _) Hx0 eq_refl Hlv E) as Henq.
  rewrite (on_run_Ret _ s1' _ _ Henq). eexists. split; [reflexivity|].
  destruct (same_data_Some _ t' a p Hsd) as (p' & Hp' & Hsp').
  { unfold t1. by rewrite !lookup_insert_ne. }
  destruct (levels (ml (run s))) as [|lv0 lvs] eqn:Hlevels; [done|]. injection Hlv as ->.
  split; cbn; rewrite ?Hlevels; try done.
  - eexists. split; [reflexivity|]. cbn. rewrite Hcn, u32_small by lia. done.
  - lia.
  - apply Forall_cons in Hqu as [??]. by apply Forall_cons.
  - exists p'. split; [done|].
    apply (f_equal (λ p, (state p, mlfq_level p, time_slice_remaining p))) in Hsp'. cbn in Hsp'.
    by injection Hsp' as -> -> ->.
  - intros y Hy. eapply same_data_is_Some; [exact Hsd|]. by apply Hd, Hlive.
Qed.

Lemma stuck_recount D a n s pc :
  stuck D a n s → ∀ p, (tbl s) !! a = Some p →
  stuck D a n (with_tbl (<[a := set_preempt_count pc p]> (tbl s)) s).
Proof.
  intros Hst p Hp. pose proof (st_proc _ _ _ _ Hst) as (p' & Hp' & Hproc). simplify_eq.
  eapply stuck_keep; try done; try apply Hst.
  - eexists. split; [apply lookup_insert_eq | done].
  - intros x Hx. apply lookup_insert_is_Some'. by right.
Qed.

Lemma stuck_locked D a n s k : stuck D a n s → stuck D a n (with_locked k s).
Proof. by intros []; split. Qed.

Lemma preempt_stuck D a n s :
  stuck D a n s →
  (∃ s', preempt_disable s = Ret (tt, s') ∧ stuck D a n s') ∧
  (∃ s', preempt_enable s = Ret (tt, s') ∧ stuck D a n s').
Proof.
  intros Hst. pose proof (st_proc _ _ _ _ Hst) as (p & Hp & _). pose proof (st_nonzero _ _ _ _ Hst) as Ha0.
  unfold preempt_disable, preempt_enable.
  rewrite !bind_get, (st_current _ _ _ _ Hst), (proj2 (Z.eqb_neq a 0)) by done. split.
  - erewrite bind_Ret.
    2: { rewrite (bind_Ret _ _ _ _ _ (table_load s a p Hp)). by apply table_upd. }
    eexists. split; [reflexivity|]. by apply stuck_locked, stuck_recount.
  - rewrite (bind_Ret _ _ _ _ _ (table_load s a p Hp)).
    destruct (0 <? preempt_count p).
    + rewrite (bind_Ret _ _ _ _ _ (table_upd s a p _ Hp)).
      erewrite bind_Ret by (apply table_load, lookup_insert_eq).
      destruct (_ =? 0); (eexists; split; [reflexivity|]);
        [by apply stuck_locked, stuck_recount | by apply stuck_recount].
    + rewrite bind_mret, (bind_Ret _ _ _ _ _ (table_load s a p Hp)).
      destruct (_ =? 0); (eexists; split; [reflexivity|]); [by apply stuck_locked | done].
Qed.

Lemma handle_all_stuck D a es : ∀ n s,
  stuck D a n s → Forall (legal D a) es → n + Z.of_nat (length es) + 1 < 2 ^ 32 →
  ∃ n' s', handle_all es s = Ret (tt, s') ∧ stuck D a n' s'.
Proof.
  induction es as [|e es IH]; intros n s Hst Hl Hlen; [by exists n, s|].
  apply Forall_cons in Hl as [He Hl]. cbn [length] in Hlen. cbn [handle_all].
  assert (∃ n1 s1, handle e s = Ret (tt, s1) ∧ stuck D a n1 s1 ∧ n1 ≤ n + 1) as (n1 & s1 & E & Hst1 & Hn1).
  { destruct e as [now|now|x| |]; cbn [handle legal] in *.
    - destruct (schedule_stuck D a n s now) as (s1 & E & H1); [done | lia|]. exists n, s1. split_and!; [done..|lia].
    - destruct (tick_stuck D a n s now) as (s1 & E & H1); [done | lia|]. exists n, s1. split_and!; [done..|lia].
    - destruct He as (Hx & Hxa & Hx0). destruct (add_stuck D a n s x) as (s1 & E & H1); try done; [lia|].
      exists (n + 1), s1. split_and!; [done..|lia].
    - destruct (preempt_stuck D a n s Hst) as [(s1 & E & H1) _]. exists n, s1. split_and!; [done..|lia].
    - destruct (preempt_stuck D a n s Hst) as [_ (s1 & E & H1)]. exists n, s1. split_and!; [done..|lia]. }
  rewrite (bind_Ret _ _ _ _ _ E). apply (IH n1 s1); [done | done | lia].
Qed.

(** ** The start *)

Lemma mlfq_ok_quanta m ls : mlfq_ok m ls → Forall (λ lv, 0 ≤ time_quantum lv) (levels (ml m)).
Proof.
  intros Hok. apply Forall_lookup_2. intros i lv Hlv.
  rewrite (mo_quanta _ _ Hok i lv Hlv). lia.
Qed.

Lemma queue_empty_eq t q : queue_ok t q [] → q = empty_queue.
Proof. intros [Hh Ht Hc _ _]. destruct q. cbn in *. by subst. Qed.

Lemma last_in (a : Z) l : List.last (a :: l) 0 ∈ a :: l.
Proof.
  destruct l as [|z l _] using rev_ind; [by left|].
  rewrite app_comm_cons, last_last. set_solver.
Qed.

Lemma start_spec s a l0 p now :
  mlfq_ok (run s) [a :: l0; []; []; []; []] → current_policy s = SCHED_POLICY_MLFQ →
  scheduler_locked s = 0 → a ≠ idle_process s → (tbl s) !! a = Some p → state p = READY → fit p →
  0 ≤ time_slice_remaining p →
  ∃ s', scheduler_enable now s = Ret (tt, s') ∧
    stuck (dom (tbl s)) a (Z.of_nat (S (length l0))) s'.
Proof.
  intros Hok Hpo Hlk Hai Hp Hst Hfit Hrem.
  assert (∀ i lv, levels (ml (run s)) !! S i = Some lv → lq lv = empty_queue) as Hoth.
  { intros i lv Hlv. pose proof (lookup_lt_Some _ _ _ Hlv) as Hi. rewrite (mo_len _ _ Hok) in Hi.
    apply (queue_empty_eq (tbl s)). change (Z.to_nat MLFQ_LEVELS) with 5%nat in Hi.
    refine (proj1 (qs_each _ _ _ _ (mo_queues _ _ Hok) (S i) _ [] _ _)).
    - by rewrite list_lookup_fmap, Hlv.
    - by do 4 (destruct i as [|i]; [done|]); lia. }
  destruct (ok_index _ _ Hok 0 _ eq_refl) as (_ & lv & Hlv & Hq & _).
  destruct (ok_level _ _ Hok 0 _ a eq_refl ltac:(by left)) as (p' & Hp' & Hl0). simplify_eq.
  destruct (chain_member _ _ _ _ a (q_chain _ _ _ Hq)) as [Ha0 _]; [by left|].
  destruct (boost_idle (run s) now (mo_len _ _ Hok) Hoth) as (m & Em & Hm & Hlm & Hcm).
  unfold scheduler_enable. rewrite !bind_modify. unfold scheduler_schedule. rewrite bind_get.
  cbn [enabled with_current with_enabled negb]. set (s0 := with_current 0 _).
  rewrite (bind_Ret _ _ s0 true s0 eq_refl). cbn [negb]. rewrite bind_modify. cbv zeta.
  set (s1 := with_irq false s0).
  assert (choose now s1 = Ret (a, with_run m s1)) as Ech.
  { unfold choose. rewrite bind_get. cbn [current_policy s1 s0 with_irq with_current with_enabled]. rewrite Hpo.
    cbn [Z.eqb Pos.eqb].
    erewrite bind_Ret; [|rewrite (bind_Ret _ _ _ _ _ (on_run_Ret _ s1 _ _ Em)); apply on_run_Ret].
    2: { apply (pick_head m a p lv); rewrite ?Hlm, ?Hm; try done; [apply Hq | | by left].
         rewrite (q_count _ _ _ Hq). cbn. lia. }
    by rewrite (proj2 (Z.eqb_neq a 0)). }
  rewrite (bind_Ret _ _ _ _ _ Ech). cbn [current s0 with_current Z.eqb].
  unfold start_first, process_set_state. rewrite (proj2 (Z.eqb_neq a 0)) by done.
  erewrite bind_Ret by (apply table_upd; cbn; rewrite Hm; exact Hp).
  erewrite bind_Ret by (apply table_upd, lookup_insert_eq).
  cbn [mprocs run with_tbl with_run]. rewrite insert_insert_eq, !bind_modify, Hm.
  destruct (context_switch_fit
    (with_switches (u64 (switches s + 1)) (with_current a (with_tbl (<[a := set_time_used 0 (set_state RUNNING p)]> (tbl s)) (with_run m s1))))
    0 a (set_time_used 0 (set_state RUNNING p))) as (cr3 & esp0 & Ecs);
    [done | done | apply lookup_insert_eq | done |].
  rewrite (bind_Ret _ _ _ _ _ Ecs). eexists. split; [reflexivity|].
  split; cbn; rewrite ?Hlm, ?Hcm; try done.
  - exists lv. destruct Hq as [Hh Ht Hc Hnd Hch]. rewrite Ht. pose proof (last_in a l0) as Hin.
    split_and!; try done; [by eapply chain_member|]. by eapply elem_of_dom, chain_member.
  - by eapply mlfq_ok_quanta.
  - apply (mo_len _ _ Hok).
  - apply (mo_changes _ _ Hok).
  - eexists. split; [apply lookup_insert_eq|]. split_and!; cbn; try done; lia.
  - intros x Hx%elem_of_dom. apply lookup_insert_is_Some'. by right.
Qed.

(** C39: The first process scheduled keeps the processor.  Let [a] be the first of any
    number of ready processes on level 0 when [scheduler_enable] is called under the
    feedback policy.  Whatever finite sequence of yields, timer ticks (which demote [a]
    and boost the queues), preemption control and additions of further processes
    follows, the scheduler keeps running [a], as long as [a] does not block or end: the
    other processes are never chosen although they are ready, contrary to the purpose
    of the feedback queues. *)
Theorem mlfq_first_process_never_leaves s a l0 p now es :
  mlfq_ok (run s) [a :: l0; []; []; []; []] → current_policy s = SCHED_POLICY_MLFQ →
  scheduler_locked s = 0 → a ≠ idle_process s → (tbl s) !! a = Some p → state p = READY → fit p →
  0 ≤ time_slice_remaining p → Forall (legal (dom (tbl s)) a) es →
  Z.of_nat (length l0) + Z.of_nat (length es) + 2 < 2 ^ 32 →
  ∃ s1 s2, scheduler_enable now s = Ret (tt, s1) ∧ current s1 = a ∧
    handle_all es s1 = Ret (tt, s2) ∧ current s2 = a.
Proof.
  intros Hok Hpo Hlk Hai Hp Hst Hfit Hrem Hl Hlen.
  destruct (start_spec s a l0 p now) as (s1 & E1 & Hs1); try done.
  destruct (handle_all_stuck _ a es _ s1 Hs1 Hl) as (n & s2 & E2 & Hs2); [lia|].
  exists s1, s2. by split_and!; [|apply Hs1| |apply Hs2].
Qed.

(** Processes 2, 3 and 4 are ready on level 0 when the scheduler is enabled. *)
Definition boot_procs : procs :=
  <[1 := kernel_idle]> (<[2 := user_proc 2 READY 0 3 0]>
  (<[3 := user_proc 3 READY 0 0 2]> (<[4 := user_proc 4 NEW 0 0 0]> ∅))).

Definition boot_sched : sched :=
  demo_sched boot_procs SCHED_POLICY_MLFQ 0 empty_queue {| head := 2; tail := 3; count := 2 |} false.

Lemma boot_queues : mlfq_ok (run boot_sched) [[2; 3]; []; []; []; []].
Proof.
  split; try done.
  - split; [done|]. intros i q l Hq Hl.
    destruct i as [|[|[|[|[|i]]]]]; cbn in Hq, Hl; simplify_eq; try (split; [apply empty_queue_ok | set_solver]).
    split; [split; try done; [apply (bool_decide_unpack _); done|]|].
    + cbn [chain hd]. split_and!; try done; by eexists.
    + intros a [->|Ha]%elem_of_cons; [by eexists|]. apply list_elem_of_singleton in Ha as ->. by eexists.
  - intros i lv Hlv. by do 5 (destruct i as [|i]; [by simplify_eq/=|]).
Qed.

Lemma mlfq_first_process_never_leaves_witness :
  ∃ s1 s2, scheduler_enable 0 boot_sched = Ret (tt, s1) ∧ current s1 = 2 ∧
    handle_all [Tick 1; Yield 2; Add 4; Yield 2000; Tick 4000] s1 = Ret (tt, s2) ∧ current s2 = 2.
Proof.
  apply (mlfq_first_process_never_leaves boot_sched 2 [3] (user_proc 2 READY 0 3 0)
           0 [Tick 1; Yield 2; Add 4; Yield 2000; Tick 4000] boot_queues).
  - reflexivity.
  - reflexivity.
  - discriminate.
  - reflexivity.
  - reflexivity.
  - split; [reflexivity | by right].
  - cbn. lia.
  - repeat apply Forall_cons_2; try exact I; [|by apply Forall_nil_2].
    split; [apply elem_of_dom; by eexists | by split].
  - reflexivity.
Defined.
