(* ===== verification/PrioSched.v ===== *)
(** * Priority scheduler (kernel/process/priority_sched.c)

    Thirty-two FIFO queues with a bitmap of the non-empty ones, O(1) selection
    through [__builtin_ffs] and aging.  The state is the table of processes and
    the static variable [priority_sched]; the tick counter is an argument.  The
    scan of a queue is given one step more than there are processes, the retry
    of [priority_pick_next] one more than there are bits. *)

From S2P Require Import Prelude Bits ProcList.

#[local] Open Scope Z_scope.

Abbreviation MAX_PRIORITIES := 32%Z (only parsing).
Abbreviation AGING_INTERVAL := 100%Z (only parsing).
Abbreviation AGING_THRESHOLD := 200%Z (only parsing).
Abbreviation AGING_BOOST := 2%Z (only parsing).

Record priority_sched := {
  queues : list queue;
  bitmap : Z;
  total_count : Z;
  last_aging_time : Z;
  total_enqueues : Z;
  total_dequeues : Z;
  aging_count : Z;
}.

Record pst := { pprocs : procs; ps : priority_sched }.

Definition on_procs {A} (c : M procs A) : M pst A :=
  zoom pprocs (λ t s, {| pprocs := t; ps := ps s |}) c.

Definition upd_ps (f : priority_sched → priority_sched) : M pst unit :=
  modify (λ s, {| pprocs := pprocs s; ps := f (ps s) |}).

Definition with_bitmap (b : Z) (m : priority_sched) : priority_sched :=
  {| queues := queues m; bitmap := b; total_count := total_count m;
     last_aging_time := last_aging_time m; total_enqueues := total_enqueues m;
     total_dequeues := total_dequeues m; aging_count := aging_count m |}.
Definition with_last (n : Z) (m : priority_sched) : priority_sched :=
  {| queues := queues m; bitmap := bitmap m; total_count := total_count m;
     last_aging_time := n; total_enqueues := total_enqueues m;
     total_dequeues := total_dequeues m; aging_count := aging_count m |}.
Definition with_aged (n : Z) (m : priority_sched) : priority_sched :=
  {| queues := queues m; bitmap := bitmap m; total_count := total_count m;
     last_aging_time := last_aging_time m; total_enqueues := total_enqueues m;
     total_dequeues := total_dequeues m; aging_count := n |}.

Definition get_queue (i : Z) : M pst queue := s ← get; deref (aget (queues (ps s)) i).

Definition set_queue (i : Z) (q : queue) : M pst unit :=
  s ← get;
  qs ← deref (aset (queues (ps s)) i q);
  upd_ps (λ m, {| queues := qs; bitmap := bitmap m; total_count := total_count m;
                  last_aging_time := last_aging_time m; total_enqueues := total_enqueues m;
                  total_dequeues := total_dequeues m; aging_count := aging_count m |}).

Definition priority_scheduler_init (now : Z) : M pst unit :=
  upd_ps (λ _, {| queues := replicate (Z.to_nat MAX_PRIORITIES) empty_queue; bitmap := 0; total_count := 0;
                  last_aging_time := now; total_enqueues := 0; total_dequeues := 0; aging_count := 0 |}).

Definition priority_enqueue (now proc : Z) : M pst unit :=
  if proc =? 0 then mret tt
  else
    p ← on_procs (load_proc proc);
    let pri := i32 (priority p) in
    let pri := if pri <? 0 then 0 else pri in
    let pri := if MAX_PRIORITIES <=? pri then MAX_PRIORITIES - 1 else pri in
    _ ← on_procs (upd_proc proc (set_priority pri));
    q ← get_queue pri;
    q ← on_procs (push_back q proc);
    _ ← set_queue pri q;
    _ ← upd_ps (λ m,
      {| queues := queues m; bitmap := Z.lor (bitmap m) (u32 (Z.shiftl 1 pri));
         total_count := u32 (total_count m + 1); last_aging_time := last_aging_time m;
         total_enqueues := u64 (total_enqueues m + 1); total_dequeues := total_dequeues m;
         aging_count := aging_count m |});
    on_procs (upd_proc proc (set_wait_time now)).

Definition priority_dequeue (proc : Z) : M pst unit :=
  if proc =? 0 then mret tt
  else
    p ← on_procs (load_proc proc);
    let pri := i32 (priority p) in
    if (pri <? 0) || (MAX_PRIORITIES <=? pri) then mret tt
    else
      q ← get_queue pri;
      q ← on_procs (unlink q proc);
      _ ← set_queue pri q;
      _ ← upd_ps (λ m,
        {| queues := queues m; bitmap := bitmap m;
           total_count := if 0 <? total_count m then total_count m - 1 else total_count m;
           last_aging_time := last_aging_time m; total_enqueues := total_enqueues m;
           total_dequeues := u64 (total_dequeues m + 1); aging_count := aging_count m |});
      if count q =? 0
      then upd_ps (λ m, with_bitmap (Z.land (bitmap m) (u32 (Z.lnot (Z.shiftl 1 pri)))) m)
      else mret tt.

(** [__builtin_ffs]: one plus the index of the lowest set bit, 0 for 0. *)
Definition builtin_ffs (w : Z) : Z :=
  match List.find (Z.testbit w) (seqZ 0 32) with Some i => i + 1 | None => 0 end.

Fixpoint pick_next_loop (fuel : nat) : M pst Z :=
  match fuel with
  | O => undef
  | S fuel =>
      s ← get;
      if bitmap (ps s) =? 0 then mret 0
      else
        let highest_pri := builtin_ffs (bitmap (ps s)) - 1 in
        if (highest_pri <? 0) || (MAX_PRIORITIES <=? highest_pri) then mret 0
        else
          q ← get_queue highest_pri;
          let next := head q in
          if next =? 0 then
            _ ← upd_ps (λ m, with_bitmap (Z.land (bitmap m) (u32 (Z.lnot (Z.shiftl 1 highest_pri)))) m);
            pick_next_loop fuel
          else
            _ ← priority_dequeue next;
            mret next
  end.

Definition priority_pick_next : M pst Z := pick_next_loop 33.

(** The body of [while (proc)] in [priority_aging]. *)
Definition age_one (now pri proc : Z) : M pst unit :=
  p ← on_procs (load_proc proc);
  let wait_time := u64 (now - wait_time p) in
  if AGING_THRESHOLD <? wait_time then
    let new_pri := pri - AGING_BOOST in
    let new_pri := if new_pri <? 0 then 0 else new_pri in
    if negb (new_pri =? pri) then
      _ ← priority_dequeue proc;
      _ ← on_procs (upd_proc proc (set_priority new_pri));
      p ← on_procs (load_proc proc);
      _ ← on_procs (upd_proc proc (set_boost_count (u32 (boost_count p + 1))));
      _ ← priority_enqueue now proc;
      upd_ps (λ m, with_aged (u64 (aging_count m + 1)) m)
    else mret tt
  else mret tt.

Fixpoint age_queue (fuel : nat) (now pri proc : Z) : M pst unit :=
  match fuel with
  | O => undef
  | S fuel =>
      if proc =? 0 then mret tt
      else
        p ← on_procs (load_proc proc);
        let nx := next p in
        _ ← age_one now pri proc;
        age_queue fuel now pri nx
  end.

(** [for (pri = n; pri > 0; pri--)] *)
Fixpoint age_levels (n : nat) (now : Z) : M pst unit :=
  match n with
  | O => mret tt
  | S n' =>
      q ← get_queue (Z.of_nat n);
      _ ← (if count q =? 0 then mret tt
           else s ← get; age_queue (S (size (pprocs s))) now (Z.of_nat n) (head q));
      age_levels n' now
  end.

Definition priority_aging (now : Z) : M pst unit :=
  s ← get;
  if u64 (now - last_aging_time (ps s)) <? AGING_INTERVAL then mret tt
  else
    _ ← upd_ps (with_last now);
    age_levels (Z.to_nat (MAX_PRIORITIES - 1)) now.

Definition priority_get_queue_count (pri : Z) : M pst Z :=
  if (pri <? 0) || (MAX_PRIORITIES <=? pri) then mret 0
  else q ← get_queue pri; mret (i32 (count q)).

Definition priority_is_queue_empty (pri : Z) : M pst bool :=
  if (pri <? 0) || (MAX_PRIORITIES <=? pri) then mret true
  else q ← get_queue pri; mret (count q =? 0).

(** ** The queues as lists *)

Definition nonempty (l : list Z) : bool := match l with [] => false | _ => true end.

Record prio_ok (s : pst) (ls : list (list Z)) : Prop := {
  pr_len : length ls = Z.to_nat MAX_PRIORITIES;
  pr_queues : queues_ok priority (pprocs s) (queues (ps s)) ls;
  pr_range : 0 ≤ bitmap (ps s) < 2 ^ 32;
  pr_bitmap : ∀ i l, ls !! i = Some l → Z.testbit (bitmap (ps s)) (Z.of_nat i) = nonempty l;
  pr_total : total_count (ps s) = Z.of_nat (length (concat ls));
  pr_small : Z.of_nat (length (concat ls)) < 2 ^ 32;
}.

Lemma prio_on_procs_Ret {A} (c : M procs A) s a t :
  c (pprocs s) = Ret (a, t) → on_procs c s = Ret (a, {| pprocs := t; ps := ps s |}).
Proof. intros H. unfold on_procs, zoom. by rewrite H. Qed.

Lemma prio_on_load s a p : pprocs s !! a = Some p → on_procs (load_proc a) s = Ret (p, s).
Proof. intros H. rewrite (prio_on_procs_Ret _ _ _ _ (load_proc_eq _ _ _ H)). by destruct s. Qed.

Lemma prio_on_upd s a p f :
  pprocs s !! a = Some p →
  on_procs (upd_proc a f) s = Ret (tt, {| pprocs := <[a := f p]> (pprocs s); ps := ps s |}).
Proof. intros H. apply prio_on_procs_Ret. by apply upd_proc_eq. Qed.

Lemma get_queue_eq s i q : queues (ps s) !! i = Some q → get_queue (Z.of_nat i) s = Ret (q, s).
Proof.
  intros H. unfold get_queue. rewrite bind_get. unfold aget.
  rewrite (proj2 (Z.leb_le 0 _)), Nat2Z.id, H by lia. done.
Qed.

Lemma prio_set_queue_eq s i q :
  (i < length (queues (ps s)))%nat →
  set_queue (Z.of_nat i) q s =
    Ret (tt, {| pprocs := pprocs s;
                ps := {| queues := <[i := q]> (queues (ps s)); bitmap := bitmap (ps s);
                         total_count := total_count (ps s); last_aging_time := last_aging_time (ps s);
                         total_enqueues := total_enqueues (ps s); total_dequeues := total_dequeues (ps s);
                         aging_count := aging_count (ps s) |} |}).
Proof.
  intros H. unfold set_queue. rewrite bind_get, aset_Some by lia.
  rewrite bind_deref, Nat2Z.id. done.
Qed.

Lemma strip_priority p p' : strip p = strip p' → priority p = priority p'.
Proof. intros H. by apply (f_equal priority) in H. Qed.

(** The bitmap after setting or clearing one bit. *)
Lemma bitmap_set w i j :
  0 ≤ i < 32 → 0 ≤ j < 32 → Z.testbit (Z.lor w (u32 (Z.shiftl 1 i))) j = (j =? i) || Z.testbit w j.
Proof. intros Hi Hj. rewrite Z.lor_spec, testbit_u32, testbit_one by lia. apply orb_comm. Qed.

Lemma bitmap_clear w i j :
  0 ≤ i < 32 → 0 ≤ j < 32 →
  Z.testbit (Z.land w (u32 (Z.lnot (Z.shiftl 1 i)))) j = negb (j =? i) && Z.testbit w j.
Proof. intros Hi Hj. rewrite Z.land_spec, testbit_u32, Z.lnot_spec, testbit_one by lia. apply andb_comm. Qed.

Section WithOk.
Context (s : pst) (ls : list (list Z)) (Hok : prio_ok s ls).

Lemma prio_ok_index i l :
  ls !! i = Some l → (i < 32)%nat ∧ ∃ q, queues (ps s) !! i = Some q ∧ queue_ok (pprocs s) q l.
Proof.
  intros H. split.
  - apply lookup_lt_Some in H. by rewrite (pr_len _ _ Hok) in H.
  - by eapply queues_index; [apply Hok|].
Qed.

Lemma ok_member i l a :
  ls !! i = Some l → a ∈ l → a ≠ 0 ∧ ∃ p, pprocs s !! a = Some p ∧ priority p = Z.of_nat i.
Proof. intros. by eapply queues_member; [apply Hok|..]. Qed.

Lemma ok_queues_len : length (queues (ps s)) = 32%nat.
Proof. rewrite (qs_len _ _ _ _ (pr_queues _ _ Hok)). apply (pr_len _ _ Hok). Qed.
End WithOk.

(** A process that is not queued may change in any way. *)
Lemma prio_ok_upd s ls a p :
  prio_ok s ls → a ∉ concat ls → prio_ok {| pprocs := <[a := p]> (pprocs s); ps := ps s |} ls.
Proof. intros [] Ha. split; try done. by apply queues_upd. Qed.

(** The queue a process is filed under. *)
Definition clamp (pri : Z) : Z := Z.max 0 (Z.min (i32 pri) 31).

Lemma pri_clamp p : (if MAX_PRIORITIES <=? (if i32 p <? 0 then 0 else i32 p) then MAX_PRIORITIES - 1
                     else (if i32 p <? 0 then 0 else i32 p)) = clamp p.
Proof. unfold clamp. zbool; lia. Qed.

Lemma priority_enqueue_spec s ls now a p i l :
  prio_ok s ls → pprocs s !! a = Some p → a ≠ 0 → a ∉ concat ls →
  Z.of_nat (length (concat ls)) + 1 < 2 ^ 32 → clamp (priority p) = Z.of_nat i → ls !! i = Some l →
  ∃ s', priority_enqueue now a s = Ret (tt, s') ∧ prio_ok s' (<[i := l ++ [a]]> ls) ∧
    strip <$> pprocs s' !! a = Some (strip (set_wait_time now (set_priority (Z.of_nat i) p))) ∧
    (∀ b, b ≠ a → strip <$> pprocs s' !! b = strip <$> pprocs s !! b) ∧
    last_aging_time (ps s') = last_aging_time (ps s).
Proof.
  intros Hok Hp Ha0 Ha Hlen Hi Hl. destruct (prio_ok_index s ls Hok i l Hl) as (Hi5 & q & Hq & _).
  pose proof (ok_queues_len s ls Hok) as Hql.
  unfold priority_enqueue. rewrite (proj2 (Z.eqb_neq a 0)), (bind_Ret _ _ _ _ _ (prio_on_load s a p Hp)) by done.
  cbv zeta. rewrite pri_clamp, Hi, (bind_Ret _ _ _ _ _ (prio_on_upd s a p _ Hp)).
  set (p1 := set_priority (Z.of_nat i) p). set (t1 := <[a := p1]> (pprocs s)).
  rewrite (bind_Ret _ _ _ _ _ (get_queue_eq {| pprocs := t1; ps := ps s |} i q Hq)).
  pose proof (length_concat_lookup ls i l Hl). pose proof (length_concat_insert ls i l (l ++ [a]) Hl) as Hli.
  rewrite length_app in Hli. cbn [length] in Hli.
  destruct (queues_push priority strip_priority t1 (queues (ps s)) ls i q l a p1)
    as (q' & t' & E & Hq' & Hsd); try done; try lia.
  { by apply queues_upd; [apply Hok|]. } { apply lookup_insert_eq. }
  rewrite (bind_Ret _ _ _ _ _ (prio_on_procs_Ret _ {| pprocs := t1; ps := ps s |} _ _ E)).
  rewrite (bind_Ret _ _ _ _ _ (prio_set_queue_eq {| pprocs := t'; ps := ps s |} i q' ltac:(cbn; lia))).
  unfold upd_ps. rewrite bind_modify.
  destruct (same_data_Some t1 t' a p1) as (p' & Hp' & Hsp'); [done | apply lookup_insert_eq |].
  erewrite prio_on_upd by exact Hp'. eexists. split; [reflexivity|]. cbn [pprocs ps].
  split_and!; [| | |done].
  - split; cbn; try done.
    + rewrite length_insert. apply Hok.
    + eapply queues_keep; [exact Hq' | exact Hp' | done | done | done].
    + apply lor_bounds; [apply Hok | apply u32_bounds].
    + intros j lj Hj. pose proof (lookup_lt_Some _ _ _ Hj) as Hjl. rewrite length_insert, (pr_len _ _ Hok) in Hjl.
      change (Z.to_nat MAX_PRIORITIES) with 32%nat in Hjl. rewrite bitmap_set by lia.
      apply list_lookup_insert_Some in Hj as [(<- & <- & _)|(Hne & Hj)].
      * rewrite Z.eqb_refl. by destruct l.
      * rewrite (proj2 (Z.eqb_neq _ _)) by lia. by apply (pr_bitmap _ _ Hok).
    + rewrite (pr_total _ _ Hok), u32_small by lia. lia.
    + lia.
  - rewrite lookup_insert_eq. cbn. f_equal. apply (f_equal (set_wait_time now)) in Hsp'. exact Hsp'.
  - intros b Hb. rewrite lookup_insert_ne by done. rewrite (Hsd b). unfold t1. by rewrite lookup_insert_ne.
Qed.

Lemma priority_dequeue_spec s ls a i l1 l2 :
  prio_ok s ls → ls !! i = Some (l1 ++ a :: l2) →
  ∃ s', priority_dequeue a s = Ret (tt, s') ∧ prio_ok s' (<[i := l1 ++ l2]> ls) ∧
    same_data (pprocs s) (pprocs s') ∧ last_aging_time (ps s') = last_aging_time (ps s).
Proof.
  intros Hok Hl. destruct (prio_ok_index s ls Hok i _ Hl) as (Hi & q & Hq & _).
  destruct (ok_member s ls Hok i _ a Hl ltac:(set_solver)) as (Ha0 & p & Hp & Hpi).
  pose proof (ok_queues_len s ls Hok) as Hql.
  unfold priority_dequeue. rewrite (proj2 (Z.eqb_neq a 0)), (bind_Ret _ _ _ _ _ (prio_on_load s a p Hp)) by done.
  cbv zeta. rewrite Hpi, i32_small by lia.
  rewrite (proj2 (Z.ltb_ge _ 0)), (proj2 (Z.leb_gt MAX_PRIORITIES _)) by lia.
  cbn [orb]. rewrite (bind_Ret _ _ _ _ _ (get_queue_eq s i q Hq)).
  destruct (queues_unlink priority strip_priority _ _ ls i q l1 a l2 (pr_queues _ _ Hok) Hq Hl)
    as (q' & t' & E & Hq' & Hqq & Hsd).
  rewrite (bind_Ret _ _ _ _ _ (prio_on_procs_Ret _ s _ _ E)).
  rewrite (bind_Ret _ _ _ _ _ (prio_set_queue_eq {| pprocs := t'; ps := ps s |} i q' ltac:(cbn; lia))).
  unfold upd_ps. rewrite bind_modify. cbn [pprocs ps queues bitmap total_count].
  pose proof (length_concat_insert ls i _ (l1 ++ l2) Hl) as Hli.
  rewrite !length_app in Hli. cbn [length] in Hli. pose proof (pr_small _ _ Hok).
  assert (∀ b, 0 ≤ b < 2 ^ 32 →
    (∀ j, 0 ≤ j < 32 → Z.testbit b j = if j =? Z.of_nat i then nonempty (l1 ++ l2) else Z.testbit (bitmap (ps s)) j) →
    ∀ td ac, prio_ok {| pprocs := t';
                        ps := {| queues := <[i := q']> (queues (ps s)); bitmap := b;
                                 total_count := if 0 <? total_count (ps s) then total_count (ps s) - 1
                                                else total_count (ps s);
                                 last_aging_time := last_aging_time (ps s);
                                 total_enqueues := total_enqueues (ps s); total_dequeues := td;
                                 aging_count := ac |} |} (<[i := l1 ++ l2]> ls)) as Hfin.
  { intros b Hb Hbits td ac. split; cbn; try done.
    - rewrite length_insert. apply Hok.
    - intros j lj Hj. pose proof (lookup_lt_Some _ _ _ Hj) as Hjl. rewrite length_insert, (pr_len _ _ Hok) in Hjl.
      change (Z.to_nat MAX_PRIORITIES) with 32%nat in Hjl. rewrite Hbits by lia.
      apply list_lookup_insert_Some in Hj as [(<- & <- & _)|(Hne & Hj)]; [by rewrite Z.eqb_refl|].
      rewrite (proj2 (Z.eqb_neq _ _)) by lia. by apply (pr_bitmap _ _ Hok).
    - rewrite (pr_total _ _ Hok), (proj2 (Z.ltb_lt 0 _)) by lia. lia.
    - lia. }
  pose proof (pr_range _ _ Hok) as Hr. rewrite (q_count _ _ _ Hqq).
  destruct (Z.eqb_spec (Z.of_nat (length (l1 ++ l2))) 0) as [Hz|Hz].
  - eexists. split; [reflexivity|]. split_and!; [|done|done]. apply Hfin; cbn.
    + auto with words.
    + intros j Hj. rewrite bitmap_clear by lia. destruct (l1 ++ l2); [|done]. by destruct (_ =? _).
  - eexists. split; [reflexivity|]. split_and!; [|done|done]. apply Hfin; [done|].
    intros j Hj. destruct (Z.eqb_spec j (Z.of_nat i)) as [->|]; [|done].
    rewrite (pr_bitmap _ _ Hok i _ Hl). by destruct l1, l2.
Qed.

(** ** Selection *)

Lemma builtin_ffs_first w i :
  0 ≤ i < 32 → Z.testbit w i = true → (∀ j, 0 ≤ j < i → Z.testbit w j = false) → builtin_ffs w = i + 1.
Proof.
  intros Hi Ht Hf. unfold builtin_ffs.
  replace 32 with (i + (32 - i)) by lia. rewrite seqZ_app by lia.
  assert (∀ l, (∀ j, j ∈ l → Z.testbit w j = false) → List.find (Z.testbit w) l = None) as Hnone.
  { induction l as [|x l IH]; intros H; [done|]. cbn. rewrite H by (by left). apply IH. intros; apply H; by right. }
  assert (∀ l1 l2, List.find (Z.testbit w) l1 = None → List.find (Z.testbit w) (l1 ++ l2) = List.find (Z.testbit w) l2) as Happ.
  { induction l1 as [|x l1 IH]; intros l2 H; [done|]. cbn in *. by destruct (Z.testbit w x); [|apply IH]. }
  rewrite Happ by (apply Hnone; intros j Hj%elem_of_seqZ; apply Hf; lia).
  rewrite Z.add_0_l, (seqZ_cons i) by lia. cbn [List.find]. by rewrite Ht.
Qed.

(** Selection by the bitmap is selection by priority: when every queue is
    empty the answer is null and nothing changes; otherwise the answer is the
    head of the first non-empty queue, which leaves it, and the bitmap, counts
    and links stay consistent (the repair branch is never needed). *)
Theorem priority_pick_next_correct s ls :
  prio_ok s ls →
  match list_find (λ l, l ≠ []) ls with
  | Some (i, a :: l) =>
      ∃ s', priority_pick_next s = Ret (a, s') ∧ prio_ok s' (<[i := l]> ls) ∧ same_data (pprocs s) (pprocs s')
  | _ => priority_pick_next s = Ret (0, s)
  end.
Proof.
  intros Hok. pose proof (pr_range _ _ Hok) as Hr. pose proof (pr_len _ _ Hok) as Hlen.
  change (Z.to_nat MAX_PRIORITIES) with 32%nat in Hlen.
  unfold priority_pick_next. cbn [pick_next_loop]. rewrite bind_get.
  destruct (list_find _ ls) as [[i [|a l]]|] eqn:Hfind.
  - apply list_find_Some in Hfind as (_ & ? & _). done.
  - apply list_find_Some in Hfind as (Hl & _ & Hbefore).
    destruct (prio_ok_index s ls Hok i _ Hl) as (Hi & q & Hq & Hqok).
    assert (Z.testbit (bitmap (ps s)) (Z.of_nat i) = true) as Hbit by (by rewrite (pr_bitmap _ _ Hok i _ Hl)).
    rewrite (proj2 (Z.eqb_neq (bitmap _) 0)) by (intros H0; by rewrite H0, Z.bits_0 in Hbit).
    assert (∀ j, 0 ≤ j < Z.of_nat i → Z.testbit (bitmap (ps s)) j = false) as Hlow.
    { intros j Hj. destruct (lookup_lt_is_Some_2 ls (Z.to_nat j)) as [lj Hlj]; [lia|].
      rewrite <- (Z2Nat.id j), (pr_bitmap _ _ Hok _ _ Hlj) by lia.
      destruct lj as [|x lj]; [done|]. exfalso. apply (Hbefore (Z.to_nat j) (x :: lj) Hlj); [lia | done]. }
    rewrite (builtin_ffs_first _ (Z.of_nat i)) by (done || lia).
    cbv zeta. rewrite Z.add_simpl_r.
    rewrite (proj2 (Z.ltb_ge _ 0)), (proj2 (Z.leb_gt MAX_PRIORITIES _)) by lia.
    cbn [orb]. rewrite (bind_Ret _ _ _ _ _ (get_queue_eq s i q Hq)), (q_head _ _ _ Hqok). cbn [hd].
    destruct (ok_member s ls Hok i _ a Hl ltac:(by left)) as (Ha0 & _).
    rewrite (proj2 (Z.eqb_neq a 0)) by done.
    destruct (priority_dequeue_spec s ls a i [] l Hok Hl) as (s' & E & Hok' & Hsd & _).
    exists s'. by rewrite (bind_Ret _ _ _ _ _ E).
  - rewrite (proj2 (Z.eqb_eq (bitmap _) 0)); [done|]. apply Z.bits_inj_0. intros j.
    destruct (decide (0 ≤ j)); [|by apply Z.testbit_neg_r; lia].
    destruct (decide (j < 32)); [|by apply (testbit_high 32); [|lia]].
    destruct (lookup_lt_is_Some_2 ls (Z.to_nat j)) as [lj Hlj]; [lia|].
    rewrite <- (Z2Nat.id j), (pr_bitmap _ _ Hok _ _ Hlj) by lia.
    destruct lj as [|x lj]; [done|]. eapply list_find_None, Forall_lookup_1 in Hfind; [|exact Hlj].
    exfalso. by apply Hfind.
Qed.

(** ** Aging *)

(** Whether a process has waited for too long. *)
Definition aged (now : Z) (t : procs) (a : Z) : bool :=
  match t !! a with Some p => AGING_THRESHOLD <? u64 (now - wait_time p) | None => false end.

Definition up (pri : nat) : nat := (pri - 2)%nat.

(** What aging does to a process it promotes. *)
Definition promoted (now : Z) (p : process) : process :=
  set_wait_time now (set_priority (Z.max 0 (priority p - 2))
    (set_boost_count (u32 (boost_count p + 1)) p)).

Lemma aged_strip now t t' a : strip <$> t' !! a = strip <$> t !! a → aged now t' a = aged now t a.
Proof.
  intros H. unfold aged. destruct (t' !! a), (t !! a); try done.
  apply (inj Some), (f_equal wait_time) in H. cbn in H. by rewrite H.
Qed.

Lemma promoted_strip now p p' : strip p = strip p' → strip (promoted now p) = strip (promoted now p').
Proof.
  intros H. pose proof (f_equal priority H) as Hpr. pose proof (f_equal boost_count H) as Hbc. cbn in Hpr, Hbc.
  unfold promoted. rewrite Hpr, Hbc.
  by apply (f_equal (λ q, set_wait_time now (set_priority (Z.max 0 (priority p' - 2))
    (set_boost_count (u32 (boost_count p' + 1)) q)))) in H.
Qed.

Lemma filter_agree_split {A} (f g : A → bool) (l : list A) :
  (∀ x, x ∈ l → f x = g x) →
  filter f l = filter g l ∧ filter (λ x, ¬ f x) l = filter (λ x, ¬ g x) l.
Proof. intros H. split; apply filter_agree; intros x Hx; by rewrite (H x Hx). Qed.

Lemma age_one_spec now s ls k l1 a l2 d :
  prio_ok s ls → (1 ≤ k)%nat → ls !! k = Some (l1 ++ a :: l2) → ls !! up k = Some d →
  if aged now (pprocs s) a then
    ∃ s', age_one now (Z.of_nat k) a s = Ret (tt, s') ∧
      prio_ok s' (<[up k := d ++ [a]]> (<[k := l1 ++ l2]> ls)) ∧
      strip <$> pprocs s' !! a = (λ p, strip (promoted now p)) <$> pprocs s !! a ∧
      (∀ b, b ≠ a → strip <$> pprocs s' !! b = strip <$> pprocs s !! b)
  else age_one now (Z.of_nat k) a s = Ret (tt, s).
Proof.
  intros Hok Hk Hl Hd. destruct (ok_member s ls Hok k _ a Hl ltac:(set_solver)) as (Ha0 & p & Hp & Hpk).
  destruct (prio_ok_index s ls Hok k _ Hl) as (Hk32 & q & Hq & Hqok).
  unfold age_one. rewrite (bind_Ret _ _ _ _ _ (prio_on_load s a p Hp)). cbv zeta.
  unfold aged. rewrite Hp. destruct (AGING_THRESHOLD <? _); [|done].
  replace (if Z.of_nat k - AGING_BOOST <? 0 then 0 else Z.of_nat k - AGING_BOOST) with (Z.of_nat (up k))
    by (unfold up; zbool; lia).
  rewrite (proj2 (Z.eqb_neq _ _)) by (unfold up; lia). cbn [negb].
  destruct (priority_dequeue_spec s ls a k l1 l2 Hok Hl) as (s1 & E1 & Hok1 & Hsd1 & _).
  rewrite (bind_Ret _ _ _ _ _ E1).
  destruct (same_data_Some _ _ a p Hsd1 Hp) as (p1 & Hp1 & Hs1).
  rewrite (bind_Ret _ _ _ _ _ (prio_on_upd s1 a p1 _ Hp1)). set (s2 := Build_pst _ (ps s1)).
  assert (pprocs s2 !! a = Some (set_priority (Z.of_nat (up k)) p1)) as Hp2 by apply lookup_insert_eq.
  rewrite (bind_Ret _ _ _ _ _ (prio_on_load s2 a _ Hp2)), (bind_Ret _ _ _ _ _ (prio_on_upd s2 a _ _ Hp2)).
  cbn [pprocs s2 ps]. rewrite insert_insert_eq. set (p3 := set_boost_count _ _). set (s3 := Build_pst _ (ps s1)).
  assert (a ∉ concat (<[k := l1 ++ l2]> ls)) as Ha.
  { intros (j & lj & Hlj & Haj)%concat_elem_of.
    apply list_lookup_insert_Some in Hlj as [(_ & <- & _)|(Hne & Hlj)].
    - pose proof (q_nodup _ _ _ Hqok) as (_ & Hdis & [Hn _]%NoDup_cons)%NoDup_app.
      apply elem_of_app in Haj as [Haj|Haj]; [|done]. apply (Hdis a Haj). by left.
    - apply Hne. eapply (queues_disjoint _ _ _ _ k j _ _ a); [apply Hok | exact Hl | exact Hlj | | done].
      apply elem_of_app. right. by left. }
  assert (prio_ok s3 (<[k := l1 ++ l2]> ls)) as Hok3 by (by apply prio_ok_upd).
  pose proof (length_concat_insert ls k _ (l1 ++ l2) Hl) as Hli. rewrite !length_app in Hli. cbn [length] in Hli.
  pose proof (pr_small _ _ Hok).
  destruct (priority_enqueue_spec s3 (<[k := l1 ++ l2]> ls) now a p3 (up k) d)
    as (s4 & E4 & Hok4 & Hp4 & Hoth4 & _); try done; try lia.
  { apply lookup_insert_eq. }
  { cbn. unfold clamp. rewrite i32_small by (unfold up; lia). unfold up. lia. }
  { rewrite list_lookup_insert_ne; [done|]. unfold up. lia. }
  rewrite (bind_Ret _ _ _ _ _ E4). eexists. split; [reflexivity|]. cbn [pprocs ps].
  split_and!; [by destruct Hok4; split | |].
  - rewrite Hp4. cbn [fmap option_fmap option_map]. f_equal. unfold p3, promoted.
    replace (Z.of_nat (up k)) with (Z.max 0 (priority p - 2)) by (unfold up; lia).
    apply (f_equal (λ p', set_wait_time now (set_priority (Z.max 0 (priority p - 2))
      (set_boost_count (u32 (boost_count p' + 1)) p')))) in Hs1. exact Hs1.
  - intros b Hb. rewrite Hoth4 by done. cbn [pprocs s3]. rewrite lookup_insert_ne by done. apply Hsd1.
Qed.

(** One queue: [dn] is what the loop has left in place, [rest] what it has not
    seen. *)
Lemma age_queue_spec now k rest : ∀ s ls dn d fuel,
  prio_ok s ls → (1 ≤ k)%nat → ls !! k = Some (dn ++ rest) → ls !! up k = Some d → (length rest < fuel)%nat →
  ∃ s', age_queue fuel now (Z.of_nat k) (hd 0 rest) s = Ret (tt, s') ∧
    prio_ok s' (<[up k := d ++ filter (aged now (pprocs s)) rest]>
                 (<[k := dn ++ filter (λ a, ¬ aged now (pprocs s) a) rest]> ls)) ∧
    (∀ b, strip <$> pprocs s' !! b =
       if bool_decide (b ∈ rest) && aged now (pprocs s) b
       then (λ p, strip (promoted now p)) <$> pprocs s !! b else strip <$> pprocs s !! b).
Proof.
  induction rest as [|a rest IH]; intros s ls dn d [|fuel] Hok Hk Hl Hd Hf; cbn [length] in Hf; try lia.
  { exists s. split_and!; [done | |].
    - rewrite !filter_nil, !app_nil_r in *. rewrite !list_insert_id; [done | done|].
      by rewrite list_insert_id.
    - intros b. by rewrite bool_decide_false by set_solver. }
  destruct (prio_ok_index s ls Hok k _ Hl) as (_ & q & _ & Hqok).
  pose proof (q_chain _ _ _ Hqok) as [_ Hch]%chain_app. cbn [chain] in Hch.
  destruct Hch as (Ha0 & (p & Hp & _ & Hnx) & _).
  pose proof (q_nodup _ _ _ Hqok) as (_ & _ & [Har _]%NoDup_cons)%NoDup_app.
  cbn [age_queue hd]. rewrite (proj2 (Z.eqb_neq a 0)), (bind_Ret _ _ _ _ _ (prio_on_load s a p Hp)) by done.
  cbv zeta. rewrite Hnx. pose proof (age_one_spec now s ls k dn a rest d Hok Hk Hl Hd) as Hone.
  assert (up k ≠ k) as Hup by (unfold up; lia).
  pose proof (lookup_lt_Some _ _ _ Hd). pose proof (lookup_lt_Some _ _ _ Hl).
  destruct (aged now (pprocs s) a) eqn:Hag.
  - destruct Hone as (s1 & E1 & Hok1 & Hp1 & Hoth1). rewrite (bind_Ret _ _ _ _ _ E1).
    destruct (IH s1 _ dn (d ++ [a]) fuel Hok1 Hk) as (s' & E' & Hok' & Hdata'); [| |lia|].
    { rewrite list_lookup_insert_ne, list_lookup_insert_eq by done. done. }
    { rewrite list_lookup_insert_eq; [done|]. by rewrite length_insert. }
    assert (∀ b, b ∈ rest → aged now (pprocs s1) b = aged now (pprocs s) b) as Hagd.
    { intros b Hb. apply aged_strip, Hoth1. set_solver. }
    exists s'. split_and!; [done | |].
    + rewrite (list_insert_insert_ne _ k (up k)), list_insert_insert_eq, (list_insert_insert_eq _ k) in Hok' by done.
      destruct (filter_agree_split _ _ _ Hagd) as [Hf1 Hf2]. rewrite Hf1, Hf2 in Hok'.
      rewrite filter_cons_True, filter_cons_False by (rewrite Hag; naive_solver).
      by rewrite <- app_assoc in Hok'.
    + intros b. rewrite Hdata'. destruct (decide (b = a)) as [->|Hne].
      * rewrite (bool_decide_false (a ∈ rest)), (bool_decide_true (a ∈ a :: rest)), Hag by set_solver.
        cbn [andb]. by rewrite Hp1.
      * rewrite (bool_decide_ext (b ∈ a :: rest) (b ∈ rest)) by set_solver.
        destruct (decide (b ∈ rest)) as [Hb|Hb].
        -- rewrite Hagd, !bool_decide_true by done. destruct (aged _ _ b); cbn [andb]; [|by apply Hoth1].
           specialize (Hoth1 b Hne). destruct (pprocs s1 !! b), (pprocs s !! b); try done.
           apply (inj Some) in Hoth1. cbn. f_equal. by apply promoted_strip.
        -- rewrite !bool_decide_false by done. by apply Hoth1.
  - rewrite (bind_Ret _ _ _ _ _ Hone).
    destruct (IH s ls (dn ++ [a]) d fuel Hok Hk) as (s' & E' & Hok' & Hdata'); [|done|lia|].
    { by rewrite <- app_assoc. }
    exists s'. split_and!; [done | |].
    + rewrite filter_cons_False, (filter_cons_True (λ a, ¬ _)) by (rewrite Hag; naive_solver).
      by rewrite <- app_assoc in Hok'.
    + intros b. rewrite Hdata'. destruct (decide (b = a)) as [->|Hne].
      * by rewrite Hag, !andb_false_r.
      * by rewrite (bool_decide_ext (b ∈ a :: rest) (b ∈ rest)) by set_solver.
Qed.

(** The queues while aging goes down the levels: those above [k] are done.
    Level [j] loses its aged processes to level [j - 2] (or 0) and receives those
    of level [j + 2]; level 0 also receives those of level 1. *)
Definition at_level (ls : list (list Z)) (j : nat) : list Z := default [] (ls !! j).

Definition aged_level (A : Z → bool) (ls : list (list Z)) (k j : nat) : list Z :=
  (if (k <? j)%nat then filter (λ a, ¬ A a) (at_level ls j) else at_level ls j) ++
  (if (k <? j + 2)%nat then filter A (at_level ls (j + 2)) else []) ++
  (if (j =? 0)%nat && (k <? 1)%nat then filter A (at_level ls 1) else []).

Definition aged_lists (A : Z → bool) (ls : list (list Z)) (k : nat) : list (list Z) :=
  aged_level A ls k <$> seq 0 32.

(** The processes promoted so far. *)
Definition moved (A : Z → bool) (ls : list (list Z)) (k : nat) (b : Z) : bool :=
  bool_decide (b ∈ concat (drop (S k) ls)) && A b.

Definition aged_data (now : Z) (A : Z → bool) (ls : list (list Z)) (k : nat) (t t' : procs) : Prop :=
  ∀ b, strip <$> t' !! b = if moved A ls k b then (λ p, strip (promoted now p)) <$> t !! b
                           else strip <$> t !! b.

Lemma lookup_aged A ls k j : (j < 32)%nat → aged_lists A ls k !! j = Some (aged_level A ls k j).
Proof.
  intros Hj. unfold aged_lists. rewrite list_lookup_fmap, lookup_seq_lt by lia. done.
Qed.

Lemma at_level_Some ls j l : ls !! j = Some l → at_level ls j = l.
Proof. unfold at_level. by intros ->. Qed.

Lemma aged_lists_start A ls : length ls = 32%nat → aged_lists A ls 31 = ls.
Proof.
  intros Hlen. apply list_eq. intros j. destruct (decide (j < 32)%nat) as [Hj|Hj].
  - rewrite lookup_aged by done. destruct (lookup_lt_is_Some_2 ls j) as [l Hl]; [lia|].
    rewrite Hl. f_equal. unfold aged_level. rewrite (at_level_Some ls j l Hl).
    rewrite (proj2 (Nat.ltb_ge 31 j)), (proj2 (Nat.ltb_ge 31 1)), andb_false_r by lia.
    destruct (Nat.ltb_spec 31 (j + 2)); [|by rewrite !app_nil_r].
    unfold at_level. rewrite (lookup_ge_None_2 ls (j + 2)) by lia. cbn. by rewrite !app_nil_r.
  - rewrite !lookup_ge_None_2; [done | lia |]. unfold aged_lists. rewrite length_fmap, length_seq. lia.
Qed.

(** The step from level [S k] to level [k] on the lists. *)
Lemma aged_lists_step A ls k :
  (S k < 32)%nat → let m := S k in
  <[up m := aged_level A ls m (up m) ++ filter A (at_level ls m)]>
    (<[m := filter (λ a, ¬ A a) (at_level ls m) ++ filter A (at_level ls (m + 2))]> (aged_lists A ls m)) =
  aged_lists A ls k.
Proof.
  intros Hk m. assert (length (aged_lists A ls m) = 32%nat) as Hlen
    by (unfold aged_lists; by rewrite length_fmap, length_seq).
  apply list_eq. intros j. destruct (decide (j < 32)%nat) as [Hj|Hj].
  2: { rewrite !lookup_ge_None_2; [done | |]; rewrite ?length_insert; [|lia].
       unfold aged_lists. rewrite length_fmap, length_seq. lia. }
  rewrite (lookup_aged A ls k j Hj). destruct (decide (j = up m)) as [->|Hju].
  - rewrite list_lookup_insert_eq by (rewrite length_insert; unfold up; lia). f_equal.
    unfold aged_level, up, m. destruct k as [|k].
    + cbn [Nat.sub Nat.eqb Nat.ltb Nat.leb andb Nat.add]. by rewrite !app_nil_r, <- app_assoc.
    + replace (S (S k) - 2)%nat with k by lia. replace (k + 2)%nat with (S (S k)) by lia.
      rewrite (proj2 (Nat.ltb_ge (S (S k)) k)), (proj2 (Nat.ltb_ge (S k) k)) by lia.
      rewrite (proj2 (Nat.ltb_ge (S (S k)) (S (S k)))), (proj2 (Nat.ltb_lt (S k) (S (S k)))) by lia.
      rewrite (proj2 (Nat.ltb_ge (S k) 1)), (proj2 (Nat.ltb_ge (S (S k)) 1)), !andb_false_r by lia.
      by rewrite !app_nil_r.
  - rewrite list_lookup_insert_ne by done. destruct (decide (j = m)) as [->|Hjm].
    + rewrite list_lookup_insert_eq by lia. f_equal. unfold aged_level.
      rewrite (proj2 (Nat.ltb_lt k m)), (proj2 (Nat.ltb_lt k (m + 2))) by (unfold m; lia).
      cbn. by rewrite app_nil_r.
    + rewrite list_lookup_insert_ne, lookup_aged by done. f_equal. unfold aged_level. unfold up, m in *.
      replace ((S k <? j)%nat) with ((k <? j)%nat)
        by (destruct (Nat.ltb_spec k j), (Nat.ltb_spec (S k) j); lia || done).
      replace ((S k <? j + 2)%nat) with ((k <? j + 2)%nat)
        by (destruct (Nat.ltb_spec k (j + 2)), (Nat.ltb_spec (S k) (j + 2)); lia || done).
      do 2 f_equal. destruct j as [|j]; [|done]. destruct k; [lia | done].
Qed.

(** The predicate as the loop over level [S k] sees it. *)
Lemma aged_now now s0 s ls k b :
  prio_ok s0 ls → aged_data now (aged now (pprocs s0)) ls k (pprocs s0) (pprocs s) →
  aged now (pprocs s) b = negb (moved (aged now (pprocs s0)) ls k b) && aged now (pprocs s0) b.
Proof.
  intros Hok Hd. specialize (Hd b). destruct (moved _ _ _ b) eqn:Hm; cbn [negb andb].
  - unfold aged. destruct (pprocs s !! b) as [p|]; [|done]. destruct (pprocs s0 !! b) as [p0|]; [|done].
    apply (inj Some), (f_equal wait_time) in Hd. cbn in Hd. rewrite Hd, Z.sub_diag. done.
  - by apply aged_strip.
Qed.

Lemma not_moved_same s ls A k b l :
  prio_ok s ls → ls !! k = Some l → b ∈ l → moved A ls k b = false.
Proof.
  intros Hok Hl Hb. unfold moved. rewrite bool_decide_false; [done|].
  intros (j & lj & Hlj & Hbj)%concat_elem_of. rewrite lookup_drop in Hlj.
  pose proof (queues_disjoint _ _ _ _ _ _ _ _ b (pr_queues _ _ Hok) Hl Hlj Hb Hbj). lia.
Qed.

Lemma moved_above s ls A k b j l :
  prio_ok s ls → ls !! j = Some l → (k < j)%nat → b ∈ l → moved A ls k b = A b.
Proof.
  intros _ Hl Hj Hb. unfold moved. rewrite bool_decide_true; [done|].
  eapply (elem_of_concat _ (j - S k)); [|exact Hb]. rewrite lookup_drop.
  by replace (S k + (j - S k))%nat with j by lia.
Qed.

Lemma moved_step A ls k b l :
  ls !! S k = Some l → moved A ls k b = (bool_decide (b ∈ l) && A b) || moved A ls (S k) b.
Proof.
  intros Hl. unfold moved. rewrite (drop_S _ _ _ Hl). cbn [concat].
  rewrite (bool_decide_ext _ (b ∈ l ∨ b ∈ concat (drop (S (S k)) ls))) by apply elem_of_app.
  rewrite bool_decide_or. by destruct (bool_decide (b ∈ l)), (bool_decide _), (A b).
Qed.

(** What the loop over one level sees and leaves. *)
Lemma aged_level_split now s0 s ls m :
  let A := aged now (pprocs s0) in
  prio_ok s0 ls → aged_data now A ls m (pprocs s0) (pprocs s) → (1 ≤ m < 32)%nat →
  filter (aged now (pprocs s)) (aged_level A ls m m) = filter A (at_level ls m) ∧
  filter (λ a, ¬ aged now (pprocs s) a) (aged_level A ls m m) =
    filter (λ a, ¬ A a) (at_level ls m) ++ filter A (at_level ls (m + 2)).
Proof.
  intros A Hok Hd Hm. pose proof (pr_len _ _ Hok) as Hlen. change (Z.to_nat MAX_PRIORITIES) with 32%nat in Hlen.
  destruct (lookup_lt_is_Some_2 ls m) as [l Hl]; [lia|].
  assert (aged_level A ls m m = at_level ls m ++ filter A (at_level ls (m + 2))) as ->.
  { unfold aged_level. rewrite Nat.ltb_irrefl, (proj2 (Nat.ltb_lt m (m + 2))) by lia.
    rewrite (proj2 (Nat.eqb_neq m 0)) by lia. cbn [andb]. by rewrite app_nil_r. }
  rewrite !filter_app, (at_level_Some ls m l Hl).
  destruct (filter_agree_split (aged now (pprocs s)) A l) as [-> ->].
  { intros b Hb. rewrite (aged_now now s0 s ls m b Hok Hd).
    fold A. by rewrite (not_moved_same s0 ls A m b l Hok Hl Hb). }
  assert (∀ b, b ∈ filter A (at_level ls (m + 2)) → aged now (pprocs s) b = false) as Hfalse.
  { intros b [Hb Hin]%list_elem_of_filter. unfold at_level in Hin.
    destruct (ls !! (m + 2)%nat) as [l2|] eqn:Hl2; [|by apply not_elem_of_nil in Hin]. cbn in Hin.
    rewrite (aged_now now s0 s ls m b Hok Hd). fold A.
    rewrite (moved_above s0 ls A m b _ l2 Hok Hl2) by (lia || done). by destruct (A b). }
  rewrite (filter_none (aged now (pprocs s))), (filter_all (λ a, ¬ aged now (pprocs s) a)).
  - by rewrite app_nil_r.
  - intros b Hb. rewrite (Hfalse b Hb). naive_solver.
  - intros b Hb. rewrite (Hfalse b Hb). naive_solver.
Qed.

Lemma age_level_step now s0 s ls k :
  let A := aged now (pprocs s0) in
  prio_ok s0 ls → (S k < 32)%nat → prio_ok s (aged_lists A ls (S k)) →
  aged_data now A ls (S k) (pprocs s0) (pprocs s) →
  ∃ s', age_levels (S k) now s = age_levels k now s' ∧ prio_ok s' (aged_lists A ls k) ∧
    aged_data now A ls k (pprocs s0) (pprocs s').
Proof.
  intros A Hok0 Hk Hok Hd. set (m := S k) in *.
  pose proof (pr_len _ _ Hok0) as Hlen. change (Z.to_nat MAX_PRIORITIES) with 32%nat in Hlen.
  pose proof (lookup_aged A ls m m Hk) as Hm.
  assert (aged_lists A ls m !! up m = Some (aged_level A ls m (up m))) as Hup by (apply lookup_aged; unfold up; lia).
  destruct (prio_ok_index s _ Hok m _ Hm) as (_ & q & Hq & Hqok).
  destruct (aged_level_split now s0 s ls m Hok0 Hd) as [Hf1 Hf2]; [lia|].
  fold A in Hf1, Hf2.
  destruct (age_queue_spec now m (aged_level A ls m m) s _ [] (aged_level A ls m (up m)) (S (size (pprocs s))) Hok) as (s' & E & Hok' & Hd');
    [lia | exact Hm | exact Hup | |].
  { apply Nat.lt_succ_r, members_bound; [apply (q_nodup _ _ _ Hqok)|].
    intros b Hb. by eapply chain_member; [apply (q_chain _ _ _ Hqok)|]. }
  cbn [app] in Hok'. rewrite Hf1, Hf2 in Hok'.
  pose proof (aged_lists_step A ls k Hk) as Hstep. cbv zeta in Hstep. fold m in Hstep.
  rewrite Hstep in Hok'.
  exists s'. split_and!; [|exact Hok'|].
  - unfold m. cbn [age_levels]. fold m.
    rewrite (bind_Ret _ _ _ _ _ (get_queue_eq s m q Hq)), (q_count _ _ _ Hqok).
    destruct (aged_level A ls m m) as [|a l]; cbn [length].
    + cbn [hd age_queue] in E. unfold mret, M_ret in E. injection E as ->. reflexivity.
    + rewrite (proj2 (Z.eqb_neq _ 0)) by lia. rewrite (q_head _ _ _ Hqok).
      erewrite bind_Ret; [reflexivity|]. rewrite bind_get. exact E.
  - intros b. rewrite Hd', (aged_now now s0 s ls m b Hok0 Hd). fold A.
    destruct (lookup_lt_is_Some_2 ls m) as [l Hl]; [lia|].
    rewrite (moved_step A ls k b l Hl). specialize (Hd b). fold m in Hd |- *.
    destruct (moved A ls m b) eqn:Hmv; cbn [negb andb orb].
    + rewrite andb_false_r, orb_true_r. by rewrite Hd.
    + rewrite orb_false_r. assert (bool_decide (b ∈ aged_level A ls m m) && A b = bool_decide (b ∈ l) && A b) as ->.
      { destruct (A b) eqn:HA; [|by rewrite !andb_false_r]. rewrite !andb_true_r. apply bool_decide_ext.
        unfold aged_level. rewrite Nat.ltb_irrefl, (proj2 (Nat.ltb_lt m (m + 2))) by lia.
        rewrite (proj2 (Nat.eqb_neq m 0)), (at_level_Some ls m l Hl) by lia. cbn [andb].
        rewrite app_nil_r, elem_of_app. split; [|by left]. intros [?|[_ Hin]%list_elem_of_filter]; [done|].
        unfold at_level in Hin. destruct (ls !! (m + 2)%nat) as [l2|] eqn:Hl2; [|by apply not_elem_of_nil in Hin].
        cbn in Hin. rewrite (moved_above s0 ls A m b _ l2 Hok0 Hl2) in Hmv by (lia || done). congruence. }
      destruct (bool_decide (b ∈ l) && A b); [|done].
      destruct (pprocs s !! b), (pprocs s0 !! b); try done. apply (inj Some) in Hd. cbn. f_equal.
      by apply promoted_strip.
Qed.

Lemma age_levels_spec now s0 ls k : ∀ s,
  let A := aged now (pprocs s0) in
  prio_ok s0 ls → (k < 32)%nat → prio_ok s (aged_lists A ls k) →
  aged_data now A ls k (pprocs s0) (pprocs s) →
  ∃ s', age_levels k now s = Ret (tt, s') ∧ prio_ok s' (aged_lists A ls 0) ∧
    aged_data now A ls 0 (pprocs s0) (pprocs s').
Proof.
  induction k as [|k IH]; intros s A Hok0 Hk Hok Hd; [by exists s|].
  destruct (age_level_step now s0 s ls k Hok0 Hk Hok Hd) as (s1 & -> & Hok1 & Hd1).
  apply IH; [done | lia | done | done].
Qed.

(** Aging.  Nothing happens before the interval has elapsed.  Then every
    process on levels 1 to 31 that has waited for more than the threshold moves
    up two levels (not above level 0), behind the processes already there, with
    its waiting time restarted and its boost count incremented, and is moved at
    most once per pass; all other processes keep their place and their data. *)
Theorem priority_aging_correct now s ls :
  prio_ok s ls →
  let A := aged now (pprocs s) in
  if u64 (now - last_aging_time (ps s)) <? AGING_INTERVAL then priority_aging now s = Ret (tt, s)
  else ∃ s', priority_aging now s = Ret (tt, s') ∧ prio_ok s' (aged_lists A ls 0) ∧
         (∀ b, strip <$> pprocs s' !! b =
            if bool_decide (b ∈ concat (drop 1 ls)) && A b
            then (λ p, strip (promoted now p)) <$> pprocs s !! b else strip <$> pprocs s !! b).
Proof.
  intros Hok A. unfold priority_aging. rewrite bind_get. destruct (_ <? _); [done|].
  unfold upd_ps. rewrite bind_modify. change (Z.to_nat (MAX_PRIORITIES - 1)) with 31%nat.
  pose proof (pr_len _ _ Hok) as Hlen. change (Z.to_nat MAX_PRIORITIES) with 32%nat in Hlen.
  apply (age_levels_spec now s ls 31); [done | lia | |].
  - rewrite aged_lists_start by done. by destruct Hok; split.
  - intros b. unfold moved. by rewrite drop_ge, bool_decide_false by (cbn; lia || set_solver).
Qed.

(** ** A concrete run queue

    Processes 1 and 2 wait on level 5 (2 only since tick 290), process 3 on
    level 7. *)

Definition demo_prio_proc (n pri wait nx pv : Z) : process :=
  {| pid := n; state := READY; priority := pri; preempt_count := 0; page_dir := None; kernel_stack := 0x1000;
     time_slice := 10; time_used := 0; time_slice_remaining := 10; mlfq_level := 0; wait_time := wait;
     boost_count := 0; next := nx; prev := pv; next_waiting := 0 |}.

Definition demo_prio : pst :=
  {| pprocs := <[1 := demo_prio_proc 1 5 0 2 0]> (<[2 := demo_prio_proc 2 5 290 0 1]>
                 (<[3 := demo_prio_proc 3 7 0 0 0]> ∅));
     ps := {| queues := <[5%nat := {| head := 1; tail := 2; count := 2 |}]>
                (<[7%nat := {| head := 3; tail := 3; count := 1 |}]> (replicate 32 empty_queue));
              bitmap := 160; total_count := 3; last_aging_time := 0; total_enqueues := 3;
              total_dequeues := 0; aging_count := 0 |} |}.

Definition demo_prio_lists : list (list Z) := <[5%nat := [1; 2]]> (<[7%nat := [3]]> (replicate 32 [])).

Lemma demo_prio_ok : prio_ok demo_prio demo_prio_lists.
Proof.
  split; try done.
  - split; [done|]. intros i q l Hq Hl. destruct (decide (i = 5%nat)) as [->|H5]; [|destruct (decide (i = 7%nat)) as [->|H7]].
    + cbn in Hq, Hl. simplify_eq. split; [split; try done; [apply (bool_decide_unpack _); done|]|].
      * cbn [chain hd]. split_and!; try done; by eexists.
      * intros a [->|Ha]%elem_of_cons; [by eexists|]. apply list_elem_of_singleton in Ha as ->. by eexists.
    + cbn in Hq, Hl. simplify_eq. split; [split; try done; [apply NoDup_singleton|]|].
      * cbn [chain hd]. split_and!; try done; by eexists.
      * intros a ->%list_elem_of_singleton. by eexists.
    + unfold demo_prio_lists in Hl. cbn [queues ps demo_prio] in Hq.
      rewrite !list_lookup_insert_ne in Hq by done. rewrite !list_lookup_insert_ne in Hl by done.
      apply lookup_replicate in Hq as [-> _]. apply lookup_replicate in Hl as [-> _].
      split; [apply empty_queue_ok | set_solver].
  - intros i l Hl. do 32 (destruct i as [|i]; [cbn in Hl; by simplify_eq|]). done.
Qed.

Lemma priority_pick_next_correct_witness :
  ∃ s', priority_pick_next demo_prio = Ret (1, s') ∧ prio_ok s' (<[5%nat := [2]]> demo_prio_lists).
Proof.
  destruct (priority_pick_next_correct demo_prio demo_prio_lists demo_prio_ok) as (s' & E & Hok & _).
  exists s'. split; [exact E | exact Hok].
Defined.

Lemma priority_aging_correct_witness :
  ∃ s', priority_aging 300 demo_prio = Ret (tt, s') ∧
    prio_ok s' (<[3%nat := [1]]> (<[5%nat := [2; 3]]> (<[7%nat := []]> demo_prio_lists))).
Proof.
  destruct (priority_aging_correct 300 demo_prio demo_prio_lists demo_prio_ok) as (s' & E & Hok & _).
  exists s'. split; [exact E | exact Hok].
Defined.
