(* ===== verification/RbTree.v ===== *)
(** * Red-black trees (lib/rbtree.c, include/rbtree.h)

    The intrusive red-black tree of the kernel, on pointers: a node has two child
    pointers and one word that packs the parent pointer with the colour in bit 0.
    The heap is a finite map from addresses to nodes, 0 is the null pointer, and
    following a null or dangling pointer is undefined.  Every loop takes fuel, the
    number of nodes, which RbInsert, RbErase and RbIter show to suffice. *)

From S2P Require Import Prelude Bits.

#[local] Open Scope Z_scope.

Abbreviation RB_RED := 0%Z (only parsing).
Abbreviation RB_BLACK := 1%Z (only parsing).

Record rb_node := { rb_parent_color : Z; rb_right : Z; rb_left : Z }.

Record rbs := { nodes : gmap Z rb_node; root : Z }.

Definition with_nodes (m : gmap Z rb_node) (s : rbs) : rbs := {| nodes := m; root := root s |}.
Definition with_root (p : Z) (s : rbs) : rbs := {| nodes := nodes s; root := p |}.

Definition load (p : Z) : M rbs rb_node := s ← get; deref (nodes s !! p).

Definition update (p : Z) (f : rb_node → rb_node) : M rbs unit :=
  n ← load p; modify (λ s, with_nodes (<[p := f n]> (nodes s)) s).

Definition get_left (p : Z) : M rbs Z := n ← load p; mret (rb_left n).
Definition get_right (p : Z) : M rbs Z := n ← load p; mret (rb_right n).
Definition set_left (p v : Z) : M rbs unit :=
  update p (λ n, {| rb_parent_color := rb_parent_color n; rb_right := rb_right n; rb_left := v |}).
Definition set_right (p v : Z) : M rbs unit :=
  update p (λ n, {| rb_parent_color := rb_parent_color n; rb_right := v; rb_left := rb_left n |}).
Definition set_parent_color (p v : Z) : M rbs unit :=
  update p (λ n, {| rb_parent_color := v; rb_right := rb_right n; rb_left := rb_left n |}).

(** ** include/rbtree.h *)

Definition rb_parent (p : Z) : M rbs Z := n ← load p; mret (Z.land (rb_parent_color n) 0xFFFFFFFC).
Definition rb_color (p : Z) : M rbs Z := n ← load p; mret (Z.land (rb_parent_color n) 1).
Definition rb_is_red (p : Z) : M rbs bool := c ← rb_color p; mret (c =? 0).
Definition rb_is_black (p : Z) : M rbs bool := c ← rb_color p; mret (negb (c =? 0)).

Definition rb_set_red (p : Z) : M rbs unit :=
  n ← load p; set_parent_color p (Z.land (rb_parent_color n) 0xFFFFFFFE).
Definition rb_set_black (p : Z) : M rbs unit :=
  n ← load p; set_parent_color p (Z.lor (rb_parent_color n) 1).
Definition rb_set_parent (p q : Z) : M rbs unit :=
  n ← load p; set_parent_color p (Z.lor (Z.land (rb_parent_color n) 3) q).
Definition rb_set_parent_color (p q color : Z) : M rbs unit := set_parent_color p (Z.lor q color).

Definition rb_init_node (p : Z) : M rbs unit :=
  _ ← set_parent_color p 0; _ ← set_left p 0; set_right p 0.
Definition rb_empty_node (p : Z) : M rbs bool := n ← load p; mret (rb_parent_color n =? p).
Definition rb_clear_node (p : Z) : M rbs unit := set_parent_color p p.
Definition rb_empty_root : M rbs bool := gets (λ s, root s =? 0).

(** A [struct rb_node **]: the root, or a child field of a node. *)
Inductive link := AtRoot | AtLeft (p : Z) | AtRight (p : Z).

Definition read_link (l : link) : M rbs Z :=
  match l with AtRoot => gets root | AtLeft p => get_left p | AtRight p => get_right p end.
Definition write_link (l : link) (v : Z) : M rbs unit :=
  match l with AtRoot => modify (with_root v) | AtLeft p => set_left p v | AtRight p => set_right p v end.

Definition rb_link_node (node parent : Z) (l : link) : M rbs unit :=
  _ ← set_parent_color node parent;
  _ ← set_right node 0;
  _ ← set_left node 0;
  write_link l node.

(** ** lib/rbtree.c *)

Definition rb_rotate_left (node : Z) : M rbs unit :=
  right ← get_right node;
  parent ← rb_parent node;
  rl ← get_left right;
  _ ← set_right node rl;
  _ ← (if negb (rl =? 0) then rl ← get_left right; rb_set_parent rl node else mret tt);
  _ ← set_left right node;
  _ ← rb_set_parent right parent;
  _ ← (if negb (parent =? 0) then
         pl ← get_left parent;
         if node =? pl then set_left parent right else set_right parent right
       else modify (with_root right));
  rb_set_parent node right.

Definition rb_rotate_right (node : Z) : M rbs unit :=
  left ← get_left node;
  parent ← rb_parent node;
  lr ← get_right left;
  _ ← set_left node lr;
  _ ← (if negb (lr =? 0) then lr ← get_right left; rb_set_parent lr node else mret tt);
  _ ← set_right left node;
  _ ← rb_set_parent left parent;
  _ ← (if negb (parent =? 0) then
         pr ← get_right parent;
         if node =? pr then set_right parent left else set_left parent left
       else modify (with_root left));
  rb_set_parent node left.

(** [uncle && rb_is_red(uncle)] *)
Definition is_red_node (p : Z) : M rbs bool := if negb (p =? 0) then rb_is_red p else mret false.

(** [!p || rb_is_black(p)] *)
Definition null_or_black (p : Z) : M rbs bool := if p =? 0 then mret true else rb_is_black p.

Fixpoint insert_color_loop (fuel : nat) (node : Z) : M rbs unit :=
  match fuel with
  | O => undef
  | S fuel =>
      parent ← rb_parent node;
      red ← is_red_node parent;
      if negb red then mret tt
      else
        gparent ← rb_parent parent;
        gl ← get_left gparent;
        if parent =? gl then
          uncle ← get_right gparent;
          ured ← is_red_node uncle;
          if ured : bool then
            _ ← rb_set_black uncle; _ ← rb_set_black parent; _ ← rb_set_red gparent;
            insert_color_loop fuel gparent
          else
            pr ← get_right parent;
            np ← (if pr =? node then _ ← rb_rotate_left parent; mret (parent, node) else mret (node, parent));
            let '(node, parent) := np in
            _ ← rb_set_black parent; _ ← rb_set_red gparent;
            _ ← rb_rotate_right gparent;
            insert_color_loop fuel node
        else
          uncle ← get_left gparent;
          ured ← is_red_node uncle;
          if ured : bool then
            _ ← rb_set_black uncle; _ ← rb_set_black parent; _ ← rb_set_red gparent;
            insert_color_loop fuel gparent
          else
            pl ← get_left parent;
            np ← (if pl =? node then _ ← rb_rotate_right parent; mret (parent, node) else mret (node, parent));
            let '(node, parent) := np in
            _ ← rb_set_black parent; _ ← rb_set_red gparent;
            _ ← rb_rotate_left gparent;
            insert_color_loop fuel node
  end.

(** The number of nodes bounds every walk through the tree. *)
Definition tree_fuel : M rbs nat := gets (λ s, S (S (size (nodes s)))).

Definition rb_insert_color (node : Z) : M rbs unit :=
  fuel ← tree_fuel;
  _ ← insert_color_loop fuel node;
  r ← gets root;
  rb_set_black r.

(** One side of [__rb_erase_color]; the other one is its mirror image.  The result
    is the next [node] and [parent], or [None] for the [break]. *)
Definition erase_color_left (parent : Z) : M rbs (option (Z * Z)) :=
  other ← get_right parent;
  red ← rb_is_red other;
  other ← (if red : bool then
             _ ← rb_set_black other; _ ← rb_set_red parent;
             _ ← rb_rotate_left parent;
             get_right parent
           else mret other);
  ol ← get_left other; lb ← null_or_black ol;
  both ← (if lb : bool then or_ ← get_right other; null_or_black or_ else mret false);
  if both : bool then
    _ ← rb_set_red other;
    gparent ← rb_parent parent;
    mret (Some (parent, gparent))
  else
    or_ ← get_right other; rb ← null_or_black or_;
    other ← (if rb : bool then
               ol ← get_left other;
               _ ← rb_set_black ol; _ ← rb_set_red other;
               _ ← rb_rotate_right other;
               get_right parent
             else mret other);
    pp ← rb_parent parent; pc ← rb_color parent;
    _ ← rb_set_parent_color other pp pc;
    _ ← rb_set_black parent;
    or_ ← get_right other; _ ← rb_set_black or_;
    _ ← rb_rotate_left parent;
    mret None.

Definition erase_color_right (parent : Z) : M rbs (option (Z * Z)) :=
  other ← get_left parent;
  red ← rb_is_red other;
  other ← (if red : bool then
             _ ← rb_set_black other; _ ← rb_set_red parent;
             _ ← rb_rotate_right parent;
             get_left parent
           else mret other);
  ol ← get_left other; lb ← null_or_black ol;
  both ← (if lb : bool then or_ ← get_right other; null_or_black or_ else mret false);
  if both : bool then
    _ ← rb_set_red other;
    gparent ← rb_parent parent;
    mret (Some (parent, gparent))
  else
    ol ← get_left other; lb ← null_or_black ol;
    other ← (if lb : bool then
               or_ ← get_right other;
               _ ← rb_set_black or_; _ ← rb_set_red other;
               _ ← rb_rotate_left other;
               get_left parent
             else mret other);
    pp ← rb_parent parent; pc ← rb_color parent;
    _ ← rb_set_parent_color other pp pc;
    _ ← rb_set_black parent;
    ol ← get_left other; _ ← rb_set_black ol;
    _ ← rb_rotate_right parent;
    mret None.

Fixpoint erase_color_loop (fuel : nat) (node parent : Z) : M rbs Z :=
  match fuel with
  | O => undef
  | S fuel =>
      black ← null_or_black node;
      r ← gets root;
      if negb (black && negb (node =? r)) then mret node
      else
        pl ← get_left parent;
        next ← (if pl =? node then erase_color_left parent else erase_color_right parent);
        match next with
        | Some (node, parent) => erase_color_loop fuel node parent
        | None => gets root
        end
  end.

Definition rb_erase_color (node parent : Z) : M rbs unit :=
  fuel ← tree_fuel;
  node ← erase_color_loop fuel node parent;
  if negb (node =? 0) then rb_set_black node else mret tt.

(** [while ((left = node->rb_left) != NULL) node = left;] *)
Fixpoint go_left (fuel : nat) (node : Z) : M rbs Z :=
  match fuel with
  | O => undef
  | S fuel => left ← get_left node; if left =? 0 then mret node else go_left fuel left
  end.

Fixpoint go_right (fuel : nat) (node : Z) : M rbs Z :=
  match fuel with
  | O => undef
  | S fuel => right ← get_right node; if right =? 0 then mret node else go_right fuel right
  end.

(** [if (parent->rb_left == old) parent->rb_left = new; else parent->rb_right = new;]
    under a parent, [root->rb_node = new] without one. *)
Definition replace_child (parent old new : Z) : M rbs unit :=
  if negb (parent =? 0) then
    pl ← get_left parent;
    if pl =? old then set_left parent new else set_right parent new
  else modify (with_root new).

(** The case of a node with at most one child: the child takes its place. *)
Definition erase_outer (node child : Z) : M rbs (Z * Z * Z) :=
  parent ← rb_parent node;
  color ← rb_color node;
  _ ← (if negb (child =? 0) then rb_set_parent child parent else mret tt);
  _ ← replace_child parent node child;
  mret (child, parent, color).

(** The case of two children: the successor takes the place of the node. *)
Definition erase_inner (old : Z) : M rbs (Z * Z * Z) :=
  node ← get_right old;
  fuel ← tree_fuel;
  node ← go_left fuel node;
  oldp ← rb_parent old;
  _ ← replace_child oldp old node;
  child ← get_right node;
  parent ← rb_parent node;
  color ← rb_color node;
  parent ← (if parent =? old then mret node
            else
              _ ← (if negb (child =? 0) then rb_set_parent child parent else mret tt);
              _ ← set_left parent child;
              oldr ← get_right old;
              _ ← set_right node oldr;
              _ ← rb_set_parent oldr node;
              mret parent);
  oldn ← load old;
  _ ← set_parent_color node (rb_parent_color oldn);
  _ ← set_left node (rb_left oldn);
  _ ← rb_set_parent (rb_left oldn) node;
  mret (child, parent, color).

Definition rb_erase (node : Z) : M rbs unit :=
  l ← get_left node;
  res ← (if l =? 0 then child ← get_right node; erase_outer node child
         else
           r ← get_right node;
           if r =? 0 then child ← get_left node; erase_outer node child
           else erase_inner node);
  let '(child, parent, color) := res in
  if color =? RB_BLACK then rb_erase_color child parent else mret tt.

Definition rb_first : M rbs Z :=
  n ← gets root;
  if n =? 0 then mret 0 else fuel ← tree_fuel; go_left fuel n.

Definition rb_last : M rbs Z :=
  n ← gets root;
  if n =? 0 then mret 0 else fuel ← tree_fuel; go_right fuel n.

(** [while ((parent = rb_parent(node)) && node == parent->rb_right) node = parent;] *)
Fixpoint climb_right (fuel : nat) (node : Z) : M rbs Z :=
  match fuel with
  | O => undef
  | S fuel =>
      parent ← rb_parent node;
      if parent =? 0 then mret parent
      else
        pr ← get_right parent;
        if node =? pr then climb_right fuel parent else mret parent
  end.

Fixpoint climb_left (fuel : nat) (node : Z) : M rbs Z :=
  match fuel with
  | O => undef
  | S fuel =>
      parent ← rb_parent node;
      if parent =? 0 then mret parent
      else
        pl ← get_left parent;
        if node =? pl then climb_left fuel parent else mret parent
  end.

Definition rb_next (node : Z) : M rbs Z :=
  p ← rb_parent node;
  if p =? node then mret 0
  else
    fuel ← tree_fuel;
    r ← get_right node;
    if negb (r =? 0) then go_left fuel r else climb_right fuel node.

Definition rb_prev (node : Z) : M rbs Z :=
  p ← rb_parent node;
  if p =? node then mret 0
  else
    fuel ← tree_fuel;
    l ← get_left node;
    if negb (l =? 0) then go_right fuel l else climb_left fuel node.

Definition rb_replace_node (victim new : Z) : M rbs unit :=
  parent ← rb_parent victim;
  _ ← (if negb (parent =? 0) then
         pl ← get_left parent;
         if victim =? pl then set_left parent new else set_right parent new
       else modify (with_root new));
  l ← get_left victim;
  _ ← (if negb (l =? 0) then l ← get_left victim; rb_set_parent l new else mret tt);
  r ← get_right victim;
  _ ← (if negb (r =? 0) then r ← get_right victim; rb_set_parent r new else mret tt);
  n ← load victim;
  update new (λ _, n).
