(* ===== verification/RbSpec.v ===== *)
(** * Red-black trees as mathematical objects

    Trees labelled with the addresses of their nodes, contexts (the path from a node
    up to the root), and the rebalancing of lib/rbtree.c on them: [ins_fix] after an
    insertion and [del_fix] after a deletion.  Both keep the order of the nodes and
    restore the red-black invariant, so the height stays logarithmic. *)

From S2P Require Import Prelude.

Inductive color := Red | Black.

Inductive tree :=
  | E
  | T (c : color) (l : tree) (a : Z) (r : tree).

(** A step of the path: the hole is the left ([true]) or the right child of node
    [fa], whose other child is [fs]. *)
Record frame := F { fd : bool; fc : color; fa : Z; fs : tree }.

(** A node with its child on side [d] first. *)
Definition node (d : bool) (c : color) (near : tree) (a : Z) (far : tree) : tree :=
  if d then T c near a far else T c far a near.

Definition plug1 (f : frame) (t : tree) : tree := node (fd f) (fc f) t (fa f) (fs f).

Fixpoint plug (k : list frame) (t : tree) : tree :=
  match k with [] => t | f :: k => plug k (plug1 f t) end.

Fixpoint inorder (t : tree) : list Z :=
  match t with E => [] | T _ l a r => inorder l ++ a :: inorder r end.

(** The nodes before and after the hole. *)
Fixpoint before (k : list frame) : list Z :=
  match k with
  | [] => []
  | f :: k => before k ++ if fd f then [] else inorder (fs f) ++ [fa f]
  end.

Fixpoint after (k : list frame) : list Z :=
  match k with
  | [] => []
  | f :: k => (if fd f then fa f :: inorder (fs f) else []) ++ after k
  end.

Lemma inorder_plug k t : inorder (plug k t) = before k ++ inorder t ++ after k.
Proof.
  revert t. induction k as [|f k IH]; intros t; simpl; [by rewrite app_nil_r|].
  rewrite IH. unfold plug1, node. destruct (fd f); simpl; by rewrite <- ?app_assoc, ?app_nil_r, <- ?app_assoc.
Qed.

Definition is_red (t : tree) : bool := match t with T Red _ _ _ => true | _ => false end.

Definition blacken (t : tree) : tree := match t with E => E | T _ l a r => T Black l a r end.

Lemma inorder_blacken t : inorder (blacken t) = inorder t.
Proof. by destruct t. Qed.

Lemma inorder_node d c n a f :
  inorder (node d c n a f) = if d then inorder n ++ a :: inorder f else inorder f ++ a :: inorder n.
Proof. by destruct d. Qed.

(** A non-empty tree seen from side [d]. *)
Definition sides (d : bool) (t : tree) : option (color * tree * Z * tree) :=
  match t with
  | E => None
  | T c l a r => Some (if d then (c, l, a, r) else (c, r, a, l))
  end.

Lemma sides_Some d t c n a f : sides d t = Some (c, n, a, f) → t = node d c n a f.
Proof. destruct t as [|c' l a' r], d; simpl; intros; by simplify_eq. Qed.

Lemma sides_node d c n a f : sides d (node d c n a f) = Some (c, n, a, f).
Proof. by destruct d. Qed.

(** ** After an insertion *)

(** Two rotations: [t] is a red child of the red [f], under the black [g]. *)
Definition ins_rotate (f g : frame) (t : tree) : tree :=
  let d := fd g in
  if Bool.eqb (fd f) d then
    node d Black t (fa f) (node d Red (fs f) (fa g) (fs g))
  else
    match sides d t with
    | Some (_, n, x, b) => node d Black (node d Red (fs f) (fa f) n) x (node d Red b (fa g) (fs g))
    | None => E
    end.

Fixpoint ins_fix (k : list frame) (t : tree) : tree :=
  match k with
  | f :: g :: k' =>
      match fc f with
      | Black => plug k t
      | Red =>
          if is_red (fs g) then
            ins_fix k' (node (fd g) Red (blacken (plug1 f t)) (fa g) (blacken (fs g)))
          else plug k' (ins_rotate f g t)
      end
  | _ => plug k t
  end.

(** ** After a deletion *)

(** What is done at a parent whose child [t] misses a black node, once the other
    child is black: go on above, or be finished. *)
Inductive step := Up (t : tree) | Done (t : tree).

Definition del_step (d : bool) (c : color) (p : Z) (t sib : tree) : step :=
  match sides d sib with
  | None => Done E
  | Some (_, n, s, f) =>
      if negb (is_red n) && negb (is_red f) then Up (node d c t p (node d Red n s f))
      else if negb (is_red f) then
        match sides d n with
        | None => Done E
        | Some (_, a, x, b) => Done (node d c (node d Black t p a) x (node d Black b s f))
        end
      else Done (node d c (node d Black t p n) s (blacken f))
  end.

Fixpoint del_fix (k : list frame) (t : tree) : tree :=
  match k with
  | [] => blacken t
  | f :: k' =>
      if is_red t then plug k (blacken t)
      else
        match sides (fd f) (fs f) with
        | Some (Red, n, s, far) =>
            let above := F (fd f) Black s far :: k' in
            match del_step (fd f) Red (fa f) t n with
            | Up u => plug above (blacken u)
            | Done u => blacken (plug above u)
            end
        | _ =>
            match del_step (fd f) (fc f) (fa f) t (fs f) with
            | Up u => del_fix k' u
            | Done u => blacken (plug k' u)
            end
        end
  end.

(** Removing the node at the focus. *)
Fixpoint split_min (k : list frame) (c : color) (l : tree) (a : Z) (r : tree) : list frame * color * Z * tree :=
  match l with
  | E => (k, c, a, r)
  | T c' l' a' r' => split_min (F true c a r :: k) c' l' a' r'
  end.

Definition remove (k : list frame) (c : color) (l r : tree) : tree :=
  let finish c k t := match c with Black => del_fix k t | Red => plug k t end in
  match l, r with
  | E, _ => finish c k r
  | _, E => finish c k l
  | _, T cr rl b rr =>
      let '(k', c', y, t) := split_min [] cr rl b rr in
      finish c' (k' ++ F false c y l :: k) t
  end.

(** ** The order is kept *)

Lemma inorder_ins_fix k t : is_red t = true → inorder (ins_fix k t) = before k ++ inorder t ++ after k.
Proof.
  revert k t. fix IH 1. intros [|f [|g k]] t Ht; [exact (inorder_plug [] t) | exact (inorder_plug [f] t) |].
  cbn [ins_fix]. destruct f as [df [|] p sp], g as [dg cg g sg]; cbn [fc]; [|by rewrite inorder_plug].
  cbn [fs]. destruct (is_red sg) eqn:Hu.
  - rewrite IH by (by destruct dg). cbn [before after fd fa fs plug1].
    destruct df, dg; cbn; rewrite ?inorder_blacken; by app_norm.
  - rewrite inorder_plug. cbn [before after fd fa fs ins_rotate]. unfold ins_rotate. cbn [fd fa fs].
    destruct t as [|c l x r]; [done|].
    destruct df, dg; cbn; rewrite ?inorder_blacken; by app_norm.
Qed.

Definition step_tree (s : step) : tree := match s with Up t | Done t => t end.

(** The parts of the other child that the step looks at are there. *)
Definition step_fits (d : bool) (sib : tree) : Prop :=
  ∃ c n s f, sides d sib = Some (c, n, s, f).

Lemma inorder_del_step d c p t sib :
  step_fits d sib → inorder (step_tree (del_step d c p t sib)) = inorder (node d c t p sib).
Proof.
  intros (c' & n & s & f & Hs). pose proof (sides_Some _ _ _ _ _ _ Hs) as ->. unfold del_step. rewrite sides_node.
  destruct (is_red n) eqn:Hn, (is_red f) eqn:Hf; cbn [negb andb]; try (destruct d; cbn; rewrite ?inorder_blacken; by app_norm).
  destruct n as [|cn nl x nr]; [done|]. destruct d; cbn; by app_norm.
Qed.

(** ** The red-black invariant *)

(** [rbt c n t]: [t] has root colour [c] (an empty tree counts as black) and black
    height [n], and no red node has a red child. *)
Inductive rbt : color → nat → tree → Prop :=
  | rbt_E : rbt Black 0 E
  | rbt_R n l a r : rbt Black n l → rbt Black n r → rbt Red n (T Red l a r)
  | rbt_B n c1 c2 l a r : rbt c1 n l → rbt c2 n r → rbt Black (S n) (T Black l a r).

(** [cok c n k]: a tree of root colour [c] and black height [n] fits into [k], and the
    whole has a black root. *)
Inductive cok : color → nat → list frame → Prop :=
  | cok_nil n : cok Black n []
  | cok_B c n cs f k : fc f = Black → rbt cs n (fs f) → cok Black (S n) k → cok c n (f :: k)
  | cok_R n f k : fc f = Red → rbt Black n (fs f) → cok Red n k → cok Black n (f :: k).

Definition rb_tree (t : tree) : Prop := ∃ n, rbt Black n t.

Lemma rbt_node_B d n c1 c2 l a r : rbt c1 n l → rbt c2 n r → rbt Black (S n) (node d Black l a r).
Proof. destruct d; econstructor; eauto. Qed.

Lemma rbt_node_R d n l a r : rbt Black n l → rbt Black n r → rbt Red n (node d Red l a r).
Proof. destruct d; constructor; eauto. Qed.

Lemma rbt_sides d c n t c' l a r :
  rbt c n t → sides d t = Some (c', l, a, r) →
  c' = c ∧ match c with
           | Red => rbt Black n l ∧ rbt Black n r
           | Black => ∃ m c1 c2, n = S m ∧ rbt c1 m l ∧ rbt c2 m r
           end.
Proof. intros H. destruct H, d; simpl; intros; simplify_eq; naive_solver. Qed.

Lemma rbt_is_red c n t : rbt c n t → is_red t = match c with Red => true | Black => false end.
Proof. by intros []. Qed.

Lemma rbt_blacken c n t : rbt c n t → ∃ m, rbt Black m (blacken t).
Proof. intros []; simpl; eexists; econstructor; eauto. Qed.

Lemma rbt_blacken_red n t : rbt Red n t → rbt Black (S n) (blacken t).
Proof. inversion 1; simpl; econstructor; eauto. Qed.

Lemma cok_weaken c n k : cok c n k → cok Black n k.
Proof. intros H. destruct H; [constructor | eapply cok_B; eauto | eapply cok_R; eauto]. Qed.

Lemma rbt_plug k : ∀ c n t, cok c n k → rbt c n t → rb_tree (plug k t).
Proof.
  induction k as [|f k IH]; intros c n t Hk Ht; inversion Hk; subst; [by exists n| |]; simpl.
  - apply (IH Black (S n)); [done|]. unfold plug1. rewrite H1. by eapply rbt_node_B.
  - apply (IH Red n); [done|]. unfold plug1. rewrite H1. by apply rbt_node_R.
Qed.

Create HintDb rbtree.
#[export] Hint Constructors rbt cok : rbtree.
#[export] Hint Resolve rbt_node_B rbt_node_R rbt_blacken_red : rbtree.

Lemma rb_blacken_rb t : rb_tree t → rb_tree (blacken t).
Proof. intros [n H]. inversion H; subst; simpl; eexists; eauto with rbtree. Qed.

Lemma blacken_rb_tree c n t : rbt c n t → rb_tree (blacken t).
Proof. intros [m H]%rbt_blacken. by exists m. Qed.

(** The tree after an insertion, with its root coloured black, is red-black. *)
Lemma ins_fix_rbt : ∀ k n t, rbt Red n t → cok Black n k → rb_tree (blacken (ins_fix k t)).
Proof.
  fix IH 1. intros k n t Ht Hk. destruct k as [|f [|g k]].
  - by eapply blacken_rb_tree.
  - cbn [ins_fix]. inversion Hk as [|? ? cs ? ? Hc Hs Hk'|? ? ? Hc Hs Hk']; subst; [|inversion Hk'].
    apply rb_blacken_rb. eapply (rbt_plug [f] Red); eauto with rbtree.
  - cbn [ins_fix]. inversion Hk as [|? ? cs ? ? Hc Hs Hk'|? ? ? Hc Hs Hk']; subst; rewrite Hc.
    { apply rb_blacken_rb. eapply (rbt_plug (f :: g :: k) Red); eauto with rbtree. }
    inversion Hk' as [|? ? cs ? ? Hcg Hsg Hkg|]; subst.
    destruct (is_red (fs g)) eqn:Hu.
    + apply (IH k (S n)); [|by apply cok_weaken with Black].
      rewrite (rbt_is_red _ _ _ Hsg) in Hu. destruct cs; [|done].
      apply rbt_node_R; [|by apply rbt_blacken_red]. unfold plug1. rewrite Hc.
      destruct (fd f); simpl; eauto with rbtree.
    + rewrite (rbt_is_red _ _ _ Hsg) in Hu. destruct cs; [done|].
      apply rb_blacken_rb. eapply (rbt_plug k Black (S n)); [done|]. unfold ins_rotate.
      destruct (Bool.eqb (fd f) (fd g)); [eauto with rbtree|].
      destruct (sides (fd g) t) as [[[[c a] x] b]|] eqn:Hsd; [|by destruct t; [inversion Ht|destruct (fd g)]].
      destruct (rbt_sides _ _ _ _ _ _ _ _ Ht Hsd) as (_ & ? & ?). eauto with rbtree.
Qed.

(** [t] misses one black node: blackening its root, if it is red, makes up for it. *)
Definition short (n : nat) (t : tree) : Prop :=
  if is_red t then rbt Black (S n) (blacken t) else rbt Black n t.

(** The black height of a tree under a node of colour [c]. *)
Definition under (c : color) (n : nat) : nat := match c with Red => n | Black => S n end.

Lemma short_rbt c n t : rbt c n t → short n t.
Proof.
  intros H. unfold short. rewrite (rbt_is_red _ _ _ H). destruct c; [by apply rbt_blacken_red | done].
Qed.

Lemma node_is_red d c l a r : is_red (node d c l a r) = match c with Red => true | Black => false end.
Proof. by destruct d, c. Qed.

Lemma blacken_node d c l a r : blacken (node d c l a r) = node d Black l a r.
Proof. by destruct d. Qed.

Lemma del_step_rbt d c p n t sib :
  rbt Black n t → rbt Black (S n) sib →
  match del_step d c p t sib with
  | Up u => short (under c n) u
  | Done u => rbt c (S (under c n)) u
  end.
Proof.
  intros Ht Hs. unfold del_step. destruct (sides d sib) as [[[[cs a] s] f]|] eqn:Hsd.
  2:{ inversion Hs; subst. by destruct d. }
  destruct (rbt_sides _ _ _ _ _ _ _ _ Hs Hsd) as (_ & m & c1 & c2 & [= <-] & Ha & Hf).
  rewrite (rbt_is_red _ _ _ Ha), (rbt_is_red _ _ _ Hf). destruct c2; cbn [negb andb].
  - rewrite andb_false_r. destruct c; cbn [under]; [apply rbt_node_R|eapply rbt_node_B]; eauto with rbtree.
  - rewrite andb_true_r. destruct c1; cbn [negb].
    + destruct (sides d a) as [[[[ca a1] x] a2]|] eqn:Hsa; [|inversion Ha; subst; by destruct d].
      destruct (rbt_sides _ _ _ _ _ _ _ _ Ha Hsa) as (_ & H1 & H2).
      destruct c; cbn [under]; [apply rbt_node_R|eapply rbt_node_B]; eauto with rbtree.
    + unfold short. rewrite node_is_red. destruct c; cbn [under]; [rewrite blacken_node|]; eauto with rbtree.
Qed.

Lemma cok_above n f k :
  cok Black (S n) (f :: k) →
  ∃ cs, rbt cs (S n) (fs f) ∧ cok (fc f) (S (under (fc f) n)) k ∧ (cs = Red → fc f = Black).
Proof. inversion 1 as [|? ? cs ? ? Hc Hs Hk|? ? ? Hc Hs Hk]; subst; rewrite Hc; [by exists cs | by exists Black]. Qed.

Lemma step_fits_rbt d n sib : rbt Black (S n) sib → step_fits d sib.
Proof. inversion 1; subst. unfold step_fits. destruct d; simpl; eauto 10. Qed.

Lemma del_step_up d c p t sib u :
  del_step d c p t sib = Up u → is_red u = match c with Red => true | Black => false end.
Proof.
  unfold del_step. destruct (sides d sib) as [[[[cs a] s] f]|]; [|done].
  destruct (is_red a), (is_red f); cbn; try (by intros [= <-]; apply node_is_red); try done.
  by destruct (sides d a) as [[[[? ?] ?] ?]|].
Qed.

(** A step below the context [k], on either outcome. *)
Definition finished (k : list frame) (u : step) : tree :=
  match u with Up t => plug k (blacken t) | Done t => blacken (plug k t) end.

Lemma finished_order k u : inorder (finished k u) = before k ++ inorder (step_tree u) ++ after k.
Proof. destruct u; cbn; by rewrite ?inorder_blacken, inorder_plug, ?inorder_blacken. Qed.

(** The other child is red: one rotation makes the parent red, and the step at the
    parent then finishes. *)
Lemma del_red_sibling d n k t p a s far :
  rbt Black n t → rbt Black (S n) a → rbt Black (S n) far → cok Black (S (S n)) k →
  let r := finished (F d Black s far :: k) (del_step d Red p t a) in
  rb_tree r ∧ inorder r = before k ++ inorder (node d Black t p (node d Red a s far)) ++ after k.
Proof.
  intros Ht Ha Hf Hk r. pose proof (del_step_rbt d Red p n t a Ht Ha) as Hstep. cbn [under] in Hstep.
  assert (cok Red (S n) (F d Black s far :: k)) as Hab by (eapply cok_B; eauto). split.
  - unfold r. destruct (del_step d Red p t a) as [u|u] eqn:Hu; cbn [finished].
    + unfold short in Hstep. rewrite (del_step_up _ _ _ _ _ _ Hu) in Hstep. eapply rbt_plug; [by eapply cok_weaken | done].
    + apply rb_blacken_rb. by eapply rbt_plug.
  - unfold r. rewrite finished_order, (inorder_del_step d Red p t a (step_fits_rbt d n a Ha)). cbn [before after fd fa fs].
    destruct d; cbn; by app_norm.
Qed.

(** The tree after a deletion is red-black and has the remaining nodes in order. *)
Lemma del_fix_ok k : ∀ n t,
  short n t → cok Black (S n) k →
  rb_tree (del_fix k t) ∧ inorder (del_fix k t) = before k ++ inorder t ++ after k.
Proof.
  induction k as [|f k IH]; intros n t Ht Hk; unfold short in Ht; cbn [del_fix].
  { cbn [before after app]. rewrite inorder_blacken, app_nil_r. split; [|done].
    destruct (is_red t) eqn:Hr; [by eexists|]. by eapply blacken_rb_tree. }
  destruct (is_red t) eqn:Hr.
  { split; [by eapply rbt_plug | by rewrite inorder_plug, inorder_blacken]. }
  destruct (cok_above n f k Hk) as (cs & Hs & Hk' & Hcs). rewrite <- inorder_plug. cbn [plug]. rewrite inorder_plug.
  destruct f as [d c p sib]; unfold plug1; cbn [fd fc fa fs] in *.
  destruct (sides d sib) as [[[[c' a] s] far]|] eqn:Hsd; [|inversion Hs; subst; by destruct d].
  destruct (rbt_sides _ _ _ _ _ _ _ _ Hs Hsd) as (-> & Hsub). destruct cs.
  - rewrite (Hcs eq_refl) in *. destruct Hsub as [Ha Hf]. apply sides_Some in Hsd. subst sib.
    exact (del_red_sibling d n k t p a s far Ht Ha Hf Hk').
  - pose proof (del_step_rbt d c p n t sib Ht Hs) as Hstep.
    rewrite <- (inorder_del_step d c p t sib (step_fits_rbt d n sib Hs)).
    destruct (del_step d c p t sib) as [u|u]; cbn [step_tree].
    + apply (IH (under c n)); [done | by eapply cok_weaken].
    + split; [apply rb_blacken_rb; by eapply rbt_plug | by rewrite inorder_blacken, inorder_plug].
Qed.

Lemma rbt_unplug k : ∀ t, rb_tree (plug k t) → ∃ c n, cok c n k ∧ rbt c n t.
Proof.
  induction k as [|f k IH]; intros t H; simpl in H.
  - destruct H as [n H]. exists Black, n. split; [constructor | done].
  - destruct (IH _ H) as (c & n & Hk & Hn). unfold plug1 in Hn.
    destruct (rbt_sides (fd f) _ _ _ _ _ _ _ Hn (sides_node _ _ _ _ _)) as (<- & Hs). destruct (fc f) eqn:Hc.
    + destruct Hs. exists Black, n. split; [by apply cok_R | done].
    + destruct Hs as (m & c1 & c2 & -> & H1 & H2). exists c1, m. split; [by eapply cok_B | done].
Qed.

Lemma cok_rename x y d c0 s k2 k1 : ∀ c n,
  cok c n (k1 ++ F d c0 x s :: k2) → cok c n (k1 ++ F d c0 y s :: k2).
Proof.
  induction k1 as [|f k1 IH]; intros c n; inversion 1; subst; simpl; eauto using cok_B, cok_R.
Qed.

Lemma plug_app k1 k2 t : plug (k1 ++ k2) t = plug k2 (plug k1 t).
Proof. revert t. induction k1 as [|f k1 IH]; intros t; simpl; [done | apply IH]. Qed.

Lemma before_app k1 k2 : before (k1 ++ k2) = before k2 ++ before k1.
Proof. induction k1 as [|f k1 IH]; simpl; [by rewrite app_nil_r|]. rewrite IH. by app_norm. Qed.

Lemma after_app k1 k2 : after (k1 ++ k2) = after k1 ++ after k2.
Proof. induction k1 as [|f k1 IH]; simpl; [done|]. rewrite IH. by app_norm. Qed.

(** The path to the first node of a tree goes left only. *)
Lemma split_min_spec l : ∀ k c a r k' c' y t,
  split_min k c l a r = (k', c', y, t) →
  ∃ k1, k' = k1 ++ k ∧ Forall (λ f, fd f = true) k1 ∧ plug k1 (T c' E y t) = T c l a r.
Proof.
  induction l as [|cl ll IH al rl _]; intros k c a r k' c' y t H; cbn [split_min] in H.
  - injection H as <- <- <- <-. by exists [].
  - destruct (IH _ _ _ _ _ _ _ _ H) as (k1 & -> & Hl & Hp). exists (k1 ++ [F true c a r]). split_and!.
    + by app_norm.
    + apply Forall_app_2; [done | by constructor].
    + by rewrite plug_app, Hp.
Qed.

(** The path does not depend on where it starts. *)
Lemma split_min_path l : ∀ k c a r k' c' y t,
  split_min k c l a r = (k', c', y, t) → ∃ k1, split_min [] c l a r = (k1, c', y, t) ∧ k' = k1 ++ k.
Proof.
  induction l as [|cl ll IH al rl _]; intros k c a r k' c' y t H; cbn [split_min] in *.
  - injection H as <- <- <- <-. by exists [].
  - destruct (IH _ _ _ _ _ _ _ _ H) as (k1 & H1 & ->).
    destruct (split_min [F true c a r] cl ll al rl) as [[[k2 c2] y2] t2] eqn:H2.
    destruct (IH _ _ _ _ _ _ _ _ H2) as (k3 & H3 & ->). rewrite H1 in H3. injection H3 as <- <- <- <-.
    exists (k1 ++ [F true c a r]). split; [done|]. by app_norm.
Qed.

Lemma before_left k : Forall (λ f, fd f = true) k → before k = [].
Proof. induction 1 as [|f k Hf _ IH]; simpl; [done|]. by rewrite IH, Hf. Qed.

(** The place from which a node of colour [c] was unlinked is repaired. *)
Lemma unlinked_ok c k t n :
  cok c n k → rbt c n (T c E 0 t) ∨ rbt c n (T c t 0 E) →
  let res := match c with Black => del_fix k t | Red => plug k t end in
  rb_tree res ∧ inorder res = before k ++ inorder t ++ after k.
Proof.
  intros Hk Ht. destruct c.
  - split; [|apply inorder_plug]. eapply rbt_plug; [by eapply cok_weaken|]. by destruct Ht as [Ht|Ht]; inversion Ht.
  - destruct Ht as [Ht|Ht]; inversion Ht; subst; (eapply del_fix_ok; [by eapply short_rbt | done]).
Qed.

(** Removing a node keeps the tree red-black and the others in order. *)
Lemma remove_ok k c l x r :
  rb_tree (plug k (T c l x r)) →
  rb_tree (remove k c l r) ∧ inorder (remove k c l r) = before k ++ (inorder l ++ inorder r) ++ after k.
Proof.
  intros H. destruct (rbt_unplug _ _ H) as (c' & n & Hk & Ht).
  assert (c' = c) as -> by (by inversion Ht). unfold remove.
  destruct l as [|cl ll al rl].
  { apply (unlinked_ok c k r n Hk). left. inversion Ht; subst; eauto with rbtree. }
  destruct r as [|cr rr ar rr'].
  { rewrite app_nil_r. apply (unlinked_ok c k _ n Hk). right. inversion Ht; subst; eauto with rbtree. }
  set (l := T cl ll al rl) in *.
  destruct (split_min [] cr rr ar rr') as [[[k' c'] y] t] eqn:Hs.
  destruct (split_min_spec _ _ _ _ _ _ _ _ _ Hs) as (k1 & -> & Hl & Hp). rewrite app_nil_r in *.
  assert (rb_tree (plug (k1 ++ F false c x l :: k) (T c' E y t))) as Hw by (by rewrite plug_app, Hp).
  destruct (rbt_unplug _ _ Hw) as (cy & m & Hky & Hy). assert (cy = c') as -> by (by inversion Hy).
  destruct (unlinked_ok c' (k1 ++ F false c y l :: k) t m) as [Hrb Hin].
  { by eapply cok_rename. }
  { left. inversion Hy; subst; eauto with rbtree. }
  split; [done|]. rewrite Hin, before_app, after_app. cbn [before after fd fa fs].
  rewrite <- Hp, inorder_plug, (before_left k1 Hl). cbn [inorder]. by app_norm.
Qed.

(** ** The height *)

Fixpoint height (t : tree) : nat :=
  match t with E => 0 | T _ l _ r => S (max (height l) (height r)) end.

Lemma rbt_height c n t : rbt c n t → height t ≤ 2 * n + match c with Red => 1 | Black => 0 end.
Proof. induction 1 as [|n l a r _ IH1 _ IH2|n c1 c2 l a r _ IH1 _ IH2]; simpl; [lia | lia |]. destruct c1, c2; lia. Qed.

Lemma rbt_size c n t : rbt c n t → 2 ^ n ≤ S (length (inorder t)).
Proof.
  induction 1 as [|n l a r _ IH1 _ IH2|n c1 c2 l a r _ IH1 _ IH2]; simpl; [lia | |]; rewrite length_app; simpl; lia.
Qed.

(** A red-black tree of [n] nodes is at most [2 log2 (n + 1)] deep. *)
Lemma rb_tree_height t : rb_tree t → 2 ^ height t ≤ S (length (inorder t)) * S (length (inorder t)).
Proof.
  intros [n H]. pose proof (rbt_height _ _ _ H) as Hh. pose proof (rbt_size _ _ _ H) as Hs. simpl in Hh.
  assert (2 ^ height t ≤ 2 ^ n * 2 ^ n) as Hp; [|nia].
  rewrite <- Nat.pow_add_r. apply Nat.pow_le_mono_r; lia.
Qed.
