(* ===== verification/RbCells.v ===== *)
(** * Red-black trees in memory

    The nodes that a tree occupies, as a list of cells, and the state in which a tree
    is stored at a focus.  Programs on such states are evaluated cell by cell; a
    state does not depend on the order of its cells, so changing the focus is free. *)

From S2P Require Import Prelude Bits RbTree RbSpec.

#[local] Open Scope Z_scope.

(** ** The word that packs parent and colour *)

Definition bit_of (c : color) : Z := match c with Red => RB_RED | Black => RB_BLACK end.

Definition is_ptr (p : Z) : Prop := 0 ≤ p < 2 ^ 32 ∧ p mod 4 = 0.

Lemma mask_ptr p b : is_ptr p → 0 ≤ b < 4 → Z.land (p + b) 0xFFFFFFFC = p ∧ Z.land (p + b) 3 = b.
Proof.
  intros [Hr Ha] Hb. assert (Z.land (p + b) 3 = b) as H3.
  { change 3 with (Z.ones 2). rewrite Z.land_ones by lia. change (2 ^ 2) with 4. dlia. }
  split; [|done]. change 0xFFFFFFFC with (Z.ldiff (Z.ones 32) (Z.ones 2)).
  rewrite Z.ldiff_land, Z.land_assoc, <- Z.ldiff_land, Z.land_ones, Z.ldiff_ones_r by lia.
  rewrite Z.shiftr_div_pow2, Z.shiftl_mul_pow2 by lia. change (2 ^ 2) with 4. rewrite Z.mod_small; dlia.
Qed.

Lemma lor_ptr p b : is_ptr p → 0 ≤ b < 4 → Z.lor p b = p + b.
Proof.
  intros Hp Hb. symmetry. rewrite <- Z.lxor_lor; [apply Z.add_nocarry_lxor|]; destruct Hp as [Hr Ha];
    (apply Z.bits_inj'; intros i Hi; rewrite Z.land_spec, Z.bits_0; destruct (decide (i < 2));
     [ rewrite (Z.div_mod p 4), Ha, Z.add_0_r, Z.mul_comm by lia; change 4 with (2 ^ 2); by rewrite Z.mul_pow2_bits_low by lia
     | rewrite (Z.bits_above_log2 b i), andb_false_r; [done | lia |];
       destruct (decide (b = 0)) as [->|]; [simpl; lia | apply Z.log2_lt_pow2; [lia|]; change (b < 2 ^ i);
       apply Z.lt_le_trans with (2 ^ 2); [lia | apply Z.pow_le_mono_r; lia]] ]).
Qed.

Lemma bit_of_range c : 0 ≤ bit_of c < 4.
Proof. by destruct c. Qed.

Definition enc (p : Z) (c : color) : Z := p + bit_of c.

Section Enc.
Context (p : Z) (c : color) (Hp : is_ptr p).

Lemma enc_parent : Z.land (enc p c) 0xFFFFFFFC = p.
Proof. apply (mask_ptr p (bit_of c) Hp), bit_of_range. Qed.

Lemma enc_low : Z.land (enc p c) 3 = bit_of c.
Proof. apply (mask_ptr p (bit_of c) Hp), bit_of_range. Qed.

Lemma enc_color : Z.land (enc p c) 1 = bit_of c.
Proof. change 1 with (Z.land 3 1) at 1. rewrite Z.land_assoc, enc_low. by destruct c. Qed.

Lemma enc_red : Z.land (enc p c) 0xFFFFFFFE = enc p Red.
Proof.
  unfold enc. change (bit_of Red) with 0. rewrite <- (lor_ptr p (bit_of c)), Z.land_lor_distr_l by (done || apply bit_of_range).
  replace (Z.land (bit_of c) 0xFFFFFFFE) with 0 by (by destruct c). rewrite Z.lor_0_r, Z.add_0_r.
  destruct (mask_ptr p 0 Hp) as [E _]; [lia|]. rewrite Z.add_0_r in E. rewrite <- E at 1.
  rewrite <- Z.land_assoc. change (Z.land 0xFFFFFFFC 0xFFFFFFFE) with 0xFFFFFFFC. done.
Qed.

Lemma enc_black : Z.lor (enc p c) 1 = enc p Black.
Proof.
  unfold enc. rewrite <- !lor_ptr by (done || apply bit_of_range). rewrite <- Z.lor_assoc. by destruct c.
Qed.

Lemma enc_set_parent q : is_ptr q → Z.lor (Z.land (enc p c) 3) q = enc q c.
Proof. intros Hq. rewrite enc_low, Z.lor_comm. apply lor_ptr; [done | apply bit_of_range]. Qed.

Lemma enc_both : Z.lor p (bit_of c) = enc p c.
Proof. apply lor_ptr; [done | apply bit_of_range]. Qed.
End Enc.

(** ** Cells *)

Definition cell (par : Z) (c : color) (l r : Z) : rb_node :=
  {| rb_parent_color := enc par c; rb_right := r; rb_left := l |}.

Definition ptr (t : tree) : Z := match t with E => 0 | T _ _ a _ => a end.

Fixpoint cells (par : Z) (t : tree) : list (Z * rb_node) :=
  match t with
  | E => []
  | T c l a r => (a, cell par c (ptr l) (ptr r)) :: cells a l ++ cells a r
  end.

Definition par (k : list frame) : Z := match k with [] => 0 | f :: _ => fa f end.

Definition frame_cell (up : Z) (f : frame) (h : Z) : rb_node :=
  if fd f then cell up (fc f) h (ptr (fs f)) else cell up (fc f) (ptr (fs f)) h.

(** The cells of a context whose hole holds the pointer [h]. *)
Fixpoint ctx_cells (k : list frame) (h : Z) : list (Z * rb_node) :=
  match k with
  | [] => []
  | f :: k => (fa f, frame_cell (par k) f h) :: cells (fa f) (fs f) ++ ctx_cells k (fa f)
  end.

Definition full (k : list frame) (t : tree) : list (Z * rb_node) := cells (par k) t ++ ctx_cells k (ptr t).

Fixpoint top (k : list frame) (h : Z) : Z := match k with [] => h | f :: k => top k (fa f) end.

(** The state with the cells [L], the root pointer [r] and the nodes [m0] of others. *)
Definition st (m0 : gmap Z rb_node) (L : list (Z * rb_node)) (r : Z) : rbs :=
  {| nodes := list_to_map L ∪ m0; root := r |}.

Definition state (m0 : gmap Z rb_node) (k : list frame) (t : tree) : rbs := st m0 (full k t) (top k (ptr t)).

(** The addresses are distinct, aligned and not null. *)
Definition valid (L : list (Z * rb_node)) : Prop :=
  NoDup L.*1 ∧ Forall (λ a, is_ptr a ∧ a ≠ 0) L.*1.

#[export] Instance rb_node_eq_dec : EqDecision rb_node.
Proof. solve_decision. Defined.

(** Permutations of lists of cells, by counting. *)
Lemma count_cons {A} (dec : ∀ x y : A, {x = y} + {x ≠ y}) a l x :
  count_occ dec (a :: l) x = ((if dec a x then 1 else 0) + count_occ dec l x)%nat.
Proof. simpl. by destruct (dec a x). Qed.

Ltac perm :=
  apply (Permutation_count_occ (decide_rel (=))); intros ?;
  rewrite ?count_occ_app, ?count_cons, ?count_occ_app, ?count_cons, ?count_occ_app, ?count_cons, ?count_occ_app, ?count_occ_nil; lia.

Lemma st_perm m0 L L' r : valid L → L ≡ₚ L' → st m0 L r = st m0 L' r.
Proof. intros [Hn _] HL. unfold st. by rewrite (list_to_map_proper L L'). Qed.

Lemma valid_perm L L' : L ≡ₚ L' → valid L → valid L'.
Proof. intros HL [H1 H2]. split; by rewrite <- HL. Qed.

Lemma full_plug f k t : full (f :: k) t ≡ₚ full k (plug1 f t).
Proof.
  unfold full, plug1, node. cbn [par ctx_cells]. unfold frame_cell. destruct f as [[] c a s]; cbn [fd fc fa fs cells ptr]; perm.
Qed.

Lemma top_plug f k t : top (f :: k) (ptr t) = top k (ptr (plug1 f t)).
Proof. unfold plug1, node. by destruct (fd f). Qed.

(** The focus can be moved. *)
Lemma refocus m0 f k t : valid (full (f :: k) t) → state m0 (f :: k) t = state m0 k (plug1 f t).
Proof. intros Hv. unfold state. rewrite top_plug. apply st_perm; [done | apply full_plug]. Qed.

Lemma valid_refocus f k t : valid (full (f :: k) t) ↔ valid (full k (plug1 f t)).
Proof. split; apply valid_perm; [|symmetry]; apply full_plug. Qed.

Lemma full_plug_all k : ∀ t, full k t ≡ₚ full [] (plug k t).
Proof. induction k as [|f k IH]; intros t; [done|]. rewrite full_plug. apply IH. Qed.

Lemma refocus_all m0 k t : valid (full k t) → state m0 k t = state m0 [] (plug k t).
Proof.
  revert t. induction k as [|f k IH]; intros t Hv; [done|]. rewrite refocus by done. apply IH. by apply valid_refocus.
Qed.

(** ** Evaluation on cells *)

Lemma bind_step {S A B} (m : M S A) (k : A → M S B) s a s' R :
  m s = Ret (a, s') → k a s' = R → (m ≫= k) s = R.
Proof. intros E <-. by rewrite (bind_Ret _ _ _ _ _ E). Qed.

Section Steps.
Context (m0 : gmap Z rb_node).

Lemma load_in L r x n : valid L → (x, n) ∈ L → load x (st m0 L r) = Ret (n, st m0 L r).
Proof.
  intros [Hn _] Hx. unfold load. rewrite bind_get. cbn [nodes st].
  rewrite (lookup_union_Some_l _ _ x n) by (by apply elem_of_list_to_map). done.
Qed.

Lemma update_at L1 x n L2 r f :
  valid (L1 ++ (x, n) :: L2) →
  update x f (st m0 (L1 ++ (x, n) :: L2) r) = Ret (tt, st m0 (L1 ++ (x, f n) :: L2) r).
Proof.
  intros Hv. unfold update. eapply bind_step; [apply (load_in _ _ x n); [done|]; set_solver|]. unfold modify, with_nodes, st. cbn [nodes root].
  do 3 f_equal. rewrite insert_union_l. f_equal. destruct Hv as [Hn _].
  rewrite (list_to_map_proper (L1 ++ (x, n) :: L2) ((x, n) :: L1 ++ L2)) by (done || by rewrite Permutation_middle).
  rewrite (list_to_map_proper (L1 ++ (x, f n) :: L2) ((x, f n) :: L1 ++ L2));
    [|by rewrite fmap_app in Hn |- * | by rewrite Permutation_middle].
  simpl. by rewrite insert_insert_eq.
Qed.

(** Access to the child on side [d]. *)
Definition get_ch (d : bool) (p : Z) : M rbs Z := if d then get_left p else get_right p.
Definition set_ch (d : bool) (p v : Z) : M rbs unit := if d then set_left p v else set_right p v.

Definition cell_d (d : bool) (up : Z) (c : color) (near far : Z) : rb_node :=
  if d then cell up c near far else cell up c far near.

Lemma cells_node d up c n a f :
  cells up (node d c n a f) ≡ₚ (a, cell_d d up c (ptr n) (ptr f)) :: cells a n ++ cells a f.
Proof. destruct d; simpl; perm. Qed.

Lemma ptr_node d c n a f : ptr (node d c n a f) = a.
Proof. by destruct d. Qed.

Lemma get_near L r d x up c n f :
  valid L → (x, cell_d d up c n f) ∈ L → get_ch d x (st m0 L r) = Ret (n, st m0 L r).
Proof. intros Hv Hx. destruct d; unfold get_ch, get_left, get_right; by (eapply bind_step; [by eapply load_in|]). Qed.

Lemma get_far L r d x up c n f :
  valid L → (x, cell_d d up c n f) ∈ L → get_ch (negb d) x (st m0 L r) = Ret (f, st m0 L r).
Proof. intros Hv Hx. destruct d; unfold get_ch, get_left, get_right; by (eapply bind_step; [by eapply load_in|]). Qed.

Lemma rb_parent_in L r d x up c n f :
  valid L → is_ptr up → (x, cell_d d up c n f) ∈ L → rb_parent x (st m0 L r) = Ret (up, st m0 L r).
Proof.
  intros Hv Hu Hx. unfold rb_parent. eapply bind_step; [by eapply load_in|]. rewrite mret_eq.
  destruct d; cbn; by rewrite enc_parent.
Qed.

Lemma rb_color_in L r d x up c n f :
  valid L → is_ptr up → (x, cell_d d up c n f) ∈ L → rb_color x (st m0 L r) = Ret (bit_of c, st m0 L r).
Proof.
  intros Hv Hu Hx. unfold rb_color. eapply bind_step; [by eapply load_in|]. rewrite mret_eq.
  destruct d; cbn; by rewrite enc_color.
Qed.

Section At.
Context (L1 : list (Z * rb_node)) (d : bool) (x up : Z) (c : color) (n f : Z) (L2 : list (Z * rb_node)) (r : Z).
Context (Hv : valid (L1 ++ (x, cell_d d up c n f) :: L2)).

Lemma set_near_at v :
  set_ch d x v (st m0 (L1 ++ (x, cell_d d up c n f) :: L2) r) = Ret (tt, st m0 (L1 ++ (x, cell_d d up c v f) :: L2) r).
Proof. revert Hv. destruct d; intros Hv'; exact (update_at _ _ _ _ _ _ Hv'). Qed.

Lemma set_far_at v :
  set_ch (negb d) x v (st m0 (L1 ++ (x, cell_d d up c n f) :: L2) r) = Ret (tt, st m0 (L1 ++ (x, cell_d d up c n v) :: L2) r).
Proof. revert Hv. destruct d; intros Hv'; exact (update_at _ _ _ _ _ _ Hv'). Qed.

Lemma load_at : load x (st m0 (L1 ++ (x, cell_d d up c n f) :: L2) r) =
  Ret (cell_d d up c n f, st m0 (L1 ++ (x, cell_d d up c n f) :: L2) r).
Proof. apply load_in; [done | set_solver]. Qed.

Lemma set_parent_at q :
  is_ptr up → is_ptr q →
  rb_set_parent x q (st m0 (L1 ++ (x, cell_d d up c n f) :: L2) r) = Ret (tt, st m0 (L1 ++ (x, cell_d d q c n f) :: L2) r).
Proof.
  intros Hu Hq. unfold rb_set_parent. eapply bind_step; [apply load_at|]. unfold set_parent_color. rewrite update_at by done.
  destruct d; cbn; by rewrite enc_set_parent.
Qed.

Lemma set_black_at :
  is_ptr up →
  rb_set_black x (st m0 (L1 ++ (x, cell_d d up c n f) :: L2) r) = Ret (tt, st m0 (L1 ++ (x, cell_d d up Black n f) :: L2) r).
Proof.
  intros Hu. unfold rb_set_black. eapply bind_step; [apply load_at|]. unfold set_parent_color. rewrite update_at by done.
  destruct d; cbn; by rewrite enc_black.
Qed.

Lemma set_red_at :
  is_ptr up →
  rb_set_red x (st m0 (L1 ++ (x, cell_d d up c n f) :: L2) r) = Ret (tt, st m0 (L1 ++ (x, cell_d d up Red n f) :: L2) r).
Proof.
  intros Hu. unfold rb_set_red. eapply bind_step; [apply load_at|]. unfold set_parent_color. rewrite update_at by done.
  destruct d; cbn; by rewrite enc_red.
Qed.

Lemma set_parent_color_at q c' :
  is_ptr q →
  rb_set_parent_color x q (bit_of c') (st m0 (L1 ++ (x, cell_d d up c n f) :: L2) r) =
  Ret (tt, st m0 (L1 ++ (x, cell_d d q c' n f) :: L2) r).
Proof.
  intros Hq. unfold rb_set_parent_color, set_parent_color. rewrite update_at by done.
  destruct d; cbn; by rewrite enc_both.
Qed.
End At.
End Steps.
