(* ===== verification/RbRotate.v ===== *)
(** * Red-black trees: rotations in memory

    The two rotations of lib/rbtree.c are one definition up to the side; it is
    evaluated on the cells of a tree.  Reading and colouring the nodes around the
    focus is lifted from cells to trees. *)

From S2P Require Import Prelude Bits RbTree RbSpec RbCells.

#[local] Open Scope Z_scope.

Definition relink (d : bool) (parent old new : Z) : M rbs unit :=
  if negb (parent =? 0) then
    pl ← get_ch d parent;
    if old =? pl then set_ch d parent new else set_ch (negb d) parent new
  else modify (with_root new).

Definition rotate (d : bool) (x : Z) : M rbs unit :=
  y ← get_ch (negb d) x;
  parent ← rb_parent x;
  b ← get_ch d y;
  _ ← set_ch (negb d) x b;
  _ ← (if negb (b =? 0) then b ← get_ch d y; rb_set_parent b x else mret tt);
  _ ← set_ch d y x;
  _ ← rb_set_parent y parent;
  _ ← relink d parent x y;
  rb_set_parent x y.

Lemma rotate_left_eq : rb_rotate_left = rotate true.
Proof. reflexivity. Qed.

Lemma rotate_right_eq : rb_rotate_right = rotate false.
Proof. reflexivity. Qed.

Lemma valid_ptr L x : valid L → x ∈ L.*1 → is_ptr x ∧ x ≠ 0.
Proof. intros [_ Hf] Hx. by apply (proj1 (Forall_forall _ _) Hf). Qed.

Lemma null_is_ptr : is_ptr 0.
Proof. done. Qed.

Lemma ptr_in up t : t ≠ E → ptr t ∈ (cells up t).*1.
Proof. destruct t; [done|]. left. Qed.

Lemma par_is_ptr L k h : valid (L ++ ctx_cells k h) → is_ptr (par k) ∧ (k ≠ [] → par k ≠ 0).
Proof.
  intros Hv. destruct k as [|f k]; [done|]. cbn [par].
  destruct (valid_ptr _ (fa f) Hv) as [? ?]; [rewrite fmap_app; apply elem_of_app; right; left | done].
Qed.

Section Mem.
Context (m0 : gmap Z rb_node).

(** The subtree [b] gets a new parent. *)
Lemma reparent_at L1 p q b L2 r :
  valid (L1 ++ cells p b ++ L2) → is_ptr p → is_ptr q →
  (if negb (ptr b =? 0) then rb_set_parent (ptr b) q else mret tt) (st m0 (L1 ++ cells p b ++ L2) r) =
  Ret (tt, st m0 (L1 ++ cells q b ++ L2) r).
Proof.
  intros Hv Hp Hq. destruct b as [|c l a rt]; [done|]. cbn [ptr].
  destruct (valid_ptr _ a Hv) as [_ Ha]; [rewrite fmap_app; apply elem_of_app; right; left|].
  rewrite (proj2 (Z.eqb_neq a 0)) by done. cbn [negb].
  exact (set_parent_at m0 L1 true a p c (ptr l) (ptr rt) ((cells a l ++ cells a rt) ++ L2) r Hv q Hp Hq).
Qed.

Lemma cells_fst p q b : (cells p b).*1 = (cells q b).*1.
Proof. by destruct b. Qed.

Lemma ctx_fst k h h' : (ctx_cells k h).*1 = (ctx_cells k h').*1.
Proof. by destruct k. Qed.

(** The hole of a context gets a new subtree. *)
Lemma relink_at d L1 k h h' :
  valid (L1 ++ ctx_cells k h) → h ∈ L1.*1 →
  relink d (par k) h h' (st m0 (L1 ++ ctx_cells k h) (top k h)) = Ret (tt, st m0 (L1 ++ ctx_cells k h') (top k h')).
Proof.
  intros Hv Hh. destruct (par_is_ptr _ _ _ Hv) as [_ Hne]. unfold relink. destruct k as [|f k]; [done|].
  rewrite (proj2 (Z.eqb_neq _ 0)) by (by apply Hne). cbn [negb]. destruct f as [df c a s]. cbn [par fa ctx_cells top] in *.
  assert (h ≠ ptr s) as Hs.
  { intros ->. destruct s as [|cs ls as_ rs]; [by destruct (valid_ptr _ 0 Hv); [rewrite fmap_app; apply elem_of_app; left|]|].
    destruct Hv as [Hn _]. rewrite fmap_app in Hn. apply NoDup_app in Hn as (_ & Hd & _). apply (Hd _ Hh).
    cbn. right. left. }
  assert ((a, frame_cell (par k) (F df c a s) h) ∈ L1 ++ (a, frame_cell (par k) (F df c a s) h) :: cells a s ++ ctx_cells k a)
    as Hin by (apply elem_of_app; right; left).
  unfold frame_cell in *. cbn [fd fc fs fa] in *. destruct df, d; cbn [set_ch negb] in *.
  - eapply bind_step; [by eapply (get_near m0 _ _ true)|]. rewrite Z.eqb_refl. by apply (set_near_at m0 L1 true).
  - eapply bind_step; [by eapply (get_far m0 _ _ true)|]. rewrite (proj2 (Z.eqb_neq h _)) by done. by apply (set_near_at m0 L1 true).
  - eapply bind_step; [by eapply (get_near m0 _ _ true)|]. rewrite (proj2 (Z.eqb_neq h _)) by done. by apply (set_far_at m0 L1 true).
  - eapply bind_step; [by eapply (get_far m0 _ _ true)|]. rewrite Z.eqb_refl. by apply (set_far_at m0 L1 true).
Qed.

Lemma full_node d k c n a f :
  full k (node d c n a f) ≡ₚ (a, cell_d d (par k) c (ptr n) (ptr f)) :: cells a n ++ cells a f ++ ctx_cells k a.
Proof. unfold full. rewrite cells_node, ptr_node. perm. Qed.

Lemma full_node2 d k c a x c2 b y e :
  full k (node d c a x (node d c2 b y e)) ≡ₚ
  (x, cell_d d (par k) c (ptr a) y) :: (y, cell_d d x c2 (ptr b) (ptr e)) ::
  (cells x a ++ cells y e) ++ cells y b ++ ctx_cells k x.
Proof. rewrite full_node, cells_node, ptr_node. perm. Qed.

Lemma valid_keys L L' : L'.*1 = L.*1 → valid L → valid L'.
Proof. intros E. unfold valid. by rewrite E. Qed.

(** The rotation on cells: [x] goes down on side [d], its other child [y] takes its
    place.  The parent of [y] is only written, so it may be anything. *)
Lemma rotate_cells d k c a x c2 b y e q :
  valid (full k (node d c2 (node d c a x b) y e)) → is_ptr q →
  rotate d x (st m0 ((x, cell_d d (par k) c (ptr a) y) :: (y, cell_d d q c2 (ptr b) (ptr e)) ::
                     (cells x a ++ cells y e) ++ cells y b ++ ctx_cells k x) (top k x)) =
  Ret (tt, state m0 k (node d c2 (node d c a x b) y e)).
Proof.
  intros Hv Hq. set (R := cells x a ++ cells y e).
  assert (full k (node d c2 (node d c a x b) y e) ≡ₚ
    (x, cell_d d y c (ptr a) (ptr b)) :: (y, cell_d d (par k) c2 x (ptr e)) :: R ++ cells x b ++ ctx_cells k y) as HL.
  { rewrite full_node, cells_node, ptr_node. unfold R. perm. }
  assert (∀ n1 n2 p h, valid ((x, n1) :: (y, n2) :: R ++ cells p b ++ ctx_cells k h)) as Hvk.
  { intros n1 n2 p h. eapply valid_keys; [|exact (valid_perm _ _ HL Hv)]. rewrite !fmap_cons, !fmap_app.
    by rewrite (cells_fst x p b), (ctx_fst k y h). }
  unfold state. rewrite (st_perm m0 _ _ _ Hv HL), ptr_node.
  destruct (valid_ptr _ x (Hvk (cell_d d 0 c 0 0) (cell_d d 0 c 0 0) 0 0)) as [Hx _]; [left|].
  destruct (valid_ptr _ y (Hvk (cell_d d 0 c 0 0) (cell_d d 0 c 0 0) 0 0)) as [Hy _]; [right; left|].
  destruct (par_is_ptr ((x, cell_d d 0 c 0 0) :: (y, cell_d d 0 c 0 0) :: R ++ cells y b) k x) as [Hpar _].
  { rewrite <- !app_comm_cons, <- app_assoc. apply Hvk. }
  unfold rotate.
  eapply bind_step; [eapply get_far; [apply Hvk | left]|].
  eapply bind_step; [eapply rb_parent_in; [apply Hvk | exact Hpar | left]|].
  eapply bind_step; [eapply get_near; [apply Hvk | right; left]|].
  eapply bind_step; [apply (set_far_at m0 []); apply Hvk|].
  eapply bind_step.
  { transitivity ((if negb (ptr b =? 0) then rb_set_parent (ptr b) x else mret tt)
      (st m0 (((x, cell_d d (par k) c (ptr a) (ptr b)) :: (y, cell_d d q c2 (ptr b) (ptr e)) :: R) ++ cells y b ++ ctx_cells k x) (top k x))).
    - destruct (negb (ptr b =? 0)); [|done]. eapply bind_step; [eapply get_near; [apply Hvk | right; left] | done].
    - apply reparent_at; [apply Hvk | done..]. }
  eapply bind_step; [apply (set_near_at m0 [(x, cell_d d (par k) c (ptr a) (ptr b))]); apply Hvk|].
  eapply bind_step; [apply (set_parent_at m0 [(x, cell_d d (par k) c (ptr a) (ptr b))]); [apply Hvk | done..]|].
  eapply bind_step.
  { pose proof (relink_at d ((x, cell_d d (par k) c (ptr a) (ptr b)) :: (y, cell_d d (par k) c2 x (ptr e)) :: R ++ cells x b) k x y) as Hr.
    rewrite <- !app_comm_cons, <- app_assoc in Hr. apply Hr; [apply Hvk | left]. }
  rewrite <- app_assoc. apply (set_parent_at m0 []); [apply Hvk | done..].
Qed.

Lemma valid_rotate d k c a x c2 b y e c' c2' :
  valid (full k (node d c a x (node d c2 b y e))) → valid (full k (node d c2' (node d c' a x b) y e)).
Proof.
  intros Hv. eapply valid_perm; [symmetry; rewrite full_node, cells_node, ptr_node; reflexivity|].
  eapply (valid_perm _ ((y, cell_d d x c2 (ptr b) (ptr e)) :: ((x, cell_d d (par k) c (ptr a) y) :: cells x a ++ cells y b) ++ cells y e ++ ctx_cells k x)) in Hv;
    [|rewrite full_node2; perm].
  eapply valid_keys; [|exact Hv]. rewrite !fmap_cons, !fmap_app, !fmap_cons, !fmap_app.
  by rewrite (cells_fst y x b), (ctx_fst k x y).
Qed.

Lemma rotate_spec d k c a x c2 b y e :
  valid (full k (node d c a x (node d c2 b y e))) →
  rotate d x (state m0 k (node d c a x (node d c2 b y e))) =
    Ret (tt, state m0 k (node d c2 (node d c a x b) y e)) ∧
  valid (full k (node d c2 (node d c a x b) y e)).
Proof.
  intros Hv. pose proof (valid_rotate _ _ _ _ _ _ _ _ _ c c2 Hv) as Hv'. split; [|done].
  pose proof (full_node2 d k c a x c2 b y e) as HL. unfold state at 1. rewrite (st_perm m0 _ _ _ Hv HL), ptr_node.
  apply rotate_cells; [done|]. apply (valid_ptr _ x (valid_perm _ _ HL Hv)). left.
Qed.

(** ** At the focus *)

Lemma node_flip d c n a f : node d c n a f = node (negb d) c f a n.
Proof. by destruct d. Qed.

Lemma focus_near d k c n a f :
  valid (full k (node d c n a f)) →
  state m0 k (node d c n a f) = state m0 (F d c a f :: k) n ∧ valid (full (F d c a f :: k) n).
Proof.
  intros Hv. assert (valid (full (F d c a f :: k) n)) as Hv' by (by apply valid_refocus).
  split; [|done]. symmetry. by apply (refocus m0 (F d c a f)).
Qed.

Lemma focus_far d k c n a f :
  valid (full k (node d c n a f)) →
  state m0 k (node d c n a f) = state m0 (F (negb d) c a n :: k) f ∧ valid (full (F (negb d) c a n :: k) f).
Proof. intros Hv. rewrite node_flip in Hv |- *. by apply focus_near. Qed.

Section Focus.
Context (d : bool) (k : list frame) (c : color) (n : tree) (a : Z) (f : tree).
Context (Hv : valid (full k (node d c n a f))).

Lemma valid_focus : valid ((a, cell_d d (par k) c (ptr n) (ptr f)) :: cells a n ++ cells a f ++ ctx_cells k a).
Proof. eapply valid_perm; [apply full_node | exact Hv]. Qed.

Lemma state_focus : state m0 k (node d c n a f) =
  st m0 ((a, cell_d d (par k) c (ptr n) (ptr f)) :: cells a n ++ cells a f ++ ctx_cells k a) (top k a).
Proof. unfold state. rewrite ptr_node. apply st_perm; [done | apply full_node]. Qed.

Lemma focus_ptr : is_ptr a ∧ a ≠ 0.
Proof. apply (valid_ptr _ a valid_focus). left. Qed.

Lemma focus_par : is_ptr (par k).
Proof.
  apply (par_is_ptr ((a, cell_d d (par k) c (ptr n) (ptr f)) :: cells a n ++ cells a f) k a).
  rewrite <- app_comm_cons, <- app_assoc. apply valid_focus.
Qed.

Lemma focus_get_near : get_ch d a (state m0 k (node d c n a f)) = Ret (ptr n, state m0 k (node d c n a f)).
Proof. rewrite state_focus. eapply get_near; [apply valid_focus | left]. Qed.

Lemma focus_get_far : get_ch (negb d) a (state m0 k (node d c n a f)) = Ret (ptr f, state m0 k (node d c n a f)).
Proof. rewrite state_focus. eapply get_far; [apply valid_focus | left]. Qed.

Lemma focus_parent : rb_parent a (state m0 k (node d c n a f)) = Ret (par k, state m0 k (node d c n a f)).
Proof. rewrite state_focus. eapply rb_parent_in; [apply valid_focus | apply focus_par | left]. Qed.

Lemma focus_color : rb_color a (state m0 k (node d c n a f)) = Ret (bit_of c, state m0 k (node d c n a f)).
Proof. rewrite state_focus. eapply rb_color_in; [apply valid_focus | apply focus_par | left]. Qed.

(** The same nodes with another colour at the top. *)
Lemma recolor_valid c' : valid (full k (node d c' n a f)).
Proof.
  eapply valid_perm; [symmetry; apply full_node|]. eapply valid_keys; [|apply valid_focus]. done.
Qed.

Lemma recolored c' : st m0 ((a, cell_d d (par k) c' (ptr n) (ptr f)) :: cells a n ++ cells a f ++ ctx_cells k a) (top k a) =
  state m0 k (node d c' n a f).
Proof. unfold state. rewrite ptr_node. symmetry. apply st_perm; [apply recolor_valid | apply full_node]. Qed.

Lemma focus_set_black : rb_set_black a (state m0 k (node d c n a f)) = Ret (tt, state m0 k (node d Black n a f)).
Proof. rewrite state_focus, <- recolored. apply (set_black_at m0 []); [apply valid_focus | apply focus_par]. Qed.

Lemma focus_set_red : rb_set_red a (state m0 k (node d c n a f)) = Ret (tt, state m0 k (node d Red n a f)).
Proof. rewrite state_focus, <- recolored. apply (set_red_at m0 []); [apply valid_focus | apply focus_par]. Qed.

Lemma focus_set_color c' :
  rb_set_parent_color a (par k) (bit_of c') (state m0 k (node d c n a f)) = Ret (tt, state m0 k (node d c' n a f)).
Proof. rewrite state_focus, <- recolored. apply (set_parent_color_at m0 []); [apply valid_focus | apply focus_par]. Qed.
End Focus.

(** Colour tests on a subtree, which may be empty. *)
Lemma tree_node t : t = E ∨ ∃ c n a f, t = node true c n a f.
Proof. destruct t as [|c l a r]; [by left | right; by exists c, l, a, r]. Qed.

Lemma focus_is_red k t : valid (full k t) → is_red_node (ptr t) (state m0 k t) = Ret (is_red t, state m0 k t).
Proof.
  intros Hv. destruct (tree_node t) as [->|(c & n & a & f & ->)]; [done|]. unfold is_red_node. rewrite ptr_node.
  destruct (focus_ptr _ _ _ _ _ _ Hv) as [_ Ha]. rewrite (proj2 (Z.eqb_neq a 0)) by done. cbn [negb].
  unfold rb_is_red. eapply bind_step; [by apply focus_color|]. by destruct c.
Qed.

Lemma focus_null_or_black k t :
  valid (full k t) → null_or_black (ptr t) (state m0 k t) = Ret (negb (is_red t), state m0 k t).
Proof.
  intros Hv. destruct (tree_node t) as [->|(c & n & a & f & ->)]; [done|]. unfold null_or_black. rewrite ptr_node.
  destruct (focus_ptr _ _ _ _ _ _ Hv) as [_ Ha]. rewrite (proj2 (Z.eqb_neq a 0)) by done.
  unfold rb_is_black. eapply bind_step; [by apply focus_color|]. by destruct c.
Qed.

(** Two subtrees at different places have different roots, unless both are empty. *)
Lemma siblings_differ d k c n a f : valid (full k (node d c n a f)) → n ≠ E → ptr n ≠ ptr f.
Proof.
  intros Hv Hn. destruct (tree_node n) as [->|(cn & nn & x & nf & ->)]; [done|]. rewrite ptr_node.
  pose proof (valid_focus _ _ _ _ _ _ Hv) as Hv'. destruct (tree_node f) as [->|(cf & fn & y & ff & ->)].
  - cbn. apply (valid_ptr _ x Hv'). rewrite fmap_cons. right. rewrite fmap_app. apply elem_of_app. left. left.
  - rewrite ptr_node. intros <-. destruct Hv' as [Hnd _]. rewrite fmap_cons, !fmap_app in Hnd.
    apply NoDup_cons in Hnd as [_ Hnd]. apply NoDup_app in Hnd as (_ & Hd & _).
    apply (Hd x); [left | apply elem_of_app; left; left].
Qed.
End Mem.
