(* ===== verification/RbInsert.v ===== *)
(** * Red-black trees: insertion

    [rb_insert_color] of lib/rbtree.c computes [ins_fix], and so re-establishes the
    red-black invariant around a new red leaf without changing the order. *)

From S2P Require Import Prelude Bits RbTree RbSpec RbCells RbRotate.

#[local] Open Scope Z_scope.

(** The body of the loop, for a parent on side [d] of its own parent. *)
Definition ins_case (d : bool) (loop : Z → M rbs unit) (x parent gparent : Z) : M rbs unit :=
  uncle ← get_ch (negb d) gparent;
  ured ← is_red_node uncle;
  if ured : bool then
    _ ← rb_set_black uncle; _ ← rb_set_black parent; _ ← rb_set_red gparent;
    loop gparent
  else
    pr ← get_ch (negb d) parent;
    np ← (if pr =? x then _ ← rotate d parent; mret (parent, x) else mret (x, parent));
    let '(x, parent) := np in
    _ ← rb_set_black parent; _ ← rb_set_red gparent;
    _ ← rotate (negb d) gparent;
    loop x.

Lemma insert_color_loop_eq fuel x :
  insert_color_loop (S fuel) x =
  (parent ← rb_parent x;
   red ← is_red_node parent;
   if negb red then mret tt
   else
     gparent ← rb_parent parent;
     gl ← get_left gparent;
     if parent =? gl then ins_case true (insert_color_loop fuel) x parent gparent
     else ins_case false (insert_color_loop fuel) x parent gparent).
Proof. reflexivity. Qed.

Section Insert.
Context (m0 : gmap Z rb_node).

Lemma focus_up k f t : valid (full (f :: k) t) → state m0 (f :: k) t = state m0 k (plug1 f t) ∧ valid (full k (plug1 f t)).
Proof. intros Hv. split; [by apply refocus | by apply valid_refocus]. Qed.

Lemma ptr_plug1 f t : ptr (plug1 f t) = fa f.
Proof. apply ptr_node. Qed.

Lemma plug1_is_red f t : is_red (plug1 f t) = match fc f with Red => true | Black => false end.
Proof. apply node_is_red. Qed.

Lemma plug1_parent k f t :
  valid (full k (plug1 f t)) → rb_parent (fa f) (state m0 k (plug1 f t)) = Ret (par k, state m0 k (plug1 f t)).
Proof. apply (focus_parent m0 (fd f)). Qed.

Lemma plug1_get_left k f t :
  valid (full k (plug1 f t)) →
  get_left (fa f) (state m0 k (plug1 f t)) = Ret (if fd f then ptr t else ptr (fs f), state m0 k (plug1 f t)).
Proof. unfold plug1. destruct (fd f); [apply (focus_get_near m0 true) | apply (focus_get_far m0 false)]. Qed.

(** Below a black parent, or at the root, there is nothing to do. *)
Lemma insert_loop_stop fuel k d c n x f :
  valid (full k (node d c n x f)) → (match k with g :: _ => fc g = Black | [] => True end) →
  insert_color_loop (S fuel) x (state m0 k (node d c n x f)) = Ret (tt, state m0 k (node d c n x f)).
Proof.
  intros Hv Hk. rewrite insert_color_loop_eq. eapply bind_step; [by apply focus_parent|].
  destruct k as [|g k]; [done|]. destruct (focus_up _ _ _ Hv) as [E Hv'].
  pose proof (focus_is_red m0 k _ Hv') as Hr. rewrite ptr_plug1, plug1_is_red, Hk in Hr.
  rewrite E. eapply bind_step; [exact Hr|]. done.
Qed.

Section Case.
Context (fuel : nat) (d : bool) (k : list frame) (cg : color) (g : Z) (u : tree).
Abbreviation loop := (insert_color_loop (S fuel)).

(** A red uncle: the colours change, and the grandparent is the new red node. *)
Lemma ins_case_red df x t p sp :
  let P := plug1 (F df Red p sp) t in
  valid (full k (node d cg P g u)) → is_red u = true →
  ins_case d loop x p g (state m0 k (node d cg P g u)) =
    loop g (state m0 k (node d Red (blacken P) g (blacken u))) ∧
  valid (full k (node d Red (blacken P) g (blacken u))).
Proof.
  intros P Hv Hu. destruct (tree_node u) as [->|(cu & un & y & uf & ->)]; [done|].
  rewrite node_is_red in Hu. destruct cu; [|done]. unfold P in *. unfold plug1 in *. cbn [fd fc fa fs] in *.
  rewrite !blacken_node. unfold ins_case.
  destruct (focus_far m0 _ _ _ _ _ _ Hv) as [E1 Hv1]. pose proof (recolor_valid _ _ _ _ _ _ Hv1 Black) as Hv1'.
  destruct (focus_up _ _ _ Hv1') as [E2 Hv2]. unfold plug1 in E2, Hv2. cbn [fd fc fa fs] in E2, Hv2. rewrite <- node_flip in E2, Hv2.
  destruct (focus_near m0 _ _ _ _ _ _ Hv2) as [E3 Hv3]. pose proof (recolor_valid _ _ _ _ _ _ Hv3 Black) as Hv3'.
  destruct (focus_up _ _ _ Hv3') as [E4 Hv4]. unfold plug1 in E4, Hv4. cbn [fd fc fa fs] in E4, Hv4.
  pose proof (recolor_valid _ _ _ _ _ _ Hv4 Red) as Hv5. split; [|done].
  eapply bind_step; [by apply focus_get_far|]. rewrite ptr_node, E1.
  pose proof (focus_is_red m0 _ _ Hv1) as Hr. rewrite ptr_node, node_is_red in Hr.
  eapply bind_step; [exact Hr|]. eapply bind_step; [by apply focus_set_black|]. rewrite E2, E3.
  eapply bind_step; [by apply focus_set_black|]. rewrite E4. eapply bind_step; [by apply focus_set_red|]. done.
Qed.

(** The last rotation, after the inner one if there was one. *)
Lemma ins_case_finish cp n p b (K : M rbs unit) :
  valid (full k (node d cg (node d cp n p b) g u)) →
  (_ ← rb_set_black p; _ ← rb_set_red g; _ ← rotate (negb d) g; K) (state m0 k (node d cg (node d cp n p b) g u)) =
    K (state m0 k (node d Black n p (node d Red b g u))) ∧
  valid (full k (node d Black n p (node d Red b g u))).
Proof.
  intros Hv. destruct (focus_near m0 _ _ _ _ _ _ Hv) as [E1 Hv1]. pose proof (recolor_valid _ _ _ _ _ _ Hv1 Black) as Hv1'.
  destruct (focus_up _ _ _ Hv1') as [E2 Hv2]. unfold plug1 in E2, Hv2. cbn [fd fc fa fs] in E2, Hv2.
  pose proof (recolor_valid _ _ _ _ _ _ Hv2 Red) as Hv3.
  rewrite (node_flip d Red), (node_flip d Black n) in Hv3. destruct (rotate_spec m0 _ _ _ _ _ _ _ _ _ Hv3) as [E4 Hv4].
  rewrite (node_flip d Black n p), (node_flip d Red b). split; [|done].
  rewrite E1. eapply bind_step; [by apply focus_set_black|]. rewrite E2. eapply bind_step; [by apply focus_set_red|].
  rewrite (node_flip d Red), (node_flip d Black n). eapply bind_step; [exact E4 | done].
Qed.

Lemma ins_case_black df t p sp :
  let f := F df Red p sp in
  let G := F d cg g u in
  valid (full k (node d cg (plug1 f t) g u)) → is_red u = false → is_red t = true →
  ins_case d loop (ptr t) p g (state m0 k (node d cg (plug1 f t) g u)) = Ret (tt, state m0 k (ins_rotate f G t)) ∧
  valid (full k (ins_rotate f G t)).
Proof.
  intros f G Hv Hu Ht. unfold f, G, ins_rotate, plug1 in *. cbn [fd fc fa fs] in *.
  destruct (focus_far m0 _ _ _ _ _ _ Hv) as [E1 Hv1]. pose proof (focus_is_red m0 _ _ Hv1) as Hr. rewrite Hu in Hr.
  destruct (focus_near m0 _ _ _ _ _ _ Hv) as [E2 Hv2].
  destruct (Bool.eqb df d) eqn:Hd.
  - apply Bool.eqb_prop in Hd as ->. destruct (ins_case_finish Red t p sp (loop (ptr t)) Hv) as [E3 Hv3].
    destruct (focus_near m0 _ _ _ _ _ _ Hv3) as [E4 Hv4]. split; [|done]. unfold ins_case.
    eapply bind_step; [by apply focus_get_far|]. rewrite E1. eapply bind_step; [exact Hr|]. rewrite <- E1, E2.
    eapply bind_step; [by apply focus_get_far|].
    rewrite (proj2 (Z.eqb_neq (ptr sp) (ptr t))) by (apply not_eq_sym; eapply siblings_differ; [exact Hv2 | by destruct t]).
    eapply bind_step; [done|]. cbn beta match. rewrite <- E2, E3, E4.
    destruct (tree_node t) as [->|(ct & tn & x & tf & ->)]; [done|]. rewrite ptr_node. by apply insert_loop_stop.
  - assert (df = negb d) as -> by (by destruct df, d). rewrite <- node_flip in Hv, Hv1, Hv2, E1, E2, Hr |- *.
    destruct (sides d t) as [[[[ct tn] x] tf]|] eqn:Hs; [|by destruct t, d].
    apply sides_Some in Hs as ->. rewrite node_is_red in Ht. destruct ct; [|done]. rewrite ptr_node.
    destruct (rotate_spec m0 _ _ _ _ _ _ _ _ _ Hv2) as [E3 Hv3].
    destruct (focus_up _ _ _ Hv3) as [E4 Hv4]. unfold plug1 in E4, Hv4. cbn [fd fc fa fs] in E4, Hv4.
    destruct (ins_case_finish Red (node d Red sp p tn) x tf (loop p) Hv4) as [E5 Hv5].
    destruct (focus_near m0 _ _ _ _ _ _ Hv5) as [E6 Hv6]. split; [|done]. unfold ins_case.
    eapply bind_step; [by apply focus_get_far|]. rewrite E1. eapply bind_step; [exact Hr|]. rewrite <- E1, E2.
    eapply bind_step; [by apply focus_get_far|]. rewrite ptr_node, Z.eqb_refl.
    eapply bind_step; [eapply bind_step; [exact E3 | reflexivity]|]. cbn beta match. rewrite E4, E5, E6.
    by apply insert_loop_stop.
Qed.
End Case.

(** The tests at the head of the loop, below a red parent. *)
Lemma insert_loop_red fuel f g k d c n x b :
  let t := node d c n x b in
  valid (full (f :: g :: k) t) → fc f = Red →
  insert_color_loop (S fuel) x (state m0 (f :: g :: k) t) =
    ins_case (fd g) (insert_color_loop fuel) x (fa f) (fa g) (state m0 k (plug1 g (plug1 f t))) ∧
  valid (full k (plug1 g (plug1 f t))).
Proof.
  intros t. unfold t. clear t. intros Hv Hc. destruct (focus_up _ _ _ Hv) as [E1 Hv1]. destruct (focus_up _ _ _ Hv1) as [E2 Hv2]. split; [|done].
  rewrite insert_color_loop_eq. eapply bind_step; [by apply focus_parent|]. cbn [par]. rewrite E1.
  pose proof (focus_is_red m0 _ _ Hv1) as Hr. rewrite ptr_plug1, plug1_is_red, Hc in Hr.
  eapply bind_step; [exact Hr|]. cbn [negb]. eapply bind_step; [by apply plug1_parent|]. cbn [par]. rewrite E2.
  assert (ptr (plug1 f (node d c n x b)) ≠ ptr (fs g)) as Hne by (eapply siblings_differ; [exact Hv2 | by destruct f as [[]]]).
  rewrite ptr_plug1 in Hne. eapply bind_step; [by apply plug1_get_left|].
  destruct (fd g); rewrite ?ptr_plug1; [by rewrite Z.eqb_refl | by rewrite (proj2 (Z.eqb_neq _ _) Hne)].
Qed.

Lemma insert_loop_spec fuel : ∀ k n t,
  valid (full k t) → rbt Red n t → cok Black n k → (length k ≤ fuel)%nat →
  insert_color_loop (S fuel) (ptr t) (state m0 k t) = Ret (tt, state m0 [] (ins_fix k t)) ∧ valid (full [] (ins_fix k t)).
Proof.
  induction fuel as [fuel IH] using (well_founded_induction Nat.lt_wf_0); intros k n t Hv Ht Hk Hf.
  assert (∃ d x l r, t = node d Red l x r) as (dt & x & l & r & Et) by (inversion Ht; by eexists true, _, _, _).
  assert (match k with g :: _ => fc g = Black | [] => True end → ins_fix k t = plug k t →
    insert_color_loop (S fuel) (ptr t) (state m0 k t) = Ret (tt, state m0 [] (ins_fix k t)) ∧ valid (full [] (ins_fix k t))) as Hstop.
  { intros Hc ->. split; [|eapply valid_perm; [apply full_plug_all | done]].
    rewrite <- refocus_all by done. rewrite Et in *. rewrite ptr_node. by apply insert_loop_stop. }
  destruct k as [|f k]; [by apply Hstop|]. destruct (fc f) eqn:Hc; [|by apply Hstop; [|destruct k; cbn; rewrite ?Hc]].
  inversion Hk as [|? ? ? ? ? Hc'|? ? ? _ Hs Hk']; subst; [congruence|].
  inversion Hk' as [|? ? cs g k2 Hcg Hsg Hk2|]; subst. destruct fuel as [|fuel]; [simpl in Hf; lia|].
  destruct (insert_loop_red (S fuel) f g k2 dt Red l x r Hv Hc) as [E0 Hv2]. rewrite ptr_node, E0. cbn [ins_fix]. rewrite Hc.
  set (t := node dt Red l x r) in *. destruct f as [df cf p sp], g as [dg cg g u]. cbn [fd fc fa fs] in *. subst cf cg.
  change (plug1 (F dg Black g u) (plug1 (F df Red p sp) t)) with (node dg Black (plug1 (F df Red p sp) t) g u) in *.
  destruct (is_red u) eqn:Hu.
  - destruct (ins_case_red fuel dg k2 Black g u df x t p sp Hv2 Hu) as [-> Hv3].
    pose proof (IH fuel ltac:(lia) k2 (S n) (node dg Red (blacken (plug1 (F df Red p sp) t)) g (blacken u)) Hv3) as Hnext.
    rewrite ptr_node in Hnext. apply Hnext; [|by eapply cok_weaken | simpl in Hf; lia].
    rewrite (rbt_is_red _ _ _ Hsg) in Hu. destruct cs; [|done].
    apply rbt_node_R; [|by apply rbt_blacken_red]. unfold plug1. cbn [fd fc fa fs]. rewrite blacken_node. by eapply rbt_node_B.
  - destruct (ins_case_black fuel dg k2 Black g u df t p sp Hv2 Hu (node_is_red _ _ _ _ _)) as [E Hv3].
    unfold t in E at 1. rewrite ptr_node in E. rewrite E. split; [by rewrite refocus_all|].
    eapply valid_perm; [apply full_plug_all | done].
Qed.

Lemma fuel_enough L r : valid L → (length L ≤ size (nodes (st m0 L r)))%nat.
Proof.
  intros [Hn _]. cbn [nodes st]. rewrite <- (map_size_list_to_map (M := gmap Z) L Hn). apply map_subseteq_size, map_union_subseteq_l.
Qed.

Lemma ctx_length k : ∀ h, (length k ≤ length (ctx_cells k h))%nat.
Proof. induction k as [|f k IH]; intros h; simpl; [lia|]. rewrite length_app. specialize (IH (fa f)). lia. Qed.

Lemma blacken_spec t :
  valid (full [] t) → t ≠ E → rb_set_black (ptr t) (state m0 [] t) = Ret (tt, state m0 [] (blacken t)) ∧ valid (full [] (blacken t)).
Proof.
  intros Hv Ht. destruct (tree_node t) as [->|(c & n & a & f & ->)]; [done|]. rewrite ptr_node, blacken_node.
  split; [by apply focus_set_black | by eapply recolor_valid].
Qed.

Lemma insert_color_spec k n t :
  valid (full k t) → rbt Red n t → cok Black n k →
  rb_insert_color (ptr t) (state m0 k t) = Ret (tt, state m0 [] (blacken (ins_fix k t))) ∧
  valid (full [] (blacken (ins_fix k t))).
Proof.
  intros Hv Ht Hk. unfold rb_insert_color. rewrite (bind_Ret tree_fuel _ _ _ _ eq_refl).
  destruct (insert_loop_spec (S (size (nodes (state m0 k t)))) k n t Hv Ht Hk) as [E1 Hv1].
  { unfold state. pose proof (fuel_enough (full k t) (top k (ptr t)) Hv) as Hs. pose proof (ctx_length k (ptr t)).
    unfold full in Hs at 1. rewrite length_app in Hs. lia. }
  destruct (blacken_spec _ Hv1) as [E2 Hv2].
  { intros E0. assert (inorder (ins_fix k t) = []) as Hi by (by rewrite E0).
    rewrite inorder_ins_fix in Hi by exact (rbt_is_red _ _ _ Ht). inversion Ht; subst. cbn in Hi.
    apply (f_equal length) in Hi. rewrite !length_app in Hi. simpl in Hi. lia. }
  split; [|done]. eapply bind_step; [exact E1|]. eapply bind_step; [reflexivity | exact E2].
Qed.

(** ** Linking a new node *)

Definition hole (k : list frame) : link :=
  match k with [] => AtRoot | f :: _ => if fd f then AtLeft (fa f) else AtRight (fa f) end.

(** A node that is not part of the tree belongs to the rest of the memory. *)
Lemma st_take x n L r : m0 !! x = Some n → st m0 L r = st (delete x m0) (L ++ [(x, n)]) r ∨ x ∈ L.*1.
Proof.
  intros Hx. destruct (decide (x ∈ L.*1)) as [|Hn]; [by right | left]. unfold st. f_equal.
  rewrite list_to_map_app, <- map_union_assoc. f_equal. simpl. by rewrite insert_empty, <- insert_union_singleton_l, insert_delete_id.
Qed.
End Insert.

Lemma write_hole m0 L1 k h h' :
  valid (L1 ++ ctx_cells k h) →
  write_link (hole k) h' (st m0 (L1 ++ ctx_cells k h) (top k h)) = Ret (tt, st m0 (L1 ++ ctx_cells k h') (top k h')).
Proof.
  intros Hv. destruct k as [|[[] c a s] k]; [done | |]; cbn [hole fd fa write_link ctx_cells top] in *.
  - by apply (set_near_at m0 L1 true).
  - by apply (set_far_at m0 L1 true).
Qed.

(** The new node is a red leaf at the hole. *)
Lemma link_node_spec m0 k x n0 :
  m0 !! x = Some n0 → valid ((x, n0) :: ctx_cells k 0) →
  rb_link_node x (par k) (hole k) (state m0 k E) = Ret (tt, state (delete x m0) k (T Red E x E)) ∧
  valid (full k (T Red E x E)).
Proof.
  intros Hx Hv. assert (∀ n h, valid ((x, n) :: ctx_cells k h)) as Hvk.
  { intros n h. eapply valid_keys; [|exact Hv]. rewrite !fmap_cons. by rewrite (ctx_fst k h 0). }
  destruct (par_is_ptr [(x, n0)] k 0 Hv) as [Hp _]. split; [|apply Hvk].
  assert (state m0 k E = st (delete x m0) ((x, n0) :: ctx_cells k 0) (top k 0)) as ->.
  { change (st m0 (ctx_cells k 0) (top k 0) = st (delete x m0) ((x, n0) :: ctx_cells k 0) (top k 0)).
    destruct (st_take m0 x n0 (ctx_cells k 0) (top k 0) Hx) as [->|Hin].
    - symmetry. apply st_perm; [done|]. by rewrite Permutation_cons_append.
    - destruct Hv as [Hn _]. apply NoDup_cons in Hn as [Hn _]. done. }
  unfold rb_link_node, set_parent_color, set_right, set_left.
  eapply bind_step; [apply (update_at _ []); apply Hvk|].
  eapply bind_step; [apply (update_at _ []); apply Hvk|].
  eapply bind_step; [apply (update_at _ []); apply Hvk|]. cbn [app rb_parent_color rb_right rb_left].
  assert ({| rb_parent_color := par k; rb_right := 0; rb_left := 0 |} = cell (par k) Red 0 0) as ->.
  { unfold cell, enc. cbn [bit_of]. by rewrite Z.add_0_r. }
  apply (write_hole _ [(x, cell (par k) Red 0 0)]). apply Hvk.
Qed.

(** [s] holds the tree [t] and besides it the nodes [m0]. *)
Definition holds (m0 : gmap Z rb_node) (t : tree) (s : rbs) : Prop := s = state m0 [] t ∧ valid (full [] t).

Lemma cells_keys t : ∀ up, (cells up t).*1 ≡ₚ inorder t.
Proof.
  induction t as [|c l IHl a r IHr]; intros up; [done|]. cbn [cells inorder]. rewrite fmap_cons, fmap_app, IHl, IHr.
  by rewrite Permutation_middle.
Qed.

Lemma full_keys k t : (full k t).*1 ≡ₚ inorder (plug k t).
Proof. rewrite full_plug_all. unfold full. cbn. by rewrite app_nil_r, cells_keys. Qed.

Lemma holds_state m0 k t s : holds m0 (plug k t) s → s = state m0 k t ∧ valid (full k t).
Proof.
  intros [-> Hv]. assert (valid (full k t)) as Hv' by (eapply valid_perm; [symmetry; apply full_plug_all | done]).
  split; [symmetry; by apply refocus_all | done].
Qed.

Lemma rb_insert_spec m0 k x n0 s :
  holds m0 (plug k E) s → rb_tree (plug k E) →
  m0 !! x = Some n0 → is_ptr x → x ≠ 0 → x ∉ inorder (plug k E) →
  ∃ s' t', (_ ← rb_link_node x (par k) (hole k); rb_insert_color x) s = Ret (tt, s') ∧
    holds (delete x m0) t' s' ∧ rb_tree t' ∧ inorder t' = before k ++ [x] ++ after k.
Proof.
  intros Hs Hrb Hx Hxp Hx0 Hnew. destruct (holds_state _ _ _ _ Hs) as [-> Hv].
  destruct (link_node_spec m0 k x n0 Hx) as [E1 Hv1].
  { destruct Hv as [Hn Hf]. change (ctx_cells k 0) with (full k E). split; rewrite fmap_cons; constructor; try done.
    by rewrite full_keys. }
  destruct (rbt_unplug _ _ Hrb) as (c & n & Hk & Ht).
  assert (rbt Red n (T Red E x E)) as Hr by (inversion Ht; subst; repeat constructor).
  destruct (insert_color_spec (delete x m0) k n (T Red E x E) Hv1 Hr) as [E2 Hv2]; [by eapply cok_weaken|].
  eexists _, _. split; [eapply bind_step; [exact E1 | exact E2]|]. split_and!; [by split | |].
  - eapply ins_fix_rbt; [exact Hr | by eapply cok_weaken].
  - by rewrite inorder_blacken, inorder_ins_fix.
Qed.
