(* ===== verification/RbErase.v ===== *)
(** * Red-black trees: deletion

    [rb_erase] of lib/rbtree.c unlinks a node, puts its successor in its place when
    it has two children, and repairs the missing black node by [del_fix]. *)

From S2P Require Import Prelude Bits RbTree RbSpec RbCells RbRotate RbInsert.

#[local] Open Scope Z_scope.

(** [__rb_erase_color] at a parent whose child on side [d] misses a black node, once
    the other child is black. *)
Definition erase_rest (d : bool) (parent other : Z) : M rbs (option (Z * Z)) :=
  ol ← get_left other; lb ← null_or_black ol;
  both ← (if lb : bool then or_ ← get_right other; null_or_black or_ else mret false);
  if both : bool then
    _ ← rb_set_red other;
    gparent ← rb_parent parent;
    mret (Some (parent, gparent))
  else
    far ← get_ch (negb d) other; fb ← null_or_black far;
    other ← (if fb : bool then
               near ← get_ch d other;
               _ ← rb_set_black near; _ ← rb_set_red other;
               _ ← rotate (negb d) other;
               get_ch (negb d) parent
             else mret other);
    pp ← rb_parent parent; pc ← rb_color parent;
    _ ← rb_set_parent_color other pp pc;
    _ ← rb_set_black parent;
    far ← get_ch (negb d) other; _ ← rb_set_black far;
    _ ← rotate d parent;
    mret None.

Definition erase_case (d : bool) (parent : Z) : M rbs (option (Z * Z)) :=
  other ← get_ch (negb d) parent;
  red ← rb_is_red other;
  other ← (if red : bool then
             _ ← rb_set_black other; _ ← rb_set_red parent;
             _ ← rotate d parent;
             get_ch (negb d) parent
           else mret other);
  erase_rest d parent other.

Lemma erase_color_left_eq : erase_color_left = erase_case true.
Proof. reflexivity. Qed.

Lemma erase_color_right_eq : erase_color_right = erase_case false.
Proof. reflexivity. Qed.

Section Erase.
Context (m0 : gmap Z rb_node).

(** The test whether both children of the other child are black. *)
Lemma both_black_spec {B} k d c n s f (K : bool → M rbs B) :
  valid (full k (node d c n s f)) →
  (ol ← get_left s; lb ← null_or_black ol;
   both ← (if lb : bool then or_ ← get_right s; null_or_black or_ else mret false); K both) (state m0 k (node d c n s f)) =
  K (negb (is_red n) && negb (is_red f)) (state m0 k (node d c n s f)).
Proof.
  intros Hv. destruct (focus_near m0 _ _ _ _ _ _ Hv) as [E1 Hv1]. destruct (focus_far m0 _ _ _ _ _ _ Hv) as [E2 Hv2].
  pose proof (focus_null_or_black m0 _ _ Hv1) as Hn. pose proof (focus_null_or_black m0 _ _ Hv2) as Hf.
  rewrite <- E1 in Hn. rewrite <- E2 in Hf. destruct d.
  - eapply bind_step; [by apply (focus_get_near m0 true)|]. eapply bind_step; [exact Hn|].
    destruct (is_red n); cbn [negb andb]; [by eapply bind_step|].
    eapply bind_step; [eapply bind_step; [by apply (focus_get_far m0 true) | exact Hf] | done].
  - eapply bind_step; [by apply (focus_get_far m0 false)|]. eapply bind_step; [exact Hf|].
    destruct (is_red f); cbn [negb andb]; [rewrite andb_false_r; by eapply bind_step|]. rewrite andb_true_r.
    eapply bind_step; [eapply bind_step; [by apply (focus_get_near m0 false) | exact Hn] | done].
Qed.

(** The final rotation: [s] takes over place and colour of the parent [p]. *)
Lemma erase_finish d k c t p cs n s f :
  valid (full k (node d c t p (node d cs n s f))) → f ≠ E →
  (pp ← rb_parent p; pc ← rb_color p;
   _ ← rb_set_parent_color s pp pc;
   _ ← rb_set_black p;
   far ← get_ch (negb d) s; _ ← rb_set_black far;
   _ ← rotate d p;
   mret None) (state m0 k (node d c t p (node d cs n s f))) =
    Ret (None : option (Z * Z), state m0 k (node d c (node d Black t p n) s (blacken f))) ∧
  valid (full k (node d c (node d Black t p n) s (blacken f))).
Proof.
  intros Hv Hf. destruct (tree_node f) as [->|(cf & fn & z & ff & ->)]; [done|]. clear Hf.
  rewrite blacken_node. pose proof (full_node2 d k c t p cs n s (node true cf fn z ff)) as HL.
  assert (valid (full k (node d c t p (node d cs n s (node true Black fn z ff))))) as Hvb.
  { eapply valid_perm; [symmetry; apply full_node2|]. pose proof (valid_perm _ _ HL Hv) as Hv0.
    eapply valid_keys; [|exact Hv0]. rewrite !ptr_node. rewrite !fmap_cons, !fmap_app. done. }
  pose proof (valid_rotate _ _ _ _ _ _ _ _ _ Black c Hvb) as Hv'. split; [|done].
  eapply bind_step; [by apply focus_parent|]. eapply bind_step; [by apply focus_color|].
  destruct (focus_par _ _ _ _ _ _ Hv) as [Hpar Hpar4]. pose proof (conj Hpar Hpar4 : is_ptr (par k)) as Hp. clear Hpar Hpar4.
  destruct (focus_far m0 _ _ _ _ _ _ Hv) as [_ Hvs]. pose proof (focus_ptr _ _ _ _ _ _ Hvs) as [Hsp _].
  assert (∀ n1 n2 n3, valid ((p, n1) :: (s, n2) :: cells p t ++ (z, n3) :: cells z fn ++ cells z ff ++ cells s n ++ ctx_cells k p)) as Hvk.
  { intros n1 n2 n3. pose proof (valid_perm _ _ HL Hv) as Hv0. eapply valid_keys; [|exact Hv0].
    cbn [cells node]. rewrite !fmap_cons, !fmap_app, !fmap_cons, !fmap_app. by app_norm. }
  unfold state at 1. rewrite (st_perm m0 _ _ _ Hv HL), ptr_node. cbn [cells node ptr]. app_norm.
  eapply bind_step; [apply (set_parent_color_at m0 [(p, _)] d s p cs); [apply Hvk | done]|].
  eapply bind_step; [apply (set_black_at m0 [] d p); [apply Hvk | done]|].
  eapply bind_step; [eapply get_far; [apply Hvk | right; left]|].
  eapply bind_step.
  { apply (set_black_at m0 ((p, cell_d d (par k) Black (ptr t) s) :: (s, cell_d d (par k) c (ptr n) z) :: cells p t) true z s cf (ptr fn) (ptr ff));
      [apply Hvk | done]. }
  eapply bind_step; [|reflexivity].
  pose proof (rotate_cells m0 d k Black t p c n s (node true Black fn z ff) (par k) Hv' Hp) as Hr.
  cbn [cells node ptr] in Hr. rewrite <- !app_assoc, <- app_comm_cons, <- !app_assoc in Hr. rewrite ptr_node. exact Hr.
Qed.

(** The inner rotation brings a red nephew to the outside. *)
Lemma erase_inner_rotation d k a x b s cs f {B} (K : M rbs B) :
  valid (full k (node d cs (node d Red a x b) s f)) →
  (near ← get_ch d s; _ ← rb_set_black near; _ ← rb_set_red s; _ ← rotate (negb d) s; K)
    (state m0 k (node d cs (node d Red a x b) s f)) =
    K (state m0 k (node d Black a x (node d Red b s f))) ∧
  valid (full k (node d Black a x (node d Red b s f))).
Proof.
  intros Hv. destruct (focus_near m0 _ _ _ _ _ _ Hv) as [E1 Hv1]. pose proof (recolor_valid _ _ _ _ _ _ Hv1 Black) as Hv1'.
  destruct (focus_up m0 _ _ _ Hv1') as [E2 Hv2]. unfold plug1 in E2, Hv2. cbn [fd fc fa fs] in E2, Hv2.
  pose proof (recolor_valid _ _ _ _ _ _ Hv2 Red) as Hv3.
  rewrite (node_flip d Red _ s f), (node_flip d Black a x b) in Hv3.
  destruct (rotate_spec m0 _ _ _ _ _ _ _ _ _ Hv3) as [E4 Hv4].
  rewrite (node_flip d Black a x (node d Red b s f)), (node_flip d Red b s f). split; [|done].
  eapply bind_step; [by apply focus_get_near|]. rewrite ptr_node, E1.
  eapply bind_step; [by apply focus_set_black|]. rewrite E2. eapply bind_step; [by apply focus_set_red|].
  rewrite (node_flip d Red _ s f), (node_flip d Black a x b). eapply bind_step; [exact E4 | done].
Qed.

(** The outcome of a step in memory. *)
Definition outcome_ok (c : outcome (option (Z * Z) * rbs)) (k : list frame) (p : Z) (u : step) : Prop :=
  match u with
  | Up t => c = Ret (Some (p, par k), state m0 k t) ∧ valid (full k t)
  | Done t => c = Ret (None, state m0 k t) ∧ valid (full k t)
  end.

Lemma erase_rest_spec d k c t p cs n s f :
  valid (full k (node d c t p (node d cs n s f))) →
  outcome_ok (erase_rest d p s (state m0 k (node d c t p (node d cs n s f)))) k p (del_step d c p t (node d cs n s f)).
Proof.
  intros Hv. destruct (focus_far m0 _ _ _ _ _ _ Hv) as [E0 Hv0]. unfold del_step. rewrite sides_node.
  unfold erase_rest. rewrite E0, both_black_spec by done.
  destruct (negb (is_red n) && negb (is_red f)) eqn:Hb.
  - pose proof (recolor_valid _ _ _ _ _ _ Hv0 Red) as Hv1. destruct (focus_up m0 _ _ _ Hv1) as [E2 Hv2].
    unfold plug1 in E2, Hv2. cbn [fd fc fa fs] in E2, Hv2. rewrite <- node_flip in E2, Hv2. split; [|done].
    eapply bind_step; [by apply focus_set_red|]. rewrite E2. by eapply bind_step; [by apply focus_parent|].
  - destruct (focus_far m0 _ _ _ _ _ _ Hv0) as [E1 Hv1].
    pose proof (focus_null_or_black m0 _ _ Hv1) as Hf. rewrite <- E1 in Hf.
    destruct (is_red f) eqn:Hrf; cbn [negb] in *.
    + destruct (erase_finish d k c t p cs n s f Hv) as [E3 Hv3]; [by destruct f|]. split; [|done].
      eapply bind_step; [by apply focus_get_far|]. eapply bind_step; [exact Hf|]. eapply bind_step; [done|].
      rewrite <- E0. exact E3.
    + rewrite andb_true_r in Hb. apply negb_false_iff in Hb.
      destruct (sides d n) as [[[[cn a] x] b]|] eqn:Hs; [|by destruct n, d].
      apply sides_Some in Hs as ->. rewrite node_is_red in Hb. destruct cn; [|done].
      destruct (erase_inner_rotation d _ a x b s cs f (get_ch (negb d) p) Hv0) as [E3 Hv3].
      destruct (focus_up m0 _ _ _ Hv3) as [E4 Hv4]. unfold plug1 in E4, Hv4. cbn [fd fc fa fs] in E4, Hv4. rewrite <- node_flip in E4, Hv4.
      destruct (erase_finish d k c t p Black a x (node d Red b s f) Hv4) as [E5 Hv5]; [by destruct d|].
      rewrite blacken_node in E5, Hv5. split; [|done].
      eapply bind_step; [by apply focus_get_far|]. eapply bind_step; [exact Hf|]. eapply bind_step.
      { rewrite E3, E4. by apply focus_get_far. }
      rewrite ptr_node. exact E5.
Qed.

Lemma erase_case_black d k c t p n s f :
  valid (full k (node d c t p (node d Black n s f))) →
  outcome_ok (erase_case d p (state m0 k (node d c t p (node d Black n s f)))) k p (del_step d c p t (node d Black n s f)).
Proof.
  intros Hv. destruct (focus_far m0 _ _ _ _ _ _ Hv) as [E0 Hv0].
  assert (erase_case d p (state m0 k (node d c t p (node d Black n s f))) = erase_rest d p s (state m0 k (node d c t p (node d Black n s f)))) as ->;
    [|by apply erase_rest_spec].
  unfold erase_case. eapply bind_step; [by apply focus_get_far|]. rewrite ptr_node, E0.
  eapply bind_step; [unfold rb_is_red; eapply bind_step; [by apply focus_color | reflexivity]|].
  by eapply bind_step.
Qed.

(** A red other child first changes places with the parent. *)
Lemma erase_case_red d k c t p ca a1 a a2 s far :
  let n := node d ca a1 a a2 in
  valid (full k (node d c t p (node d Red n s far))) →
  outcome_ok (erase_case d p (state m0 k (node d c t p (node d Red n s far)))) (F d Black s far :: k) p (del_step d Red p t n).
Proof.
  intros n. unfold n. clear n. intros Hv. destruct (focus_far m0 _ _ _ _ _ _ Hv) as [E0 Hv0].
  pose proof (recolor_valid _ _ _ _ _ _ Hv0 Black) as Hv1. destruct (focus_up m0 _ _ _ Hv1) as [E2 Hv2].
  unfold plug1 in E2, Hv2. cbn [fd fc fa fs] in E2, Hv2. rewrite <- node_flip in E2, Hv2.
  pose proof (recolor_valid _ _ _ _ _ _ Hv2 Red) as Hv3. destruct (rotate_spec m0 _ _ _ _ _ _ _ _ _ Hv3) as [E4 Hv4].
  destruct (focus_near m0 _ _ _ _ _ _ Hv4) as [E5 Hv5].
  assert (erase_case d p (state m0 k (node d c t p (node d Red (node d ca a1 a a2) s far))) =
          erase_rest d p a (state m0 (F d Black s far :: k) (node d Red t p (node d ca a1 a a2)))) as ->; [|by apply erase_rest_spec].
  unfold erase_case. eapply bind_step; [by apply focus_get_far|]. rewrite ptr_node, E0.
  eapply bind_step; [unfold rb_is_red; eapply bind_step; [by apply focus_color | reflexivity]|].
  eapply bind_step.
  { eapply bind_step; [by apply focus_set_black|]. rewrite E2. eapply bind_step; [by apply focus_set_red|].
    eapply bind_step; [exact E4|]. rewrite E5. by apply focus_get_far. }
  by rewrite ptr_node.
Qed.

(** ** The loop *)

(** What follows the loop: the last node becomes black. *)
Definition finish (r : Z) : M rbs unit := if negb (r =? 0) then rb_set_black r else mret tt.

Lemma finish_spec k t :
  valid (full k t) → finish (ptr t) (state m0 k t) = Ret (tt, state m0 k (blacken t)) ∧ valid (full k (blacken t)).
Proof.
  intros Hv. destruct (tree_node t) as [->|(c & n & a & f & ->)]; [done|].
  destruct (focus_ptr _ _ _ _ _ _ Hv) as [_ Ha]. unfold finish. rewrite ptr_node, (proj2 (Z.eqb_neq a 0) Ha), blacken_node. cbn [negb].
  split; [by apply focus_set_black | by eapply recolor_valid].
Qed.

Lemma state_plug k t : valid (full k t) → state m0 k t = state m0 [] (plug k t) ∧ valid (full [] (plug k t)).
Proof. intros Hv. split; [by apply refocus_all | eapply valid_perm; [apply full_plug_all | done]]. Qed.

(** Colouring the root at the end of the walk. *)
Lemma finish_root k t :
  valid (full k t) →
  (r ← gets root; finish r) (state m0 k t) = Ret (tt, state m0 [] (blacken (plug k t))) ∧ valid (full [] (blacken (plug k t))).
Proof.
  intros Hv. destruct (state_plug k t Hv) as [-> Hv']. destruct (finish_spec [] (plug k t) Hv') as [E1 Hv1].
  split; [|done]. by eapply bind_step; [reflexivity|].
Qed.

Lemma top_in k : ∀ h, k ≠ [] → top k h ∈ (ctx_cells k h).*1.
Proof.
  induction k as [|f k IH]; intros h Hk; [done|]. cbn [top ctx_cells]. rewrite fmap_cons, fmap_app.
  destruct k as [|g k]; [left|]. right. apply elem_of_app. right. by apply IH.
Qed.

Lemma top_not_focus k t : valid (full k t) → k ≠ [] → ptr t ≠ top k (ptr t).
Proof.
  intros Hv Hk E. pose proof (top_in k (ptr t) Hk) as Hin. rewrite <- E in Hin. destruct (tree_node t) as [->|(c & n & a & f & ->)].
  - destruct (valid_ptr _ 0 Hv) as [_ ?]; [|done]. unfold full. rewrite fmap_app. apply elem_of_app. by right.
  - rewrite ptr_node in Hin. destruct Hv as [Hn _]. unfold full in Hn. rewrite fmap_app in Hn.
    apply NoDup_app in Hn as (_ & Hd & _). apply (Hd a); [destruct f; left | by rewrite ptr_node].
Qed.

Lemma del_step_ptr d c p t sib u : del_step d c p t sib = Up u → ptr u = p.
Proof.
  unfold del_step. destruct (sides d sib) as [[[[cs a] s] f]|]; [|done].
  destruct (is_red a), (is_red f); cbn; try (by intros [= <-]; apply ptr_node); try done.
  by destruct (sides d a) as [[[[? ?] ?] ?]|].
Qed.

(** The loop stops at a red node. *)
Lemma erase_loop_red fuel k t par0 :
  valid (full k t) → is_red t = true →
  (r ← erase_color_loop (S fuel) (ptr t) par0; finish r) (state m0 k t) = Ret (tt, state m0 [] (plug k (blacken t))) ∧
  valid (full [] (plug k (blacken t))).
Proof.
  intros Hv Hr. destruct (finish_spec k t Hv) as [E1 Hv1]. destruct (state_plug k _ Hv1) as [E2 Hv2]. split; [|done].
  eapply bind_step; [|by rewrite E1, E2]. cbn [erase_color_loop].
  eapply bind_step; [by apply focus_null_or_black|]. rewrite Hr. by eapply bind_step.
Qed.

(** The tests at the head of the loop, at a black node below a parent. *)
Lemma erase_loop_step fuel d k c p t sib :
  let f := F d c p sib in
  valid (full (f :: k) t) → is_red t = false → sib ≠ E →
  erase_color_loop (S fuel) (ptr t) p (state m0 (f :: k) t) =
  (next ← erase_case d p;
   match next with
   | Some (node, parent) => erase_color_loop fuel node parent
   | None => gets root
   end) (state m0 k (node d c t p sib)) ∧ valid (full k (node d c t p sib)).
Proof.
  intros f Hv Hr Hs. destruct (focus_up m0 _ _ _ Hv) as [E1 Hv1]. split; [|done]. cbn [erase_color_loop].
  eapply bind_step; [by apply focus_null_or_black|]. rewrite Hr. eapply bind_step; [reflexivity|].
  cbn [root state st]. rewrite (proj2 (Z.eqb_neq _ _) (top_not_focus _ _ Hv ltac:(done))). cbn [negb andb].
  fold (st m0 (full (f :: k) t) (top (f :: k) (ptr t))). change (st m0 (full (f :: k) t) (top (f :: k) (ptr t))) with (state m0 (f :: k) t).
  rewrite E1. eapply bind_step; [by apply (plug1_get_left m0 k f)|]. cbn [fd f fs].
  assert (ptr sib ≠ ptr t) as Hne.
  { eapply (siblings_differ (negb d) k c sib p t); [|done]. rewrite <- node_flip. exact Hv1. }
  destruct d.
  - by rewrite Z.eqb_refl.
  - by rewrite (proj2 (Z.eqb_neq _ _) Hne).
Qed.

Lemma erase_loop_spec k : ∀ fuel n t,
  valid (full k t) → short n t → cok Black (S n) k → (length k ≤ fuel)%nat →
  (r ← erase_color_loop (S fuel) (ptr t) (par k); finish r) (state m0 k t) = Ret (tt, state m0 [] (del_fix k t)) ∧
  valid (full [] (del_fix k t)).
Proof.
  induction k as [|f k IH]; intros fuel n t Hv Ht Hk Hf.
  { destruct (finish_spec [] t Hv) as [E1 Hv1]. split; [|done]. eapply bind_step; [|exact E1]. cbn [erase_color_loop].
    eapply bind_step; [by apply focus_null_or_black|]. eapply bind_step; [reflexivity|]. cbn. by rewrite Z.eqb_refl, andb_false_r. }
  cbn [del_fix]. destruct (is_red t) eqn:Hr; [by apply erase_loop_red|]. unfold short in Ht. rewrite Hr in Ht.
  destruct (cok_above n f k Hk) as (cs & Hs & Hk' & Hcs). destruct f as [d c p sib]. cbn [fd fc fa fs par] in *.
  destruct (sides d sib) as [[[[c' a] s] far]|] eqn:Hsd; [|inversion Hs; subst; by destruct d].
  destruct (rbt_sides _ _ _ _ _ _ _ _ Hs Hsd) as (-> & Hsub). apply sides_Some in Hsd. subst sib.
  destruct (erase_loop_step fuel d k c p t (node d cs a s far) Hv Hr ltac:(by destruct d)) as [E1 Hv1].
  assert (∀ o, (r ← erase_color_loop (S fuel) (ptr t) p; finish r) (state m0 (F d c p (node d cs a s far) :: k) t) = o ↔
    (next ← erase_case d p;
     match next with
     | Some (x, q) => r ← erase_color_loop fuel x q; finish r
     | None => r ← gets root; finish r
     end) (state m0 k (node d c t p (node d cs a s far))) = o) as Heq.
  { intros o. unfold mbind at 1, M_bind at 1. rewrite E1. unfold mbind, M_bind.
    by destruct (erase_case d p _) as [[[[? ?]|] ?]| |]. }
  destruct fuel as [|fuel]; [simpl in Hf; lia|]. simpl in Hf. destruct cs.
  - destruct Hsub as [Ha Hfar]. rewrite (Hcs eq_refl) in *. pose proof (step_fits_rbt d n a Ha) as (ca & a1 & x & a2 & Hsa).
    apply sides_Some in Hsa. subst a. pose proof (erase_case_red d k Black t p ca a1 x a2 s far Hv1) as Ho.
    pose proof (del_step_up d Red p t (node d ca a1 x a2)) as Hup.
    destruct (del_step d Red p t (node d ca a1 x a2)) as [u|u] eqn:Hu; cbn [outcome_ok] in Ho; destruct Ho as [Ho Hvu].
    + assert (ptr u = p) as Hp by (by apply (del_step_ptr _ _ _ _ _ _ Hu)).
      destruct (erase_loop_red fuel _ u (par (F d Black s far :: k)) Hvu (Hup u eq_refl)) as [E2 Hv2]. split; [|done].
      apply Heq. eapply bind_step; [exact Ho|]. by rewrite Hp in E2.
    + destruct (finish_root _ u Hvu) as [E2 Hv2]. split; [|done]. apply Heq. eapply bind_step; [exact Ho | exact E2].
  - pose proof (erase_case_black d k c t p a s far Hv1) as Ho. pose proof (del_step_rbt d c p n t _ Ht Hs) as Hstep.
    destruct (del_step d c p t (node d Black a s far)) as [u|u] eqn:Hu; cbn [outcome_ok] in Ho; destruct Ho as [Ho Hvu].
    + assert (ptr u = p) as Hp by (by apply (del_step_ptr _ _ _ _ _ _ Hu)).
      destruct (IH fuel (under c n) u Hvu Hstep) as [E2 Hv2]; [by eapply cok_weaken | lia |]. split; [|done].
      apply Heq. eapply bind_step; [exact Ho|]. by rewrite Hp in E2.
    + destruct (finish_root _ u Hvu) as [E2 Hv2]. split; [|done]. apply Heq. eapply bind_step; [exact Ho | exact E2].
Qed.

Lemma ctx_fuel k t : valid (full k t) → (length k ≤ S (size (nodes (state m0 k t))))%nat.
Proof.
  intros Hv. unfold state. pose proof (fuel_enough m0 (full k t) (top k (ptr t)) Hv) as Hs. pose proof (ctx_length k (ptr t)).
  unfold full in Hs at 1. rewrite length_app in Hs. lia.
Qed.

Lemma erase_color_spec k n t :
  valid (full k t) → short n t → cok Black (S n) k →
  rb_erase_color (ptr t) (par k) (state m0 k t) = Ret (tt, state m0 [] (del_fix k t)) ∧ valid (full [] (del_fix k t)).
Proof.
  intros Hv Ht Hk. unfold rb_erase_color. rewrite (bind_Ret tree_fuel _ _ _ _ eq_refl).
  exact (erase_loop_spec k _ n t Hv Ht Hk (ctx_fuel k t Hv)).
Qed.

(** ** Unlinking a node *)

Lemma replace_child_at L1 k h h' :
  valid (L1 ++ ctx_cells k h) → h ∈ L1.*1 →
  replace_child (par k) h h' (st m0 (L1 ++ ctx_cells k h) (top k h)) = Ret (tt, st m0 (L1 ++ ctx_cells k h') (top k h')).
Proof.
  intros Hv Hh. rewrite <- (relink_at m0 true L1 k h h' Hv Hh). unfold replace_child, relink.
  destruct (negb (par k =? 0)); [|done]. unfold mbind, M_bind. cbn [get_ch set_ch negb].
  destruct (get_left (par k) _) as [[pl s]| |]; [|done..]. by rewrite Z.eqb_sym.
Qed.

(** A cell that is no longer part of the tree joins the rest of the memory. *)
Lemma st_drop x n L r : valid ((x, n) :: L) → st m0 ((x, n) :: L) r = st (<[x := n]> m0) L r.
Proof.
  intros [Hn _]. unfold st. f_equal. simpl in *. apply NoDup_cons in Hn as [Hx _].
  rewrite <- insert_union_l, insert_union_r; [done|]. by apply not_elem_of_list_to_map_1.
Qed.
End Erase.

Section Unlink.
Context (m0 : gmap Z rb_node).

(** With at most one child [t], the child takes the place of the node. *)
Lemma erase_outer_spec d k c x t :
  valid (full k (node d c E x t)) →
  let m1 := <[x := cell_d d (par k) c 0 (ptr t)]> m0 in
  erase_outer x (ptr t) (state m0 k (node d c E x t)) = Ret ((ptr t, par k, bit_of c), state m1 k t) ∧ valid (full k t).
Proof.
  intros Hv m1. pose proof (focus_par _ _ _ _ _ _ Hv) as Hp. pose proof (valid_focus _ _ _ _ _ _ Hv) as Hv0.
  assert (∀ q h, valid ((x, cell_d d (par k) c 0 (ptr t)) :: cells q t ++ ctx_cells k h)) as Hvk.
  { intros q h. eapply valid_keys; [|exact Hv0]. rewrite !fmap_cons, !fmap_app. by rewrite (cells_fst q x t), (ctx_fst k h x). }
  destruct (focus_ptr _ _ _ _ _ _ Hv) as [Hx _].
  assert (valid (full k t)) as Hvt.
  { destruct (Hvk (par k) (ptr t)) as [Hn Hf]. rewrite fmap_cons in Hn, Hf.
    apply NoDup_cons in Hn as [_ Hn]. apply Forall_cons in Hf as [_ Hf]. by split. }
  split; [|done]. unfold erase_outer. eapply bind_step; [by apply focus_parent|]. eapply bind_step; [by apply focus_color|].
  rewrite state_focus by done. cbn [cells ptr app].
  eapply bind_step; [apply (reparent_at m0 [_]); [apply Hvk | done..]|].
  eapply bind_step.
  { apply (replace_child_at m0 ((x, cell_d d (par k) c 0 (ptr t)) :: cells (par k) t) k x (ptr t)); [apply Hvk | left]. }
  rewrite mret_eq. do 2 f_equal. unfold m1. apply (st_drop m0 x). apply Hvk.
Qed.

(** The leftmost node of the subtree at the focus. *)
Lemma go_left_spec l : ∀ fuel k c a r k' c' y t,
  split_min [] c l a r = (k', c', y, t) → valid (full k (T c l a r)) → (length (inorder l) ≤ fuel)%nat →
  go_left (S fuel) a (state m0 k (T c l a r)) = Ret (y, state m0 k (T c l a r)).
Proof.
  induction l as [|cl ll IH al rl _]; intros fuel k c a r k' c' y t Hs Hv Hf; cbn [go_left].
  - injection Hs as <- <- <- <-. eapply bind_step; [by apply (focus_get_near m0 true)|]. done.
  - eapply bind_step; [by apply (focus_get_near m0 true)|].
    destruct (focus_near m0 true _ _ _ _ _ Hv) as [E1 Hv1]. destruct (focus_ptr true _ _ _ _ _ Hv1) as [_ Ha].
    cbn [ptr]. rewrite (proj2 (Z.eqb_neq al 0) Ha). cbn [inorder] in Hf. rewrite length_app in Hf. simpl in Hf.
    destruct fuel as [|fuel]; [lia|]. change (node true c (T cl ll al rl) a r) with (T c (T cl ll al rl) a r) in E1 |- *. rewrite E1.
    cbn [split_min] in Hs. destruct (split_min_path ll [F true c a r] cl al rl _ _ _ _ Hs) as (k2 & Hs2 & _).
    apply (IH fuel _ _ _ _ _ _ _ _ Hs2 Hv1). lia.
Qed.

(** The cells of a part of a path, below the node [up]. *)
Fixpoint seg_cells (k : list frame) (up h : Z) : list (Z * rb_node) :=
  match k with
  | [] => []
  | f :: k =>
      (fa f, cell_d (fd f) (match k with [] => up | g :: _ => fa g end) (fc f) h (ptr (fs f))) ::
      cells (fa f) (fs f) ++ seg_cells k up (fa f)
  end.

Lemma ctx_cells_app k1 k2 : ∀ h, ctx_cells (k1 ++ k2) h = seg_cells k1 (par k2) h ++ ctx_cells k2 (top k1 h).
Proof.
  induction k1 as [|f k1 IH]; intros h; [done|]. cbn [app ctx_cells seg_cells top]. rewrite IH. app_norm.
  f_equal. destruct k1; done.
Qed.

Lemma top_app k1 k2 : ∀ h, top (k1 ++ k2) h = top k2 (top k1 h).
Proof. induction k1 as [|f k1 IH]; intros h; [done | apply IH]. Qed.

Lemma par_app k1 k2 : par (k1 ++ k2) = match k1 with [] => par k2 | f :: _ => fa f end.
Proof. by destruct k1. Qed.

Lemma seg_fst k : ∀ up up' h h', (seg_cells k up h).*1 = (seg_cells k up' h').*1.
Proof.
  induction k as [|f k IH]; intros up up' h h'; [done|]. cbn [seg_cells]. rewrite !fmap_cons, !fmap_app. by rewrite (IH up up' (fa f) (fa f)).
Qed.

(** The first node of the part gets a new parent. *)
Lemma seg_reparent k1 : ∀ L1 p q h L2 r,
  k1 ≠ [] → valid (L1 ++ seg_cells k1 p h ++ L2) → is_ptr p → is_ptr q →
  rb_set_parent (top k1 h) q (st m0 (L1 ++ seg_cells k1 p h ++ L2) r) = Ret (tt, st m0 (L1 ++ seg_cells k1 q h ++ L2) r).
Proof.
  induction k1 as [|f [|g k1] IH]; intros L1 p q h L2 r Hne Hv Hp Hq; [done | |].
  - cbn [seg_cells top] in *. rewrite app_nil_r in *. by apply set_parent_at.
  - change (top (f :: g :: k1) h) with (top (g :: k1) (fa f)).
    assert (∀ up, L1 ++ seg_cells (f :: g :: k1) up h ++ L2 =
      (L1 ++ (fa f, cell_d (fd f) (fa g) (fc f) h (ptr (fs f))) :: cells (fa f) (fs f)) ++ seg_cells (g :: k1) up (fa f) ++ L2) as E.
    { intros up. cbn [seg_cells]. by app_norm. }
    rewrite !E in *. by apply IH.
Qed.

(** The two states between which [erase_inner] moves: [x] is the node to remove, [y]
    its successor at the end of the path [k1], [t] the right child of [y]. *)
Definition inner_cells (k1 k : list frame) (l t : tree) (x y : Z) (nx ny : rb_node) (pl pt ps h hk : Z) : list (Z * rb_node) :=
  (x, nx) :: (y, ny) :: cells pl l ++ cells pt t ++ seg_cells k1 ps h ++ ctx_cells k hk.

Lemma inner_before k1 k c l x c' y t r :
  plug k1 (T c' E y t) = r →
  full k (T c l x r) ≡ₚ
  inner_cells k1 k l t x y (cell_d true (par k) c (ptr l) (top k1 y))
    (cell_d true (match k1 with [] => x | f :: _ => fa f end) c' 0 (ptr t)) x y x y x.
Proof.
  intros <-. pose proof (full_plug (F false c x l) k (plug k1 (T c' E y t))) as H1. unfold plug1 in H1. cbn [fd fc fa fs node] in H1.
  rewrite <- H1. transitivity (full (k1 ++ F false c x l :: k) (T c' E y t)).
  { rewrite full_plug_all, (full_plug_all (k1 ++ _)), plug_app. done. }
  unfold full, inner_cells. rewrite ctx_cells_app, par_app. cbn [cells par fa ptr ctx_cells fs app]. unfold frame_cell. cbn [fd fc fs].
  unfold cell_d. perm.
Qed.

Lemma inner_after k1 k c l y t nx x :
  (x, nx) :: full (k1 ++ F false c y l :: k) t ≡ₚ
  inner_cells k1 k l t x y nx (cell_d true (par k) c (ptr l) (top k1 (ptr t)))
    y (match k1 with [] => y | f :: _ => fa f end) y (ptr t) y.
Proof.
  unfold full, inner_cells. rewrite ctx_cells_app, par_app. cbn [par fa ctx_cells fs]. unfold frame_cell. cbn [fd fc fs].
  unfold cell_d. perm.
Qed.

Lemma inner_fst k1 k l t x y nx ny pl pt ps h hk nx' ny' pl' pt' ps' h' hk' :
  (inner_cells k1 k l t x y nx ny pl pt ps h hk).*1 = (inner_cells k1 k l t x y nx' ny' pl' pt' ps' h' hk').*1.
Proof.
  unfold inner_cells. rewrite !fmap_cons, !fmap_app.
  by rewrite (cells_fst pl pl'), (cells_fst pt pt'), (seg_fst k1 ps ps' h h'), (ctx_fst k hk hk').
Qed.

(** The part of [erase_inner] that moves [y] to the place of [x]. *)
Definition inner_move (x y child parent color : Z) : M rbs (Z * Z * Z) :=
  parent ← (if parent =? x then mret y
            else
              _ ← (if negb (child =? 0) then rb_set_parent child parent else mret tt);
              _ ← set_left parent child;
              oldr ← get_right x;
              _ ← set_right y oldr;
              _ ← rb_set_parent oldr y;
              mret parent);
  oldn ← load x;
  _ ← set_parent_color y (rb_parent_color oldn);
  _ ← set_left y (rb_left oldn);
  _ ← rb_set_parent (rb_left oldn) y;
  mret (child, parent, color).

Section Inner.
Context (k1 k : list frame) (c : color) (l : tree) (x : Z) (c' : color) (y : Z) (t : tree) (r0 : Z).
Context (Hleft : Forall (λ f, fd f = true) k1) (Hl : l ≠ E).
Context (Hvk : ∀ nx ny pl pt ps h hk, valid (inner_cells k1 k l t x y nx ny pl pt ps h hk)).

Let up := match k1 with [] => x | f :: _ => fa f end.
Let nx := cell_d true (par k) c (ptr l) (top k1 y).

Lemma inner_ptrs : is_ptr x ∧ is_ptr y ∧ is_ptr (par k) ∧ is_ptr up ∧ (k1 ≠ [] → up ≠ x).
Proof.
  pose proof (Hvk nx nx 0 0 0 0 0) as Hv. unfold inner_cells in Hv.
  destruct (valid_ptr _ x Hv) as [Hx _]; [left|]. destruct (valid_ptr _ y Hv) as [Hy _]; [right; left|]. split_and!; try done.
  - destruct k as [|f k']; [done|]. cbn [par].
    apply (valid_ptr _ (fa f) Hv). rewrite !fmap_cons, !fmap_app. do 2 right. do 3 (apply elem_of_app; right). left.
  - unfold up. destruct k1 as [|f k1']; [done|].
    apply (valid_ptr _ (fa f) Hv). rewrite !fmap_cons, !fmap_app. do 2 right. do 2 (apply elem_of_app; right). apply elem_of_app. left. left.
  - intros Hne. unfold up. destruct k1 as [|f k1']; [done|]. destruct Hv as [Hn _]. rewrite !fmap_cons, !fmap_app in Hn.
    apply NoDup_cons in Hn as [Hn _]. intros <-. apply Hn. right. do 2 (apply elem_of_app; right). apply elem_of_app. left. left.
Qed.

(** The last writes: [y] takes over the word and the left child of [x]. *)
Lemma inner_last (pt ps rt color parent child : Z) :
  (oldn ← load x;
   _ ← set_parent_color y (rb_parent_color oldn);
   _ ← set_left y (rb_left oldn);
   _ ← rb_set_parent (rb_left oldn) y;
   mret (child, parent, color))
    (st m0 (inner_cells k1 k l t x y nx (cell_d true up c' 0 rt) x pt ps (ptr t) y) r0) =
  Ret ((child, parent, color), st m0 (inner_cells k1 k l t x y nx (cell_d true (par k) c (ptr l) rt) y pt ps (ptr t) y) r0).
Proof.
  destruct inner_ptrs as (Hx & Hy & _ & _ & _).
  eapply bind_step; [apply (load_at m0 [] true x (par k) c (ptr l) (top k1 y)); apply Hvk|].
  cbn [cell_d cell rb_left rb_parent_color].
  eapply bind_step; [apply (update_at m0 [_]); apply Hvk|].
  eapply bind_step; [apply (update_at m0 [_]); apply Hvk|].
  assert (negb (ptr l =? 0) = true) as Hpl.
  { destruct (tree_node l) as [->|(cl & ln & a & lf & ->)]; [done|]. rewrite ptr_node.
    destruct (valid_ptr _ a (Hvk nx nx 0 0 0 0 0)) as [_ Ha]; [|by rewrite (proj2 (Z.eqb_neq a 0))].
    unfold inner_cells. rewrite !fmap_cons. do 2 right. rewrite fmap_app. apply elem_of_app. left. destruct lf; left. }
  eapply bind_step; [|reflexivity].
  pose proof (reparent_at m0 [(x, nx); (y, cell_d true (par k) c (ptr l) rt)] x y l
    (cells pt t ++ seg_cells k1 ps (ptr t) ++ ctx_cells k y) r0 (Hvk _ _ _ _ _ _ _) Hx Hy) as Hr.
  rewrite Hpl in Hr. exact Hr.
Qed.

Lemma inner_split ny pl pt ps h hk :
  inner_cells k1 k l t x y nx ny pl pt ps h hk =
  ((x, nx) :: (y, ny) :: cells pl l ++ cells pt t) ++ seg_cells k1 ps h ++ ctx_cells k hk.
Proof. unfold inner_cells. by app_norm. Qed.

(** The child of [y] goes to the last node of the path, whose left child it becomes. *)
Lemma inner_hole ny pt ps f k1' :
  k1 = f :: k1' →
  set_left (fa f) (ptr t) (st m0 (inner_cells k1 k l t x y nx ny x pt ps y y) r0) =
  Ret (tt, st m0 (inner_cells k1 k l t x y nx ny x pt ps (ptr t) y) r0).
Proof.
  intros E. pose proof (Hvk nx ny x pt ps y y) as Hv. rewrite inner_split in Hv.
  rewrite (inner_split ny x pt ps y y), (inner_split ny x pt ps (ptr t) y).
  assert (fd f = true) as Hfd by (rewrite E in Hleft; by inversion Hleft). rewrite E in Hv |- *. cbn [seg_cells] in *. rewrite Hfd in *.
  by apply (set_near_at m0 ((x, nx) :: (y, ny) :: cells x l ++ cells pt t) true).
Qed.

Lemma inner_move_spec color :
  inner_move x y (ptr t) up color (st m0 (inner_cells k1 k l t x y nx (cell_d true up c' 0 (ptr t)) x y x y y) r0) =
  let up' := match k1 with [] => y | f :: _ => fa f end in
  Ret ((ptr t, up', color),
       st m0 (inner_cells k1 k l t x y nx (cell_d true (par k) c (ptr l) (top k1 (ptr t))) y up' y (ptr t) y) r0).
Proof.
  destruct inner_ptrs as (Hx & Hy & Hp & Hu & Hux). unfold inner_move. cbv zeta.
  destruct (decide (k1 = [])) as [E|Hne].
  { pose proof (inner_last y y (ptr t) color y (ptr t)) as Hlast. unfold up. rewrite E, Z.eqb_refl.
    eapply bind_step; [reflexivity|]. unfold up in Hlast. rewrite E in Hlast. exact Hlast. }
  assert (∃ f k1', k1 = f :: k1') as (f & k1' & E) by (destruct k1; [done | eauto]).
  rewrite (proj2 (Z.eqb_neq up x)) by (by apply Hux).
  assert (match k1 with [] => y | f0 :: _ => fa f0 end = up) as -> by (unfold up; by rewrite E).
  assert (up = fa f) as Hup by (unfold up; by rewrite E).
  assert (∀ h h', top k1 h = top k1 h') as Htop by (intros; by rewrite E).
  eapply bind_step; [|exact (inner_last up y (top k1 (ptr t)) color up (ptr t))].
  eapply bind_step.
  { apply (reparent_at m0 ((x, nx) :: (y, cell_d true up c' 0 (ptr t)) :: cells x l) y up t); [apply Hvk | done..]. }
  eapply bind_step.
  { rewrite Hup at 1. exact (inner_hole (cell_d true up c' 0 (ptr t)) up x f k1' E). }
  eapply bind_step; [eapply (get_far m0 _ _ true x (par k) c (ptr l) (top k1 y)); [apply Hvk | left]|].
  eapply bind_step; [apply (set_far_at m0 [(x, nx)] true y up c' 0 (ptr t)); apply Hvk|].
  eapply bind_step; [|reflexivity]. rewrite (Htop (ptr t) y). cbn [app].
  fold (inner_cells k1 k l t x y nx (cell_d true up c' 0 (top k1 y)) x up x (ptr t) y).
  rewrite !inner_split. rewrite (Htop y (ptr t)). apply seg_reparent; [done | | done..].
  rewrite <- inner_split. apply Hvk.
Qed.
End Inner.

(** With two children, the successor takes the place of the node. *)
Lemma erase_inner_spec k c l x cr rl b rr k1 c' y t :
  let r := T cr rl b rr in
  valid (full k (T c l x r)) → l ≠ E → split_min [] cr rl b rr = (k1, c', y, t) →
  ∃ nx, let k' := k1 ++ F false c y l :: k in
    erase_inner x (state m0 k (T c l x r)) = Ret ((ptr t, par k', bit_of c'), state (<[x := nx]> m0) k' t) ∧
    valid (full k' t).
Proof.
  intros r. unfold r. clear r. intros Hv Hl Hs. destruct (split_min_spec _ _ _ _ _ _ _ _ _ Hs) as (k1' & Ek & Hleft & Hplug). rewrite app_nil_r in Ek. subst k1'.
  pose proof (inner_before k1 k c l x c' y t (T cr rl b rr) Hplug) as HL. pose proof (valid_perm _ _ HL Hv) as Hv0.
  assert (∀ nx ny pl pt ps h hk, valid (inner_cells k1 k l t x y nx ny pl pt ps h hk)) as Hvk.
  { intros. eapply valid_keys; [apply inner_fst | exact Hv0]. }
  set (nx := cell_d true (par k) c (ptr l) (top k1 y)) in *. set (up := match k1 with [] => x | f :: _ => fa f end) in *.
  exists nx. set (k' := k1 ++ F false c y l :: k). pose proof (inner_after k1 k c l y t nx x) as HL'. fold k' in HL'.
  assert (valid ((x, nx) :: full k' t)) as Hvx by (eapply valid_perm; [symmetry; exact HL' | apply Hvk]).
  assert (valid (full k' t)) as Hv'.
  { destruct Hvx as [Hn Hf]. rewrite fmap_cons in Hn, Hf. apply NoDup_cons in Hn as [_ ?]. apply Forall_cons in Hf as [_ ?]. by split. }
  split; [|done]. destruct (inner_ptrs k1 k c l x y t Hleft Hvk) as (Hx & Hy & Hp & Hu & _).
  unfold erase_inner. eapply bind_step; [by apply (focus_get_far m0 true)|]. eapply bind_step; [reflexivity|].
  change (node true c l x (T cr rl b rr)) with (T c l x (T cr rl b rr)). destruct (focus_far m0 true _ _ _ _ _ Hv) as [E1 Hv1]. cbn [negb] in E1, Hv1.
  change (node true c l x (T cr rl b rr)) with (T c l x (T cr rl b rr)) in E1. cbn [ptr]. rewrite E1.
  eapply bind_step.
  { apply (go_left_spec rl _ _ _ _ _ _ _ _ _ Hs Hv1).
    pose proof (fuel_enough m0 _ (top (F false c x l :: k) (ptr (T cr rl b rr))) Hv1) as Hz. pose proof (Permutation_length (full_keys (F false c x l ::k) (T cr rl b rr))) as Hlen.
    rewrite length_fmap in Hlen. rewrite inorder_plug in Hlen. cbn [inorder] in Hlen. rewrite !length_app in Hlen.
    unfold state. simpl in *. lia. }
  rewrite <- E1. eapply bind_step; [by apply (focus_parent m0 true)|]. change (node true c l x (T cr rl b rr)) with (T c l x (T cr rl b rr)).
  unfold state at 1. rewrite (st_perm m0 _ _ _ Hv HL). cbn [ptr].
  eapply bind_step.
  { pose proof (replace_child_at m0 ((x, nx) :: (y, cell_d true up c' 0 (ptr t)) :: cells x l ++ cells y t ++ seg_cells k1 x y) k x y) as Hr.
    rewrite <- !app_comm_cons, <- !app_assoc in Hr. apply Hr; [apply Hvk | left]. }
  match goal with |- _ (st m0 ?L _) = _ =>
    replace L with (inner_cells k1 k l t x y nx (cell_d true up c' 0 (ptr t)) x y x y y) by (unfold inner_cells; by app_norm) end.
  eapply bind_step; [eapply (get_far m0 _ _ true y); [apply Hvk | right; left]|].
  eapply bind_step; [eapply (rb_parent_in m0 _ _ true y); [apply Hvk | exact Hu | right; left]|].
  eapply bind_step; [eapply (rb_color_in m0 _ _ true y); [apply Hvk | exact Hu | right; left]|].
  change (inner_move x y (ptr t) up (bit_of c') (st m0 (inner_cells k1 k l t x y nx (cell_d true up c' 0 (ptr t)) x y x y y) (top k y)) =
    Ret ((ptr t, par k', bit_of c'), state (<[x := nx]> m0) k' t)).
  rewrite (inner_move_spec k1 k c l x c' y t (top k y) Hleft Hl Hvk). cbv zeta. rewrite <- (st_perm m0 _ _ _ Hvx HL'), st_drop by done.
  unfold state, k'. rewrite par_app, top_app. done.
Qed.

End Unlink.

(** The repair after a node of colour [c] was unlinked. *)
Lemma erase_end m1 c n k t :
  valid (full k t) → cok c n k → rbt c n (T c E 0 t) ∨ rbt c n (T c t 0 E) →
  let res := match c with Black => del_fix k t | Red => plug k t end in
  (if bit_of c =? RB_BLACK then rb_erase_color (ptr t) (par k) else mret tt) (state m1 k t) = Ret (tt, state m1 [] res) ∧
  valid (full [] res).
Proof.
  intros Hv Hk Ht res. unfold res. destruct c; cbn.
  - destruct (state_plug m1 k t Hv) as [-> Hv']. done.
  - destruct Ht as [Ht|Ht]; inversion Ht; subst; (eapply erase_color_spec; [done | by eapply short_rbt | done]).
Qed.

Lemma rb_erase_spec m0 k c l x r :
  valid (full k (T c l x r)) → rb_tree (plug k (T c l x r)) →
  ∃ nx, rb_erase x (state m0 k (T c l x r)) = Ret (tt, state (<[x := nx]> m0) [] (remove k c l r)) ∧
    valid (full [] (remove k c l r)).
Proof.
  intros Hv Hrb. destruct (rbt_unplug _ _ Hrb) as (c0 & n & Hk & Ht). assert (c0 = c) as -> by (by inversion Ht).
  assert (∀ t, t ≠ E → valid (full k (T c t x E)) ∨ (∃ k', valid (full k' t)) → ptr t ≠ 0) as Hptr.
  { intros t Hne Hv0. destruct (tree_node t) as [->|(ct & tn & a & tf & ->)]; [done|]. rewrite ptr_node. destruct Hv0 as [Hv0|[k' Hv0]].
    - destruct (focus_near m0 true _ _ _ _ _ Hv0) as [_ Hv1]. by apply (focus_ptr _ _ _ _ _ _ Hv1).
    - by apply (focus_ptr _ _ _ _ _ _ Hv0). }
  destruct (focus_near m0 true _ _ _ _ _ Hv) as [_ Hvl]. destruct (focus_far m0 true _ _ _ _ _ Hv) as [_ Hvr].
  unfold rb_erase, remove. rewrite (bind_Ret _ _ _ _ _ (focus_get_near m0 true k c l x r Hv)). change (node true c l x r) with (T c l x r).
  destruct l as [|cl ll al rl].
  - cbn [ptr Z.eqb]. destruct (erase_outer_spec m0 true k c x r Hv) as [E1 Hv1].
    destruct (erase_end (<[x := cell_d true (par k) c 0 (ptr r)]> m0) c n k r Hv1 Hk) as [E2 Hv2].
    { left. inversion Ht; subst; eauto with rbtree. }
    eexists. split; [|exact Hv2].
    eapply bind_step; [eapply bind_step; [exact (focus_get_far m0 true k c E x r Hv) | exact E1] | exact E2].
  - set (l := T cl ll al rl) in *. rewrite (proj2 (Z.eqb_neq (ptr l) 0)) by (apply Hptr; [done | eauto]).
    destruct r as [|cr rl' b rr].
    + destruct (erase_outer_spec m0 false k c x l Hv) as [E1 Hv1].
      destruct (erase_end (<[x := cell_d false (par k) c 0 (ptr l)]> m0) c n k l Hv1 Hk) as [E2 Hv2].
      { right. inversion Ht; subst; eauto with rbtree. }
      eexists. split; [|exact Hv2]. eapply bind_step.
      { eapply bind_step; [exact (focus_get_far m0 true k c l x E Hv)|].
        eapply bind_step; [exact (focus_get_near m0 true k c l x E Hv) | exact E1]. }
      exact E2.
    + destruct (split_min [] cr rl' b rr) as [[[k1 c'] y] t] eqn:Hs.
      destruct (erase_inner_spec m0 k c l x cr rl' b rr k1 c' y t Hv ltac:(done) Hs) as (nx & E1 & Hv1).
      destruct (split_min_spec _ _ _ _ _ _ _ _ _ Hs) as (k1' & Ek & _ & Hp). rewrite app_nil_r in Ek. subst k1'.
      assert (rb_tree (plug (k1 ++ F false c x l :: k) (T c' E y t))) as Hw by (by rewrite plug_app, Hp).
      destruct (rbt_unplug _ _ Hw) as (cy & m & Hky & Hy). assert (cy = c') as -> by (by inversion Hy).
      destruct (erase_end (<[x := nx]> m0) c' m (k1 ++ F false c y l :: k) t Hv1) as [E2 Hv2].
      { by eapply cok_rename. } { left. inversion Hy; subst; eauto with rbtree. }
      exists nx. split; [|exact Hv2]. eapply bind_step.
      { eapply bind_step; [exact (focus_get_far m0 true k c l x (T cr rl' b rr) Hv)|].
        rewrite (proj2 (Z.eqb_neq (ptr (T cr rl' b rr)) 0)) by (apply Hptr; [done | eauto]). exact E1. }
      exact E2.
Qed.
