(* ===== verification/RbIter.v ===== *)
(** * Red-black trees: traversal and replacement

    [rb_first], [rb_last], [rb_next] and [rb_prev] of lib/rbtree.c follow the order of
    the tree, so the loop of the macro [rb_for_each] visits every node once;
    [rb_replace_node] exchanges one node for another. *)

From S2P Require Import Prelude Bits RbTree RbSpec RbCells RbRotate RbInsert RbErase.

#[local] Open Scope Z_scope.

(** [for (pos = rb_first(root); pos; pos = rb_next(pos))]: the nodes visited. *)
Fixpoint rb_walk (fuel : nat) (pos : Z) : M rbs (list Z) :=
  match fuel with
  | O => undef
  | S fuel =>
      if pos =? 0 then mret []
      else next ← rb_next pos; rest ← rb_walk fuel next; mret (pos :: rest)
  end.

Definition rb_for_each : M rbs (list Z) := fuel ← tree_fuel; pos ← rb_first; rb_walk fuel pos.

(** A node of the order is a node of the tree. *)
Lemma inorder_split t : ∀ l1 x l2,
  inorder t = l1 ++ x :: l2 →
  ∃ k c l r, t = plug k (T c l x r) ∧ l1 = before k ++ inorder l ∧ l2 = inorder r ++ after k.
Proof.
  induction t as [|c l IHl a r IHr]; intros l1 x l2 H; [by destruct l1|].
  cbn [inorder] in H. apply app_eq_app in H as (m & [[H1 H2]|[H1 H2]]).
  - destruct m as [|b m]; simpl in H2.
    + injection H2 as -> ->. exists [], c, l, r. rewrite app_nil_r in H1. subst. by rewrite app_nil_r.
    + injection H2 as -> ->. destruct (IHl _ _ _ H1) as (k & c' & l' & r' & -> & -> & ->).
      exists (k ++ [F true c a r]), c', l', r'. rewrite plug_app, before_app, after_app. cbn. by rewrite !app_nil_r, <- app_assoc.
  - destruct m as [|b m]; simpl in H2.
    + injection H2 as -> <-. exists [], c, l, r. rewrite app_nil_r in H1. subst. by rewrite app_nil_r.
    + injection H2 as -> H2. destruct (IHr _ _ _ H2) as (k & c' & l' & r' & -> & -> & ->).
      exists (k ++ [F false c b l]), c', l', r'. rewrite plug_app, before_app, after_app. cbn. rewrite !app_nil_r.
      split_and!; [done | subst; by app_norm | done].
Qed.

(** The node at the end of side [d]. *)
Fixpoint extreme (d : bool) (t : tree) : Z :=
  match t with
  | E => 0
  | T _ l a r => match (if d then l else r) with E => a | _ => extreme d (if d then l else r) end
  end.

Lemma extreme_node d c n a f : extreme d (node d c n a f) = match n with E => a | _ => extreme d n end.
Proof. by destruct d. Qed.

Lemma extreme_first t : extreme true t = hd 0 (inorder t).
Proof.
  induction t as [|c l IHl a r _]; [done|]. cbn [extreme inorder]. destruct l as [|cl ll al rl]; [done|]. rewrite IHl.
  destruct (inorder (T cl ll al rl)) eqn:E; [|done]. cbn in E. by destruct (inorder ll).
Qed.

Lemma extreme_last t : extreme false t = default 0 (last (inorder t)).
Proof.
  induction t as [|c l _ a r IHr]; [done|]. cbn [extreme inorder]. rewrite last_app_cons.
  destruct r as [|cr lr ar rr]; [done|]. rewrite IHr. rewrite last_cons.
  destruct (last (inorder (T cr lr ar rr))) eqn:E; [done|]. apply last_None in E. cbn in E. by destruct (inorder lr).
Qed.

(** No node is its own parent. *)
Lemma focus_not_parent d k c n x f : valid (full k (node d c n x f)) → par k ≠ x.
Proof.
  intros Hv. pose proof (valid_focus _ _ _ _ _ _ Hv) as Hv0. intros Hpx. destruct k as [|g k]; cbn [par] in Hpx.
  - destruct (valid_ptr _ x Hv0) as [_ ?]; [left | congruence].
  - destruct Hv0 as [Hn _]. rewrite fmap_cons in Hn. apply NoDup_cons in Hn as [Hn _]. apply Hn.
    rewrite !fmap_app. apply elem_of_app. right. apply elem_of_app. right. rewrite <- Hpx. left.
Qed.

Section Iter.
Context (m0 : gmap Z rb_node).

(** The walk down one side. *)
Definition go (d : bool) : nat → Z → M rbs Z := if d then go_left else go_right.

Lemma go_eq d fuel a : go d (S fuel) a = (n ← get_ch d a; if n =? 0 then mret a else go d fuel n).
Proof. by destruct d. Qed.

Lemma go_spec d t : ∀ fuel k,
  valid (full k t) → t ≠ E → (length (inorder t) ≤ fuel)%nat →
  go d fuel (ptr t) (state m0 k t) = Ret (extreme d t, state m0 k t).
Proof.
  induction t as [t IH] using (induction_ltof1 _ (λ t, length (inorder t))). unfold ltof in IH. intros fuel k Hv Hne Hf.
  destruct (sides d t) as [[[[c n] a] f]|] eqn:Hs; [|by destruct t, d]. apply sides_Some in Hs as ->.
  assert (length (inorder n) < length (inorder (node d c n a f)))%nat as Hlt
    by (rewrite inorder_node; destruct d; rewrite length_app; simpl; lia).
  destruct fuel as [|fuel]; [lia|]. rewrite go_eq, extreme_node, ptr_node.
  eapply bind_step; [by apply focus_get_near|].
  destruct (tree_node n) as [->|(cn & nn & b & nf & En)]; [done|].
  destruct (focus_near m0 _ _ _ _ _ _ Hv) as [E1 Hv1].
  assert (ptr n ≠ 0) as Hb by (rewrite En in Hv1 |- *; rewrite ptr_node; by apply (focus_ptr _ _ _ _ _ _ Hv1)).
  rewrite (proj2 (Z.eqb_neq _ _) Hb). rewrite E1, (IH n Hlt fuel _ Hv1) by (lia || (rewrite En; done)).
  by rewrite En.
Qed.

(** The walk up from side [negb d]. *)
Definition climb (d : bool) : nat → Z → M rbs Z := if d then climb_right else climb_left.

Lemma climb_eq d fuel x :
  climb d (S fuel) x =
  (parent ← rb_parent x;
   if parent =? 0 then mret parent
   else pr ← get_ch (negb d) parent; if x =? pr then climb d fuel parent else mret parent).
Proof. by destruct d. Qed.

(** The first node above, on side [d]. *)
Fixpoint above (d : bool) (k : list frame) : Z :=
  match k with [] => 0 | f :: k => if Bool.eqb (fd f) d then fa f else above d k end.

Lemma above_next k : above true k = hd 0 (after k).
Proof. induction k as [|f k IH]; [done|]. cbn. by destruct (fd f). Qed.

Lemma above_prev k : above false k = default 0 (last (before k)).
Proof.
  induction k as [|f k IH]; [done|]. cbn. destruct (fd f); [by rewrite app_nil_r|]. cbn. by rewrite app_assoc, last_snoc.
Qed.

Lemma climb_spec d k : ∀ fuel t,
  valid (full k t) → t ≠ E → (length k < fuel)%nat →
  climb d fuel (ptr t) (state m0 k t) = Ret (above d k, state m0 k t).
Proof.
  induction k as [|f k IH]; intros [|fuel] t Hv Hne Hf; try (simpl in Hf; lia);
    destruct (tree_node t) as [->|(c & n & a & b & ->)]; try done; rewrite climb_eq, ptr_node;
    (eapply bind_step; [by apply focus_parent|]); [done|]. cbn [par].
  destruct (focus_up m0 _ _ _ Hv) as [E1 Hv1]. destruct (focus_ptr (fd f) _ _ _ _ _ Hv1) as [_ Hfa].
  rewrite (proj2 (Z.eqb_neq _ _) Hfa), E1. set (t := node true c n a b) in *.
  assert (ptr t ≠ ptr (fs f)) as Hd by (eapply siblings_differ; [exact Hv1 | done]). unfold t in Hd. rewrite ptr_node in Hd. fold t in Hd.
  cbn [above]. destruct (Bool.eqb (fd f) d) eqn:Ed.
  - apply Bool.eqb_prop in Ed as <-. eapply bind_step; [by apply (focus_get_far m0 (fd f))|]. by rewrite (proj2 (Z.eqb_neq _ _) Hd).
  - assert (d = negb (fd f)) as -> by (by destruct d, (fd f)). rewrite negb_involutive.
    eapply bind_step; [by apply (focus_get_near m0 (fd f))|]. unfold t at 1. rewrite ptr_node, Z.eqb_refl.
    pose proof (IH fuel (plug1 f t) Hv1) as Hrec. rewrite ptr_plug1 in Hrec. apply Hrec; [by destruct f as [[]] | simpl in Hf; lia].
Qed.
End Iter.

Section Order.
Context (m0 : gmap Z rb_node) (t : tree) (s : rbs) (Hs : holds m0 t s).

Lemma order_fuel : (length (inorder t) ≤ size (nodes s))%nat.
Proof.
  destruct Hs as [-> Hv]. pose proof (fuel_enough m0 _ (top [] (ptr t)) Hv) as Hz.
  pose proof (Permutation_length (full_keys [] t)) as Hl. rewrite length_fmap in Hl. unfold state. simpl in Hl. lia.
Qed.

Lemma order_ptr x : x ∈ inorder t → is_ptr x ∧ x ≠ 0.
Proof. intros Hx. destruct Hs as [_ Hv]. apply (valid_ptr _ x Hv). by rewrite full_keys. Qed.

Lemma rb_edge_spec d :
  (n ← gets root; if n =? 0 then mret 0 else fuel ← tree_fuel; go d fuel n) s = Ret (extreme d t, s).
Proof.
  pose proof order_fuel as Hf. destruct Hs as [-> Hv]. eapply bind_step; [reflexivity|]. cbn [root state st top].
  destruct (tree_node t) as [->|(c & n & a & f & E0)]; [done|].
  assert (ptr t ≠ 0) as Hp by (rewrite E0 in Hv |- *; rewrite ptr_node; by apply (focus_ptr _ _ _ _ _ _ Hv)).
  rewrite (proj2 (Z.eqb_neq _ _) Hp). eapply bind_step; [reflexivity|]. apply go_spec; [done | by rewrite E0 | simpl in *; lia].
Qed.

Lemma rb_first_spec : rb_first s = Ret (hd 0 (inorder t), s).
Proof. rewrite <- extreme_first. exact (rb_edge_spec true). Qed.

Lemma rb_last_spec : rb_last s = Ret (default 0 (last (inorder t)), s).
Proof. rewrite <- extreme_last. exact (rb_edge_spec false). Qed.

(** The neighbour of a node on side [negb d]: below it, or the first one above. *)
Lemma rb_neighbour_spec d k c n x f :
  t = plug k (node d c n x f) →
  (p ← rb_parent x;
   if p =? x then mret 0
   else fuel ← tree_fuel; r ← get_ch (negb d) x; if negb (r =? 0) then go d fuel r else climb d fuel x) s =
  Ret (match f with E => above d k | _ => extreme d f end, s).
Proof.
  intros Et. pose proof order_fuel as Hf. pose proof Hs as Hs'. rewrite Et in Hs'. destruct (holds_state _ _ _ _ Hs') as [-> Hv].
  eapply bind_step; [by apply focus_parent|].
  pose proof (focus_not_parent _ _ _ _ _ _ Hv) as Hpx.
  rewrite (proj2 (Z.eqb_neq _ _) Hpx). eapply bind_step; [reflexivity|]. eapply bind_step; [by apply focus_get_far|].
  pose proof (ctx_fuel m0 _ _ Hv) as Hc.
  destruct (tree_node f) as [->|(cf & fn & b & ff & Ef)].
  - cbn [ptr Z.eqb negb]. pose proof (λ fuel, climb_spec m0 d k fuel (node d c n x E) Hv) as Hcl. rewrite ptr_node in Hcl.
    apply Hcl; [by destruct d | lia].
  - destruct (focus_far m0 _ _ _ _ _ _ Hv) as [E1 Hv1].
    assert (ptr f ≠ 0) as Hp by (rewrite Ef in Hv1 |- *; rewrite ptr_node; by apply (focus_ptr _ _ _ _ _ _ Hv1)).
    rewrite (proj2 (Z.eqb_neq _ _) Hp). cbn [negb]. rewrite E1, go_spec; [by rewrite Ef | done | by rewrite Ef |].
    rewrite Et, inorder_plug, !length_app, inorder_node in Hf.
    rewrite <- E1. destruct d; rewrite length_app in Hf; cbn [length] in Hf; lia.
Qed.

Lemma rb_next_spec l1 x l2 : inorder t = l1 ++ x :: l2 → rb_next x s = Ret (hd 0 l2, s).
Proof.
  intros Hin. destruct (inorder_split t _ _ _ Hin) as (k & c & l & r & Et & _ & ->).
  rewrite (rb_neighbour_spec true k c l x r Et : rb_next x s = _), above_next, extreme_first. destruct r as [|cr lr ar rr]; [done|].
  destruct (inorder (T cr lr ar rr)) eqn:E0; [|done]. cbn in E0. by destruct (inorder lr).
Qed.

Lemma rb_prev_spec l1 x l2 : inorder t = l1 ++ x :: l2 → rb_prev x s = Ret (default 0 (last l1), s).
Proof.
  intros Hin. destruct (inorder_split t _ _ _ Hin) as (k & c & l & r & Et & -> & _).
  rewrite (rb_neighbour_spec false k c r x l Et : rb_prev x s = _), above_prev, extreme_last.
  destruct l as [|cl ll al rl]; [by rewrite app_nil_r|]. rewrite last_app.
  destruct (last (inorder (T cl ll al rl))) eqn:E0; [done|]. apply last_None in E0. cbn in E0. by destruct (inorder ll).
Qed.

(** A node of the tree does not look unlinked. *)
Lemma rb_empty_node_spec x : x ∈ inorder t → rb_empty_node x s = Ret (false, s).
Proof.
  intros Hx. apply list_elem_of_split in Hx as (l1 & l2 & Hin). destruct (inorder_split t _ _ _ Hin) as (k & c & l & r & Et & _ & _).
  rewrite Et in Hs. destruct (holds_state _ _ _ _ Hs) as [Es Hv]. clear Hs. subst s.
  pose proof (focus_not_parent true _ _ _ _ _ Hv) as Hpx. pose proof (focus_parent m0 true _ _ _ _ _ Hv) as Hp.
  destruct (focus_ptr true _ _ _ _ _ Hv) as [Hxp _]. destruct (mask_ptr x 0 Hxp ltac:(lia)) as [Em _]. rewrite Z.add_0_r in Em.
  unfold rb_parent in Hp. cbn [node] in Hp. apply bind_Ret_inv in Hp as (nd & s' & El & Hret). cbn in Hret. injection Hret as Hland ->.
  unfold rb_empty_node. eapply bind_step; [exact El|]. rewrite (proj2 (Z.eqb_neq _ _)); [done|]. intros Hc. rewrite Hc, Em in Hland. congruence.
Qed.

Lemma rb_walk_spec l2 : ∀ fuel l1, inorder t = l1 ++ l2 → (length l2 < fuel)%nat → rb_walk fuel (hd 0 l2) s = Ret (l2, s).
Proof.
  induction l2 as [|x l2 IH]; intros [|fuel] l1 Hin Hf; simpl in Hf; try lia; cbn [rb_walk hd]; [done|].
  destruct (order_ptr x) as [_ Hx]; [rewrite Hin; apply elem_of_app; right; left|]. rewrite (proj2 (Z.eqb_neq _ _) Hx).
  eapply bind_step; [by eapply rb_next_spec|].
  eapply bind_step; [apply (IH fuel (l1 ++ [x])); [by app_norm | lia] | done].
Qed.
End Order.

(** The traversal of a tree with [rb_first] and [rb_next] ends and visits exactly
    its nodes, each once and in order. *)
Theorem rb_for_each_inorder m0 t s : holds m0 t s → rb_for_each s = Ret (inorder t, s).
Proof.
  intros Hs. eapply bind_step; [reflexivity|]. eapply bind_step; [by eapply rb_first_spec|].
  apply (rb_walk_spec m0 t s Hs _ _ []); [done|]. pose proof (order_fuel m0 t s Hs). lia.
Qed.

(** Going forward and back again, or back and forward, returns to the same node. *)
Theorem rb_next_prev_inverse m0 t s x y l1 l2 :
  holds m0 t s → inorder t = l1 ++ x :: y :: l2 →
  (n ← rb_next x; rb_prev n) s = Ret (x, s) ∧ (p ← rb_prev y; rb_next p) s = Ret (y, s).
Proof.
  intros Hs Hin. assert (inorder t = (l1 ++ [x]) ++ y :: l2) as Hin' by (rewrite Hin; by app_norm).
  assert (rb_prev y s = Ret (x, s)) as Hp by (rewrite (rb_prev_spec m0 t s Hs _ y l2 Hin'); by rewrite last_snoc).
  assert (rb_next x s = Ret (y, s)) as Hn by apply (rb_next_spec m0 t s Hs l1 x (y :: l2) Hin).
  split; (eapply bind_step; [eassumption | done]).
Qed.

(** ** Insertion and deletion *)

(** C16: Insertion into a red-black tree: linking a node at an empty place of the tree
    and rebalancing terminates, leaves a red-black tree that has the new node at that
    place in the order and all others as before, touches no node outside the tree,
    and the depth stays at most twice the logarithm of the number of nodes. *)
Theorem rb_insert_correct m0 k x n0 s :
  holds m0 (plug k E) s → rb_tree (plug k E) →
  m0 !! x = Some n0 → is_ptr x → x ≠ 0 → x ∉ inorder (plug k E) →
  ∃ s' t', (_ ← rb_link_node x (par k) (hole k); rb_insert_color x) s = Ret (tt, s') ∧
    holds (delete x m0) t' s' ∧ rb_tree t' ∧ inorder t' = before k ++ [x] ++ after k ∧
    (2 ^ height t' ≤ S (length (inorder t')) * S (length (inorder t')))%nat.
Proof.
  intros Hs Hrb Hx Hp H0 Hn. destruct (rb_insert_spec m0 k x n0 s Hs Hrb Hx Hp H0 Hn) as (s' & t' & E1 & Hs' & Hrb' & Hin).
  exists s', t'. split_and!; try done. by apply rb_tree_height.
Qed.

Lemma rb_erase_inorder m0 t s l1 x l2 :
  holds m0 t s → rb_tree t → inorder t = l1 ++ x :: l2 →
  ∃ s' t' nx, rb_erase x s = Ret (tt, s') ∧ holds (<[x := nx]> m0) t' s' ∧ rb_tree t' ∧ inorder t' = l1 ++ l2.
Proof.
  intros Hs Hrb Hin. destruct (inorder_split t _ _ _ Hin) as (k & c & l & r & -> & -> & ->).
  destruct (holds_state _ _ _ _ Hs) as [-> Hv]. destruct (rb_erase_spec m0 k c l x r Hv Hrb) as (nx & E1 & Hv').
  destruct (remove_ok k c l x r Hrb) as [Hrb' Hr]. rewrite <- !app_assoc in *.
  exists (state (<[x := nx]> m0) [] (remove k c l r)), (remove k c l r), nx. by split_and!.
Qed.

(** C17: Deletion of any node of a red-black tree terminates, leaves a red-black tree of
    the other nodes in the same order, and touches no node outside the tree. *)
Theorem rb_erase_correct m0 t s l1 x l2 :
  holds m0 t s → rb_tree t → inorder t = l1 ++ x :: l2 →
  ∃ s' t' nx, rb_erase x s = Ret (tt, s') ∧ holds (<[x := nx]> m0) t' s' ∧ rb_tree t' ∧ inorder t' = l1 ++ l2 ∧
    (2 ^ height t' ≤ S (length (inorder t')) * S (length (inorder t')))%nat.
Proof.
  intros Hs Hrb Hin. destruct (rb_erase_inorder m0 t s l1 x l2 Hs Hrb Hin) as (s' & t' & nx & E1 & Hs' & Hrb' & Ho).
  exists s', t', nx. split_and!; try done. by apply rb_tree_height.
Qed.

(** ** Replacement *)

(** [rb_replace_node] puts a node that was outside the tree in the place of another
    one, with its colour, and leaves the rest of the tree as it was. *)
Theorem rb_replace_node_correct m0 k c l x r new n0 s :
  holds m0 (plug k (T c l x r)) s → m0 !! new = Some n0 → is_ptr new → new ≠ 0 →
  new ∉ inorder (plug k (T c l x r)) →
  ∃ nx s', rb_replace_node x new s = Ret (tt, s') ∧ holds (<[x := nx]> (delete new m0)) (plug k (T c l new r)) s'.
Proof.
  intros Hs Hn Hp H0 Hnew. destruct (holds_state _ _ _ _ Hs) as [-> Hv]. pose proof (focus_par true _ _ _ _ _ Hv) as Hpar.
  set (nx := cell_d true (par k) c (ptr l) (ptr r)). set (m1 := delete new m0).
  pose proof (valid_focus true _ _ _ _ _ Hv) as Hv0. destruct (focus_ptr true _ _ _ _ _ Hv) as [Hxp _].
  assert (∀ n1 n2 pl pr h, valid ((x, n1) :: (new, n2) :: cells pl l ++ cells pr r ++ ctx_cells k h)) as Hvk.
  { intros n1 n2 pl pr h. apply (valid_perm ((new, n2) :: (x, n1) :: cells pl l ++ cells pr r ++ ctx_cells k h)); [perm|].
    eapply (valid_keys ((new, n2) :: (x, n1) :: cells x l ++ cells x r ++ ctx_cells k x)).
    { rewrite !fmap_cons, !fmap_app. by rewrite (cells_fst pl x l), (cells_fst pr x r), (ctx_fst k h x). }
    destruct Hv0 as [Hnd Hf]. split; rewrite fmap_cons; constructor; try done. rewrite <- full_keys in Hnew.
    intros Hin. apply Hnew. change (T c l x r) with (node true c l x r). rewrite full_node. exact Hin. }
  assert (state m0 k (T c l x r) = st m1 ((x, nx) :: (new, n0) :: cells x l ++ cells x r ++ ctx_cells k x) (top k x)) as ->.
  { change (T c l x r) with (node true c l x r). rewrite state_focus by done. fold nx.
    destruct (st_take m0 new n0 ((x, nx) :: cells x l ++ cells x r ++ ctx_cells k x) (top k x) Hn) as [->|Hin].
    - symmetry. apply st_perm; [apply Hvk|]. perm.
    - exfalso. apply Hnew. rewrite <- full_keys. change (T c l x r) with (node true c l x r). rewrite full_node. exact Hin. }
  exists nx. eexists. split.
  - unfold rb_replace_node. eapply bind_step; [eapply (rb_parent_in m1 _ _ true x); [apply Hvk | exact Hpar | left]|].
    eapply bind_step.
    { pose proof (relink_at m1 true ((x, nx) :: (new, n0) :: cells x l ++ cells x r) k x new) as Hr.
      rewrite <- !app_comm_cons, <- !app_assoc in Hr. apply Hr; [apply Hvk | left]. }
    eapply bind_step; [eapply (get_near m1 _ _ true x); [apply Hvk | left]|].
    eapply bind_step.
    { transitivity ((if negb (ptr l =? 0) then rb_set_parent (ptr l) new else mret tt)
        (st m1 ([(x, nx); (new, n0)] ++ cells x l ++ cells x r ++ ctx_cells k new) (top k new))).
      - destruct (negb (ptr l =? 0)); [|done]. eapply bind_step; [eapply (get_near m1 _ _ true x); [apply Hvk | left] | done].
      - apply reparent_at; [apply Hvk | done..]. }
    eapply bind_step; [eapply (get_far m1 _ _ true x); [apply Hvk | left]|].
    eapply bind_step.
    { transitivity ((if negb (ptr r =? 0) then rb_set_parent (ptr r) new else mret tt)
        (st m1 (((x, nx) :: (new, n0) :: cells new l) ++ cells x r ++ ctx_cells k new) (top k new))).
      - destruct (negb (ptr r =? 0)); [|done]. eapply bind_step; [eapply (get_far m1 _ _ true x); [apply Hvk | left] | done].
      - apply reparent_at; [apply Hvk | done..]. }
    eapply bind_step; [apply (load_at m1 [] true x (par k) c (ptr l) (ptr r)); apply Hvk|].
    apply (update_at m1 [(x, nx)]). apply Hvk.
  - cbn [app]. rewrite st_drop by apply Hvk.
    assert (valid (full k (node true c l new r))) as Hv'.
    { eapply valid_perm; [symmetry; apply full_node|].
      destruct (Hvk nx nx new new new) as [Hnd Hf]. rewrite fmap_cons in Hnd, Hf. apply NoDup_cons in Hnd as [_ ?].
      apply Forall_cons in Hf as [_ ?]. by split. }
    rewrite <- (state_focus (<[x := nx]> m1) true k c l new r Hv').
    split; [by apply refocus_all | by eapply valid_perm; [apply full_plug_all|]].
Qed.

(** ** A tree of three nodes, and a fourth node outside *)

Definition ex_tree : tree := T Black (T Red E 8 E) 16 (T Red E 24 E).
Definition ex_free : gmap Z rb_node := {[32 := {| rb_parent_color := 0; rb_right := 0; rb_left := 0 |}]}.
Definition ex_state : rbs := state ex_free [] ex_tree.

Lemma ex_holds : holds ex_free ex_tree ex_state.
Proof. split; [done|]. split; [|by repeat constructor]. apply (bool_decide_unpack _). reflexivity. Qed.

Lemma ex_rb : rb_tree ex_tree.
Proof. repeat econstructor. Qed.

Lemma ex_new x : x = 32 → is_ptr x ∧ x ≠ 0 ∧ x ∉ inorder ex_tree.
Proof. intros ->. cbn. split_and!; [done..|]. set_solver. Qed.

Lemma rb_for_each_inorder_witness : rb_for_each ex_state = Ret ([8; 16; 24], ex_state).
Proof. exact (rb_for_each_inorder ex_free ex_tree ex_state ex_holds). Defined.

Lemma rb_next_prev_inverse_witness :
  (n ← rb_next 8; rb_prev n) ex_state = Ret (8, ex_state) ∧ (p ← rb_prev 16; rb_next p) ex_state = Ret (16, ex_state).
Proof. exact (rb_next_prev_inverse ex_free ex_tree ex_state 8 16 [] [24] ex_holds eq_refl). Defined.

(** The place right of [24]. *)
Definition ex_place : list frame := [F false Red 24 E; F false Black 16 (T Red E 8 E)].

Lemma rb_insert_correct_witness :
  ∃ s' t', (_ ← rb_link_node 32 24 (AtRight 24); rb_insert_color 32) ex_state = Ret (tt, s') ∧
    rb_tree t' ∧ inorder t' = [8; 16; 24; 32].
Proof.
  destruct (ex_new 32 eq_refl) as (Hp & H0 & Hn).
  destruct (rb_insert_correct ex_free ex_place 32 _ ex_state ex_holds ex_rb eq_refl Hp H0 Hn) as (s' & t' & E1 & _ & Hrb & Hin & _).
  by exists s', t'.
Defined.

Lemma rb_erase_correct_witness :
  ∃ s' t', rb_erase 16 ex_state = Ret (tt, s') ∧ rb_tree t' ∧ inorder t' = [8; 24].
Proof.
  destruct (rb_erase_correct ex_free ex_tree ex_state [8] 16 [24] ex_holds ex_rb eq_refl) as (s' & t' & nx & E1 & _ & Hrb & Hin & _).
  by exists s', t'.
Defined.

Lemma rb_replace_node_correct_witness :
  ∃ nx s', rb_replace_node 16 32 ex_state = Ret (tt, s') ∧
    holds (<[16 := nx]> (delete 32 ex_free)) (T Black (T Red E 8 E) 32 (T Red E 24 E)) s'.
Proof.
  destruct (ex_new 32 eq_refl) as (Hp & H0 & Hn).
  exact (rb_replace_node_correct ex_free [] Black (T Red E 8 E) 16 (T Red E 24 E) 32 _ ex_state ex_holds eq_refl Hp H0 Hn).
Defined.
