(* ===== verification/WaitQueue.v ===== *)
(** * Wait queues (kernel/sync/wait_queue.c, include/wait_queue.h)

    A wait queue is a singly linked list of entries, each naming a process.  The
    state is the scheduler together with the entries and the queue heads by address. *)

From S2P Require Import Prelude ProcList Mlfq Scheduler.

#[local] Open Scope Z_scope.

Record wait_queue_entry := { w_process : Z; w_next : Z }.
Record wait_queue_head := { wq_head : Z; wq_lock : Z }.

Record wst := { sch : sched; entries : gmap Z wait_queue_entry; heads : gmap Z wait_queue_head }.

Definition with_sch (s : sched) (w : wst) : wst := {| sch := s; entries := entries w; heads := heads w |}.
Definition with_entry (e : Z) (v : wait_queue_entry) (w : wst) : wst :=
  {| sch := sch w; entries := <[e := v]> (entries w); heads := heads w |}.
Definition with_head (q : Z) (v : wait_queue_head) (w : wst) : wst :=
  {| sch := sch w; entries := entries w; heads := <[q := v]> (heads w) |}.

Definition on_sched {A} (c : M sched A) : M wst A := zoom sch with_sch c.
Definition load_entry (e : Z) : M wst wait_queue_entry := w ← get; deref (entries w !! e).
Definition load_head (q : Z) : M wst wait_queue_head := w ← get; deref (heads w !! q).

Definition init_waitqueue_head : wait_queue_head := {| wq_head := 0; wq_lock := 0 |}.

(** A lock that is taken is waited for in a loop: on the one processor that the
    functions run on, with nobody to release it, for ever. *)
Definition spin_lock (q : Z) : M wst unit :=
  h ← load_head q;
  if wq_lock h =? 0 then modify (with_head q {| wq_head := wq_head h; wq_lock := 1 |}) else undef.

Definition spin_unlock (q : Z) : M wst unit :=
  h ← load_head q; modify (with_head q {| wq_head := wq_head h; wq_lock := 0 |}).

Definition set_head (q e : Z) : M wst unit :=
  h ← load_head q; modify (with_head q {| wq_head := e; wq_lock := wq_lock h |}).
Definition set_entry_next (e n : Z) : M wst unit :=
  v ← load_entry e; modify (with_entry e {| w_process := w_process v; w_next := n |}).

Definition add_wait_queue (q e : Z) : M wst unit :=
  if (q =? 0) || (e =? 0) then mret tt
  else
    _ ← spin_lock q;
    h ← load_head q;
    _ ← set_entry_next e (wq_head h);
    _ ← set_head q e;
    spin_unlock q.

(** A [struct wait_queue_entry **]. *)
Inductive wlink := AtHead (q : Z) | AtNext (e : Z).

Definition write_wlink (l : wlink) (e : Z) : M wst unit :=
  match l with AtHead q => set_head q e | AtNext e' => set_entry_next e' e end.

Fixpoint remove_loop (fuel : nat) (entry : Z) (prev : wlink) (curr : Z) : M wst unit :=
  match fuel with
  | O => undef
  | S fuel =>
      if curr =? 0 then mret tt
      else if curr =? entry then v ← load_entry curr; write_wlink prev (w_next v)
      else v ← load_entry curr; remove_loop fuel entry (AtNext curr) (w_next v)
  end.

Definition remove_wait_queue (q e : Z) : M wst unit :=
  if (q =? 0) || (e =? 0) then mret tt
  else
    _ ← spin_lock q;
    h ← load_head q;
    w ← get;
    _ ← remove_loop (S (size (entries w))) e (AtHead q) (wq_head h);
    spin_unlock q.

(** The body that both ways of waking share. *)
Definition wake_process (proc : Z) : M sched unit :=
  if proc =? 0 then mret tt
  else
    p ← on_table (load_proc proc);
    if bool_decide (state p = BLOCKED) then
      _ ← on_table (upd_proc proc (set_state READY));
      scheduler_add_process proc
    else mret tt.

Definition wake_up (q : Z) : M wst unit :=
  if q =? 0 then mret tt
  else
    _ ← spin_lock q;
    h ← load_head q;
    _ ← (if wq_head h =? 0 then mret tt
         else v ← load_entry (wq_head h); on_sched (wake_process (w_process v)));
    spin_unlock q.

Fixpoint wake_loop (fuel : nat) (entry : Z) : M wst unit :=
  match fuel with
  | O => undef
  | S fuel =>
      if entry =? 0 then mret tt
      else
        v ← load_entry entry;
        _ ← on_sched (wake_process (w_process v));
        wake_loop fuel (w_next v)
  end.

Definition wake_up_all (q : Z) : M wst unit :=
  if q =? 0 then mret tt
  else
    _ ← spin_lock q;
    h ← load_head q;
    w ← get;
    _ ← wake_loop (S (size (entries w))) (wq_head h);
    spin_unlock q.

(** ** The queue as a list of entries *)

(** The entries [es] are linked, the last one to [nx]. *)
Fixpoint wchain (m : gmap Z wait_queue_entry) (es : list Z) (nx : Z) : Prop :=
  match es with
  | [] => True
  | e :: r => e ≠ 0 ∧ (∃ v, m !! e = Some v ∧ w_next v = hd nx r) ∧ wchain m r nx
  end.

Record waitq (q : Z) (es : list Z) (w : wst) : Prop := {
  wq_address : q ≠ 0;
  wq_first : heads w !! q = Some {| wq_head := hd 0 es; wq_lock := 0 |};
  wq_nodup : NoDup es;
  wq_chain : wchain (entries w) es 0;
}.

(** Nothing but the links of entries and the heads changes. *)
Definition same_waiters (w w' : wst) : Prop :=
  sch w' = sch w ∧ ∀ x, w_process <$> entries w' !! x = w_process <$> entries w !! x.

Lemma wchain_ext m m' es nx : (∀ x, x ∈ es → m' !! x = m !! x) → wchain m es nx → wchain m' es nx.
Proof.
  induction es as [|e r IH]; intros H Hc; [done|]. destruct Hc as (H0 & (v & Hv & Hn) & Hc). cbn. split_and!; [done| |].
  - exists v. by rewrite H by left.
  - apply IH; [|done]. intros x Hx. apply H. by right.
Qed.

Lemma wchain_members m es nx x : wchain m es nx → x ∈ es → x ≠ 0 ∧ is_Some (m !! x).
Proof.
  induction es as [|e r IH]; intros Hc Hx; [by apply not_elem_of_nil in Hx|]. destruct Hc as (H0 & (v & Hv & _) & Hc).
  apply elem_of_cons in Hx as [->|Hx]; [by rewrite Hv | by apply IH].
Qed.

Lemma wchain_size m es nx : wchain m es nx → NoDup es → (length es ≤ size m)%nat.
Proof.
  intros Hc Hd. apply members_bound; [done|]. intros x Hx. by eapply wchain_members.
Qed.

Lemma bool_or_nz a b : a ≠ 0 → b ≠ 0 → (a =? 0) || (b =? 0) = false.
Proof. intros Ha Hb. by rewrite (proj2 (Z.eqb_neq a 0) Ha), (proj2 (Z.eqb_neq b 0) Hb). Qed.

Lemma load_head_eq q w h : heads w !! q = Some h → load_head q w = Ret (h, w).
Proof. intros H. unfold load_head. by rewrite bind_get, H. Qed.
Lemma load_entry_eq e w v : entries w !! e = Some v → load_entry e w = Ret (v, w).
Proof. intros H. unfold load_entry. by rewrite bind_get, H. Qed.

Lemma spin_lock_eq q w a : heads w !! q = Some {| wq_head := a; wq_lock := 0 |} →
  spin_lock q w = Ret (tt, with_head q {| wq_head := a; wq_lock := 1 |} w).
Proof. intros H. unfold spin_lock. by rewrite (bind_Ret _ _ _ _ _ (load_head_eq _ _ _ H)). Qed.

Lemma spin_unlock_eq q w a k : heads w !! q = Some {| wq_head := a; wq_lock := k |} →
  spin_unlock q w = Ret (tt, with_head q {| wq_head := a; wq_lock := 0 |} w).
Proof. intros H. unfold spin_unlock. by rewrite (bind_Ret _ _ _ _ _ (load_head_eq _ _ _ H)). Qed.

Lemma set_head_eq q e w a k : heads w !! q = Some {| wq_head := a; wq_lock := k |} →
  set_head q e w = Ret (tt, with_head q {| wq_head := e; wq_lock := k |} w).
Proof. intros H. unfold set_head. by rewrite (bind_Ret _ _ _ _ _ (load_head_eq _ _ _ H)). Qed.

Lemma set_entry_next_eq e n w v : entries w !! e = Some v →
  set_entry_next e n w = Ret (tt, with_entry e {| w_process := w_process v; w_next := n |} w).
Proof. intros H. unfold set_entry_next. by rewrite (bind_Ret _ _ _ _ _ (load_entry_eq _ _ _ H)). Qed.

Lemma add_wait_queue_spec q es w e v :
  waitq q es w → entries w !! e = Some v → e ≠ 0 → e ∉ es →
  ∃ w', add_wait_queue q e w = Ret (tt, w') ∧ waitq q (e :: es) w' ∧ same_waiters w w'.
Proof.
  intros [Hq Hf Hd Hc] Hv He Hn. unfold add_wait_queue. rewrite bool_or_nz by done.
  rewrite (bind_Ret _ _ _ _ _ (spin_lock_eq _ _ _ Hf)).
  rewrite (bind_Ret _ _ _ _ _ (load_head_eq q _ _ (lookup_insert_eq _ _ _))).
  rewrite (bind_Ret _ _ _ _ _ (set_entry_next_eq e _ (with_head q _ w) v Hv)).
  rewrite (bind_Ret _ _ _ _ _ (set_head_eq q e (with_entry e _ (with_head q _ w)) _ _ (lookup_insert_eq _ _ _))).
  rewrite (spin_unlock_eq q (with_head q _ (with_entry e _ (with_head q _ w))) _ _ (lookup_insert_eq _ _ _)).
  eexists. split; [reflexivity|]. split.
  - split; cbn; [done | by rewrite lookup_insert_eq | by constructor|]. split_and!; [done| |].
    + eexists. rewrite lookup_insert_eq. by split.
    + eapply wchain_ext; [|exact Hc]. intros x Hx. rewrite lookup_insert_ne; [done | set_solver].
  - split; [done|]. intros x. cbn. destruct (decide (x = e)) as [->|]; [by rewrite lookup_insert_eq, Hv | by rewrite lookup_insert_ne].
Qed.

Lemma wchain_app m l1 l2 nx : wchain m (l1 ++ l2) nx ↔ wchain m l1 (hd nx l2) ∧ wchain m l2 nx.
Proof.
  induction l1 as [|e l1 IH]; cbn; [tauto|]. rewrite IH. assert (hd nx (l1 ++ l2) = hd (hd nx l2) l1) as -> by (by destruct l1). tauto.
Qed.

Definition same_waiters_refl w : same_waiters w w := conj eq_refl (λ _, eq_refl).

Lemma same_waiters_entry w e v n : entries w !! e = Some v → same_waiters w (with_entry e {| w_process := w_process v; w_next := n |} w).
Proof.
  intros Hv. split; [done|]. intros x. cbn. destruct (decide (x = e)) as [->|]; [by rewrite lookup_insert_eq, Hv | by rewrite lookup_insert_ne].
Qed.

(** The link the loop stands at, after the entries [l1]. *)
Definition link_after (q : Z) (l1 : list Z) : wlink := match last l1 with None => AtHead q | Some a => AtNext a end.

Definition list_at (q : Z) (es : list Z) (w : wst) : Prop :=
  heads w !! q = Some {| wq_head := hd 0 es; wq_lock := 1 |} ∧ wchain (entries w) es 0 ∧ NoDup es.

Lemma unlink_entry q l1 e r w :
  list_at q (l1 ++ e :: r) w →
  ∃ w', write_wlink (link_after q l1) (hd 0 r) w = Ret (tt, w') ∧ list_at q (l1 ++ r) w' ∧ same_waiters w w'.
Proof.
  intros (Hh & Hc & Hd). apply wchain_app in Hc as [Hc1 (_ & _ & Hc2)].
  assert (NoDup (l1 ++ r)) as Hd' by (rewrite <- Permutation_middle in Hd; by apply NoDup_cons in Hd as [_ ?]).
  unfold link_after. destruct l1 as [|a l1 _] using rev_ind; cbn [last app hd] in *.
  - cbn. rewrite (set_head_eq q (hd 0 r) w _ _ Hh). eexists. split; [reflexivity|]. split; [|done].
    split_and!; cbn; [apply lookup_insert_eq | done..].
  - rewrite last_snoc. cbn [write_wlink]. apply wchain_app in Hc1 as [Hc1 (Ha & (v & Hv & _) & _)].
    rewrite (set_entry_next_eq a (hd 0 r) w v Hv). eexists. split; [reflexivity|].
    split; [|by apply same_waiters_entry]. rewrite <- !app_assoc in *. cbn in Hh, Hc1, Hd' |- *.
    apply NoDup_app in Hd' as (Hn1 & Hdis & Hn2). apply NoDup_cons in Hn2 as [Har Hn2].
    split_and!; cbn.
    + rewrite Hh. by destruct l1.
    + apply wchain_app. cbn. split_and!; [|done| |].
      * eapply wchain_ext; [|exact Hc1]. intros x Hx. rewrite lookup_insert_ne; [done|]. intros ->. apply (Hdis x Hx). left.
      * eexists. rewrite lookup_insert_eq. by split.
      * eapply wchain_ext; [|exact Hc2]. intros x Hx. rewrite lookup_insert_ne; [done|]. by intros ->.
    + apply NoDup_app. split_and!; try done. by constructor.
Qed.

Lemma remove_loop_spec q e rest : ∀ fuel l1 w,
  list_at q (l1 ++ rest) w → (length rest < fuel)%nat →
  ∃ w', remove_loop fuel e (link_after q l1) (hd 0 rest) w = Ret (tt, w') ∧
    list_at q (l1 ++ filter (λ x, x ≠ e) rest) w' ∧ same_waiters w w'.
Proof.
  induction rest as [|a r IH]; intros [|fuel] l1 w Hl Hf; cbn [length] in Hf; try lia; cbn [remove_loop hd].
  { exists w. by split_and!. }
  pose proof Hl as (Hh & Hc & Hd). apply wchain_app in Hc as [_ (Ha & (v & Hv & Hn) & _)]. cbn [hd] in Hn.
  rewrite (proj2 (Z.eqb_neq _ _) Ha). destruct (Z.eqb_spec a e) as [->|Hne].
  - destruct (unlink_entry q l1 e r w Hl) as (w' & E1 & Hl' & Hs). exists w'.
    rewrite (bind_Ret _ _ _ _ _ (load_entry_eq e w v Hv)), Hn. split_and!; try done.
    rewrite filter_cons_False by tauto. rewrite filter_all; [done|]. intros x Hx ->.
    apply NoDup_app in Hd as (_ & _ & Hd). by apply NoDup_cons in Hd as [? _].
  - rewrite (bind_Ret _ _ _ _ _ (load_entry_eq a w v Hv)), Hn.
    assert (AtNext a = link_after q (l1 ++ [a])) as -> by (unfold link_after; by rewrite last_snoc).
    destruct (IH fuel (l1 ++ [a]) w) as (w' & E1 & Hl' & Hs); [by rewrite <- app_assoc | lia|].
    exists w'. split_and!; try done. rewrite filter_cons_True by done. by rewrite <- app_assoc in Hl'.
Qed.

Lemma same_waiters_trans w1 w2 w3 : same_waiters w1 w2 → same_waiters w2 w3 → same_waiters w1 w3.
Proof. intros [A B] [C D]. split; [congruence|]. intros x. by rewrite D, B. Qed.

Lemma remove_wait_queue_spec q es w e :
  waitq q es w → e ≠ 0 →
  ∃ w', remove_wait_queue q e w = Ret (tt, w') ∧ waitq q (filter (λ x, x ≠ e) es) w' ∧ same_waiters w w'.
Proof.
  intros [Hq Hf Hd Hc] He. unfold remove_wait_queue. rewrite bool_or_nz by done.
  rewrite (bind_Ret _ _ _ _ _ (spin_lock_eq _ _ _ Hf)).
  rewrite (bind_Ret _ _ _ _ _ (load_head_eq q _ _ (lookup_insert_eq _ _ _))), bind_get. cbn [entries with_head wq_head].
  destruct (remove_loop_spec q e es (S (size (entries w))) [] (with_head q {| wq_head := hd 0 es; wq_lock := 1 |} w))
    as (w1 & E1 & (Hh & Hc1 & Hd1) & Hs1).
  { split_and!; [apply lookup_insert_eq | done..]. }
  { apply Nat.lt_succ_r. by eapply wchain_size. }
  cbn in E1. rewrite (bind_Ret _ _ _ _ _ E1). cbn [app] in *. rewrite (spin_unlock_eq _ _ _ _ Hh). eexists. split; [reflexivity|].
  split; [split; cbn; [done | apply lookup_insert_eq | done..] | exact Hs1].
Qed.

(** Adding an entry puts it in front of the queue; removing one takes it out from
    wherever it is and does nothing if it is not there.  Both release the lock of the
    queue and keep the processes of all entries. *)
Theorem wait_queue_correct q es w e v :
  waitq q es w → entries w !! e = Some v → e ≠ 0 → e ∉ es →
  ∃ w', add_wait_queue q e w = Ret (tt, w') ∧ waitq q (e :: es) w' ∧ same_waiters w w' ∧
    ∀ x, x ≠ 0 → ∃ w'', remove_wait_queue q x w' = Ret (tt, w'') ∧ waitq q (filter (λ y, y ≠ x) (e :: es)) w'' ∧ same_waiters w w''.
Proof.
  intros Hq Hv He Hn. destruct (add_wait_queue_spec q es w e v Hq Hv He Hn) as (w' & E1 & Hq' & Hs'). exists w'. split_and!; try done.
  intros x Hx. destruct (remove_wait_queue_spec q (e :: es) w' x Hq' Hx) as (w'' & E2 & Hq'' & Hs''). exists w''. split_and!; try done.
  by eapply same_waiters_trans.
Qed.

(** ** Waking *)

Definition state_of (s : sched) (x : Z) : option process_state := state <$> tbl s !! x.

(** The processes that a pass over [ps] wakes: the blocked ones, each once. *)
Fixpoint woken (st : Z → option process_state) (ps : list Z) : list Z :=
  match ps with
  | [] => []
  | p :: r =>
      if bool_decide (st p = Some BLOCKED) then p :: woken (λ x, if x =? p then Some READY else st x) r
      else woken st r
  end.

(** The default policy is in force, no blocked process is in a ready queue, and all of
    [ps] are processes or null. *)
Record ready_ok (s : sched) (ls : list (list Z)) (ps : list Z) : Prop := {
  ro_policy : current_policy s = SCHED_POLICY_MLFQ;
  ro_queues : mlfq_ok (run s) ls;
  ro_ready : ∀ x, x ∈ concat ls → state_of s x ≠ Some BLOCKED;
  ro_procs : ∀ p, p ∈ ps → p = 0 ∨ is_Some (state_of s p);
  ro_null : state_of s 0 = None;
}.

(** The woken processes join the first level, in their order. *)
Definition queued_up (ps : list Z) (ls : list (list Z)) : list (list Z) := alter (λ l, l ++ ps) 0%nat ls.

Lemma concat_queued_up ps ls : (0 < length ls)%nat → concat (queued_up ps ls) ≡ₚ ps ++ concat ls.
Proof. destruct ls as [|l ls]; cbn; [lia|]. intros _. rewrite <- app_assoc. solve_Permutation. Qed.

Lemma state_of_null s p : state_of s p = None → tbl s !! p = None.
Proof. unfold state_of. by destruct (tbl s !! p). Qed.

Lemma wake_process_spec s ls ps p :
  ready_ok s ls ps → p ∈ ps → Z.of_nat (length (concat ls)) + 1 < 2 ^ 32 →
  ∃ s', wake_process p s = Ret (tt, s') ∧
    ready_ok s' (queued_up (woken (state_of s) [p]) ls) ps ∧
    ∀ x, state_of s' x = if bool_decide (x ∈ woken (state_of s) [p]) then Some READY else state_of s x.
Proof.
  intros [Hpo Hq Hr Hps H0] Hp Hlen. cbn [woken].
  assert (queued_up [] ls = ls) as Hnil by (unfold queued_up; destruct ls; cbn; by rewrite ?app_nil_r).
  assert (ready_ok s (queued_up [] ls) ps ∧ ∀ x, state_of s x = if bool_decide (x ∈ []) then Some READY else state_of s x) as Hsame.
  { rewrite Hnil. split; [done|]. intros x. by rewrite bool_decide_eq_false_2 by (apply not_elem_of_nil). }
  unfold wake_process. destruct (Z.eqb_spec p 0) as [->|Hp0]; [rewrite H0, bool_decide_eq_false_2 by done; by exists s|].
  destruct (Hps p Hp) as [|Hst]; [done|]. unfold state_of in Hst. destruct (tbl s !! p) as [pr|] eqn:Hpr; [|by destruct Hst].
  rewrite (bind_Ret _ _ _ _ _ (table_load s p pr Hpr)). assert (state_of s p = Some (state pr)) as Hsp by (unfold state_of; by rewrite Hpr).
  rewrite Hsp. destruct (decide (state pr = BLOCKED)) as [Hb|Hb]; [|rewrite !bool_decide_eq_false_2 by congruence; by exists s].
  rewrite Hb, !bool_decide_eq_true_2 by done.
  assert (p ∉ concat ls) as Hni by (intros Hin; apply (Hr p Hin); by rewrite Hsp, Hb).
  rewrite (bind_Ret _ _ _ _ _ (table_upd s p pr _ Hpr)). unfold scheduler_add_process. rewrite (proj2 (Z.eqb_neq _ _) Hp0).
  erewrite bind_Ret by (apply table_upd, lookup_insert_eq). cbn [mprocs run with_tbl with_run]. rewrite insert_insert_eq, bind_get.
  cbn [current_policy with_tbl with_run]. rewrite Hpo. cbn [Z.eqb Pos.eqb].
  erewrite bind_Ret by (apply table_upd, lookup_insert_eq). cbn [mprocs run with_tbl with_run]. rewrite insert_insert_eq.
  set (p1 := set_mlfq_level 0 (set_state READY (set_state READY pr))).
  match goal with |- context [on_run _ ?s1] => set (s1' := s1) end.
  assert (mlfq_ok (run s1') ls) as Hq1 by (apply (mlfq_ok_upd (run s) ls p p1 (level_changes (ml (run s)))); [done | done | apply (mo_changes _ _ Hq) | by destruct s as [[? []] ? ? ? ? ? ? ? ? ? ?]]).
  destruct (lookup_lt_is_Some_2 ls 0%nat) as [l Hl]; [rewrite (mo_lists _ _ Hq); lia|].
  destruct (mlfq_enqueue_spec (run s1') ls p p1 0 l Hq1) as (m' & E & Hq' & (p' & Hp' & Hs') & Hoth & _);
    [apply lookup_insert_eq | done | done | done | done | done|].
  rewrite (on_run_Ret _ s1' _ _ E). eexists. split; [reflexivity|].
  assert (∀ x, state_of (with_run m' s1') x = if bool_decide (x ∈ [p]) then Some READY else state_of s x) as Hst'.
  { intros x. unfold state_of. cbn. destruct (decide (x = p)) as [->|Hne].
    - rewrite Hp', bool_decide_eq_true_2 by left. apply (f_equal state) in Hs'. cbn in Hs'. cbn. by rewrite Hs'.
    - rewrite bool_decide_eq_false_2 by set_solver. specialize (Hoth x Hne). cbn in Hoth. rewrite lookup_insert_ne in Hoth by done.
      destruct (mprocs m' !! x), (tbl s !! x); try done. apply (inj Some) in Hoth. apply (f_equal state) in Hoth. cbn in *. by rewrite Hoth. }
  split; [|done]. assert (<[0%nat := l ++ [p]]> ls = queued_up [p] ls) as Hup by (unfold queued_up; destruct ls; [done|]; by injection Hl as ->).
  rewrite Hup in Hq'. split; try done.
  - intros x. rewrite concat_queued_up by (by eapply lookup_lt_Some). intros Hx. rewrite Hst'. case_bool_decide; [done|]. apply Hr. set_solver.
  - intros x Hx. rewrite Hst'. case_bool_decide; [by right | by apply Hps].
  - rewrite Hst'. rewrite bool_decide_eq_false_2 by set_solver. done.
Qed.

Lemma woken_ext st st' ps : (∀ x, st x = st' x) → woken st ps = woken st' ps.
Proof.
  revert st st'. induction ps as [|p r IH]; intros st st' H; [done|]. cbn. rewrite H.
  case_bool_decide; [f_equal|]; apply IH; [|done]. intros x. by rewrite H.
Qed.

Lemma woken_sub st ps x : x ∈ woken st ps → x ∈ ps.
Proof.
  revert st. induction ps as [|p r IH]; intros st; [done|]. cbn. case_bool_decide; [|intros Hx%IH; by right].
  intros [->|Hx%IH]%elem_of_cons; [left | by right].
Qed.

Lemma woken_blocked st ps p : st p = Some BLOCKED → p ∈ ps → p ∈ woken st ps.
Proof.
  revert st. induction ps as [|a r IH]; intros st Hb Hp; [by apply not_elem_of_nil in Hp|]. cbn.
  apply elem_of_cons in Hp as [->|Hp]; [rewrite bool_decide_eq_true_2 by done; left|].
  case_bool_decide; [|by apply IH]. destruct (decide (p = a)) as [->|Hne]; [left|]. right. apply IH; [|done]. by rewrite (proj2 (Z.eqb_neq _ _) Hne).
Qed.

(** A pass over a list is a pass over its head and one over the rest. *)
Lemma woken_cons st st' p r :
  (∀ x, st' x = if bool_decide (x ∈ woken st [p]) then Some READY else st x) → woken st (p :: r) = woken st [p] ++ woken st' r.
Proof.
  intros H. cbn in *. case_bool_decide as Hb; cbn; [f_equal|]; apply woken_ext; intros x; rewrite H.
  - destruct (Z.eqb_spec x p) as [->|]; [by rewrite bool_decide_eq_true_2 by left | by rewrite bool_decide_eq_false_2 by set_solver].
  - by rewrite bool_decide_eq_false_2 by (apply not_elem_of_nil).
Qed.

Lemma queued_up_app ps ps' ls : queued_up ps' (queued_up ps ls) = queued_up (ps ++ ps') ls.
Proof. unfold queued_up. destruct ls as [|l ls]; [done|]. cbn. by rewrite app_assoc. Qed.

Definition process_of (w : wst) (e : Z) : Z := match entries w !! e with Some v => w_process v | None => 0 end.

Lemma on_sched_Ret {A} (c : M sched A) w a s : c (sch w) = Ret (a, s) → on_sched c w = Ret (a, with_sch s w).
Proof. intros H. unfold on_sched. by rewrite (zoom_Ret _ _ _ _ _ _ H). Qed.

Lemma wake_loop_spec es : ∀ fuel w ls ps,
  wchain (entries w) es 0 → (length es < fuel)%nat → ready_ok (sch w) ls ps → (∀ e, e ∈ es → process_of w e ∈ ps) →
  Z.of_nat (length (concat ls) + length es) + 1 < 2 ^ 32 →
  ∃ s', wake_loop fuel (hd 0 es) w = Ret (tt, with_sch s' w) ∧
    ready_ok s' (queued_up (woken (state_of (sch w)) (process_of w <$> es)) ls) ps ∧
    ∀ x, state_of s' x = if bool_decide (x ∈ woken (state_of (sch w)) (process_of w <$> es)) then Some READY else state_of (sch w) x.
Proof.
  induction es as [|e r IH]; intros [|fuel] w ls ps Hc Hf Hok Hps Hlen; cbn [length] in Hf, Hlen; try lia; cbn [wake_loop hd fmap list_fmap].
  { exists (sch w). split; [by destruct w|]. cbn [woken]. split.
    - unfold queued_up. destruct ls; [done|]. cbn. by rewrite app_nil_r.
    - intros x. by rewrite bool_decide_eq_false_2 by (apply not_elem_of_nil). }
  destruct Hc as (He & (v & Hv & Hn) & Hc). rewrite (proj2 (Z.eqb_neq _ _) He), (bind_Ret _ _ _ _ _ (load_entry_eq e w v Hv)), Hn.
  assert (process_of w e = w_process v) as Hpv by (unfold process_of; by rewrite Hv).
  destruct (wake_process_spec (sch w) ls ps (w_process v) Hok) as (s1 & E1 & Hok1 & Hst1); [rewrite <- Hpv; apply Hps; left | lia|].
  assert (on_sched (wake_process (w_process v)) w = Ret (tt, with_sch s1 w)) as E1' by by apply on_sched_Ret.
  rewrite (bind_Ret _ _ _ _ _ E1'). set (st := state_of (sch w)) in *.
  assert (0 < length ls)%nat as Hls by (rewrite (mo_lists _ _ (ro_queues _ _ _ Hok)); lia).
  assert (length (woken st [w_process v]) ≤ 1)%nat as Hw1 by (cbn; case_bool_decide; cbn; lia).
  destruct (IH fuel (with_sch s1 w) (queued_up (woken st [w_process v]) ls) ps) as (s2 & E2 & Hok2 & Hst2); [done | lia | done | | |].
  { intros x Hx. apply Hps. by right. }
  { rewrite (Permutation_length (concat_queued_up _ _ Hls)), length_app. lia. }
  exists s2. rewrite E2. split; [done|]. rewrite Hpv, (woken_cons st (state_of s1) (w_process v)) by done.
  rewrite queued_up_app in Hok2. split; [done|]. intros x. cbn [sch with_sch] in Hst2. rewrite Hst2, Hst1.
  change (process_of (with_sch s1 w)) with (process_of w). repeat case_bool_decide; try done; set_solver.
Qed.

(** Under the lock. *)
Lemma waitq_locked q es w : waitq q es w → spin_lock q w = Ret (tt, with_head q {| wq_head := hd 0 es; wq_lock := 1 |} w).
Proof. intros Hq. apply spin_lock_eq, (wq_first _ _ _ Hq). Qed.

Lemma waitq_released q es w s : waitq q es w →
  ∃ w', spin_unlock q (with_sch s (with_head q {| wq_head := hd 0 es; wq_lock := 1 |} w)) = Ret (tt, w') ∧ waitq q es w' ∧
    sch w' = s ∧ entries w' = entries w.
Proof.
  intros [Hq Hf Hd Hc]. rewrite (spin_unlock_eq q (with_sch _ _) _ _ (lookup_insert_eq _ _ _)). eexists. split; [reflexivity|].
  split; [|done]. split; cbn; [done | apply lookup_insert_eq | done | done].
Qed.

(** [wake_up_all] makes every blocked process that waits ready, and no other, each
    once: they join the first level of the ready queues in the order of the wait queue,
    which is the reverse order of arrival. *)
Theorem wake_up_all_correct q es w ls :
  waitq q es w → ready_ok (sch w) ls (process_of w <$> es) → Z.of_nat (length (concat ls) + length es) + 1 < 2 ^ 32 →
  let woke := woken (state_of (sch w)) (process_of w <$> es) in
  ∃ w', wake_up_all q w = Ret (tt, w') ∧ waitq q es w' ∧
    ready_ok (sch w') (queued_up woke ls) (process_of w <$> es) ∧
    (∀ x, state_of (sch w') x = if bool_decide (x ∈ woke) then Some READY else state_of (sch w) x) ∧
    (∀ e, e ∈ es → state_of (sch w') (process_of w e) ≠ Some BLOCKED).
Proof.
  intros Hq Hok Hlen woke. pose proof Hq as [Hq0 Hf Hd Hc]. unfold wake_up_all. rewrite (proj2 (Z.eqb_neq _ _) Hq0).
  rewrite (bind_Ret _ _ _ _ _ (waitq_locked _ _ _ Hq)), (bind_Ret _ _ _ _ _ (load_head_eq q _ _ (lookup_insert_eq _ _ _))), bind_get.
  set (w1 := with_head q _ w). destruct (wake_loop_spec es (S (size (entries w1))) w1 ls (process_of w <$> es)) as (s' & E & Hok' & Hst); try done.
  { apply Nat.lt_succ_r. by eapply wchain_size. }
  { intros e He. by apply list_elem_of_fmap_2. }
  rewrite (bind_Ret _ _ _ _ _ E). destruct (waitq_released q es w s' Hq) as (w' & E' & Hq' & Hs' & _). exists w'. rewrite Hs'.
  split_and!; try done. intros e He. rewrite Hst. change (sch w1) with (sch w). change (process_of w1) with (process_of w). case_bool_decide as Hin; [done|]. intros Hb. apply Hin.
  apply woken_blocked; [done | by apply list_elem_of_fmap_2].
Qed.

Lemma wake_up_spec q e es w ls ps :
  waitq q (e :: es) w → ready_ok (sch w) ls ps → process_of w e ∈ ps → Z.of_nat (length (concat ls)) + 1 < 2 ^ 32 →
  ∃ w', wake_up q w = Ret (tt, w') ∧ waitq q (e :: es) w' ∧ entries w' = entries w ∧
    ready_ok (sch w') (queued_up (woken (state_of (sch w)) [process_of w e]) ls) ps ∧
    ∀ x, state_of (sch w') x = if bool_decide (x ∈ woken (state_of (sch w)) [process_of w e]) then Some READY else state_of (sch w) x.
Proof.
  intros Hq Hok Hps Hlen. pose proof Hq as [Hq0 Hf Hd (He & (v & Hv & Hn) & Hc)]. unfold wake_up. rewrite (proj2 (Z.eqb_neq _ _) Hq0).
  rewrite (bind_Ret _ _ _ _ _ (waitq_locked _ _ _ Hq)), (bind_Ret _ _ _ _ _ (load_head_eq q _ _ (lookup_insert_eq _ _ _))).
  cbn [hd wq_head]. rewrite (proj2 (Z.eqb_neq _ _) He). set (w1 := with_head q _ w).
  assert (process_of w e = w_process v) as Hpv by (unfold process_of; by rewrite Hv). rewrite Hpv in *.
  destruct (wake_process_spec (sch w) ls ps (w_process v) Hok Hps Hlen) as (s1 & E1 & Hok1 & Hst1).
  assert ((v ← load_entry e; on_sched (wake_process (w_process v))) w1 = Ret (tt, with_sch s1 w1)) as E2.
  { rewrite (bind_Ret _ _ _ _ _ (load_entry_eq e w1 v Hv)). exact (on_sched_Ret _ w1 _ _ E1). }
  rewrite (bind_Ret _ _ _ _ _ E2). destruct (waitq_released q (e :: es) w s1 Hq) as (w' & E' & Hq' & Hs' & He').
  exists w'. rewrite Hs'. by split_and!.
Qed.

(** [wake_up] makes the process that came last ready and leaves its entry in the
    queue: a second call, before that process has removed its entry, wakes nobody,
    however many others are blocked. *)
Theorem wake_up_repeated q e es w ls :
  waitq q (e :: es) w → ready_ok (sch w) ls (process_of w <$> e :: es) → state_of (sch w) (process_of w e) = Some BLOCKED →
  Z.of_nat (length (concat ls)) + 2 < 2 ^ 32 →
  ∃ w1 w2, wake_up q w = Ret (tt, w1) ∧ wake_up q w1 = Ret (tt, w2) ∧ waitq q (e :: es) w2 ∧
    ready_ok (sch w2) (queued_up [process_of w e] ls) (process_of w <$> e :: es) ∧
    (∀ x, state_of (sch w2) x = if x =? process_of w e then Some READY else state_of (sch w) x).
Proof.
  intros Hq Hok Hb Hlen. set (p := process_of w e) in *. assert (p ∈ process_of w <$> e :: es) as Hp by (apply list_elem_of_fmap_2; left).
  destruct (wake_up_spec q e es w ls _ Hq Hok Hp ltac:(lia)) as (w1 & E1 & Hq1 & He1 & Hok1 & Hst1). fold p in Hok1, Hst1.
  assert (woken (state_of (sch w)) [p] = [p]) as Hw1 by (cbn; by rewrite bool_decide_eq_true_2). rewrite Hw1 in Hok1, Hst1.
  assert (process_of w1 = process_of w) as Hpr by (unfold process_of; by rewrite He1).
  assert (0 < length ls)%nat as Hls by (rewrite (mo_lists _ _ (ro_queues _ _ _ Hok)); lia).
  destruct (wake_up_spec q e es w1 _ _ Hq1 Hok1 ltac:(by rewrite Hpr)) as (w2 & E2 & Hq2 & _ & Hok2 & Hst2).
  { rewrite (Permutation_length (concat_queued_up _ _ Hls)). cbn [length app]. lia. }
  rewrite Hpr in Hok2, Hst2. fold p in Hok2, Hst2.
  assert (state_of (sch w1) p = Some READY) as Hp1 by (rewrite Hst1; by rewrite bool_decide_eq_true_2 by left).
  assert (woken (state_of (sch w1)) [p] = []) as Hw2 by (cbn; rewrite Hp1; by rewrite bool_decide_eq_false_2 by done). rewrite Hw2 in Hok2, Hst2.
  rewrite queued_up_app in Hok2. exists w1, w2. split_and!; try done. intros x.
  rewrite Hst2, bool_decide_eq_false_2, Hst1 by (apply not_elem_of_nil).
  destruct (Z.eqb_spec x p) as [->|]; [by rewrite bool_decide_eq_true_2 by left | by rewrite bool_decide_eq_false_2 by set_solver].
Qed.

(** ** Two processes, 5 and 6, blocked on the queue at 200 *)

Definition demo_procs : procs := <[5 := user_proc 5 BLOCKED 0 0 0]> (<[6 := user_proc 6 BLOCKED 0 0 0]> four_procs).

Definition demo_wait : wst :=
  {| sch := with_tbl demo_procs demo_mq;
     entries := {[100 := {| w_process := 5; w_next := 104 |}; 104 := {| w_process := 6; w_next := 0 |};
                  108 := {| w_process := 2; w_next := 0 |}]};
     heads := {[200 := {| wq_head := 100; wq_lock := 0 |}]} |}.

Lemma demo_waitq : waitq 200 [100; 104] demo_wait.
Proof. split; try done; [apply (bool_decide_unpack _); done|]. cbn [wchain]. split_and!; try done; by eexists. Qed.

Lemma demo_ready : ready_ok (sch demo_wait) [[3; 4]; []; []; []; []] (process_of demo_wait <$> [100; 104]).
Proof.
  split; [done | | | |done].
  - change (run (sch demo_wait)) with {| mprocs := demo_procs; ml := ml (run demo_mq) |}. unfold demo_procs.
    pose proof (mlfq_ok_upd {| mprocs := <[6 := user_proc 6 BLOCKED 0 0 0]> four_procs; ml := ml (run demo_mq) |}
      [[3; 4]; []; []; []; []] 5 (user_proc 5 BLOCKED 0 0 0) (replicate 5 0) (ml (run demo_mq))) as H. cbn [mprocs] in H.
    apply H; [|set_solver | done | done].
    apply (mlfq_ok_upd (run demo_mq) [[3; 4]; []; []; []; []] 6 (user_proc 6 BLOCKED 0 0 0) (replicate 5 0) (ml (run demo_mq)));
      [apply demo_mq_queues | set_solver | done | done].
  - intros x Hx. assert (x = 3 ∨ x = 4) as [->| ->] by set_solver; by vm_compute.
  - intros p Hp. assert (p = 5 ∨ p = 6) as [->| ->]; [|right; by eexists..].
    change (process_of demo_wait <$> [100; 104]) with [5; 6] in Hp. set_solver.
Qed.

Lemma wait_queue_correct_witness :
  ∃ w', add_wait_queue 200 108 demo_wait = Ret (tt, w') ∧ waitq 200 [108; 100; 104] w'.
Proof.
  destruct (wait_queue_correct 200 [100; 104] demo_wait 108 _ demo_waitq eq_refl ltac:(done) ltac:(set_solver)) as (w' & E & Hq & _).
  by exists w'.
Defined.

Lemma wake_up_all_correct_witness :
  ∃ w', wake_up_all 200 demo_wait = Ret (tt, w') ∧ mlfq_ok (run (sch w')) [[3; 4; 5; 6]; []; []; []; []] ∧ state_of (sch w') 6 = Some READY.
Proof.
  destruct (wake_up_all_correct 200 [100; 104] demo_wait _ demo_waitq demo_ready ltac:(done)) as (w' & E & _ & Hok & Hst & _).
  exists w'. split_and!; [exact E | exact (ro_queues _ _ _ Hok) | by rewrite Hst].
Defined.

Lemma wake_up_repeated_witness :
  ∃ w1 w2, wake_up 200 demo_wait = Ret (tt, w1) ∧ wake_up 200 w1 = Ret (tt, w2) ∧ state_of (sch w2) 6 = Some BLOCKED.
Proof.
  destruct (wake_up_repeated 200 100 [104] demo_wait _ demo_waitq demo_ready eq_refl ltac:(done)) as (w1 & w2 & E1 & E2 & _ & _ & Hst).
  exists w1, w2. split_and!; [exact E1 | exact E2 | by rewrite Hst].
Defined.
