(* ===== verification/Threads.v ===== *)
(** * Interleavings of kernel threads

    The kernel runs on one processor: a thread can be preempted whenever it has
    interrupts enabled, and at no other point.  [sstep] is this semantics for threads
    with a private state [L] over a shared state [G]; threads that are always
    preemptible may be interleaved in any way, as on several processors.
    [exclusion_rule] is the proof rule of the locks: an invariant relates the shared
    state to a number that the private states add up to, and a thread may break it for
    as long as it keeps interrupts disabled. *)

From stdpp Require Import relations.
From S2P Require Import Prelude.

#[local] Open Scope Z_scope.

Section Threads.
Context {G L : Type}.
Context (tstep : G → L → G → L → Prop).     (* a step of one thread *)
Context (enabled : L → bool).               (* the thread can be preempted *)

Record sys := Sys { shared : G; threads : list L; running : nat }.

Inductive sstep : sys → sys → Prop :=
  | run_thread g ls i l g' l' :
      ls !! i = Some l → tstep g l g' l' → sstep (Sys g ls i) (Sys g' (<[i := l']> ls) i)
  | switch_thread g ls i l j :
      ls !! i = Some l → enabled l = true → (j < length ls)%nat → sstep (Sys g ls i) (Sys g ls j).

Definition reaches : sys → sys → Prop := rtc sstep.

Definition total (f : L → Z) (ls : list L) : Z := foldr (λ l a, f l + a) 0 ls.

Lemma total_cons f x ls : total f (x :: ls) = f x + total f ls.
Proof. done. Qed.

Lemma total_insert f ls i l l' : ls !! i = Some l → total f (<[i := l']> ls) = total f ls - f l + f l'.
Proof.
  revert i. induction ls as [|x ls IH]; intros [|i] Hi; [done..| |]; cbn in Hi; simplify_eq.
  - change (<[0%nat := l']> (l :: ls)) with (l' :: ls). rewrite !total_cons. lia.
  - change (<[S i := l']> (x :: ls)) with (x :: <[i := l']> ls). rewrite !total_cons, (IH i Hi). lia.
Qed.

Lemma total_nonneg f ls : (∀ x, x ∈ ls → 0 ≤ f x) → 0 ≤ total f ls.
Proof.
  induction ls as [|x ls IH]; intros H; [done|]. rewrite total_cons. pose proof (H x ltac:(left)).
  specialize (IH ltac:(intros; apply H; by right)). lia.
Qed.

Lemma total_split f ls i l : ls !! i = Some l → total f ls = f l + total f (delete i ls).
Proof.
  revert i. induction ls as [|x ls IH]; intros [|i] Hi; [done..| |]; cbn in Hi; simplify_eq; [done|].
  change (delete (S i) (x :: ls)) with (x :: delete i ls). rewrite !total_cons, (IH i Hi). lia.
Qed.

Lemma delete_elem {X} (ls : list X) i x : x ∈ delete i ls → x ∈ ls.
Proof. intros Hx. by eapply elem_of_submseteq, submseteq_delete. Qed.

Lemma total_bound f ls i l : (∀ x, x ∈ ls → 0 ≤ f x) → ls !! i = Some l → f l ≤ total f ls.
Proof.
  intros Hf Hi. rewrite (total_split f ls i l Hi). pose proof (total_nonneg f (delete i ls)) as H.
  specialize (H ltac:(intros x Hx; by eapply Hf, delete_elem)). lia.
Qed.

Lemma total_two f ls i j l l' :
  (∀ x, x ∈ ls → 0 ≤ f x) → ls !! i = Some l → ls !! j = Some l' → i ≠ j → f l + f l' ≤ total f ls.
Proof.
  intros Hf Hi Hj Hne. rewrite (total_split f ls i l Hi).
  assert (l' ∈ delete i ls) as Hin.
  { apply list_elem_of_lookup. destruct (decide (j < i)%nat); [exists j; by rewrite list_lookup_delete_lt|].
    exists (j - 1)%nat. rewrite list_lookup_delete_ge by lia. by replace (S (j - 1)) with j by lia. }
  apply list_elem_of_lookup in Hin as [k Hk].
  pose proof (total_bound f (delete i ls) k l' ltac:(intros x Hx; by eapply Hf, delete_elem) Hk). lia.
Qed.

(** [f] is the share of a thread, [P] what holds of every thread.  [J] relates the shared
    state to the sum of the shares; the running thread may break it while it cannot be
    preempted, [K] is what holds instead. *)
Context (f : L → Z) (P : L → Prop) (J : G → Z → Prop) (K : G → Z → L → Prop).

Record inv (s : sys) : Prop := {
  inv_threads : ∀ l, l ∈ threads s → P l;
  inv_running : ∃ l, threads s !! running s = Some l ∧ K (shared s) (total f (threads s)) l;
  inv_others : ∀ j l, threads s !! j = Some l → j ≠ running s → enabled l = true;
}.

Lemma exclusion_rule :
  (∀ g n l, P l → enabled l = true → K g n l ↔ J g n) →
  (∀ g n l g' l',
     P l → ((∀ x, P x → 0 ≤ f x) → f l ≤ n) → K g n l → tstep g l g' l' → P l' ∧ K g' (n - f l + f l') l') →
  ∀ s s', inv s → reaches s s' → inv s'.
Proof.
  intros HK Hstep s s' Hi Hr. induction Hr as [|s1 s2 s3 Hs _ IH]; [done|]. apply IH. clear IH.
  destruct Hi as [H2 (l0 & Hl0 & H3) H4].
  destruct Hs as [g ls i l g' l' Hl Ht|g ls i l j Hl He Hj]; cbn [shared threads running] in *;
    (assert (l0 = l) as -> by congruence).
  - assert ((∀ x, P x → 0 ≤ f x) → f l ≤ total f ls) as Hle
      by (intros Hf; apply (total_bound f ls i); [intros x Hx; by apply Hf, H2 | done]).
    destruct (Hstep g (total f ls) l g' l') as (HP & HK'); [by eapply H2, list_elem_of_lookup_2 | done..|].
    split; cbn [shared threads running].
    + intros x [k Hk]%list_elem_of_lookup. apply list_lookup_insert_Some in Hk as [(_ & <- & _)|[_ Hk]]; [done|].
      by eapply H2, list_elem_of_lookup_2.
    + exists l'. rewrite (total_insert f ls i l l' Hl). split; [|done]. apply list_lookup_insert_eq. by eapply lookup_lt_Some.
    + intros k x Hx Hne. rewrite list_lookup_insert_ne in Hx by done. by eapply H4.
  - apply lookup_lt_is_Some_2 in Hj as [l' Hl']. assert (P l ∧ P l') as [HP HP'] by (split; by eapply H2, list_elem_of_lookup_2).
    assert (enabled l' = true) as He' by (destruct (decide (j = i)) as [->|Hne]; [congruence | by eapply H4]).
    split; cbn [shared threads running]; [done| |].
    + exists l'. split; [done|]. apply HK; [done..|]. by apply (HK _ _ l).
    + intros k x Hx Hne. destruct (decide (k = i)) as [->|Hne']; [congruence | by eapply H4].
Qed.

(** ** Executions

    A schedule names for every step what the running thread does or the thread to
    switch to; running it yields reachable states. *)

Context {A : Type} (exec : A → G → L → option (G * L)).
Context (exec_step : ∀ a g l g' l', exec a g l = Some (g', l') → tstep g l g' l').

Definition act (a : A + nat) (s : sys) : option sys :=
  l ← threads s !! running s;
  match a with
  | inl a => '(g', l') ← exec a (shared s) l; Some (Sys g' (<[running s := l']> (threads s)) (running s))
  | inr j => if enabled l && bool_decide (j < length (threads s))%nat then Some (Sys (shared s) (threads s) j) else None
  end.

Fixpoint acts (sch : list (A + nat)) (s : sys) : option sys :=
  match sch with [] => Some s | a :: sch => s' ← act a s; acts sch s' end.

Lemma act_step a s s' : act a s = Some s' → sstep s s'.
Proof.
  destruct s as [g ls i]. unfold act. cbn [shared threads running]. intros (l & Hi & H)%bind_Some. destruct a as [a|j].
  - apply bind_Some in H as ([g' l'] & E & H). injection H as <-. by eapply run_thread, exec_step.
  - destruct (enabled l && bool_decide (j < length ls)%nat) eqn:E; [|done]. injection H as <-.
    apply andb_true_iff in E as [E1 E2%bool_decide_eq_true]. by eapply switch_thread.
Qed.

Lemma acts_reach sch s s' : acts sch s = Some s' → reaches s s'.
Proof.
  revert s. induction sch as [|a sch IH]; intros s H; cbn in H; [injection H as ->; by apply rtc_refl|].
  apply bind_Some in H as (s1 & E & H). eapply rtc_l; [by eapply act_step | by apply IH].
Qed.
End Threads.

Arguments Sys {G L}.
Arguments shared {G L}.
Arguments threads {G L}.
Arguments running {G L}.
