(* ===== verification/Spinlock.v ===== *)
(** * Spin locks (kernel/sync/spinlock.c, include/sync/spinlock.h)

    The lock word is taken with an atomic test-and-set.  The threads here are never
    protected from each other by disabled interrupts: any two steps may be interleaved,
    as by processors that run in parallel. *)

From stdpp Require Import relations.
From S2P Require Import Prelude Threads.

#[local] Open Scope Z_scope.

Record spinlock := { lock : Z; lock_name : option (list Z) }.

(** The name defaults to "unnamed". *)
Definition unnamed : list Z := [117; 110; 110; 97; 109; 101; 100].

Definition spin_lock_init (nm : option (list Z)) : spinlock :=
  {| lock := 0; lock_name := match nm with Some n => Some n | None => Some unnamed end |}.

(** [__sync_lock_test_and_set(&lock->lock, 1)]: the old value, atomically. *)
Definition test_and_set (l : spinlock) : Z * spinlock := (lock l, {| lock := 1; lock_name := lock_name l |}).

(** [__sync_lock_release]. *)
Definition release (l : spinlock) : spinlock := {| lock := 0; lock_name := lock_name l |}.

(** How the lock is to be taken. *)
Inductive variant := Plain | Try | Irqsave.

(** [PauseLoop] is the loop of [spin_lock], [Critical] the client that holds the lock. *)
Inductive point :=
  | Client
  | PushFlags
  | CliIrq
  | Acquire (v : variant)
  | PauseLoop (v : variant)
  | Critical (v : variant)
  | Release (v : variant)
  | PopFlags.

Record thread := { pc : point; IF : bool; flags : bool }.

Definition goto (p : point) (t : thread) : thread := {| pc := p; IF := IF t; flags := flags t |}.

Definition spin_step (l : spinlock) (t : thread) : option (spinlock * thread) :=
  match pc t with
  | Client | Critical _ => None
  (* spin_lock_irqsave *)
  | PushFlags => Some (l, {| pc := CliIrq; IF := IF t; flags := IF t |})
  | CliIrq => Some (l, {| pc := Acquire Irqsave; IF := false; flags := flags t |})
  (* spin_lock and spin_trylock *)
  | Acquire v =>
      let '(old, l') := test_and_set l in
      Some (l', goto (if old =? 0 then Critical v else match v with Try => Client | _ => PauseLoop v end) t)
  | PauseLoop v => Some (l, goto (Acquire v) t)
  (* spin_unlock, spin_unlock_irqrestore *)
  | Release v => Some (release l, goto (match v with Irqsave => PopFlags | _ => Client end) t)
  | PopFlags => Some (l, {| pc := Client; IF := flags t; flags := flags t |})
  end.

Inductive thread_step : spinlock → thread → spinlock → thread → Prop :=
  | in_function l t l' t' : spin_step l t = Some (l', t') → thread_step l t l' t'
  | call_spin_lock l t : pc t = Client → thread_step l t l (goto (Acquire Plain) t)
  | call_spin_trylock l t : pc t = Client → thread_step l t l (goto (Acquire Try) t)
  | call_spin_lock_irqsave l t : pc t = Client → thread_step l t l (goto PushFlags t)
  | call_unlock l t v : pc t = Critical v → thread_step l t l (goto (Release v) t).

Abbreviation lsys := (sys (G := spinlock) (L := thread)).

Definition parallel (_ : thread) : bool := true.

Definition lreaches : lsys → lsys → Prop := reaches thread_step parallel.

Definition new_thread (b : bool) : thread := {| pc := Client; IF := b; flags := false |}.

(** One thread per element of [ifs], each with its own interrupt flag. *)
Definition start (nm : option (list Z)) (ifs : list bool) : lsys := Sys (spin_lock_init nm) (new_thread <$> ifs) 0.

(** ** Exclusion *)

Definition holding (t : thread) : bool := match pc t with Critical _ | Release _ => true | _ => false end.

Definition share (t : thread) : Z := if holding t then 1 else 0.

(** Interrupts stay disabled while a lock taken with them disabled is held. *)
Definition masked (t : thread) : Prop :=
  match pc t with Acquire Irqsave | PauseLoop Irqsave | Critical Irqsave | Release Irqsave | PopFlags => IF t = false | _ => True end.

Definition word (l : spinlock) (n : Z) : Prop := lock l = n ∧ (n = 0 ∨ n = 1).

Lemma spin_step_ok l n t l' t' :
  masked t → share t ≤ n → word l n → thread_step l t l' t' → masked t' ∧ word l' (n - share t + share t').
Proof.
  intros Hm Hs Hw Ht. destruct t as [p i fl]. unfold masked, share, holding, word in *.
  destruct Ht as [l [p' i' fl'] l' t' Hst|l t Hp|l t Hp|l t Hp|l t v Hp]; cbn in *.
  2-5: rewrite Hp in *; cbn; split; [try (by destruct v); done | lia].
  destruct p'; cbn in Hst; repeat case_match; simplify_eq/=; zbool; split; done || lia || (split; lia).
Qed.

Lemma spin_inv nm ifs s : ifs ≠ [] → lreaches (start nm ifs) s → inv parallel share masked (λ l n _, word l n) s.
Proof.
  intros Hne. apply (exclusion_rule thread_step parallel share masked word (λ l n _, word l n)).
  - done.
  - intros l n t l' t' Hm Hle Hw Ht. eapply spin_step_ok; [done | | done | done]. apply Hle. intros x _. unfold share. by case_match.
  - unfold start. split; cbn [shared threads running].
    + intros t (b & -> & _)%list_elem_of_fmap. done.
    + destruct ifs as [|b ifs]; [done|]. exists (new_thread b). split; [done|].
      assert (total share (new_thread <$> b :: ifs) = 0) as ->; [|split; [done | by left]].
      generalize (b :: ifs). intros k. induction k as [|c k IH]; [done|]. rewrite fmap_cons, total_cons, IH. done.
    + done.
Qed.

(** C31: A spin lock excludes processors that run in parallel: at most one of the threads
    that take it plainly, by trying or with interrupts saved is between taking and
    releasing it, the lock word is set then, and who took it with interrupts saved runs
    with interrupts disabled until it is released. *)
Theorem spin_lock_excludes nm ifs s :
  ifs ≠ [] → lreaches (start nm ifs) s →
  (∀ i j t u, threads s !! i = Some t → threads s !! j = Some u → holding t = true → holding u = true → i = j) ∧
  (∀ i t, threads s !! i = Some t → holding t = true → lock (shared s) = 1 ∧ (pc t = Critical Irqsave → IF t = false)).
Proof.
  intros Hne Hr. destruct (spin_inv nm ifs s Hne Hr) as [Hm (c & _ & Hw & Hn) _].
  assert (∀ x, x ∈ threads s → 0 ≤ share x) as Hpos by (intros x _; unfold share; by case_match). split.
  - intros i j t u Hi Hj Ht Hu. destruct (decide (i = j)) as [|Hne']; [done|].
    pose proof (total_two share (threads s) i j t u Hpos Hi Hj Hne') as H2. unfold share in H2 at 1 2. rewrite Ht, Hu in H2. lia.
  - intros i t Hi Ht. pose proof (total_bound share (threads s) i t Hpos Hi) as H1. unfold share in H1 at 1. rewrite Ht in H1. split; [lia|].
    intros Hp. specialize (Hm t (list_elem_of_lookup_2 _ _ _ Hi)). unfold masked in Hm. by rewrite Hp in Hm.
Qed.

(** ** Executions *)

Inductive action := Go | Call (p : point).

Definition exec (a : action) (l : spinlock) (t : thread) : option (spinlock * thread) :=
  match a, pc t with
  | Go, _ => spin_step l t
  | Call (Acquire Plain), Client => Some (l, goto (Acquire Plain) t)
  | Call (Acquire Try), Client => Some (l, goto (Acquire Try) t)
  | Call PushFlags, Client => Some (l, goto PushFlags t)
  | Call (Release _), Critical v => Some (l, goto (Release v) t)
  | _, _ => None
  end.

Lemma spin_exec_step a l t l' t' : exec a l t = Some (l', t') → thread_step l t l' t'.
Proof.
  destruct a as [|p]; cbn; [apply in_function|]. destruct (pc t) eqn:E, p as [| | |[]|[]|[]|[]|]; try done; intros [= <- <-].
  all: by constructor.
Qed.

Lemma spin_lock_excludes_witness :
  ∃ s t, lreaches (start None [true; true]) s ∧ threads s !! 0%nat = Some t ∧ holding t = true ∧ IF t = false ∧ lock (shared s) = 1.
Proof.
  destruct (acts parallel exec ([inl (Call PushFlags); inl Go; inl Go; inl Go; inr 1%nat; inl (Call (Acquire Plain)); inl Go; inr 0%nat])
    (start None [true; true])) as [s|] eqn:E; [|by vm_compute in E].
  pose proof (acts_reach _ _ _ spin_exec_step _ _ _ E) as Hr. vm_compute in E. injection E as <-. eexists _, _.
  split; [exact Hr|]. split; [reflexivity|]. split; [reflexivity|].
  destruct (proj2 (spin_lock_excludes None [true; true] _ ltac:(done) Hr) 0%nat _ eq_refl eq_refl) as [H1 H2].
  split; [exact (H2 eq_refl) | exact H1].
Defined.

(** On a free lock each way of taking it succeeds at once; with it taken, trying fails
    and leaves the lock taken, and after saving, taking, releasing and restoring the
    interrupt flag is what it was. *)
Theorem spin_lock_functional l t :
  pc t = Client → lock l = 0 →
  (∀ v, v ≠ Irqsave → spin_step l (goto (Acquire v) t) = Some ({| lock := 1; lock_name := lock_name l |}, goto (Critical v) t)) ∧
  (∀ l', lock l' ≠ 0 → spin_step l' (goto (Acquire Try) t) = Some ({| lock := 1; lock_name := lock_name l' |}, t)) ∧
  ∃ t1 t2 t3 t4 l1, spin_step l (goto PushFlags t) = Some (l, t1) ∧ spin_step l t1 = Some (l, t2) ∧ IF t2 = false ∧
    spin_step l t2 = Some (l1, t3) ∧ pc t3 = Critical Irqsave ∧ lock l1 = 1 ∧
    spin_step l1 (goto (Release Irqsave) t3) = Some (release l1, t4) ∧ lock (release l1) = 0 ∧
    spin_step (release l1) t4 = Some (release l1, {| pc := Client; IF := IF t; flags := IF t |}).
Proof.
  destruct l as [w nm], t as [p i fl]. cbn. intros -> ->. split_and!.
  - by intros [].
  - intros [w' nm'] Hw. cbn in *. by rewrite (proj2 (Z.eqb_neq _ _) Hw).
  - eexists _, _, _, _, _. by split_and!.
Qed.

Lemma spin_lock_functional_witness :
  spin_step (spin_lock_init None) (goto (Acquire Try) (new_thread true)) = Some ({| lock := 1; lock_name := Some unnamed |}, goto (Critical Try) (new_thread true)).
Proof. exact (proj1 (spin_lock_functional (spin_lock_init None) (new_thread true) eq_refl eq_refl) Try ltac:(done)). Defined.
