(* ===== verification/Mutex.v ===== *)
(** * Mutexes (kernel/sync/mutex.c, include/sync/mutex.h)

    The state of a thread is the statement it executes, the interrupt flag of its
    context and the flags that the function it executes has saved; [mutex_step] is
    the execution of one statement.  What happens between the statements is up to the
    semantics of Threads.v: a thread with interrupts enabled may be preempted. *)

From stdpp Require Import relations.
From S2P Require Import Prelude Errno WaitQueue Threads.

#[local] Open Scope Z_scope.

Abbreviation MUTEX_NORMAL := 0%Z (only parsing).
Abbreviation MUTEX_RECURSIVE := 1%Z (only parsing).
Abbreviation MUTEX_ERRORCHECK := 2%Z (only parsing).
Abbreviation MUTEX_UNLOCKED := 0%Z (only parsing).
Abbreviation MUTEX_LOCKED := 1%Z (only parsing).

Record mutex := {
  locked : Z;
  type : Z;
  owner : Z;
  recursion : Z;
  wait_queue : wait_queue_head;
  lock_count : Z;
  unlock_count : Z;
  contention_count : Z;
}.

Record mutexattr := { attr_type : Z; attr_pshared : Z }.

Record mutex_stats := { total_locks : Z; total_unlocks : Z; total_contentions : Z }.

(** A mutex and the statistics of the module. *)
Record shared_mutex := { mx : mutex; stats : mutex_stats }.

Definition with_locked (v : Z) (m : mutex) : mutex :=
  {| locked := v; type := type m; owner := owner m; recursion := recursion m; wait_queue := wait_queue m;
     lock_count := lock_count m; unlock_count := unlock_count m; contention_count := contention_count m |}.
Definition with_owner (v : Z) (m : mutex) : mutex :=
  {| locked := locked m; type := type m; owner := v; recursion := recursion m; wait_queue := wait_queue m;
     lock_count := lock_count m; unlock_count := unlock_count m; contention_count := contention_count m |}.
Definition with_recursion (v : Z) (m : mutex) : mutex :=
  {| locked := locked m; type := type m; owner := owner m; recursion := v; wait_queue := wait_queue m;
     lock_count := lock_count m; unlock_count := unlock_count m; contention_count := contention_count m |}.
Definition with_lock_count (v : Z) (m : mutex) : mutex :=
  {| locked := locked m; type := type m; owner := owner m; recursion := recursion m; wait_queue := wait_queue m;
     lock_count := v; unlock_count := unlock_count m; contention_count := contention_count m |}.
Definition with_unlock_count (v : Z) (m : mutex) : mutex :=
  {| locked := locked m; type := type m; owner := owner m; recursion := recursion m; wait_queue := wait_queue m;
     lock_count := lock_count m; unlock_count := v; contention_count := contention_count m |}.
Definition with_contention_count (v : Z) (m : mutex) : mutex :=
  {| locked := locked m; type := type m; owner := owner m; recursion := recursion m; wait_queue := wait_queue m;
     lock_count := lock_count m; unlock_count := unlock_count m; contention_count := v |}.

(** ** Initialisation, attributes, queries *)

Definition mutex_init_system : mutex_stats := {| total_locks := 0; total_unlocks := 0; total_contentions := 0 |}.

Definition get_current_pid : Z := 1.

Definition mutex_init (attr : option mutexattr) : mutex :=
  {| locked := MUTEX_UNLOCKED; type := match attr with Some a => attr_type a | None => MUTEX_NORMAL end;
     owner := 0; recursion := 0; wait_queue := init_waitqueue_head; lock_count := 0; unlock_count := 0;
     contention_count := 0 |}.

Definition mutex_init_simple : mutex :=
  {| locked := MUTEX_UNLOCKED; type := MUTEX_NORMAL; owner := 0; recursion := 0; wait_queue := init_waitqueue_head;
     lock_count := 0; unlock_count := 0; contention_count := 0 |}.

Definition mutex_destroy (m : option mutex) : Z :=
  match m with None => - EINVAL | Some m => if locked m =? MUTEX_LOCKED then - EBUSY else 0 end.

Definition mutex_get_owner (m : option mutex) : Z := match m with Some m => owner m | None => 0 end.

Definition mutexattr_init (a : option mutexattr) : Z * option mutexattr :=
  match a with None => (- EINVAL, None) | Some _ => (0, Some {| attr_type := MUTEX_NORMAL; attr_pshared := 0 |}) end.

Definition mutexattr_settype (a : option mutexattr) (t : Z) : Z * option mutexattr :=
  match a with
  | None => (- EINVAL, None)
  | Some a' =>
      if negb (t =? MUTEX_NORMAL) && negb (t =? MUTEX_RECURSIVE) && negb (t =? MUTEX_ERRORCHECK) then (- EINVAL, a)
      else (0, Some {| attr_type := t; attr_pshared := attr_pshared a' |})
  end.

Definition mutexattr_setpshared (a : option mutexattr) (p : Z) : Z * option mutexattr :=
  match a with None => (- EINVAL, None) | Some a' => (0, Some {| attr_type := attr_type a'; attr_pshared := p |}) end.

(** ** Execution of the functions that disable interrupts *)

Inductive attempt := Lock | Trylock.
Inductive call := Acquire (a : attempt) | Unlock.

(** The statement a thread executes next.  [Client] is outside of the module; [SaveFlags]
    and [Cli] are the assembly statement that opens each function, [Popf] the one that
    restores the flags, with the result the function returns. *)
Inductive point :=
  | Client
  | SaveFlags (c : call)
  | Cli (c : call)
  | TypeRecursive (a : attempt)
  | IncRecursion (a : attempt)
  | IncLockCount (a : attempt)
  | TypeErrorcheck
  | WhileLocked
  | IncContention
  | IncTotalContentions
  | Sti
  | Pause
  | CliAgain
  | IfLocked
  | SetLocked (a : attempt)
  | SetOwner (a : attempt)
  | SetRecursion (a : attempt)
  | CountLock (a : attempt)
  | CountTotalLock (a : attempt)
  | CheckOwner
  | CheckRecursion
  | DecRecursion
  | CountDecUnlock
  | ClearOwner
  | ClearRecursion
  | SetUnlocked
  | CountUnlock
  | CountTotalUnlock
  | Popf (c : call) (r : Z).

(** [depth] is the number of successful locks the thread has not yet undone. *)
Record thread := { pc : point; IF : bool; flags : bool; depth : Z }.

Definition goto (p : point) (t : thread) : thread := {| pc := p; IF := IF t; flags := flags t; depth := depth t |}.
Definition set_IF (b : bool) (p : point) (t : thread) : thread := {| pc := p; IF := b; flags := flags t; depth := depth t |}.

Definition on_mx (f : mutex → mutex) (g : shared_mutex) : shared_mutex := {| mx := f (mx g); stats := stats g |}.
Definition on_stats (f : mutex_stats → mutex_stats) (g : shared_mutex) : shared_mutex := {| mx := mx g; stats := f (stats g) |}.

Definition inc_total_locks (s : mutex_stats) : mutex_stats :=
  {| total_locks := u64 (total_locks s + 1); total_unlocks := total_unlocks s; total_contentions := total_contentions s |}.
Definition inc_total_unlocks (s : mutex_stats) : mutex_stats :=
  {| total_locks := total_locks s; total_unlocks := u64 (total_unlocks s + 1); total_contentions := total_contentions s |}.
Definition inc_total_contentions (s : mutex_stats) : mutex_stats :=
  {| total_locks := total_locks s; total_unlocks := total_unlocks s; total_contentions := u64 (total_contentions s + 1) |}.

(** The effect of a return on what the thread holds. *)
Definition returned (c : call) (r : Z) (d : Z) : Z :=
  if r =? 0 then match c with Acquire _ => d + 1 | Unlock => d - 1 end else d.

(** One statement of [mutex_lock], [mutex_trylock] or [mutex_unlock]; [mutex_timedlock]
    is [mutex_lock].  A thread that is outside of the module does not run here. *)
Definition mutex_step (g : shared_mutex) (t : thread) : option (shared_mutex * thread) :=
  let m := mx g in
  let is_recursive_owner := (type m =? MUTEX_RECURSIVE) && (owner m =? get_current_pid) in
  match pc t with
  | Client => None
  | SaveFlags c => Some (g, {| pc := Cli c; IF := IF t; flags := IF t; depth := depth t |})
  | Cli Unlock => Some (g, set_IF false CheckOwner t)
  | Cli (Acquire a) => Some (g, set_IF false (TypeRecursive a) t)
  (* mutex_lock and mutex_trylock *)
  | TypeRecursive Lock => Some (g, goto (if is_recursive_owner then IncRecursion Lock else TypeErrorcheck) t)
  | TypeRecursive Trylock => Some (g, goto (if is_recursive_owner then IncRecursion Trylock else IfLocked) t)
  | IncRecursion a => Some (on_mx (λ m, with_recursion (u32 (recursion m + 1)) m) g, goto (IncLockCount a) t)
  | IncLockCount a => Some (on_mx (λ m, with_lock_count (u64 (lock_count m + 1)) m) g, goto (Popf (Acquire a) 0) t)
  | TypeErrorcheck =>
      Some (g, goto (if (type m =? MUTEX_ERRORCHECK) && (owner m =? get_current_pid) then Popf (Acquire Lock) (- EDEADLK) else WhileLocked) t)
  | WhileLocked => Some (g, goto (if locked m =? MUTEX_LOCKED then IncContention else SetLocked Lock) t)
  | IncContention => Some (on_mx (λ m, with_contention_count (u64 (contention_count m + 1)) m) g, goto IncTotalContentions t)
  | IncTotalContentions => Some (on_stats inc_total_contentions g, goto Sti t)
  | Sti => Some (g, set_IF true Pause t)
  | Pause => Some (g, goto CliAgain t)
  | CliAgain => Some (g, set_IF false WhileLocked t)
  | IfLocked => Some (g, goto (if locked m =? MUTEX_LOCKED then Popf (Acquire Trylock) (- EBUSY) else SetLocked Trylock) t)
  | SetLocked a => Some (on_mx (with_locked MUTEX_LOCKED) g, goto (SetOwner a) t)
  | SetOwner a => Some (on_mx (with_owner get_current_pid) g, goto (SetRecursion a) t)
  | SetRecursion a => Some (on_mx (with_recursion 1) g, goto (CountLock a) t)
  | CountLock a => Some (on_mx (λ m, with_lock_count (u64 (lock_count m + 1)) m) g, goto (CountTotalLock a) t)
  | CountTotalLock a => Some (on_stats inc_total_locks g, goto (Popf (Acquire a) 0) t)
  (* mutex_unlock *)
  | CheckOwner => Some (g, goto (if owner m =? get_current_pid then CheckRecursion else Popf Unlock (- EPERM)) t)
  | CheckRecursion => Some (g, goto (if (type m =? MUTEX_RECURSIVE) && (1 <? recursion m) then DecRecursion else ClearOwner) t)
  | DecRecursion => Some (on_mx (λ m, with_recursion (recursion m - 1) m) g, goto CountDecUnlock t)
  | CountDecUnlock => Some (on_mx (λ m, with_unlock_count (u64 (unlock_count m + 1)) m) g, goto (Popf Unlock 0) t)
  | ClearOwner => Some (on_mx (with_owner 0) g, goto ClearRecursion t)
  | ClearRecursion => Some (on_mx (with_recursion 0) g, goto SetUnlocked t)
  | SetUnlocked => Some (on_mx (with_locked MUTEX_UNLOCKED) g, goto CountUnlock t)
  | CountUnlock => Some (on_mx (λ m, with_unlock_count (u64 (unlock_count m + 1)) m) g, goto CountTotalUnlock t)
  | CountTotalUnlock => Some (on_stats inc_total_unlocks g, goto (Popf Unlock 0) t)
  | Popf c r => Some (g, {| pc := Client; IF := flags t; flags := flags t; depth := returned c r (depth t) |})
  end.

(** A thread: the functions, and clients that call them in any order but unlock only
    what they have locked, and that enable and disable interrupts themselves. *)
Inductive thread_step : shared_mutex → thread → shared_mutex → thread → Prop :=
  | in_function g t g' t' : mutex_step g t = Some (g', t') → thread_step g t g' t'
  | call_lock g t : pc t = Client → thread_step g t g (goto (SaveFlags (Acquire Lock)) t)
  | call_trylock g t : pc t = Client → thread_step g t g (goto (SaveFlags (Acquire Trylock)) t)
  | call_unlock g t : pc t = Client → 0 < depth t → thread_step g t g (goto (SaveFlags Unlock) t)
  | client_flag g t b : pc t = Client → thread_step g t g (set_IF b Client t).

Abbreviation msys := (sys (G := shared_mutex) (L := thread)).

Definition new_thread : thread := {| pc := Client; IF := true; flags := false; depth := 0 |}.

(** [n] threads and a new mutex of type [ty]. *)
Definition start (ty : Z) (n : nat) : msys :=
  Sys {| mx := mutex_init (Some {| attr_type := ty; attr_pshared := 0 |}); stats := mutex_init_system |} (replicate n new_thread) 0.

Definition mreaches : msys → msys → Prop := reaches thread_step IF.

(** ** Normal mutexes exclude *)

(** What the mutex counts for a thread: a lock in effect whose call has not returned yet
    counts already, one that has been undone no longer. *)
Definition share (t : thread) : Z :=
  depth t +
  match pc t with
  | SetOwner _ | SetRecursion _ | CountLock _ | CountTotalLock _ => 1
  | CountUnlock | CountTotalUnlock => -1
  | Popf c r => returned c r 0
  | _ => 0
  end.

Definition preemptible_point (p : point) : bool :=
  match p with Client | SaveFlags _ | Cli _ | Pause | CliAgain => true | _ => false end.

Definition unlocking (p : point) : bool :=
  match p with
  | SaveFlags Unlock | Cli Unlock | CheckOwner | CheckRecursion | ClearOwner | ClearRecursion | SetUnlocked
  | CountUnlock | CountTotalUnlock | Popf Unlock _ => true
  | _ => false
  end.

Record thread_ok (t : thread) : Prop := {
  to_masked : preemptible_point (pc t) = false → IF t = false;
  to_depth : 0 ≤ depth t;
  to_unlock : unlocking (pc t) = true → 0 < depth t;
}.

Definition fields (m : mutex) (l o r : Z) : Prop := type m = MUTEX_NORMAL ∧ locked m = l ∧ owner m = o ∧ recursion m = r.

Definition free (g : shared_mutex) (n : Z) : Prop := n = 0 ∧ fields (mx g) 0 0 0.
Definition taken (g : shared_mutex) (n : Z) : Prop := n = 1 ∧ fields (mx g) 1 1 1.
Definition consistent (g : shared_mutex) (n : Z) : Prop := free g n ∨ taken g n.

(** What holds while the running thread is at a statement. *)
Definition at_point (g : shared_mutex) (n : Z) (t : thread) : Prop :=
  match pc t with
  | SetLocked _ => free g n
  | SetOwner _ => n = 1 ∧ fields (mx g) 1 0 0
  | SetRecursion _ => n = 1 ∧ fields (mx g) 1 1 0
  | ClearRecursion => n = 1 ∧ fields (mx g) 1 0 1
  | SetUnlocked => n = 1 ∧ fields (mx g) 1 0 0
  | CheckRecursion | ClearOwner => taken g n
  | IncRecursion _ | IncLockCount _ | DecRecursion | CountDecUnlock => False
  | Popf Unlock r => r = 0 ∧ consistent g n
  | _ => consistent g n
  end.

Lemma share_nonneg t : thread_ok t → 0 ≤ share t.
Proof.
  intros [_ Hd Hu]. unfold share. destruct (pc t) eqn:E; cbn in *; try lia; try (specialize (Hu eq_refl); lia).
  unfold returned. destruct (r =? 0); [|lia]. destruct c; lia.
Qed.

Lemma at_point_preemptible g n t : thread_ok t → IF t = true → at_point g n t ↔ consistent g n.
Proof.
  intros [Hm _ _] Hi. assert (preemptible_point (pc t) = true) as Hp by (destruct (preemptible_point (pc t)); [done | rewrite Hm in Hi; done]).
  unfold at_point. by destruct (pc t).
Qed.

(** Case analysis on the state of the mutex, then arithmetic. *)
Ltac settle :=
  unfold consistent, free, taken, fields, get_current_pid, returned in *;
  cbn in *; zbool; intuition lia.

Lemma mutex_step_ok g n t g' t' :
  thread_ok t → share t ≤ n → at_point g n t → thread_step g t g' t' →
  thread_ok t' ∧ at_point g' (n - share t + share t') t'.
Proof.
  intros Hok Hn Hat Hs. destruct Hs as [g t g' t' Hs|g t Hp|g t Hp|g t Hp Hd|g t b Hp].
  2-5: destruct t as [p i fl d]; cbn in Hp; subst p; destruct Hok as [Hm Hd0 Hu]; unfold share, at_point in *; cbn in *;
    rewrite ?Z.sub_diag, ?Z.add_0_r, ?Z.sub_add; split; [split; cbn; done || lia | done].
  destruct t as [p i fl d]. destruct Hok as [Hm Hd0 Hu]. unfold mutex_step in Hs. unfold share, at_point in *. cbn in *.
  destruct p; cbn in *; repeat case_match; simplify_eq/=.
  all: split; [split; cbn; intros; done || lia || (by apply Hm) || (by apply Hu) || settle|].
  all: settle.
Qed.

Lemma start_inv n : (0 < n)%nat → inv IF share thread_ok at_point (start MUTEX_NORMAL n).
Proof.
  intros Hn. unfold start. split; cbn [shared threads running].
  - intros t [-> _]%elem_of_replicate. by split.
  - exists new_thread. split; [by apply lookup_replicate_2|]. left. split; [|done].
    clear Hn. induction n as [|n IH]; [done|]. cbn [replicate]. by rewrite total_cons, IH.
  - intros j t [-> _]%lookup_replicate_1 _. done.
Qed.

Lemma normal_inv n s : (0 < n)%nat → mreaches (start MUTEX_NORMAL n) s → inv IF share thread_ok at_point s.
Proof.
  intros Hn. apply (exclusion_rule thread_step IF share thread_ok consistent at_point).
  - intros. by apply at_point_preemptible.
  - intros g k t g' t' Hok Hle. by apply mutex_step_ok, Hle, share_nonneg.
  - by apply start_inv.
Qed.

Lemma at_point_total g n t : at_point g n t → n ≤ 1.
Proof. unfold at_point. intros H. destruct (pc t); try (destruct c); settle. Qed.

(** The thread is between a lock that succeeded and the matching unlock. *)
Definition in_critical (t : thread) : Prop := pc t = Client ∧ 0 < depth t.

Lemma critical_share t : in_critical t → share t = depth t.
Proof. intros [Hp _]. unfold share. rewrite Hp. lia. Qed.

Lemma at_point_locked g n t : at_point g n t → 0 < n → locked (mx g) = MUTEX_LOCKED.
Proof. unfold at_point. intros H. destruct (pc t); try (destruct c); settle. Qed.

Lemma at_point_unlocked g n t : at_point g n t → locked (mx g) = MUTEX_UNLOCKED → owner (mx g) = 0.
Proof. unfold at_point. intros H. destruct (pc t); try (destruct c); settle. Qed.

(** Run the function the thread is in until it restores the flags: what it returns. *)
Fixpoint result (fuel : nat) (g : shared_mutex) (t : thread) : option (shared_mutex * Z) :=
  match fuel with
  | O => None
  | S fuel =>
      match pc t with
      | Popf _ r => Some (g, r)
      | _ => match mutex_step g t with Some (g', t') => result fuel g' t' | None => None end
      end
  end.

Lemma result_step fuel g t g' t' R :
  match pc t with Popf _ _ => false | _ => true end = true → mutex_step g t = Some (g', t') → result fuel g' t' = R → result (S fuel) g t = R.
Proof. intros Hp Hs <-. cbn [result]. rewrite Hs. by destruct (pc t). Qed.

Lemma unlock_result g t : owner (mx g) = 0 → result 4 g (goto (SaveFlags Unlock) t) = Some (g, - EPERM).
Proof.
  intros Ho. eapply result_step; [done | reflexivity|]. eapply result_step; [done | reflexivity|].
  eapply result_step; [done | cbn [mutex_step set_IF goto pc]; rewrite Ho; reflexivity|]. done.
Qed.

(** C29: A normal mutex excludes: however [n] threads that lock, try to lock and unlock what
    they hold are interleaved, preemption being possible at every statement with
    interrupts enabled, at most one of them is in its critical section; the mutex is
    locked then, and an unlock by a thread that holds it never fails.  An unlock that finds
    the mutex free is refused with -EPERM and changes nothing.  The clients must unlock
    only what they have locked: a stray unlock frees the mutex of another thread. *)
Theorem mutex_excludes n s :
  (0 < n)%nat → mreaches (start MUTEX_NORMAL n) s →
  (∀ i j t u, threads s !! i = Some t → threads s !! j = Some u → in_critical t → in_critical u → i = j ∧ depth t = 1) ∧
  (∀ i t, threads s !! i = Some t → in_critical t → locked (mx (shared s)) = MUTEX_LOCKED) ∧
  (∀ i t r, threads s !! i = Some t → pc t = Popf Unlock r → r = 0) ∧
  (locked (mx (shared s)) = MUTEX_UNLOCKED → ∀ t, result 4 (shared s) (goto (SaveFlags Unlock) t) = Some (shared s, - EPERM)).
Proof.
  intros Hn Hr. destruct (normal_inv n s Hn Hr) as [Hok (c & Hc & Hat) Hoff]. pose proof (at_point_total _ _ _ Hat) as H1.
  assert (∀ x, x ∈ threads s → 0 ≤ share x) as Hpos by (intros x Hx; by apply share_nonneg, Hok). split_and!.
  - intros i j t u Hi Hj Ht Hu. pose proof (total_bound share (threads s) i t Hpos Hi).
    pose proof (critical_share t Ht). pose proof (critical_share u Hu). destruct Ht as [_ Ht], Hu as [_ Hu]. split; [|lia].
    destruct (decide (i = j)) as [|Hne]; [done|]. pose proof (total_two share (threads s) i j t u Hpos Hi Hj Hne). lia.
  - intros i t Hi Ht. pose proof (total_bound share (threads s) i t Hpos Hi). pose proof (critical_share t Ht). destruct Ht as [_ Ht].
    eapply at_point_locked; [exact Hat | lia].
  - intros i t r Hi Hp. assert (i = running s) as ->.
    { destruct (decide (i = running s)) as [|Hne]; [done|]. pose proof (Hoff i t Hi Hne) as He.
      destruct (Hok t ltac:(by eapply list_elem_of_lookup_2)) as [Hm _ _]. rewrite Hp in Hm. rewrite Hm in He; done. }
    assert (c = t) as -> by congruence. unfold at_point in Hat. rewrite Hp in Hat. apply Hat.
  - intros Hl t. by eapply unlock_result, at_point_unlocked.
Qed.

(** ** Executions *)

Inductive action := Go | Call (c : call).

Definition exec (a : action) (g : shared_mutex) (t : thread) : option (shared_mutex * thread) :=
  match a with
  | Go => mutex_step g t
  | Call c =>
      match pc t with
      | Client => if match c with Unlock => 0 <? depth t | _ => true end then Some (g, goto (SaveFlags c) t) else None
      | _ => None
      end
  end.

Lemma exec_step a g t g' t' : exec a g t = Some (g', t') → thread_step g t g' t'.
Proof.
  destruct a as [|c]; cbn; [apply in_function|]. destruct (pc t) eqn:Ep; try done.
  destruct (match c with Acquire _ => true | Unlock => 0 <? depth t end) eqn:Ec; [|done]. intros [= <- <-].
  destruct c as [[]|]; [by apply call_lock | by apply call_trylock|]. apply call_unlock; [done | by apply Z.ltb_lt].
Qed.

Definition run_schedule : list (action + nat) → msys → option msys := acts IF exec.

Lemma schedule_reach sch s s' : run_schedule sch s = Some s' → mreaches s s'.
Proof. apply acts_reach, exec_step. Qed.

(** A call that is not preempted. *)
Definition whole (c : call) (k : nat) : list (action + nat) := inl (Call c) :: replicate k (inl Go).

Lemma mutex_excludes_witness :
  ∃ s, mreaches (start MUTEX_NORMAL 2) s ∧ locked (mx (shared s)) = MUTEX_LOCKED ∧ depth <$> threads s !! 0%nat = Some 1.
Proof.
  destruct (run_schedule (whole (Acquire Lock) 11) (start MUTEX_NORMAL 2)) as [s|] eqn:E; [|by vm_compute in E].
  pose proof (schedule_reach _ _ _ E) as Hr. exists s. split; [exact Hr|]. vm_compute in E. injection E as <-.
  split; [|done]. apply (proj1 (proj2 (mutex_excludes 2 _ ltac:(lia) Hr)) 0%nat _ eq_refl). by split.
Defined.

(** Any thread passes for the owner, process 1: when one is in its critical section, an
    unlock by another one succeeds, and a lock by that one then succeeds too. *)
Theorem mutex_unlock_by_anyone n s i t u :
  (0 < n)%nat → mreaches (start MUTEX_NORMAL n) s → threads s !! i = Some t → in_critical t → owner (mx (shared s)) = 1 → pc u = Client →
  ∃ g1 g2, result 12 (shared s) (goto (SaveFlags Unlock) u) = Some (g1, 0) ∧ locked (mx g1) = MUTEX_UNLOCKED ∧
    result 12 g1 (goto (SaveFlags (Acquire Lock)) u) = Some (g2, 0) ∧ locked (mx g2) = MUTEX_LOCKED.
Proof.
  intros Hn Hr Hi Ht Ho Hu. destruct (normal_inv n s Hn Hr) as [Hok (c & Hc & Hat) Hoff].
  assert (type (mx (shared s)) = MUTEX_NORMAL) as Hty by (unfold at_point in Hat; destruct (pc c); try (destruct c0); settle).
  destruct (shared s) as [[l ty o r wq lc uc cc] st]. cbn in Hty, Ho. subst ty o.
  eexists _, _. split; [reflexivity|]. split; [reflexivity|]. split; reflexivity.
Qed.

(** A recursive mutex excludes nobody: every thread passes for the owner, process 1, so
    a second thread that locks it enters its critical section at once; a thread that
    locks an error-checking mutex held by another is told that it deadlocks. *)
Theorem mutex_recursive_shared :
  (∃ s t u, mreaches (start MUTEX_RECURSIVE 2) s ∧ threads s !! 0%nat = Some t ∧ threads s !! 1%nat = Some u ∧
     in_critical t ∧ in_critical u) ∧
  (∃ s t u, mreaches (start MUTEX_ERRORCHECK 2) s ∧ threads s !! 0%nat = Some t ∧ threads s !! 1%nat = Some u ∧
     in_critical t ∧ depth u = 0 ∧ pc u = Popf (Acquire Lock) (- EDEADLK)).
Proof.
  split.
  - destruct (run_schedule (whole (Acquire Lock) 11 ++ inr 1%nat :: whole (Acquire Lock) 6) (start MUTEX_RECURSIVE 2)) as [s|] eqn:E;
      [|by vm_compute in E].
    pose proof (schedule_reach _ _ _ E) as Hr. vm_compute in E. injection E as <-. by eexists _, _, _.
  - destruct (run_schedule (whole (Acquire Lock) 11 ++ inr 1%nat :: whole (Acquire Lock) 4) (start MUTEX_ERRORCHECK 2)) as [s|] eqn:E;
      [|by vm_compute in E].
    pose proof (schedule_reach _ _ _ E) as Hr. vm_compute in E. injection E as <-. by eexists _, _, _.
Qed.

(** ** Calls that are not preempted *)

(** Run the function the thread is in until it returns. *)
Fixpoint finish (fuel : nat) (g : shared_mutex) (t : thread) : option (shared_mutex * thread) :=
  match fuel with
  | O => None
  | S fuel =>
      match pc t with
      | Client => Some (g, t)
      | _ => match mutex_step g t with Some (g', t') => finish fuel g' t' | None => None end
      end
  end.

Lemma finish_step fuel g t g' t' R :
  pc t ≠ Client → mutex_step g t = Some (g', t') → finish fuel g' t' = R → finish (S fuel) g t = R.
Proof. intros Hp Hs <-. cbn. rewrite Hs. by destruct (pc t). Qed.

Ltac finish_call :=
  repeat (eapply finish_step; [done | unfold mutex_step; cbn; rewrite ?andb_false_r; reflexivity|]; unfold goto; cbn [pc IF flags depth]);
  reflexivity.

Lemma lock_free a ty r wq lc uc cc st i fl d :
  finish 12 {| mx := {| locked := 0; type := ty; owner := 0; recursion := r; wait_queue := wq; lock_count := lc;
                        unlock_count := uc; contention_count := cc |}; stats := st |}
    {| pc := SaveFlags (Acquire a); IF := i; flags := fl; depth := d |} =
  Some ({| mx := {| locked := 1; type := ty; owner := 1; recursion := 1; wait_queue := wq; lock_count := u64 (lc + 1);
                    unlock_count := uc; contention_count := cc |}; stats := inc_total_locks st |},
        {| pc := Client; IF := i; flags := i; depth := d + 1 |}).
Proof. destruct a; finish_call. Qed.

Lemma unlock_taken ty wq lc uc cc st i fl d :
  finish 12 {| mx := {| locked := 1; type := ty; owner := 1; recursion := 1; wait_queue := wq; lock_count := lc;
                        unlock_count := uc; contention_count := cc |}; stats := st |}
    {| pc := SaveFlags Unlock; IF := i; flags := fl; depth := d |} =
  Some ({| mx := {| locked := 0; type := ty; owner := 0; recursion := 0; wait_queue := wq; lock_count := lc;
                    unlock_count := u64 (uc + 1); contention_count := cc |}; stats := inc_total_unlocks st |},
        {| pc := Client; IF := i; flags := i; depth := d - 1 |}).
Proof. finish_call. Qed.

(** On a free mutex of any type, lock and trylock return with the mutex taken, unlock
    then frees it again, each within twelve statements and with the interrupt flag as
    the caller had it; trylock on a taken normal mutex fails and changes nothing. *)
Theorem mutex_lock_unlock a g t :
  pc t = Client → locked (mx g) = MUTEX_UNLOCKED → owner (mx g) = 0 →
  ∃ g1 t1 g2 t2,
    finish 12 g (goto (SaveFlags (Acquire a)) t) = Some (g1, t1) ∧ IF t1 = IF t ∧ depth t1 = depth t + 1 ∧
    locked (mx g1) = MUTEX_LOCKED ∧ owner (mx g1) = get_current_pid ∧ recursion (mx g1) = 1 ∧
    finish 12 g1 (goto (SaveFlags Unlock) t1) = Some (g2, t2) ∧ IF t2 = IF t ∧ depth t2 = depth t ∧
    locked (mx g2) = MUTEX_UNLOCKED ∧ owner (mx g2) = 0 ∧ type (mx g2) = type (mx g) ∧
    (type (mx g) = MUTEX_NORMAL →
     ∃ t3, finish 12 g1 (goto (SaveFlags (Acquire Trylock)) t1) = Some (g1, t3) ∧ IF t3 = IF t ∧ depth t3 = depth t1).
Proof.
  destruct g as [[l ty o r wq lc uc cc] st], t as [p i fl d]. cbn [pc mx locked owner type]. intros -> -> ->.
  eexists _, _, _, _. split; [exact (lock_free a _ _ _ _ _ _ _ _ _ _)|]. do 5 (split; [done|]).
  split; [exact (unlock_taken _ _ _ _ _ _ _ _ _)|]. split_and!; try done; [cbn; lia|].
  intros ->. eexists. split; [finish_call | done].
Qed.

Lemma mutex_lock_unlock_witness :
  ∃ g t, finish 12 (shared (start MUTEX_RECURSIVE 1)) (goto (SaveFlags (Acquire Lock)) new_thread) = Some (g, t) ∧ depth t = 1.
Proof.
  destruct (mutex_lock_unlock Lock (shared (start MUTEX_RECURSIVE 1)) new_thread eq_refl eq_refl eq_refl) as (g & t & _ & _ & E & _ & D & _).
  by exists g, t.
Defined.
