(* ===== verification/Semaphore.v ===== *)
(** * Semaphores (kernel/sync/semaphore.c, include/sync/semaphore.h)

    Waiting and posting are executed statement by statement by threads, as the mutex
    functions in Mutex.v; the functions on named semaphores are functions on the list
    of semaphores of the manager.  The result of [kmalloc] is an argument of [sem_open]. *)

From stdpp Require Import relations.
From S2P Require Import Prelude Errno WaitQueue Threads.

#[local] Open Scope Z_scope.

Abbreviation SEM_VALUE_MAX := 32767%Z (only parsing).
Abbreviation SEM_MAX_NAMED := 256%Z (only parsing).
Abbreviation SEM_NAME_MAX := 64%Z (only parsing).
Abbreviation SEM_FLAG_NAMED := 1%Z (only parsing).
Abbreviation SEM_FLAG_SHARED := 2%Z (only parsing).
Definition O_CREAT : Z := 0x40.
Definition O_EXCL : Z := 0x80.

(** The links of the global list are the order of [named_sems]. *)
Record semaphore := {
  count : Z;
  sflags : Z;
  wait_queue : wait_queue_head;
  name : list Z;
  refcount : Z;
  wait_count : Z;
  post_count : Z;
}.

Record semaphore_manager := {
  named_sems : list (Z * semaphore);
  named_count : Z;
  total_waits : Z;
  total_posts : Z;
}.

Definition with_count (v : Z) (s : semaphore) : semaphore :=
  {| count := v; sflags := sflags s; wait_queue := wait_queue s; name := name s; refcount := refcount s;
     wait_count := wait_count s; post_count := post_count s |}.
Definition with_wait_count (v : Z) (s : semaphore) : semaphore :=
  {| count := count s; sflags := sflags s; wait_queue := wait_queue s; name := name s; refcount := refcount s;
     wait_count := v; post_count := post_count s |}.
Definition with_post_count (v : Z) (s : semaphore) : semaphore :=
  {| count := count s; sflags := sflags s; wait_queue := wait_queue s; name := name s; refcount := refcount s;
     wait_count := wait_count s; post_count := v |}.
Definition with_refcount (v : Z) (s : semaphore) : semaphore :=
  {| count := count s; sflags := sflags s; wait_queue := wait_queue s; name := name s; refcount := v;
     wait_count := wait_count s; post_count := post_count s |}.

Definition semaphore_init : semaphore_manager :=
  {| named_sems := []; named_count := 0; total_waits := 0; total_posts := 0 |}.

(** [value] is unsigned. *)
Definition sem_init (pshared value : Z) (s : semaphore) : Z * semaphore :=
  if SEM_VALUE_MAX <? value then (- EINVAL, s)
  else (0, {| count := value; sflags := if pshared =? 0 then 0 else SEM_FLAG_SHARED; wait_queue := init_waitqueue_head;
              name := []; refcount := 0; wait_count := 0; post_count := 0 |}).

Definition sem_destroy (s : option semaphore) : Z :=
  match s with
  | None => - EINVAL
  | Some s => if Z.land (sflags s) SEM_FLAG_NAMED =? 0 then 0 else - EINVAL
  end.

Definition sem_getvalue (s : option semaphore) : Z * option Z :=
  match s with None => (- EINVAL, None) | Some s => (0, Some (count s)) end.

(** ** Named semaphores *)

Definition sem_find_named (nm : list Z) (m : semaphore_manager) : option (Z * semaphore) :=
  List.find (λ e, bool_decide (name (snd e) = nm)) (named_sems m).

(** The semaphore at an address, updated. *)
Definition update_sem (a : Z) (f : semaphore → semaphore) (m : semaphore_manager) : semaphore_manager :=
  {| named_sems := (λ e, if fst e =? a then (fst e, f (snd e)) else e) <$> named_sems m; named_count := named_count m;
     total_waits := total_waits m; total_posts := total_posts m |}.

(** [strncpy] to the field and the explicit terminator. *)
Definition stored_name (nm : list Z) : list Z := take (Z.to_nat (SEM_NAME_MAX - 1)) nm.

Definition new_sem (nm : list Z) (value : Z) : semaphore :=
  {| count := value; sflags := Z.lor SEM_FLAG_NAMED SEM_FLAG_SHARED; wait_queue := init_waitqueue_head;
     name := stored_name nm; refcount := 1; wait_count := 0; post_count := 0 |}.

(** The names are the characters before the terminator; 47 is the slash, 0 is NULL. *)
Definition sem_open (nm : option (list Z)) (oflag value mem : Z) (m : semaphore_manager) : Z * semaphore_manager :=
  match nm with
  | None => (0, m)
  | Some nm =>
      if negb (bool_decide (hd 0 nm = 47)) then (0, m)
      else if SEM_VALUE_MAX <? value then (0, m)
      else
        match sem_find_named nm m with
        | Some (a, s) =>
            if negb (Z.land oflag O_CREAT =? 0) && negb (Z.land oflag O_EXCL =? 0) then (0, m)
            else (a, update_sem a (λ s, with_refcount (u32 (refcount s + 1)) s) m)
        | None =>
            if Z.land oflag O_CREAT =? 0 then (0, m)
            else if SEM_MAX_NAMED <=? named_count m then (0, m)
            else if mem =? 0 then (0, m)
            else (mem, {| named_sems := named_sems m ++ [(mem, new_sem nm value)]; named_count := u32 (named_count m + 1);
                          total_waits := total_waits m; total_posts := total_posts m |})
        end
  end.

Definition sem_close (a : Z) (m : semaphore_manager) : Z * semaphore_manager :=
  match List.find (λ e, fst e =? a) (named_sems m) with
  | None => (- EINVAL, m)
  | Some (_, s) =>
      if Z.land (sflags s) SEM_FLAG_NAMED =? 0 then (- EINVAL, m)
      else (0, if 0 <? refcount s then update_sem a (λ s, with_refcount (refcount s - 1) s) m else m)
  end.

Definition sem_unlink (nm : list Z) (m : semaphore_manager) : Z * semaphore_manager :=
  match sem_find_named nm m with
  | None => (- ENOENT, m)
  | Some (a, s) =>
      if 0 <? refcount s then (0, m)
      else (0, {| named_sems := filter (λ e, fst e ≠ a) (named_sems m); named_count := u32 (named_count m - 1);
                  total_waits := total_waits m; total_posts := total_posts m |})
  end.

(** ** Waiting and posting, statement by statement *)

Inductive attempt := Wait | Trywait.
Inductive call := Acquire (a : attempt) | Post.

Inductive point :=
  | Client
  | SaveFlags (c : call)
  | Cli (c : call)
  | WhileZero
  | IncWait
  | IncTotalWaits
  | Sti
  | Hlt
  | CliAgain
  | IfZero
  | Decrement (a : attempt)
  | IfMax
  | Increment
  | IncPost
  | IncTotalPosts
  | Popf (c : call) (r : Z).

(** [taken] is the number of successful waits of the thread minus that of its posts. *)
Record thread := { pc : point; IF : bool; flags : bool; taken : Z }.

Definition goto (p : point) (t : thread) : thread := {| pc := p; IF := IF t; flags := flags t; taken := taken t |}.
Definition set_IF (b : bool) (p : point) (t : thread) : thread := {| pc := p; IF := b; flags := flags t; taken := taken t |}.

(** A semaphore and the counters of the manager. *)
Record shared_sem := { sem : semaphore; waits : Z; posts : Z }.

Definition on_sem (f : semaphore → semaphore) (g : shared_sem) : shared_sem :=
  {| sem := f (sem g); waits := waits g; posts := posts g |}.

Definition returned (c : call) (r : Z) (n : Z) : Z :=
  if r =? 0 then match c with Acquire _ => n + 1 | Post => n - 1 end else n.

(** One statement of [sem_wait], [sem_trywait] or [sem_post]; [sem_timedwait], [down]
    and [down_interruptible] are [sem_wait], [down_trylock] is [sem_trywait] and [up] is
    [sem_post]. *)
Definition sem_step (g : shared_sem) (t : thread) : option (shared_sem * thread) :=
  let s := sem g in
  match pc t with
  | Client => None
  | SaveFlags c => Some (g, {| pc := Cli c; IF := IF t; flags := IF t; taken := taken t |})
  | Cli (Acquire Wait) => Some (g, set_IF false WhileZero t)
  | Cli (Acquire Trywait) => Some (g, set_IF false IfZero t)
  | Cli Post => Some (g, set_IF false IfMax t)
  (* sem_wait *)
  | WhileZero => Some (g, goto (if count s <=? 0 then IncWait else Decrement Wait) t)
  | IncWait => Some (on_sem (λ s, with_wait_count (u64 (wait_count s + 1)) s) g, goto IncTotalWaits t)
  | IncTotalWaits => Some ({| sem := sem g; waits := u64 (waits g + 1); posts := posts g |}, goto Sti t)
  | Sti => Some (g, set_IF true Hlt t)
  | Hlt => Some (g, goto CliAgain t)
  | CliAgain => Some (g, set_IF false WhileZero t)
  (* sem_trywait *)
  | IfZero => Some (g, goto (if count s <=? 0 then Popf (Acquire Trywait) (- EAGAIN) else Decrement Trywait) t)
  | Decrement a => Some (on_sem (λ s, with_count (i32 (count s - 1)) s) g, goto (Popf (Acquire a) 0) t)
  (* sem_post *)
  | IfMax => Some (g, goto (if SEM_VALUE_MAX <=? count s then Popf Post (- EOVERFLOW) else Increment) t)
  | Increment => Some (on_sem (λ s, with_count (i32 (count s + 1)) s) g, goto IncPost t)
  | IncPost => Some (on_sem (λ s, with_post_count (u64 (post_count s + 1)) s) g, goto IncTotalPosts t)
  | IncTotalPosts => Some ({| sem := sem g; waits := waits g; posts := u64 (posts g + 1) |}, goto (Popf Post 0) t)
  | Popf c r => Some (g, {| pc := Client; IF := flags t; flags := flags t; taken := returned c r (taken t) |})
  end.

(** Clients call the functions in any order, and enable and disable interrupts. *)
Inductive thread_step : shared_sem → thread → shared_sem → thread → Prop :=
  | in_function g t g' t' : sem_step g t = Some (g', t') → thread_step g t g' t'
  | call_function g t c : pc t = Client → thread_step g t g (goto (SaveFlags c) t)
  | client_flag g t b : pc t = Client → thread_step g t g (set_IF b Client t).

Abbreviation ssys := (sys (G := shared_sem) (L := thread)).

Definition new_thread : thread := {| pc := Client; IF := true; flags := false; taken := 0 |}.

(** [n] threads and a semaphore that [sem_init] has set to [v]. *)
Definition start (s : semaphore) (v : Z) (n : nat) : ssys :=
  Sys {| sem := snd (sem_init 0 v s); waits := 0; posts := 0 |} (replicate n new_thread) 0.

Definition sreaches : ssys → ssys → Prop := reaches thread_step IF.

(** ** The value of the semaphore *)

(** The permits the semaphore has given to a thread, net of those it got back. *)
Definition share (t : thread) : Z :=
  taken t + match pc t with Popf c r => returned c r 0 | IncPost | IncTotalPosts => -1 | _ => 0 end.

Definition preemptible_point (p : point) : bool :=
  match p with Client | SaveFlags _ | Cli _ | Hlt | CliAgain => true | _ => false end.

Definition thread_ok (t : thread) : Prop := preemptible_point (pc t) = false → IF t = false.

Definition conserved (v : Z) (g : shared_sem) (n : Z) : Prop := count (sem g) = v - n ∧ 0 ≤ count (sem g) ≤ SEM_VALUE_MAX.

Definition at_point (v : Z) (g : shared_sem) (n : Z) (t : thread) : Prop :=
  conserved v g n ∧ match pc t with Decrement _ => 0 < count (sem g) | Increment => count (sem g) < SEM_VALUE_MAX | _ => True end.

Lemma sem_at_preemptible v g n t : thread_ok t → IF t = true → at_point v g n t ↔ conserved v g n.
Proof.
  intros Hm Hi. assert (preemptible_point (pc t) = true) as Hp by (destruct (preemptible_point (pc t)) eqn:E; [done | rewrite (Hm E) in Hi; done]).
  unfold at_point. destruct (pc t); cbn in Hp; try done; tauto.
Qed.

Lemma sem_step_ok v g n t g' t' :
  thread_ok t → at_point v g n t → thread_step g t g' t' → thread_ok t' ∧ at_point v g' (n - share t + share t') t'.
Proof.
  intros Hok [[Hc Hr] Hat] Hs. destruct Hs as [g t g' t' Hs|g t c Hp|g t b Hp].
  2-3: destruct t as [p i fl d]; cbn in Hp; subst p; unfold share, at_point, conserved in *; cbn in *; split_and!; done || lia.
  destruct t as [p i fl d]. unfold sem_step in Hs. unfold share, at_point, conserved, thread_ok in *. cbn in *.
  destruct p; cbn in *; repeat case_match; simplify_eq/=; rewrite ?i32_small by lia.
  all: unfold returned in *; cbn in *; zbool; try destruct c; split_and!; done || lia || (intros; by apply Hok).
Qed.

Lemma sem_inv s v n s' : (0 < n)%nat → 0 ≤ v ≤ SEM_VALUE_MAX → sreaches (start s v n) s' → inv IF share thread_ok (at_point v) s'.
Proof.
  intros Hn Hv. apply (exclusion_rule thread_step IF share thread_ok (conserved v) (at_point v)).
  - intros. by apply sem_at_preemptible.
  - intros g k t g' t' Hok _. by apply sem_step_ok.
  - unfold start. split; cbn [shared threads running].
    + intros t [-> _]%elem_of_replicate. done.
    + exists new_thread. split; [by apply lookup_replicate_2|].
      assert (total share (replicate n new_thread) = 0) as -> by (clear Hn; induction n as [|n IH]; [done|]; cbn [replicate]; by rewrite total_cons, IH).
      unfold at_point, conserved, sem_init. rewrite (proj2 (Z.ltb_ge _ _)) by lia. cbn. lia.
    + intros j t [-> _]%lookup_replicate_1 _. done.
Qed.

(** C30: Whatever the interleaving of threads that wait, try to wait and post, the value of
    a semaphore is its initial value less the permits outstanding, and it stays between
    zero and its maximum: never more waits succeed than the initial value and the posts
    allow. *)
Theorem sem_conserves s v n s' :
  (0 < n)%nat → 0 ≤ v ≤ SEM_VALUE_MAX → sreaches (start s v n) s' →
  count (sem (shared s')) = v - total share (threads s') ∧ 0 ≤ count (sem (shared s')) ≤ SEM_VALUE_MAX ∧
  total share (threads s') ≤ v.
Proof.
  intros Hn Hv Hr. destruct (sem_inv s v n s' Hn Hv Hr) as [_ (t & _ & [[Hc Hb] _]) _]. split_and!; lia.
Qed.

(** ** Executions *)

Inductive action := Go | Call (c : call).

Definition exec (a : action) (g : shared_sem) (t : thread) : option (shared_sem * thread) :=
  match a with
  | Go => sem_step g t
  | Call c => match pc t with Client => Some (g, goto (SaveFlags c) t) | _ => None end
  end.

Lemma sem_exec_step a g t g' t' : exec a g t = Some (g', t') → thread_step g t g' t'.
Proof.
  destruct a as [|c]; cbn; [apply in_function|]. destruct (pc t) eqn:Ep; try done. intros [= <- <-]. by apply call_function.
Qed.

Definition run_schedule : list (action + nat) → ssys → option ssys := acts IF exec.

Definition blank_sem : semaphore :=
  {| count := 0; sflags := 0; wait_queue := init_waitqueue_head; name := []; refcount := 0; wait_count := 0; post_count := 0 |}.

(** The first thread takes the only permit, the second one waits and is preempted. *)
Definition demo_schedule : list (action + nat) :=
  inl (Call (Acquire Wait)) :: replicate 5 (inl Go) ++ inr 1%nat :: inl (Call (Acquire Wait)) :: replicate 6 (inl Go) ++ [inr 0%nat].

Lemma sem_conserves_witness :
  ∃ s, sreaches (start blank_sem 1 2) s ∧ count (sem (shared s)) = 0 ∧ pc <$> threads s !! 1%nat = Some Hlt ∧ total share (threads s) ≤ 1.
Proof.
  assert (0 ≤ 1 ≤ SEM_VALUE_MAX) as Hv by done.
  destruct (run_schedule demo_schedule (start blank_sem 1 2)) as [s|] eqn:E; [|by vm_compute in E].
  pose proof (acts_reach _ _ _ sem_exec_step _ _ _ E) as Hr. exists s. split; [exact Hr|].
  pose proof (sem_conserves blank_sem 1 2 s (Nat.lt_0_succ 1) Hv Hr) as (_ & _ & Ht).
  clear Hr. vm_compute in E. injection E as <-. by split_and!.
Defined.

(** ** Named semaphores *)

Abbreviation names m := (name ∘ snd <$> named_sems m).

Record named_ok (m : semaphore_manager) : Prop := {
  no_names : NoDup (names m);
  no_addresses : NoDup (named_sems m).*1;
  no_count : named_count m = Z.of_nat (length (named_sems m));
  no_max : named_count m ≤ SEM_MAX_NAMED;
  no_refs : Forall (λ e, 0 ≤ refcount (snd e) < 2 ^ 32 ∧ Z.land (sflags (snd e)) SEM_FLAG_NAMED ≠ 0) (named_sems m);
}.

Lemma find_named_Some nm m a s : sem_find_named nm m = Some (a, s) → (a, s) ∈ named_sems m ∧ name s = nm.
Proof. intros H. apply List.find_some in H as [H1%list_elem_of_In H2%bool_decide_eq_true]. done. Qed.

Lemma find_named_None nm m : sem_find_named nm m = None → nm ∉ names m.
Proof.
  intros H Hin. apply list_elem_of_fmap in Hin as ([a s] & -> & Hin). apply list_elem_of_In in Hin.
  pose proof (List.find_none _ _ H _ Hin) as Hf. by apply bool_decide_eq_false in Hf.
Qed.

Lemma find_named_unique m a s : NoDup (names m) → (a, s) ∈ named_sems m → sem_find_named (name s) m = Some (a, s).
Proof.
  intros Hn Hin. destruct (sem_find_named (name s) m) as [[b u]|] eqn:E.
  - apply find_named_Some in E as [Hin' Hu]. f_equal. apply list_elem_of_lookup in Hin as [i Hi], Hin' as [j Hj].
    assert (i = j) as ->; [|congruence]. eapply (NoDup_lookup _ _ _ (name s) Hn); rewrite list_lookup_fmap; [by rewrite Hi | by rewrite Hj; cbn; rewrite Hu].
  - exfalso. apply (find_named_None _ _ E). by apply (list_elem_of_fmap_2 (name ∘ snd) _ (a, s)).
Qed.

Lemma update_sem_names a f m : (∀ s, name (f s) = name s) → names (update_sem a f m) = names m.
Proof.
  intros Hf. unfold update_sem. cbn. rewrite <- list_fmap_compose. apply list_fmap_ext. intros i [b s] _. cbn. case_match; [apply Hf | done].
Qed.

Lemma update_sem_addresses a f m : (named_sems (update_sem a f m)).*1 = (named_sems m).*1.
Proof. unfold update_sem. cbn. rewrite <- list_fmap_compose. apply list_fmap_ext. intros i [b s] _. cbn. by case_match. Qed.

Lemma update_sem_ok a f m :
  named_ok m → (∀ s, name (f s) = name s ∧ sflags (f s) = sflags s) →
  (∀ s, (a, s) ∈ named_sems m → 0 ≤ refcount (f s) < 2 ^ 32) → named_ok (update_sem a f m).
Proof.
  intros [H1 H2 H3 H4 H5] Hf Hr. split; [| | |done|].
  - rewrite update_sem_names; [done | apply Hf].
  - by rewrite update_sem_addresses.
  - cbn. by rewrite length_fmap.
  - apply Forall_forall. intros e (e' & -> & He)%list_elem_of_fmap. pose proof (proj1 (Forall_forall _ _) H5 e' He) as [Hr' Hfl].
    destruct e' as [b s]. cbn. destruct (Z.eqb_spec b a) as [->|]; cbn; [|done]. split; [by apply Hr|]. by rewrite (proj2 (Hf s)).
Qed.

Lemma find_update_other nm a s f m :
  NoDup (named_sems m).*1 → (a, s) ∈ named_sems m → (∀ u, name (f u) = name u) → nm ≠ name s →
  sem_find_named nm (update_sem a f m) = sem_find_named nm m.
Proof.
  intros Hd Hin Hf Hne. unfold sem_find_named, update_sem. cbn [named_sems]. destruct m as [l ? ? ?]. cbn in *.
  assert (∀ u, (a, u) ∈ l → u = s) as Hu.
  { intros u Hu. apply list_elem_of_lookup in Hu as [i Hi], Hin as [j Hj].
    assert (i = j) as -> by (eapply (NoDup_lookup _ _ _ a Hd); rewrite list_lookup_fmap; [by rewrite Hi | by rewrite Hj]). congruence. }
  clear Hd Hin. induction l as [|[b u] l IH]; [done|]. cbn. destruct (Z.eqb_spec b a) as [->|]; cbn.
  - rewrite Hf, (Hu u) by left. rewrite bool_decide_eq_false_2 by congruence. apply IH. intros v Hv. apply Hu. by right.
  - case_bool_decide; [done|]. apply IH. intros v Hv. apply Hu. by right.
Qed.

Lemma find_update_same a s f m :
  named_ok m → (a, s) ∈ named_sems m → (∀ u, name (f u) = name u) →
  sem_find_named (name s) (update_sem a f m) = Some (a, f s).
Proof.
  intros Hok Hin Hf. rewrite <- (Hf s). apply find_named_unique.
  - rewrite update_sem_names; [apply (no_names _ Hok) | done].
  - cbn. apply list_elem_of_fmap. exists (a, s). split; [|done]. cbn. by rewrite Z.eqb_refl.
Qed.

Lemma stored_short nm : (length nm < 64)%nat → stored_name nm = nm.
Proof. intros H. unfold stored_name. change (Z.to_nat (SEM_NAME_MAX - 1)) with 63%nat. apply take_ge. lia. Qed.

Lemma named_find_app nm l e m :
  named_sems m = l ++ [e] → sem_find_named nm m =
    match List.find (λ e, bool_decide (name (snd e) = nm)) l with Some x => Some x | None => if bool_decide (name (snd e) = nm) then Some e else None end.
Proof.
  intros E. unfold sem_find_named. rewrite E. clear E. induction l as [|x l IH]; [done|]. cbn. by destruct (bool_decide (name (snd x) = nm)).
Qed.

(** Opening a named semaphore finds the one with that name and takes a reference,
    creates it if it does not exist and creation is asked for, and refuses otherwise;
    names stay distinct, the count exact and within its limit, and other names refer to
    what they did. *)
Theorem sem_open_correct nm oflag value mem m :
  named_ok m → hd 0 nm = 47 → (length nm < 64)%nat → 0 ≤ value ≤ SEM_VALUE_MAX → mem ∉ (named_sems m).*1 →
  Forall (λ e, refcount (snd e) + 1 < 2 ^ 32) (named_sems m) →
  let '(r, m') := sem_open (Some nm) oflag value mem m in
  let creat := negb (Z.land oflag O_CREAT =? 0) in
  let excl := negb (Z.land oflag O_EXCL =? 0) in
  named_ok m' ∧ (∀ nm', nm' ≠ nm → sem_find_named nm' m' = sem_find_named nm' m) ∧
  match sem_find_named nm m with
  | Some (a, s) =>
      if creat && excl then (r, m') = (0, m)
      else r = a ∧ sem_find_named nm m' = Some (a, with_refcount (refcount s + 1) s)
  | None =>
      if creat && (named_count m <? SEM_MAX_NAMED) && negb (mem =? 0)
      then r = mem ∧ sem_find_named nm m' = Some (mem, new_sem nm value)
      else (r, m') = (0, m)
  end.
Proof.
  intros Hok Hhd Hlen Hv Hmem Href. unfold sem_open. rewrite bool_decide_eq_true_2 by done. cbn [negb].
  rewrite (proj2 (Z.ltb_ge _ _)) by lia. destruct (sem_find_named nm m) as [[a s]|] eqn:Hf.
  - destruct (negb (Z.land oflag O_CREAT =? 0) && negb (Z.land oflag O_EXCL =? 0)); [done|].
    apply find_named_Some in Hf as [Hin <-]. pose proof (proj1 (Forall_forall _ _) Href _ Hin) as Hr.
    pose proof (proj1 (Forall_forall _ _) (no_refs _ Hok) _ Hin) as [Hr0 _]. cbn in Hr, Hr0. split_and!.
    + apply update_sem_ok; [done | done|]. intros u _. cbn. unfold u32. apply Z.mod_pos_bound. lia.
    + intros nm' Hne. by eapply find_update_other; [apply (no_addresses _ Hok) | exact Hin | |].
    + done.
    + erewrite find_update_same by done. cbn. unfold u32. rewrite Z.mod_small by lia. done.
  - destruct (Z.land oflag O_CREAT =? 0); cbn [negb andb]; [done|].
    destruct (Z.leb_spec SEM_MAX_NAMED (named_count m)) as [Hfull|Hroom].
    { rewrite (proj2 (Z.ltb_ge _ _)) by lia. done. }
    rewrite (proj2 (Z.ltb_lt _ _)) by lia. destruct (mem =? 0); cbn [negb andb]; [done|].
    set (m' := {| named_sems := _; named_count := _; total_waits := _; total_posts := _ |}).
    assert (∀ x, sem_find_named x m' = match sem_find_named x m with Some y => Some y | None => if bool_decide (nm = x) then Some (mem, new_sem nm value) else None end) as Hfind.
    { intros x. rewrite (named_find_app x (named_sems m) (mem, new_sem nm value) m' eq_refl). cbn. by rewrite stored_short. }
    destruct Hok as [H1 H2 H3 H4 H5]. split_and!.
    + split; cbn.
      * rewrite fmap_app. cbn. rewrite stored_short by done. apply NoDup_app. split_and!; [done | | apply NoDup_singleton].
        intros x Hx ->%list_elem_of_singleton. by apply (find_named_None _ _ Hf).
      * rewrite fmap_app. apply NoDup_app. split_and!; [done | | apply NoDup_singleton]. by intros x Hx ->%list_elem_of_singleton.
      * rewrite length_app, H3. cbn. unfold u32. rewrite Z.mod_small; lia.
      * unfold u32. rewrite Z.mod_small; lia.
      * apply Forall_app_2; [done|]. constructor; [|done]. by split.
    + intros nm' Hne. rewrite Hfind, bool_decide_eq_false_2 by done. by destruct (sem_find_named nm' m).
    + done.
    + by rewrite Hfind, Hf, bool_decide_eq_true_2 by done.
Qed.

Lemma find_address a s m : NoDup (named_sems m).*1 → (a, s) ∈ named_sems m → List.find (λ e, fst e =? a) (named_sems m) = Some (a, s).
Proof.
  destruct m as [l ? ? ?]. cbn. clear. induction l as [|[b u] l IH]; intros Hd Hin; [by apply not_elem_of_nil in Hin|].
  cbn in *. apply NoDup_cons in Hd as [Hb Hd]. destruct (Z.eqb_spec b a) as [->|Hne].
  - apply elem_of_cons in Hin as [[= ->]|Hin]; [done|]. exfalso. apply Hb. by apply (list_elem_of_fmap_2 fst _ (a, s)).
  - apply elem_of_cons in Hin as [[= -> ->]|Hin]; [done | by apply IH].
Qed.

(** Unlinking a semaphore that is still open reports success and does nothing, not
    even later: when the last reference is closed, the name still refers to it. *)
Theorem sem_unlink_open m nm a s :
  named_ok m → sem_find_named nm m = Some (a, s) → 0 < refcount s →
  sem_unlink nm m = (0, m) ∧
  ∃ m', sem_close a m = (0, m') ∧ named_ok m' ∧ sem_find_named nm m' = Some (a, with_refcount (refcount s - 1) s).
Proof.
  intros Hok Hf Hr. unfold sem_unlink. rewrite Hf, (proj2 (Z.ltb_lt _ _)) by done. split; [done|].
  apply find_named_Some in Hf as [Hin <-]. unfold sem_close. rewrite (find_address a s m (no_addresses _ Hok) Hin).
  pose proof (proj1 (Forall_forall _ _) (no_refs _ Hok) _ Hin) as [Hr0 Hfl]. cbn in Hr0, Hfl.
  rewrite (proj2 (Z.eqb_neq _ _) Hfl), (proj2 (Z.ltb_lt _ _)) by done. eexists. split_and!; [reflexivity | | exact (find_update_same a s (λ s, with_refcount (refcount s - 1) s) m Hok Hin (λ _, eq_refl))].
  apply update_sem_ok; [done | done|]. intros u Hu. cbn.
  assert (u = s) as ->; [|lia]. pose proof (find_address a u m (no_addresses _ Hok) Hu) as E. rewrite (find_address a s m (no_addresses _ Hok) Hin) in E. congruence.
Qed.

(** A name of 64 or more characters is cut when it is stored and compared in full when
    it is looked up: opening it twice, even exclusively, creates two semaphores. *)
Theorem sem_open_long_name nm oflag v1 v2 a b m :
  hd 0 nm = 47 → (64 ≤ length nm)%nat → Forall (λ e, (length (name (snd e)) < 64)%nat) (named_sems m) →
  0 ≤ v1 ≤ SEM_VALUE_MAX → 0 ≤ v2 ≤ SEM_VALUE_MAX → Z.land oflag O_CREAT ≠ 0 → 0 ≤ named_count m < SEM_MAX_NAMED - 1 → a ≠ 0 → b ≠ 0 →
  ∃ m1 m2, sem_open (Some nm) oflag v1 a m = (a, m1) ∧ sem_open (Some nm) oflag v2 b m1 = (b, m2) ∧
    named_sems m2 = named_sems m ++ [(a, new_sem nm v1); (b, new_sem nm v2)].
Proof.
  intros Hhd Hlen Hl Hv1 Hv2 Hc Hn Ha Hb.
  assert (∀ m, Forall (λ e, (length (name (snd e)) < 64)%nat) (named_sems m) → sem_find_named nm m = None) as Hnone.
  { intros k Hk. destruct (sem_find_named nm k) as [[x s]|] eqn:E; [|done]. apply find_named_Some in E as [Hin <-].
    pose proof (proj1 (Forall_forall _ _) Hk _ Hin) as H. cbn in H. lia. }
  assert (∀ v x k, Forall (λ e, (length (name (snd e)) < 64)%nat) (named_sems k) → 0 ≤ v ≤ SEM_VALUE_MAX → named_count k < SEM_MAX_NAMED → x ≠ 0 →
    sem_open (Some nm) oflag v x k = (x, {| named_sems := named_sems k ++ [(x, new_sem nm v)]; named_count := u32 (named_count k + 1);
      total_waits := total_waits k; total_posts := total_posts k |})) as Hopen.
  { intros v x k Hk Hv Hroom Hx. unfold sem_open. rewrite bool_decide_eq_true_2, (proj2 (Z.ltb_ge _ _)), (Hnone k Hk) by (done || lia). cbn [negb].
    rewrite (proj2 (Z.eqb_neq _ _) Hc), (proj2 (Z.leb_gt _ _)), (proj2 (Z.eqb_neq _ _) Hx) by lia. done. }
  eexists _, _. split; [apply Hopen; done || lia|]. split.
  - apply Hopen; [|done| |done]; cbn [named_sems named_count].
    + apply Forall_app_2; [done|]. constructor; [|done]. cbn. unfold stored_name. rewrite length_take. change (Z.to_nat (SEM_NAME_MAX - 1)) with 63%nat. lia.
    + unfold u32. rewrite Z.mod_small; lia.
  - cbn. by rewrite <- app_assoc.
Qed.

(** A manager with the semaphore "/s", and a name that is too long. *)
Definition demo_named : semaphore_manager :=
  {| named_sems := [(0x1000, new_sem [47; 115] 1)]; named_count := 1; total_waits := 0; total_posts := 0 |}.
Definition long_name : list Z := 47 :: replicate 64 97.

Lemma demo_named_ok : named_ok demo_named.
Proof. split; cbn; try done; [apply NoDup_singleton.. | by repeat constructor]. Qed.

Lemma sem_open_correct_witness :
  fst (sem_open (Some [47; 115]) O_CREAT 5 0x2000 demo_named) = 0x1000 ∧
  named_ok (snd (sem_open (Some [47; 116]) O_CREAT 5 0x2000 demo_named)).
Proof.
  split; [done|].
  pose proof (sem_open_correct [47; 116] O_CREAT 5 0x2000 demo_named demo_named_ok eq_refl ltac:(cbn; lia) ltac:(done) ltac:(set_solver) ltac:(by repeat constructor)) as H.
  destruct (sem_open (Some [47; 116]) O_CREAT 5 0x2000 demo_named) as [r m']. apply H.
Defined.

Lemma sem_unlink_open_witness :
  ∃ m', sem_close 0x1000 demo_named = (0, m') ∧ sem_find_named [47; 115] m' ≠ None.
Proof.
  destruct (sem_unlink_open demo_named [47; 115] 0x1000 (new_sem [47; 115] 1) demo_named_ok eq_refl ltac:(done)) as (_ & m' & E & _ & Hf).
  exists m'. split; [exact E | by rewrite Hf].
Defined.

Lemma sem_open_long_name_witness :
  ∃ m1 m2, sem_open (Some long_name) (Z.lor O_CREAT O_EXCL) 1 0x2000 demo_named = (0x2000, m1) ∧
    sem_open (Some long_name) (Z.lor O_CREAT O_EXCL) 1 0x3000 m1 = (0x3000, m2).
Proof.
  destruct (sem_open_long_name long_name (Z.lor O_CREAT O_EXCL) 1 1 0x2000 0x3000 demo_named eq_refl ltac:(cbn; lia) ltac:(repeat constructor; cbn; lia)
    ltac:(done) ltac:(done) ltac:(done) ltac:(done) ltac:(done) ltac:(done)) as (m1 & m2 & E1 & E2 & _).
  exists m1, m2. split; [exact E1 | exact E2].
Defined.
