(* ===== verification/Cfs.v ===== *)
(** * The fair scheduler (kernel/process/cfs_sched.c, include/process/cfs_sched.h)

    Runnable processes are kept in a red-black tree ordered by virtual run time; the
    node is a member of [struct process], at the offset [off] that the compiler
    chooses.  The run queue refines a list that is sorted by virtual run time, in
    which processes with the same time keep their order of arrival. *)

From S2P Require Import Prelude Bits RbTree RbSpec RbCells RbRotate RbInsert RbErase RbIter.

#[local] Open Scope Z_scope.

Abbreviation CFS_WAKEUP_GRANULARITY_NS := 1000000%Z (only parsing).

Definition sched_prio_to_weight : list Z :=
  [88761; 71755; 56483; 46273; 36291; 29154; 23254; 18705; 14949; 11916;
   9548; 7620; 6100; 4904; 3906; 3121; 2501; 1991; 1586; 1277;
   1024; 820; 655; 526; 423; 335; 272; 215; 172; 137;
   110; 87; 70; 56; 45; 36; 29; 23; 18; 15].

(** The members of [struct process] that the scheduler uses, without the tree node. *)
Record entity := {
  vruntime : Z;
  sum_exec_runtime : Z;
  weight : Z;
  nice : Z;
  static_priority : Z;
}.

Record cfs_rq := {
  rb_leftmost : Z;
  nr_running : Z;
  min_vruntime : Z;
  exec_clock : Z;
  total_weight : Z;
}.

Record cfs := { timeline : rbs; procs : gmap Z entity; rq : cfs_rq }.

Definition with_timeline (t : rbs) (s : cfs) : cfs := {| timeline := t; procs := procs s; rq := rq s |}.
Definition with_procs (p : gmap Z entity) (s : cfs) : cfs := {| timeline := timeline s; procs := p; rq := rq s |}.
Definition with_rq (q : cfs_rq) (s : cfs) : cfs := {| timeline := timeline s; procs := procs s; rq := q |}.

Definition with_leftmost (x : Z) (q : cfs_rq) : cfs_rq :=
  {| rb_leftmost := x; nr_running := nr_running q; min_vruntime := min_vruntime q;
     exec_clock := exec_clock q; total_weight := total_weight q |}.
Definition with_running (n : Z) (q : cfs_rq) : cfs_rq :=
  {| rb_leftmost := rb_leftmost q; nr_running := n; min_vruntime := min_vruntime q;
     exec_clock := exec_clock q; total_weight := total_weight q |}.
Definition with_min (v : Z) (q : cfs_rq) : cfs_rq :=
  {| rb_leftmost := rb_leftmost q; nr_running := nr_running q; min_vruntime := v;
     exec_clock := exec_clock q; total_weight := total_weight q |}.
Definition with_clock (v : Z) (q : cfs_rq) : cfs_rq :=
  {| rb_leftmost := rb_leftmost q; nr_running := nr_running q; min_vruntime := min_vruntime q;
     exec_clock := v; total_weight := total_weight q |}.
Definition with_total (w : Z) (q : cfs_rq) : cfs_rq :=
  {| rb_leftmost := rb_leftmost q; nr_running := nr_running q; min_vruntime := min_vruntime q;
     exec_clock := exec_clock q; total_weight := w |}.

Definition with_vruntime (v : Z) (e : entity) : entity :=
  {| vruntime := v; sum_exec_runtime := sum_exec_runtime e; weight := weight e; nice := nice e;
     static_priority := static_priority e |}.
Definition with_sum (v : Z) (e : entity) : entity :=
  {| vruntime := vruntime e; sum_exec_runtime := v; weight := weight e; nice := nice e;
     static_priority := static_priority e |}.
Definition with_weight (w : Z) (e : entity) : entity :=
  {| vruntime := vruntime e; sum_exec_runtime := sum_exec_runtime e; weight := w; nice := nice e;
     static_priority := static_priority e |}.
Definition with_nice (n p : Z) (e : entity) : entity :=
  {| vruntime := vruntime e; sum_exec_runtime := sum_exec_runtime e; weight := weight e; nice := n;
     static_priority := p |}.

(** ** include/process/cfs_sched.h *)

Definition nice_to_weight (n : Z) : option Z :=
  let idx := n + 20 in
  let idx := if idx <? 0 then 0 else idx in
  let idx := if 39 <? idx then 39 else idx in
  aget sched_prio_to_weight idx.

Definition prio_to_nice (prio : Z) : Z := prio - 120.
Definition nice_to_prio (n : Z) : Z := n + 120.

(** [delta_exec * 1024 / weight] in 64 bits; the weight is converted to unsigned. *)
Definition cfs_calc_vruntime (delta_exec w : Z) : option Z :=
  if u64 w =? 0 then None else Some (u64 (delta_exec * 1024) / u64 w).

Definition cfs_calc_delta_fair (delta : Z) (e : entity) : option Z :=
  if weight e =? 1024 then Some delta
  else if u64 (weight e) =? 0 then None else Some (u64 (delta * 1024) / u64 (weight e)).

Definition empty_rq : cfs_rq :=
  {| rb_leftmost := 0; nr_running := 0; min_vruntime := 0; exec_clock := 0; total_weight := 0 |}.

(** ** kernel/process/cfs_sched.c *)

Section Cfs.
Context (off : Z).        (* offsetof(struct process, se.rb_node) *)

Definition se_node (proc : Z) : Z := proc + off.
Definition rb_entry (p : Z) : Z := p - off.

Definition on_tree {A} (c : M rbs A) : M cfs A := zoom timeline with_timeline c.
Definition get_ent (p : Z) : M cfs entity := s ← get; deref (procs s !! p).
Definition set_ent (p : Z) (e : entity) : M cfs unit := modify (λ s, with_procs (<[p := e]> (procs s)) s).
Definition set_rq (f : cfs_rq → cfs_rq) : M cfs unit := modify (λ s, with_rq (f (rq s)) s).

Definition cfs_init : M cfs unit :=
  _ ← set_rq (λ _, empty_rq); on_tree (modify (with_root 0)).

Definition update_min_vruntime : M cfs unit :=
  s ← get;
  v ← (if negb (rb_leftmost (rq s) =? 0) then e ← get_ent (rb_entry (rb_leftmost (rq s))); mret (vruntime e)
       else mret (min_vruntime (rq s)));
  if min_vruntime (rq s) <? v then set_rq (with_min v) else mret tt.

(** The loop over the links: the place of a process with virtual run time [v], and whether
    it is the leftmost one. *)
Fixpoint find_link (fuel : nat) (v : Z) (l : link) (parent : Z) (leftmost : bool) : M cfs (link * Z * bool) :=
  match fuel with
  | O => undef
  | S fuel =>
      p ← on_tree (read_link l);
      if p =? 0 then mret (l, parent, leftmost)
      else
        e ← get_ent (rb_entry p);
        if v <? vruntime e then find_link fuel v (AtLeft p) p leftmost
        else find_link fuel v (AtRight p) p false
  end.

Definition enqueue_entity (proc : Z) : M cfs unit :=
  e ← get_ent proc;
  fuel ← on_tree tree_fuel;
  found ← find_link fuel (vruntime e) AtRoot 0 true;
  let '(l, parent, leftmost) := found in
  _ ← (if leftmost : bool then set_rq (with_leftmost (se_node proc)) else mret tt);
  _ ← on_tree (rb_link_node (se_node proc) parent l);
  on_tree (rb_insert_color (se_node proc)).

Definition dequeue_entity (proc : Z) : M cfs unit :=
  s ← get;
  _ ← (if rb_leftmost (rq s) =? se_node proc then
         next ← on_tree (rb_next (se_node proc)); set_rq (with_leftmost next)
       else mret tt);
  _ ← on_tree (rb_erase (se_node proc));
  on_tree (rb_clear_node (se_node proc)).

Definition cfs_enqueue_task (proc : Z) : M cfs unit :=
  if proc =? 0 then mret tt
  else
    e ← get_ent proc;
    _ ← (if vruntime e =? 0 then s ← get; set_ent proc (with_vruntime (min_vruntime (rq s)) e) else mret tt);
    e ← get_ent proc;
    _ ← (if weight e =? 0 then w ← deref (nice_to_weight (nice e)); set_ent proc (with_weight w e) else mret tt);
    _ ← enqueue_entity proc;
    _ ← set_rq (λ q, with_running (u32 (nr_running q + 1)) q);
    e ← get_ent proc;
    set_rq (λ q, with_total (u64 (total_weight q + weight e)) q).

Definition cfs_dequeue_task (proc : Z) : M cfs unit :=
  if proc =? 0 then mret tt
  else
    _ ← dequeue_entity proc;
    s ← get;
    _ ← (if 0 <? nr_running (rq s) then set_rq (λ q, with_running (nr_running q - 1) q) else mret tt);
    e ← get_ent proc;
    s ← get;
    _ ← (if u64 (weight e) <=? total_weight (rq s) then set_rq (λ q, with_total (total_weight q - u64 (weight e)) q)
         else mret tt);
    update_min_vruntime.

Definition cfs_pick_next_task : M cfs Z :=
  s ← get;
  if rb_leftmost (rq s) =? 0 then mret 0 else mret (rb_entry (rb_leftmost (rq s))).

Definition cfs_update_curr (curr : Z) : M cfs unit :=
  if curr =? 0 then mret tt
  else
    let delta_exec := 1000000 in
    e ← get_ent curr;
    _ ← set_ent curr (with_sum (u64 (sum_exec_runtime e + delta_exec)) e);
    _ ← set_rq (λ q, with_clock (u64 (exec_clock q + delta_exec)) q);
    e ← get_ent curr;
    delta_fair ← deref (cfs_calc_delta_fair delta_exec e);
    _ ← set_ent curr (with_vruntime (u64 (vruntime e + delta_fair)) e);
    update_min_vruntime.

Definition cfs_check_preempt_curr (curr wakeup : Z) : M cfs Z :=
  if (curr =? 0) || (wakeup =? 0) then mret 0
  else
    w ← get_ent wakeup; c ← get_ent curr;
    if u64 (vruntime w + CFS_WAKEUP_GRANULARITY_NS) <? vruntime c then mret 1 else mret 0.

Definition cfs_task_waking (proc : Z) : M cfs unit :=
  if proc =? 0 then mret tt
  else
    e ← get_ent proc; s ← get;
    if vruntime e <? min_vruntime (rq s) then set_ent proc (with_vruntime (min_vruntime (rq s)) e) else mret tt.

Definition cfs_reweight_task (proc prio : Z) : M cfs unit :=
  if proc =? 0 then mret tt
  else
    e ← get_ent proc;
    new_weight ← deref (nice_to_weight (prio_to_nice prio));
    _ ← set_ent proc (with_weight new_weight e);
    empty ← on_tree (rb_empty_node (se_node proc));
    if negb empty then set_rq (λ q, with_total (u64 (total_weight q - weight e + new_weight)) q) else mret tt.

Definition cfs_set_task_nice (proc n : Z) : M cfs unit :=
  if proc =? 0 then mret tt
  else
    let n := if n <? -20 then -20 else n in
    let n := if 19 <? n then 19 else n in
    e ← get_ent proc;
    _ ← set_ent proc (with_nice n (nice_to_prio n) e);
    cfs_reweight_task proc (nice_to_prio n).

Definition cfs_get_task_nice (proc : Z) : M cfs Z :=
  if proc =? 0 then mret 0 else e ← get_ent proc; mret (nice e).
End Cfs.
