(* ===== verification/CfsSpec.v ===== *)
(** * The fair scheduler: correctness

    The run queue refines a list sorted by virtual run time: enqueueing inserts
    behind all processes that are not behind in time, picking takes the head,
    dequeueing removes.  On top of that, processes that take turns by these
    operations never drift apart in virtual run time by more than one tick. *)

From stdpp Require Import sorting.
From S2P Require Import Prelude Bits RbTree RbSpec RbCells RbRotate RbInsert RbErase RbIter Cfs.

#[local] Open Scope Z_scope.

(** ** The search path *)

Section Path.
Context (key : Z → Z) (v : Z).

Fixpoint path (k : list frame) (t : tree) : list frame :=
  match t with
  | E => k
  | T c l a r => if v <? key a then path (F true c a r :: k) l else path (F false c a l :: k) r
  end.

Fixpoint goes_left (t : tree) : bool :=
  match t with E => true | T _ l a _ => if v <? key a then goes_left l else false end.

Lemma plug_path t : ∀ k, plug (path k t) E = plug k t.
Proof.
  induction t as [|c l IHl a r IHr]; intros k; [done|]. cbn [path]. destruct (v <? key a); [by rewrite IHl | by rewrite IHr].
Qed.

Definition by_key (x y : Z) : Prop := key x ≤ key y.

(** On a sorted tree the path separates the nodes that are not later than [v] from
    those that are. *)
Lemma path_order t : ∀ k,
  StronglySorted by_key (inorder t) →
  ∃ l1 l2, inorder t = l1 ++ l2 ∧ before (path k t) = before k ++ l1 ∧ after (path k t) = l2 ++ after k ∧
    Forall (λ x, key x ≤ v) l1 ∧ Forall (λ x, v < key x) l2 ∧ (goes_left t = true ↔ l1 = []).
Proof.
  induction t as [|c l IHl a r IHr]; intros k Hs; cbn [path goes_left inorder] in *.
  { exists [], []. cbn. rewrite app_nil_r. split_and!; done || by constructor. }
  apply StronglySorted_app in Hs as (Hlr & Hl & Hr). apply StronglySorted_cons in Hr as [Ha Hr].
  rewrite Forall_forall in Ha. destruct (Z.ltb_spec v (key a)) as [Hlt|Hge].
  - destruct (IHl (F true c a r :: k) Hl) as (l1 & l2 & E1 & E2 & E3 & H1 & H2 & Hg).
    exists l1, (l2 ++ a :: inorder r). rewrite E1, E2, E3. cbn [before after fd fa fs]. split_and!; try done; [by app_norm..|].
    apply Forall_app_2; [done|]. constructor; [done|]. apply Forall_forall. intros x Hx. specialize (Ha x Hx). unfold by_key in Ha. lia.
  - destruct (IHr (F false c a l :: k) Hr) as (l1 & l2 & E1 & E2 & E3 & H1 & H2 & Hg).
    exists (inorder l ++ a :: l1), l2. rewrite E1, E2, E3. cbn [before after fd fa fs]. split_and!; try done; [by app_norm..| |].
    + apply Forall_app_2; [|by constructor]. apply Forall_forall. intros x Hx.
      pose proof (Hlr x a Hx ltac:(left)) as H. unfold by_key in H. lia.
    + split; [done|]. by destruct (inorder l).
Qed.
End Path.

Lemma nice_to_weight_range n : ∃ w, nice_to_weight n = Some w ∧ 15 ≤ w ≤ 88761.
Proof.
  unfold nice_to_weight. set (i := if 39 <? _ then 39 else _).
  assert (0 ≤ i < 40) as Hi by (unfold i; repeat case_match; lia). clearbody i.
  assert (Forall (λ w, 15 ≤ w ≤ 88761) sched_prio_to_weight) as Hf by (repeat constructor; lia).
  destruct (aget_Some sched_prio_to_weight i Hi) as [w Hw]. exists w. split; [done|].
  apply aget_lookup in Hw; [|lia]. exact (proj1 (Forall_lookup _ _) Hf _ _ Hw).
Qed.

(** The position of [p] in a queue: behind all that are not later. *)
Fixpoint place (key : Z → Z) (p : Z) (ps : list Z) : list Z :=
  match ps with
  | [] => [p]
  | q :: r => if key p <? key q then p :: ps else q :: place key p r
  end.

Lemma place_split key p l1 l2 :
  Forall (λ q, key q ≤ key p) l1 → Forall (λ q, key p < key q) l2 → place key p (l1 ++ l2) = l1 ++ p :: l2.
Proof.
  intros H1 H2. induction H1 as [|q l1 Hq _ IH]; cbn.
  - destruct H2 as [|q l2 Hq]; [done|]. cbn. by rewrite (proj2 (Z.ltb_lt _ _) Hq).
  - rewrite (proj2 (Z.ltb_ge _ _) Hq). by rewrite IH.
Qed.

Lemma place_perm key p ps : place key p ps ≡ₚ p :: ps.
Proof.
  induction ps as [|q r IH]; [done|]. cbn. destruct (key p <? key q); [done|]. rewrite IH. by constructor.
Qed.

Lemma place_sorted key p ps : StronglySorted (by_key key) ps → StronglySorted (by_key key) (place key p ps).
Proof.
  induction ps as [|q r IH]; intros Hs; cbn; [by repeat constructor|]. apply StronglySorted_cons in Hs as [Hq Hr].
  destruct (Z.ltb_spec (key p) (key q)) as [H|H].
  - repeat constructor; try done; unfold by_key in *; [lia|]. eapply Forall_impl; [exact Hq|]. simpl. lia.
  - constructor; [by apply IH|]. rewrite place_perm. constructor; [exact H | done].
Qed.

(** The nodes of a state: those of the tree and those outside. *)
Lemma state_outside m0 t x : x ∉ inorder t → nodes (state m0 [] t) !! x = m0 !! x.
Proof.
  intros Hx. cbn. apply lookup_union_r. apply not_elem_of_list_to_map_1. by rewrite full_keys.
Qed.

Lemma state_dom m0 t x : is_Some (nodes (state m0 [] t) !! x) ↔ x ∈ inorder t ∨ is_Some (m0 !! x).
Proof.
  cbn. rewrite lookup_union_is_Some. apply or_iff_compat_r. rewrite <- elem_of_dom, dom_list_to_map_L, elem_of_list_to_set.
  by rewrite full_keys.
Qed.

Lemma sorted_ext key key' ps :
  (∀ p, p ∈ ps → key p = key' p) → StronglySorted (by_key key) ps → StronglySorted (by_key key') ps.
Proof.
  intros He Hs. induction Hs as [|p ps Hs IH Hp]; constructor.
  - apply IH. intros q Hq. apply He. by right.
  - apply Forall_forall. intros q Hq. apply (proj1 (Forall_forall _ _) Hp) in Hq as Hle. unfold by_key in *.
    rewrite <- !He by (by left || by right). done.
Qed.

Section Spec.
Context (off : Z).

(** The virtual run time and the weight of a process. *)
Definition vr (s : cfs) (p : Z) : Z := match procs s !! p with Some e => vruntime e | None => 0 end.
Definition wt (s : cfs) (p : Z) : Z := match procs s !! p with Some e => weight e | None => 0 end.

Definition weights (s : cfs) (ps : list Z) : Z := foldr (λ p a, wt s p + a) 0 ps.

(** The timeline holds the processes [ps], in this order. *)
Record queued (ps : list Z) (s : cfs) : Prop := {
  q_tree : ∃ m0 t, holds m0 t (timeline s) ∧ rb_tree t ∧ inorder t = se_node off <$> ps;
  q_procs : ∀ p e, procs s !! p = Some e → p ≠ 0 ∧
    is_ptr (se_node off p) ∧ se_node off p ≠ 0 ∧ is_Some (nodes (timeline s) !! se_node off p);
  q_ents : ∀ p, p ∈ ps → is_Some (procs s !! p);
  q_sorted : StronglySorted (by_key (vr s)) ps;
  q_left : rb_leftmost (rq s) = hd 0 (se_node off <$> ps);
}.

(** The run queue with its counters. *)
Record cfs_ok (ps : list Z) (s : cfs) : Prop := {
  co_queue : queued ps s;
  co_count : nr_running (rq s) = Z.of_nat (length ps);
  co_weight : total_weight (rq s) = weights s ps;
  co_pos : ∀ p, p ∈ ps → 0 < wt s p < 2 ^ 31;
}.

Lemma read_hole m0 k t :
  valid (full k t) → read_link (hole k) (state m0 k t) = Ret (ptr t, state m0 k t).
Proof.
  intros Hv. destruct k as [|f k]; [done|]. destruct (focus_up m0 _ _ _ Hv) as [E1 Hv1]. rewrite E1.
  unfold hole, read_link, plug1 in *. destruct (fd f); [apply (focus_get_near m0 true) | apply (focus_get_near m0 false)]; done.
Qed.

Lemma on_tree_Ret {A} (c : M rbs A) s a r : c (timeline s) = Ret (a, r) → on_tree c s = Ret (a, with_timeline r s).
Proof. intros H. unfold on_tree. by rewrite (zoom_Ret _ _ _ _ _ _ H). Qed.

Lemma on_tree_read {A} (c : M rbs A) s a : c (timeline s) = Ret (a, timeline s) → on_tree c s = Ret (a, s).
Proof. intros H. rewrite (on_tree_Ret _ _ _ _ H). by destruct s. Qed.

Lemma get_ent_eq p s e : procs s !! p = Some e → get_ent p s = Ret (e, s).
Proof. intros H. unfold get_ent. rewrite bind_get, H. done. Qed.

Lemma find_link_spec m0 v s t : ∀ fuel k lm,
  timeline s = state m0 k t → valid (full k t) →
  (∀ x, x ∈ inorder t → is_Some (procs s !! rb_entry off x)) → (length (inorder t) < fuel)%nat →
  find_link off fuel v (hole k) (par k) lm s =
  Ret ((hole (path (λ x, vr s (rb_entry off x)) v k t), par (path (λ x, vr s (rb_entry off x)) v k t), lm && goes_left (λ x, vr s (rb_entry off x)) v t), s).
Proof.
  induction t as [|c l IHl a r IHr]; intros [|fuel] k lm Hs Hv He Hf; try lia; cbn [find_link path goes_left].
  - eapply bind_step; [apply on_tree_read; rewrite Hs; by apply read_hole|]. cbn. by rewrite andb_true_r.
  - eapply bind_step; [apply on_tree_read; rewrite Hs; by apply read_hole|].
    destruct (focus_ptr true _ _ _ _ _ Hv) as [_ Ha]. cbn [ptr]. rewrite (proj2 (Z.eqb_neq _ _) Ha).
    destruct (He a) as [e Hea]; [cbn; apply elem_of_app; right; left|].
    eapply bind_step; [by apply get_ent_eq|]. replace (vr s (rb_entry off a)) with (vruntime e) by (unfold vr; by rewrite Hea).
    cbn [inorder] in Hf. rewrite length_app in Hf. cbn [length] in Hf.
    destruct (v <? vruntime e).
    + destruct (focus_near m0 true _ _ _ _ _ Hv) as [E1 Hv1].
      apply (IHl fuel (F true c a r :: k) lm); [by rewrite Hs | done | | lia]. intros x Hx. apply He. cbn. apply elem_of_app. by left.
    + destruct (focus_far m0 true _ _ _ _ _ Hv) as [E1 Hv1]. rewrite andb_false_r.
      apply (IHr fuel (F false c a l :: k) false); [by rewrite Hs | done | | lia].
      intros x Hx. apply He. cbn. apply elem_of_app. right. by right.
Qed.

Lemma se_node_inj : Inj (=) (=) (se_node off).
Proof. intros a b. unfold se_node. lia. Qed.

Lemma entry_node p : rb_entry off (se_node off p) = p.
Proof. unfold rb_entry, se_node. lia. Qed.

Lemma sorted_nodes s ps :
  StronglySorted (by_key (vr s)) ps → StronglySorted (by_key (λ x, vr s (rb_entry off x))) (se_node off <$> ps).
Proof.
  induction 1 as [|p ps Hs IH Hp]; cbn; constructor; [done|]. apply Forall_fmap. eapply Forall_impl; [exact Hp|].
  intros q Hq. unfold by_key in *. cbn. by rewrite !entry_node.
Qed.

Lemma Forall_nodes (P : Z → Prop) ps : Forall (λ x, P (rb_entry off x)) (se_node off <$> ps) → Forall P ps.
Proof. rewrite Forall_fmap. intros H. eapply Forall_impl; [exact H|]. intros q. cbn. by rewrite entry_node. Qed.

Lemma queued_NoDup ps s : queued ps s → NoDup ps.
Proof.
  intros [(m0 & t & [_ [Hn _]] & _ & Ht) _ _ _ _]. rewrite full_keys in Hn. cbn in Hn. rewrite Ht in Hn.
  by apply NoDup_fmap_1 in Hn.
Qed.

Lemma queued_fuel ps s : queued ps s → (length ps < S (S (size (nodes (timeline s)))))%nat.
Proof.
  intros [(m0 & t & Hh & _ & Ht) _ _ _ _]. pose proof (order_fuel _ _ _ Hh) as Hf. rewrite Ht, length_fmap in Hf. lia.
Qed.

Lemma hd_place key p ps l1 l2 lm :
  ps = l1 ++ l2 → place key p ps = l1 ++ p :: l2 → (lm = true ↔ l1 = []) →
  hd 0 (se_node off <$> place key p ps) = if lm : bool then se_node off p else hd 0 (se_node off <$> ps).
Proof.
  intros -> -> Hlm. destruct lm; [by rewrite (proj1 Hlm eq_refl)|].
  destruct l1; [discriminate (proj2 Hlm eq_refl) | done].
Qed.

Lemma enqueue_entity_spec ps s p e :
  queued ps s → procs s !! p = Some e → p ∉ ps →
  ∃ r q, enqueue_entity off p s = Ret (tt, {| timeline := r; procs := procs s; rq := q |}) ∧
    q = with_leftmost (rb_leftmost q) (rq s) ∧
    queued (place (vr s) p ps) {| timeline := r; procs := procs s; rq := q |}.
Proof.
  intros Hq Hp Hnew. pose proof (queued_fuel _ _ Hq) as Hf. destruct Hq as [(m0 & t & Hh & Hrb & Ht) Hpr He Hs Hl].
  set (key := λ x, vr s (rb_entry off x)).
  assert (vruntime e = vr s p) as Hv by (unfold vr; by rewrite Hp).
  destruct (path_order key (vr s p) t []) as (n1 & n2 & E1 & E2 & E3 & H1 & H2 & Hg); [rewrite Ht; by apply sorted_nodes|].
  cbn in E2, E3. rewrite app_nil_r in E3. pose proof E1 as E1'. rewrite Ht in E1'.
  apply fmap_app_inv in E1' as (l1 & l2 & -> & -> & ->). apply (Forall_nodes (λ q, vr s q ≤ vr s p)) in H1.
  apply (Forall_nodes (λ q, vr s p < vr s q)) in H2. pose proof (place_split _ _ _ _ H1 H2) as Hpl.
  set (k := path key (vr s p) [] t) in *. assert (plug k E = t) as Hk by apply plug_path.
  assert (se_node off p ∉ inorder t) as Hni by (rewrite Ht; intros (q & Hq & ?)%list_elem_of_fmap; apply se_node_inj in Hq; by subst q).
  destruct (Hpr p e Hp) as (_ & Hip & Hn0 & [n0 Hm0]). pose proof Hh as [Eh Hvv]. rewrite Eh, state_outside in Hm0 by done.
  destruct (rb_insert_spec m0 k (se_node off p) n0 (timeline s)) as (r & t' & Ei & Hh' & Hrb' & Hin'); try (by rewrite ?Hk).
  set (lm := goes_left key (vr s p) t) in *.
  set (q := if lm then with_leftmost (se_node off p) (rq s) else rq s). exists r, q.
  split; [|split; [by destruct (rq s), lm|]].
  - unfold enqueue_entity. eapply bind_step; [by apply get_ent_eq|]. eapply bind_step; [apply on_tree_read; reflexivity|].
    eapply bind_step.
    { rewrite Hv. apply (find_link_spec m0 _ s t _ [] true); [done..| |rewrite Ht, length_fmap; cbn; lia].
      intros x Hx. rewrite Ht in Hx. apply list_elem_of_fmap in Hx as (y & -> & Hy). rewrite entry_node. by apply He. }
    fold key k lm. cbn [andb]. eapply (bind_step _ _ _ tt (with_rq q s)); [unfold q; by destruct lm, s|].
    change (timeline s) with (timeline (with_rq q s)) in Ei.
    apply bind_Ret_inv in Ei as ([] & r1 & Ea & Eb).
    eapply bind_step; [apply on_tree_Ret; exact Ea|]. exact (on_tree_Ret (rb_insert_color _) (with_timeline r1 (with_rq q s)) tt r Eb).
  - pose proof (hd_place (vr s) p _ l1 l2 lm eq_refl Hpl) as Hhd. rewrite Hpl in Hhd |- *. split; cbn.
    + exists (delete (se_node off p) m0), t'. split_and!; try done. rewrite Hin', E2, E3. by rewrite fmap_app, fmap_cons.
    + intros p' e' Hp'. destruct (Hpr p' e' Hp') as (A0 & A & B & C). split_and!; try done. destruct Hh' as [-> _].
      apply state_dom. rewrite Eh in C. apply state_dom in C. rewrite Hin', E2, E3.
      destruct (decide (se_node off p' = se_node off p)) as [->|Hne]; [left; set_solver|].
      destruct C as [C|C]; [left; rewrite E1 in C; set_solver | right; by rewrite lookup_delete_ne].
    + intros p' Hp'. destruct (decide (p' = p)) as [->|]; [by exists e|]. apply He. set_solver.
    + rewrite <- Hpl. by apply place_sorted.
    + rewrite Hhd. 2: { rewrite Hg. split; [intros Hnil; by destruct l1 | by intros ->]. }
      unfold q. destruct lm; [done | exact Hl].
Qed.

(** ** Bounds of the counters *)

Lemma NoDup_bound (l : list Z) n : NoDup l → (∀ x, x ∈ l → 0 ≤ x < n) → Z.of_nat (length l) ≤ Z.max 0 n.
Proof.
  intros Hd Hr. assert (l ⊆+ seqZ 0 n) as Hsub by (apply NoDup_submseteq; [done|]; intros x Hx; apply elem_of_seqZ; specialize (Hr x Hx); lia).
  apply submseteq_length in Hsub. rewrite length_seqZ in Hsub. lia.
Qed.

(** The nodes are aligned words of a 32-bit address space. *)
Lemma queued_bound ps s : queued ps s → Z.of_nat (length ps) ≤ 2 ^ 30.
Proof.
  intros Hq. pose proof (queued_NoDup _ _ Hq) as Hd.
  assert (∀ p, p ∈ ps → is_ptr (se_node off p)) as Hptr.
  { intros p Hp. destruct (q_ents _ _ Hq p Hp) as [e He]. by apply (q_procs _ _ Hq p e). }
  rewrite <- (length_fmap (λ p, se_node off p / 4)). transitivity (Z.max 0 (2 ^ 30)); [apply NoDup_bound | lia].
  - apply NoDup_fmap_2_strong; [|done]. intros x y Hx Hy Hxy. apply Hptr in Hx as [_ Hx], Hy as [_ Hy].
    apply se_node_inj. rewrite (Z.div_mod (se_node off x) 4), (Z.div_mod (se_node off y) 4) by lia. lia.
  - intros x (p & -> & Hp)%list_elem_of_fmap. destruct (Hptr p Hp) as [Hr _]. dlia.
Qed.

Lemma weights_bound s ps : (∀ p, p ∈ ps → 0 < wt s p < 2 ^ 31) → 0 ≤ weights s ps ≤ 2 ^ 31 * Z.of_nat (length ps).
Proof.
  induction ps as [|p ps IH]; intros H; cbn [weights foldr length]; [lia|]. fold (weights s ps).
  pose proof (H p ltac:(left)). specialize (IH ltac:(intros q Hq; apply H; by right)). lia.
Qed.

#[export] Instance weights_proper s : Proper ((≡ₚ) ==> (=)) (weights s).
Proof. intros ps ps' H. unfold weights. induction H; cbn; lia. Qed.

Lemma weights_ext s s' ps : (∀ p, p ∈ ps → wt s p = wt s' p) → weights s ps = weights s' ps.
Proof.
  induction ps as [|p ps IH]; intros H; [done|]. cbn. rewrite (H p) by left. f_equal. apply IH. intros q Hq. apply H. by right.
Qed.

(** ** Enqueueing *)

Lemma queued_set_ent ps s p e e' :
  queued ps s → procs s !! p = Some e → p ∉ ps → queued ps (with_procs (<[p := e']> (procs s)) s).
Proof.
  intros [Ht Hpr He Hs Hl] Hp Hnew. split; cbn; [done| | | |done].
  - intros q f Hq. apply lookup_insert_Some in Hq as [[<- _]|[_ Hq]]; [exact (Hpr _ _ Hp) | exact (Hpr _ _ Hq)].
  - intros q Hq. rewrite lookup_insert_ne by set_solver. by apply He.
  - eapply sorted_ext; [|exact Hs]. intros x Hx. unfold vr. cbn. by rewrite lookup_insert_ne by set_solver.
Qed.

(** What enqueueing makes of the process: a new one starts at the minimum of the queue. *)
Definition prepare (min : Z) (e : entity) : entity :=
  let e := if vruntime e =? 0 then with_vruntime min e else e in
  if weight e =? 0 then match nice_to_weight (nice e) with Some w => with_weight w e | None => e end else e.

Lemma prepare_weight min e : 0 ≤ weight e < 2 ^ 31 → 0 < weight (prepare min e) < 2 ^ 31.
Proof.
  intros Hw. unfold prepare. set (e1 := if vruntime e =? 0 then _ else e).
  assert (weight e1 = weight e) as E1 by (unfold e1; by case_match). rewrite <- E1 in Hw.
  destruct (Z.eqb_spec (weight e1) 0); [|lia]. destruct (nice_to_weight_range (nice e1)) as (w & -> & Hr). cbn. lia.
Qed.

Lemma set_ent_eq p e s : set_ent p e s = Ret (tt, with_procs (<[p := e]> (procs s)) s).
Proof. done. Qed.

Lemma prepare_spec p e s (k : M cfs unit) :
  procs s !! p = Some e → 0 ≤ weight e →
  (_ ← (if vruntime e =? 0 then s ← get; set_ent p (with_vruntime (min_vruntime (rq s)) e) else mret tt);
   e ← get_ent p;
   _ ← (if weight e =? 0 then w ← deref (nice_to_weight (nice e)); set_ent p (with_weight w e) else mret tt); k) s =
  k (with_procs (<[p := prepare (min_vruntime (rq s)) e]> (procs s)) s).
Proof.
  intros Hp Hw. unfold prepare. set (e1 := if vruntime e =? 0 then _ else e).
  eapply (bind_step _ _ _ tt (with_procs (<[p := e1]> (procs s)) s)).
  { unfold e1. destruct (vruntime e =? 0); [done|]. rewrite insert_id by done. by destruct s. }
  eapply bind_step; [apply get_ent_eq; apply lookup_insert_eq|].
  destruct (weight e1 =? 0); [|done]. destruct (nice_to_weight_range (nice e1)) as (w & -> & _).
  eapply bind_step; [reflexivity|]. unfold with_procs. cbn [procs timeline rq]. by rewrite insert_insert_eq.
Qed.

Lemma cfs_enqueue_spec ps s p e :
  cfs_ok ps s → procs s !! p = Some e → p ∉ ps → 0 ≤ weight e < 2 ^ 31 →
  ∃ s', cfs_enqueue_task off p s = Ret (tt, s') ∧ cfs_ok (place (vr s') p ps) s' ∧
    procs s' = <[p := prepare (min_vruntime (rq s)) e]> (procs s) ∧ min_vruntime (rq s') = min_vruntime (rq s).
Proof.
  intros [Hq Hc Hw Hpos] Hp Hnew Hwe. destruct (q_procs _ _ Hq p e Hp) as [Hp0 _]. set (e' := prepare (min_vruntime (rq s)) e).
  set (s1 := with_procs (<[p := e']> (procs s)) s). pose proof (prepare_weight (min_vruntime (rq s)) e Hwe) as He'. fold e' in He'.
  assert (procs s1 !! p = Some e') as Hp1 by apply lookup_insert_eq.
  destruct (enqueue_entity_spec ps s1 p e') as (r & q & E1 & Eq & Hq1); [by eapply queued_set_ent | done..|].
  set (s2 := {| timeline := r; procs := procs s1; rq := q |}) in *. change (vr s1) with (vr s2) in Hq1.
  set (ps' := place (vr s2) p ps) in *. assert (ps' ≡ₚ p :: ps) as Hperm by apply place_perm.
  assert (wt s2 p = weight e') as Hwp by (unfold wt; by rewrite (Hp1 : procs s2 !! p = _)).
  assert (∀ x, x ∈ ps → wt s2 x = wt s x) as Hwo by (intros x Hx; unfold wt; cbn; by rewrite lookup_insert_ne by set_solver).
  assert (∀ x, x ∈ ps' → 0 < wt s2 x < 2 ^ 31) as Hpos'.
  { intros x. rewrite Hperm. intros [->|Hx]%elem_of_cons; [by rewrite Hwp | rewrite Hwo by done; by apply Hpos]. }
  assert (weights s2 ps' = weight e' + weights s ps) as Hws.
  { rewrite Hperm. cbn. rewrite Hwp. f_equal. by apply weights_ext. }
  pose proof (queued_bound _ _ Hq1) as Hlen. pose proof (weights_bound _ _ Hpos') as Hwb.
  pose proof (Permutation_length Hperm) as Hl. cbn in Hl.
  assert (nr_running q = nr_running (rq s) ∧ total_weight q = total_weight (rq s) ∧ min_vruntime q = min_vruntime (rq s)) as (Q1 & Q2 & Q3)
    by (rewrite Eq; done).
  set (q' := with_total (weights s2 ps') (with_running (Z.of_nat (length ps')) q)).
  exists (with_rq q' s2). split_and!; [| | done | exact Q3].
  - unfold cfs_enqueue_task. rewrite (proj2 (Z.eqb_neq _ _) Hp0). eapply bind_step; [by apply get_ent_eq|].
    rewrite (prepare_spec p e s _ Hp (proj1 Hwe)). fold e' s1. eapply bind_step; [exact E1|]. eapply bind_step; [reflexivity|]. eapply bind_step; [apply get_ent_eq; exact Hp1|].
    unfold set_rq, modify, q', with_rq. cbn. rewrite Q1, Q2, Hc, Hw, Hws, Hl.
    assert (u64 (weights s ps + weight e') = weight e' + weights s ps) as -> by (unfold u64; rewrite Z.mod_small; lia).
    assert (u32 (Z.of_nat (length ps) + 1) = Z.of_nat (S (length ps))) as -> by (unfold u32; rewrite Z.mod_small; lia). done.
  - split; [|done..|exact Hpos']. destruct Hq1 as [A B C D F]. by split.
Qed.

(** ** Dequeueing *)

Lemma rb_clear_spec m0 t s x n :
  holds m0 t s → m0 !! x = Some n → x ∉ inorder t →
  ∃ n' s', rb_clear_node x s = Ret (tt, s') ∧ holds (<[x := n']> m0) t s' ∧ rb_parent_color n' = x.
Proof.
  intros [-> Hv] Hx Hni. set (n' := {| rb_parent_color := x; rb_right := rb_right n; rb_left := rb_left n |}).
  exists n', (state (<[x := n']> m0) [] t). split_and!; [| by split | done]. eapply bind_step.
  - unfold load. rewrite bind_get, state_outside by done. rewrite Hx. reflexivity.
  - unfold modify, with_nodes, state, st. cbn [nodes root]. rewrite insert_union_r; [done|].
    apply not_elem_of_list_to_map_1. by rewrite full_keys.
Qed.

Lemma dequeue_entity_spec l1 p l2 s :
  queued (l1 ++ p :: l2) s →
  ∃ r q, dequeue_entity off p s = Ret (tt, {| timeline := r; procs := procs s; rq := q |}) ∧
    q = with_leftmost (rb_leftmost q) (rq s) ∧ queued (l1 ++ l2) {| timeline := r; procs := procs s; rq := q |} ∧
    (∃ n, nodes r !! se_node off p = Some n ∧ rb_parent_color n = se_node off p).
Proof.
  intros Hq. pose proof (queued_NoDup _ _ Hq) as Hd. destruct Hq as [(m0 & t & Hh & Hrb & Ht) Hpr He Hs Hl].
  rewrite fmap_app, fmap_cons in Ht. set (x := se_node off p) in *.
  destruct (rb_erase_inorder m0 t _ _ _ _ Hh Hrb Ht) as (r1 & t' & nx & E1 & Hh1 & Hrb1 & Ht1).
  assert (x ∉ inorder t') as Hni.
  { rewrite Ht1, <- fmap_app. intros (y & Hy & Hin)%list_elem_of_fmap. apply se_node_inj in Hy as <-.
    rewrite <- Permutation_middle in Hd. by apply NoDup_cons in Hd as [? _]. }
  destruct (rb_clear_spec _ _ _ x nx Hh1) as (n' & r & E2 & Hh2 & Hn'); [apply lookup_insert_eq | done|].
  rewrite insert_insert_eq in Hh2.
  set (q := if rb_leftmost (rq s) =? x then with_leftmost (hd 0 (se_node off <$> l2)) (rq s) else rq s).
  exists r, q. split_and!.
  - unfold dequeue_entity. rewrite bind_get. eapply (bind_step _ _ _ tt (with_rq q s)).
    + unfold q. fold x. destruct (rb_leftmost (rq s) =? x); [|by destruct s].
      eapply bind_step; [apply on_tree_read; by eapply rb_next_spec | done].
    + eapply bind_step; [apply on_tree_Ret; exact E1|]. exact (on_tree_Ret (rb_clear_node _) (with_timeline r1 (with_rq q s)) tt r E2).
  - unfold q. case_match; by destruct (rq s).
  - split; cbn.
    + exists (<[x := n']> m0), t'. by rewrite fmap_app.
    + intros p' e' Hp'. destruct (Hpr p' e' Hp') as (A0 & A & B & C). split_and!; try done.
      destruct Hh as [Eh _], Hh2 as [-> _]. apply state_dom. rewrite Eh in C. apply state_dom in C. rewrite Ht1. rewrite Ht in C.
      destruct (decide (se_node off p' = x)) as [->|Hne]; [right; by rewrite lookup_insert_eq|].
      rewrite lookup_insert_ne by done. set_solver.
    + intros p' Hp'. apply He. set_solver.
    + apply StronglySorted_app in Hs as (Ha & Hb & Hc). apply StronglySorted_cons in Hc as [_ Hc].
      apply StronglySorted_app. split_and!; try done. intros y z Hy Hz. apply Ha; [done | by right].
    + unfold q. destruct l1 as [|b l1]; cbn in Hl |- *; [by rewrite Hl, Z.eqb_refl|].
      assert (b ≠ p) as Hbp by (intros ->; apply NoDup_cons in Hd as [Hd _]; set_solver).
      rewrite Hl, (proj2 (Z.eqb_neq _ _)); [done|]. intros Hx. by apply se_node_inj in Hx.
  - exists n'. destruct Hh2 as [-> _]. split; [|done]. rewrite state_outside by done. apply lookup_insert_eq.
Qed.

(** The minimum follows the first process of the queue and never goes back. *)
Definition advance (s : cfs) (ps : list Z) : Z :=
  match ps with [] => min_vruntime (rq s) | p :: _ => Z.max (min_vruntime (rq s)) (vr s p) end.

Lemma queued_head ps s : queued ps s → (rb_leftmost (rq s) =? 0) = match ps with [] => true | _ => false end.
Proof.
  intros Hq. rewrite (q_left _ _ Hq). destruct ps as [|p ps]; [done|]. cbn. apply Z.eqb_neq.
  destruct (q_ents _ _ Hq p ltac:(left)) as [e He]. by destruct (q_procs _ _ Hq p e He) as (_ & _ & ? & _).
Qed.

Lemma update_min_spec ps s :
  queued ps s → update_min_vruntime off s = Ret (tt, with_rq (with_min (advance s ps) (rq s)) s).
Proof.
  intros Hq. unfold update_min_vruntime. rewrite bind_get, (queued_head _ _ Hq).
  assert (∀ v, (if min_vruntime (rq s) <? v then set_rq (with_min v) else mret tt) s =
    Ret (tt, with_rq (with_min (Z.max (min_vruntime (rq s)) v) (rq s)) s)) as Hset.
  { intros v. destruct (Z.ltb_spec (min_vruntime (rq s)) v); [by rewrite Z.max_r by lia|].
    rewrite Z.max_l by lia. by destruct s as [? ? []]. }
  destruct ps as [|p ps]; cbn [negb].
  - eapply bind_step; [reflexivity|]. rewrite Hset. unfold advance. by rewrite Z.max_id.
  - destruct (q_ents _ _ Hq p ltac:(left)) as [e He]. rewrite (q_left _ _ Hq). cbn [fmap list_fmap hd].
    eapply (bind_step _ _ _ (vruntime e)); [|rewrite Hset; unfold advance, vr; by rewrite He].
    eapply bind_step; [apply get_ent_eq; cbn; by rewrite entry_node | done].
Qed.

Lemma queued_rq ps s q : queued ps s → rb_leftmost q = rb_leftmost (rq s) → queued ps (with_rq q s).
Proof. intros [A B C D F] Hl. split; cbn; try done. by rewrite Hl. Qed.

Lemma cfs_dequeue_spec l1 p l2 s :
  cfs_ok (l1 ++ p :: l2) s →
  ∃ s', cfs_dequeue_task off p s = Ret (tt, s') ∧ cfs_ok (l1 ++ l2) s' ∧ procs s' = procs s ∧
    min_vruntime (rq s') = advance s (l1 ++ l2) ∧
    (∃ n, nodes (timeline s') !! se_node off p = Some n ∧ rb_parent_color n = se_node off p).
Proof.
  intros [Hq Hc Hw Hpos]. destruct (dequeue_entity_spec _ _ _ _ Hq) as (r & q & E1 & Eq & Hq1 & Hcl).
  set (s1 := {| timeline := r; procs := procs s; rq := q |}) in *.
  assert (nr_running q = nr_running (rq s) ∧ total_weight q = total_weight (rq s) ∧ min_vruntime q = min_vruntime (rq s)) as (Q1 & Q2 & Q3)
    by (rewrite Eq; done).
  destruct (q_ents _ _ Hq p) as [e He]; [set_solver|]. destruct (q_procs _ _ Hq p e He) as [Hp0 _].
  assert (wt s p = weight e) as Hwp by (unfold wt; by rewrite He). pose proof (Hpos p ltac:(set_solver)) as Hpp. rewrite Hwp in Hpp.
  assert (∀ x, x ∈ l1 ++ l2 → 0 < wt s x < 2 ^ 31) as Hpos' by (intros x Hx; apply Hpos; set_solver).
  pose proof (weights_bound _ _ Hpos') as Hwb.
  rewrite <- Permutation_middle in Hw. cbn in Hw. fold (weights s (l1 ++ l2)) in Hw. rewrite Hwp in Hw.
  rewrite length_app in Hc. cbn [length] in Hc.
  set (q2 := with_total (weights s (l1 ++ l2)) (with_running (Z.of_nat (length (l1 ++ l2))) q)).
  assert (queued (l1 ++ l2) (with_rq q2 s1)) as Hq2 by by apply queued_rq.
  exists (with_rq (with_min (advance (with_rq q2 s1) (l1 ++ l2)) q2) s1). split_and!; [| | done | | done].
  - unfold cfs_dequeue_task. rewrite (proj2 (Z.eqb_neq _ _) Hp0). eapply bind_step; [exact E1|]. rewrite bind_get.
    cbn [rq s1]. rewrite Q1, Hc. rewrite (proj2 (Z.ltb_lt _ _)) by lia. eapply bind_step; [reflexivity|].
    eapply bind_step; [apply get_ent_eq; exact He|]. rewrite bind_get. cbn [rq with_rq with_running total_weight s1].
    assert (u64 (weight e) = weight e) as -> by (unfold u64; rewrite Z.mod_small; lia). rewrite Q2, Hw.
    rewrite (proj2 (Z.leb_le _ _)) by lia. eapply (bind_step _ _ _ tt (with_rq q2 s1)); [|exact (update_min_spec _ _ Hq2)].
    unfold set_rq, modify, q2, with_rq. cbn. rewrite Q1, Q2, Hc, Hw, length_app.
    do 3 f_equal. f_equal; [lia|]. f_equal. lia.
  - split; [by apply (queued_rq _ (with_rq q2 s1)) | done..].
  - cbn. unfold advance. cbn. rewrite Q3. by destruct (l1 ++ l2).
Qed.

Lemma cfs_pick_spec ps s : queued ps s → cfs_pick_next_task off s = Ret (hd 0 ps, s).
Proof.
  intros Hq. unfold cfs_pick_next_task. rewrite bind_get, (queued_head _ _ Hq), (q_left _ _ Hq).
  destruct ps; [done|]. cbn. by rewrite entry_node.
Qed.
End Spec.
