(* ===== verification/CfsFair.v ===== *)
(** * The fair scheduler: the queue, fairness and starvation

    The theorems on the operations of kernel/process/cfs_sched.c, and on processes
    that take turns by them: the one with the least virtual run time is picked,
    taken off the queue, charged for a tick and queued again. *)

From stdpp Require Import sorting.
From S2P Require Import Prelude Bits RbTree RbSpec RbCells RbInsert RbIter Cfs CfsSpec.

#[local] Open Scope Z_scope.

Section Fair.
Context (off : Z).

(** The charge of a tick of [1000000] ns for a process of weight [w]. *)
Definition charge (w : Z) : Z := 1024000000 / w.

Lemma charge_range w : 15 ≤ w ≤ 88761 → 11536 ≤ charge w ≤ 68266666.
Proof.
  intros Hw. unfold charge. split.
  - apply Z.div_le_lower_bound; lia.
  - transitivity (1024000000 / 15); [apply Z.div_le_compat_l; lia | done].
Qed.

Lemma delta_fair_charge e : 0 < weight e < 2 ^ 31 → cfs_calc_delta_fair 1000000 e = Some (charge (weight e)).
Proof.
  intros Hw. unfold cfs_calc_delta_fair, charge. destruct (Z.eqb_spec (weight e) 1024) as [->|]; [done|].
  assert (u64 (weight e) = weight e) as -> by (unfold u64; rewrite Z.mod_small; lia).
  by rewrite (proj2 (Z.eqb_neq _ _)) by lia.
Qed.

Definition charged (e : entity) : entity :=
  with_vruntime (u64 (vruntime e + charge (weight e))) (with_sum (u64 (sum_exec_runtime e + 1000000)) e).

Lemma cfs_ok_set_ent ps s p e e' :
  cfs_ok off ps s → procs s !! p = Some e → p ∉ ps → cfs_ok off ps (with_procs (<[p := e']> (procs s)) s).
Proof.
  intros [Hq Hc Hw Hpos] Hp Hnew.
  assert (∀ x, x ∈ ps → wt s x = wt (with_procs (<[p := e']> (procs s)) s) x) as Hwt
    by (intros x Hx; unfold wt; cbn; by rewrite lookup_insert_ne by set_solver).
  split; [by eapply queued_set_ent | done | cbn; rewrite Hw; by apply weights_ext|].
  intros x Hx. rewrite <- Hwt by done. by apply Hpos.
Qed.

Lemma cfs_ok_rq ps s q :
  cfs_ok off ps s → rb_leftmost q = rb_leftmost (rq s) → nr_running q = nr_running (rq s) →
  total_weight q = total_weight (rq s) → cfs_ok off ps (with_rq q s).
Proof. intros [Hq Hc Hw Hpos] E1 E2 E3. split; [by apply queued_rq | cbn; by rewrite E2 | cbn; by rewrite E3 | done]. Qed.

Lemma update_curr_spec ps s p e :
  cfs_ok off ps s → procs s !! p = Some e → p ∉ ps → 0 < weight e < 2 ^ 31 →
  ∃ q, cfs_update_curr off p s = Ret (tt, {| timeline := timeline s; procs := <[p := charged e]> (procs s); rq := q |}) ∧
    cfs_ok off ps {| timeline := timeline s; procs := <[p := charged e]> (procs s); rq := q |} ∧
    min_vruntime (rq s) ≤ min_vruntime q.
Proof.
  intros Hok Hp Hnew Hw. destruct (q_procs _ _ _ (co_queue _ _ _ Hok) p e Hp) as [Hp0 _].
  set (s1 := {| timeline := timeline s; procs := <[p := charged e]> (procs s); rq := with_clock (u64 (exec_clock (rq s) + 1000000)) (rq s) |}).
  assert (cfs_ok off ps s1) as Hok1 by (apply (cfs_ok_rq _ (with_procs _ s)); [by eapply cfs_ok_set_ent | done..]).
  exists (with_min (advance s1 ps) (rq s1)). split_and!.
  - unfold cfs_update_curr. rewrite (proj2 (Z.eqb_neq _ _) Hp0). eapply bind_step; [by apply get_ent_eq|].
    eapply bind_step; [reflexivity|]. eapply bind_step; [reflexivity|].
    eapply bind_step; [apply get_ent_eq; apply lookup_insert_eq|].
    rewrite (delta_fair_charge (with_sum _ e)) by done. eapply bind_step; [reflexivity|].
    eapply (bind_step _ _ _ tt s1); [|exact (update_min_spec _ _ _ (co_queue _ _ _ Hok1))].
    rewrite set_ent_eq. unfold with_procs, with_rq. cbn [procs timeline rq]. by rewrite insert_insert_eq.
  - by apply (cfs_ok_rq ps s1).
  - cbn. unfold advance. destruct ps; cbn; lia.
Qed.

(** One turn: the first process of the queue runs for a tick. *)
Definition cfs_turn : M cfs Z :=
  p ← cfs_pick_next_task off;
  _ ← cfs_dequeue_task off p;
  _ ← cfs_update_curr off p;
  _ ← cfs_enqueue_task off p;
  mret p.

Fixpoint cfs_turns (n : nat) : M cfs (list Z) :=
  match n with O => mret [] | S n => p ← cfs_turn; ps ← cfs_turns n; mret (p :: ps) end.

Lemma prepare_id min e : vruntime e ≠ 0 → weight e ≠ 0 → prepare min e = e.
Proof. intros Hv Hw. unfold prepare. rewrite (proj2 (Z.eqb_neq _ _) Hv). cbn. by rewrite (proj2 (Z.eqb_neq _ _) Hw). Qed.

Lemma turn_spec p ps s :
  cfs_ok off (p :: ps) s → 15 ≤ wt s p ≤ 88761 → 0 ≤ vr s p → vr s p + charge (wt s p) < 2 ^ 64 →
  ∃ s', cfs_turn s = Ret (p, s') ∧ cfs_ok off (place (vr s') p ps) s' ∧ vr s' p = vr s p + charge (wt s p) ∧
    (∀ q, wt s' q = wt s q) ∧ (∀ q, q ≠ p → vr s' q = vr s q).
Proof.
  intros Hok Hw Hv0 Hv. pose proof (charge_range _ Hw) as Hch. pose proof (queued_NoDup _ _ _ (co_queue _ _ _ Hok)) as Hd.
  apply NoDup_cons in Hd as [Hnew _].
  destruct (q_ents _ _ _ (co_queue _ _ _ Hok) p ltac:(left)) as [e He].
  assert (vr s p = vruntime e ∧ wt s p = weight e) as [Ev Ew] by (unfold vr, wt; by rewrite He). rewrite Ev, Ew in *.
  destruct (cfs_dequeue_spec off [] p ps s Hok) as (s1 & E1 & Hok1 & P1 & _). cbn [app] in Hok1.
  assert (procs s1 !! p = Some e) as He1 by (by rewrite P1).
  destruct (update_curr_spec ps s1 p e Hok1 He1 Hnew ltac:(lia)) as (q & E2 & Hok2 & _).
  set (s2 := {| timeline := timeline s1; procs := <[p := charged e]> (procs s1); rq := q |}) in *.
  assert (vruntime (charged e) = vruntime e + charge (weight e)) as Hve by (cbn; unfold u64; rewrite Z.mod_small; lia).
  destruct (cfs_enqueue_spec off ps s2 p (charged e) Hok2) as (s3 & E3 & Hok3 & P3 & _); [apply lookup_insert_eq | done | cbn; lia|].
  rewrite prepare_id in P3; [|rewrite Hve; lia | cbn; lia]. cbn in P3. rewrite insert_insert_eq, P1 in P3.
  exists s3. split_and!; try done.
  - unfold cfs_turn. eapply bind_step; [apply (cfs_pick_spec off (p :: ps)), (co_queue _ _ _ Hok)|].
    eapply bind_step; [exact E1|]. eapply bind_step; [exact E2|]. by eapply bind_step; [exact E3|].
  - unfold vr. by rewrite P3, lookup_insert_eq.
  - intros x. unfold wt. rewrite P3. destruct (decide (x = p)) as [->|]; [by rewrite lookup_insert_eq, He | by rewrite lookup_insert_ne].
  - intros x Hx. unfold vr. by rewrite P3, lookup_insert_ne.
Qed.

(** [D] bounds the distance of the virtual run times and a charge, [B] the times. *)
Record fair (D B : Z) (ps : list Z) (s : cfs) : Prop := {
  fr_ok : cfs_ok off ps s;
  fr_weight : ∀ p, p ∈ ps → 15 ≤ wt s p ≤ 88761;
  fr_charge : ∀ p, p ∈ ps → charge (wt s p) ≤ D;
  fr_range : ∀ p, p ∈ ps → 0 ≤ vr s p ≤ B;
  fr_spread : ∀ p q, p ∈ ps → q ∈ ps → vr s p - vr s q ≤ D;
}.

Lemma turn_fair D B p ps s :
  fair D B (p :: ps) s → B + D < 2 ^ 64 →
  ∃ s' ps', cfs_turn s = Ret (p, s') ∧ ps' ≡ₚ p :: ps ∧ fair D (B + D) ps' s' ∧ vr s' p = vr s p + charge (wt s p) ∧
    (∀ q, wt s' q = wt s q) ∧ (∀ q, q ≠ p → vr s' q = vr s q).
Proof.
  intros [Hok Hw Hc Hr Hs] HB. pose proof (Hw p ltac:(left)) as Hwp. pose proof (Hc p ltac:(left)) as Hcp.
  pose proof (Hr p ltac:(left)) as Hrp. pose proof (charge_range _ Hwp) as Hch.
  destruct (turn_spec p ps s Hok Hwp ltac:(lia) ltac:(lia)) as (s' & E1 & Hok' & Ev & Ew & Eo).
  pose proof (q_sorted _ _ _ (co_queue _ _ _ Hok)) as Hso. apply StronglySorted_cons in Hso as [Hmin _].
  rewrite Forall_forall in Hmin. unfold by_key in Hmin.
  exists s', (place (vr s') p ps). assert (place (vr s') p ps ≡ₚ p :: ps) as Hperm by apply place_perm.
  split_and!; try done.
  assert (∀ x, x ∈ p :: ps → x = p ∨ x ≠ p ∧ x ∈ ps) as Hcase.
  { intros x. destruct (decide (x = p)); [by left|]. intros Hx. right. set_solver. }
  split; [done | intros x; rewrite Hperm, Ew; apply Hw | intros x; rewrite Hperm, Ew; apply Hc | |].
  - intros x. rewrite Hperm. intros [->|[Hne Hx]]%Hcase; [lia|]. rewrite Eo by done. specialize (Hr x ltac:(by right)). lia.
  - intros x y. rewrite !Hperm. intros [->|[Hne Hx]]%Hcase [->|[Hne' Hy]]%Hcase; rewrite ?Ev, ?(Eo x), ?(Eo y) by done.
    + lia.
    + specialize (Hmin y Hy). lia.
    + specialize (Hs x p ltac:(by right) ltac:(left)). lia.
    + apply Hs; by right.
Qed.

Definition count (p : Z) (l : list Z) : Z := Z.of_nat (length (filter (λ x, x = p) l)).

Lemma picks_count_cons p x l : count p (x :: l) = (if decide (x = p) then 1 else 0) + count p l.
Proof. unfold count. rewrite filter_cons. case_decide; cbn [length]; lia. Qed.

Lemma turns_spec n : ∀ D B ps s,
  fair D B ps s → ps ≠ [] → B + Z.of_nat n * D < 2 ^ 64 →
  ∃ picks s' ps', cfs_turns n s = Ret (picks, s') ∧ ps' ≡ₚ ps ∧ length picks = n ∧ (∀ p, p ∈ picks → p ∈ ps) ∧
    fair D (B + Z.of_nat n * D) ps' s' ∧ (∀ p, p ∈ ps → vr s' p = vr s p + count p picks * charge (wt s p)).
Proof.
  induction n as [|n IH]; intros D B ps s Hf Hne HB.
  { exists [], s, ps. split_and!; try done; [set_solver | by rewrite Z.add_0_r | intros; unfold count; cbn [filter list_filter length]; lia]. }
  destruct ps as [|p ps]; [done|].
  assert (0 ≤ D) as HD by (pose proof (fr_spread _ _ _ _ Hf p p ltac:(left) ltac:(left)); lia).
  destruct (turn_fair D B p ps s Hf ltac:(lia)) as (s1 & ps1 & E1 & Hperm & Hf1 & Ev & Ew & Eo).
  destruct (IH D (B + D) ps1 s1 Hf1) as (picks & s2 & ps2 & E2 & Hperm2 & Hlen & Hsub & Hf2 & Hv); [by intros ->; apply Permutation_nil_l in Hperm | lia|].
  exists (p :: picks), s2, ps2. split_and!.
  - cbn. eapply bind_step; [exact E1|]. by eapply bind_step; [exact E2|].
  - by rewrite Hperm2.
  - cbn. by rewrite Hlen.
  - intros x [->|Hx]%elem_of_cons; [left|]. rewrite <- Hperm. by apply Hsub.
  - replace (B + Z.of_nat (S n) * D) with (B + D + Z.of_nat n * D) by lia. done.
  - intros x Hx. rewrite Hv by (by rewrite Hperm). rewrite Ew, picks_count_cons.
    destruct (decide (p = x)) as [->|Hd]; [rewrite Ev; lia | rewrite Eo by done; lia].
Qed.

(** ** The counts add up *)

Definition sum_over (f : Z → Z) (ps : list Z) : Z := foldr (λ p a, f p + a) 0 ps.

Lemma sum_over_add f g ps : sum_over (λ p, f p + g p) ps = sum_over f ps + sum_over g ps.
Proof. unfold sum_over. induction ps as [|p ps IH]; [done|]. cbn. lia. Qed.

Lemma sum_over_ext f g ps : (∀ p, f p = g p) → sum_over f ps = sum_over g ps.
Proof. intros H. unfold sum_over. induction ps as [|p ps IH]; [done|]. cbn. rewrite H. lia. Qed.

Lemma sum_over_le f b ps : (∀ p, p ∈ ps → f p ≤ b) → sum_over f ps ≤ b * Z.of_nat (length ps).
Proof.
  induction ps as [|p ps IH]; intros H; [cbn; lia|]. cbn [sum_over foldr length]. fold (sum_over f ps).
  pose proof (H p ltac:(left)). specialize (IH ltac:(intros q Hq; apply H; by right)). lia.
Qed.

Lemma sum_one x ps : NoDup ps → sum_over (λ p, if decide (x = p) then 1 else 0) ps = if decide (x ∈ ps) then 1 else 0.
Proof.
  induction 1 as [|p ps Hp Hd IH]; [done|]. cbn. unfold sum_over in IH. rewrite IH.
  repeat case_decide; subst; try lia; set_solver.
Qed.

Lemma sum_count picks ps :
  NoDup ps → (∀ p, p ∈ picks → p ∈ ps) → sum_over (λ p, count p picks) ps = Z.of_nat (length picks).
Proof.
  intros Hd. induction picks as [|x picks IH]; intros Hsub.
  - clear. unfold sum_over, count. induction ps as [|p ps IH]; [done|]. cbn in *. lia.
  - rewrite (sum_over_ext _ _ _ (λ p, picks_count_cons p x picks)), sum_over_add, sum_one, IH by set_solver.
    rewrite decide_True by (apply Hsub; left). cbn [length]. lia.
Qed.

(** What the turns do to the shares: within [2 * D] they are as the weights ask for. *)
Lemma turns_shares n D B ps s :
  fair D B ps s → ps ≠ [] → B + Z.of_nat n * D < 2 ^ 64 →
  ∃ picks s' ps', cfs_turns n s = Ret (picks, s') ∧ fair D (B + Z.of_nat n * D) ps' s' ∧ ps' ≡ₚ ps ∧
    length picks = n ∧ (∀ p, p ∈ picks → p ∈ ps) ∧
    ∀ p q, p ∈ ps → q ∈ ps →
      count p picks * charge (wt s p) - count q picks * charge (wt s q) ≤ 2 * D.
Proof.
  intros Hf Hne HB. destruct (turns_spec n D B ps s Hf Hne HB) as (picks & s' & ps' & E1 & Hperm & Hlen & Hsub & Hf' & Hv).
  exists picks, s', ps'. split_and!; try done. intros p q Hp Hq.
  pose proof (fr_spread _ _ _ _ Hf' p q ltac:(by rewrite Hperm) ltac:(by rewrite Hperm)) as H1. rewrite !Hv in H1 by done.
  pose proof (fr_spread _ _ _ _ Hf q p Hq Hp). lia.
Qed.

(** The charge is the quotient of the tick and the weight, rounded down: counted by the
    weights themselves the shares are off by at most one nanosecond more per turn. *)
Lemma charge_round w : 0 < w → charge w * w ≤ 1024000000 < (charge w + 1) * w.
Proof. intros Hw. unfold charge. pose proof (Z.div_mod 1024000000 w ltac:(lia)). pose proof (Z.mod_pos_bound 1024000000 w Hw). nia. Qed.

Lemma count_le_length p l : 0 ≤ count p l ≤ Z.of_nat (length l).
Proof. unfold count. pose proof (length_filter (λ x, x = p) l). lia. Qed.

Lemma shares_by_weight D n w v a b :
  0 < w → 0 < v → 0 ≤ a ≤ n → 0 ≤ b → a * charge w - b * charge v ≤ 2 * D →
  1024000000 * (a * v - b * w) ≤ (2 * D + n) * (w * v).
Proof.
  intros Hw Hv Ha Hb H. pose proof (charge_round w Hw) as [_ H1]. pose proof (charge_round v Hv) as [H2 _].
  assert (1024000000 * (a * v) ≤ (charge w + 1) * w * (a * v)) by (apply Z.mul_le_mono_nonneg_r; nia).
  assert (charge v * v * (b * w) ≤ 1024000000 * (b * w)) by (apply Z.mul_le_mono_nonneg_r; nia).
  assert ((a * charge w - b * charge v + a) * (w * v) ≤ (2 * D + n) * (w * v)) by (apply Z.mul_le_mono_nonneg_r; nia).
  nia.
Qed.

(** ** Waiting *)

(** How often [q] is picked before [p] is: as long as it is not ahead of it. *)
Definition ahead s (p q : Z) : Z :=
  if decide (q = p) then 0 else if vr s q <=? vr s p then (vr s p - vr s q) / charge (wt s q) + 1 else 0.

Definition turns_before s (p : Z) (ps : list Z) : Z := sum_over (ahead s p) ps.

Lemma sum_over_perm f ps ps' : ps ≡ₚ ps' → sum_over f ps = sum_over f ps'.
Proof. unfold sum_over. induction 1 as [|x l l' _ IH|x y l|l1 l2 l3 _ IH1 _ IH2]; cbn; lia. Qed.

Lemma sum_over_same f g ps : (∀ p, p ∈ ps → f p = g p) → sum_over f ps = sum_over g ps.
Proof.
  induction ps as [|p ps IH]; intros H; [done|]. cbn [sum_over foldr]. fold (sum_over f ps) (sum_over g ps).
  rewrite (H p) by left. f_equal. apply IH. intros q Hq. apply H. by right.
Qed.

Lemma ahead_nonneg s p q : 15 ≤ wt s q ≤ 88761 → 0 ≤ ahead s p q.
Proof.
  intros Hw. pose proof (charge_range _ Hw). unfold ahead. case_decide; [lia|]. destruct (Z.leb_spec (vr s q) (vr s p)); [|lia].
  pose proof (Z.div_pos (vr s p - vr s q) (charge (wt s q)) ltac:(lia) ltac:(lia)). lia.
Qed.

Lemma turns_before_nonneg s p ps : (∀ q, q ∈ ps → 15 ≤ wt s q ≤ 88761) → 0 ≤ turns_before s p ps.
Proof.
  unfold turns_before. induction ps as [|q ps IH]; intros Hw; [done|]. cbn [sum_over foldr]. fold (sum_over (ahead s p) ps).
  pose proof (ahead_nonneg s p q (Hw q ltac:(left))). specialize (IH ltac:(intros x Hx; apply Hw; by right)). lia.
Qed.

(** A turn of [x] is one of those before [p]. *)
Lemma turns_before_step s s' p x ps ps' :
  x ≠ p → NoDup (x :: ps) → ps' ≡ₚ x :: ps → vr s x ≤ vr s p → 15 ≤ wt s x ≤ 88761 → vr s' x = vr s x + charge (wt s x) →
  (∀ q, wt s' q = wt s q) → (∀ q, q ≠ x → vr s' q = vr s q) →
  turns_before s' p ps' = turns_before s p (x :: ps) - 1.
Proof.
  intros Hne [Hx _]%NoDup_cons Hperm Hle Hw Ev Ew Eo. unfold turns_before. rewrite (sum_over_perm _ _ _ Hperm). cbn [sum_over foldr].
  fold (sum_over (ahead s' p) ps) (sum_over (ahead s p) ps). pose proof (charge_range _ Hw) as Hc.
  rewrite (sum_over_same (ahead s' p) (ahead s p)) by (intros q Hq; unfold ahead; rewrite Ew, !Eo by (done || set_solver); done).
  unfold ahead. rewrite !decide_False by done. rewrite Ew, Ev, Eo by done. rewrite (proj2 (Z.leb_le _ _) Hle).
  destruct (Z.leb_spec (vr s x + charge (wt s x)) (vr s p)).
  - replace (vr s p - vr s x) with (vr s p - (vr s x + charge (wt s x)) + 1 * charge (wt s x)) by lia. rewrite Z.div_add by lia. lia.
  - rewrite (Z.div_small (vr s p - vr s x)) by lia. lia.
Qed.

Lemma turns_reach k : ∀ p ps s,
  cfs_ok off ps s → (∀ q, q ∈ ps → 15 ≤ wt s q ≤ 88761) → (∀ q, q ∈ ps → 0 ≤ vr s q) → p ∈ ps → vr s p + 68266666 < 2 ^ 64 →
  turns_before s p ps ≤ Z.of_nat k →
  ∃ n picks s', Z.of_nat n ≤ turns_before s p ps ∧ cfs_turns n s = Ret (picks, s') ∧ cfs_pick_next_task off s' = Ret (p, s').
Proof.
  induction k as [|k IH]; intros p ps s Hok Hw Hv Hp Hb Hk; (destruct ps as [|x ps]; [by apply not_elem_of_nil in Hp|]);
    pose proof (turns_before_nonneg s p (x :: ps) Hw) as H0;
    pose proof (cfs_pick_spec off (x :: ps) s (co_queue _ _ _ Hok)) as Hpick;
    (destruct (decide (x = p)) as [->|Hne]; [exists 0%nat, [], s; split_and!; [lia | done | exact Hpick]|]);
    pose proof (q_sorted _ _ _ (co_queue _ _ _ Hok)) as Hso; apply StronglySorted_cons in Hso as [Hmin _];
    rewrite Forall_forall in Hmin; assert (p ∈ ps) as Hp' by set_solver; pose proof (Hmin p Hp') as Hle; unfold by_key in Hle;
    pose proof (Hw x ltac:(left)) as Hwx; pose proof (charge_range _ Hwx) as Hc; pose proof (Hv x ltac:(left)) as Hvx;
    destruct (turn_spec x ps s Hok Hwx Hvx ltac:(lia)) as (s1 & E1 & Hok1 & Ev & Ew & Eo);
    pose proof (turns_before_step s s1 p x ps _ Hne (queued_NoDup _ _ _ (co_queue _ _ _ Hok)) (place_perm (vr s1) x ps) Hle Hwx Ev Ew Eo) as Hstep;
    assert (∀ q, q ∈ place (vr s1) x ps → 15 ≤ wt s1 q ≤ 88761) as Hw1 by (intros q; rewrite place_perm, Ew; apply Hw);
    pose proof (turns_before_nonneg s1 p _ Hw1) as H1; [lia|].
  destruct (IH p (place (vr s1) x ps) s1 Hok1 Hw1) as (n & picks & s' & Hn & E2 & Hpick').
  - intros q. rewrite place_perm. intros Hq. destruct (decide (q = x)) as [->|Hqx]; [lia|]. rewrite Eo by done. by apply Hv.
  - rewrite place_perm. by right.
  - by rewrite Eo.
  - lia.
  - exists (S n), (x :: picks), s'. split_and!; [lia | | done]. cbn. eapply bind_step; [exact E1|]. by eapply bind_step; [exact E2|].
Qed.

(** ** Nice values *)

Lemma rb_empty_node_eq x n s : nodes s !! x = Some n → rb_empty_node x s = Ret (rb_parent_color n =? x, s).
Proof. intros Hx. unfold rb_empty_node, load. by rewrite bind_assoc, bind_get, Hx. Qed.

Definition clamp_nice (n : Z) : Z := Z.max (-20) (Z.min 19 n).

Definition reniced (n w : Z) (e : entity) : entity := with_weight w (with_nice n (nice_to_prio n) e).

Lemma set_nice_spec s p e n empty :
  procs s !! p = Some e → p ≠ 0 → rb_empty_node (se_node off p) (timeline s) = Ret (empty, timeline s) →
  ∃ w, nice_to_weight (clamp_nice n) = Some w ∧ 15 ≤ w ≤ 88761 ∧
    cfs_set_task_nice off p n s =
    Ret (tt, {| timeline := timeline s; procs := <[p := reniced (clamp_nice n) w e]> (procs s);
                rq := if empty then rq s else with_total (u64 (total_weight (rq s) - weight e + w)) (rq s) |}).
Proof.
  intros Hp Hp0 Hem. destruct (nice_to_weight_range (clamp_nice n)) as (w & Hw & Hr). exists w. split_and!; try done; [lia..|].
  unfold cfs_set_task_nice. rewrite (proj2 (Z.eqb_neq _ _) Hp0). eapply bind_step; [by apply get_ent_eq|].
  assert ((if 19 <? (if n <? -20 then -20 else n) then 19 else (if n <? -20 then -20 else n)) = clamp_nice n) as ->
    by (unfold clamp_nice; zbool; lia).
  eapply bind_step; [reflexivity|]. unfold cfs_reweight_task. rewrite (proj2 (Z.eqb_neq _ _) Hp0).
  eapply bind_step; [apply get_ent_eq; apply lookup_insert_eq|].
  replace (prio_to_nice (nice_to_prio (clamp_nice n))) with (clamp_nice n) by (unfold prio_to_nice, nice_to_prio; lia).
  rewrite Hw. eapply bind_step; [reflexivity|]. eapply bind_step; [apply set_ent_eq|].
  eapply bind_step; [apply on_tree_read; exact Hem|]. unfold with_procs. cbn [procs timeline rq]. rewrite insert_insert_eq.
  by destruct empty.
Qed.

Lemma weights_split s ps p : NoDup ps → p ∈ ps → ∃ r, ps ≡ₚ (p :: r) ∧ (p ∉ r) ∧ weights s ps = wt s p + weights s r.
Proof.
  intros Hd (l1 & l2 & ->)%list_elem_of_split. exists (l1 ++ l2). rewrite <- Permutation_middle in Hd |- *.
  by apply NoDup_cons in Hd as [Hni _].
Qed.

Lemma reniced_ok ps s p e n w q :
  cfs_ok off ps s → procs s !! p = Some e → 15 ≤ w ≤ 88761 → rb_leftmost q = rb_leftmost (rq s) → nr_running q = nr_running (rq s) →
  total_weight q = total_weight (rq s) + (if decide (p ∈ ps) then w - weight e else 0) →
  cfs_ok off ps {| timeline := timeline s; procs := <[p := reniced n w e]> (procs s); rq := q |}.
Proof.
  intros [[Ht Hpr He Hs Hl] Hc Hw Hpos] Hp Hwr Q1 Q2 Q3. set (s' := {| timeline := _; procs := _; rq := q |}).
  assert (∀ x, wt s' x = if decide (x = p) then w else wt s x) as Hwt.
  { intros x. unfold wt, s'. cbn [procs]. destruct (decide (x = p)) as [->|]; [by rewrite lookup_insert_eq | by rewrite lookup_insert_ne]. }
  assert (∀ x, vr s x = vr s' x) as Hvr.
  { intros x. unfold vr, s'. cbn [procs]. destruct (decide (x = p)) as [->|]; [by rewrite lookup_insert_eq, Hp | by rewrite lookup_insert_ne]. }
  assert (queued off ps s') as Hq.
  { split; cbn; [done| | | by apply (sorted_ext (vr s)) | by rewrite Q1].
    - intros x f Hx. apply lookup_insert_Some in Hx as [[<- _]|[_ Hx]]; [exact (Hpr _ _ Hp) | exact (Hpr _ _ Hx)].
    - intros x Hx. destruct (decide (x = p)) as [->|]; [by rewrite lookup_insert_eq | rewrite lookup_insert_ne by done; by apply He]. }
  split; [done | cbn; by rewrite Q2 | | intros x Hx; rewrite Hwt; destruct (decide (x = p)); [lia | by apply Hpos]].
  cbn. rewrite Q3, Hw. destruct (decide (p ∈ ps)) as [Hin|Hin].
  - assert (wt s p = weight e) as Hwe by (unfold wt; by rewrite Hp). pose proof (queued_NoDup _ _ _ Hq) as Hd.
    destruct (weights_split s ps p Hd Hin) as (r & Hperm & Hnr & ->). rewrite Hperm. cbn.
    rewrite Hwt, decide_True by done. fold (weights s' r).
    rewrite (weights_ext s s' r) by (intros x Hx; rewrite Hwt, decide_False; [done | set_solver]). lia.
  - rewrite Z.add_0_r. apply weights_ext. intros x Hx. rewrite Hwt, decide_False; [done | set_solver].
Qed.
End Fair.

(** The node of a process that left the queue. *)
Definition unlinked (off : Z) (s : cfs) (p : Z) : Prop :=
  ∃ n, nodes (timeline s) !! se_node off p = Some n ∧ rb_parent_color n = se_node off p.

(** ** The queue *)

(** C20: Enqueueing a process that is not queued puts it behind all processes whose
    virtual run time is not greater and before the others, a new process starting at
    the minimum of the queue; tree, leftmost pointer and counters stay consistent and
    no counter overflows, whatever the number of processes. *)
Theorem cfs_enqueue_correct off ps s p e :
  cfs_ok off ps s → procs s !! p = Some e → p ∉ ps → 0 ≤ weight e < 2 ^ 31 →
  ∃ s', cfs_enqueue_task off p s = Ret (tt, s') ∧ cfs_ok off (place (vr s') p ps) s' ∧
    procs s' = <[p := prepare (min_vruntime (rq s)) e]> (procs s) ∧ min_vruntime (rq s') = min_vruntime (rq s).
Proof. intros. by apply cfs_enqueue_spec. Qed.

(** C21: The next process is the first of the queue, one of least virtual run time, and
    none only if the queue is empty; dequeueing any process removes it alone, keeps the
    queue consistent, marks its node as unlinked and never moves the minimum back. *)
Theorem cfs_pick_dequeue_correct off l1 p l2 s :
  cfs_ok off (l1 ++ p :: l2) s →
  cfs_pick_next_task off s = Ret (hd 0 (l1 ++ p :: l2), s) ∧
  Forall (λ q, vr s (hd 0 (l1 ++ p :: l2)) ≤ vr s q) (l1 ++ p :: l2) ∧
  ∃ s', cfs_dequeue_task off p s = Ret (tt, s') ∧ cfs_ok off (l1 ++ l2) s' ∧ procs s' = procs s ∧
    min_vruntime (rq s) ≤ min_vruntime (rq s') ∧ unlinked off s' p ∧
    cfs_pick_next_task off s' = Ret (hd 0 (l1 ++ l2), s').
Proof.
  intros Hok. pose proof (co_queue _ _ _ Hok) as Hq. destruct (cfs_dequeue_spec off l1 p l2 s Hok) as (s' & E1 & Hok' & P1 & M1 & U1).
  split_and!.
  - by apply (cfs_pick_spec off).
  - pose proof (q_sorted _ _ _ Hq) as Hs. destruct (l1 ++ p :: l2) as [|x r]; [done|].
    apply StronglySorted_cons in Hs as [Hx _]. constructor; [done | exact Hx].
  - exists s'. split_and!; try done.
    + rewrite M1. unfold advance. destruct (l1 ++ l2); lia.
    + apply (cfs_pick_spec off), (co_queue _ _ _ Hok').
Qed.

(** ** Fairness *)

(** C18: Processes that take turns by these operations, which is what [cfs_turn] does and
    nothing in the kernel does yet, never drift apart: if no two virtual run times of the
    queue differ by more than [D], a bound of the charges, this stays so.  After [n] turns
    the ticks of two processes, each counted with the charge of its weight, differ by at
    most [2 * D].  The charge of a weight [w] is [1024000000 / w], rounded down: the ticks
    are in the proportion of the weights but for an error, which the rounding makes grow
    with [n], of [(2 * D + n) / 1024000000] times the product of the weights. *)
Theorem cfs_fair_share off n D B ps s :
  fair off D B ps s → ps ≠ [] → B + Z.of_nat n * D < 2 ^ 64 →
  ∃ picks s' ps', cfs_turns off n s = Ret (picks, s') ∧ fair off D (B + Z.of_nat n * D) ps' s' ∧ ps' ≡ₚ ps ∧
    length picks = n ∧
    ∀ p q, p ∈ ps → q ∈ ps →
      Z.abs (count p picks * charge (wt s p) - count q picks * charge (wt s q)) ≤ 2 * D ∧
      1024000000 * Z.abs (count p picks * wt s q - count q picks * wt s p) ≤ (2 * D + Z.of_nat n) * (wt s p * wt s q).
Proof.
  intros Hf Hne HB. destruct (turns_shares off n D B ps s Hf Hne HB) as (picks & s' & ps' & E1 & Hf' & Hperm & Hlen & _ & Hsh).
  exists picks, s', ps'. split_and!; try done. intros p q Hp Hq. pose proof (Hsh p q Hp Hq) as H1. pose proof (Hsh q p Hq Hp) as H2. split; [lia|].
  pose proof (fr_weight _ _ _ _ _ Hf p Hp). pose proof (fr_weight _ _ _ _ _ Hf q Hq). pose proof (count_le_length p picks). pose proof (count_le_length q picks).
  pose proof (shares_by_weight D (Z.of_nat n) (wt s p) (wt s q) (count p picks) (count q picks) ltac:(lia) ltac:(lia) ltac:(lia) ltac:(lia) H1).
  pose proof (shares_by_weight D (Z.of_nat n) (wt s q) (wt s p) (count q picks) (count p picks) ltac:(lia) ltac:(lia) ltac:(lia) ltac:(lia) H2) as Hqp.
  rewrite (Z.mul_comm (wt s q) (wt s p)) in Hqp. lia.
Qed.

(** C19: No process starves when processes take turns by these operations (as for fair
    shares): a queued process [p] is the one to run next after at most as many turns as
    the processes that are not ahead of it need, each by its own charge, to get past its
    virtual run time.  Whatever the virtual run times are, only that of [p] must be below
    the range of 64 bits by the greatest charge. *)
Theorem cfs_no_starvation off p ps s :
  cfs_ok off ps s → (∀ q, q ∈ ps → 15 ≤ wt s q ≤ 88761) → (∀ q, q ∈ ps → 0 ≤ vr s q) → p ∈ ps → vr s p + 68266666 < 2 ^ 64 →
  ∃ n picks s', Z.of_nat n ≤ turns_before s p ps ∧ cfs_turns off n s = Ret (picks, s') ∧ cfs_pick_next_task off s' = Ret (p, s').
Proof. intros Hok Hw Hv Hp Hb. apply (turns_reach off (Z.to_nat (turns_before s p ps))); try done. lia. Qed.

(** ** Nice values *)

(** Changing the nice value of a queued process, or of one that was taken off the
    queue, gives it the weight of the clamped value and keeps the total weight of the
    run queue exact. *)
Theorem cfs_set_nice_correct off ps s p e n :
  cfs_ok off ps s → procs s !! p = Some e → (p ∉ ps → unlinked off s p) →
  ∃ w s', nice_to_weight (clamp_nice n) = Some w ∧ cfs_set_task_nice off p n s = Ret (tt, s') ∧ cfs_ok off ps s' ∧
    procs s' = <[p := reniced (clamp_nice n) w e]> (procs s).
Proof.
  intros Hok Hp Hun. pose proof (co_queue _ _ _ Hok) as Hq. destruct (q_procs _ _ _ Hq p e Hp) as [Hp0 _].
  destruct (decide (p ∈ ps)) as [Hin|Hin].
  - destruct (q_tree _ _ _ Hq) as (m0 & t & Hh & _ & Ht).
    destruct (set_nice_spec off s p e n false Hp Hp0) as (w & Hw & Hr & E1);
      [apply (rb_empty_node_spec m0 t _ Hh); rewrite Ht; by apply list_elem_of_fmap_2|].
    eexists w, _. split_and!; [done | exact E1 | | done]. apply reniced_ok; try done. rewrite decide_True by done. cbn.
    rewrite (co_weight _ _ _ Hok). destruct (weights_split s ps p (queued_NoDup _ _ _ Hq) Hin) as (r & Hperm & _ & Hws).
    assert (wt s p = weight e) as Hwe by (unfold wt; by rewrite Hp). rewrite Hws, Hwe.
    pose proof (co_pos _ _ _ Hok) as Hpos. pose proof (queued_bound _ _ _ Hq) as Hb. pose proof (Permutation_length Hperm) as Hl. cbn in Hl.
    assert (0 ≤ weights s r ≤ 2 ^ 31 * Z.of_nat (length r)) by (apply weights_bound; intros x Hx; apply Hpos; rewrite Hperm; by right).
    unfold u64. rewrite Z.mod_small; lia.
  - destruct (Hun Hin) as (nd & Hnd & Hpc).
    destruct (set_nice_spec off s p e n true Hp Hp0) as (w & Hw & Hr & E1).
    { rewrite (rb_empty_node_eq _ _ _ Hnd). by rewrite Hpc, Z.eqb_refl. }
    eexists w, _. split_and!; [done | exact E1 | | done]. apply reniced_ok; try done. by rewrite decide_False, Z.add_0_r.
Qed.

(** The node of a new process is all zero, which counts as linked: changing the nice
    value of a process that was never queued charges the run queue with the difference
    of the weights, and the total is no longer that of the queued processes. *)
Theorem cfs_set_nice_miscounts off ps s p e n nd :
  cfs_ok off ps s → procs s !! p = Some e → p ∉ ps → 0 ≤ weight e < 2 ^ 31 →
  nodes (timeline s) !! se_node off p = Some nd → rb_parent_color nd = 0 →
  ∃ w s', nice_to_weight (clamp_nice n) = Some w ∧ cfs_set_task_nice off p n s = Ret (tt, s') ∧
    (w ≠ weight e → total_weight (rq s') ≠ weights s' ps).
Proof.
  intros Hok Hp Hin Hwe Hnd Hpc. pose proof (co_queue _ _ _ Hok) as Hq. destruct (q_procs _ _ _ Hq p e Hp) as (Hp0 & _ & Hn0 & _).
  destruct (set_nice_spec off s p e n false Hp Hp0) as (w & Hw & Hr & E1).
  { rewrite (rb_empty_node_eq _ _ _ Hnd). by rewrite Hpc, (proj2 (Z.eqb_neq _ _)). }
  eexists w, _. split_and!; [done | exact E1|]. intros Hne. cbn.
  erewrite (weights_ext _ s ps); [|intros x Hx; unfold wt; cbn; by rewrite lookup_insert_ne by set_solver].
  pose proof (weights_bound _ _ (co_pos _ _ _ Hok)). pose proof (queued_bound _ _ _ Hq). rewrite (co_weight _ _ _ Hok).
  set (W := weights s ps) in *. unfold u64. intros Heq. destruct (Z.le_gt_cases 0 (W - weight e + w)); [rewrite Z.mod_small in Heq; lia|].
  rewrite <- (Z.mod_add _ 1), Z.mod_small in Heq; lia.
Qed.

(** ** A run queue with two processes, and a third one that is new *)

Definition demo_tree : tree := T Black E 4104 (T Red E 8200 E).

Definition demo_entity (v w n : Z) : entity :=
  {| vruntime := v; sum_exec_runtime := 0; weight := w; nice := n; static_priority := 120 + n |}.

Definition demo_cfs : cfs :=
  {| timeline := state {[12296 := {| rb_parent_color := 0; rb_right := 0; rb_left := 0 |}]} [] demo_tree;
     procs := {[4096 := demo_entity 5 1024 0; 8192 := demo_entity 9 820 1; 12288 := demo_entity 0 0 0]};
     rq := {| rb_leftmost := 4104; nr_running := 2; min_vruntime := 5; exec_clock := 0; total_weight := 1844 |} |}.

Lemma demo_valid : valid (full [] demo_tree).
Proof.
  split; [|repeat constructor; done]. apply (bool_decide_unpack _). reflexivity.
Qed.

Lemma demo_procs p e :
  procs demo_cfs !! p = Some e → p = 4096 ∨ p = 8192 ∨ p = 12288.
Proof.
  cbn. intros [[<- _]|[_ [[<- _]|[_ [<- _]%lookup_singleton_Some]]%lookup_insert_Some]]%lookup_insert_Some; auto.
Qed.

Lemma demo_ok : cfs_ok 8 [4096; 8192] demo_cfs.
Proof.
  split; [split| done | done |].
  - exists {[12296 := {| rb_parent_color := 0; rb_right := 0; rb_left := 0 |}]}, demo_tree.
    split_and!; [split; [done | apply demo_valid] | | done]. repeat econstructor.
  - intros p e [->|[->| ->]]%demo_procs; (split_and!; [done | by split | done | by eexists]).
  - intros p. rewrite !elem_of_cons. intros [->|[->|[]%not_elem_of_nil]]; by eexists.
  - apply StronglySorted_cons. split; [|by repeat constructor]. apply Forall_cons. by split.
  - done.
  - intros p. rewrite !elem_of_cons. intros [->|[->|[]%not_elem_of_nil]]; by vm_compute.
Qed.

Lemma demo_fair : fair 8 1248780 9 [4096; 8192] demo_cfs.
Proof.
  assert (∀ p, p ∈ [4096; 8192] → p = 4096 ∨ p = 8192) as Hps by set_solver.
  split; [apply demo_ok | | | |]; intros p; try (intros [->| ->]%Hps; by vm_compute).
  intros q [->| ->]%Hps [->| ->]%Hps; by vm_compute.
Qed.

Lemma cfs_enqueue_correct_witness :
  ∃ s', cfs_enqueue_task 8 12288 demo_cfs = Ret (tt, s') ∧ cfs_ok 8 (place (vr s') 12288 [4096; 8192]) s' ∧
    procs s' = <[12288 := prepare 5 (demo_entity 0 0 0)]> (procs demo_cfs) ∧ min_vruntime (rq s') = 5.
Proof. apply (cfs_enqueue_correct 8 [4096; 8192] demo_cfs 12288 (demo_entity 0 0 0) demo_ok); [done | set_solver | done]. Defined.

Lemma cfs_pick_dequeue_correct_witness :
  cfs_pick_next_task 8 demo_cfs = Ret (4096, demo_cfs) ∧ ∃ s', cfs_dequeue_task 8 8192 demo_cfs = Ret (tt, s') ∧ cfs_ok 8 [4096] s'.
Proof.
  destruct (cfs_pick_dequeue_correct 8 [4096] 8192 [] demo_cfs demo_ok) as (E1 & _ & s' & E2 & Hok & _). split; [exact E1 | by exists s'].
Defined.

Lemma demo_charge : charge (wt demo_cfs 4096) = 1000000 ∧ charge (wt demo_cfs 8192) = 1248780.
Proof. by vm_compute. Qed.

Lemma cfs_fair_share_witness :
  ∃ picks s', cfs_turns 8 1000 demo_cfs = Ret (picks, s') ∧ Z.abs (count 4096 picks * 1000000 - count 8192 picks * 1248780) ≤ 2497560.
Proof.
  destruct (cfs_fair_share 8 1000 1248780 9 [4096; 8192] demo_cfs demo_fair ltac:(done) ltac:(lia)) as (picks & s' & ps' & E1 & _ & _ & _ & Hsh).
  exists picks, s'. split; [exact E1|]. destruct (Hsh 4096 8192 ltac:(left) ltac:(right; left)) as [Hc _]. clear E1.
  destruct demo_charge as [H1 H2]. rewrite H1, H2 in Hc. exact Hc.
Defined.

Lemma cfs_no_starvation_witness :
  ∃ n picks s', Z.of_nat n ≤ 1 ∧ cfs_turns 8 n demo_cfs = Ret (picks, s') ∧ cfs_pick_next_task 8 s' = Ret (8192, s').
Proof.
  assert (∀ p, p ∈ [4096; 8192] → p = 4096 ∨ p = 8192) as Hps by set_solver.
  apply (cfs_no_starvation 8 8192 [4096; 8192] demo_cfs demo_ok).
  - intros q [->| ->]%Hps; by vm_compute.
  - intros q [->| ->]%Hps; by vm_compute.
  - right. left.
  - by vm_compute.
Defined.

Lemma cfs_set_nice_correct_witness :
  ∃ s', cfs_set_task_nice 8 8192 (-30) demo_cfs = Ret (tt, s') ∧ cfs_ok 8 [4096; 8192] s' ∧
    procs s' !! 8192 = Some (reniced (-20) 88761 (demo_entity 9 820 1)).
Proof.
  destruct (cfs_set_nice_correct 8 [4096; 8192] demo_cfs 8192 (demo_entity 9 820 1) (-30) demo_ok eq_refl) as (w & s' & Hw & E1 & Hok & P1); [set_solver|].
  exists s'. split_and!; try done. rewrite P1, lookup_insert_eq. by injection Hw as <-.
Defined.

Lemma cfs_set_nice_miscounts_witness :
  ∃ s', cfs_set_task_nice 8 12288 0 demo_cfs = Ret (tt, s') ∧ total_weight (rq s') ≠ weights s' [4096; 8192].
Proof.
  destruct (cfs_set_nice_miscounts 8 [4096; 8192] demo_cfs 12288 (demo_entity 0 0 0) 0 _ demo_ok eq_refl ltac:(set_solver) ltac:(done) eq_refl eq_refl)
    as (w & s' & Hw & E1 & Hne).
  exists s'. split; [done|]. apply Hne. by injection Hw as <-.
Defined.
